(* ===== verification/_CoqProject ===== *)
-Q . S2P
Prelude.v
JsString.v
JsObject.v
JsNumber.v
JsValue.v
JsJson.v
Uri.v
QueryString.v
JqClasses.v
Dom.v
PcapTasks.v
PcapTasksFacts.v
PcapAlerts.v
PcapTheorems.v
FormFields.v
FormSubmit.v
FormTheorems.v
FormUpload.v
FormUploadTheorems.v
FormBind.v
JqVal.v
JsDate.v
Cookie.v
TableHelpers.v
JqCallbacks.v
JqCallbacksTheorems.v
JqWhen.v
JsInt.v
DtUtil.v
JqExtend.v
JqAjaxTypes.v
JqAjax.v
JqXhr.v
JqAjaxTheorems.v
JqAjaxAnswers.v
DtModel.v
DtTypes.v
DtSort.v
DtSortTheorems.v
JsRegExp.v
JqEvent.v
JqEventNamespaces.v
JqEventTheorems.v
JqEventOff.v
JqEventCalls.v
JqEventDispatch.v
JqTrigger.v
JqQueue.v
DtFilter.v
DtFilterTheorems.v
DtFilterRows.v
DtPage.v
DtPath.v
DtData.v
DtDraw.v
DtDrawTheorems.v
DtState.v
DtHeader.v
DtHeaderTheorems.v
DtColumns.v
DtSelect.v
DtSelectTheorems.v
DtIds.v
DtCells.v
DtSelection.v
DtSelectMouse.v
DtSelectionTheorems.v
DtSelectMarks.v
DtSelectClicks.v
DtSelectReload.v
DtOptions.v
DtOptionsTheorems.v
PageSearch.v
PageSearchTheorems.v
PageConf.v
PageDashboard.v
DateFormat.v
DateFormatTheorems.v
DatePicker.v
DatePickerTheorems.v
