(* ===== verification/Prelude.v ===== *)
(** * A verification library for the PcapDB web front end

    PcapDB is a packet capture system; the search head serves the pages with which analysts
    search captures and watch the tasks of the capture nodes.  This library models the scripts
    of these pages and the parts of the libraries the scripts stand on that carry logic of
    their own, and proves them correct.  The pages are under src/core/apps/search_head_gui/templates/,
    all other paths under src/core/apps/search_head_gui/static/theme/ : [js/] holds the scripts, [plugins/jquery/src/]
    jQuery, and [plugins/datatables-new/DataTables-1.10.12/js/jquery.dataTables.js] (called
    dataTables below) the table library.

    ** The parts and how they interact

    The page calls the task API of the server every few seconds ([js/pcapdb.js]); the answers
    become boxes in the side bar and alerts above the content, through the class operations of
    jQuery.  The search page ([search.html]) starts a search, waits for its task among these
    answers and then loads the table of results; the pages of the configuration ([conf/]) and the
    dashboard act on tables and charts in the same way.  Forms are submitted by the form plugin ([js/jquery.form.js]), which encodes them as a
    query string ([serialize.js]) and sends them through a request or, for files, a hidden iframe.
    Requests ([ajax.js], [ajax/xhr.js]) report through deferreds, which are made of callback lists
    ([deferred.js], [callbacks.js]); scripts and libraries react to events bound with namespaces
    ([event.js]), and work that must happen one piece after the other waits in queues ([queue.js]).  The results are shown in tables: rows come from data or from the server, a
    change of data, search or order starts a redraw, which detects the types of the columns,
    sorts all rows, filters the sorted rows, takes the window of the page and puts its rows into
    the document; the programming interface of the table selects rows and columns by selectors and
    modifiers, and the Select extension marks what the user clicks and keeps it over a reload; the
    options of a table come from several sources in two notations; the state of a table is saved in the browser's storage as JSON.

    ** The files

    Language and library functions, modelled from their definition in the language:
    - [Prelude]: literals, the tactics and rewrite hints, equality of strings;
    - [JsString], [JsNumber], [JsInt], [JsValue], [JsObject], [JsJson], [JsRegExp], [Uri]: UTF-16
      strings, binary64 numbers with their conversions, the integral numbers positions live in,
      values with JSON, dictionaries in enumeration order, regular expressions, URI components.

    The page:
    - [Dom]: elements with child lists and parent pointers, the jQuery methods that move them;
      [JqClasses]: [addClass], [removeClass], [toggleClass], [hasClass] (attributes/classes.js);
    - [PcapTasks], [PcapTasksFacts], [PcapAlerts], [PcapTheorems]: js/pcapdb.js.  A [page] record holds
      the document, the variables of the script, timers, animations and requests; each function of
      the script is a function on pages and [step] is the event loop, over which the invariants
      of polling are proved by induction on runs;
    - [PageSearch], [PageSearchTheorems]: search.html over that page: the request of a search, the
      results that are shown when the task succeeds, the reading of a query, the timer of the keys;
    - [PageConf]: the pages under conf/: locator lights, the tables of disks over [DtData], users,
      capture buttons; [PageDashboard]: the graphs of the charts of dashboard.html;
    - [JsDate], [DateFormat], [DateFormatTheorems], [DatePicker], [DatePickerTheorems]: the date picker of the search page
      ([plugins/jquery-ui/jquery-ui.js]): the calendar and the dates of the language in a time zone, the reading and writing
      of dates in a format, which are shown to be inverse, the instances of the picker with their calendar, its clicks and
      keys, and that the days they keep are within their limits and are the ones that are read back;
    - [TableHelpers]: js/datatables-helpers.js and js/sb-admin-2.js; [Cookie]: js/jquery.cookie.js, against a class of
      browsers with laws for [document.cookie], which the visit of a page with its path and its clock implements.

    Events and queues (jQuery):
    - [JqEvent]: the tables of handlers of the elements, [add], [remove], [handlers] and [dispatch]
      of event.js, with the handlers of [mouseenter] and its kind, against an interface of special events; [JqEventNamespaces]: the expression
      built from namespaces tests inclusion; [JqEventTheorems]: the shape of the tables;
      [JqEventOff], [JqEventCalls], [JqEventDispatch]: exact removal, preservation by every call
      and the order of dispatch; [JqTrigger]: [trigger], with bubbling and the native method;
    - [JqQueue]: queue.js, the queues of elements as machines of promises.

    Forms and requests:
    - [JqExtend]: [extend] of core.js;
    - [JqAjaxTypes], [JqAjax], [JqXhr]: ajax.js and ajax/xhr.js, prefilters and transports, the
      conversions of an answer, the request as a state machine driven by the network, by timers and
      by [abort]; [JqAjaxTheorems], [JqAjaxAnswers]: its invariant, and the outcomes of answers;
    - [QueryString]: [param] (serialize.js) and its inverse in the form plugin;
    - [FormFields], [FormSubmit], [FormTheorems], [FormBind]: js/jquery.form.js, the data of a form, the
      submission with its hooks as state transformers, the bindings of [ajaxForm];
    - [FormUpload], [FormUploadTheorems]: the iframe upload as a machine driven by timers, load
      events, aborts and documents ([ustep]);
    - [JqVal]: [val] and [serializeArray] (attributes/val.js, serialize.js), and that the
      form plugin gathers the same data;
    - [JqCallbacks], [JqCallbacksTheorems]: callback lists and the deferred object, with callbacks that
      operate on the lists while they fire; [JqWhen]: [jQuery.when] and [then] against an interface of
      deferreds (a class with laws), which the callback lists implement.

    The table (dataTables):
    - [DtUtil]: the helpers; [DtModel]: the settings, columns and rows as records;
    - [DtTypes]: detection of the types of columns, sort and search formatters; [DtSort],
      [DtSortTheorems]: ordering; [DtFilter], [DtFilterTheorems], [DtFilterRows]: searching;
    - [DtPage]: page changes, page length, information text and pager; [DtPath]: data sources with
      dotted paths, array and function notation; [DtData]: adding, removing and invalidating rows;
    - [DtDraw], [DtDrawTheorems]: drawing and server-side answers; [DtState]: the saved state;
    - [DtHeader], [DtHeaderTheorems], [DtColumns]: the grid of a header, columns shown and hidden;
    - [DtSelect], [DtSelectTheorems], [DtIds]: selectors of rows and columns with their modifiers, and
      the index of the ids of rows;
    - [DtCells]: selectors of cells; [DtSelection], [DtSelectMouse]: the Select extension
      ([plugins/datatables-new/Select-1.2.0/js/dataTables.select.js]), flags and classes beside the
      table, its methods, clicks, ranges, settings and reloads; [DtSelectionTheorems]: each method
      selects or deselects exactly its items; [DtSelectMarks], [DtSelectClicks], [DtSelectReload]: the
      marks under every sequence of operations, what a click selects, what a reload keeps;
    - [DtOptions], [DtOptionsTheorems]: the two notations of options and the options that take effect.

    ** What the theorems show

    Invariants: the task list and the map of tasks stay well-formed and hold exactly the tasks of
    the last answer; there is a single polling loop (and what is left when an event breaks it); the results of a
    search are loaded exactly once, when the page learns that its task has succeeded; a chart shows one graph for each column
    that is not ignored; the selected day follows the keys within its limits; a deferred
    settles once, and so does a request, whose counter of active requests is balanced; binding and
    unbinding keep the tables of handlers well-formed; a list of callbacks is never read beyond its end; removing rows keeps the index
    arrays consistent; the window of a table stays on a page; row nodes, header and footer hold
    exactly the visible columns; the marks of the selection are those of the selected items, and
    single selections stay single.  Refinements: the server-side table implements an abstract table
    that shows the last accepted answer; [jQuery.when] its specification over any deferred; the
    class operations the operations on lists of names; the smart search the test for all words.
    Functional correctness: the sort is the unique stable order by the sorted columns; a search keeps exactly the
    rows whose cells have its words; a draw puts exactly the window into the page; unbinding removes exactly the handlers of the given
    type, namespaces, selector and function; dispatch calls delegated handlers from the target
    outwards, then the direct ones, up to where the event is stopped; a native method called by [trigger] does not run the handlers
    again; a queue runs its functions in the order of arrival and its promise settles when it is
    empty; the option that takes effect is the one of the most specific source; a click selects what the keys
    say and a reload selects the same rows again, by their ids; alerts, styles and links of the
    pager are the right ones; the text of a date names the day that is read from it, no text keeps the
    date picker busy for ever unless the format has times, and its calendar shows each day of a month on its day of the week.  Round trips: dates in a format, form submission, the request of a search, cookies, saved state, data sources and
    the request for selected rows.  Equivalences: incremental and full search, the type detection
    and a reference, the two serializers of a form.  Errors, bounds and liveness: the polling
    period, the places of the pager, when a submission throws, what restarts a stalled poll.

    ** Conventions, bounds and fuel

    A string is a list of 16-bit units; a number is a binary64 value in [JsNumber], an integer with
    NaN and the infinities in [JsInt] where the source only keeps positions and counts, far below
    2^53.  [None] is an exception, unless a file says otherwise.  Recursion that is not structural
    has fuel that is shown to be enough: [json_parse] twice the length of its text; the parser of
    regular expressions the length of the pattern; the words of a search the length of the
    input; data sources one more than the number of components of the path; the removal of a
    class name one more than the length of the attribute; the inspection of prefilters two more than
    the number of structures; the conversions of an answer one more than twice the number of its
    types; the removal of handlers of all types the two levels of the recursion; the day of the year one more than its number,
    which [doy_loop_good] shows to be enough for years that have months; the months the picker goes back the distance of two months, which is none
    when the selected day is within the limits ([draw_start_shown]); the shortest decimal of a number 17
    digits, which determine every binary64 value.  Callback lists can re-enter for ever, so [run]
    is fuelled without a bound in general: [handlers_in_order] shows termination with the result
    for handlers that only compute, and the safety theorems hold for every fuel.

    Code outside the sources is a parameter where it is used: the case mapping and case folding of
    Unicode, time zones ([TimeZone], with the laws [ZoneLaws]), the cookies of a browser ([Browser], with the laws [CookieLaws]), [Date.parse] and the clock, the text a browser finds in HTML, plug-ins of the page
    (type detectors, orders, searches, row ids, hooks), functions among the data of a table, the
    selector engine, the network with its transports, special events, the native methods of nodes, and the names a browser gives to its storage.  Hypotheses about them are
    stated where they are used, each with a witness that instantiates them.

    ** Not modelled

    Effects, styles and the selector engine of jQuery are the browser interface that the components
    call.  Of its events: the copy of native events and the hooks that set up, tear down and trigger particular special events; of its
    requests: [ajaxSetup], the script and jsonp transports, and options that are functions.  Of dataTables: scrolling and the measuring of widths, which need the layout
    of the browser, the reading of rows from the document, and the option builders of controls
    (search box, length menu), which only create elements.  Minified and generated files, the
    chart and export libraries, the widgets and the buttons of the table library are
    third-party code whose state is the page.  Of the date picker: the HTML around its cells, positions, animations and
    dialogs, the calendar that several fields share, and handlers of the page that call the picker again.  Of the pages' own scripts: the options of
    tables and charts, which are set once, and the functions that put members of a row
    into HTML.  The server (Python) and the capture and index
    programs (C) are in other languages; answers of the server are arguments of the page model. *)

From Stdlib Require Import Strings.Byte.
From Stdlib Require Export ZArith Lia.
From stdpp Require Export base tactics gmap numbers option.
From stdpp Require Export list.

#[export] Set Warnings "-clear-no-such-hyp".

(** ** Literals for UTF-16 strings

    A JavaScript string is a sequence of 16-bit code units; the library models it
    as a list of [N].  [js] literals give the units of an ASCII literal. *)

Inductive unit_list :=
  | UNil
  | UCons (u : N) (s : unit_list).

Fixpoint units_of_bytes (l : list byte) : unit_list :=
  match l with
  | [] => UNil
  | b :: t => UCons (Byte.to_N b) (units_of_bytes t)
  end.

Fixpoint bytes_of_units (l : unit_list) : option (list byte) :=
  match l with
  | UNil => Some []
  | UCons u s =>
      match Byte.of_N u, bytes_of_units s with
      | Some b, Some t => Some (b :: t)
      | _, _ => None
      end
  end.

Declare Scope js_scope.
Delimit Scope js_scope with js.
#[warnings="-via-type-mismatch"]
String Notation list units_of_bytes bytes_of_units
  (via unit_list mapping [[nil] => UNil, [cons] => UCons]) : js_scope.
Abbreviation jstring := (list N).

Bind Scope js_scope with unit_list.
Definition jeqb (s t : jstring) : bool := bool_decide (s = t).
Infix "=s?" := jeqb (at level 70) : stdpp_scope.

Create HintDb js.
Create Rewrite HintDb js.

(** ** Tactics of the library *)

(** Case analysis on every [match]/[if]/[decide] of the goal, closing the easy cases. *)
Ltac case_goal := repeat first [case_match | case_decide]; simplify_eq/=; try done.

(** Same on a hypothesis. *)
Ltac case_hyp H :=
  repeat match type of H with
  | context [match ?x with _ => _ end] => destruct x eqn:?
  end; simplify_eq/=; try done.

(** Turn boolean tests of the hypotheses into propositions. *)
Ltac bools :=
  repeat match goal with
  | H : bool_decide _ = true |- _ => apply bool_decide_eq_true_1 in H
  | H : bool_decide _ = false |- _ => apply bool_decide_eq_false_1 in H
  | H : jeqb _ _ = true |- _ => apply bool_decide_eq_true_1 in H
  | H : jeqb _ _ = false |- _ => apply bool_decide_eq_false_1 in H
  | H : (_ && _)%bool = true |- _ => apply andb_true_iff in H as [? ?]
  | H : (_ || _)%bool = false |- _ => apply orb_false_iff in H as [? ?]
  | H : negb _ = true |- _ => apply negb_true_iff in H
  | H : negb _ = false |- _ => apply negb_false_iff in H
  end.

Lemma jeqb_refl s : (s =s? s) = true.
Proof. by apply bool_decide_eq_true_2. Qed.

Lemma jeqb_true s t : (s =s? t) = true ↔ s = t.
Proof. apply bool_decide_eq_true. Qed.

Lemma jeqb_false s t : (s =s? t) = false ↔ s ≠ t.
Proof. apply bool_decide_eq_false. Qed.

#[export] Hint Rewrite jeqb_refl : js.
