(* ===== verification/JsString.v ===== *)
(** * Strings of the language

    The operations of [String.prototype] and [Array.prototype.join] that the sources
    use, on lists of UTF-16 code units, with the lemmas about tokens (maximal runs of
    units other than white space) that the class and query-string code needs. *)

From S2P Require Import Prelude.
#[local] Open Scope N_scope.
#[local] Open Scope nat_scope.

(** ** White space

    [\s] of ECMAScript 5: the units of WhiteSpace and LineTerminator. *)
Definition is_ws (u : N) : bool :=
  ((9 <=? u) && (u <=? 13) || (u =? 32) || (u =? 160) || (u =? 5760)
   || ((8192 <=? u) && (u <=? 8202)) || (u =? 8232) || (u =? 8233) || (u =? 8239)
   || (u =? 8287) || (u =? 12288) || (u =? 65279))%N.

(** ** Searching and replacing *)

Fixpoint starts_with (p s : jstring) : bool :=
  match p, s with
  | [], _ => true
  | a :: p', b :: s' => bool_decide (a = b) && starts_with p' s'
  | _ :: _, [] => false
  end.

(** [s.indexOf(p)]: [None] stands for -1. *)
Fixpoint index_of (p s : jstring) : option nat :=
  if starts_with p s then Some 0
  else match s with
       | [] => None
       | _ :: s' => S <$> index_of p s'
       end.

Definition contains (p s : jstring) : bool :=
  match index_of p s with Some _ => true | None => false end.

(** [s.replace(p, r)] with a string pattern: the first occurrence only. *)
Definition replace_first (p r s : jstring) : jstring :=
  match index_of p s with
  | Some i => take i s ++ r ++ drop (i + length p) s
  | None => s
  end.

(** [s.replace(/[..]/g, r)]: every unit of a class replaced. *)
Definition replace_units (f : N → bool) (r s : jstring) : jstring :=
  flat_map (λ u, if f u then r else [u]) s.

(** [s.split(sep)] for a non-empty separator. *)
Fixpoint split_go (sep s : jstring) (skip : nat) (cur : jstring) : list jstring :=
  match s with
  | [] => [rev cur]
  | c :: t =>
      match skip with
      | S k => split_go sep t k cur
      | 0 =>
          if starts_with sep s then rev cur :: split_go sep t (length sep - 1) []
          else split_go sep t 0 (c :: cur)
      end
  end.
Definition split (sep s : jstring) : list jstring := split_go sep s 0 [].

(** [a.join(sep)]. *)
Fixpoint join (sep : jstring) (l : list jstring) : jstring :=
  match l with
  | [] => []
  | [x] => x
  | x :: t => x ++ sep ++ join sep t
  end.

(** [s.match(/\S+/g) || []]. *)
Fixpoint words_go (s : jstring) (cur : jstring) : list jstring :=
  match s with
  | [] => match cur with [] => [] | _ => [rev cur] end
  | c :: t =>
      if is_ws c then
        match cur with [] => words_go t [] | _ => rev cur :: words_go t [] end
      else words_go t (c :: cur)
  end.
Definition words (s : jstring) : list jstring := words_go s [].

(** [s.trim()]: drop the white space at both ends. *)
Fixpoint trim_left (s : jstring) : jstring :=
  match s with
  | [] => []
  | c :: t => if is_ws c then trim_left t else s
  end.
Definition trim (s : jstring) : jstring := rev (trim_left (rev (trim_left s))).

(** [s.slice(a, b)] for [0 <= a]. *)
Definition slice (a b : nat) (s : jstring) : jstring := take (b - a) (drop a s).

(** ** Tokens *)

Definition token (t : jstring) : Prop := t ≠ [] ∧ Forall (λ u, is_ws u = false) t.

#[export] Instance token_dec t : Decision (token t).
Proof. unfold token. apply _. Defined.

Lemma words_go_ws s c t cur :
  is_ws c = true → words_go (s ++ c :: t) cur = words_go s cur ++ words t.
Proof.
  intros Hc. revert cur. induction s as [|d s IH]; intros cur; simpl.
  - rewrite Hc. by destruct cur.
  - destruct (is_ws d); [|apply IH].
    destruct cur; simpl; by rewrite IH.
Qed.

Lemma words_app_ws s c t : is_ws c = true → words (s ++ c :: t) = words s ++ words t.
Proof. apply words_go_ws. Qed.

Lemma words_go_token t cur :
  Forall (λ u, is_ws u = false) t →
  words_go t cur = match rev cur ++ t with [] => [] | x => [x] end.
Proof.
  intros Ht. revert cur. induction Ht as [|c t Hc _ IH]; intros cur; simpl.
  - rewrite app_nil_r. destruct cur as [|a cur]; [done|].
    by destruct (rev (a :: cur)) eqn:E; [apply (f_equal length) in E; rewrite length_rev in E|].
  - rewrite Hc, IH. simpl. by rewrite <- app_assoc.
Qed.

Lemma words_token t : token t → words t = [t].
Proof. intros [Hne Ht]. unfold words. rewrite words_go_token by done. by destruct t. Qed.

Lemma words_nil : words [] = [].
Proof. done. Qed.

Lemma words_all_tokens s : Forall token (words s).
Proof.
  unfold words.
  assert (∀ cur, Forall (λ u, is_ws u = false) cur → Forall token (words_go s cur)) as H;
    [|by apply H].
  assert (∀ c cur, Forall (λ u, is_ws u = false) (c :: cur) → token (rev (c :: cur))) as Hrev.
  { intros c cur Hc. split; [|by apply Forall_reverse in Hc; rewrite rev_alt in *].
    intros E. by apply (f_equal length) in E; rewrite length_rev in E. }
  induction s as [|c s IH]; intros cur Hcur; simpl.
  - destruct cur; [done|]. by constructor; [apply Hrev|].
  - destruct (is_ws c) eqn:Hc; [|by apply IH; constructor].
    destruct cur; [by apply IH|]. constructor; [by apply Hrev|by apply IH].
Qed.

Lemma words_cons_ws c s : is_ws c = true → words (c :: s) = words s.
Proof. intros Hc. change (words ([] ++ c :: s) = words s). by rewrite words_app_ws. Qed.

Lemma words_trim_left s : words (trim_left s) = words s.
Proof.
  induction s as [|c s IH]; simpl; [done|].
  destruct (is_ws c) eqn:Hc; [|done]. by rewrite IH, words_cons_ws.
Qed.

(** [trim_left] removes a white-space prefix. *)
Lemma trim_left_prefix s : ∃ p, s = p ++ trim_left s ∧ Forall (λ u, is_ws u = true) p.
Proof.
  induction s as [|c s (p & Hp & Hw)]; simpl; [by exists []|].
  destruct (is_ws c) eqn:Hc; [|by exists []].
  exists (c :: p). simpl. split; [by f_equal|by constructor].
Qed.

Lemma words_app_all_ws s p : Forall (λ u, is_ws u = true) p → words (s ++ p) = words s.
Proof.
  induction p as [|c p IH] using rev_ind; intros Hp; [by rewrite app_nil_r|].
  apply Forall_app in Hp as [Hp [Hc _]%Forall_cons].
  rewrite app_assoc, words_app_ws, words_nil, app_nil_r by done. by apply IH.
Qed.

Lemma words_trim s : words (trim s) = words s.
Proof.
  unfold trim. destruct (trim_left_prefix (rev (trim_left s))) as (p & Hp & Hw).
  rewrite <- (words_trim_left s).
  replace (trim_left s) with (rev (trim_left (rev (trim_left s))) ++ rev p) at 2
    by (by rewrite <- rev_app_distr, <- Hp, rev_involutive).
  symmetry. apply words_app_all_ws. rewrite rev_alt. by apply Forall_reverse.
Qed.

Lemma trim_Forall (P : N → Prop) s : Forall P s → Forall P (trim s).
Proof.
  assert (∀ l, Forall P l → Forall P (trim_left l)) as H.
  { intros l Hl. destruct (trim_left_prefix l) as (p & Hp & _).
    rewrite Hp in Hl. by apply Forall_app in Hl as [_ ?]. }
  intros Hs. unfold trim. rewrite !rev_alt. by apply Forall_reverse, H, Forall_reverse, H.
Qed.

(** ** Splitting what a join produced *)

Lemma starts_with_app p s : starts_with p (p ++ s) = true.
Proof. induction p as [|a p IH]; [done|]. simpl. by rewrite bool_decide_eq_true_2, IH by done. Qed.

Lemma split_go_skip sep t s cur : split_go sep (t ++ s) (length t) cur = split_go sep s 0 cur.
Proof. induction t as [|a t IH]; [done|]. exact IH. Qed.

Lemma split_go_piece c sep t s cur :
  c ∉ t → split_go (c :: sep) (t ++ s) 0 cur = split_go (c :: sep) s 0 (rev t ++ cur).
Proof.
  revert cur. induction t as [|a t IH]; intros cur H; [done|].
  apply not_elem_of_cons in H as [Ha H]. cbn [app split_go starts_with].
  rewrite bool_decide_eq_false_2 by done. cbn [andb]. rewrite IH by done. simpl.
  by rewrite <- app_assoc.
Qed.

Lemma split_go_sep c sep s cur :
  split_go (c :: sep) ((c :: sep) ++ s) 0 cur = rev cur :: split_go (c :: sep) s 0 [].
Proof.
  cbn [app split_go]. rewrite (starts_with_app (c :: sep) s : starts_with _ (c :: sep ++ s) = _).
  cbn [length]. rewrite Nat.sub_succ, Nat.sub_0_r. by rewrite split_go_skip.
Qed.

(** [split] inverts [join] when no piece holds the first unit of the separator. *)
Lemma split_join c sep l :
  l ≠ [] → Forall (λ t, c ∉ t) l → split (c :: sep) (join (c :: sep) l) = l.
Proof.
  intros Hl Hf. unfold split. induction Hf as [|t l Ht Hf IH]; [done|]. destruct l as [|t' l].
  - simpl. rewrite <- (app_nil_r t) at 1. rewrite split_go_piece by done. simpl.
    by rewrite app_nil_r, rev_involutive.
  - change (join (c :: sep) (t :: t' :: l)) with (t ++ (c :: sep) ++ join (c :: sep) (t' :: l)).
    rewrite split_go_piece, split_go_sep, app_nil_r, rev_involutive by done. by rewrite IH.
Qed.
