(* ===== verification/JsObject.v ===== *)
(** * Objects used as dictionaries

    An ordinary object with string keys, as an association list in property creation
    order.  [for_in] enumerates the keys in the order engines use: the array-index keys
    in ascending order, then the others in creation order. *)

From S2P Require Import Prelude JsString.

Abbreviation jsobj V := (list (jstring * V)).

Section obj.
Context {V : Type}.
Implicit Types (o : jsobj V) (k : jstring) (v : V).

(** [o[k]]: [None] is [undefined]. *)
Fixpoint obj_get k o : option V :=
  match o with
  | [] => None
  | (k', v) :: t => if decide (k' = k) then Some v else obj_get k t
  end.

(** [o[k] = v]: a property keeps its place, a new one goes last. *)
Fixpoint obj_set k v o : jsobj V :=
  match o with
  | [] => [(k, v)]
  | (k', v') :: t => if decide (k' = k) then (k', v) :: t else (k', v') :: obj_set k v t
  end.

Definition obj_keys o : list jstring := o.*1.

Lemma obj_get_set k k' v o :
  obj_get k (obj_set k' v o) = if decide (k' = k) then Some v else obj_get k o.
Proof.
  induction o as [|[k1 v1] o IH]; simpl; [done|].
  destruct (decide (k1 = k')) as [->|]; simpl; [by case_decide|].
  rewrite IH. repeat case_decide; naive_solver.
Qed.

Lemma obj_keys_set k v o :
  obj_keys (obj_set k v o) = if decide (k ∈ obj_keys o) then obj_keys o else obj_keys o ++ [k].
Proof.
  unfold obj_keys. induction o as [|[k1 v1] o IH]; [done|]. cbn [obj_set].
  destruct (decide (k1 = k)) as [->|Hne]; cbn [fmap list_fmap fst].
  - by rewrite decide_True by (by left).
  - rewrite IH. unfold fmap. repeat case_decide; rewrite ?elem_of_cons in *; naive_solver.
Qed.

Lemma obj_get_keys k o : is_Some (obj_get k o) ↔ k ∈ obj_keys o.
Proof.
  unfold obj_keys. induction o as [|[k1 v1] o IH]; simpl.
  - split; [by intros [? ?]|inversion 1].
  - rewrite elem_of_cons, <- IH. case_decide; subst; naive_solver.
Qed.

Lemma NoDup_obj_set k v o : NoDup (obj_keys o) → NoDup (obj_keys (obj_set k v o)).
Proof.
  intros H. rewrite obj_keys_set. case_decide; [done|].
  apply NoDup_app. split_and!; [done| |apply NoDup_singleton].
  intros x Hx ->%list_elem_of_singleton. done.
Qed.

(** An object built by assigning a list of pairs in order. *)
Definition obj_assign (l : list (jstring * V)) o : jsobj V :=
  foldl (λ o kv, obj_set kv.1 kv.2 o) o l.

Lemma obj_assign_keys l o k : k ∈ obj_keys (obj_assign l o) ↔ k ∈ obj_keys o ∨ k ∈ l.*1.
Proof.
  revert o. induction l as [|[k1 v1] l IH]; intros o; simpl.
  - split; [auto|]. intros [?|H]; [done|inversion H].
  - rewrite IH, obj_keys_set, elem_of_cons. case_decide.
    + split; [tauto|]. intros [?|[->|?]]; auto.
    + rewrite elem_of_app, list_elem_of_singleton. tauto.
Qed.

Lemma obj_assign_get_notin l o k : k ∉ l.*1 → obj_get k (obj_assign l o) = obj_get k o.
Proof.
  revert o. induction l as [|[k1 v1] l IH]; intros o H; simpl; [done|].
  rewrite fmap_cons, not_elem_of_cons in H. destruct H as [? ?].
  rewrite IH, obj_get_set by done. by rewrite decide_False.
Qed.

Lemma obj_assign_get l o k v : NoDup (l.*1) → (k, v) ∈ l → obj_get k (obj_assign l o) = Some v.
Proof.
  revert o. induction l as [|[k1 v1] l IH]; intros o Hnd Hin; [by inversion Hin|]. simpl.
  rewrite fmap_cons, NoDup_cons in Hnd. destruct Hnd as [Hn Hnd].
  apply elem_of_cons in Hin as [[= -> ->]|Hin]; [|by apply IH].
  rewrite obj_assign_get_notin, obj_get_set by done. by rewrite decide_True.
Qed.

Lemma NoDup_obj_assign l o : NoDup (obj_keys o) → NoDup (obj_keys (obj_assign l o)).
Proof.
  revert o. induction l as [|[k1 v1] l IH]; intros o H; simpl; [done|].
  apply IH, NoDup_obj_set, H.
Qed.
End obj.

(** ** Enumeration order *)

Definition digit (u : N) : option N := if ((48 <=? u) && (u <=? 57))%N then Some (u - 48)%N else None.

Fixpoint digits_val (s : jstring) (acc : N) : option N :=
  match s with
  | [] => Some acc
  | c :: t => d ← digit c; digits_val t (10 * acc + d)%N
  end.

(** The canonical numeric strings below [2^32 - 1] are array indices. *)
Definition array_index (s : jstring) : option N :=
  match s with
  | [] => None
  | [48%N] => Some 0%N
  | 48%N :: _ => None
  | _ => n ← digits_val s 0; if (n <? 4294967295)%N then Some n else None
  end.

Fixpoint insert_key (n : N) (k : jstring) (l : list (N * jstring)) : list (N * jstring) :=
  match l with
  | [] => [(n, k)]
  | (m, k') :: t => if (m <=? n)%N then (m, k') :: insert_key n k t else (n, k) :: l
  end.

Fixpoint index_keys (ks : list jstring) : list (N * jstring) :=
  match ks with
  | [] => []
  | k :: t =>
      match array_index k with Some n => insert_key n k (index_keys t) | None => index_keys t end
  end.

Definition for_in {V} (o : jsobj V) : list jstring :=
  (index_keys (obj_keys o)).*2
  ++ filter (λ k, array_index k = None) (obj_keys o).

Example for_in_ex : for_in [("b"%js, 0); ("10"%js, 1); ("2"%js, 2); ("01"%js, 3)]
  = ["2"%js; "10"%js; "b"%js; "01"%js].
Proof. reflexivity. Qed.

Lemma insert_key_perm n k l : insert_key n k l ≡ₚ (n, k) :: l.
Proof.
  induction l as [|[m k'] l IH]; simpl; [done|]. case_match; [|done].
  rewrite IH. apply Permutation_swap.
Qed.

Lemma for_in_perm {V} (o : jsobj V) : for_in o ≡ₚ obj_keys o.
Proof.
  unfold for_in. generalize (obj_keys o). intros ks. induction ks as [|k ks IH]; [done|].
  cbn [index_keys]. destruct (array_index k) as [n|] eqn:E.
  - rewrite filter_cons_False by naive_solver. rewrite insert_key_perm. simpl. by rewrite IH.
  - rewrite filter_cons_True by done. rewrite <- Permutation_middle. by rewrite IH.
Qed.

Lemma elem_of_for_in {V} (o : jsobj V) k : k ∈ for_in o ↔ k ∈ obj_keys o.
Proof. by rewrite for_in_perm. Qed.
