(* ===== verification/JsNumber.v ===== *)
(** * Numbers

    IEEE binary64 values with the conversions the language defines from and to strings. *)

From Stdlib Require Export Floats.SpecFloat.
From S2P Require Import Prelude JsString.
#[local] Open Scope Z_scope.

Abbreviation num := spec_float.
Definition fadd : num → num → num := SFadd 53 1024.
Definition fsub : num → num → num := SFsub 53 1024.
Definition fmul : num → num → num := SFmul 53 1024.
Definition fdiv : num → num → num := SFdiv 53 1024.
Definition nan : num := S754_nan.
Definition is_nan (x : num) : bool := match x with S754_nan => true | _ => false end.

(** An integer as a number, rounded. *)
Definition num_of_Z (z : Z) : num := binary_normalize 53 1024 z 0 false.

(** [x < y], [x == y]: false as soon as one is NaN. *)
Definition flt (x y : num) : bool := match SFcompare x y with Some Lt => true | _ => false end.
Definition feq (x y : num) : bool := match SFcompare x y with Some Eq => true | _ => false end.

#[export] Instance num_eq_dec : EqDecision num.
Proof. solve_decision. Defined.

(** The number nearest to [m * 10^k]. *)
Definition dec_num (neg : bool) (m k : Z) : num :=
  if m =? 0 then S754_zero neg
  else if 0 <=? k then binary_normalize 53 1024 (cond_Zopp neg (m * 10 ^ k)) 0 neg
  else
    let '(q, e, l) := SFdiv_core_binary 53 1024 m 0 (10 ^ (- k)) 0 in
    binary_round_aux 53 1024 neg q e l.

(** ** From strings *)

Definition digit_of (u : N) : option Z :=
  if ((48 <=? u) && (u <=? 57))%N then Some (Z.of_N u - 48) else None.

(** The leading digits: their value, how many there are, and what follows. *)
Fixpoint take_digits (s : jstring) (acc : Z) (n : nat) : Z * nat * jstring :=
  match s with
  | c :: t => match digit_of c with Some d => take_digits t (10 * acc + d) (S n) | None => (acc, n, s) end
  | [] => (acc, n, [])
  end.

Definition sign_of (s : jstring) : bool * jstring :=
  match s with
  | c :: t => if (c =? 45)%N then (true, t) else if (c =? 43)%N then (false, t) else (false, s)
  | [] => (false, [])
  end.

(** An exponent part, when one follows. *)
Definition take_exponent (s : jstring) : Z * jstring :=
  match s with
  | c :: t =>
      if (c =? 101)%N || (c =? 69)%N then
        let '(neg, t) := sign_of t in
        let '(v, n, r) := take_digits t 0 0 in
        if (n =? 0)%nat then (0, s) else (if neg then - v else v, r)
      else (0, s)
  | [] => (0, [])
  end.

(** The longest decimal literal at the front of the string. *)
Definition scan_decimal (s : jstring) : option (num * jstring) :=
  let '(neg, t) := sign_of s in
  if starts_with "Infinity"%js t then Some (S754_infinity neg, drop 8 t)
  else
    let '(ip, ni, r) := take_digits t 0 0 in
    let '(m, nf, r) :=
      match r with
      | 46%N :: r' => let '(v, n, r'') := take_digits r' ip 0 in
                      if ((ni =? 0) && (n =? 0))%nat then (ip, O, r) else (v, n, r'')
      | _ => (ip, O, r)
      end in
    if ((ni =? 0) && (nf =? 0))%nat then None
    else
      let '(e, r) := take_exponent r in
      Some (dec_num neg m (e - Z.of_nat nf), r).

Definition radix_digit (b : Z) (u : N) : option Z :=
  let d := if ((48 <=? u) && (u <=? 57))%N then Z.of_N u - 48
           else if ((65 <=? u) && (u <=? 70))%N then Z.of_N u - 55
           else if ((97 <=? u) && (u <=? 102))%N then Z.of_N u - 87 else 99 in
  if d <? b then Some d else None.

Fixpoint radix_val (b : Z) (s : jstring) (acc : Z) : option Z :=
  match s with
  | [] => Some acc
  | c :: t => d ← radix_digit b c; radix_val b t (b * acc + d)
  end.

Definition radix_num (b : Z) (s : jstring) : num :=
  match s with
  | [] => nan
  | _ => match radix_val b s 0 with Some z => num_of_Z z | None => nan end
  end.

(** [Number(s)] *)
Definition num_of_string (s : jstring) : num :=
  match trim s with
  | [] => S754_zero false
  | (48%N :: c :: t) as s' =>
      if (c =? 120)%N || (c =? 88)%N then radix_num 16 t
      else if (c =? 111)%N || (c =? 79)%N then radix_num 8 t
      else if (c =? 98)%N || (c =? 66)%N then radix_num 2 t
      else match scan_decimal s' with Some (x, []) => x | _ => nan end
  | s' => match scan_decimal s' with Some (x, []) => x | _ => nan end
  end.

(** [parseFloat(s)] *)
Definition parse_float (s : jstring) : num :=
  match scan_decimal (trim_left s) with Some (x, _) => x | None => nan end.

(** [parseInt(s, 10)] *)
Definition parse_int (s : jstring) : num :=
  let '(neg, t) := sign_of (trim_left s) in
  let '(v, n, _) := take_digits t 0 0 in
  if (n =? 0)%nat then nan else dec_num neg v 0.

(** ** To strings *)

Fixpoint digits_go (fuel : nat) (z : Z) (acc : jstring) : jstring :=
  match fuel with
  | O => acc
  | S f => let acc := (48 + Z.to_N (z mod 10))%N :: acc in
           if z <? 10 then acc else digits_go f (z / 10) acc
  end.
(** The decimal digits of a non-negative integer: one binary digit of fuel per bit. *)
Definition digits_of (z : Z) : jstring := digits_go (S (Z.to_nat (Z.log2 z))) z [].

Definition str_of_Z (z : Z) : jstring :=
  if z <? 0 then "-"%js ++ digits_of (- z) else digits_of z.
Definition str_of_nat (n : nat) : jstring := digits_of (Z.of_nat n).

(** The decade [n] with [10^(n-1) <= p/q < 10^n]. *)
Fixpoint small_decade (fuel : nat) (p q : Z) (n : Z) : Z :=
  match fuel with
  | O => n
  | S f => if q <=? p * 10 then n else small_decade f (p * 10) q (n - 1)
  end.
Definition decade (p q : Z) : Z :=
  if q <=? p then Z.of_nat (length (digits_of (p / q))) else small_decade 400 p q 0.

(** The shortest digits [s] and decade [n] that read back as [p/q], searched by length. *)
Fixpoint shortest (fuel : nat) (x : num) (p q n : Z) (k : Z) : Z * Z :=
  let scale := k - n in
  let '(a, b) := if 0 <=? scale then (p * 10 ^ scale, q) else (p, q * 10 ^ (- scale)) in
  let lo := a / b in
  match fuel with
  | O => (lo, n)
  | S f =>
      let ok s := bool_decide (dec_num false s (n - k) = x) in
      let near := if 2 * (a - lo * b) <=? b then lo else lo + 1 in
      let far := if near =? lo then lo + 1 else lo in
      let norm s := if s =? 10 ^ k then (10 ^ (k - 1), n + 1) else (s, n) in
      if ok near && negb (near =? 0) then norm near
      else if ok far && negb (far =? 0) then norm far
      else shortest f x p q n (k + 1)
  end.

Definition zeros (n : Z) : jstring := repeat 48%N (Z.to_nat n).

Definition format_digits (digits : jstring) (n : Z) : jstring :=
  let k := Z.of_nat (length digits) in
  if (k <=? n) && (n <=? 21) then digits ++ zeros (n - k)
  else if (0 <? n) && (n <=? 21) then
    take (Z.to_nat n) digits ++ "."%js ++ drop (Z.to_nat n) digits
  else if (-6 <? n) && (n <=? 0) then "0."%js ++ zeros (- n) ++ digits
  else
    let e := (if n - 1 <? 0 then "-"%js else "+"%js) ++ digits_of (Z.abs (n - 1)) in
    match digits with
    | [d] => d :: "e"%js ++ e
    | d :: rest => d :: "."%js ++ rest ++ "e"%js ++ e
    | [] => []
    end.

(** [String(x)] *)
Definition num_to_string (x : num) : jstring :=
  match x with
  | S754_nan => "NaN"%js
  | S754_zero _ => "0"%js
  | S754_infinity false => "Infinity"%js
  | S754_infinity true => "-Infinity"%js
  | S754_finite neg m e =>
      let '(p, q) := if 0 <=? e then (Zpos m * 2 ^ e, 1) else (Zpos m, 2 ^ (- e)) in
      let '(s, n) := shortest 17 (S754_finite false m e) p q (decade p q) 1 in
      (if neg then "-"%js else []) ++ format_digits (digits_of s) n
  end.

(** [parseFloat(x)] of a number: its string reads back as the number itself, but for the
    sign of zero. *)
Definition parse_float_num (x : num) : num := parse_float (num_to_string x).

Example num_ex1 : num_to_string (num_of_string " 1.5 "%js) = "1.5"%js.
Proof. vm_compute. reflexivity. Qed.
Example num_ex2 : num_to_string (fadd (num_of_string "0.1"%js) (num_of_string "0.2"%js))
  = "0.30000000000000004"%js.
Proof. vm_compute. reflexivity. Qed.
Example num_ex3 : num_to_string (num_of_string "1e21"%js) = "1e+21"%js.
Proof. vm_compute. reflexivity. Qed.
Example num_ex4 : num_to_string (num_of_string "-0.000001"%js) = "-0.000001"%js.
Proof. vm_compute. reflexivity. Qed.
Example num_ex5 : num_to_string (num_of_string "5e-324"%js) = "5e-324"%js.
Proof. vm_compute. reflexivity. Qed.
Example num_ex6 : num_to_string (num_of_string "123456789012345680000"%js) = "123456789012345680000"%js.
Proof. vm_compute. reflexivity. Qed.
Example num_ex7 : is_nan (num_of_string "12px"%js) = true ∧ num_to_string (parse_float "12px"%js) = "12"%js.
Proof. vm_compute. split; reflexivity. Qed.
Example num_ex8 : num_to_string (num_of_string "0x1F"%js) = "31"%js.
Proof. vm_compute. reflexivity. Qed.
Example num_ex9 : num_to_string (num_of_string "1.7976931348623157e308"%js) = "1.7976931348623157e+308"%js.
Proof. vm_compute. reflexivity. Qed.
Example num_ex10 : num_to_string (num_of_string ".5e1"%js) = "5"%js ∧ is_nan (num_of_string "."%js) = true.
Proof. vm_compute. split; reflexivity. Qed.
