(* ===== verification/JsValue.v ===== *)
(** * Values

    The values the scripts pass around as data (rows, cells, options, request bodies):
    primitives, arrays and plain objects, with the conversions of the language. *)

From S2P Require Import Prelude JsString JsObject JsNumber.

#[warnings="-register-all"]
Inductive val :=
  | VUndef
  | VNull
  | VBool (b : bool)
  | VNum (x : num)
  | VStr (s : jstring)
  | VArr (l : list val)
  | VObj (o : jsobj val).

(** Induction with the values inside arrays and objects. *)
Lemma val_ind' (P : val → Prop) :
  P VUndef → P VNull → (∀ b, P (VBool b)) → (∀ x, P (VNum x)) → (∀ s, P (VStr s)) →
  (∀ l, Forall P l → P (VArr l)) → (∀ o, Forall (λ kv, P kv.2) o → P (VObj o)) →
  ∀ v, P v.
Proof.
  intros H1 H2 H3 H4 H5 H6 H7. fix IH 1.
  intros [| |b|x|s|l|o]; [exact H1|exact H2|exact (H3 b)|exact (H4 x)|exact (H5 s)|clear H7|clear H6].
  - apply H6. induction l as [|v l IHl]; constructor; [apply IH|exact IHl].
  - apply H7. induction o as [|[k v] o IHo]; constructor; [apply IH|exact IHo].
Qed.

(** Equality of values, decided structurally. *)
Fixpoint val_eqb (v w : val) : bool :=
  match v, w with
  | VUndef, VUndef | VNull, VNull => true
  | VBool a, VBool b => Bool.eqb a b
  | VNum x, VNum y => bool_decide (x = y)
  | VStr s, VStr t => s =s? t
  | VArr l, VArr l' =>
      (fix go l l' := match l, l' with
                      | [], [] => true
                      | a :: l, b :: l' => val_eqb a b && go l l'
                      | _, _ => false
                      end) l l'
  | VObj o, VObj o' =>
      (fix go o o' := match o, o' with
                      | [], [] => true
                      | a :: o, b :: o' => (a.1 =s? b.1) && val_eqb a.2 b.2 && go o o'
                      | _, _ => false
                      end) o o'
  | _, _ => false
  end.

Lemma val_eqb_true v w : val_eqb v w = true ↔ v = w.
Proof.
  revert w. induction v as [| |b|x|s|l IH|o IH] using val_ind'; intros w;
    destruct w as [| |b'|x'|s'|l'|o']; cbn [val_eqb]; try done.
  - rewrite Bool.eqb_true_iff. split; congruence.
  - rewrite bool_decide_eq_true. split; congruence.
  - rewrite jeqb_true. split; congruence.
  - transitivity (l = l'); [|split; congruence]. revert l'. induction IH as [|v l Hv _ IHl]; intros [|w l']; try done.
    rewrite andb_true_iff, Hv, IHl. split; [intros [-> ->]; done|by intros [= -> ->]].
  - transitivity (o = o'); [|split; congruence].
    revert o'. induction IH as [|[k v] o Hv _ IHo]; intros [|[k' w] o']; try done.
    cbn [fst snd] in *. rewrite !andb_true_iff, jeqb_true, Hv, IHo.
    split; [intros [[-> ->] ->]; done|by intros [= -> -> ->]].
Qed.

#[export] Instance val_eq_dec : EqDecision val.
Proof.
  intros v w. destruct (val_eqb v w) eqn:E.
  - left. by apply val_eqb_true.
  - right. rewrite <- val_eqb_true. by rewrite E.
Defined.

(** [!v] *)
Definition truthy (v : val) : bool :=
  match v with
  | VUndef | VNull => false
  | VBool b => b
  | VNum x => match x with S754_nan | S754_zero _ => false | _ => true end
  | VStr s => negb (s =s? [])
  | VArr _ | VObj _ => true
  end.

(** [v == null] *)
Definition nullish (v : val) : bool := match v with VUndef | VNull => true | _ => false end.

(** [v === undefined] *)
Definition is_undef (v : val) : bool := match v with VUndef => true | _ => false end.

(** [String(v)] *)
Fixpoint to_string (v : val) : jstring :=
  match v with
  | VUndef => "undefined"%js
  | VNull => "null"%js
  | VBool true => "true"%js
  | VBool false => "false"%js
  | VNum x => num_to_string x
  | VStr s => s
  | VArr l => join ","%js (map (λ v, if nullish v then [] else to_string v) l)
  | VObj _ => "[object Object]"%js
  end.

(** [Number(v)] *)
Definition to_number (v : val) : num :=
  match v with
  | VUndef => nan
  | VNull => S754_zero false
  | VBool b => num_of_Z (if b then 1 else 0)
  | VNum x => x
  | VStr s => num_of_string s
  | VArr _ | VObj _ => num_of_string (to_string v)
  end.

(** [v[k]] of a value that is not null or undefined. *)
Definition get_prop (v : val) (k : jstring) : val :=
  match v with
  | VObj o => default VUndef (obj_get k o)
  | VArr l =>
      if k =s? "length"%js then VNum (num_of_Z (Z.of_nat (length l)))
      else match array_index k with
           | Some i => default VUndef (l !! N.to_nat i)
           | None => VUndef
           end
  | VStr s => if k =s? "length"%js then VNum (num_of_Z (Z.of_nat (length s))) else VUndef
  | _ => VUndef
  end.

(** ** JSON.stringify *)

Definition hex4 (u : N) : jstring :=
  let h n := (if n <? 10 then 48 + n else 87 + n)%N in
  [h (u / 4096 mod 16); h (u / 256 mod 16); h (u / 16 mod 16); h (u mod 16)]%N.

Definition lone (u : N) (rest : jstring) : bool :=
  ((0xD800 <=? u) && (u <=? 0xDBFF))%N
  && match rest with d :: _ => negb ((0xDC00 <=? d) && (d <=? 0xDFFF))%N | [] => true end.

(** The inside of a JSON string; [low]: the unit completes a surrogate pair. *)
Fixpoint json_chars (low : bool) (s : jstring) : jstring :=
  match s with
  | [] => []
  | u :: t =>
      let next := ((0xD800 <=? u) && (u <=? 0xDBFF))%N && negb (lone u t) in
      (if (u =? 34)%N then [92; 34]
       else if (u =? 92)%N then [92; 92]
       else if (u =? 8)%N then "\b"%js
       else if (u =? 9)%N then "\t"%js
       else if (u =? 10)%N then "\n"%js
       else if (u =? 12)%N then "\f"%js
       else if (u =? 13)%N then "\r"%js
       else if (u <? 32)%N then "\u"%js ++ hex4 u
       else if lone u t then "\u"%js ++ hex4 u
       else if ((0xDC00 <=? u) && (u <=? 0xDFFF))%N && negb low then "\u"%js ++ hex4 u
       else [u])%N ++ json_chars next t
  end.
Definition json_quote (s : jstring) : jstring := 34%N :: json_chars false s ++ [34%N].

(** [None] stands for undefined. *)
Fixpoint json_stringify (v : val) : option jstring :=
  match v with
  | VUndef => None
  | VNull => Some "null"%js
  | VBool true => Some "true"%js
  | VBool false => Some "false"%js
  | VNum x => match x with S754_nan | S754_infinity _ => Some "null"%js
                         | _ => Some (num_to_string x) end
  | VStr s => Some (json_quote s)
  | VArr l =>
      Some ("["%js ++ join ","%js (map (λ v, default "null"%js (json_stringify v)) l) ++ "]"%js)
  | VObj o =>
      let o' := omap (λ kv, match json_stringify kv.2 with
                            | Some s => Some (kv.1, s) | None => None end) o in
      Some ("{"%js ++ join ","%js
              (omap (λ k, match obj_get k o' with
                          | Some s => Some (json_quote k ++ ":"%js ++ s) | None => None end)
                 (for_in o)) ++ "}"%js)
  end.

Example json_ex :
  json_stringify (VObj [("b"%js, VArr [VNum (num_of_Z 1); VUndef]); ("a"%js, VUndef);
                        ("2"%js, VStr "x\y"%js)])
  = Some ("{"%js ++ json_quote "2"%js ++ ":"%js ++ json_quote "x\y"%js ++ ","%js
          ++ json_quote "b"%js ++ ":[1,null]}"%js).
Proof. vm_compute. reflexivity. Qed.

(** Strict equality of primitives; arrays and objects are compared by identity, which these
    values do not carry. *)
Definition strict_eq_prim (v w : val) : bool :=
  match v, w with
  | VUndef, VUndef | VNull, VNull => true
  | VBool a, VBool b => Bool.eqb a b
  | VNum x, VNum y => feq x y
  | VStr s, VStr t => s =s? t
  | _, _ => false
  end.
