(* ===== verification/JsJson.v ===== *)
(** * JSON.parse

    The parser of the language for the texts [json_stringify] writes (saved states, cookies,
    request bodies), and its round trip. *)

From Stdlib Require Import ZifyBool.
From S2P Require Import Prelude JsString JsObject JsNumber JsValue.

(** ** Numbers *)

Definition is_digit (u : N) : bool := ((48 <=? u) && (u <=? 57))%N.
Definition num_char (u : N) : bool :=
  is_digit u || existsb (N.eqb u) "+-.eE"%js.

Fixpoint take_while (f : N → bool) (s : jstring) : jstring * jstring :=
  match s with
  | c :: t => if f c then let '(a, b) := take_while f t in (c :: a, b) else ([], s)
  | [] => ([], [])
  end.

(** An optional minus sign, an integer without leading zeros, then an optional fraction and
    an optional exponent. *)
Definition exp_ok (s : jstring) : bool :=
  match s with
  | [] => true
  | c :: t =>
      ((c =? 101) || (c =? 69))%N
      && let t' := match t with u :: t' => if ((u =? 43) || (u =? 45))%N then t' else t | [] => [] end in
         negb (t' =s? []) && forallb is_digit t'
  end.
Definition frac_ok (s : jstring) : bool :=
  match s with
  | 46%N :: t => let '(d, r) := take_while is_digit t in negb (d =s? []) && exp_ok r
  | _ => exp_ok s
  end.
Definition json_number_ok (s : jstring) : bool :=
  let s := match s with 45%N :: t => t | _ => s end in
  match s with
  | 48%N :: t => frac_ok t
  | c :: t => is_digit c && let '(_, r) := take_while is_digit t in frac_ok r
  | [] => false
  end.

(** ** Strings *)

Definition hex_val (u : N) : option N :=
  if is_digit u then Some (u - 48)%N
  else if ((65 <=? u) && (u <=? 70))%N then Some (u - 55)%N
  else if ((97 <=? u) && (u <=? 102))%N then Some (u - 87)%N
  else None.

Definition simple_escape (u : N) : option N :=
  if (u =? 34)%N then Some 34%N else if (u =? 92)%N then Some 92%N
  else if (u =? 47)%N then Some 47%N else if (u =? 98)%N then Some 8%N
  else if (u =? 102)%N then Some 12%N else if (u =? 110)%N then Some 10%N
  else if (u =? 114)%N then Some 13%N else if (u =? 116)%N then Some 9%N
  else None.

(** The characters up to the closing quote, and what follows it. *)
Fixpoint parse_chars (s : jstring) : option (jstring * jstring) :=
  match s with
  | [] => None
  | c :: t =>
      if (c =? 34)%N then Some ([], t)
      else if (c <? 32)%N then None
      else if (c =? 92)%N then
        match t with
        | e :: t' =>
            if (e =? 117)%N then
              match t' with
              | h1 :: h2 :: h3 :: h4 :: t'' =>
                  a ← hex_val h1; b ← hex_val h2; c ← hex_val h3; d ← hex_val h4;
                  '(r, rest) ← parse_chars t'';
                  Some ((4096 * a + 256 * b + 16 * c + d)%N :: r, rest)
              | _ => None
              end
            else
              u ← simple_escape e; '(r, rest) ← parse_chars t'; Some (u :: r, rest)
        | [] => None
        end
      else '(r, rest) ← parse_chars t; Some (c :: r, rest)
  end.

(** ** Values *)

Definition json_ws (u : N) : bool := ((u =? 32) || (u =? 9) || (u =? 10) || (u =? 13))%N.
Definition skip_ws (s : jstring) : jstring := (take_while json_ws s).2.

Fixpoint parse_value (fuel : nat) (s : jstring) : option (val * jstring) :=
  match fuel with
  | O => None
  | S f =>
      match skip_ws s with
      | [] => None
      | c :: t =>
          if (c =? 34)%N then '(x, r) ← parse_chars t; Some (VStr x, r)
          else if (c =? 91)%N then                                       (* [ *)
            match skip_ws t with
            | 93%N :: r => Some (VArr [], r)
            | r => '(l, r) ← parse_items f r; Some (VArr l, r)
            end
          else if (c =? 123)%N then                                      (* { *)
            match skip_ws t with
            | 125%N :: r => Some (VObj [], r)
            | r => '(o, r) ← parse_members f r []; Some (VObj o, r)
            end
          else if starts_with "null"%js (c :: t) then Some (VNull, drop 3 t)
          else if starts_with "true"%js (c :: t) then Some (VBool true, drop 3 t)
          else if starts_with "false"%js (c :: t) then Some (VBool false, drop 4 t)
          else
            let '(lexeme, r) := take_while num_char (c :: t) in
            if json_number_ok lexeme then Some (VNum (num_of_string lexeme), r) else None
      end
  end
(** The items of an array, up to the closing bracket. *)
with parse_items (fuel : nat) (s : jstring) : option (list val * jstring) :=
  match fuel with
  | O => None
  | S f =>
      '(v, r) ← parse_value f s;
      match skip_ws r with
      | c :: r =>
          if (c =? 44)%N then '(l, r) ← parse_items f r; Some (v :: l, r)
          else if (c =? 93)%N then Some ([v], r) else None
      | [] => None
      end
  end
(** The members of an object, added to those read so far: a repeated key keeps its place and
    takes the last value. *)
with parse_members (fuel : nat) (s : jstring) (acc : jsobj val) : option (jsobj val * jstring) :=
  match fuel with
  | O => None
  | S f =>
      match skip_ws s with
      | 34%N :: t =>
          '(k, r) ← parse_chars t;
          match skip_ws r with
          | 58%N :: r =>
              '(v, r) ← parse_value f r;
              let acc := obj_set k v acc in
              match skip_ws r with
              | c :: r =>
                  if (c =? 44)%N then parse_members f r acc
                  else if (c =? 125)%N then Some (acc, r) else None
              | [] => None
              end
          | _ => None
          end
      | _ => None
      end
  end.

(** [JSON.parse(s)]; [None]: it throws.  Every call consumes a unit or hands over to one that
    does, so twice the length is fuel enough. *)
Definition json_parse (s : jstring) : option val :=
  '(v, r) ← parse_value (S (2 * length s)) s;
  match skip_ws r with [] => Some v | _ => None end.

Example json_parse_ex :
  json_parse (" {"%js ++ json_quote "a"%js ++ ": [1, -2.5e1,true], "%js ++ json_quote "b"%js
              ++ ":null}"%js)
  = Some (VObj [("a"%js, VArr [VNum (num_of_Z 1); VNum (num_of_Z (-25)); VBool true]);
                ("b"%js, VNull)]).
Proof. vm_compute. reflexivity. Qed.
Example json_parse_bad : json_parse "[1,]"%js = None ∧ json_parse "01"%js = None.
Proof. vm_compute. split; reflexivity. Qed.

(** ** Round trip *)

Definition unit16_ (u : N) : Prop := (u < 65536)%N.

Definition hexd (n : N) : N := (if n <? 10 then 48 + n else 87 + n)%N.

Lemma hex_val_hexd n : (n < 16)%N → hex_val (hexd n) = Some n.
Proof.
  intros H. unfold hexd, hex_val, is_digit. destruct (N.ltb_spec n 10).
  - replace ((48 <=? 48 + n) && (48 + n <=? 57))%N with true by lia. f_equal. lia.
  - replace ((48 <=? 87 + n) && (87 + n <=? 57))%N with false by lia.
    replace ((65 <=? 87 + n) && (87 + n <=? 70))%N with false by lia.
    replace ((97 <=? 87 + n) && (87 + n <=? 102))%N with true by lia. f_equal. lia.
Qed.

Lemma parse_hex4 u r x rest :
  (u < 65536)%N → parse_chars r = Some (x, rest) →
  parse_chars ("\u"%js ++ hex4 u ++ r) = Some (u :: x, rest).
Proof.
  intros Hu H. change (parse_chars ("\u"%js ++ hex4 u ++ r)) with
    (a ← hex_val (hexd (u / 4096 mod 16)); b ← hex_val (hexd (u / 256 mod 16));
     c ← hex_val (hexd (u / 16 mod 16)); d ← hex_val (hexd (u mod 16));
     '(x, rest) ← parse_chars r; Some ((4096 * a + 256 * b + 16 * c + d)%N :: x, rest)).
  rewrite !hex_val_hexd by (apply N.mod_lt; done). cbn [mbind option_bind]. rewrite H. cbn.
  do 2 f_equal. f_equal. zify. Z.to_euclidean_division_equations. lia.
Qed.

Lemma parse_json_chars s low rest :
  Forall unit16_ s → parse_chars (json_chars low s ++ 34%N :: rest) = Some (s, rest).
Proof.
  intros H. revert low. induction H as [|u s Hu Hs IH]; intros low; [done|].
  cbn [json_chars]. set (next := _ && negb (lone u s)). specialize (IH next).
  rewrite <- app_assoc. revert IH. generalize (json_chars next s ++ 34%N :: rest). intros r IH.
  repeat match goal with
  | |- context [if (u =? ?k)%N then _ else _] =>
      destruct (N.eqb_spec u k) as [->|?]; [cbn; by rewrite IH|]
  end.
  destruct (u <? 32)%N eqn:E32; [rewrite <- app_assoc; by apply parse_hex4|].
  destruct (lone u s); [rewrite <- app_assoc; by apply parse_hex4|].
  destruct (_ && negb low); [rewrite <- app_assoc; by apply parse_hex4|].
  cbn [app parse_chars]. rewrite (proj2 (N.eqb_neq u 34)), E32, (proj2 (N.eqb_neq u 92)), IH by done.
  done.
Qed.

(** Values whose text reads back: no undefined value, numbers that print as JSON numbers and
    read back, objects without repeated keys whose keys are enumerated in creation order. *)
Definition num_json (x : num) : bool :=
  json_number_ok (num_to_string x) && forallb num_char (num_to_string x)
  && bool_decide (num_of_string (num_to_string x) = x)
  && match x with S754_finite _ _ _ | S754_zero _ => true | _ => false end.

Fixpoint json_val (v : val) : Prop :=
  match v with
  | VUndef => False
  | VNull | VBool _ => True
  | VNum x => num_json x = true
  | VStr s => Forall unit16_ s
  | VArr l => (fix all l := match l with [] => True | v :: l => json_val v ∧ all l end) l
  | VObj o =>
      NoDup (obj_keys o) ∧ for_in o = obj_keys o
      ∧ (fix all (o : jsobj val) := match o with
         | [] => True | kv :: o => Forall unit16_ kv.1 ∧ json_val kv.2 ∧ all o end) o
  end.

(** What follows a value inside a text. *)
Definition delim (r : jstring) : Prop :=
  match r with [] => True | c :: _ => c = 44%N ∨ c = 93%N ∨ c = 125%N end.

(** [s] is a text of [v]: it reads back as [v] in front of any delimiter. *)
Definition text_of (v : val) (s : jstring) : Prop :=
  (∃ c t, s = c :: t ∧ json_ws c = false ∧ c ≠ 93%N ∧ c ≠ 125%N)
  ∧ ∀ fuel rest, delim rest → 2 * length s ≤ fuel → parse_value (S fuel) (s ++ rest) = Some (v, rest).

Lemma skip_ws_id c t : json_ws c = false → skip_ws (c :: t) = c :: t.
Proof. intros H. unfold skip_ws. simpl. by rewrite H. Qed.

Lemma skip_ws_text v s r : text_of v s → skip_ws (s ++ r) = s ++ r.
Proof. intros [(c & t & -> & H & _) _]. by apply skip_ws_id. Qed.

Lemma parse_items_text vs ss fuel rest :
  Forall2 text_of vs ss → vs ≠ [] → 2 * length (join ","%js ss) + 2 ≤ fuel →
  parse_items fuel (join ","%js ss ++ 93%N :: rest) = Some (vs, rest).
Proof.
  intros F. revert fuel. induction F as [|v s vs ss Hv F IH]; intros fuel Hne Hf; [done|].
  destruct fuel as [|fuel]; [lia|]. cbn [parse_items]. destruct Hv as [Hc Hp].
  destruct F as [|v' s' vs ss Hv' F].
  - cbn [join] in *. destruct fuel as [|fuel]; [lia|].
    rewrite Hp by (try (right; by left); lia). done.
  - change (join ","%js (s :: s' :: ss)) with (s ++ 44%N :: join ","%js (s' :: ss)) in *.
    rewrite length_app in Hf. cbn [length] in Hf. rewrite <- app_assoc. cbn [app].
    destruct fuel as [|fuel]; [lia|]. rewrite Hp by (try (by left); lia). cbn [mbind option_bind].
    rewrite skip_ws_id by done. cbn [N.eqb Pos.eqb].
    rewrite IH by (try done; lia). done.
Qed.

Lemma obj_set_new {V} k (v : V) o : k ∉ obj_keys o → obj_set k v o = o ++ [(k, v)].
Proof.
  induction o as [|[k' v'] o IH]; intros H; [done|]. cbn [obj_set].
  unfold obj_keys in *. rewrite fmap_cons, not_elem_of_cons in H. destruct H as [? ?]. cbn [fst] in *.
  rewrite decide_False by congruence. by rewrite IH.
Qed.

Lemma parse_members_text o ss acc fuel rest :
  Forall2 (λ kv s, Forall unit16_ kv.1 ∧ ∃ t, s = json_quote kv.1 ++ ":"%js ++ t ∧ text_of kv.2 t) o ss →
  o ≠ [] → NoDup (obj_keys (acc ++ o)) → 2 * length (join ","%js ss) + 2 ≤ fuel →
  parse_members fuel (join ","%js ss ++ 125%N :: rest) acc = Some (acc ++ o, rest).
Proof.
  intros F. revert acc fuel. induction F as [|[k v] s o ss (Hk & t & -> & Ht) F IH];
    intros acc fuel Hne Hnd Hf; [done|]. cbn [fst snd] in *.
  assert (k ∉ obj_keys acc) as Hka.
  { unfold obj_keys in *. rewrite fmap_app, NoDup_app in Hnd. destruct Hnd as (_ & Hd & _).
    intros Hin. apply (Hd k Hin). by left. }
  assert (acc ++ (k, v) :: o = (acc ++ [(k, v)]) ++ o) as Eacc by by rewrite <- app_assoc.
  destruct fuel as [|fuel]; [lia|]. destruct Ht as [Hc Hp].
  assert (∀ r, (r = 125%N :: rest ∧ o = [] ∨ ∃ r', r = 44%N :: r') → 2 * length t ≤ pred fuel → fuel ≠ 0 →
    parse_members (S fuel) ((json_quote k ++ ":"%js ++ t) ++ r) acc =
    match r with
    | 44%N :: r => parse_members fuel r (acc ++ [(k, v)])
    | _ => Some (acc ++ [(k, v)], rest)
    end) as Hone.
  { intros r Hr Hl Hfz. unfold json_quote. rewrite <- !app_assoc. cbn [app parse_members].
    rewrite (skip_ws_id 34%N) by done. rewrite <- app_assoc. cbn [app].
    rewrite parse_json_chars by done. cbn [mbind option_bind]. rewrite skip_ws_id by done.
    destruct fuel as [|fuel]; [done|]. cbn [pred] in Hl.
    rewrite Hp; [|destruct Hr as [[-> _]|[? ->]]; [by right; right|by left]|done].
    cbn [mbind option_bind]. rewrite obj_set_new by done.
    destruct Hr as [[-> _]|[r' ->]]; by rewrite skip_ws_id. }
  destruct F as [|kv' s' o ss Hs' F].
  - cbn [join] in *. rewrite !length_app in Hf. rewrite Hone by (try (left; done); simpl in *; lia). done.
  - change (join ","%js ((json_quote k ++ ":"%js ++ t) :: s' :: ss)) with
      ((json_quote k ++ ":"%js ++ t) ++ 44%N :: join ","%js (s' :: ss)) in *.
    rewrite !length_app in Hf. cbn [length] in Hf. rewrite <- (app_assoc (json_quote k ++ _)).
    cbn [app]. rewrite Hone by (try (right; by eexists); simpl in *; lia).
    rewrite IH; [by rewrite Eacc|done|by rewrite <- Eacc|simpl in *; lia].
Qed.

Lemma take_while_all f s r : forallb f s = true → match r with [] => True | c :: _ => f c = false end →
  take_while f (s ++ r) = (s, r).
Proof.
  intros Hs Hr. induction s as [|c s IH]; cbn [app].
  - destruct r as [|c r]; [done|]. simpl. by rewrite Hr.
  - cbn [forallb] in Hs. apply andb_true_iff in Hs as [Hc Hs]. simpl. rewrite Hc. by rewrite IH.
Qed.

Lemma num_text x : num_json x = true → text_of (VNum x) (num_to_string x).
Proof.
  unfold num_json. rewrite !andb_true_iff, bool_decide_eq_true. intros [[[H H2] Hrt] _].
  destruct (num_to_string x) as [|c t] eqn:E; [done|].
  assert (num_char c = true) as Hc by (cbn [forallb] in H2; by apply andb_true_iff in H2 as [? _]).
  assert (is_digit c = true ∨ c = 45%N) as Hc'.
  { unfold json_number_ok in H. destruct (decide (c = 45%N)) as [->|Hn]; [by right|left].
    assert (match c :: t with 45%N :: t => t | _ => c :: t end = c :: t) as Em.
    { destruct c as [|c]; [done|]. by repeat (destruct c as [c|c|]; try done). }
    rewrite Em in H. destruct (decide (c = 48%N)) as [->|Hn0]; [done|].
    destruct c as [|c]; [done|]. destruct (is_digit (N.pos c)) eqn:Ed; [done|].
    by repeat (destruct c as [c|c|]; try done). }
  assert (c ≠ 34%N ∧ c ≠ 91%N ∧ c ≠ 123%N ∧ c ≠ 110%N ∧ c ≠ 116%N ∧ c ≠ 102%N
    ∧ c ≠ 93%N ∧ c ≠ 125%N ∧ json_ws c = false) as (N1 & N2 & N3 & N4 & N5 & N6 & N7 & N8 & N9).
  { unfold is_digit, json_ws in *. destruct Hc' as [Hd|Hd]; split_and!; lia. }
  split.
  - by exists c, t.
  - intros fuel rest Hd _. cbn [parse_value app]. rewrite skip_ws_id by done.
    rewrite !(proj2 (N.eqb_neq _ _)) by done. cbn [starts_with].
    rewrite !bool_decide_eq_false_2 by congruence. cbn [andb].
    change (c :: t ++ rest) with ((c :: t) ++ rest). rewrite take_while_all; [|done|].
    + cbv iota. by rewrite H, Hrt.
    + destruct rest as [|r rest]; [done|]. unfold num_char, is_digit.
      by destruct Hd as [->|[->| ->]].
Qed.

Lemma omap_lookup_self {V W} (f : V → option W) (g : jstring → W → jstring) (o : jsobj V)
    (o' : jsobj W) :
  NoDup (obj_keys o) → Forall2 (λ kv kw, kv.1 = kw.1 ∧ f kv.2 = Some kw.2) o o' →
  omap (λ kv, match f kv.2 with Some s => Some (kv.1, s) | None => None end) o = o'
  ∧ omap (λ k, match obj_get k o' with Some s => Some (g k s) | None => None end) (obj_keys o)
    = map (λ kw, g kw.1 kw.2) o'.
Proof.
  intros Hnd F. split.
  - clear Hnd. induction F as [|[k v] [k' w] o o' [E1 E2] F IH]; [done|]. cbn in *. subst k'.
    rewrite E2. by f_equal.
  - assert (obj_keys o = obj_keys o') as Ek.
    { clear Hnd. unfold obj_keys. induction F as [|[k v] [k' w] o o' [E1 E2] F IH]; [done|].
      cbn in *. congruence. }
    rewrite Ek in Hnd. rewrite Ek. clear F Ek o f.
    assert (∀ l, (∀ kw, kw ∈ l → obj_get kw.1 o' = Some kw.2) →
      omap (λ k, match obj_get k o' with Some s => Some (g k s) | None => None end) (obj_keys l)
      = map (λ kw, g kw.1 kw.2) l) as H.
    { induction l as [|[k w] l IH]; intros Hl; [done|].
      pose proof (Hl (k, w) ltac:(by left)) as E. cbn in E |- *. rewrite E. cbn. f_equal. apply IH. intros kw Hin. apply Hl. by right. }
    apply H. intros [k w] Hin. cbn. clear H. induction o' as [|[k' w'] o' IH]; [by inversion Hin|].
    cbn [obj_get]. unfold obj_keys in *. rewrite fmap_cons, NoDup_cons in Hnd. destruct Hnd as [Hn Hnd].
    apply elem_of_cons in Hin as [[= -> ->]|Hin]; [by rewrite decide_True|].
    rewrite decide_False; [by apply IH|]. cbn in Hn. intros ->. apply Hn.
    by apply (list_elem_of_fmap_2 fst o' (k, w)).
Qed.

(** A pattern for a bracket does not apply to another unit. *)
Lemma not_bracket b c t {A} (X Y : jstring → A) :
  c ≠ b → b = 93%N → match c :: t with 93%N :: r => X r | r => Y r end = Y (c :: t).
Proof.
  intros H ->. destruct c as [|c]; [done|]. by repeat (destruct c as [c|c|]; try done).
Qed.

(** The texts of the items of an array make up its text. *)
Lemma array_text l ss : Forall2 text_of l ss → text_of (VArr l) ("["%js ++ join ","%js ss ++ "]"%js).
Proof.
  intros F. split; [by do 2 eexists|]. intros fuel rest _ Hf. rewrite !length_app in Hf. cbn [length] in Hf.
  rewrite <- app_assoc. cbn [app parse_value]. rewrite skip_ws_id by done. cbn [N.eqb Pos.eqb].
  rewrite <- app_assoc. cbn [app]. destruct F as [|v s l ss Hv F]; [done|].
  assert (skip_ws (join ","%js (s :: ss) ++ 93%N :: rest) = join ","%js (s :: ss) ++ 93%N :: rest
    ∧ ∃ c t, join ","%js (s :: ss) ++ 93%N :: rest = c :: t ∧ c ≠ 93%N) as (-> & c & t & Ec & Hc).
  { destruct Hv as [(c & t & -> & Hw & H1 & H2) _].
    assert (∃ t', join ","%js ((c :: t) :: ss) ++ 93%N :: rest = c :: t') as [t' ->]
      by (destruct ss; cbn; by eexists).
    split; [by apply skip_ws_id|]. by exists c, t'. }
  assert (parse_items fuel (join ","%js (s :: ss) ++ 93%N :: rest) = Some (v :: l, rest)) as Hi.
  { apply parse_items_text; [by constructor|done|lia]. }
  rewrite Ec in *. etransitivity.
  { apply (not_bracket 93%N c t (λ r, Some (VArr [], r))
      (λ r, '(l, r) ← parse_items fuel r; Some (VArr l, r)) Hc eq_refl). }
  by rewrite Hi.
Qed.

(** Those of the members of an object make up its text. *)
Lemma object_text o ss :
  NoDup (o.*1) →
  Forall2 (λ kv s, Forall unit16_ kv.1 ∧ ∃ t, s = json_quote kv.1 ++ ":"%js ++ t ∧ text_of kv.2 t) o ss →
  text_of (VObj o) ("{"%js ++ join ","%js ss ++ "}"%js).
Proof.
  intros Hnd F2. split; [by do 2 eexists|]. intros fuel rest _ Hf. rewrite !length_app in Hf. cbn [length] in Hf.
  rewrite <- app_assoc. cbn [app parse_value]. rewrite skip_ws_id by done. cbn [N.eqb Pos.eqb].
  rewrite <- app_assoc. cbn [app]. destruct F2 as [|kv s o ss' Hs F2]; [done|].
  assert (∃ t, join ","%js (s :: ss') ++ 125%N :: rest = 34%N :: t) as [t Et].
  { destruct Hs as (_ & t & -> & _). destruct ss'; cbn; by eexists. }
  assert (parse_members fuel (join ","%js (s :: ss') ++ 125%N :: rest) [] = Some (kv :: o, rest)) as Hi.
  { apply (parse_members_text (kv :: o) (s :: ss') [] fuel rest); [by constructor|done|done|lia]. }
  rewrite Et in *. rewrite skip_ws_id by done. by rewrite Hi.
Qed.

(** Every value of [json_val] has a text, and it reads back. *)
Lemma json_text v : json_val v → ∃ s, json_stringify v = Some s ∧ text_of v s.
Proof.
  induction v as [| |b|x|s|l IH|o IH] using val_ind'; intros H.
  - done.
  - eexists. split; [done|]. split; [by do 2 eexists|]. intros fuel rest _ _. done.
  - destruct b; (eexists; split; [done|]; split; [by do 2 eexists|]; intros fuel rest _ _; done).
  - exists (num_to_string x). split; [|by apply num_text]. cbn in H |- *. unfold num_json in H.
    apply andb_true_iff in H as [_ H]. by destruct x.
  - exists (json_quote s). split; [done|]. split; [by do 2 eexists|]. intros fuel rest _ _.
    unfold json_quote. cbn [app parse_value]. rewrite skip_ws_id by done. cbn [N.eqb Pos.eqb].
    rewrite <- app_assoc. cbn [app]. by rewrite parse_json_chars.
  - assert (∃ ss, map (λ v, default "null"%js (json_stringify v)) l = ss ∧ Forall2 text_of l ss)
      as (ss & Es & F).
    { clear -IH H. cbn in H. induction IH as [|v l Hv _ IHl]; [by exists []|].
      destruct H as [H1 H2]. destruct (Hv H1) as (s & E & T). destruct (IHl H2) as (ss & E' & F).
      exists (s :: ss). cbn [map]. rewrite E, E'. by split; [|constructor]. }
    exists ("["%js ++ join ","%js ss ++ "]"%js). split; [cbn; by rewrite Es|by apply array_text].
  - cbn in H. destruct H as (Hnd & Hfo & Hall).
    assert (∃ o', Forall2 (λ kv kw, kv.1 = kw.1 ∧ json_stringify kv.2 = Some kw.2) o o'
      ∧ Forall2 (λ kv s, Forall unit16_ kv.1 ∧ ∃ t, s = json_quote kv.1 ++ ":"%js ++ t ∧ text_of kv.2 t)
          o (map (λ kw, json_quote kw.1 ++ ":"%js ++ kw.2) o')) as (o' & F1 & F2).
    { clear Hnd Hfo. induction IH as [|[k v] o Hv _ IHo]; [by exists []|].
      destruct Hall as (Hk & Hj & Hall). destruct (Hv Hj) as (s & E & T).
      destruct (IHo Hall) as (o' & F1 & F2). exists ((k, s) :: o'). split; constructor; try done.
      cbn [fst snd map]. split; [done|]. by exists s. }
    destruct (omap_lookup_self json_stringify (λ k s, json_quote k ++ ":"%js ++ s) o o' Hnd F1)
      as [E1 E2].
    set (ss := map (λ kw, json_quote kw.1 ++ ":"%js ++ kw.2) o') in *.
    exists ("{"%js ++ join ","%js ss ++ "}"%js). split; [|by apply object_text].
    cbn [json_stringify]. rewrite E1, Hfo. cbv zeta. by rewrite E2.
Qed.

(** What [JSON.stringify] writes for such a value, [JSON.parse] reads back. *)
Lemma json_parse_stringify v s :
  json_val v → json_stringify v = Some s → json_parse s = Some v.
Proof.
  intros Hv Hs. destruct (json_text v Hv) as (s' & Hs' & _ & Hp). rewrite Hs in Hs'. injection Hs' as <-.
  unfold json_parse. specialize (Hp (2 * length s) [] I (le_n _)). rewrite app_nil_r in Hp.
  by rewrite Hp.
Qed.
