(* ===== verification/Uri.v ===== *)
(** * URI components

    The two functions of the language the scripts use to put text in a query string or a
    cookie, on UTF-16 strings.  [None] is the URIError they throw. *)

From Stdlib Require Import ZifyBool.
From S2P Require Import Prelude JsString.
#[local] Open Scope N_scope.

(** ** Encoding *)

(** Letters, digits and [-_.!~*'()]. *)
Definition unreserved (u : N) : bool :=
  (48 <=? u) && (u <=? 57) || (65 <=? u) && (u <=? 90) || (97 <=? u) && (u <=? 122)
  || existsb (N.eqb u) "-_.!~*'()"%js.

Definition hi_surr (u : N) : bool := (0xD800 <=? u) && (u <=? 0xDBFF).
Definition lo_surr (u : N) : bool := (0xDC00 <=? u) && (u <=? 0xDFFF).

Definition hex_digit (n : N) : N := if n <? 10 then 48 + n else 55 + n.
Definition pct (b : N) : jstring := [37; hex_digit (b / 16); hex_digit (b mod 16)].

Definition utf8 (cp : N) : list N :=
  if cp <? 0x80 then [cp]
  else if cp <? 0x800 then [0xC0 + cp / 64; 0x80 + cp mod 64]
  else if cp <? 0x10000 then [0xE0 + cp / 4096; 0x80 + cp / 64 mod 64; 0x80 + cp mod 64]
  else [0xF0 + cp / 262144; 0x80 + cp / 4096 mod 64; 0x80 + cp / 64 mod 64; 0x80 + cp mod 64].

Definition pct_point (cp : N) : jstring := flat_map pct (utf8 cp).

Definition pair_point (hi lo : N) : N := 0x10000 + (hi - 0xD800) * 0x400 + (lo - 0xDC00).

Fixpoint encodeURIComponent (s : jstring) : option jstring :=
  match s with
  | [] => Some []
  | c :: t =>
      if unreserved c then r ← encodeURIComponent t; Some (c :: r)
      else if lo_surr c then None
      else if hi_surr c then
        match t with
        | d :: t' =>
            if lo_surr d then r ← encodeURIComponent t'; Some (pct_point (pair_point c d) ++ r)
            else None
        | [] => None
        end
      else r ← encodeURIComponent t; Some (pct_point c ++ r)
  end.

(** ** Decoding *)

Definition unhex (u : N) : option N :=
  if (48 <=? u) && (u <=? 57) then Some (u - 48)
  else if (65 <=? u) && (u <=? 70) then Some (u - 55)
  else if (97 <=? u) && (u <=? 102) then Some (u - 87)
  else None.

(** A string as units and percent-encoded octets. *)
Inductive piece := Unit_ (u : N) | Octet (b : N).

Fixpoint pieces (s : jstring) : option (list piece) :=
  match s with
  | [] => Some []
  | 37 :: t =>
      match t with
      | h :: l :: t' =>
          a ← unhex h; b ← unhex l; r ← pieces t'; Some (Octet (16 * a + b) :: r)
      | _ => None
      end
  | c :: t => r ← pieces t; Some (Unit_ c :: r)
  end.

Definition cont (b : N) : bool := (0x80 <=? b) && (b <=? 0xBF).

(** A code point as one or two units. *)
Definition units_of (cp : N) : jstring :=
  if cp <? 0x10000 then [cp]
  else [0xD800 + (cp - 0x10000) / 0x400; 0xDC00 + (cp - 0x10000) mod 0x400].

Fixpoint decode_pieces (l : list piece) : option jstring :=
  match l with
  | [] => Some []
  | Unit_ c :: t => r ← decode_pieces t; Some (c :: r)
  | Octet b :: t =>
      if b <? 0x80 then r ← decode_pieces t; Some (b :: r)
      else if (0xC2 <=? b) && (b <=? 0xDF) then
        match t with
        | Octet b1 :: t' =>
            if cont b1 then
              r ← decode_pieces t'; Some (units_of ((b - 0xC0) * 64 + (b1 - 0x80)) ++ r)
            else None
        | _ => None
        end
      else if (0xE0 <=? b) && (b <=? 0xEF) then
        match t with
        | Octet b1 :: Octet b2 :: t' =>
            let cp := (b - 0xE0) * 4096 + (b1 - 0x80) * 64 + (b2 - 0x80) in
            if cont b1 && cont b2 && (0x800 <=? cp) && negb (hi_surr cp || lo_surr cp) then
              r ← decode_pieces t'; Some (units_of cp ++ r)
            else None
        | _ => None
        end
      else if (0xF0 <=? b) && (b <=? 0xF4) then
        match t with
        | Octet b1 :: Octet b2 :: Octet b3 :: t' =>
            let cp := (b - 0xF0) * 262144 + (b1 - 0x80) * 4096 + (b2 - 0x80) * 64 + (b3 - 0x80) in
            if cont b1 && cont b2 && cont b3 && (0x10000 <=? cp) && (cp <=? 0x10FFFF) then
              r ← decode_pieces t'; Some (units_of cp ++ r)
            else None
        | _ => None
        end
      else None
  end.

Definition decodeURIComponent (s : jstring) : option jstring := pieces s ≫= decode_pieces.

Example encode_ex : encodeURIComponent "a b&c"%js = Some "a%20b%26c"%js.
Proof. reflexivity. Qed.
Example encode_smile : encodeURIComponent [0xD83D; 0xDE00] = Some "%F0%9F%98%80"%js.
Proof. reflexivity. Qed.
Example decode_smile : decodeURIComponent "%F0%9F%98%80"%js = Some [0xD83D; 0xDE00].
Proof. reflexivity. Qed.
Example decode_bad : decodeURIComponent "%C0%80"%js = None.
Proof. reflexivity. Qed.

(** ** Round trip *)

Ltac euclid := zify; Z.to_euclidean_division_equations; lia.

Lemma unhex_hex n : n < 16 → unhex (hex_digit n) = Some n.
Proof.
  intros H. unfold hex_digit, unhex.
  destruct (N.ltb_spec n 10).
  - replace ((48 <=? 48 + n) && (48 + n <=? 57)) with true by lia. f_equal. lia.
  - replace ((48 <=? 55 + n) && (55 + n <=? 57)) with false by lia.
    replace ((65 <=? 55 + n) && (55 + n <=? 70)) with true by lia. f_equal. lia.
Qed.

Lemma pieces_pct b s r : b < 256 → pieces s = Some r → pieces (pct b ++ s) = Some (Octet b :: r).
Proof.
  intros Hb H. unfold pct. cbn [app pieces].
  rewrite !unhex_hex by euclid. cbn [mbind option_bind]. rewrite H. cbn. do 3 f_equal. euclid.
Qed.

Lemma pieces_flat l s r :
  Forall (λ b, b < 256) l → pieces s = Some r → pieces (flat_map pct l ++ s) = Some (map Octet l ++ r).
Proof.
  intros Hl H. induction Hl as [|b l Hb _ IH]; [done|]. cbn [flat_map map app].
  rewrite <- app_assoc. by apply pieces_pct.
Qed.

Lemma utf8_bytes cp : cp <= 0x10FFFF → Forall (λ b, b < 256) (utf8 cp).
Proof.
  intros H. unfold utf8.
  destruct (N.ltb_spec cp 0x80); [repeat constructor; euclid|].
  destruct (N.ltb_spec cp 0x800); [repeat constructor; euclid|].
  destruct (N.ltb_spec cp 0x10000); repeat constructor; euclid.
Qed.

(** The octets of a code point decode to its units. *)
Lemma decode_utf8 cp l s :
  cp <= 0x10FFFF → hi_surr cp = false → lo_surr cp = false →
  decode_pieces l = Some s → decode_pieces (map Octet (utf8 cp) ++ l) = Some (units_of cp ++ s).
Proof.
  intros Hc Hh Hl Hs. unfold utf8, hi_surr, lo_surr in *.
  destruct (N.ltb_spec cp 0x80) as [L1|L1].
  { cbn [map app decode_pieces]. replace (cp <? 0x80) with true by euclid. rewrite Hs. cbn.
    unfold units_of. by replace (cp <? 0x10000) with true by euclid. }
  destruct (N.ltb_spec cp 0x800) as [L2|L2].
  { cbn [map app decode_pieces]. unfold cont.
    replace (0xC0 + cp / 64 <? 0x80) with false by euclid.
    replace ((0xC2 <=? 0xC0 + cp / 64) && (0xC0 + cp / 64 <=? 0xDF)) with true by euclid.
    replace ((0x80 <=? 0x80 + cp mod 64) && (0x80 + cp mod 64 <=? 0xBF)) with true by euclid.
    rewrite Hs. cbn [mbind option_bind]. do 3 f_equal. euclid. }
  destruct (N.ltb_spec cp 0x10000) as [L3|L3].
  { cbn [map app decode_pieces]. unfold cont, hi_surr, lo_surr.
    replace (0xE0 + cp / 4096 <? 0x80) with false by euclid.
    replace ((0xC2 <=? 0xE0 + cp / 4096) && (0xE0 + cp / 4096 <=? 0xDF)) with false by euclid.
    replace ((0xE0 <=? 0xE0 + cp / 4096) && (0xE0 + cp / 4096 <=? 0xEF)) with true by euclid.
    replace ((0x80 <=? 0x80 + cp mod 64) && (0x80 + cp mod 64 <=? 0xBF)) with true by euclid.
    replace ((0x80 <=? 0x80 + cp / 64 mod 64) && (0x80 + cp / 64 mod 64 <=? 0xBF)) with true by euclid.
    replace ((0xE0 + cp / 4096 - 0xE0) * 4096 + (0x80 + cp / 64 mod 64 - 0x80) * 64 +
             (0x80 + cp mod 64 - 0x80)) with cp by euclid.
    cbv zeta. rewrite Hh, Hl. replace (0x800 <=? cp) with true by euclid. cbn [andb orb negb].
    by rewrite Hs. }
  cbn [map app decode_pieces]. unfold cont.
  replace (0xF0 + cp / 262144 <? 0x80) with false by euclid.
  replace ((0xC2 <=? 0xF0 + cp / 262144) && (0xF0 + cp / 262144 <=? 0xDF)) with false by euclid.
  replace ((0xE0 <=? 0xF0 + cp / 262144) && (0xF0 + cp / 262144 <=? 0xEF)) with false by euclid.
  replace ((0xF0 <=? 0xF0 + cp / 262144) && (0xF0 + cp / 262144 <=? 0xF4)) with true by euclid.
  replace ((0x80 <=? 0x80 + cp mod 64) && (0x80 + cp mod 64 <=? 0xBF)) with true by euclid.
  replace ((0x80 <=? 0x80 + cp / 64 mod 64) && (0x80 + cp / 64 mod 64 <=? 0xBF)) with true by euclid.
  replace ((0x80 <=? 0x80 + cp / 4096 mod 64) && (0x80 + cp / 4096 mod 64 <=? 0xBF))
    with true by euclid.
  replace ((0xF0 + cp / 262144 - 0xF0) * 262144 + (0x80 + cp / 4096 mod 64 - 0x80) * 4096 +
    (0x80 + cp / 64 mod 64 - 0x80) * 64 + (0x80 + cp mod 64 - 0x80)) with cp by euclid.
  cbv zeta. replace (0x10000 <=? cp) with true by euclid. replace (cp <=? 0x10FFFF) with true by euclid.
  cbn [andb]. by rewrite Hs.
Qed.

(** A UTF-16 unit. *)
Definition unit16 (u : N) : Prop := u < 65536.

(** What the encoding leaves: unreserved units and percent signs. *)
Definition uri_safe (u : N) : Prop := unreserved u = true ∨ u = 37.

Lemma hex_digit_safe n : n < 16 → unreserved (hex_digit n) = true.
Proof. intros H. unfold hex_digit, unreserved. destruct (N.ltb_spec n 10); cbn; lia. Qed.

Lemma pct_point_safe cp : cp <= 0x10FFFF → Forall uri_safe (pct_point cp).
Proof.
  intros H. unfold pct_point. pose proof (utf8_bytes cp H) as Hb.
  induction Hb as [|b l Hb _ IH]; [constructor|]. cbn [flat_map]. apply Forall_app. split; [|done].
  unfold pct. repeat apply Forall_cons_2; [by right|left; apply hex_digit_safe; euclid..|done].
Qed.

Lemma unreserved_not_pct u : unreserved u = true → u ≠ 37.
Proof. by intros H ->. Qed.

Lemma pair_point_bound c d :
  hi_surr c = true → lo_surr d = true →
  pair_point c d <= 0x10FFFF ∧ 0x10000 <= pair_point c d ∧ units_of (pair_point c d) = [c; d].
Proof.
  unfold hi_surr, lo_surr. intros Hc Hd.
  assert (0xD800 <= c <= 0xDBFF ∧ 0xDC00 <= d <= 0xDFFF) as [? ?] by lia.
  unfold pair_point. split_and!; [lia|lia|]. unfold units_of.
  match goal with |- context [?a <? ?b] => replace (a <? b) with false by lia end.
  f_equal; [euclid|]. f_equal. euclid.
Qed.

(** One step of the decoding of a string that was encoded. *)
Lemma decode_step cp e s :
  cp <= 0x10FFFF → hi_surr cp = false → lo_surr cp = false →
  decodeURIComponent e = Some s → decodeURIComponent (pct_point cp ++ e) = Some (units_of cp ++ s).
Proof.
  unfold decodeURIComponent. intros Hc Hh Hl H. destruct (pieces e) as [l|] eqn:E; [|done].
  cbn in H. unfold pct_point. rewrite (pieces_flat _ _ l) by (try done; by apply utf8_bytes).
  cbn. by apply decode_utf8.
Qed.

Lemma pieces_unit c e l : c ≠ 37 → pieces e = Some l → pieces (c :: e) = Some (Unit_ c :: l).
Proof.
  intros Hc H. cbn [pieces]. rewrite H.
  destruct c as [|c]; [done|]. by repeat (destruct c as [c|c|]; try done).
Qed.

Lemma decode_unit c e s :
  c ≠ 37 → decodeURIComponent e = Some s → decodeURIComponent (c :: e) = Some (c :: s).
Proof.
  unfold decodeURIComponent. intros Hc H. destruct (pieces e) as [l|] eqn:E; [|done].
  cbn in H. rewrite (pieces_unit c e l) by done. cbn. by rewrite H.
Qed.

(** Everything [encodeURIComponent] accepts decodes to what it was, and the encoded text has
    only unreserved units and percent signs. *)
Lemma decode_encode s e :
  Forall unit16 s → encodeURIComponent s = Some e →
  decodeURIComponent e = Some s ∧ Forall uri_safe e.
Proof.
  intros Hs. remember (length s) as n eqn:Hn. revert s e Hs Hn.
  induction (lt_wf n) as [n _ IH]. intros s e Hs -> He.
  destruct s as [|c t]; [by injection He as <-|]. apply Forall_cons in Hs as [Hc Ht].
  cbn [encodeURIComponent] in He. destruct (unreserved c) eqn:Hu.
  { destruct (encodeURIComponent t) as [r|] eqn:E; [|done]. injection He as <-.
    destruct (IH (length t) ltac:(simpl; lia) t r Ht eq_refl E) as [D S]. split.
    - apply decode_unit; [by apply unreserved_not_pct|done].
    - constructor; [by left|done]. }
  destruct (lo_surr c) eqn:Hlo; [done|]. destruct (hi_surr c) eqn:Hhi.
  - destruct t as [|d t']; [done|]. destruct (lo_surr d) eqn:Hd; [|done].
    destruct (encodeURIComponent t') as [r|] eqn:E; [|done]. injection He as <-.
    apply Forall_cons in Ht as [_ Ht]. destruct (pair_point_bound c d Hhi Hd) as (B1 & B2 & U).
    destruct (IH (length t') ltac:(simpl; lia) t' r Ht eq_refl E) as [D S]. split.
    + change (c :: d :: t') with ([c; d] ++ t'). rewrite <- U. apply decode_step; [done| | |done];
        unfold hi_surr, lo_surr; lia.
    + apply Forall_app. split; [by apply pct_point_safe|done].
  - destruct (encodeURIComponent t) as [r|] eqn:E; [|done]. injection He as <-. unfold unit16 in Hc.
    destruct (IH (length t) ltac:(simpl; lia) t r Ht eq_refl E) as [D S]. split.
    + assert (units_of c = [c]) as U.
      { unfold units_of. by replace (c <? 0x10000) with true by lia. }
      change (c :: t) with ([c] ++ t). rewrite <- U. apply decode_step; [lia|done|done|done].
    + apply Forall_app. split; [apply pct_point_safe; lia|done].
Qed.

(** The encoding fails only on a lone surrogate. *)
Fixpoint well_formed (s : jstring) : bool :=
  match s with
  | [] => true
  | c :: t =>
      if lo_surr c then false
      else if hi_surr c then match t with d :: t' => lo_surr d && well_formed t' | [] => false end
      else well_formed t
  end.

Lemma unreserved_not_surr c : unreserved c = true → lo_surr c = false ∧ hi_surr c = false.
Proof. unfold unreserved, lo_surr, hi_surr. cbn. lia. Qed.

Lemma encode_defined s : is_Some (encodeURIComponent s) ↔ well_formed s = true.
Proof.
  remember (length s) as n eqn:Hn. revert s Hn. induction (lt_wf n) as [n _ IH]. intros s ->.
  destruct s as [|c t]; [split; by eauto|]. cbn [encodeURIComponent well_formed].
  pose proof (IH (length t) ltac:(simpl; lia) t eq_refl) as It.
  destruct (unreserved c) eqn:Hu.
  { destruct (unreserved_not_surr c Hu) as [-> ->]. rewrite <- It.
    destruct (encodeURIComponent t); simpl; split; intros []; by eauto. }
  destruct (lo_surr c); [split; [intros []; done|done]|]. destruct (hi_surr c).
  - destruct t as [|d t']; [split; [intros []; done|done]|]. destruct (lo_surr d); simpl;
      [|split; [intros []; done|done]].
    rewrite <- (IH (length t') ltac:(simpl; lia) t' eq_refl).
    destruct (encodeURIComponent t'); simpl; split; intros []; by eauto.
  - rewrite <- It. destruct (encodeURIComponent t); simpl; split; intros []; by eauto.
Qed.
