(* ===== verification/QueryString.v ===== *)
(** * Query strings (jquery/src/serialize.js) and their inverse (jquery.form.js)

    [param] is [jQuery.param], [deepSerialize] the function the form plugin uses to turn a
    serialized object back into pairs.  [None] is a URIError. *)

From Stdlib Require Import ZifyBool.
From S2P Require Import Prelude JsString JsObject JsNumber JsValue Uri.

(** [s.replace(/%20/g, '+')] *)
Fixpoint r20 (s : jstring) : jstring :=
  match s with
  | [] => []
  | c :: t =>
      match t with
      | a :: b :: t' =>
          if (c =? 37)%N && (a =? 50)%N && (b =? 48)%N then 43%N :: r20 t' else c :: r20 t
      | _ => c :: r20 t
      end
  end.

(** [rbracket.test(prefix)] *)
Definition ends_brackets (s : jstring) : bool :=
  match rev s with 93%N :: 91%N :: _ => true | _ => false end.

(** [typeof v === "object"]: null included. *)
Definition typeof_object (v : val) : bool :=
  match v with VNull | VArr _ | VObj _ => true | _ => false end.

(** The calls [add(key, value)] that [buildParams(prefix, obj)] makes, in order. *)
Fixpoint buildParams (traditional : bool) (obj : val) (prefix : jstring) : list (jstring * val) :=
  match obj with
  | VArr l =>
      concat (imap (λ i f, f i) (map (λ v i,
        if traditional || ends_brackets prefix then [(prefix, v)]
        else buildParams traditional v
               (prefix ++ "["%js ++ (if typeof_object v then str_of_nat i else []) ++ "]"%js)) l))
  | VObj o =>
      if traditional then [(prefix, obj)]
      else
        let built := map (λ kv, (kv.1, buildParams traditional kv.2
                                  (prefix ++ "["%js ++ kv.1 ++ "]"%js))) o in
        concat (map (λ k, default [] (obj_get k built)) (for_in o))
  | _ => [(prefix, obj)]
  end.

(** The string of a value in [add]. *)
Definition add_value (v : val) : jstring := if nullish v then [] else to_string v.

Definition add (kv : jstring * val) : option jstring :=
  k ← encodeURIComponent kv.1; v ← encodeURIComponent (add_value kv.2); Some (k ++ "="%js ++ v).

Definition serialize (l : list (jstring * val)) : option jstring :=
  s ← mapM add l; Some (r20 (join "&"%js s)).

(** [jQuery.param(a, traditional)] *)
Definition param_calls (a : val) (traditional : bool) : list (jstring * val) :=
  match a with
  | VArr l => map (λ v, (to_string (get_prop v "name"%js), get_prop v "value"%js)) l
  | VObj o => concat (map (λ k, buildParams traditional (default VUndef (obj_get k o)) k) (for_in o))
  | _ => []
  end.
Definition param (a : val) (traditional : bool) : option jstring := serialize (param_calls a traditional).

(** [s.replace(/\+/g, ' ')] *)
Definition plus_to_space (s : jstring) : jstring := map (λ u, if (u =? 43)%N then 32%N else u) s.

Definition decode_part (p : option jstring) : option jstring :=
  decodeURIComponent (default "undefined"%js p).

(** [deepSerialize(extraData)] of the form plugin. *)
Definition deep_pairs (serialized : jstring) : option (list (jstring * jstring)) :=
  mapM (λ s, let part := split "="%js (plus_to_space s) in
             a ← decode_part (part !! 0); b ← decode_part (part !! 1); Some (a, b))
    (split "&"%js serialized).
Definition deepSerialize (extraData : val) (traditional : bool) : option (list (jstring * jstring)) :=
  param extraData traditional ≫= deep_pairs.

Example param_ex :
  param (VObj [("a"%js, VArr [VNum (num_of_Z 1); VArr [VNum (num_of_Z 2)]]);
               ("b c"%js, VObj [("d"%js, VNull)])]) false
  = Some "a%5B%5D=1&a%5B1%5D%5B%5D=2&b+c%5Bd%5D="%js.
Proof. vm_compute. reflexivity. Qed.

(** ** Round trip *)

Lemma r20_space t : r20 (37 :: 50 :: 48 :: t)%N = 43%N :: r20 t.
Proof. done. Qed.

Lemma r20_other c t : starts_with "%20"%js (c :: t) = false → r20 (c :: t) = c :: r20 t.
Proof.
  intros H. cbn [r20]. destruct t as [|a [|b t]]; [done..|]. cbn [starts_with] in H.
  rewrite andb_true_r in H.
  assert ((c =? 37)%N && (a =? 50)%N && (b =? 48)%N = false) as ->; [|done].
  destruct (N.eqb_spec c 37), (N.eqb_spec a 50), (N.eqb_spec b 48); subst; done.
Qed.

(** Cutting at a unit that is none of [%], [2] and [0]. *)
Definition cut_unit (c : N) : Prop := c ≠ 37%N ∧ c ≠ 50%N ∧ c ≠ 48%N.

Lemma r20_cut c x y : cut_unit c → r20 (x ++ c :: y) = r20 x ++ c :: r20 y.
Proof.
  intros (H1 & H2 & H3). remember (length x) as n eqn:Hn. revert x Hn.
  induction (lt_wf n) as [n _ IH]. intros x ->. destruct x as [|a x].
  { cbn [app]. apply r20_other. cbn [starts_with]. by rewrite bool_decide_eq_false_2. }
  cbn [app]. destruct (starts_with "%20"%js (a :: x)) eqn:E.
  - destruct x as [|b [|d x]]; cbn [starts_with] in E; [by rewrite andb_false_r in E|
      by rewrite !andb_false_r in E|]. bools. subst. cbn [app].
    rewrite !r20_space. by rewrite (IH (length x) ltac:(simpl; lia) x eq_refl).
  - rewrite (r20_other a x) by done. rewrite r20_other.
    + by rewrite (IH (length x) ltac:(simpl; lia) x eq_refl).
    + destruct x as [|b [|d x]]; cbn [app starts_with] in *.
      * rewrite (bool_decide_eq_false_2 (50%N = c)) by done. by rewrite andb_false_r.
      * rewrite (bool_decide_eq_false_2 (48%N = c)) by done. by rewrite !andb_false_r.
      * done.
Qed.

Lemma r20_join sep l : cut_unit sep → r20 (join [sep] l) = join [sep] (map r20 l).
Proof.
  intros Hs. induction l as [|x l IH]; [done|]. destruct l as [|y l]; [done|].
  change (join [sep] (x :: y :: l)) with (x ++ sep :: join [sep] (y :: l)).
  rewrite r20_cut by done. rewrite IH. done.
Qed.

(** The text the parser sees: spaces for the pluses, everything else as encoded. *)
Definition spaced_text (e : jstring) : jstring := plus_to_space (r20 e).

Lemma spaced_pct b r : b ≠ 32%N → (b < 256)%N → spaced_text (pct b ++ r) = pct b ++ spaced_text r.
Proof.
  intros Hb Hlt. unfold pct. cbn [app]. unfold spaced_text.
  assert (∀ u, unreserved u = true → u ≠ 43%N) as Hu by (intros u Hu ->; done).
  pose proof (hex_digit_safe (b / 16) ltac:(euclid)) as S1.
  pose proof (hex_digit_safe (b mod 16) ltac:(euclid)) as S2.
  assert (starts_with "%20"%js (37%N :: hex_digit (b / 16) :: hex_digit (b mod 16) :: r) = false) as E1.
  { cbn [starts_with]. destruct (decide (50%N = hex_digit (b / 16))) as [E|E];
      [|by rewrite (bool_decide_eq_false_2 _ E), andb_false_r].
    destruct (decide (48%N = hex_digit (b mod 16))) as [F|F];
      [|by rewrite (bool_decide_eq_false_2 _ F), !andb_false_r].
    exfalso. apply Hb. unfold hex_digit in E, F.
    destruct (N.ltb_spec (b / 16) 10), (N.ltb_spec (b mod 16) 10); euclid. }
  rewrite (r20_other _ _ E1). rewrite !r20_other.
  - cbn [plus_to_space map]. rewrite !(proj2 (N.eqb_neq _ 43)) by (try done; by apply Hu). done.
  - cbn [starts_with]. rewrite bool_decide_eq_false_2; [done|]. intros E.
    by apply unreserved_not_pct in S2.
  - cbn [starts_with]. rewrite bool_decide_eq_false_2; [done|]. intros E.
    by apply unreserved_not_pct in S1.
Qed.

Lemma spaced_point cp r :
  cp ≠ 32%N → (cp <= 0x10FFFF)%N → spaced_text (pct_point cp ++ r) = pct_point cp ++ spaced_text r.
Proof.
  intros Hc Hb. unfold pct_point. pose proof (utf8_bytes cp Hb) as Hl.
  assert (Forall (λ b, b ≠ 32%N) (utf8 cp)) as Hn.
  { unfold utf8. destruct (N.ltb_spec cp 0x80); [by constructor|].
    destruct (N.ltb_spec cp 0x800); [repeat constructor; euclid|].
    destruct (N.ltb_spec cp 0x10000); repeat constructor; euclid. }
  clear Hc Hb. induction Hl as [|b l Hb _ IH]; [done|]. apply Forall_cons in Hn as [? Hn].
  cbn [flat_map]. rewrite <- !app_assoc. rewrite spaced_pct by done. by rewrite IH.
Qed.

Lemma spaced_unit c r :
  c ≠ 37%N → c ≠ 43%N → spaced_text (c :: r) = c :: spaced_text r.
Proof.
  intros H1 H2. unfold spaced_text. rewrite r20_other.
  - cbn [plus_to_space map]. by rewrite (proj2 (N.eqb_neq c 43) H2).
  - cbn [starts_with]. by rewrite bool_decide_eq_false_2.
Qed.

(** Decoding the space-separated form gives the string back. *)
Lemma decode_spaced s e :
  Forall unit16 s → encodeURIComponent s = Some e → decodeURIComponent (spaced_text e) = Some s.
Proof.
  intros Hs. remember (length s) as n eqn:Hn. revert s e Hs Hn.
  induction (lt_wf n) as [n _ IH]. intros s e Hs -> He.
  destruct s as [|c t]; [by injection He as <-|]. apply Forall_cons in Hs as [Hc Ht].
  cbn [encodeURIComponent] in He. destruct (unreserved c) eqn:Hu.
  { destruct (encodeURIComponent t) as [r|] eqn:E; [|done]. injection He as <-.
    rewrite spaced_unit by (try (by apply unreserved_not_pct); by intros ->).
    apply decode_unit; [by apply unreserved_not_pct|]. by apply (IH (length t) ltac:(simpl; lia)). }
  destruct (lo_surr c) eqn:Hlo; [done|]. destruct (hi_surr c) eqn:Hhi.
  - destruct t as [|d t']; [done|]. destruct (lo_surr d) eqn:Hd; [|done].
    destruct (encodeURIComponent t') as [r|] eqn:E; [|done]. injection He as <-.
    apply Forall_cons in Ht as [_ Ht]. destruct (pair_point_bound c d Hhi Hd) as (B1 & B2 & U).
    rewrite spaced_point by lia. change (c :: d :: t') with ([c; d] ++ t'). rewrite <- U.
    apply decode_step; [done|unfold hi_surr; lia|unfold lo_surr; lia|].
    by apply (IH (length t') ltac:(simpl; lia)).
  - destruct (encodeURIComponent t) as [r|] eqn:E; [|done]. injection He as <-. unfold unit16 in Hc.
    pose proof (IH (length t) ltac:(simpl; lia) t r Ht eq_refl E) as D.
    destruct (decide (c = 32%N)) as [->|Hc32].
    + change (pct_point 32 ++ r) with (37 :: 50 :: 48 :: r)%N. unfold spaced_text.
      rewrite r20_space. cbn [plus_to_space map]. by apply (decode_unit 32%N).
    + rewrite spaced_point by lia. assert (units_of c = [c]) as U.
      { unfold units_of. by replace (c <? 0x10000)%N with true by lia. }
      change (c :: t) with ([c] ++ t). rewrite <- U. apply decode_step; [lia|done|done|done].
Qed.

Lemma r20_safe s : Forall uri_safe s → Forall (λ u, uri_safe u ∨ u = 43%N) (r20 s).
Proof.
  remember (length s) as n eqn:Hn. revert s Hn. induction (lt_wf n) as [n _ IH]. intros s -> Hs.
  destruct s as [|c t]; [constructor|]. apply Forall_cons in Hs as [Hc Ht].
  destruct (starts_with "%20"%js (c :: t)) eqn:E.
  - destruct t as [|b [|d t]]; cbn [starts_with] in E; [by rewrite andb_false_r in E|
      by rewrite !andb_false_r in E|]. bools. subst. rewrite r20_space.
    constructor; [by right|]. apply (IH (length t)); [simpl; lia|done|].
    by apply Forall_cons in Ht as [_ [_ ?]%Forall_cons].
  - rewrite r20_other by done. constructor; [by left|]. by apply (IH (length t)); [simpl; lia|..].
Qed.

Lemma safe_not_in c e :
  unreserved c = false → c ≠ 37%N → c ≠ 43%N → Forall uri_safe e → c ∉ r20 e.
Proof.
  intros H1 H2 H3 He Hin. pose proof (r20_safe e He) as H. rewrite Forall_forall in H.
  destruct (H c Hin) as [[?|?]|?]; congruence.
Qed.

(** The pairs [serialize] writes are the pairs [deep_pairs] reads back. *)
Lemma deep_pairs_serialize l s :
  l ≠ [] → Forall (λ kv, Forall unit16 kv.1 ∧ Forall unit16 (add_value kv.2)) l →
  serialize l = Some s →
  deep_pairs s = Some (map (λ kv, (kv.1, add_value kv.2)) l).
Proof.
  intros Hl Hf Hs. unfold serialize in Hs. destruct (mapM add l) as [es|] eqn:Em; [|done].
  injection Hs as <-. apply mapM_Some in Em.
  unfold deep_pairs. rewrite r20_join by done.
  assert (Forall2 (λ kv e, ∃ k v, e = k ++ 61%N :: v ∧ (38%N ∉ r20 e)
    ∧ encodeURIComponent kv.1 = Some k ∧ encodeURIComponent (add_value kv.2) = Some v
    ∧ (61%N ∉ r20 k) ∧ (61%N ∉ r20 v)) l es) as F.
  { clear Hl. induction Em as [|kv e l es He Em IH]; constructor; [|by apply Forall_cons in Hf as [_ ?]; auto].
    apply Forall_cons in Hf as [[H1 H2] _]. unfold add in He.
    destruct (encodeURIComponent kv.1) as [k|] eqn:Ek; [|done].
    destruct (encodeURIComponent (add_value kv.2)) as [v|] eqn:Ev; [|done]. injection He as <-.
    destruct (decode_encode _ _ H1 Ek) as [_ S1]. destruct (decode_encode _ _ H2 Ev) as [_ S2].
    exists k, v. split_and!; try done.
    - rewrite (r20_cut 61%N) by done. rewrite not_elem_of_app, not_elem_of_cons.
      split_and!; [by apply safe_not_in|done|by apply safe_not_in].
    - by apply safe_not_in. - by apply safe_not_in. }
  rewrite (split_join 38%N []).
  - clear Em Hl. revert Hf. induction F as [|kv e l es (k & v & -> & _ & Ek & Ev & Nk & Nv) F IH]; intros Hf;
      [done|]. apply Forall_cons in Hf as [[H1 H2] Hf]. cbn [map mapM].
    assert (split "="%js (plus_to_space (r20 (k ++ 61%N :: v))) = [spaced_text k; spaced_text v]) as ->.
    { rewrite (r20_cut 61%N) by done. unfold plus_to_space at 1. rewrite map_app. cbn [map].
      change (split "="%js (spaced_text k ++ 61%N :: spaced_text v) = [spaced_text k; spaced_text v]).
      apply (split_join 61%N [] [spaced_text k; spaced_text v]); [done|].
      assert (∀ x, 61%N ∉ r20 x → 61%N ∉ spaced_text x) as Hx.
      { intros x Hx Hin. apply Hx. unfold spaced_text, plus_to_space in Hin.
        apply list_elem_of_fmap in Hin as (u & E & Hu). destruct (u =? 43)%N; [done|by subst]. }
      by repeat constructor; apply Hx. }
    cbv zeta. cbn [lookup list_lookup].
    change (decode_part (Some (spaced_text k))) with (decodeURIComponent (spaced_text k)).
    change (decode_part (Some (spaced_text v))) with (decodeURIComponent (spaced_text v)).
    rewrite (decode_spaced _ _ H1 Ek), (decode_spaced _ _ H2 Ev). cbn [mbind option_bind].
    by rewrite IH.
  - destruct es; [|done]. by apply Forall2_nil_inv_r in F.
  - clear -F. induction F as [|? e ? ? (? & ? & _ & ? & _) F IH]; [constructor|]. by constructor.
Qed.

(** When [param] is defined: no key or value has a lone surrogate. *)
Lemma serialize_defined l :
  is_Some (serialize l) ↔
  Forall (λ kv, well_formed kv.1 = true ∧ well_formed (add_value kv.2) = true) l.
Proof.
  unfold serialize. assert (is_Some (mapM add l) ↔ Forall (λ kv, well_formed kv.1 = true
    ∧ well_formed (add_value kv.2) = true) l) as <-.
  { rewrite mapM_is_Some. apply Forall_iff. intros [k v]. rewrite <- !encode_defined. unfold add.
    simpl. destruct (encodeURIComponent k), (encodeURIComponent (add_value v)); simpl;
      (split; [intros [? ?]|intros [[? ?] [? ?]]]); simplify_eq;
      first [done|by eexists|split; by eexists]. }
  destruct (mapM add l); simpl; split; intros []; by eauto.
Qed.
