(* ===== verification/JqClasses.v ===== *)
(** * jQuery's class attribute operations

    Models jquery/src/attributes/classes.js (the same text is served in
    jquery/dist/jquery.js): [addClass], [removeClass], [toggleClass] and [hasClass] on
    the class attribute of one element, as the string surgery the source performs.  The
    theorems show that, seen as the list of class names, the attribute is updated the way
    a set of names would be. *)

From S2P Require Import Prelude JsString.

Local Abbreviation SP := 32%N.

(** [var rclass = /[\t\r\n\f]/g] *)
Definition rclass (u : N) : bool := ((u =? 9) || (u =? 13) || (u =? 10) || (u =? 12))%N.

(** [( " " + elem.className + " " ).replace( rclass, " " )] *)
Definition padded (className : jstring) : jstring :=
  replace_units rclass " "%js (" "%js ++ className ++ " "%js).

(** [" " + clazz + " "] *)
Definition spaced (clazz : jstring) : jstring := " "%js ++ clazz ++ " "%js.

(** The loop of [addClass]: append every class that [cur] does not hold yet. *)
Fixpoint addClass_loop (cur : jstring) (classes : list jstring) : jstring :=
  match classes with
  | [] => cur
  | clazz :: rest =>
      addClass_loop
        (if contains (spaced clazz) cur then cur else cur ++ clazz ++ " "%js) rest
  end.

(** [addClass( value )] on an element whose attribute is [className]. *)
Definition addClass (value className : jstring) : jstring :=
  match value with
  | [] => className
  | _ =>
      let cur := match className with [] => " "%js | _ => padded className end in
      trim (addClass_loop cur (words value))
  end.

(** [while ( cur.indexOf( " " + clazz + " " ) >= 0 ) cur = cur.replace( .., " " )]:
    [fuel] bounds the iterations, each of which shortens [cur]. *)
Fixpoint removeClass_all (fuel : nat) (clazz cur : jstring) : jstring :=
  match fuel with
  | 0 => cur
  | S fuel =>
      if contains (spaced clazz) cur
      then removeClass_all fuel clazz (replace_first (spaced clazz) " "%js cur)
      else cur
  end.

Fixpoint removeClass_loop (cur : jstring) (classes : list jstring) : jstring :=
  match classes with
  | [] => cur
  | clazz :: rest => removeClass_loop (removeClass_all (length cur) clazz cur) rest
  end.

(** [removeClass( value )] for a string [value]; with no argument ([None]) the attribute
    is emptied. *)
Definition removeClass (value : option jstring) (className : jstring) : jstring :=
  match value with
  | Some [] => className
  | _ =>
      match className with
      | [] => className
      | _ =>
          let cur := removeClass_loop (padded className) (words (default [] value)) in
          match value with None => [] | Some _ => trim cur end
      end
  end.

(** [hasClass( selector )] on one element. *)
Definition hasClass (selector className : jstring) : bool :=
  contains (spaced selector) (padded className).

(** [toggleClass( value )] for a string [value] and no [stateVal]. *)
Fixpoint toggleClass_loop (classNames : list jstring) (className : jstring) : jstring :=
  match classNames with
  | [] => className
  | c :: rest =>
      toggleClass_loop rest
        (if hasClass c className then removeClass (Some c) className else addClass c className)
  end.
Definition toggleClass (value className : jstring) : jstring :=
  toggleClass_loop (words value) className.

(** [toggleClass( value, stateVal )] for a boolean [stateVal]. *)
Definition toggleClass_to (value : jstring) (stateVal : bool) (className : jstring) : jstring :=
  if stateVal then addClass value className else removeClass (Some value) className.

Example addClass_ex : addClass "b c a"%js "a  x"%js = "a  x b c"%js.
Proof. reflexivity. Qed.
Example removeClass_ex : removeClass (Some "b a"%js) "a x b a"%js = "x"%js.
Proof. reflexivity. Qed.

(** ** The attribute as a list of names *)

(** A class attribute whose white space is HTML's: what the source's [rclass] and its
    [\S+] agree on. *)
Definition class_unit (u : N) : Prop := is_ws u = true → rclass u = true ∨ u = SP.
Definition class_text (s : jstring) : Prop := Forall class_unit s.

Definition spaceless (t : jstring) : Prop := SP ∉ t.

(** [ctext ts]: the chunks [ts], each between single spaces. *)
Fixpoint ctext (ts : list jstring) : jstring :=
  match ts with
  | [] => [SP]
  | t :: ts => SP :: t ++ ctext ts
  end.

Lemma token_spaceless t : token t → spaceless t.
Proof. intros [_ Ht] Hin. rewrite Forall_forall in Ht. by apply Ht in Hin. Qed.
#[local] Hint Resolve token_spaceless : core.

Lemma ctext_cons_sp ts : ∃ r, ctext ts = SP :: r.
Proof. destruct ts; simpl; eauto. Qed.

Lemma ctext_snoc ts c : ctext ts ++ c ++ [SP] = ctext (ts ++ [c]).
Proof. induction ts as [|t ts IH]; simpl; [done|]. by rewrite <- IH, <- !app_assoc. Qed.

Lemma starts_with_chunk c t r :
  spaceless c → spaceless t →
  starts_with (c ++ [SP]) (t ++ SP :: r) = bool_decide (c = t).
Proof.
  unfold spaceless. revert t. induction c as [|a c IH]; intros [|b t] Hc Ht; simpl in *.
  - done.
  - by rewrite !bool_decide_eq_false_2 by set_solver.
  - by rewrite !bool_decide_eq_false_2 by set_solver.
  - rewrite IH by set_solver. repeat case_bool_decide; naive_solver.
Qed.

Lemma index_of_skip p t r :
  spaceless t → index_of (SP :: p) (t ++ r) = (λ i, length t + i) <$> index_of (SP :: p) r.
Proof.
  unfold spaceless. induction t as [|a t IH]; intros Ht; simpl.
  - by destruct (index_of (SP :: p) r).
  - rewrite bool_decide_eq_false_2 by set_solver. simpl.
    rewrite IH by set_solver. by destruct (index_of (SP :: p) r).
Qed.

Lemma index_of_ctext c t ts :
  spaceless c → spaceless t →
  index_of (spaced c) (ctext (t :: ts)) =
    if bool_decide (c = t) then Some 0
    else (λ i, S (length t) + i) <$> index_of (spaced c) (ctext ts).
Proof.
  intros Hc Ht. unfold spaced. destruct (ctext_cons_sp ts) as [r Hr].
  change (" "%js ++ c ++ " "%js) with (SP :: c ++ [SP]).
  cbn [ctext index_of starts_with]. rewrite (bool_decide_eq_true_2 (SP = SP)) by done.
  rewrite Hr at 1. rewrite starts_with_chunk by done. simpl.
  case_bool_decide; [done|]. rewrite index_of_skip by done.
  by destruct (index_of _ (ctext ts)).
Qed.

Lemma contains_nil c : spaceless c → c ≠ [] → contains (spaced c) (ctext []) = false.
Proof.
  unfold spaceless, contains, spaced. destruct c as [|a c]; [done|]. intros Hc _. done.
Qed.

Lemma contains_ctext c ts :
  token c → Forall spaceless ts → contains (spaced c) (ctext ts) = bool_decide (c ∈ ts).
Proof.
  intros Hc. induction 1 as [|t ts Ht _ IH].
  - rewrite contains_nil by (first [exact (proj1 Hc) | auto]). symmetry. apply bool_decide_eq_false_2. inversion 1.
  - unfold contains in *. rewrite index_of_ctext by auto. destruct (decide (c = t)) as [->|E].
    + by rewrite !bool_decide_eq_true_2 by (done || left).
    + rewrite (bool_decide_eq_false_2 (c = t)) by done.
      transitivity (bool_decide (c ∈ ts)); [rewrite <- IH; by destruct (index_of _ _)|].
      apply bool_decide_ext. rewrite elem_of_cons. tauto.
Qed.

(** One replacement removes the first chunk equal to [c]. *)
Lemma replace_ctext c t ts :
  token c → spaceless t → Forall spaceless ts →
  replace_first (spaced c) " "%js (ctext (t :: ts)) =
    if bool_decide (c = t) then ctext ts
    else SP :: t ++ replace_first (spaced c) " "%js (ctext ts).
Proof.
  intros Hc Ht Hts. unfold replace_first. rewrite index_of_ctext by auto.
  destruct (ctext_cons_sp ts) as [r Hr].
  case_bool_decide as E.
  - subst t. rewrite Hr. unfold spaced. cbn [ctext]. rewrite Hr. simpl.
    f_equal.
    change (c ++ SP :: r) with (c ++ [SP] ++ r). rewrite app_assoc. by rewrite drop_app_length.
  - destruct (index_of (spaced c) (ctext ts)) as [i|] eqn:Ei; simpl; [|done].
    by rewrite take_app_add, <- app_assoc, <- Nat.add_assoc, drop_app_add.
Qed.

Lemma replace_ctext_split c l1 l2 :
  token c → Forall spaceless (l1 ++ c :: l2) → c ∉ l1 →
  replace_first (spaced c) " "%js (ctext (l1 ++ c :: l2)) = ctext (l1 ++ l2).
Proof.
  intros Hc. induction l1 as [|t l1 IH]; intros Hs Hn; cbn [app] in *.
  - apply Forall_cons in Hs as [? ?]. rewrite replace_ctext by done.
    by rewrite bool_decide_eq_true_2.
  - apply Forall_cons in Hs as [? ?]. rewrite not_elem_of_cons in Hn. destruct Hn.
    rewrite replace_ctext, bool_decide_eq_false_2 by done. cbn [ctext]. by rewrite IH.
Qed.

Lemma removeClass_all_ctext fuel c ts :
  token c → Forall spaceless ts → length ts ≤ fuel →
  removeClass_all fuel c (ctext ts) = ctext (filter (λ t, t ≠ c) ts).
Proof.
  intros Hc. revert ts. induction fuel as [|fuel IH]; intros ts Hts Hf; simpl.
  { by destruct ts; [|simpl in Hf; lia]. }
  rewrite contains_ctext by done. case_bool_decide as Hin.
  - apply list_elem_of_split_l in Hin as (l1 & l2 & -> & Hl1).
    rewrite replace_ctext_split by done. rewrite length_app in Hf. simpl in Hf.
    apply Forall_app in Hts as [H1 [_ H2]%Forall_cons].
    rewrite IH; [|by apply Forall_app|rewrite length_app; lia].
    by rewrite !filter_app, filter_cons_False by naive_solver.
  - f_equal. clear -Hin. induction ts as [|t ts IH]; [done|].
    rewrite not_elem_of_cons in Hin. destruct Hin.
    rewrite filter_cons_True by done. by f_equal; apply IH.
Qed.

Lemma length_ctext ts : length ts < length (ctext ts).
Proof. induction ts as [|t ts IH]; simpl; [lia|]. rewrite length_app. lia. Qed.

Lemma spaceless_filter (P : jstring → Prop) `{!∀ t, Decision (P t)} ts :
  Forall spaceless ts → Forall spaceless (filter P ts).
Proof. rewrite !Forall_forall. intros Hs t [_ ?]%list_elem_of_filter. auto. Qed.
#[local] Hint Resolve spaceless_filter : core.

Lemma removeClass_loop_ctext cs ts :
  Forall token cs → Forall spaceless ts →
  removeClass_loop (ctext ts) cs = ctext (filter (λ t, t ∉ cs) ts).
Proof.
  intros Hcs. revert ts. induction Hcs as [|c cs Hc _ IH]; intros ts Hts; simpl.
  - f_equal. clear Hts. induction ts as [|t ts IH]; [done|].
    rewrite filter_cons_True by (inversion 1). by f_equal.
  - rewrite removeClass_all_ctext by (auto; pose proof (length_ctext ts); lia).
    rewrite IH by auto. f_equal. rewrite list_filter_filter. apply list_filter_iff.
    intros t. rewrite not_elem_of_cons. tauto.
Qed.

(** The specification of [addClass]: append the names that are missing, in order. *)
Definition add_name (names : list jstring) (c : jstring) : list jstring :=
  if bool_decide (c ∈ names) then names else names ++ [c].

Lemma addClass_loop_ctext cs ts :
  Forall token cs → Forall spaceless ts →
  addClass_loop (ctext ts) cs = ctext (foldl add_name ts cs).
Proof.
  intros Hcs. revert ts. induction Hcs as [|c cs Hc _ IH]; intros ts Hts; simpl; [done|].
  rewrite contains_ctext by done. unfold add_name at 2. case_bool_decide; [by apply IH|].
  change (" "%js) with [SP]. rewrite ctext_snoc, IH; [done|].
  apply Forall_app. auto.
Qed.

(** ** From the attribute to chunks and back *)

Fixpoint chunks_go (s cur : jstring) : list jstring :=
  match s with
  | [] => [rev cur]
  | c :: t =>
      if bool_decide (rclass c = true ∨ c = SP) then rev cur :: chunks_go t []
      else chunks_go t (c :: cur)
  end.
Definition chunks (s : jstring) : list jstring := chunks_go s [].

Lemma chunks_go_text s cur :
  Forall class_unit s → Forall (λ u, is_ws u = false) cur →
  SP :: rev cur ++ replace_units rclass " "%js (s ++ [SP]) = ctext (chunks_go s cur)
  ∧ Forall (λ t, Forall (λ u, is_ws u = false) t) (chunks_go s cur)
  ∧ filter (λ t, t ≠ []) (chunks_go s cur) = words_go s cur.
Proof.
  intros Hs. revert cur. induction Hs as [|c s Hc Hs IH]; intros cur Hcur; simpl.
  - split_and!; [done| |by destruct cur as [|a cur]; [|rewrite filter_cons_True;
      [|intros E; apply (f_equal length) in E; rewrite length_rev in E]]].
    constructor; [|done]. rewrite rev_alt. by apply Forall_reverse.
  - case_bool_decide as Hsp.
    + destruct (IH []) as (I1 & I2 & I3); [done|]. assert (is_ws c = true) as Hw.
      { clear -Hsp. unfold rclass in Hsp. unfold is_ws. destruct Hsp as [H| ->]; [|done].
        repeat rewrite orb_true_iff in H. rewrite !N.eqb_eq in H.
        by destruct H as [[[-> | ->]| ->]| ->]. }
      rewrite Hw. split_and!.
      * cbn [ctext]. rewrite <- I1. simpl. f_equal. f_equal.
        destruct (rclass c) eqn:E; [done|]. destruct Hsp as [?| ->]; done.
      * constructor; [|done]. rewrite rev_alt. by apply Forall_reverse.
      * rewrite <- I3. destruct cur as [|a cur]; [done|]. rewrite filter_cons_True; [done|].
        intros E; apply (f_equal length) in E; by rewrite length_rev in E.
    + assert (is_ws c = false) as Hw.
      { destruct (is_ws c) eqn:E; [|done]. exfalso. apply Hsp, Hc, E. }
      rewrite Hw. destruct (IH (c :: cur)) as (I1 & I2 & I3); [by constructor|].
      split_and!; [|done..]. rewrite <- I1. simpl. rewrite <- app_assoc.
      destruct (rclass c) eqn:E; [|done]. exfalso. apply Hsp. by left.
Qed.

(** The padded attribute is a text of chunks whose non-empty ones are the names. *)
Lemma padded_chunks s :
  class_text s →
  ∃ ts, padded s = ctext ts ∧ Forall (λ t, Forall (λ u, is_ws u = false) t) ts
        ∧ filter (λ t, t ≠ []) ts = words s.
Proof.
  intros Hs. exists (chunks s). destruct (chunks_go_text s [] Hs) as (I1 & I2 & I3); [done|].
  split_and!; [|done..]. unfold chunks. by rewrite <- I1.
Qed.

Definition wordlike (ts : list jstring) : Prop :=
  Forall (λ t, Forall (λ u, is_ws u = false) t) ts.

Lemma wordlike_spaceless ts : wordlike ts → Forall spaceless ts.
Proof.
  intros Hw. eapply Forall_impl; [exact Hw|]. intros t Ht Hin. rewrite Forall_forall in Ht. by apply Ht in Hin.
Qed.
#[local] Hint Resolve wordlike_spaceless : core.

Lemma wordlike_filter (P : jstring → Prop) `{!∀ t, Decision (P t)} ts :
  wordlike ts → wordlike (filter P ts).
Proof. unfold wordlike. rewrite !Forall_forall. intros Hs t [_ ?]%list_elem_of_filter. auto. Qed.

Lemma words_ctext ts : wordlike ts → words (ctext ts) = filter (λ t, t ≠ []) ts.
Proof.
  induction 1 as [|t ts Ht _ IH]; simpl; [done|].
  rewrite words_cons_ws by done. destruct (ctext_cons_sp ts) as [r Hr].
  rewrite Hr in *. rewrite words_app_ws by done. rewrite words_cons_ws in IH by done.
  rewrite IH. destruct t as [|a t]; [done|]. rewrite filter_cons_True by done.
  by rewrite words_token.
Qed.

Lemma class_text_ctext ts : wordlike ts → class_text (ctext ts).
Proof.
  assert (class_unit SP) by (intros _; by right).
  induction 1 as [|t ts Ht _ IH]; simpl; [by repeat constructor|].
  constructor; [done|]. apply Forall_app. split; [|done].
  eapply Forall_impl; [exact Ht|]. intros u Hu E. congruence.
Qed.

Lemma wordlike_add ts cs : wordlike ts → Forall token cs → wordlike (foldl add_name ts cs).
Proof.
  intros Hts Hcs. revert ts Hts. induction Hcs as [|c cs [_ Hc] _ IH]; intros ts Hts; simpl; [done|].
  apply IH. unfold add_name. case_bool_decide; [done|]. apply Forall_app. split; [done|by constructor].
Qed.

Lemma filter_add ts cs :
  Forall token cs →
  filter (λ t, t ≠ []) (foldl add_name ts cs) = foldl add_name (filter (λ t, t ≠ []) ts) cs.
Proof.
  intros Hcs. revert ts. induction Hcs as [|c cs [Hc _] _ IH]; intros ts; simpl; [done|].
  rewrite IH. f_equal. unfold add_name.
  assert (c ∈ filter (λ t, t ≠ []) ts ↔ c ∈ ts) as E by (rewrite list_elem_of_filter; tauto).
  rewrite (bool_decide_ext _ _ E). case_bool_decide; [done|].
  rewrite filter_app. f_equal. by rewrite filter_cons_True.
Qed.

(** ** The operations on names *)

Lemma addClass_names value className :
  class_text className →
  words (addClass value className) = foldl add_name (words className) (words value)
  ∧ class_text (addClass value className).
Proof.
  intros Hc. destruct value as [|v value]; [done|]. unfold addClass.
  set (vs := words (v :: value)). assert (Forall token vs) as Hvs by apply words_all_tokens.
  assert (∃ ts, match className with [] => " "%js | _ => padded className end = ctext ts
    ∧ wordlike ts ∧ filter (λ t, t ≠ []) ts = words className) as (ts & -> & Hts & Hw).
  { destruct className as [|u s]; [by exists []; split_and!; [|constructor|]|].
    destruct (padded_chunks (u :: s) Hc) as (ts & ? & ? & ?). by exists ts. }
  rewrite addClass_loop_ctext by auto. pose proof (wordlike_add ts vs Hts Hvs).
  split; [|by apply trim_Forall, class_text_ctext].
  by rewrite words_trim, words_ctext, filter_add, Hw.
Qed.

Lemma removeClass_names value className :
  class_text className →
  words (removeClass (Some value) className) = filter (λ t, t ∉ words value) (words className)
  ∧ class_text (removeClass (Some value) className).
Proof.
  intros Hc. destruct value as [|v value].
  { split; [|done]. simpl. induction (words className) as [|t ts IH]; [done|].
    rewrite filter_cons_True by (inversion 1). by rewrite <- IH. }
  destruct className as [|u s]; [done|]. unfold removeClass. cbn [default].
  destruct (padded_chunks (u :: s) Hc) as (ts & -> & Hts & <-).
  set (vs := words (v :: value)). assert (Forall token vs) as Hvs by apply words_all_tokens.
  rewrite removeClass_loop_ctext by auto.
  pose proof (wordlike_filter (λ t, t ∉ vs) ts Hts).
  split; [|by apply trim_Forall, class_text_ctext].
  rewrite words_trim, words_ctext by done. rewrite !list_filter_filter.
  apply list_filter_iff. tauto.
Qed.

Lemma hasClass_names c className :
  class_text className → token c → hasClass c className = bool_decide (c ∈ words className).
Proof.
  intros Hs Hc. unfold hasClass. destruct (padded_chunks className Hs) as (ts & -> & Hts & <-).
  rewrite contains_ctext by auto. apply bool_decide_ext.
  rewrite list_elem_of_filter. destruct Hc. tauto.
Qed.

(** The specification of [toggleClass] on names. *)
Definition toggle_name (names : list jstring) (c : jstring) : list jstring :=
  if bool_decide (c ∈ names) then filter (λ t, t ≠ c) names else names ++ [c].

Lemma toggleClass_names value className :
  class_text className →
  words (toggleClass value className) = foldl toggle_name (words className) (words value)
  ∧ class_text (toggleClass value className).
Proof.
  unfold toggleClass. generalize (words_all_tokens value). generalize (words value).
  intros vs Hvs. revert className. induction Hvs as [|c vs Hc _ IH]; intros s Hs; [done|].
  cbn [toggleClass_loop foldl]. rewrite hasClass_names by done. unfold toggle_name at 2.
  case_bool_decide as Hin.
  - destruct (removeClass_names c s Hs) as [E H]. destruct (IH _ H) as [-> ?].
    split; [|done]. rewrite E. f_equal. apply list_filter_iff. intros t.
    rewrite (words_token c) by done. rewrite list_elem_of_singleton. done.
  - destruct (addClass_names c s Hs) as [E H]. destruct (IH _ H) as [-> ?].
    split; [|done]. rewrite E, (words_token c) by done. simpl. unfold add_name.
    by rewrite bool_decide_eq_false_2.
Qed.

(** Class texts, decided. *)
Definition class_text_b (s : jstring) : bool :=
  forallb (λ u, negb (is_ws u) || rclass u || (u =? SP)%N) s.

Lemma class_text_b_ok s : class_text_b s = true → class_text s.
Proof.
  unfold class_text_b, class_text. rewrite forallb_forall, Forall_forall. intros H u Hu Hw.
  specialize (H u (proj1 (list_elem_of_In _ _) Hu)). rewrite Hw in H. simpl in H.
  apply orb_true_iff in H as [?|H]; [by left|right]. by apply N.eqb_eq.
Qed.
