(* ===== verification/Dom.v ===== *)
(** * The document as the page scripts see it

    A store of elements with the jQuery manipulation methods the PcapDB scripts call:
    [document.createElement], [append], [insertAfter], [detach], [empty], [attr], the class
    operations (from [JqClasses]) and [hide]/[show].  The invariant [dom_wf] says that the
    child lists and the parent pointers describe the same forest. *)

From S2P Require Import Prelude JsString JqClasses.

Inductive kid :=
  | KText (s : jstring)
  | KElem (id : nat).

#[export] Instance kid_eq_dec : EqDecision kid.
Proof. solve_decision. Defined.

Record elem := Elem {
  e_tag : jstring;
  e_class : jstring;                       (* the className property *)
  e_attrs : gmap jstring jstring;          (* the other attributes *)
  e_kids : list kid;                       (* childNodes *)
  e_parent : option nat;                   (* parentNode *)
  e_shown : bool                           (* computed display is not none *)
}.

Definition with_class (f : jstring → jstring) (e : elem) : elem :=
  Elem (e_tag e) (f (e_class e)) (e_attrs e) (e_kids e) (e_parent e) (e_shown e).
Definition with_attrs (f : gmap jstring jstring → gmap jstring jstring) (e : elem) : elem :=
  Elem (e_tag e) (e_class e) (f (e_attrs e)) (e_kids e) (e_parent e) (e_shown e).
Definition with_kids (f : list kid → list kid) (e : elem) : elem :=
  Elem (e_tag e) (e_class e) (e_attrs e) (f (e_kids e)) (e_parent e) (e_shown e).
Definition with_parent (p : option nat) (e : elem) : elem :=
  Elem (e_tag e) (e_class e) (e_attrs e) (e_kids e) p (e_shown e).
Definition with_shown (b : bool) (e : elem) : elem :=
  Elem (e_tag e) (e_class e) (e_attrs e) (e_kids e) (e_parent e) b.

Record dom := Dom {
  d_elems : gmap nat elem;
  d_next : nat                             (* ids from here on are unused *)
}.

Definition upd (id : nat) (f : elem → elem) (d : dom) : dom :=
  Dom (alter f id (d_elems d)) (d_next d).

Definition kids (d : dom) (id : nat) : list kid :=
  match d_elems d !! id with Some e => e_kids e | None => [] end.
Definition parent (d : dom) (id : nat) : option nat := d_elems d !! id ≫= e_parent.
Definition class_of (d : dom) (id : nat) : jstring :=
  match d_elems d !! id with Some e => e_class e | None => [] end.
Definition attr_of (d : dom) (id : nat) (k : jstring) : option jstring :=
  d_elems d !! id ≫= λ e, e_attrs e !! k.
Definition shown (d : dom) (id : nat) : bool :=
  match d_elems d !! id with Some e => e_shown e | None => false end.

(** [document.createElement(tag)]: a fresh element outside the tree. *)
Definition createElement (tag : jstring) (d : dom) : nat * dom :=
  (d_next d, Dom (<[d_next d := Elem tag [] ∅ [] None true]> (d_elems d)) (S (d_next d))).

Definition add_class (id : nat) (v : jstring) : dom → dom := upd id (with_class (addClass v)).
Definition remove_class (id : nat) (v : jstring) : dom → dom :=
  upd id (with_class (removeClass (Some v))).
Definition toggle_class (id : nat) (v : jstring) : dom → dom :=
  upd id (with_class (toggleClass v)).
Definition set_attr (id : nat) (k v : jstring) : dom → dom := upd id (with_attrs (<[k := v]>)).
Definition hide (id : nat) : dom → dom := upd id (with_shown false).
Definition show (id : nat) : dom → dom := upd id (with_shown true).
(** [toggle()] without a duration. *)
Definition toggle (id : nat) (d : dom) : dom := upd id (with_shown (negb (shown d id))) d.

(** Take an element out of its parent's child list ([removeChild]). *)
Definition detach (id : nat) (d : dom) : dom :=
  match parent d id with
  | None => d
  | Some p => upd id (with_parent None) (upd p (with_kids (filter (λ k, k ≠ KElem id))) d)
  end.

(** [parent.append(el)]: [appendChild] moves the element if it has a parent already. *)
Definition append_elem (p id : nat) (d : dom) : dom :=
  let d := detach id d in
  upd id (with_parent (Some p)) (upd p (with_kids (λ ks, ks ++ [KElem id])) d).

Definition append_text (p : nat) (s : jstring) : dom → dom :=
  upd p (with_kids (λ ks, ks ++ [KText s])).

(** Insert [k] after the first child equal to [ref]. *)
Fixpoint insert_after_kid (ref k : kid) (ks : list kid) : list kid :=
  match ks with
  | [] => []
  | x :: t => if decide (x = ref) then x :: k :: t else x :: insert_after_kid ref k t
  end.

(** [el.insertAfter(ref)]: nothing happens when [ref] has no parent. *)
Definition insertAfter (id ref : nat) (d : dom) : dom :=
  match parent d ref with
  | None => d
  | Some p =>
      let d := detach id d in
      upd id (with_parent (Some p))
        (upd p (with_kids (insert_after_kid (KElem ref) (KElem id))) d)
  end.

(** [el.empty()]: all the children are removed. *)
Definition orphan (d : dom) (k : kid) : dom :=
  match k with KText _ => d | KElem c => upd c (with_parent None) d end.
Definition empty_elem (id : nat) (d : dom) : dom :=
  upd id (with_kids (λ _, [])) (foldl orphan d (kids d id)).

(** ** The forest invariant *)

Definition kid_elem (k : kid) : option nat :=
  match k with KText _ => None | KElem c => Some c end.
Definition kid_ids (ks : list kid) : list nat := omap kid_elem ks.

Record dom_wf (d : dom) : Prop := {
  wf_parent : ∀ p c, KElem c ∈ kids d p ↔ parent d c = Some p;
  wf_nodup : ∀ p, NoDup (kid_ids (kids d p));
  wf_fresh : ∀ id, d_next d ≤ id → d_elems d !! id = None
}.

Lemma kid_ids_elem ks c : c ∈ kid_ids ks ↔ KElem c ∈ ks.
Proof.
  unfold kid_ids. rewrite list_elem_of_omap. split.
  - intros ([s|x] & Hx & E); simplify_eq/=. done.
  - intros H. by exists (KElem c).
Qed.

Lemma kids_upd id f d x :
  kids (upd id f d) x =
    if decide (id = x) then match d_elems d !! id with Some e => e_kids (f e) | None => [] end
    else kids d x.
Proof.
  unfold kids, upd. simpl. case_decide as E.
  - subst. rewrite lookup_alter_eq. by destruct (d_elems d !! x).
  - by rewrite lookup_alter_ne.
Qed.

Lemma parent_upd id f d x :
  parent (upd id f d) x =
    if decide (id = x) then match d_elems d !! id with Some e => e_parent (f e) | None => None end
    else parent d x.
Proof.
  unfold parent, upd. simpl. case_decide as E.
  - subst. rewrite lookup_alter_eq. by destruct (d_elems d !! x).
  - by rewrite lookup_alter_ne.
Qed.

Lemma elems_upd id f d x : is_Some (d_elems (upd id f d) !! x) ↔ is_Some (d_elems d !! x).
Proof.
  unfold upd. simpl. destruct (decide (id = x)) as [->|].
  - rewrite lookup_alter_eq, fmap_is_Some. done.
  - by rewrite lookup_alter_ne.
Qed.

Lemma next_upd id f d : d_next (upd id f d) = d_next d.
Proof. done. Qed.

(** An update that keeps the child list and the parent of the element. *)
Definition local (f : elem → elem) : Prop :=
  ∀ e, e_kids (f e) = e_kids e ∧ e_parent (f e) = e_parent e.

Lemma local_class f : local (with_class f). Proof. done. Qed.
Lemma local_attrs f : local (with_attrs f). Proof. done. Qed.
Lemma local_shown b : local (with_shown b). Proof. done. Qed.
#[export] Hint Resolve local_class local_attrs local_shown : js.

Lemma kids_local id f d x : local f → kids (upd id f d) x = kids d x.
Proof.
  intros Hf. rewrite kids_upd. case_decide; [|done]. subst.
  unfold kids. destruct (d_elems d !! x); [|done]. apply Hf.
Qed.

Lemma parent_local id f d x : local f → parent (upd id f d) x = parent d x.
Proof.
  intros Hf. rewrite parent_upd. case_decide; [|done]. subst.
  unfold parent. destruct (d_elems d !! x); [|done]. apply Hf.
Qed.

Lemma upd_fresh id f d :
  (∀ x, d_next d ≤ x → d_elems d !! x = None) →
  ∀ x, d_next (upd id f d) ≤ x → d_elems (upd id f d) !! x = None.
Proof.
  intros H x Hx. apply eq_None_not_Some. rewrite elems_upd. apply eq_None_not_Some. by apply H.
Qed.
#[export] Hint Resolve upd_fresh wf_fresh : js.

Lemma dom_wf_local id f d : local f → dom_wf d → dom_wf (upd id f d).
Proof.
  intros Hf Hd. split.
  - intros p c. rewrite kids_local, parent_local by done. apply Hd.
  - intros p. rewrite kids_local by done. apply Hd.
  - eauto with js.
Qed.

Lemma parent_is_Some d c p : parent d c = Some p → is_Some (d_elems d !! c).
Proof. unfold parent. destruct (d_elems d !! c); [eauto|done]. Qed.

Lemma kids_is_Some d p k : k ∈ kids d p → is_Some (d_elems d !! p).
Proof. unfold kids. destruct (d_elems d !! p); [eauto|inversion 1]. Qed.

Lemma createElement_wf tag d id d' :
  dom_wf d → createElement tag d = (id, d') →
  dom_wf d' ∧ parent d' id = None ∧ kids d' id = [] ∧ d_elems d !! id = None
  ∧ is_Some (d_elems d' !! id)
  ∧ (∀ x, x ≠ id → d_elems d' !! x = d_elems d !! x) ∧ d_next d' = S id ∧ id = d_next d.
Proof.
  intros Hd H. unfold createElement in H. injection H as <- <-.
  set (d' := Dom _ _). pose proof (wf_fresh _ Hd (d_next d) ltac:(lia)) as Hf.
  assert (∀ x, kids d' x = kids d x) as Hk.
  { intros x. unfold kids, d'. simpl. destruct (decide (d_next d = x)) as [<-|].
    - by rewrite lookup_insert_eq, Hf. - by rewrite lookup_insert_ne. }
  assert (∀ x, parent d' x = parent d x) as Hp.
  { intros x. unfold parent, d'. simpl. destruct (decide (d_next d = x)) as [<-|].
    - by rewrite lookup_insert_eq, Hf. - by rewrite lookup_insert_ne. }
  split_and!; try done.
  - split.
    + intros p c. rewrite Hk, Hp. apply Hd.
    + intros p. rewrite Hk. apply Hd.
    + intros id Hid. unfold d' in *. simpl in *. rewrite lookup_insert_ne by lia. apply Hd. lia.
  - rewrite Hp. unfold parent. by rewrite Hf.
  - rewrite Hk. unfold kids. by rewrite Hf.
  - unfold d'. simpl. rewrite lookup_insert_eq. eauto.
  - intros x Hx. unfold d'. simpl. by rewrite lookup_insert_ne.
Qed.

(** ** Moving elements *)

Definition without (c : nat) (ks : list kid) : list kid := filter (λ k, k ≠ KElem c) ks.

Lemma without_notin c ks : KElem c ∉ ks → without c ks = ks.
Proof.
  induction ks as [|k ks IH]; intros H; [done|]. rewrite not_elem_of_cons in H. destruct H.
  unfold without in *. rewrite filter_cons_True by done. by rewrite IH.
Qed.

Lemma elem_without c k ks : k ∈ without c ks ↔ k ≠ KElem c ∧ k ∈ ks.
Proof. unfold without. by rewrite list_elem_of_filter. Qed.

Lemma kid_ids_without c ks : kid_ids (without c ks) = filter (λ x, x ≠ c) (kid_ids ks).
Proof.
  induction ks as [|[s|x] ks IH]; [done|..].
  - unfold without. rewrite filter_cons_True by done. exact IH.
  - unfold without. destruct (decide (x = c)) as [->|].
    + rewrite filter_cons_False by naive_solver. simpl. rewrite filter_cons_False by naive_solver.
      exact IH.
    + rewrite filter_cons_True by naive_solver. simpl. rewrite filter_cons_True by naive_solver.
      f_equal. exact IH.
Qed.

Lemma kid_ids_app k1 k2 : kid_ids (k1 ++ k2) = kid_ids k1 ++ kid_ids k2.
Proof. apply omap_app. Qed.

Lemma kids_detach d c p : dom_wf d → kids (detach c d) p = without c (kids d p).
Proof.
  intros Hd. unfold detach. destruct (parent d c) as [q|] eqn:Eq.
  - rewrite kids_upd. case_decide as E.
    + subst p. unfold upd; simpl. destruct (decide (q = c)) as [->|].
      * rewrite lookup_alter_eq. unfold kids. by destruct (d_elems d !! c).
      * rewrite lookup_alter_ne by done. rewrite without_notin.
        { unfold kids. by destruct (d_elems d !! c). }
        rewrite (wf_parent _ Hd). naive_solver.
    + rewrite kids_upd. case_decide.
      * subst. unfold kids. by destruct (d_elems d !! p).
      * rewrite without_notin; [done|]. rewrite (wf_parent _ Hd). naive_solver.
  - symmetry. apply without_notin. rewrite (wf_parent _ Hd). naive_solver.
Qed.

Lemma parent_detach d c x : parent (detach c d) x = if decide (c = x) then None else parent d x.
Proof.
  unfold detach. destruct (parent d c) as [q|] eqn:Eq.
  - rewrite parent_upd. case_decide.
    + subst. by case_match.
    + rewrite parent_upd. case_decide; [|done]. subst.
      unfold parent. by destruct (d_elems d !! x).
  - case_decide; naive_solver.
Qed.

Lemma elems_detach d c x : is_Some (d_elems (detach c d) !! x) ↔ is_Some (d_elems d !! x).
Proof. unfold detach. case_match; [|done]. by rewrite !elems_upd. Qed.

Lemma next_detach d c : d_next (detach c d) = d_next d.
Proof. unfold detach. by case_match. Qed.

Lemma fresh_same d d' :
  dom_wf d → d_next d' = d_next d →
  (∀ x, is_Some (d_elems d' !! x) ↔ is_Some (d_elems d !! x)) →
  ∀ x, d_next d' ≤ x → d_elems d' !! x = None.
Proof.
  intros Hd Hn He x Hx. apply eq_None_not_Some. rewrite He. apply eq_None_not_Some.
  apply Hd. lia.
Qed.

Lemma detach_wf d c : dom_wf d → dom_wf (detach c d).
Proof.
  intros Hd. split.
  - intros p x. rewrite kids_detach, parent_detach, elem_without by done.
    rewrite (wf_parent _ Hd). case_decide; naive_solver.
  - intros p. rewrite kids_detach, kid_ids_without by done. apply NoDup_filter, Hd.
  - apply (fresh_same d); [done|apply next_detach|intros; apply elems_detach].
Qed.

Lemma parent_detached d c : dom_wf d → parent d c = None → detach c d = d.
Proof. intros _ H. unfold detach. by rewrite H. Qed.

(** Inserting a detached element into a child list of [p]. *)
Lemma attach_wf d p id (g : list kid → list kid) :
  dom_wf d → p ≠ id → is_Some (d_elems d !! p) → is_Some (d_elems d !! id) →
  parent d id = None →
  (∀ c, KElem c ∈ g (kids d p) ↔ c = id ∨ KElem c ∈ kids d p) →
  NoDup (kid_ids (g (kids d p))) →
  let d' := upd id (with_parent (Some p)) (upd p (with_kids g) d) in
  dom_wf d'
  ∧ (∀ x, kids d' x = if decide (p = x) then g (kids d p) else kids d x)
  ∧ (∀ x, parent d' x = if decide (id = x) then Some p else parent d x).
Proof.
  intros Hd Hne [ep Hp] [ei Hi] Hpar Hg Hnd d'.
  assert (∀ x, kids d' x = if decide (p = x) then g (kids d p) else kids d x) as Hk.
  { intros x. unfold d'. rewrite kids_upd. case_decide.
    - subst x. rewrite decide_False by done. unfold upd. simpl. rewrite lookup_alter_ne by done.
      unfold kids. by destruct (d_elems d !! id).
    - rewrite kids_upd. case_decide; [|done]. subst. unfold kids. by rewrite Hp. }
  assert (∀ x, parent d' x = if decide (id = x) then Some p else parent d x) as Hpa.
  { intros x. unfold d'. rewrite parent_upd. case_decide.
    - subst x. unfold upd. simpl. rewrite lookup_alter_ne by done. by rewrite Hi.
    - rewrite parent_upd. case_decide; [|done]. subst. unfold parent. by rewrite Hp. }
  split_and!; [|done..]. split.
  - intros q c. rewrite Hk, Hpa. pose proof (wf_parent _ Hd q c) as Hqc.
    repeat case_decide; subst; rewrite ?Hg; rewrite ?(wf_parent _ Hd) in *; naive_solver.
  - intros q. rewrite Hk. case_decide; [done|apply Hd].
  - apply (fresh_same d); [done|done|]. intros x. unfold d'. by rewrite !elems_upd.
Qed.

Lemma append_elem_spec d p id :
  dom_wf d → p ≠ id → is_Some (d_elems d !! p) → is_Some (d_elems d !! id) →
  let d' := append_elem p id d in
  dom_wf d'
  ∧ (∀ x, kids d' x = without id (kids d x) ++ (if decide (p = x) then [KElem id] else []))
  ∧ (∀ x, parent d' x = if decide (id = x) then Some p else parent d x)
  ∧ (∀ x, is_Some (d_elems d' !! x) ↔ is_Some (d_elems d !! x)).
Proof.
  intros Hd Hne Hp Hi. unfold append_elem. pose proof (detach_wf d id Hd) as Hd1.
  destruct (attach_wf (detach id d) p id (λ ks, ks ++ [KElem id])) as (W & K & P); try done.
  - by rewrite elems_detach. - by rewrite elems_detach.
  - rewrite parent_detach. by rewrite decide_True.
  - intros c. rewrite elem_of_app, list_elem_of_singleton. naive_solver.
  - rewrite kid_ids_app. apply NoDup_app. split_and!; [apply Hd1| |apply NoDup_singleton].
    intros c Hc Hc'. apply list_elem_of_singleton in Hc' as ->.
    rewrite kids_detach, kid_ids_without, list_elem_of_filter in Hc by done. naive_solver.
  - split_and!; [done|..].
    + intros x. rewrite K, !kids_detach by done. case_decide; subst; by rewrite ?app_nil_r.
    + intros x. rewrite P, parent_detach. by repeat case_decide.
    + intros x. by rewrite !elems_upd, elems_detach.
Qed.

Lemma insert_after_kid_elem ref k ks c :
  ref ∈ ks → c ∈ insert_after_kid ref k ks ↔ c = k ∨ c ∈ ks.
Proof.
  induction ks as [|x ks IH]; intros H; [by inversion H|]. simpl. apply elem_of_cons in H.
  case_decide; rewrite !elem_of_cons.
  - naive_solver.
  - rewrite IH by naive_solver. naive_solver.
Qed.

Lemma insert_after_kid_ids ref id ks :
  KElem ref ∈ ks →
  kid_ids (insert_after_kid (KElem ref) (KElem id) ks) ≡ₚ id :: kid_ids ks.
Proof.
  induction ks as [|x ks IH]; intros H; [by inversion H|]. simpl. apply elem_of_cons in H.
  case_decide as E.
  - subst x. simpl. by rewrite Permutation_swap.
  - destruct H as [?|H]; [congruence|]. specialize (IH H).
    destruct x; simpl; [done|]. rewrite IH. apply Permutation_swap.
Qed.

Lemma insertAfter_spec d id ref p :
  dom_wf d → id ≠ ref → p ≠ id → parent d ref = Some p → is_Some (d_elems d !! id) →
  let d' := insertAfter id ref d in
  dom_wf d'
  ∧ (∀ x, kids d' x =
       if decide (p = x) then insert_after_kid (KElem ref) (KElem id) (without id (kids d x))
       else without id (kids d x))
  ∧ (∀ x, parent d' x = if decide (id = x) then Some p else parent d x).
Proof.
  intros Hd Hne Hp Hr Hi. unfold insertAfter. rewrite Hr. pose proof (detach_wf d id Hd) as Hd1.
  assert (KElem ref ∈ without id (kids d p)) as Hin.
  { apply elem_without. split; [naive_solver|]. by apply (wf_parent _ Hd). }
  destruct (attach_wf (detach id d) p id (insert_after_kid (KElem ref) (KElem id)))
    as (W & K & P); try done.
  - rewrite elems_detach. apply (kids_is_Some _ _ (KElem ref)). by apply (wf_parent _ Hd).
  - by rewrite elems_detach.
  - rewrite parent_detach. by rewrite decide_True.
  - intros c. rewrite insert_after_kid_elem by (by rewrite kids_detach). naive_solver.
  - rewrite insert_after_kid_ids by (by rewrite kids_detach). constructor; [|apply Hd1].
    rewrite kid_ids_elem, kids_detach, elem_without by done. naive_solver.
  - split_and!; [done|..].
    + intros x. rewrite K. rewrite !kids_detach by done. by case_decide; subst.
    + intros x. rewrite P, parent_detach. by repeat case_decide.
Qed.

(** [empty()] leaves the children without a parent. *)
Lemma orphans_spec ks d :
  (∀ x, kids (foldl orphan d ks) x = kids d x)
  ∧ (∀ x, parent (foldl orphan d ks) x = if decide (KElem x ∈ ks) then None else parent d x)
  ∧ (∀ x, is_Some (d_elems (foldl orphan d ks) !! x) ↔ is_Some (d_elems d !! x))
  ∧ d_next (foldl orphan d ks) = d_next d.
Proof.
  revert d. induction ks as [|k ks IH]; intros d; simpl.
  { by split_and!. }
  destruct (IH (orphan d k)) as (K & P & E & N). split_and!.
  - intros x. rewrite K. destruct k as [|c]; [done|]. simpl. rewrite kids_upd.
    case_decide; [|done]. subst. unfold kids. by destruct (d_elems d !! x).
  - intros x. rewrite P. destruct k as [s|c]; simpl.
    + repeat case_decide; rewrite ?elem_of_cons in *; naive_solver.
    + rewrite parent_upd. destruct (decide (c = x)) as [->|].
      * assert (KElem x ∈ KElem x :: ks) by (by left).
        repeat case_decide; try done; by destruct (d_elems d !! x).
      * repeat case_decide; rewrite ?elem_of_cons in *; naive_solver.
  - intros x. rewrite E. destruct k; [done|]. apply elems_upd.
  - rewrite N. by destruct k.
Qed.

Lemma empty_elem_spec d id :
  dom_wf d →
  let d' := empty_elem id d in
  dom_wf d'
  ∧ (∀ x, kids d' x = if decide (id = x) then [] else kids d x)
  ∧ (∀ x, parent d' x = if decide (parent d x = Some id) then None else parent d x)
  ∧ (∀ x, is_Some (d_elems d' !! x) ↔ is_Some (d_elems d !! x)).
Proof.
  intros Hd. unfold empty_elem. destruct (orphans_spec (kids d id) d) as (K & P & E & N).
  set (d1 := foldl orphan d (kids d id)) in *.
  assert (∀ x, kids (upd id (with_kids (λ _, [])) d1) x = if decide (id = x) then [] else kids d x)
    as K'.
  { intros x. rewrite kids_upd, K. case_decide; [|done]. by destruct (d_elems d1 !! id). }
  assert (∀ x, parent (upd id (with_kids (λ _, [])) d1) x =
    if decide (parent d x = Some id) then None else parent d x) as P'.
  { intros x. rewrite parent_upd. transitivity (parent d1 x).
    - case_decide; [|done]. subst. unfold parent. by destruct (d_elems d1 !! x).
    - rewrite P. pose proof (wf_parent _ Hd id x). repeat case_decide; naive_solver. }
  split_and!; [|done|done|intros x; by rewrite elems_upd, E]. split.
  - intros p c. rewrite K', P'. pose proof (wf_parent _ Hd p c).
    repeat case_decide; subst; rewrite ?elem_of_nil; naive_solver.
  - intros p. rewrite K'. case_decide; [constructor|apply Hd].
  - apply (fresh_same d); [done|done|]. intros x. by rewrite elems_upd, E.
Qed.

Lemma append_text_spec d p s :
  dom_wf d →
  let d' := append_text p s d in
  dom_wf d'
  ∧ (∀ x, kid_ids (kids d' x) = kid_ids (kids d x))
  ∧ (∀ x, parent d' x = parent d x).
Proof.
  intros Hd d'. assert (∀ x, parent d' x = parent d x) as P.
  { intros x. unfold d', append_text. rewrite parent_upd. case_decide; [|done].
    subst. unfold parent. by destruct (d_elems d !! x). }
  assert (∀ x, kid_ids (kids d' x) = kid_ids (kids d x)) as K.
  { intros x. unfold d', append_text. rewrite kids_upd. case_decide; [|done].
    subst. unfold kids. destruct (d_elems d !! x); [|done]. simpl.
    by rewrite kid_ids_app, app_nil_r. }
  split_and!; [|done|done]. split.
  - intros q c. rewrite P, <- (wf_parent _ Hd), <- !kid_ids_elem. by rewrite K.
  - intros q. rewrite K. apply Hd.
  - apply (fresh_same d); [done|done|]. intros x. apply elems_upd.
Qed.

(** ** Changes that leave a list alone

    [dom_ext n tl d d']: from [d] to [d'] the child list of [tl] is unchanged, and so is the
    parent of the elements below [n] that are in [tl] or outside the tree. *)
Record dom_ext (n tl : nat) (d d' : dom) : Prop := {
  ext_wf : dom_wf d';
  ext_kids : kids d' tl = kids d tl;
  ext_elems : ∀ x, is_Some (d_elems d !! x) → is_Some (d_elems d' !! x);
  ext_parent : ∀ x, x < n → parent d x = None ∨ parent d x = Some tl → parent d' x = parent d x;
  ext_next : d_next d ≤ d_next d'
}.

Lemma dom_ext_refl n tl d : dom_wf d → dom_ext n tl d d.
Proof. by split. Qed.

Lemma dom_ext_trans n tl d1 d2 d3 : dom_ext n tl d1 d2 → dom_ext n tl d2 d3 → dom_ext n tl d1 d3.
Proof.
  intros [W1 K1 E1 P1 N1] [W2 K2 E2 P2 N2]. split; [done|congruence|auto| |lia].
  intros x Hx Hp. rewrite P2; [by apply P1|done|by rewrite P1].
Qed.

Lemma dom_ext_local n tl id f d : local f → dom_wf d → dom_ext n tl d (upd id f d).
Proof.
  intros Hf Hd. split; [by apply dom_wf_local|by apply kids_local| | |done].
  - intros x. by rewrite elems_upd.
  - intros x _ _. by apply parent_local.
Qed.

Lemma dom_ext_create n tl tag d :
  dom_wf d → dom_ext n tl d (createElement tag d).2.
Proof.
  intros Hd. destruct (createElement tag d) as [id d'] eqn:E.
  destruct (createElement_wf _ _ _ _ Hd E) as (W & P & K & F & S & O & N & ->). simpl.
  assert (∀ x, kids d' x = kids d x ∧ parent d' x = parent d x) as Hx.
  { intros x. destruct (decide (x = d_next d)) as [->|].
    - rewrite K, P. unfold kids, parent. by rewrite F.
    - unfold kids, parent. by rewrite O. }
  split; [done|apply Hx| |intros; apply Hx|lia].
  intros x [e He]. rewrite O; [eauto|]. intros ->. congruence.
Qed.

Lemma dom_ext_append n tl a b d :
  dom_wf d → n ≤ b → a ≠ tl → a ≠ b → parent d b ≠ Some tl →
  is_Some (d_elems d !! a) → is_Some (d_elems d !! b) →
  dom_ext n tl d (append_elem a b d).
Proof.
  intros Hd Hb Ha Hab Hp Ea Eb.
  destruct (append_elem_spec d a b Hd Hab Ea Eb) as (W & K & P & E). split; [done|..].
  - rewrite K, decide_False, app_nil_r by done. apply without_notin.
    by rewrite (wf_parent _ Hd).
  - intros x. by rewrite E.
  - intros x Hx _. rewrite P. case_decide; [lia|done].
  - unfold append_elem. rewrite !next_upd, next_detach. done.
Qed.

Lemma dom_ext_text n tl a s d : dom_wf d → a ≠ tl → dom_ext n tl d (append_text a s d).
Proof.
  intros Hd Ha. destruct (append_text_spec d a s Hd) as (W & K & P). split; [done|..].
  - unfold append_text. rewrite kids_upd. by rewrite decide_False.
  - intros x. unfold append_text. by rewrite elems_upd.
  - intros x _ _. by rewrite P.
  - done.
Qed.

Lemma dom_ext_empty n tl a d : dom_wf d → a ≠ tl → dom_ext n tl d (empty_elem a d).
Proof.
  intros Hd Ha. destruct (empty_elem_spec d a Hd) as (W & K & P & E). split; [done|..].
  - rewrite K. by rewrite decide_False.
  - intros x. by rewrite E.
  - intros x _ Hx. rewrite P. case_decide; [|done]. destruct Hx; congruence.
  - unfold empty_elem. rewrite next_upd. by destruct (orphans_spec (kids d a) d) as (_ & _ & _ & ->).
Qed.

(** A new element, changed locally and appended to [a]. *)
Lemma dom_ext_new_child n tl tag a d id d1 :
  createElement tag d = (id, d1) → dom_wf d → n ≤ d_next d → a ≠ tl →
  is_Some (d_elems d !! a) → is_Some (d_elems d !! tl) →
  dom_ext n tl d d1 ∧ id = d_next d ∧ id ≠ tl ∧ is_Some (d_elems d1 !! id)
  ∧ ∀ d2, dom_ext n tl d1 d2 → (∀ x, parent d2 x = parent d1 x) →
      dom_ext n tl d (append_elem a id d2) ∧ is_Some (d_elems (append_elem a id d2) !! id).
Proof.
  intros E Hd Hn Ha Ea Etl. destruct (createElement_wf _ _ _ _ Hd E) as (W & P & _ & F & S & O & _ & ->).
  pose proof (dom_ext_create n tl tag _ Hd) as X. rewrite E in X. cbn [snd] in X.
  assert (d_next d ≠ tl ∧ a ≠ d_next d) as [? ?].
  { split; intros H; [rewrite <- H in Etl; rewrite F in Etl; by destruct Etl|].
    rewrite H, F in Ea. by destruct Ea. }
  split_and!; try done. intros d2 X2 P2. split.
  - eapply dom_ext_trans; [exact X|]. eapply dom_ext_trans; [exact X2|].
    apply dom_ext_append; try done; try by apply X2. by rewrite P2, P. by apply X2, X.
  - apply append_elem_spec; try done; try by apply X2. by apply X2, X.
Qed.

Lemma dom_ext_local2 n tl id f g d d' :
  dom_ext n tl d d' → local f → local g → dom_ext n tl d (upd id g (upd id f d')).
Proof.
  intros X Hf Hg. eapply dom_ext_trans; [exact X|].
  eapply dom_ext_trans; [by apply (dom_ext_local n tl id f), X|].
  apply dom_ext_local; [done|]. apply dom_wf_local; [done|apply X].
Qed.
