(* ===== verification/PcapTasks.v ===== *)
(** * The page scripts of PcapDB (theme/js/pcapdb.js)

    Alerts, the task list of the side bar and the polling of the task API.  A [page] holds
    the document, the global variables of the script, the pending timers, the animations
    in progress and the requests the script has sent; every function of the script is a
    function on pages, and [step] is the event loop: a timer fires, an answer or a failure
    arrives, an animation ends, the user acts. *)

From S2P Require Import Prelude JsString JsObject JqClasses Dom.
#[local] Open Scope Z_scope.
#[local] Open Scope nat_scope.

(** ** Data of the task API *)

Record task_result := TaskResult { r_link : option jstring; r_msg : option jstring }.
Record task_meta := TaskMeta {
  m_result : option task_result;           (* null or undefined: None *)
  m_meta : option (jsobj jstring);
  m_status : option jstring
}.
(** One entry of the answer of TASK_URL; [td_status] is the pair [status, progress]. *)
Record task_data := TaskData {
  td_task_id : jstring;
  td_started : jstring;
  td_descr : jstring;
  td_task : option task_meta;
  td_status : list jstring
}.

(** A [Task] object of the page: its elements and its properties ([None]: undefined). *)
Record task := Task {
  t_box : nat; t_div : nat; t_icon : nat; t_descr_p : nat; t_msg_p : nat;
  t_id : option jstring;
  t_started : option jstring;
  t_descr : jstring;
  t_result : option task_result;
  t_meta : option (jsobj jstring);
  t_link : option jstring;
  t_msg : option jstring;
  t_status : option jstring;
  t_progress : option jstring
}.

(** ** The page *)

(** A jQuery selection: fixed, or looked up when it is used. *)
Inductive selection := SelElems (l : list nat) | SelAlertItems.

Inductive handler :=
  | HClearAlerts (sel : selection)         (* clear_alerts_callback(sel) *)
  | HClearTask (t : nat)                   (* function() { task.clear(task) } *)
  | HClearTasks.                           (* clear_tasks *)

(** An animation in progress; [FxSlideUp el then_remove]: the elements its callback removes. *)
Inductive fx := FxFadeIn (el : nat) | FxSlideUp (el : nat) (then_remove : list nat).

Inductive request := ReqGet (url data : jstring) | ReqPost (url data : jstring).

Record page := Page {
  p_dom : dom;
  p_alert_list : nat;                      (* #alert-list *)
  p_task_list : nat;                       (* #task-list *)
  p_title : jstring;                       (* document.title *)
  p_csrf : jstring;                        (* CSRF_TOKEN *)
  p_task_url : jstring;                    (* TASK_URL *)
  p_clicks : list (nat * handler);
  p_fx : list fx;
  p_heap : gmap nat task;                  (* the Task objects *)
  p_next_task : nat;
  p_tasks : jsobj nat;                     (* _TASKS_BY_ID *)
  p_period : Z;                            (* _TASK_CHECK_PERIOD *)
  p_timeout_id : option nat;               (* _TASK_TIMEOUT_ID *)
  p_timers : list (nat * Z);               (* pending setTimeout calls: id, delay *)
  p_next_timer : nat;
  p_inflight : nat;                        (* task requests whose answer is pending *)
  p_sent : list request                    (* every request sent, oldest first *)
}.

Definition set_dom (d : dom) (p : page) : page :=
  Page d (p_alert_list p) (p_task_list p) (p_title p) (p_csrf p) (p_task_url p) (p_clicks p)
    (p_fx p) (p_heap p) (p_next_task p) (p_tasks p) (p_period p) (p_timeout_id p) (p_timers p)
    (p_next_timer p) (p_inflight p) (p_sent p).
Definition on_dom (f : dom → dom) (p : page) : page := set_dom (f (p_dom p)) p.
Definition set_title (t : jstring) (p : page) : page :=
  Page (p_dom p) (p_alert_list p) (p_task_list p) t (p_csrf p) (p_task_url p) (p_clicks p)
    (p_fx p) (p_heap p) (p_next_task p) (p_tasks p) (p_period p) (p_timeout_id p) (p_timers p)
    (p_next_timer p) (p_inflight p) (p_sent p).
Definition add_click (el : nat) (h : handler) (p : page) : page :=
  Page (p_dom p) (p_alert_list p) (p_task_list p) (p_title p) (p_csrf p) (p_task_url p)
    (p_clicks p ++ [(el, h)])
    (p_fx p) (p_heap p) (p_next_task p) (p_tasks p) (p_period p) (p_timeout_id p) (p_timers p)
    (p_next_timer p) (p_inflight p) (p_sent p).
Definition set_fx (l : list fx) (p : page) : page :=
  Page (p_dom p) (p_alert_list p) (p_task_list p) (p_title p) (p_csrf p) (p_task_url p)
    (p_clicks p) l (p_heap p) (p_next_task p) (p_tasks p) (p_period p) (p_timeout_id p)
    (p_timers p) (p_next_timer p) (p_inflight p) (p_sent p).
Definition add_fx (l : list fx) (p : page) : page := set_fx (p_fx p ++ l) p.
Definition set_heap (h : gmap nat task) (n : nat) (p : page) : page :=
  Page (p_dom p) (p_alert_list p) (p_task_list p) (p_title p) (p_csrf p) (p_task_url p)
    (p_clicks p) (p_fx p) h n (p_tasks p) (p_period p) (p_timeout_id p)
    (p_timers p) (p_next_timer p) (p_inflight p) (p_sent p).
Definition set_tasks_by_id (o : jsobj nat) (p : page) : page :=
  Page (p_dom p) (p_alert_list p) (p_task_list p) (p_title p) (p_csrf p) (p_task_url p)
    (p_clicks p) (p_fx p) (p_heap p) (p_next_task p) o (p_period p) (p_timeout_id p)
    (p_timers p) (p_next_timer p) (p_inflight p) (p_sent p).
Definition set_period (z : Z) (p : page) : page :=
  Page (p_dom p) (p_alert_list p) (p_task_list p) (p_title p) (p_csrf p) (p_task_url p)
    (p_clicks p) (p_fx p) (p_heap p) (p_next_task p) (p_tasks p) z (p_timeout_id p)
    (p_timers p) (p_next_timer p) (p_inflight p) (p_sent p).
Definition set_timers (t : option nat) (l : list (nat * Z)) (n : nat) (p : page) : page :=
  Page (p_dom p) (p_alert_list p) (p_task_list p) (p_title p) (p_csrf p) (p_task_url p)
    (p_clicks p) (p_fx p) (p_heap p) (p_next_task p) (p_tasks p) (p_period p) t l n
    (p_inflight p) (p_sent p).
Definition set_requests (i : nat) (l : list request) (p : page) : page :=
  Page (p_dom p) (p_alert_list p) (p_task_list p) (p_title p) (p_csrf p) (p_task_url p)
    (p_clicks p) (p_fx p) (p_heap p) (p_next_task p) (p_tasks p) (p_period p) (p_timeout_id p)
    (p_timers p) (p_next_timer p) i l.

Definition new_elem (tag : jstring) (p : page) : nat * page :=
  let '(id, d) := createElement tag (p_dom p) in (id, set_dom d p).

(** [clearTimeout(id)]: nothing happens when the timer has fired already. *)
Definition clearTimeout (id : nat) (p : page) : page :=
  set_timers (p_timeout_id p) (filter (λ t, t.1 ≠ id) (p_timers p)) (p_next_timer p) p.

(** [$.ajax({method: 'GET', url: url, data: data, success: TASK_ACTION_STACK})] *)
Definition ajax_get_tasks (url data : jstring) (p : page) : page :=
  set_requests (S (p_inflight p)) (p_sent p ++ [ReqGet url data]) p.
Definition ajax_post (url data : jstring) (p : page) : page :=
  set_requests (p_inflight p) (p_sent p ++ [ReqPost url data]) p.

(** ** Panels and the title *)

(** [toggle_panel_body(element)]: [icons] is [element.find('i.toggle-class')] and
    [panel_body] is [element.next()]. *)
Definition toggle_panel_body (icons : list nat) (panel_body : nat) (p : page) : page :=
  let d := foldl (λ d i, toggle_class i "fa-minus-circle txt-color-red"%js d) (p_dom p) icons in
  let d := foldl (λ d i, toggle_class i "fa-plus-circle txt-color-green"%js d) d icons in
  set_dom (toggle panel_body d) p.

(** The document-ready block; [header] is [$(".page-header").text()]. *)
Definition document_ready (header : jstring) (p : page) : page :=
  set_title ("PcapDB | "%js ++ trim header) p.

(** ** Alerts *)

Definition _ALERT_TYPES : list jstring := ["success"%js; "info"%js; "warning"%js; "danger"%js].
Definition _ALERT_ICONS : jsobj jstring :=
  [("success"%js, "fa-ok"%js); ("info"%js, "fa-envelope"%js);
   ("warning"%js, "fa-lightning"%js); ("danger"%js, "fa-exclamation"%js)].

(** A property read in a string context. *)
Definition to_str (o : option jstring) : jstring := default "undefined"%js o.

Definition show_alert (message : jstring) (atype : jstring) (p : page) : page :=
  let dest := p_alert_list p in
  let '(alert_li, p) := new_elem "li"%js p in
  let '(alert_div, p) := new_elem "div"%js p in
  let p := on_dom (append_elem alert_li alert_div) p in
  let p := on_dom (hide alert_li) p in
  let p :=
    if bool_decide (atype ∈ _ALERT_TYPES) then
      let p := on_dom (add_class alert_div ("navbar-alert-"%js ++ atype)) p in
      let '(alert_icon, p) := new_elem "i"%js p in
      let p := on_dom (add_class alert_icon ("fa "%js ++ to_str (obj_get atype _ALERT_ICONS))) p in
      on_dom (append_elem alert_div alert_icon) p
    else p in
  let p := on_dom (add_class alert_div "navbar-alert navbar-alert-highlight"%js) p in
  let p := on_dom (set_attr alert_div "title"%js "Click to dismiss."%js) p in
  let p := on_dom (append_text alert_div (" "%js ++ message)) p in
  let p := add_click alert_li (HClearAlerts (SelElems [alert_li])) p in
  let p := on_dom (append_elem dest alert_li) p in
  add_fx [FxFadeIn alert_li] p.

(** The elements a selection holds when it is used. *)
Definition select (sel : selection) (p : page) : list nat :=
  match sel with
  | SelElems l => l
  | SelAlertItems => kid_ids (kids (p_dom p) (p_alert_list p))
  end.

(** The function returned by [clear_alerts_callback(alerts_sel)]. *)
Definition clear_alerts_callback (alerts_sel : selection) (p : page) : page :=
  let alerts := select alerts_sel p in
  add_fx (map (λ a, FxSlideUp a alerts) alerts) p.

(** A property of an answer: absent, one message or several. *)
Inductive alert_value := AlertOne (s : jstring) | AlertMany (l : list jstring).

Definition alert_messages (v : alert_value) : list jstring :=
  match v with AlertOne s => [s] | AlertMany l => l end.

(** [_TASK_CHECK_PERIOD_MIN] and the other constants of the polling. *)
Definition _TASK_CHECK_PERIOD_MIN : Z := 1000.
Definition _TASK_CHECK_PERIOD_MAX : Z := 8000.
Definition _TASK_CHECK_PERIOD_MULT : Z := 2.

Definition task_check (reset_period : bool) (p : page) : page :=
  let p := if reset_period then set_period _TASK_CHECK_PERIOD_MIN p else p in
  let p := match p_timeout_id p with Some id => clearTimeout id p | None => p end in
  ajax_get_tasks (p_task_url p) ("csrfmiddlewaretoken="%js ++ p_csrf p) p.

Definition result_alerts (results : jsobj alert_value) (p : page) : page :=
  let p :=
    foldl (λ p atype,
      match obj_get atype results with
      | None => p
      | Some alerts => foldl (λ p m, show_alert m atype p) p (alert_messages alerts)
      end) p _ALERT_TYPES in
  task_check false p.

(** ** Tasks *)

Definition _TASK_ICONS : jsobj jstring :=
  [("PENDING"%js, "fa-circle-o-notch fa-spin"%js); ("STARTED"%js, "fa-cog fa-spin"%js);
   ("RETRY"%js, "fa-refresh"%js); ("FAILURE"%js, "fa-exclamation-triangle"%js);
   ("SUCCESS"%js, "fa-check-circle"%js); ("other"%js, "fa-cog fa-spin"%js)].
Definition _TASK_ICONS_ALL : jstring :=
  "fa-circle-o-notch fa-spin fa-cog fa-refresh fa-exclamation-triangle"%js ++
  "fa-check-circle"%js.
Definition _TASK_CLASS : jsobj jstring :=
  [("PENDING"%js, "navbar-alert-info"%js); ("STARTED"%js, "navbar-alert-warning"%js);
   ("RETRY"%js, "navbar-alert-danger"%js); ("FAILURE"%js, "navbar-alert-danger"%js);
   ("SUCCESS"%js, "navbar-alert-success"%js); ("other"%js, "navbar-alert-warning"%js)].
Definition _TASK_CLASS_ALL : jstring :=
  "navbar-alert-info navbar-alert-warning navbar-alert-danger "%js ++ "navbar-alert-success"%js.

(** [removeClass(all).addClass(table[status])] on the box and the icon; an unknown status
    uses the entry ['other']. *)
Definition restyle (t : task) (status : option jstring) (d : dom) : dom :=
  let key := match obj_get (to_str status) _TASK_CLASS with
             | Some _ => to_str status | None => "other"%js end in
  let d := add_class (t_div t) (to_str (obj_get key _TASK_CLASS))
             (remove_class (t_div t) _TASK_CLASS_ALL d) in
  add_class (t_icon t) (to_str (obj_get key _TASK_ICONS))
    (remove_class (t_icon t) _TASK_ICONS_ALL d).

(** The properties [update] computes before it touches the document. *)
Definition update_fields (data : task_data) (t : task) : task :=
  let result := match td_task data with None => t_result t | Some m => m_result m end in
  let meta := match td_task data with None => t_meta t | Some m => m_meta m end in
  let result := default (TaskResult None None) result in
  let meta := default [] meta in
  Task (t_box t) (t_div t) (t_icon t) (t_descr_p t) (t_msg_p t)
    (match t_id t with None => Some (td_task_id data) | Some i => Some i end)
    (Some (td_started data)) (td_descr data) (Some result) (Some meta)
    (r_link result) (r_msg result) (t_status t) (t_progress t).

Definition with_status (s pr : option jstring) (t : task) : task :=
  Task (t_box t) (t_div t) (t_icon t) (t_descr_p t) (t_msg_p t) (t_id t) (t_started t)
    (t_descr t) (t_result t) (t_meta t) (t_link t) (t_msg t) s pr.

Definition new_status (data : task_data) : option jstring := td_task data ≫= m_status.

(** The text of the description: at most 30 units, with the progress before it unless the
    task has succeeded. *)
Definition descr_text (t : task) : jstring :=
  let descr := slice 0 30 (t_descr t) in
  match t_progress t with
  | Some pr =>
      if decide (t_status t = Some "SUCCESS"%js) then descr else "("%js ++ pr ++ ") "%js ++ descr
  | None => descr
  end.

(** The link or message of the result. *)
Definition show_message (t : task) (p : page) : page :=
  match t_link t, t_msg t with
  | None, None => p
  | link, msg =>
      let '(message_el, p) :=
        match link with
        | None => new_elem "span"%js p
        | Some href => let '(a, p) := new_elem "a"%js p in (a, on_dom (set_attr a "href"%js href) p)
        end in
      let p := on_dom (append_text message_el (default "Results"%js msg)) p in
      let p := on_dom (empty_elem (t_msg_p t)) p in
      on_dom (append_elem (t_msg_p t) message_el) p
  end.

(** [this.update(data)]: the new state of the object and of the page. *)
Definition task_update (data : task_data) (t : task) (p : page) : task * page :=
  let t := update_fields data t in
  let p :=
    if decide (t_status t = None ∨ t_status t ≠ new_status data)
    then on_dom (restyle t (new_status data)) p else p in
  let t := with_status (td_status data !! 0) (td_status data !! 1) t in
  let p := on_dom (empty_elem (t_descr_p t)) p in
  let p := on_dom (append_text (t_descr_p t) (descr_text t)) p in
  let p := on_dom (set_attr (t_descr_p t) "title"%js
                     ("("%js ++ to_str (t_status t) ++ ") "%js ++ t_descr t)) p in
  (t, show_message t p).

(** [new Task(data)]: the reference of the new object. *)
Definition Task_new (data : task_data) (p : page) : nat * page :=
  let ref := p_next_task p in
  let '(box, p) := new_elem "li"%js p in
  let p := on_dom (hide box) p in
  let '(div, p) := new_elem "div"%js p in
  let p := on_dom (add_class div "navbar-alert"%js) p in
  let p := on_dom (append_elem box div) p in
  let '(icon, p) := new_elem "i"%js p in
  let p := on_dom (add_class icon "fa fa-lg fa-fw task-icon"%js) p in
  let p := on_dom (set_attr icon "title"%js "Clear this task"%js) p in
  let p := add_click icon (HClearTask ref) p in
  let p := on_dom (append_elem div icon) p in
  let '(descr_p, p) := new_elem "strong"%js p in
  let p := on_dom (append_elem div descr_p) p in
  let '(msg_p, p) := new_elem "p"%js p in
  let p := on_dom (append_elem div msg_p) p in
  let t := Task box div icon descr_p msg_p None None [] None None None None None None in
  let '(t, p) := task_update data t p in
  (ref, set_heap (<[ref := t]> (p_heap p)) (S ref) p).

(** [this.delete()]: fade out, then leave the document. *)
Definition task_delete (t : task) (p : page) : page :=
  add_fx [FxSlideUp (t_box t) [t_box t]] p.

(** [this.clear(task)] *)
Definition task_clear (t : task) (p : page) : page :=
  let data := "csrfmiddlewaretoken="%js ++ p_csrf p ++ "&task="%js ++ to_str (t_id t) in
  task_delete t (ajax_post (p_task_url p) data p).

(** [this.insert(after)] *)
Definition task_insert (after : option task) (t : task) (p : page) : page :=
  let inserted := bool_decide (is_Some (parent (p_dom p) (t_box t))) in
  let p := if inserted then on_dom (detach (t_box t)) p else p in
  let p := match after with
           | None => on_dom (append_elem (p_task_list p) (t_box t)) p
           | Some a => on_dom (insertAfter (t_box t) (t_box a)) p
           end in
  if inserted then p else add_fx [FxFadeIn (t_box t)] p.

Definition finished (status : option jstring) : bool :=
  bool_decide (status = Some "SUCCESS"%js ∨ status = Some "FAILURE"%js ∨ status = Some "RETRY"%js).

(** [get_task(data)] *)
Definition get_task (data : task_data) (p : page) : nat * page :=
  match obj_get (td_task_id data) (p_tasks p) with
  | Some ref =>
      match p_heap p !! ref with
      | Some old_task =>
          if finished (t_status old_task) then (ref, p)
          else
            let '(t, p) := task_update data old_task p in
            (ref, set_heap (<[ref := t]> (p_heap p)) (p_next_task p) p)
      | None => (ref, p)
      end
  | None => Task_new data p
  end.

(** The tasks of the answer, in order: the references [get_task] returns. *)
Fixpoint get_tasks (tasks : list task_data) (p : page) : list nat * page :=
  match tasks with
  | [] => ([], p)
  | data :: rest =>
      let '(ref, p) := get_task data p in
      let '(refs, p) := get_tasks rest p in
      (ref :: refs, p)
  end.

Definition task_id_of (p : page) (ref : nat) : jstring :=
  match p_heap p !! ref with Some t => to_str (t_id t) | None => to_str None end.
Definition status_of (p : page) (ref : nat) : option jstring := p_heap p !! ref ≫= t_status.

(** [delete] on every task of [_TASKS_BY_ID] that [keep] does not hold. *)
Definition drop_tasks (keep : jstring → bool) (p : page) : page :=
  foldl (λ p k,
    if keep k then p
    else match obj_get k (p_tasks p) ≫= (p_heap p !!.) with
         | Some t => task_delete t p
         | None => p
         end) p (for_in (p_tasks p)).

Definition insert_tasks (refs : list nat) (p : page) : page :=
  foldl (λ p ref, match p_heap p !! ref with Some t => task_insert None t p | None => p end)
    p refs.

(** The polling period after an answer. *)
Definition next_period (has_running : bool) (period : Z) : Z :=
  if has_running then _TASK_CHECK_PERIOD_MIN
  else
    let period := (period * _TASK_CHECK_PERIOD_MULT)%Z in
    if (period >? _TASK_CHECK_PERIOD_MAX)%Z then _TASK_CHECK_PERIOD_MAX else period.

(** [_TASK_TIMEOUT_ID = setTimeout(task_check, _TASK_CHECK_PERIOD)] *)
Definition schedule_check (p : page) : page :=
  set_timers (Some (p_next_timer p)) (p_timers p ++ [(p_next_timer p, p_period p)])
    (S (p_next_timer p)) p.

(** [set_tasks(tasks, status, jqXHR)]: the answer of a task request. *)
Definition set_tasks (tasks : list task_data) (p : page) : page :=
  let '(_new_tasks_ordered, p) := get_tasks tasks p in
  let _new_tasks :=
    obj_assign (map (λ ref, (task_id_of p ref, ref)) _new_tasks_ordered) [] in
  let p := drop_tasks (λ k, bool_decide (k ∈ obj_keys _new_tasks)) p in
  let p := set_tasks_by_id _new_tasks p in
  let has_running := existsb (λ ref, negb (finished (status_of p ref))) _new_tasks_ordered in
  let p := insert_tasks _new_tasks_ordered p in
  let p := set_period (next_period has_running (p_period p)) p in
  schedule_check p.

(** [clear_tasks(event)] *)
Definition clear_tasks_data (p : page) : jstring :=
  foldl (λ data task_id, data ++ "&task="%js ++ task_id)
    ("csrfmiddlewaretoken="%js ++ p_csrf p) (for_in (p_tasks p)).
Definition clear_tasks (p : page) : page :=
  ajax_post (p_task_url p) (clear_tasks_data p) (drop_tasks (λ _, false) p).

(** ** The event loop *)

Definition run_handler (h : handler) (p : page) : page :=
  match h with
  | HClearAlerts sel => clear_alerts_callback sel p
  | HClearTask ref => match p_heap p !! ref with Some t => task_clear t p | None => p end
  | HClearTasks => clear_tasks p
  end.

(** The end of an animation. *)
Definition fx_done (f : fx) (p : page) : page :=
  match f with
  | FxFadeIn el => on_dom (show el) p
  | FxSlideUp el then_remove =>
      on_dom (λ d, foldl (λ d x, detach x d) d then_remove) (on_dom (hide el) p)
  end.

Inductive step : page → page → Prop :=
  | step_timer p id delay :
      (id, delay) ∈ p_timers p → step p (task_check false (clearTimeout id p))
  | step_response p n tasks :
      p_inflight p = S n → step p (set_tasks tasks (set_requests n (p_sent p) p))
  | step_failure p n :
      p_inflight p = S n → step p (set_requests n (p_sent p) p)
  | step_results p results : step p (result_alerts results p)
  | step_recheck p : step p (task_check true p)
  | step_click p el h : (el, h) ∈ p_clicks p → step p (run_handler h p)
  | step_fx p l1 f l2 : p_fx p = l1 ++ f :: l2 → step p (fx_done f (set_fx (l1 ++ l2) p)).

(** The page once the scripts have run: nothing is pending. *)
Definition initial_page (d : dom) (alert_list task_list header clear_all : nat)
    (csrf task_url : jstring) : page :=
  Page d alert_list task_list [] csrf task_url
    [(header, HClearAlerts SelAlertItems); (clear_all, HClearTasks)]
    [] ∅ 0 [] _TASK_CHECK_PERIOD_MIN None [] 0 0 [].
