(* ===== verification/PcapTasksFacts.v ===== *)
(** * Properties of the page scripts

    The polling of the task API, the order of the task list, the alerts of an answer and
    what the restyling of a task leaves behind. *)

From S2P Require Import Prelude JsString JsObject JqClasses Dom PcapTasks.

(** ** Polling state *)

(** The part of the page the polling reads and writes. *)
Definition poll (p : page) :=
  (p_period p, p_timeout_id p, p_timers p, p_next_timer p, p_inflight p).

Lemma poll_fields p a b c d e :
  poll p = (a, b, c, d, e) →
  p_period p = a ∧ p_timeout_id p = b ∧ p_timers p = c ∧ p_next_timer p = d ∧ p_inflight p = e.
Proof. unfold poll. by intros [= -> -> -> -> ->]. Qed.

Lemma poll_show_alert m a p : poll (show_alert m a p) = poll p.
Proof. unfold show_alert. by case_bool_decide. Qed.

Lemma poll_foldl {A} (f : page → A → page) l p :
  (∀ p x, poll (f p x) = poll p) → poll (foldl f p l) = poll p.
Proof. intros Hf. revert p. induction l as [|x l IH]; intros p; simpl; [done|]. by rewrite IH. Qed.

Lemma poll_drop keep p : poll (drop_tasks keep p) = poll p.
Proof.
  apply poll_foldl. intros q k. destruct (keep k); [done|].
  by destruct (obj_get k (p_tasks q) ≫= _).
Qed.

Lemma poll_task_insert t p : poll (task_insert None t p) = poll p.
Proof. unfold task_insert. by case_bool_decide. Qed.

Lemma poll_insert refs p : poll (insert_tasks refs p) = poll p.
Proof.
  apply poll_foldl. intros q r. destruct (p_heap q !! r); [apply poll_task_insert|done].
Qed.

(** [update] changes only the document. *)
Lemma show_message_page t p : ∃ d, show_message t p = set_dom d p.
Proof. unfold show_message. destruct (t_link t), (t_msg t); eauto. exists (p_dom p). by destruct p. Qed.

Lemma task_update_page data t p : ∃ d, (task_update data t p).2 = set_dom d p.
Proof.
  unfold task_update. cbn [snd].
  match goal with |- ∃ d, show_message ?t ?q = _ =>
    destruct (show_message_page t q) as [d ->]; exists d end.
  by case_decide.
Qed.

Lemma poll_get_task data p : poll (get_task data p).2 = poll p.
Proof.
  unfold get_task. destruct (obj_get _ _) as [ref|].
  - destruct (p_heap p !! ref) as [t|]; [|done]. destruct (finished _); [done|].
    destruct (task_update data t p) as [t' p'] eqn:E.
    destruct (task_update_page data t p) as [d Hd]. rewrite E in Hd. simpl in *. by subst.
  - unfold Task_new. cbn [new_elem createElement].
    match goal with |- context [task_update data ?t ?q] =>
      destruct (task_update data t q) as [t' p'] eqn:E;
      destruct (task_update_page data t q) as [d Hd]; rewrite E in Hd end.
    cbn [snd] in *. rewrite Hd. reflexivity.
Qed.

Lemma poll_get_tasks tasks p : poll (get_tasks tasks p).2 = poll p.
Proof.
  revert p. induction tasks as [|data rest IH]; intros p; simpl; [done|].
  pose proof (poll_get_task data p) as H. destruct (get_task data p) as [r q].
  specialize (IH q). destruct (get_tasks rest q) as [rs q']. simpl in *. congruence.
Qed.

(** The polling state after an answer. *)
Lemma poll_set_tasks tasks p :
  ∃ running, let per := next_period running (p_period p) in
  poll (set_tasks tasks p) =
    (per, Some (p_next_timer p), p_timers p ++ [(p_next_timer p, per)], S (p_next_timer p),
     p_inflight p).
Proof.
  unfold set_tasks. pose proof (poll_get_tasks tasks p) as H.
  destruct (get_tasks tasks p) as [refs q]. simpl in H. eexists. simpl.
  match goal with |- poll (schedule_check (set_period _ ?r)) = _ =>
    assert (poll r = poll p) as Hr end.
  { rewrite poll_insert. unfold set_tasks_by_id, poll. simpl.
    pose proof (poll_drop (λ k, bool_decide (k ∈ obj_keys (obj_assign
      (map (λ ref, (task_id_of q ref, ref)) refs) []))) q) as Hd.
    unfold poll in *. congruence. }
  unfold poll in Hr. injection Hr as E1 E2 E3 E4 E5.
  unfold poll, schedule_check, set_period. simpl. by rewrite E1, E3, E4, E5.
Qed.

Lemma poll_task_check b p :
  poll (task_check b p) =
    (if b then _TASK_CHECK_PERIOD_MIN else p_period p, p_timeout_id p,
     match p_timeout_id p with
     | Some id => filter (λ t, t.1 ≠ id) (p_timers p) | None => p_timers p end,
     p_next_timer p, S (p_inflight p)).
Proof.
  unfold task_check. destruct b, (p_timeout_id p) eqn:E; cbn [set_period p_timeout_id];
    rewrite ?E; unfold poll; cbn; by rewrite ?E.
Qed.

Lemma poll_result_alerts results p :
  poll (result_alerts results p) = poll (task_check false p).
Proof.
  unfold result_alerts. match goal with |- poll (task_check _ ?q) = _ =>
    assert (poll q = poll p) as H; [|revert H; generalize q; clear; intros p' H] end.
  { apply poll_foldl. intros q a. destruct (obj_get a results); [|done].
    apply poll_foldl. intros. apply poll_show_alert. }
  rewrite !poll_task_check. unfold poll in H. by injection H as -> -> -> -> ->.
Qed.

Lemma poll_handler h p : poll (run_handler h p) = poll p.
Proof.
  destruct h; simpl; [done| |].
  - by destruct (p_heap p !! t).
  - unfold clear_tasks. exact (poll_drop (λ _, false) p).
Qed.

Lemma poll_fx_done f p : poll (fx_done f p) = poll p.
Proof. by destruct f. Qed.

(** ** Bounds of the period *)

Lemma next_period_bounds b z :
  (1000 ≤ z ≤ 8000)%Z → (1000 ≤ next_period b z ≤ 8000)%Z.
Proof.
  unfold next_period, _TASK_CHECK_PERIOD_MIN, _TASK_CHECK_PERIOD_MAX, _TASK_CHECK_PERIOD_MULT.
  intros H. destruct b; [lia|]. destruct (Z.gtb_spec (z * 2) 8000); lia.
Qed.

Definition poll_bounds (p : page) : Prop :=
  (1000 ≤ p_period p ≤ 8000)%Z ∧ Forall (λ t, 1000 ≤ t.2 ≤ 8000)%Z (p_timers p).

(** What the polling knows about its timers: ids are fresh, and a live timer other than
    [_TASK_TIMEOUT_ID] is one the script can no longer cancel. *)
Lemma poll_bounds_eq p q : poll p = poll q → poll_bounds q → poll_bounds p.
Proof. unfold poll, poll_bounds. intros [= -> _ -> _ _]. done. Qed.

Lemma poll_bounds_check b p : poll_bounds p → poll_bounds (task_check b p).
Proof.
  unfold poll_bounds. destruct (poll_fields _ _ _ _ _ _ (poll_task_check b p)) as (-> & _ & -> & _ & _).
  intros [H1 H2]. split.
  - unfold _TASK_CHECK_PERIOD_MIN. destruct b; [lia|done].
  - destruct (p_timeout_id p); [|done]. rewrite Forall_forall in *.
    intros t [_ ?]%list_elem_of_filter. auto.
Qed.

Lemma poll_bounds_step p q : step p q → poll_bounds p → poll_bounds q.
Proof.
  intros Hs Hp. inversion Hs; subst.
  - apply poll_bounds_check. destruct Hp as [H1 H2]. split; [done|]. simpl.
    rewrite Forall_forall in *. intros t [_ ?]%list_elem_of_filter. auto.
  - destruct (poll_set_tasks tasks (set_requests n (p_sent p) p)) as [r Hr].
    apply poll_fields in Hr as (E1 & _ & E2 & _ & _). destruct Hp as [H1 H2].
    pose proof (next_period_bounds r (p_period p) H1). unfold poll_bounds. rewrite E1, E2.
    simpl. split; [done|]. apply Forall_app. split; [done|]. by constructor.
  - done.
  - eapply poll_bounds_eq; [apply poll_result_alerts|]. by apply poll_bounds_check.
  - by apply poll_bounds_check.
  - eapply poll_bounds_eq; [apply poll_handler|done].
  - eapply poll_bounds_eq; [apply poll_fx_done|done].
Qed.

(** ** One polling loop *)

(** The page polls with one loop: a timer the script can cancel, or a request. *)
Definition polling (p : page) : Prop :=
  (p_inflight p = 0 ∧ ∃ id delay, p_timers p = [(id, delay)] ∧ p_timeout_id p = Some id)
  ∨ (p_inflight p = 1 ∧ p_timers p = []).
(** Nothing will ask the server again. *)
Definition stalled (p : page) : Prop := p_inflight p = 0 ∧ p_timers p = [].

#[export] Instance polling_eq : Proper ((λ p q, poll p = poll q) ==> iff) polling.
Proof. intros p q [= _ E1 E2 _ E3]. unfold polling. by rewrite E1, E2, E3. Qed.
#[export] Instance stalled_eq : Proper ((λ p q, poll p = poll q) ==> iff) stalled.
Proof. intros p q [= _ E1 E2 _ E3]. unfold stalled. by rewrite E2, E3. Qed.

Lemma polling_check b p :
  p_inflight p = 0 →
  (p_timers p = [] ∨ ∃ id delay, p_timers p = [(id, delay)] ∧ p_timeout_id p = Some id) →
  polling (task_check b p).
Proof.
  intros Hi Ht. right. destruct (poll_fields _ _ _ _ _ _ (poll_task_check b p)) as (_ & _ & -> & _ & ->).
  rewrite Hi. split; [done|].
  destruct Ht as [->|(id & delay & -> & ->)]; [by destruct (p_timeout_id p)|].
  by rewrite filter_cons_False by naive_solver.
Qed.

(** ** The document under the task operations *)

(** The elements of a task object are in the document's store, and the ones [update] writes
    to are not the task list. *)
Record task_ok (d : dom) (tl : nat) (t : task) : Prop := {
  ok_box : is_Some (d_elems d !! t_box t);
  ok_descr : is_Some (d_elems d !! t_descr_p t) ∧ t_descr_p t ≠ tl;
  ok_msg : is_Some (d_elems d !! t_msg_p t) ∧ t_msg_p t ≠ tl;
  ok_place : parent d (t_box t) = None ∨ parent d (t_box t) = Some tl;
  ok_not_tl : t_box t ≠ tl
}.

Lemma task_ok_ext n tl d d' t :
  dom_ext n tl d d' → t_box t < n → task_ok d tl t → task_ok d' tl t.
Proof.
  intros [W K E P N] Hn [B D M L T]. split; [by apply E| | | |done].
  - destruct D. split; [by apply E|done].
  - destruct M. split; [by apply E|done].
  - rewrite P by done. done.
Qed.

(** The objects of two states of the same task. *)
Definition same_elems (t t' : task) : Prop :=
  t_box t' = t_box t ∧ t_descr_p t' = t_descr_p t ∧ t_msg_p t' = t_msg_p t.

Lemma task_ok_same d tl t t' : same_elems t t' → task_ok d tl t → task_ok d tl t'.
Proof.
  intros (E1 & E2 & E3) [B D M L T]. split; rewrite ?E1, ?E2, ?E3; done.
Qed.

Lemma dom_ext_msg_tail n tl m id s d :
  dom_wf d → n ≤ id → m ≠ tl → m ≠ id → id ≠ tl → parent d id = None →
  is_Some (d_elems d !! m) → is_Some (d_elems d !! id) →
  dom_ext n tl d (append_elem m id (empty_elem m (append_text id s d))).
Proof.
  intros Hd Hn Hm Hmi Hi Hp Em Ei.
  pose proof (dom_ext_text n tl id s d Hd Hi) as X1.
  pose proof (dom_ext_empty n tl m _ (ext_wf _ _ _ _ X1) Hm) as X2.
  pose proof (dom_ext_trans _ _ _ _ _ X1 X2) as X12.
  destruct (append_text_spec d id s Hd) as (W1 & _ & P1).
  destruct (empty_elem_spec _ m W1) as (W2 & _ & P2 & _).
  eapply dom_ext_trans; [exact X12|]. apply dom_ext_append; try done; try by apply X12.
  rewrite P2, P1, Hp. by case_decide.
Qed.

Lemma show_message_ext n t p :
  dom_wf (p_dom p) → n ≤ d_next (p_dom p) →
  is_Some (d_elems (p_dom p) !! t_msg_p t) → t_msg_p t ≠ p_task_list p →
  is_Some (d_elems (p_dom p) !! p_task_list p) →
  dom_ext n (p_task_list p) (p_dom p) (p_dom (show_message t p)).
Proof.
  intros Hd Hn Em Hm Etl. unfold show_message.
  assert (∀ tag d', createElement tag (p_dom p) = (d_next (p_dom p), d') →
    dom_ext n (p_task_list p) (p_dom p) d' ∧
    ∀ d'' s, dom_ext n (p_task_list p) d' d'' → (∀ x, parent d'' x = parent d' x) →
      dom_ext n (p_task_list p) (p_dom p)
        (append_elem (t_msg_p t) (d_next (p_dom p))
          (empty_elem (t_msg_p t) (append_text (d_next (p_dom p)) s d'')))) as Hgen.
  { intros tag d' E. destruct (createElement_wf _ _ _ _ Hd E) as (W & P & _ & F & S & O & _ & _).
    pose proof (dom_ext_create n (p_task_list p) tag _ Hd) as X. rewrite E in X. split; [done|].
    intros d'' s X' P'. eapply dom_ext_trans; [exact X|]. eapply dom_ext_trans; [exact X'|].
    apply dom_ext_msg_tail; try done.
    - apply X'. - intros E'. rewrite E' in Em. rewrite F in Em. by destruct Em.
    - intros E'. rewrite <- E' in Etl. rewrite F in Etl. by destruct Etl.
    - by rewrite P'. - by apply X', X. - by apply X'. }
  destruct (t_link t) as [href|], (t_msg t) as [msg|]; unfold new_elem.
  1,2: destruct (Hgen "a"%js _ eq_refl) as [X H]; eapply H;
       [by apply dom_ext_local; [done|apply X]|intros; by apply parent_local].
  - destruct (Hgen "span"%js _ eq_refl) as [X H]. apply H; [apply dom_ext_refl, X|done].
  - by apply dom_ext_refl.
Qed.

Lemma restyle_ext n tl t s d : dom_wf d → dom_ext n tl d (restyle t s d).
Proof.
  intros Hd. unfold restyle. cbv zeta. unfold add_class, remove_class.
  repeat match goal with |- dom_ext _ _ _ (upd _ _ _) =>
    eapply dom_ext_trans; [|apply dom_ext_local; [done|]] end; [by apply dom_ext_refl|..].
  all: repeat apply dom_wf_local; done.
Qed.

Lemma task_update_spec n data t p t' p' :
  task_update data t p = (t', p') →
  dom_wf (p_dom p) → n ≤ d_next (p_dom p) → task_ok (p_dom p) (p_task_list p) t →
  is_Some (d_elems (p_dom p) !! p_task_list p) →
  dom_ext n (p_task_list p) (p_dom p) (p_dom p') ∧ p' = set_dom (p_dom p') p
  ∧ same_elems t t'
  ∧ t_id t' = Some (default (td_task_id data) (t_id t)) ∧ t_status t' = td_status data !! 0.
Proof.
  intros H Hd Hn Hok Htl. pose proof (task_update_page data t p) as [d Hpage].
  rewrite H in Hpage. cbn [snd] in Hpage. subst p'. unfold task_update in H.
  injection H as <- H. split_and!; try done; try (by destruct t as [? ? ? ? ? []]).
  set (tl := p_task_list p) in *.
  set (p1 := if decide _ then _ else _) in H.
  assert (p_task_list p1 = tl ∧ dom_ext n tl (p_dom p) (p_dom p1)) as [T1 X1].
  { unfold p1. case_decide; (split; [done|]); [by apply restyle_ext|by apply dom_ext_refl]. }
  clearbody p1. destruct Hok as [_ [D1 D2] [M1 M2] _ _].
  apply (f_equal p_dom) in H. cbn [p_dom set_dom] in H |- *. rewrite <- H. clear H.
  eapply dom_ext_trans; [exact X1|].
  match goal with |- dom_ext _ _ _ (p_dom (show_message ?u (on_dom ?f3 (on_dom ?f2 (on_dom ?f1 p1))))) =>
    set (q := on_dom f3 (on_dom f2 (on_dom f1 p1))); set (u0 := u) end.
  assert (dom_ext n tl (p_dom p1) (p_dom q)) as X2.
  { unfold q. cbn [on_dom set_dom p_dom]. change (t_descr_p (with_status _ _ _)) with (t_descr_p t).
    eapply dom_ext_trans; [apply (dom_ext_empty n tl (t_descr_p t)); [apply X1|done]|].
    pose proof (ext_wf _ _ _ _ (dom_ext_empty n tl (t_descr_p t) (p_dom p1) ltac:(apply X1) D2)) as W.
    eapply dom_ext_trans; [by apply (dom_ext_text n tl (t_descr_p t))|].
    apply dom_ext_local; [done|].
    by eapply ext_wf, (dom_ext_text n tl (t_descr_p t)). }
  eapply dom_ext_trans; [exact X2|].
  replace tl with (p_task_list q) by done.
  pose proof (ext_next _ _ _ _ X1). pose proof (ext_next _ _ _ _ X2).
  apply show_message_ext.
  - apply X2. - lia.
  - change (t_msg_p u0) with (t_msg_p t). by apply X2, X1.
  - change (t_msg_p u0) with (t_msg_p t). change (p_task_list q) with (p_task_list p1). by rewrite T1.
  - change (p_task_list q) with (p_task_list p1). rewrite T1. by apply X2, X1.
Qed.

(** ** Creating a task *)

(** The page around the document: what creating a task leaves alone. *)
Definition around (p q : page) : Prop :=
  p_alert_list q = p_alert_list p ∧ p_task_list q = p_task_list p ∧ p_heap q = p_heap p
  ∧ p_next_task q = p_next_task p ∧ p_tasks q = p_tasks p ∧ p_fx q = p_fx p
  ∧ poll q = poll p ∧ p_sent q = p_sent p.

(** One [createElement] of the constructor, changed locally and appended to [par]. *)
Ltac new_child E W Hn tl par X K S :=
  match type of E with
  | createElement ?tag ?d = (?id, ?d1) =>
      let Ei := fresh "Ei" in
      destruct (dom_ext_new_child _ tl tag par d id d1 E W Hn) as (X & Ei & ? & S & K);
      [try done; try lia..|]
  end.

(** The elements the constructor builds before it calls [update]. *)
Lemma Task_new_skeleton data p :
  dom_wf (p_dom p) → is_Some (d_elems (p_dom p) !! p_task_list p) →
  let n := d_next (p_dom p) in
  ∃ t q,
    Task_new data p =
      (let '(t', p') := task_update data t q in
       (p_next_task p, set_heap (<[p_next_task p := t']> (p_heap p')) (S (p_next_task p)) p'))
    ∧ around p q ∧ dom_ext n (p_task_list p) (p_dom p) (p_dom q)
    ∧ task_ok (p_dom q) (p_task_list p) t
    ∧ t_box t = n ∧ parent (p_dom q) n = None ∧ t_id t = None.
Proof.
  intros Hd Htl n. set (d0 := p_dom p) in *. set (tl := p_task_list p) in *.
  unfold Task_new, new_elem. change (p_dom p) with d0.
  destruct (createElement "li"%js d0) as [box d1] eqn:E1.
  destruct (createElement_wf _ _ _ _ Hd E1) as (W1 & P1 & _ & F1 & S1 & O1 & N1 & Ebox).
  pose proof (dom_ext_create n tl "li"%js _ Hd) as X1. rewrite E1 in X1. cbn [snd] in X1.
  assert (box ≠ tl) as Hbtl by (intros ->; rewrite F1 in Htl; by destruct Htl).
  assert (is_Some (d_elems d1 !! tl)) as Htl1 by by apply X1.
  cbn [p_dom set_dom on_dom]. set (d2 := hide box d1) in *.
  assert (dom_ext (S box) tl d1 d2) as X2 by by apply dom_ext_local.
  destruct (createElement "div"%js d2) as [div d3] eqn:E3. cbn [p_dom set_dom on_dom].
  new_child E3 (ext_wf _ _ _ _ X2) (eq_ind_r (λ m, S box ≤ m) (le_n _) N1) tl box X3 K3 S3;
    [by apply X2..|].
  destruct (K3 (add_class div "navbar-alert"%js d3)) as [X4 S4];
    [apply dom_ext_local; [done|apply X3]|intros; by apply parent_local|].
  set (d4 := append_elem box div _) in *. cbn [p_dom set_dom on_dom add_click].
  destruct (createElement "i"%js d4) as [icon d5] eqn:E5. cbn [p_dom set_dom on_dom add_click].
  assert (S box ≤ d_next d4) as N4 by (pose proof (ext_next _ _ _ _ X4); simpl in *; lia).
  new_child E5 (ext_wf _ _ _ _ X4) N4 tl div X5 K5 S5; [by apply X4, X2|].
  destruct (K5 (set_attr icon "title"%js "Clear this task"%js
     (add_class icon "fa fa-lg fa-fw task-icon"%js d5))) as [X6 _];
    [by apply dom_ext_local2; [apply dom_ext_refl, X5|..]
    |intros; unfold set_attr, add_class; by rewrite !parent_local|].
  set (d6 := append_elem div icon _) in *. cbn [p_dom set_dom on_dom add_click].
  destruct (createElement "strong"%js d6) as [descr d7] eqn:E7. cbn [p_dom set_dom on_dom add_click].
  assert (S box ≤ d_next d6) as N6 by (pose proof (ext_next _ _ _ _ X6); lia).
  new_child E7 (ext_wf _ _ _ _ X6) N6 tl div X7 K7 S7; [by apply X6|by apply X6, X4, X2|].
  destruct (K7 d7) as [X8 S8]; [apply dom_ext_refl, X7|done|].
  set (d8 := append_elem div descr _) in *. cbn [p_dom set_dom on_dom add_click].
  destruct (createElement "p"%js d8) as [msg d9] eqn:E9. cbn [p_dom set_dom on_dom add_click].
  assert (S box ≤ d_next d8) as N8 by (pose proof (ext_next _ _ _ _ X8); lia).
  new_child E9 (ext_wf _ _ _ _ X8) N8 tl div X9 K9 S9; [by apply X8, X6|by apply X8, X6, X4, X2|].
  destruct (K9 d9) as [X10 S10]; [apply dom_ext_refl, X9|done|].
  set (d10 := append_elem div msg _) in *.
  assert (dom_ext (S box) tl d1 d10) as X by eauto using dom_ext_trans.
  assert (parent d10 box = None) as Pb by (rewrite (ext_parent _ _ _ _ X); [done|lia|by left]).
  eexists (Task box div icon descr msg _ _ _ _ _ _ _ _ _), _. split; [reflexivity|].
  change (p_dom (on_dom _ _)) with d10. split_and!; try done; [|by split; simpl; [by apply X|by split; [apply X10|]|done|by left|]|by subst n; rewrite <- Ebox].
  eapply dom_ext_trans; [exact X1|]. destruct X as [A1 A2 A3 A4 A5].
  split; [done|done|auto|intros; apply A4; [lia|done]|done].
Qed.

Lemma Task_new_spec data p ref p' :
  Task_new data p = (ref, p') →
  dom_wf (p_dom p) → is_Some (d_elems (p_dom p) !! p_task_list p) →
  ∃ t q, ref = p_next_task p ∧ p' = set_heap (<[ref := t]> (p_heap p)) (S ref) q ∧ around p q
  ∧ dom_ext (d_next (p_dom p)) (p_task_list p) (p_dom p) (p_dom q)
  ∧ task_ok (p_dom q) (p_task_list p) t
  ∧ t_box t = d_next (p_dom p)
  ∧ t_id t = Some (td_task_id data) ∧ t_status t = td_status data !! 0.
Proof.
  intros H Hd Htl. destruct (Task_new_skeleton data p Hd Htl)
    as (t & q & E & Ar & X & Hok & Hb & Hp & Hid). rewrite E in H.
  destruct (task_update data t q) as [t' p1] eqn:Eu.
  pose proof Ar as (A1 & A2 & A3 & A4 & A5 & A6 & A7 & A8).
  destruct (task_update_spec (d_next (p_dom q)) data t q t' p1 Eu) as (Y & Hp1 & Sm & Hid' & Hst);
    rewrite ?A2; [apply X|done|done|by apply X|]. rewrite A2 in Y.
  injection H as <- <-. exists t', p1. rewrite Hid in Hid'.
  destruct (ok_box _ _ _ Hok) as [eb Heb].
  assert (t_box t < d_next (p_dom q)) as Hlt.
  { destruct (decide (t_box t < d_next (p_dom q))); [done|].
    rewrite (wf_fresh _ (ext_wf _ _ _ _ X)) in Heb by lia. done. }
  split_and!; try done.
  - by rewrite Hp1, <- A3.
  - by rewrite Hp1.
  - eapply dom_ext_trans; [exact X|]. destruct Y as [B1 B2 B3 B4 B5].
    pose proof (ext_next _ _ _ _ X).
    split; [done|done|auto|intros; apply B4; [lia|done]|done].
  - eapply task_ok_same; [exact Sm|]. by eapply task_ok_ext.
  - by destruct Sm as (-> & _ & _).
Qed.

(** ** The invariant of the page *)

Record page_wf (p : page) : Prop := {
  pw_dom : dom_wf (p_dom p);
  pw_tl : is_Some (d_elems (p_dom p) !! p_task_list p);
  pw_heap : ∀ r t, p_heap p !! r = Some t →
    task_ok (p_dom p) (p_task_list p) t ∧ r < p_next_task p ∧ is_Some (t_id t);
  pw_boxes : ∀ r1 r2 t1 t2, p_heap p !! r1 = Some t1 → p_heap p !! r2 = Some t2 →
    t_box t1 = t_box t2 → r1 = r2;
  pw_tasks : ∀ k r, obj_get k (p_tasks p) = Some r →
    ∃ t, p_heap p !! r = Some t ∧ t_id t = Some k;
  pw_keys : NoDup (obj_keys (p_tasks p))
}.

Lemma elem_lt d x : dom_wf d → is_Some (d_elems d !! x) → x < d_next d.
Proof.
  intros Hd [e He]. destruct (decide (x < d_next d)); [done|].
  rewrite (wf_fresh _ Hd) in He by lia. done.
Qed.

(** Replacing or adding a task object under a change of the document. *)
Lemma page_wf_set p q r t n :
  page_wf p → around p q →
  dom_ext (d_next (p_dom p)) (p_task_list p) (p_dom p) (p_dom q) →
  task_ok (p_dom q) (p_task_list p) t → is_Some (t_id t) → r < n → p_next_task p ≤ n →
  (∀ r' t', p_heap p !! r' = Some t' → t_box t' = t_box t → r' = r) →
  (∀ t', p_heap p !! r = Some t' → t_id t = t_id t') →
  page_wf (set_heap (<[r := t]> (p_heap p)) n q).
Proof.
  intros [W1 W2 W3 W4 W5 W6] (A1 & A2 & A3 & A4 & A5 & A6 & A7 & A8) X Hok Hid Hr Hn Hbox Hsame.
  split; simpl; rewrite ?A2, ?A5.
  - apply X.
  - by apply X.
  - intros r' t' [[<- <-]|[Hne H]]%lookup_insert_Some; [done|].
    destruct (W3 _ _ H) as (Ho & ? & ?). split_and!; [|lia|done].
    eapply task_ok_ext; [exact X| |done]. apply elem_lt; [done|apply Ho].
  - intros r1 r2 t1 t2 [[<- <-]|[H1 E1]]%lookup_insert_Some [[<- <-]|[H2 E2]]%lookup_insert_Some Hb;
      [done| | |by eapply W4].
    + symmetry. by eapply Hbox. + by eapply Hbox.
  - intros k r' Hk. destruct (W5 _ _ Hk) as (t' & Ht' & Hi). destruct (decide (r' = r)) as [->|].
    + exists t. rewrite lookup_insert_eq. split; [done|]. by rewrite (Hsame _ Ht').
    + exists t'. by rewrite lookup_insert_ne.
  - done.
Qed.

(** What [get_task] keeps of the page. *)
Record task_step (p p' : page) : Prop := {
  ts_wf : page_wf p';
  ts_kids : kids (p_dom p') (p_task_list p) = kids (p_dom p) (p_task_list p);
  ts_lists : p_task_list p' = p_task_list p ∧ p_alert_list p' = p_alert_list p;
  ts_tasks : p_tasks p' = p_tasks p;
  ts_fx : p_fx p' = p_fx p;
  ts_heap : ∀ r t, p_heap p !! r = Some t →
    ∃ t', p_heap p' !! r = Some t' ∧ same_elems t t' ∧ t_id t' = t_id t
}.

Lemma task_step_refl p : page_wf p → task_step p p.
Proof. intros H. split; try done. intros r t Ht. exists t. by split_and!. Qed.

Lemma task_step_trans p q r : task_step p q → task_step q r → task_step p r.
Proof.
  intros [W1 K1 [L1 L1'] T1 F1 H1] [W2 K2 [L2 L2'] T2 F2 H2]. split; try congruence.
  - split; congruence.
  - intros x t Ht. destruct (H1 _ _ Ht) as (t' & Ht' & (? & ? & ?) & ?).
    destruct (H2 _ _ Ht') as (t'' & ? & (? & ? & ?) & ?). exists t''. split_and!; try congruence.
    by split_and!; congruence.
Qed.

Lemma get_task_spec data p ref p' :
  get_task data p = (ref, p') → page_wf p →
  task_step p p'
  ∧ (∃ t, p_heap p' !! ref = Some t ∧ t_id t = Some (td_task_id data))
  ∧ (∀ r, r ≠ ref → p_heap p' !! r = p_heap p !! r).
Proof.
  intros H Hw. pose proof Hw as [W1 W2 W3 W4 W5 W6]. unfold get_task in H.
  destruct (obj_get (td_task_id data) (p_tasks p)) as [r|] eqn:Eg.
  - destruct (W5 _ _ Eg) as (t & Ht & Hid). rewrite Ht in H. destruct (finished (t_status t)).
    { injection H as <- <-. split_and!; [by apply task_step_refl|by exists t|done]. }
    destruct (task_update data t p) as [t' p1] eqn:Eu. injection H as <- <-.
    destruct (W3 _ _ Ht) as (Hok & Hr & _).
    destruct (task_update_spec (d_next (p_dom p)) _ _ _ _ _ Eu) as (X & Hp1 & Sm & Hid' & _);
      try done. rewrite Hid in Hid'. simpl in Hid'.
    assert (p_heap p1 = p_heap p ∧ p_next_task p1 = p_next_task p) as [E1 E2] by by rewrite Hp1.
    rewrite E1, E2.
    assert (page_wf (set_heap (<[r:=t']> (p_heap p)) (p_next_task p) p1)) as Hw'.
    { eapply page_wf_set; try done; try by rewrite Hp1.
      - eapply task_ok_same; [exact Sm|]. eapply task_ok_ext; [exact X| |done].
        apply elem_lt; [done|apply Hok].
      - intros r' t0 H0 Hb. eapply W4; [done|done|]. destruct Sm as (Eb & _). congruence.
      - intros t0 H0. congruence. }
    split_and!.
    + split; try done; try (by rewrite Hp1); [apply X|]. intros r0 t0 H0. simpl.
      destruct (decide (r0 = r)) as [->|].
      * exists t'. rewrite lookup_insert_eq. assert (t0 = t) as -> by congruence.
        split_and!; try apply Sm; congruence.
      * exists t0. rewrite lookup_insert_ne by done. by split_and!.
    + exists t'. simpl. by rewrite lookup_insert_eq.
    + intros r0 Hr0. simpl. by rewrite lookup_insert_ne.
  - destruct (Task_new_spec _ _ _ _ H W1 W2) as (t & q & -> & -> & Ar & X & Hok & Hb & Hid & _).
    assert (p_heap p !! p_next_task p = None) as Hf.
    { apply eq_None_not_Some. intros [t0 H0]. destruct (W3 _ _ H0) as (_ & ? & _). lia. }
    split_and!; [|exists t; simpl; by rewrite lookup_insert_eq|
      intros r0 Hr0; simpl; by rewrite lookup_insert_ne].
    pose proof Ar as (A1 & A2 & A3 & A4 & A5 & A6 & A7 & A8).
    split; try done; [|apply X|].
    + eapply page_wf_set; try done; try lia; [|congruence].
      intros r' t' H' E. destruct (W3 _ _ H') as (Ho & _ & _).
      pose proof (elem_lt _ _ W1 (ok_box _ _ _ Ho)). lia.
    + intros r0 t0 H0. exists t0. simpl. rewrite lookup_insert_ne by congruence. by split_and!.
Qed.

Lemma get_tasks_spec tasks p refs p' :
  get_tasks tasks p = (refs, p') → page_wf p → NoDup (map td_task_id tasks) →
  task_step p p'
  ∧ Forall2 (λ data ref, ∃ t, p_heap p' !! ref = Some t ∧ t_id t = Some (td_task_id data))
      tasks refs.
Proof.
  revert p refs p'. induction tasks as [|data rest IH]; intros p refs p' H Hw Hnd; simpl in H.
  { injection H as <- <-. split; [by apply task_step_refl|constructor]. }
  destruct (get_task data p) as [ref q] eqn:E1. destruct (get_tasks rest q) as [refs' q'] eqn:E2.
  injection H as <- <-. apply NoDup_cons in Hnd as [Hn Hnd].
  destruct (get_task_spec _ _ _ _ E1 Hw) as (S1 & (t & Ht & Hid) & _).
  destruct (IH _ _ _ E2 (ts_wf _ _ S1) Hnd) as (S2 & F2).
  split; [by eapply task_step_trans|]. constructor; [|done].
  destruct (ts_heap _ _ S2 _ _ Ht) as (t' & Ht' & _ & Hid'). exists t'. by rewrite Hid'.
Qed.

(** ** The order of the list *)

Definition box_at (p : page) (ref : nat) : nat := default 0 (t_box <$> p_heap p !! ref).

Lemma without_twice c ks : without c (without c ks) = without c ks.
Proof. apply without_notin. rewrite elem_without. by intros [? _]. Qed.

Lemma task_insert_spec r t p :
  page_wf p → p_heap p !! r = Some t →
  let p' := task_insert None t p in
  page_wf p' ∧ kids (p_dom p') (p_task_list p) = without (t_box t) (kids (p_dom p) (p_task_list p))
                 ++ [KElem (t_box t)]
  ∧ p_heap p' = p_heap p ∧ p_tasks p' = p_tasks p ∧ p_task_list p' = p_task_list p.
Proof.
  intros Hw Ht. cbv zeta. pose proof Hw as [W1 W2 W3 W4 W5 W6].
  destruct (W3 _ _ Ht) as ([B _ _ Pl Ntl] & _ & _).
  set (d0 := if bool_decide (is_Some (parent (p_dom p) (t_box t)))
             then detach (t_box t) (p_dom p) else p_dom p).
  assert (p_dom (task_insert None t p) = append_elem (p_task_list p) (t_box t) d0) as Hd
    by (unfold task_insert, d0; by case_bool_decide).
  assert (d0 = detach (t_box t) (p_dom p)) as Ed.
  { unfold d0. case_bool_decide as E; [done|]. symmetry. apply parent_detached; [done|].
    destruct (parent _ _); [|done]. exfalso. apply E. by eexists. }
  destruct (append_elem_spec d0 (p_task_list p) (t_box t)) as (V & K & P & El);
    rewrite ?Ed, ?elems_detach; try done; [by apply detach_wf|].
  assert (∀ q, q = task_insert None t p → p_heap q = p_heap p ∧ p_next_task q = p_next_task p
    ∧ p_tasks q = p_tasks p ∧ p_task_list q = p_task_list p) as Hq
    by (intros q ->; unfold task_insert; by case_bool_decide).
  specialize (Hq _ eq_refl) as (H1 & H2 & H3 & H4).
  revert Hd H1 H2 H3 H4. generalize (task_insert None t p). intros q Hd H1 H2 H3 H4.
  split_and!; try done.
  - split; rewrite ?H1, ?H2, ?H3, ?H4, ?Hd; try done.
    + by rewrite El, Ed, elems_detach.
    + intros r' t' H'. destruct (W3 _ _ H') as ([B' D' M' P' N'] & ? & ?).
      split_and!; try done. split; try done.
      * by rewrite El, Ed, elems_detach.
      * by rewrite El, Ed, elems_detach.
      * by rewrite El, Ed, elems_detach.
      * rewrite P, Ed, parent_detach. repeat case_decide; auto.
  - rewrite Hd, K, Ed, kids_detach, without_twice by done. by rewrite decide_True.
Qed.

(** The list after the insertions: every inserted box moves to the end, in order. *)
Definition move_to_end (ks : list kid) (boxes : list nat) : list kid :=
  foldl (λ ks b, without b ks ++ [KElem b]) ks boxes.

Lemma insert_tasks_spec refs p :
  page_wf p → Forall (λ r, is_Some (p_heap p !! r)) refs →
  let p' := insert_tasks refs p in
  page_wf p'
  ∧ kids (p_dom p') (p_task_list p) = move_to_end (kids (p_dom p) (p_task_list p))
                                        (map (box_at p) refs)
  ∧ p_heap p' = p_heap p ∧ p_tasks p' = p_tasks p ∧ p_task_list p' = p_task_list p.
Proof.
  cbv zeta. revert p. induction refs as [|r refs IH]; intros p Hw Hf; [by split_and!|].
  apply Forall_cons in Hf as [[t Ht] Hf]. unfold insert_tasks. cbn [foldl]. rewrite Ht.
  destruct (task_insert_spec r t p Hw Ht) as (W & K & H1 & H2 & H3).
  revert W K H1 H2 H3. generalize (task_insert None t p). intros q W K H1 H2 H3.
  destruct (IH q W) as (W' & K' & H1' & H2' & H3'); [by rewrite H1|].
  fold (insert_tasks refs q). split_and!; try congruence; try done.
  rewrite <- H3, K'. unfold move_to_end. cbn [map foldl]. rewrite H3, K.
  f_equal; [|unfold box_at; by rewrite H1]. unfold box_at. by rewrite Ht.
Qed.

(** The children that are not among the boxes. *)
Definition outside (boxes : list nat) (k : kid) : Prop :=
  match k with KElem b => b ∉ boxes | KText _ => True end.

#[export] Instance outside_dec boxes k : Decision (outside boxes k).
Proof. destruct k; simpl; apply _. Defined.

Lemma move_to_end_NoDup ks boxes :
  NoDup boxes →
  move_to_end ks boxes = filter (outside boxes) ks ++ map KElem boxes.
Proof.
  revert ks. induction boxes as [|b bs IH]; intros ks Hnd.
  { simpl. rewrite app_nil_r. symmetry. induction ks as [|k ks IH]; [done|].
    rewrite filter_cons_True, IH; [done|]. destruct k; simpl; set_solver. }
  apply NoDup_cons in Hnd as [Hb Hnd]. change (move_to_end ks (b :: bs)) with
    (move_to_end (without b ks ++ [KElem b]) bs). rewrite IH by done.
  rewrite filter_app, <- app_assoc. f_equal.
  - unfold without. rewrite list_filter_filter. apply list_filter_iff. intros [s|c]; simpl.
    + naive_solver.
    + rewrite not_elem_of_cons. naive_solver.
  - by rewrite filter_cons_True.
Qed.

(** ** An answer to the poll *)

Definition slide_out (p : page) (k : jstring) : option fx :=
  match obj_get k (p_tasks p) ≫= (p_heap p !!.) with
  | Some t => Some (FxSlideUp (t_box t) [t_box t])
  | None => None
  end.

Lemma set_fx_fx l p q : p_dom q = p_dom p → q = set_fx (p_fx q) p → set_fx l q = set_fx l p.
Proof. intros _ ->. done. Qed.

Lemma drop_tasks_spec keep p :
  drop_tasks keep p = add_fx (omap (slide_out p) (filter (λ k, ¬ keep k) (for_in (p_tasks p)))) p.
Proof.
  unfold drop_tasks. generalize (for_in (p_tasks p)). intros ks.
  assert (∀ l, foldl (λ p k, if keep k then p
      else match obj_get k (p_tasks p) ≫= (p_heap p !!.) with
           | Some t => task_delete t p | None => p end) (add_fx l p) ks
    = add_fx (l ++ omap (slide_out p) (filter (λ k, ¬ keep k) ks)) p) as H.
  { induction ks as [|k ks IH]; intros l; [by rewrite app_nil_r|]. cbn [foldl].
    destruct (keep k) eqn:Ek.
    - rewrite filter_cons_False by (rewrite Ek; simpl; tauto). apply IH.
    - rewrite filter_cons_True by (rewrite Ek; simpl; tauto). cbn [omap list_omap].
      unfold slide_out at 1. change (p_tasks (add_fx l p)) with (p_tasks p).
      change (p_heap (add_fx l p)) with (p_heap p).
      destruct (obj_get k (p_tasks p) ≫= _) as [t|] eqn:Et; [|apply IH].
      assert (task_delete t (add_fx l p) = add_fx (l ++ [FxSlideUp (t_box t) [t_box t]]) p) as ->.
      { unfold task_delete, add_fx, set_fx. cbn. by rewrite <- app_assoc. }
      rewrite IH. by rewrite <- app_assoc. }
  specialize (H []). assert (add_fx [] p = p) as E.
  { unfold add_fx. rewrite app_nil_r. by destruct p. }
  rewrite E in H. exact H.
Qed.

Lemma page_wf_frame p q :
  p_dom q = p_dom p → p_heap q = p_heap p → p_next_task q = p_next_task p →
  p_tasks q = p_tasks p → p_task_list q = p_task_list p → page_wf p → page_wf q.
Proof. intros E1 E2 E3 E4 E5 [W1 W2 W3 W4 W5 W6]. split; rewrite ?E1, ?E2, ?E3, ?E4, ?E5; done. Qed.

(** The object [set_tasks] builds from the answer. *)
Lemma new_tasks_spec tasks refs p :
  NoDup (map td_task_id tasks) →
  Forall2 (λ data ref, ∃ t, p_heap p !! ref = Some t ∧ t_id t = Some (td_task_id data)) tasks refs →
  let new := obj_assign (map (λ ref, (task_id_of p ref, ref)) refs) [] in
  NoDup (obj_keys new)
  ∧ (∀ k, k ∈ obj_keys new ↔ k ∈ map td_task_id tasks)
  ∧ Forall2 (λ data ref, obj_get (td_task_id data) new = Some ref) tasks refs
  ∧ NoDup refs
  ∧ (∀ k r, obj_get k new = Some r → ∃ t, p_heap p !! r = Some t ∧ t_id t = Some k).
Proof.
  intros Hnd F new.
  assert ((map (λ ref, (task_id_of p ref, ref)) refs).*1 = map td_task_id tasks) as E.
  { clear Hnd new. induction F as [|data ref ? ? (t & Ht & Hi) _ IH]; simpl; [done|].
    f_equal; [|done]. unfold task_id_of. by rewrite Ht, Hi. }
  assert (∀ data ref, (data, ref) ∈ zip tasks refs → (td_task_id data, ref) ∈
    map (λ ref, (task_id_of p ref, ref)) refs ∧ obj_get (td_task_id data) new = Some ref) as Hz.
  { intros data ref Hin. assert ((td_task_id data, ref) ∈
      map (λ ref, (task_id_of p ref, ref)) refs) as H.
    { clear -F Hin. induction F as [|x y ? ? (t & Ht & Hi) _ IH]; [by inversion Hin|].
      apply elem_of_cons in Hin as [[= -> ->]|Hin]; cbn [map]; apply elem_of_cons; [left|auto].
      unfold task_id_of. by rewrite Ht, Hi. }
    split; [done|]. apply obj_assign_get; [by rewrite E|done]. }
  assert (Forall2 (λ data ref, obj_get (td_task_id data) new = Some ref) tasks refs) as F2.
  { apply Forall2_same_length_lookup_2; [by eapply Forall2_length|].
    intros i x y H1 H2. apply Hz. apply list_elem_of_lookup. exists i.
    rewrite lookup_zip_with, H1. simpl. by rewrite H2. }
  split_and!.
  - by apply NoDup_obj_assign, NoDup_nil_2.
  - intros k. unfold new. rewrite obj_assign_keys, E. unfold obj_keys.
    split; [intros [H|]; [by inversion H|done]|by right].
  - done.
  - clear -Hnd F. induction F as [|data ref tasks refs (t & Ht & Hi) F IH]; [constructor|].
    apply NoDup_cons in Hnd as [Hn Hnd]. constructor; [|by apply IH].
    intros Hin. apply Hn. clear -F Hin Ht Hi.
    induction F as [|x y ? ? (t' & Ht' & Hi') _ IH]; [by inversion Hin|].
    apply elem_of_cons in Hin as [->|Hin]; cbn [map]; apply elem_of_cons; [left; congruence|auto].
  - intros k r Hk. assert (k ∈ map td_task_id tasks) as Hin.
    { assert (k ∈ obj_keys new) as H by (apply obj_get_keys; by eexists).
      unfold new in H. rewrite obj_assign_keys, E in H. destruct H as [H|]; [by inversion H|done]. }
    clearbody new. clear -F F2 Hk Hin. induction F as [|x y ? ? (t & Ht & Hi) _ IH]; [by inversion Hin|].
    apply Forall2_cons in F2 as [G F2]. apply elem_of_cons in Hin as [->|Hin]; [|auto].
    exists t. assert (r = y) as -> by congruence. done.
Qed.

(** The boxes of a list of objects without repetition. *)
Lemma boxes_NoDup p refs :
  page_wf p → NoDup refs → Forall (λ r, is_Some (p_heap p !! r)) refs →
  NoDup (map (box_at p) refs).
Proof.
  intros Hw Hnd Hf. apply NoDup_fmap_2_strong; [|done]. intros x y Hx Hy E.
  rewrite Forall_forall in Hf. destruct (Hf x Hx) as [t1 H1], (Hf y Hy) as [t2 H2].
  unfold box_at in E. rewrite H1, H2 in E. by eapply (pw_boxes _ Hw).
Qed.

Lemma slide_out_step p q k :
  page_wf p → task_step p q → slide_out q k = slide_out p k.
Proof.
  intros Hw S. unfold slide_out. rewrite (ts_tasks _ _ S).
  destruct (obj_get k (p_tasks p)) as [r|] eqn:E; [|done]. simpl.
  destruct (pw_tasks _ Hw _ _ E) as (t & Ht & _).
  destruct (ts_heap _ _ S _ _ Ht) as (t' & -> & (Hb & _) & _). rewrite Ht. by rewrite Hb.
Qed.

Lemma insert_tasks_fx refs p :
  ∃ ins, ins `sublist_of` map (box_at p) refs
    ∧ p_fx (insert_tasks refs p) = p_fx p ++ map FxFadeIn ins.
Proof.
  revert p. induction refs as [|r refs IH]; intros p.
  { exists []. split; [done|]. by rewrite app_nil_r. }
  unfold insert_tasks. cbn [foldl]. fold (insert_tasks refs).
  destruct (p_heap p !! r) as [t|] eqn:Ht.
  - destruct (IH (task_insert None t p)) as (ins & Hs & E).
    assert (map (box_at (task_insert None t p)) refs = map (box_at p) refs) as Em.
    { apply map_ext. intros x. unfold box_at, task_insert. by case_bool_decide. }
    assert (box_at p r = t_box t) as Eb by (unfold box_at; by rewrite Ht).
    rewrite Em in Hs. unfold insert_tasks in E. rewrite E.
    assert (p_fx (task_insert None t p) = p_fx p ∨
      p_fx (task_insert None t p) = p_fx p ++ [FxFadeIn (t_box t)]) as [F|F]
      by (unfold task_insert; case_bool_decide; auto); rewrite F.
    + exists ins. split; [by apply sublist_cons|done].
    + exists (t_box t :: ins). rewrite <- app_assoc. split; [|done]. cbn [map]. rewrite Eb.
      by apply sublist_skip.
  - destruct (IH p) as (ins & Hs & E). exists ins. split; [by apply sublist_cons|done].
Qed.

(** Everything an answer does to the list, the objects and the animations. *)
Lemma set_tasks_spec tasks p :
  page_wf p → NoDup (map td_task_id tasks) →
  let p' := set_tasks tasks p in
  page_wf p'
  ∧ (∀ k, k ∈ obj_keys (p_tasks p') ↔ k ∈ map td_task_id tasks)
  ∧ ∃ boxes,
      Forall2 (λ data b, ∃ r t, obj_get (td_task_id data) (p_tasks p') = Some r
                          ∧ p_heap p' !! r = Some t ∧ t_box t = b) tasks boxes
      ∧ NoDup boxes
      ∧ kids (p_dom p') (p_task_list p) =
          filter (outside boxes) (kids (p_dom p) (p_task_list p)) ++ map KElem boxes
      ∧ ∃ ins, ins `sublist_of` boxes
        ∧ p_fx p' = p_fx p
            ++ omap (slide_out p) (filter (λ k, k ∉ map td_task_id tasks) (for_in (p_tasks p)))
            ++ map FxFadeIn ins.
Proof.
  intros Hw Hnd. unfold set_tasks. destruct (get_tasks tasks p) as [refs q] eqn:Eg.
  destruct (get_tasks_spec _ _ _ _ Eg Hw Hnd) as (S & F).
  destruct (new_tasks_spec tasks refs q Hnd F) as (N1 & N2 & N3 & N4 & N5).
  set (new := obj_assign _ _) in *. rewrite drop_tasks_spec.
  set (fxs := omap _ _). set (q1 := set_tasks_by_id new (add_fx fxs q)).
  pose proof (ts_wf _ _ S) as Wq.
  assert (page_wf q1) as W1.
  { destruct Wq as [V1 V2 V3 V4 V5 V6]. by split. }
  assert (Forall (λ r, is_Some (p_heap q1 !! r)) refs) as Hf.
  { apply Forall_forall. intros r Hr. apply list_elem_of_lookup in Hr as [i Hi].
    destruct (Forall2_lookup_r _ _ _ _ _ F Hi) as (d & _ & t & Ht & _). by exists t. }
  destruct (insert_tasks_spec refs q1 W1 Hf) as (W2 & K & H1 & H2 & H3).
  destruct (insert_tasks_fx refs q1) as (ins & Hs & Hfx).
  revert W2 K H1 H2 H3 Hfx. generalize (insert_tasks refs q1). intros q2 W2 K H1 H2 H3 Hfx.
  pose proof (boxes_NoDup q1 refs W1 N4 Hf) as Hbn.
  rewrite move_to_end_NoDup in K by done. cbv zeta.
  split_and!.
  - by eapply (page_wf_frame q2).
  - intros k. cbn. rewrite H2. apply N2.
  - exists (map (box_at q1) refs). split_and!; [|done| |].
    + cbn. rewrite H1, H2.
      assert (p_tasks q1 = new ∧ p_heap q1 = p_heap q) as [T1 T2] by done. rewrite T1.
      clearbody q1 new. clear -N3 F T2. induction N3 as [|d r ? ? Hd N3 IH]; [constructor|].
      apply Forall2_cons in F as [(t & Ht & _) F]. constructor; [|by apply IH].
      exists r, t. unfold box_at. by rewrite T2, Ht.
    + cbn. cbn in K. destruct (ts_lists _ _ S) as [L _]. rewrite L, (ts_kids _ _ S) in K. done.
    + exists ins. split; [done|]. cbn. rewrite Hfx. cbn. rewrite (ts_fx _ _ S), <- app_assoc.
      f_equal. f_equal. unfold fxs. rewrite (ts_tasks _ _ S).
      rewrite (list_filter_iff (λ k, ¬ bool_decide (k ∈ obj_keys new)) (λ k, k ∉ map td_task_id tasks))
        by (intros k; rewrite bool_decide_spec; by rewrite N2).
      apply list_omap_ext, Forall_Forall2_diag, Forall_forall. intros k _.
      by apply slide_out_step.
Qed.
