(* ===== verification/PcapAlerts.v ===== *)
(** * The alerts of an answer

    [show_alert] builds a list item around a box with an icon and the message; the items of
    an answer appear below the ones already there, grouped by type in the order of
    [_ALERT_TYPES]. *)

From S2P Require Import Prelude JsString JsObject JqClasses Dom PcapTasks.

(** ** Symbolic evaluation of a sequence of changes

    [looks d nx f]: the element store of [d] is [f] and its next id is [nx]. *)
Definition looks (d : dom) (nx : nat) (f : nat → option elem) : Prop :=
  d_next d = nx ∧ ∀ x, d_elems d !! x = f x.

(** The store with the element [id] changed, and with a new one. *)
Definition fupd (id : nat) (g : elem → elem) (f : nat → option elem) (x : nat) : option elem :=
  if decide (id = x) then g <$> f x else f x.
Definition fnew (id : nat) (e : elem) (f : nat → option elem) (x : nat) : option elem :=
  if decide (id = x) then Some e else f x.

Lemma fupd_eq id g f : fupd id g f id = g <$> f id.
Proof. unfold fupd. by rewrite decide_True. Qed.
Lemma fupd_ne id g f x : id ≠ x → fupd id g f x = f x.
Proof. intros H. unfold fupd. by rewrite decide_False. Qed.
Lemma fnew_eq id e f : fnew id e f id = Some e.
Proof. unfold fnew. by rewrite decide_True. Qed.
Lemma fnew_ne id e f x : id ≠ x → fnew id e f x = f x.
Proof. intros H. unfold fnew. by rewrite decide_False. Qed.

Lemma looks_upd d nx f id g : looks d nx f → looks (upd id g d) nx (fupd id g f).
Proof.
  intros [<- H]. split; [done|]. intros x. unfold fupd. simpl. case_decide as E.
  - subst. by rewrite lookup_alter_eq, H.
  - by rewrite lookup_alter_ne.
Qed.

Lemma looks_create d nx f tag :
  looks d nx f →
  ∃ d', createElement tag d = (nx, d') ∧ looks d' (S nx) (fnew nx (Elem tag [] ∅ [] None true) f).
Proof.
  intros [<- H]. eexists. split; [reflexivity|]. split; [done|]. intros x. unfold fnew. simpl.
  case_decide as E; [subst; by rewrite lookup_insert_eq|by rewrite lookup_insert_ne].
Qed.

Lemma looks_append d nx f p id :
  looks d nx f → f id ≫= e_parent = None →
  looks (append_elem p id d) nx
    (fupd id (with_parent (Some p)) (fupd p (with_kids (λ ks, ks ++ [KElem id])) f)).
Proof.
  intros [Hn H] Hp. unfold append_elem, detach, parent. rewrite H, Hp.
  by apply looks_upd, looks_upd.
Qed.

(** Read an element of the store. *)
Ltac ids :=
  repeat first [rewrite fupd_eq | rewrite fnew_eq | rewrite fupd_ne by lia | rewrite fnew_ne by lia].

(** The element of a list item that shows an alert. *)
Definition alert_item (d : dom) (al li : nat) (atype message : jstring) : Prop :=
  ∃ e ediv eicon div icon,
    d_elems d !! li = Some e ∧ e_tag e = "li"%js ∧ e_kids e = [KElem div] ∧ e_parent e = Some al
    ∧ d_elems d !! div = Some ediv
    ∧ words (e_class ediv) = words ("navbar-alert-"%js ++ atype ++ " navbar-alert navbar-alert-highlight"%js)
    ∧ e_attrs ediv !! "title"%js = Some "Click to dismiss."%js
    ∧ e_kids ediv = [KElem icon; KText (" "%js ++ message)]
    ∧ d_elems d !! icon = Some eicon
    ∧ words (e_class eicon) = ["fa"%js; to_str (obj_get atype _ALERT_ICONS)]
    ∧ li < d_next d ∧ div < d_next d ∧ icon < d_next d ∧ li ≠ al ∧ div ≠ al ∧ icon ≠ al.

Lemma alert_item_frame d d' al li a m :
  (∀ x, x < d_next d → x ≠ al → d_elems d' !! x = d_elems d !! x) → d_next d ≤ d_next d' →
  alert_item d al li a m → alert_item d' al li a m.
Proof.
  intros H Hn (e & ediv & eicon & div & icon & ? & ? & ? & ? & ? & ? & ? & ? & ? & ? & ? & ? & ? & ? & ? & ?).
  exists e, ediv, eicon, div, icon. rewrite !H by done. split_and!; try done; lia.
Qed.

(** The changes [show_alert] makes to the document, for a known type of alert. *)
Definition alert_dom (message atype : jstring) (al : nat) (d : dom) : dom :=
  let '(li, d) := createElement "li"%js d in
  let '(div, d) := createElement "div"%js d in
  let d := hide li (append_elem li div d) in
  let d := add_class div ("navbar-alert-"%js ++ atype) d in
  let '(icon, d) := createElement "i"%js d in
  let d := append_elem div icon (add_class icon ("fa "%js ++ to_str (obj_get atype _ALERT_ICONS)) d) in
  let d := add_class div "navbar-alert navbar-alert-highlight"%js d in
  let d := set_attr div "title"%js "Click to dismiss."%js d in
  append_elem al li (append_text div (" "%js ++ message) d).

Lemma show_alert_page m a p :
  a ∈ _ALERT_TYPES →
  p_dom (show_alert m a p) = alert_dom m a (p_alert_list p) (p_dom p)
  ∧ p_alert_list (show_alert m a p) = p_alert_list p
  ∧ p_fx (show_alert m a p) = p_fx p ++ [FxFadeIn (d_next (p_dom p))]
  ∧ p_clicks (show_alert m a p) =
      p_clicks p ++ [(d_next (p_dom p), HClearAlerts (SelElems [d_next (p_dom p)]))].
Proof.
  intros Ha. unfold show_alert, alert_dom. rewrite (bool_decide_eq_true_2 _ Ha).
  split_and!; reflexivity.
Qed.

(** What [alert_dom] leaves in the store. *)
Lemma alert_dom_looks m a al d n f ea :
  looks d n f → f al = Some ea → al < n →
  ∃ f', looks (alert_dom m a al d) (3 + n) f'
  ∧ (∀ x, x < n → x ≠ al → f' x = f x)
  ∧ f' al = Some (with_kids (λ ks, ks ++ [KElem n]) ea)
  ∧ f' n = Some (Elem "li"%js [] ∅ [KElem (S n)] (Some al) false)
  ∧ f' (S n) = Some (Elem "div"%js
      (addClass "navbar-alert navbar-alert-highlight"%js (addClass ("navbar-alert-"%js ++ a) []))
      {["title"%js := "Click to dismiss."%js]}
      [KElem (S (S n)); KText (" "%js ++ m)] (Some n) true)
  ∧ f' (S (S n)) = Some (Elem "i"%js
      (addClass ("fa "%js ++ to_str (obj_get a _ALERT_ICONS)) []) ∅ [] (Some (S n)) true).
Proof.
  intros L Hea Hal. unfold alert_dom.
  destruct (looks_create _ _ _ "li"%js L) as (d1 & -> & L1).
  destruct (looks_create _ _ _ "div"%js L1) as (d2 & -> & L2).
  eapply (looks_append _ _ _ n (S n)) in L2; [|by ids].
  eapply (looks_upd _ _ _ n (with_shown false)) in L2.
  eapply (looks_upd _ _ _ (S n)) in L2. cbv zeta.
  destruct (looks_create _ _ _ "i"%js L2) as (d3 & E & L3).
  unfold hide, add_class. rewrite E.
  eapply (looks_upd _ _ _ (S (S n))
    (with_class (addClass ("fa "%js ++ to_str (obj_get a _ALERT_ICONS))))), (looks_append _ _ _ (S n) (S (S n))) in L3; [|by ids].
  eapply (looks_upd _ _ _ (S n) (with_class (addClass "navbar-alert navbar-alert-highlight"%js))),
    (looks_upd _ _ _ (S n) (with_attrs (<["title"%js := "Click to dismiss."%js]>))),
    (looks_upd _ _ _ (S n) (with_kids (λ ks, ks ++ [KText (" "%js ++ m)]))) in L3.
  eapply (looks_append _ _ _ al n) in L3; [|by ids].
  eexists. split; [exact L3|]. clear L L1 L2 L3 E.
  split_and!; intros; ids; try done. by rewrite Hea.
Qed.

Lemma alert_dom_spec m a al d :
  a ∈ _ALERT_TYPES → dom_wf d → is_Some (d_elems d !! al) →
  let n := d_next d in let d' := alert_dom m a al d in
  d_next d' = 3 + n
  ∧ (∀ x, x < n → x ≠ al → d_elems d' !! x = d_elems d !! x)
  ∧ is_Some (d_elems d' !! al) ∧ kids d' al = kids d al ++ [KElem n]
  ∧ alert_item d' al n a m.
Proof.
  intros Ha Hd [ea Hea]. cbv zeta.
  assert (al < d_next d) as Hal.
  { destruct (decide (al < d_next d)); [done|]. rewrite (wf_fresh _ Hd) in Hea by lia. done. }
  destruct (alert_dom_looks m a al d (d_next d) (d_elems d !!.) ea)
    as (f' & [Hn Hf] & Fo & Fa & F0 & F1 & F2); [done..|].
  rewrite <- Hf in Fa, F0, F1, F2. split_and!.
  - done.
  - intros x ? ?. by rewrite Hf, Fo.
  - by rewrite Fa.
  - unfold kids. by rewrite Fa, Hea.
  - do 5 eexists. split_and!; [exact F0|reflexivity|reflexivity|reflexivity|exact F1| | |reflexivity|exact F2| |lia..].
    + unfold e_class. unfold _ALERT_TYPES in Ha. rewrite !elem_of_cons in Ha.
      destruct Ha as [->|[->|[->|[->|Ha]]]]; [reflexivity..|inversion Ha].
    + unfold e_attrs. by rewrite lookup_singleton_eq.
    + unfold _ALERT_TYPES in Ha. rewrite !elem_of_cons in Ha.
      destruct Ha as [->|[->|[->|[->|Ha]]]]; [reflexivity..|inversion Ha].
Qed.

Lemma alert_dom_wf m a al d :
  dom_wf d → is_Some (d_elems d !! al) → dom_wf (alert_dom m a al d).
Proof.
  intros Hd Hal. unfold alert_dom.
  assert (al ≠ d_next d) as Hne. { intros ->. rewrite (wf_fresh _ Hd) in Hal by done. by destruct Hal. }
  destruct (createElement "li"%js d) as [li d1] eqn:E1.
  destruct (createElement_wf _ _ _ _ Hd E1) as (W1 & _ & _ & _ & S1 & O1 & N1 & ->).
  destruct (createElement "div"%js d1) as [div d2] eqn:E2.
  destruct (createElement_wf _ _ _ _ W1 E2) as (W2 & _ & _ & _ & S2 & O2 & N2 & ->).
  destruct (append_elem_spec d2 (d_next d) (d_next d1)) as (W3 & _ & _ & X3);
    [done|lia|by rewrite O2 by lia|done|].
  cbv zeta. assert (d_next (append_elem (d_next d) (d_next d1) d2) = d_next d2) as N3
    by (unfold append_elem; by rewrite !next_upd, next_detach).
  revert W3 X3 N3. generalize (append_elem (d_next d) (d_next d1) d2). intros d3 W3 X3 N3.
  match goal with |- context [createElement "i"%js ?x] => assert (dom_wf x ∧
    d_next x = d_next d2 ∧ ∀ y, is_Some (d_elems x !! y) ↔ is_Some (d_elems d2 !! y)) as (W4 & N4 & X4);
    [|revert W4 N4 X4; generalize x; intros d4 W4 N4 X4] end.
  { split_and!.
    - unfold hide, add_class. by repeat apply dom_wf_local.
    - done.
    - intros y. unfold hide, add_class. by rewrite !elems_upd. }
  destruct (createElement "i"%js d4) as [icon d5] eqn:E5.
  destruct (createElement_wf _ _ _ _ W4 E5) as (W5 & _ & _ & _ & S5 & O5 & N5 & ->).
  match goal with |- context [append_elem (d_next d1) _ ?x] =>
    destruct (append_elem_spec x (d_next d1) (d_next d4)) as (W6 & _ & _ & X6);
    [by apply dom_wf_local|lia| | |] end.
  { unfold add_class. rewrite elems_upd, O5 by lia. by apply X4. }
  { unfold add_class. by rewrite elems_upd. }
  match goal with |- dom_wf (append_elem _ _ ?x) =>
    destruct (append_elem_spec x al (d_next d)) as (W7 & _); [| | | |done] end.
  - apply append_text_spec. unfold set_attr, add_class. do 2 (apply dom_wf_local; [done|]). exact W6.
  - done.
  - unfold append_text, set_attr, add_class. rewrite !elems_upd. apply X6.
    unfold add_class. rewrite elems_upd. destruct (decide (al = d_next d4)) as [->|]; [done|].
    rewrite O5 by done. apply X4. destruct (decide (al = d_next d1)) as [->|]; [done|].
    rewrite O2 by done. by rewrite O1.
  - unfold append_text, set_attr, add_class. rewrite !elems_upd. apply X6.
    unfold add_class. rewrite elems_upd, O5 by lia. apply X4. by rewrite O2 by lia.
Qed.

(** ** The alerts of an answer *)

(** The types and messages of an answer in the order they are shown. *)
Definition alerts_of (results : jsobj alert_value) : list (jstring * jstring) :=
  flat_map (λ atype, match obj_get atype results with
                     | None => []
                     | Some v => map (pair atype) (alert_messages v)
                     end) _ALERT_TYPES.

Definition show_all (l : list (jstring * jstring)) (p : page) : page :=
  foldl (λ p am, show_alert am.2 am.1 p) p l.

Lemma show_all_app l1 l2 p : show_all (l1 ++ l2) p = show_all l2 (show_all l1 p).
Proof. apply foldl_app. Qed.

Lemma result_alerts_all results p :
  result_alerts results p = task_check false (show_all (alerts_of results) p).
Proof.
  unfold result_alerts, alerts_of. f_equal. revert p. generalize _ALERT_TYPES as ts.
  induction ts as [|a ts IH]; intros p; [done|]. cbn [foldl flat_map]. rewrite show_all_app, <- IH.
  f_equal. destruct (obj_get a results) as [v|]; [|done]. generalize (alert_messages v) as ms.
  intros ms. clear. revert p. induction ms as [|m ms IH]; intros p; [done|]. cbn [foldl map].
  rewrite IH. done.
Qed.

Lemma alerts_of_types results : Forall (λ am, am.1 ∈ _ALERT_TYPES) (alerts_of results).
Proof.
  unfold alerts_of. apply Forall_forall. intros [a m] H.
  rewrite list_elem_of_In, in_flat_map in H. destruct H as (t & Ht & H). apply list_elem_of_In in Ht.
  destruct (obj_get t results); [|done]. apply list_elem_of_In, list_elem_of_fmap in H as (? & [= -> ->] & _).
  done.
Qed.

Lemma show_all_spec l p :
  Forall (λ am, am.1 ∈ _ALERT_TYPES) l → dom_wf (p_dom p) →
  is_Some (d_elems (p_dom p) !! p_alert_list p) →
  let p' := show_all l p in let al := p_alert_list p in
  dom_wf (p_dom p') ∧ p_alert_list p' = al ∧ d_next (p_dom p) ≤ d_next (p_dom p')
  ∧ (∀ x, x < d_next (p_dom p) → x ≠ al → d_elems (p_dom p') !! x = d_elems (p_dom p) !! x)
  ∧ ∃ lis,
      kids (p_dom p') al = kids (p_dom p) al ++ map KElem lis
      ∧ Forall2 (λ am li, alert_item (p_dom p') al li am.1 am.2) l lis
      ∧ p_fx p' = p_fx p ++ map FxFadeIn lis
      ∧ p_clicks p' = p_clicks p ++ map (λ li, (li, HClearAlerts (SelElems [li]))) lis.
Proof.
  revert p. induction l as [|[a m] l IH]; intros p Hf Hd Hal; cbv zeta.
  { split_and!; try done. exists []. rewrite !app_nil_r. by split_and!. }
  apply Forall_cons in Hf as [Ha Hf]. cbn [fst] in Ha. cbn [show_all foldl fst snd].
  destruct (show_alert_page m a p Ha) as (E1 & E2 & E3 & E4).
  destruct (alert_dom_spec m a _ _ Ha Hd Hal) as (N & O & S & K & I).
  pose proof (alert_dom_wf m a _ _ Hd Hal) as W. rewrite <- E1 in *.
  revert E1 E2 E3 E4 N O S K I W. generalize (show_alert m a p). intros q E1 E2 E3 E4 N O S K I W.
  destruct (IH q Hf W) as (W' & L' & N' & O' & lis & K' & F' & X' & C'); [by rewrite E2|].
  fold (show_all l q). rewrite E2 in *. split_and!; try done; [lia| |].
  { intros x ? ?. rewrite O' by lia. by apply O. }
  exists (d_next (p_dom p) :: lis). cbn [map]. split_and!.
  - by rewrite K', K, <- app_assoc.
  - constructor; [|done]. cbn [fst snd]. by eapply alert_item_frame.
  - by rewrite X', E3, <- app_assoc.
  - by rewrite C', E4, <- app_assoc.
Qed.
