(* ===== verification/PcapTheorems.v ===== *)
(** * Correctness of the page scripts

    The theorems about [pcapdb.js]: what an answer of the task API does to the task list,
    how the polling behaves in every run, what an answer's alerts look like and how the
    classes of a task change with its status. *)

From S2P Require Import Prelude JsString JsObject JqClasses Dom PcapTasks PcapTasksFacts PcapAlerts.

(** C1: an answer of the task API with distinct task ids leaves a well-formed page whose
    task list holds the boxes of the answer's tasks, in the answer's order, after whatever
    else the list held; [_TASKS_BY_ID] holds exactly the answer's ids and maps each id to the
    object that owns the box; the boxes of the tasks that left the answer are faded out, each
    once and in enumeration order, and only boxes of the answer are faded in. *)
Theorem set_tasks_correct tasks p :
  page_wf p → NoDup (map td_task_id tasks) →
  let p' := set_tasks tasks p in
  page_wf p'
  ∧ (∀ k, k ∈ obj_keys (p_tasks p') ↔ k ∈ map td_task_id tasks)
  ∧ ∃ boxes,
      Forall2 (λ data b, ∃ r t, obj_get (td_task_id data) (p_tasks p') = Some r
                          ∧ p_heap p' !! r = Some t ∧ t_box t = b) tasks boxes
      ∧ NoDup boxes
      ∧ kids (p_dom p') (p_task_list p) =
          filter (outside boxes) (kids (p_dom p) (p_task_list p)) ++ map KElem boxes
      ∧ ∃ ins, ins `sublist_of` boxes
        ∧ p_fx p' = p_fx p
            ++ omap (slide_out p) (filter (λ k, k ∉ map td_task_id tasks) (for_in (p_tasks p)))
            ++ map FxFadeIn ins.
Proof. apply set_tasks_spec. Qed.

(** A page with an empty alert list (element 0) and task list (element 1). *)
Definition blank_elem (tag : jstring) : elem := Elem tag [] ∅ [] None true.
Definition demo_dom : dom :=
  Dom (<[0 := blank_elem "ul"%js]> (<[1 := blank_elem "ul"%js]>
        (<[2 := blank_elem "a"%js]> (<[3 := blank_elem "a"%js]> ∅)))) 4.
Definition demo_page : page := initial_page demo_dom 0 1 2 3 "tok"%js "/tasks"%js.

Lemma demo_dom_empty x : kids demo_dom x = [] ∧ parent demo_dom x = None.
Proof.
  unfold kids, parent, demo_dom. cbn [d_elems].
  do 4 (rewrite lookup_insert; case_decide; [done|]). by rewrite lookup_empty.
Qed.

Lemma demo_dom_wf : dom_wf demo_dom.
Proof.
  split.
  - intros p c. destruct (demo_dom_empty p) as [-> _], (demo_dom_empty c) as [_ ->].
    split; [by intros ?%elem_of_nil|done].
  - intros p. destruct (demo_dom_empty p) as [-> _]. constructor.
  - intros id H. unfold demo_dom in *. cbn [d_elems d_next] in *.
    do 4 (rewrite lookup_insert_ne by lia). apply lookup_empty.
Qed.

Lemma demo_page_wf : page_wf demo_page.
Proof.
  split; try done; first [apply demo_dom_wf|constructor].
Qed.

Definition demo_tasks : list task_data :=
  [TaskData "b"%js "t0"%js "first"%js None ["STARTED"%js; "10%"%js];
   TaskData "a"%js "t1"%js "second"%js None ["SUCCESS"%js]].

Lemma set_tasks_correct_witness :
  NoDup (map td_task_id demo_tasks)
  ∧ kids (p_dom (set_tasks demo_tasks demo_page)) 1 = [KElem 4; KElem 9]
  ∧ page_wf (set_tasks demo_tasks demo_page).
Proof.
  assert (NoDup (map td_task_id demo_tasks)) as H 
    by (apply (bool_decide_eq_true_1 _); vm_compute; reflexivity).
  split; [exact H|]. split; [vm_compute; reflexivity|].
  exact (proj1 (set_tasks_correct demo_tasks demo_page demo_page_wf H)).
Defined.

(** C38: in every run of the page the polling period, and the delay of every pending timer,
    stays between one and eight seconds. *)
Theorem poll_period_bounded d al tl header all csrf url p :
  rtc step (initial_page d al tl header all csrf url) p →
  (1000 ≤ p_period p ≤ 8000)%Z ∧ ∀ id delay, (id, delay) ∈ p_timers p → (1000 ≤ delay ≤ 8000)%Z.
Proof.
  intros H. assert (poll_bounds p) as [H1 H2].
  { eapply (rtc_ind_r (λ q, poll_bounds q)); [| |exact H].
    - split; [|constructor]. done.
    - intros q r _ Hs IH. by eapply poll_bounds_step. }
  split; [done|]. rewrite Forall_forall in H2. intros id delay Hin. exact (H2 _ Hin).
Qed.

Lemma poll_period_bounded_witness :
  (1000 ≤ p_period (task_check true demo_page) ≤ 8000)%Z.
Proof.
  exact (proj1 (poll_period_bounded demo_dom 0 1 2 3 "tok"%js "/tasks"%js (task_check true demo_page)
    (rtc_once _ _ (step_recheck demo_page)))).
Defined.

(** C17: the page keeps a single polling loop (one cancellable timer, or one request in
    flight) through every event but two, both while its request is in flight: a re-check, asked
    for or after the result of an action, makes a second request beside it, and the failure of the
    request leaves the page as it was, with nothing pending. *)
Theorem single_loop p q :
  polling p → step p q →
  polling q
  ∨ p_inflight p = 1
    ∧ ((q = task_check true p ∨ ∃ results, q = result_alerts results p) ∧ p_inflight q = 2
       ∨ q = set_requests 0 (p_sent p) p ∧ stalled q).
Proof.
  intros Hp Hs. inversion Hs; subst.
  - destruct Hp as [(Hi & i & dl & Ht & Hid)|(Hi & Ht)]; [|by rewrite Ht in H; inversion H].
    rewrite Ht in H. apply list_elem_of_singleton in H as [= -> ->].
    left. apply polling_check; [done|]. left. cbn. by rewrite Ht, filter_cons_False by naive_solver.
  - destruct Hp as [(Hi & _)|(Hi & Ht)]; [congruence|]. assert (n = 0) as -> by congruence.
    left. left. destruct (poll_set_tasks tasks (set_requests 0 (p_sent p) p)) as [r Hr].
    apply poll_fields in Hr as (_ & E1 & E2 & _ & E3). rewrite E1, E2, E3. cbn. rewrite Ht.
    split; [done|]. by do 2 eexists.
  - destruct Hp as [(Hi & _)|(Hi & Ht)]; [congruence|]. assert (n = 0) as -> by congruence.
    right. split; [done|]. by right.
  - destruct (poll_fields _ _ _ _ _ _ (poll_result_alerts results p)) as (_ & _ & _ & _ & E0).
    destruct (poll_fields _ _ _ _ _ _ (poll_task_check false p)) as (_ & _ & _ & _ & E).
    destruct Hp as [(Hi & ? & ? & ? & ?)|(Hi & Ht)].
    + left. rewrite (polling_eq _ (task_check false p) (poll_result_alerts results p)).
      apply polling_check; [done|]. right. by do 2 eexists.
    + right. split; [done|]. left. split; [right; by eexists|]. by rewrite E0, E, Hi.
  - destruct (poll_fields _ _ _ _ _ _ (poll_task_check true p)) as (_ & _ & _ & _ & E).
    destruct Hp as [(Hi & ? & ? & ? & ?)|(Hi & Ht)].
    + left. apply polling_check; [done|]. right. by do 2 eexists.
    + right. split; [done|]. left. split; [by left|]. by rewrite E, Hi.
  - left. by rewrite (polling_eq _ p (poll_handler h p)).
  - left. rewrite (polling_eq _ _ (poll_fx_done f _)). done.
Qed.

Lemma single_loop_witness :
  polling (task_check true demo_page)
  ∧ polling (set_tasks demo_tasks (set_requests 0 (p_sent (task_check true demo_page))
      (task_check true demo_page))).
Proof.
  assert (polling (task_check true demo_page)) as H by (by right).
  split; [exact H|].
  destruct (single_loop _ _ H (step_response (task_check true demo_page) 0 demo_tasks eq_refl))
    as [Hq|[_ [[_ Hq]|[_ Hq]]]]; [exact Hq| |].
  - vm_compute in Hq. discriminate.
  - destruct Hq as [_ Hq]. vm_compute in Hq. discriminate.
Defined.

(** Once a request has failed with nothing else pending, no timer, answer, click or
    animation starts the polling again: only the result of another action or an explicit
    re-check does. *)
Theorem stalled_until_user p q :
  stalled p → step p q →
  stalled q ∨ (∃ results, q = result_alerts results p) ∨ q = task_check true p.
Proof.
  intros [Hi Ht] Hs. inversion Hs; subst; try congruence.
  - rewrite Ht in H. inversion H.
  - right. left. by eexists.
  - by right; right.
  - left. by rewrite (stalled_eq _ p (poll_handler h p)).
  - left. by rewrite (stalled_eq _ _ (poll_fx_done f _)).
Qed.

Lemma stalled_until_user_witness :
  stalled demo_page
  ∧ (stalled (run_handler HClearTasks demo_page) ∨ (∃ results,
      run_handler HClearTasks demo_page = result_alerts results demo_page)
     ∨ run_handler HClearTasks demo_page = task_check true demo_page).
Proof.
  assert (stalled demo_page) as H by done. split; [exact H|].
  apply (stalled_until_user demo_page); [exact H|]. apply (step_click _ 3). by right; left.
Defined.

(** The events after which two loops run: a re-check during a request, then both answers. *)
Definition both_answers (t1 t2 : list task_data) (p : page) : page :=
  let p := task_check true p in
  let p := set_tasks t1 (set_requests (pred (p_inflight p)) (p_sent p) p) in
  set_tasks t2 (set_requests (pred (p_inflight p)) (p_sent p) p).

(** A re-check while a request is in flight forks the polling: after the two answers two
    timers are pending, and later re-checks cancel only the newer one. *)
Theorem recheck_forks_polling t1 t2 p :
  p_inflight p = 1 → p_timers p = [] →
  let q := both_answers t1 t2 p in
  p_inflight q = 0
  ∧ (∃ d1 d2, p_timers q = [(p_next_timer p, d1); (S (p_next_timer p), d2)])
  ∧ (∃ d1, p_timers (task_check true q) = [(p_next_timer p, d1)]).
Proof.
  intros Hi Ht. unfold both_answers. cbv zeta.
  destruct (poll_fields _ _ _ _ _ _ (poll_task_check true p)) as (_ & T & M & N & I).
  rewrite Hi in I. rewrite Ht in M.
  assert (p_timers (task_check true p) = []) as M' by (rewrite M; by destruct (p_timeout_id p)).
  revert T M' N I. generalize (task_check true p). intros r T M' N I. rewrite I. cbn [pred].
  destruct (poll_set_tasks t1 (set_requests 1 (p_sent r) r)) as [r1 H1].
  apply poll_fields in H1 as (_ & T1 & M1 & N1 & I1). cbn in M1, N1, I1. rewrite M', N in M1.
  revert T1 M1 N1 I1. generalize (set_tasks t1 (set_requests 1 (p_sent r) r)).
  intros s T1 M1 N1 I1. rewrite I1. cbn [pred].
  destruct (poll_set_tasks t2 (set_requests 0 (p_sent s) s)) as [r2 H2].
  apply poll_fields in H2 as (_ & T2 & M2 & N2 & I2). cbn in T2, M2, I2. rewrite M1, N1, N in M2.
  rewrite N1, N in T2. split_and!.
  - exact I2.
  - do 2 eexists. exact M2.
  - eexists. destruct (poll_fields _ _ _ _ _ _ (poll_task_check true
      (set_tasks t2 (set_requests 0 (p_sent s) s)))) as (_ & _ & E & _).
    rewrite E, T2, M2. cbn [app]. rewrite filter_cons_True by (cbn; lia).
    rewrite filter_cons_False by (cbn; lia). reflexivity.
Qed.

Lemma recheck_forks_polling_witness :
  let p := task_check true demo_page in
  p_inflight p = 1 ∧ p_timers p = []
  ∧ ∃ d1, p_timers (task_check true (both_answers demo_tasks [] p)) = [(0, d1)].
Proof.
  split; [reflexivity|]. split; [reflexivity|].
  exact (proj2 (proj2 (recheck_forks_polling demo_tasks [] (task_check true demo_page) eq_refl eq_refl))).
Defined.

(** with no running task the period doubles at each answer up to its maximum. *)
Theorem idle_backoff n :
  Nat.iter n (next_period false) _TASK_CHECK_PERIOD_MIN = Z.min 8000 (1000 * 2 ^ Z.of_nat n).
Proof.
  induction n as [|n IH]; [reflexivity|]. rewrite Nat.iter_succ, IH.
  replace (2 ^ Z.of_nat (S n))%Z with (2 * 2 ^ Z.of_nat n)%Z
    by (rewrite <- Z.pow_succ_r by lia; f_equal; lia).
  pose proof (Z.pow_pos_nonneg 2 (Z.of_nat n)).
  unfold next_period, _TASK_CHECK_PERIOD_MAX, _TASK_CHECK_PERIOD_MULT.
  match goal with |- context [(?a >? ?b)%Z] => destruct (Z.gtb_spec a b) end; lia.
Qed.

(** ** Finished tasks *)

Lemma get_task_frozen data p r t :
  page_wf p → p_heap p !! r = Some t → finished (t_status t) = true →
  p_heap (get_task data p).2 !! r = Some t.
Proof.
  intros Hw Hr Hf. destruct (get_task data p) as [ref q] eqn:E. cbn [snd].
  destruct (get_task_spec _ _ _ _ E Hw) as (S & (t' & Ht' & _) & Ho).
  destruct (decide (r = ref)) as [->|Hne]; [|by rewrite Ho].
  unfold get_task in E. destruct (obj_get (td_task_id data) (p_tasks p)) as [r'|] eqn:Eg.
  - destruct (p_heap p !! r') as [t0|] eqn:E0.
    + destruct (finished (t_status t0)) eqn:F0; [by injection E as -> <-|].
      destruct (task_update data t0 p). injection E as -> <-. congruence.
    + by injection E as -> <-.
  - exfalso. destruct (Task_new_spec _ _ _ _ E (pw_dom _ Hw) (pw_tl _ Hw)) as (? & ? & -> & _).
    destruct (pw_heap _ Hw _ _ Hr) as (_ & ? & _). lia.
Qed.

Lemma get_tasks_frozen tasks p r t :
  page_wf p → p_heap p !! r = Some t → finished (t_status t) = true →
  p_heap (get_tasks tasks p).2 !! r = Some t.
Proof.
  intros Hw Hr Hf. revert p Hw Hr. induction tasks as [|data rest IH]; intros p Hw Hr; [done|].
  cbn [get_tasks]. pose proof (get_task_frozen data p r t Hw Hr Hf) as H.
  destruct (get_task data p) as [ref q] eqn:E. cbn [snd] in H.
  destruct (get_task_spec _ _ _ _ E Hw) as (S & _). specialize (IH q (ts_wf _ _ S) H).
  by destruct (get_tasks rest q).
Qed.

Lemma set_tasks_heap tasks p : page_wf p → NoDup (map td_task_id tasks) →
  p_heap (set_tasks tasks p) = p_heap (get_tasks tasks p).2.
Proof.
  intros Hw Hnd. unfold set_tasks. destruct (get_tasks tasks p) as [refs q] eqn:Eg. cbn [snd].
  rewrite drop_tasks_spec. cbn [p_heap schedule_check set_period set_timers]. unfold insert_tasks.
  set (r := set_tasks_by_id _ _). change (p_heap q) with (p_heap r).
  generalize r as s. clear. induction refs as [|x refs IH]; intros s; [done|]. cbn [foldl].
  rewrite IH. destruct (p_heap s !! x) as [t|]; [|done]. unfold task_insert. by case_bool_decide.
Qed.

(** An answer never changes a task that has succeeded, failed or been retried: its object
    keeps every property, whatever the answer says about the task. *)
Theorem finished_tasks_frozen tasks p r t :
  page_wf p → NoDup (map td_task_id tasks) →
  p_heap p !! r = Some t → finished (t_status t) = true →
  p_heap (set_tasks tasks p) !! r = Some t.
Proof. intros Hw Hnd Hr Hf. rewrite set_tasks_heap by done. by apply get_tasks_frozen. Qed.

(** The answers after which "a" has finished, and a later answer that says it has started. *)
Definition late_tasks : list task_data :=
  [TaskData "a"%js "t1"%js "third"%js None ["STARTED"%js]].

Lemma finished_tasks_frozen_witness :
  status_of (set_tasks late_tasks (set_tasks demo_tasks demo_page)) 1 = Some "SUCCESS"%js.
Proof.
  assert (NoDup (map td_task_id demo_tasks)) as H
    by (apply (bool_decide_eq_true_1 _); vm_compute; reflexivity).
  assert (NoDup (map td_task_id late_tasks)) as H'
    by (apply (bool_decide_eq_true_1 _); vm_compute; reflexivity).
  pose proof (proj1 (set_tasks_spec demo_tasks demo_page demo_page_wf H)) as Hw.
  assert (∃ t, p_heap (set_tasks demo_tasks demo_page) !! 1 = Some t ∧ t_status t = Some "SUCCESS"%js)
    as (t & Ht & Hs) by (vm_compute; by eexists).
  unfold status_of. rewrite (finished_tasks_frozen late_tasks _ 1 t Hw H' Ht);
    [exact Hs|by rewrite Hs].
Defined.

(** ** The classes of a task *)

(** The names an element's class holds. *)
Definition class_names (d : dom) (id : nat) : list jstring := words (class_of d id).

Lemma class_of_upd id f d :
  is_Some (d_elems d !! id) → class_of (upd id (with_class f) d) id = f (class_of d id).
Proof. intros [e He]. unfold class_of. simpl. rewrite lookup_alter_eq. by rewrite He. Qed.

Lemma class_of_upd_ne id g d x : id ≠ x → class_of (upd id g d) x = class_of d x.
Proof. intros H. unfold class_of. simpl. by rewrite lookup_alter_ne. Qed.

(** The class of an element after a sequence of changes to two elements. *)
Ltac classes :=
  unfold class_names, restyle, add_class, remove_class; cbv zeta;
  repeat first [rewrite class_of_upd_ne by congruence
               | rewrite class_of_upd by (by rewrite ?elems_upd)].

(** The entry of a status in one of the tables. *)
Definition entry (table : jsobj jstring) (status : option jstring) : jstring :=
  to_str (obj_get (match obj_get (to_str status) _TASK_CLASS with
                   | Some _ => to_str status | None => "other"%js end) table).

(** Restyling a task removes from its box every class of [_TASK_CLASS_ALL] and adds the
    one of the new status; its icon loses the names of [_TASK_ICONS_ALL] and gets those of
    the new status; the other classes stay, in order. *)
Theorem restyle_names t status d :
  t_div t ≠ t_icon t → is_Some (d_elems d !! t_div t) → is_Some (d_elems d !! t_icon t) →
  class_text (class_of d (t_div t)) → class_text (class_of d (t_icon t)) →
  class_names (restyle t status d) (t_div t) =
    foldl add_name (filter (λ c, c ∉ words _TASK_CLASS_ALL) (class_names d (t_div t)))
      (words (entry _TASK_CLASS status))
  ∧ class_names (restyle t status d) (t_icon t) =
    foldl add_name (filter (λ c, c ∉ words _TASK_ICONS_ALL) (class_names d (t_icon t)))
      (words (entry _TASK_ICONS status)).
Proof.
  intros Hne Hd Hi Td Ti. classes.
  destruct (removeClass_names _TASK_CLASS_ALL _ Td) as [E1 T1].
  destruct (removeClass_names _TASK_ICONS_ALL _ Ti) as [E2 T2].
  split; [rewrite (proj1 (addClass_names _ _ T1)), E1|rewrite (proj1 (addClass_names _ _ T2)), E2];
    done.
Qed.

Lemma add_name_keeps c l cs : c ∈ l → c ∈ foldl add_name l cs.
Proof.
  revert l. induction cs as [|x cs IH]; intros l H; [done|]. apply IH. unfold add_name.
  case_bool_decide; [done|]. apply elem_of_app. by left.
Qed.

Lemma restyle_icon t status d :
  t_div t ≠ t_icon t → is_Some (d_elems d !! t_icon t) → class_text (class_of d (t_icon t)) →
  class_names (restyle t status d) (t_icon t) =
    foldl add_name (filter (λ c, c ∉ words _TASK_ICONS_ALL) (class_names d (t_icon t)))
      (words (entry _TASK_ICONS status)).
Proof.
  intros Hne Hi Ti. classes.
  destruct (removeClass_names _TASK_ICONS_ALL _ Ti) as [E2 T2].
  by rewrite (proj1 (addClass_names _ _ T2)), E2.
Qed.

(** the icon of a task that has shown a failure or a success keeps that icon's name when
    the task is restyled (the concatenated list of icons runs the two names together), while
    the names of the other icons are removed. *)
Theorem final_icons_stay t status d c :
  t_div t ≠ t_icon t → is_Some (d_elems d !! t_icon t) → class_text (class_of d (t_icon t)) →
  c ∈ class_names d (t_icon t) →
  (c = "fa-exclamation-triangle"%js ∨ c = "fa-check-circle"%js →
    c ∈ class_names (restyle t status d) (t_icon t))
  ∧ (c ∈ words _TASK_ICONS_ALL → c ∉ words (entry _TASK_ICONS status) →
    c ∉ class_names (restyle t status d) (t_icon t)).
Proof.
  intros Hne Hi Ti Hc. rewrite restyle_icon by done. split.
  - intros Hcc. apply add_name_keeps, list_elem_of_filter. split; [|done].
    intros Hin. revert Hin. change (words _TASK_ICONS_ALL) with
      ["fa-circle-o-notch"%js; "fa-spin"%js; "fa-cog"%js; "fa-refresh"%js;
       "fa-exclamation-trianglefa-check-circle"%js].
    rewrite !elem_of_cons, elem_of_nil. destruct Hcc as [->| ->]; intuition discriminate.
  - intros Hall Hnew. assert (∀ l cs, c ∉ l → c ∉ cs → c ∉ foldl add_name l cs) as H.
    { clear. intros l cs. revert l. induction cs as [|x cs IH]; intros l Hl Hcs; [done|].
      apply not_elem_of_cons in Hcs as [? ?]. apply IH; [|done]. unfold add_name.
      case_bool_decide; [done|]. rewrite not_elem_of_app, list_elem_of_singleton. naive_solver. }
    apply H; [|done]. rewrite list_elem_of_filter. tauto.
Qed.

(** The task 1 of [demo_tasks] when it has succeeded: its icon is element 6. *)
Definition demo_task : task :=
  Task 4 5 6 7 8 (Some "a"%js) None [] None None None None None None.
Definition icon_dom : dom :=
  Dom {[5 := blank_elem "div"%js; 6 := Elem "i"%js "fa fa-check-circle"%js ∅ [] None true]} 9.

Lemma final_icons_stay_witness :
  "fa-check-circle"%js ∈ class_names (restyle demo_task (Some "PENDING"%js) icon_dom) 6.
Proof.
  apply (final_icons_stay demo_task (Some "PENDING"%js) icon_dom "fa-check-circle"%js).
  - done.
  - by eexists.
  - apply class_text_b_ok. reflexivity.
  - vm_compute. right. left.
  - right. reflexivity.
Defined.

Lemma restyle_names_witness :
  class_names (restyle demo_task (Some "SUCCESS"%js) icon_dom) 5 = ["navbar-alert-success"%js].
Proof.
  assert (class_text (class_of icon_dom 5)) as H5 by (apply class_text_b_ok; reflexivity).
  assert (class_text (class_of icon_dom 6)) as H6 by (apply class_text_b_ok; reflexivity).
  etransitivity; [|vm_compute; reflexivity].
  exact (proj1 (restyle_names demo_task (Some "SUCCESS"%js) icon_dom ltac:(done)
    ltac:(by eexists) ltac:(by eexists) H5 H6)).
Defined.

(** ** Alerts *)

(** An answer's alerts are appended to the alert list as one item per message, grouped
    by type in the order success, info, warning, danger and in the answer's order within a
    type; each item shows the icon and classes of its type and the message, each is faded in
    and dismisses itself on a click, and the items already listed are left as they are. *)
Theorem result_alerts_correct results p :
  dom_wf (p_dom p) → is_Some (d_elems (p_dom p) !! p_alert_list p) →
  let p' := result_alerts results p in let al := p_alert_list p in
  dom_wf (p_dom p')
  ∧ (∀ x, x < d_next (p_dom p) → x ≠ al → d_elems (p_dom p') !! x = d_elems (p_dom p) !! x)
  ∧ ∃ lis,
      kids (p_dom p') al = kids (p_dom p) al ++ map KElem lis
      ∧ Forall2 (λ am li, alert_item (p_dom p') al li am.1 am.2) (alerts_of results) lis
      ∧ p_fx p' = p_fx p ++ map FxFadeIn lis
      ∧ p_clicks p' = p_clicks p ++ map (λ li, (li, HClearAlerts (SelElems [li]))) lis.
Proof.
  intros Hd Hal. cbv zeta. rewrite result_alerts_all.
  destruct (show_all_spec _ p (alerts_of_types results) Hd Hal)
    as (W & _ & _ & O & lis & K & F & X & C).
  assert (∀ q, p_dom (task_check false q) = p_dom q ∧ p_fx (task_check false q) = p_fx q
    ∧ p_clicks (task_check false q) = p_clicks q) as E
    by (intros q; unfold task_check; by destruct (p_timeout_id q)).
  destruct (E (show_all (alerts_of results) p)) as (-> & -> & ->).
  split_and!; try done. by exists lis.
Qed.

Definition demo_results : jsobj alert_value :=
  [("danger"%js, AlertOne "no"%js); ("success"%js, AlertMany ["yes"%js; "done"%js])].

Lemma result_alerts_correct_witness :
  alerts_of demo_results =
    [("success"%js, "yes"%js); ("success"%js, "done"%js); ("danger"%js, "no"%js)]
  ∧ kids (p_dom (result_alerts demo_results demo_page)) 0 = [KElem 4; KElem 7; KElem 10]
  ∧ dom_wf (p_dom (result_alerts demo_results demo_page)).
Proof.
  split; [vm_compute; reflexivity|]. split; [vm_compute; reflexivity|].
  exact (proj1 (result_alerts_correct demo_results demo_page demo_dom_wf ltac:(by eexists))).
Defined.

(** ** Clearing every task *)

Lemma clear_data_join p :
  clear_tasks_data p =
    join "&task="%js (("csrfmiddlewaretoken="%js ++ p_csrf p) :: for_in (p_tasks p)).
Proof.
  unfold clear_tasks_data. generalize ("csrfmiddlewaretoken="%js ++ p_csrf p) as acc.
  induction (for_in (p_tasks p)) as [|k ks IH]; intros acc; [done|]. cbn [foldl]. rewrite IH.
  change (join "&task="%js (acc :: k :: ks)) with (acc ++ "&task="%js ++ join "&task="%js (k :: ks)).
  destruct ks as [|k' ks]; [done|].
  change (join "&task="%js (k :: k' :: ks)) with (k ++ "&task="%js ++ join "&task="%js (k' :: ks)).
  change (join "&task="%js ((acc ++ "&task="%js ++ k) :: k' :: ks)) with
    ((acc ++ "&task="%js ++ k) ++ "&task="%js ++ join "&task="%js (k' :: ks)).
  by rewrite <- !app_assoc.
Qed.

(** [clear_tasks] sends one POST whose body, split at the task parameter, is the CSRF
    field followed by the id of every task of [_TASKS_BY_ID]; each of their boxes is faded out
    once, and the list itself changes only when the fading ends. *)
Theorem clear_tasks_correct p :
  page_wf p → 38%N ∉ p_csrf p → Forall (λ k, 38%N ∉ k) (obj_keys (p_tasks p)) →
  let p' := clear_tasks p in
  (∃ data, p_sent p' = p_sent p ++ [ReqPost (p_task_url p) data]
    ∧ split "&task="%js data = ("csrfmiddlewaretoken="%js ++ p_csrf p) :: for_in (p_tasks p))
  ∧ p_fx p' = p_fx p ++ omap (slide_out p) (for_in (p_tasks p))
  ∧ length (omap (slide_out p) (for_in (p_tasks p))) = length (obj_keys (p_tasks p))
  ∧ p_dom p' = p_dom p ∧ p_tasks p' = p_tasks p.
Proof.
  intros Hw Hc Hk. cbv zeta. unfold clear_tasks. rewrite drop_tasks_spec.
  assert (filter (λ k, ¬ (λ _ : jstring, false) k) (for_in (p_tasks p)) = for_in (p_tasks p)) as ->.
  { generalize (for_in (p_tasks p)). induction l as [|k l IH]; [done|].
    rewrite filter_cons_True, IH; [done|]. by intros ?. }
  split_and!; try done.
  - exists (clear_tasks_data p). split; [done|]. rewrite clear_data_join. apply split_join; [done|].
    constructor.
    + rewrite not_elem_of_app. split; [|done]. apply (bool_decide_eq_true_1 _). by vm_compute.
    + rewrite Forall_forall in *. intros k Hin. apply Hk. by rewrite <- elem_of_for_in.
  - rewrite <- (Permutation_length (for_in_perm (p_tasks p))).
    assert (Forall (λ k, k ∈ obj_keys (p_tasks p)) (for_in (p_tasks p))) as Hf
      by (apply Forall_forall; intros k; apply elem_of_for_in).
    induction Hf as [|k ks Hin Hf IH]; [done|]. cbn [omap list_omap].
    apply obj_get_keys in Hin as [r Hr]. destruct (pw_tasks _ Hw _ _ Hr) as (t & Ht & _).
    unfold slide_out at 1. rewrite Hr. cbn. rewrite Ht. cbn [length]. by rewrite IH.
Qed.

Lemma clear_tasks_correct_witness :
  let p := set_tasks demo_tasks demo_page in
  page_wf p ∧ ∃ data, p_sent (clear_tasks p) = [ReqPost "/tasks"%js data]
    ∧ split "&task="%js data = ["csrfmiddlewaretoken=tok"%js; "b"%js; "a"%js].
Proof.
  assert (NoDup (map td_task_id demo_tasks)) as H
    by (apply (bool_decide_eq_true_1 _); vm_compute; reflexivity).
  pose proof (proj1 (set_tasks_spec demo_tasks demo_page demo_page_wf H)) as Hw.
  split; [exact Hw|].
  refine (proj1 (clear_tasks_correct (set_tasks demo_tasks demo_page) Hw _ _)).
  - apply (bool_decide_eq_true_1 _). vm_compute. reflexivity.
  - change (obj_keys (p_tasks (set_tasks demo_tasks demo_page))) with ["b"%js; "a"%js].
    apply (bool_decide_eq_true_1 _). vm_compute. reflexivity.
Defined.

(** The class operations of jQuery, which search and cut a padded string, are the list
    operations on class names: adding appends the missing names, removing filters, toggling
    flips each name, and testing is membership.  Each keeps a class text well-formed. *)
Theorem class_ops_refine_names value className :
  class_text className →
  (words (addClass value className) = foldl add_name (words className) (words value)
    ∧ class_text (addClass value className))
  ∧ (words (removeClass (Some value) className) = filter (λ t, t ∉ words value) (words className)
    ∧ class_text (removeClass (Some value) className))
  ∧ (words (toggleClass value className) = foldl toggle_name (words className) (words value)
    ∧ class_text (toggleClass value className))
  ∧ (∀ c, token c → hasClass c className = bool_decide (c ∈ words className)).
Proof.
  intros H. split_and!; try apply addClass_names, H; try apply removeClass_names, H;
    try apply toggleClass_names, H. intros c Hc. by apply hasClass_names.
Qed.

Lemma class_ops_refine_names_witness :
  words (toggleClass "fa-minus-circle txt-color-red"%js "toggle-class fa-minus-circle"%js)
    = ["toggle-class"%js; "txt-color-red"%js].
Proof.
  assert (class_text "toggle-class fa-minus-circle"%js) as H by (apply class_text_b_ok; reflexivity).
  etransitivity; [|vm_compute; reflexivity].
  exact (proj1 (proj1 (proj2 (proj2 (class_ops_refine_names "fa-minus-circle txt-color-red"%js
    _ H))))).
Defined.
