(* ===== verification/FormFields.v ===== *)
(** * Form data (theme/js/jquery.form.js)

    The controls of a form, their values, the array of name/value items that is submitted and
    the operations that clear, enable and select controls. *)

From S2P Require Import Prelude JsString JsObject JsNumber JsValue Uri QueryString.

(** ** Controls *)

Record opt := Opt {
  o_text : jstring;
  o_value : jstring;                       (* the value property *)
  o_specified : option bool;               (* attributes.value.specified, when there is one *)
  o_selected : bool;
  o_disabled : bool
}.

Record file := File { f_name : jstring; f_body : nat }.

Record control := Control {
  c_id : nat;                              (* the identity of the element *)
  c_name : jstring;                        (* "" when it has none *)
  c_type : jstring;
  c_tag : jstring;                         (* tagName.toLowerCase() *)
  c_disabled : bool;
  c_checked : bool;
  c_required : bool;
  c_value : option jstring;                (* the value property, if the element has one *)
  c_index : Z;                             (* selectedIndex *)
  c_options : list opt;
  c_has_form : bool;                       (* el.form *)
  c_files : list file
}.

Record form := Form {
  fm_elements : list control;              (* form.elements *)
  fm_all : list control;                   (* form.getElementsByTagName('*') *)
  fm_id : jstring;                         (* the id attribute, "" when there is none *)
  fm_attached : list control;              (* the inputs of the page with form="<id>" *)
  fm_clk : option control;                 (* the element that submitted the form *)
  fm_clk_x : val;
  fm_clk_y : val
}.

Definition clk_is (clk : option control) (el : control) : bool :=
  match clk with Some c => Nat.eqb (c_id c) (c_id el) | None => false end.

(** [$(el).val()] of an element that is not a select. *)
Definition el_val (el : control) : jstring :=
  match c_value el with
  | Some s => filter (λ u, u ≠ 13%N) s
  | None => []
  end.

(** ** The value of a field *)

Inductive field_value := FNull | FOne (s : jstring) | FMany (l : list jstring).

Definition option_value (op : opt) : jstring :=
  if o_value op =s? [] then
    match o_specified op with Some false => o_text op | _ => o_value op end
  else o_value op.

Definition not_successful (clk : option control) (el : control) : bool :=
  let t := c_type el in
  (c_name el =s? []) || c_disabled el || (t =s? "reset"%js) || (t =s? "button"%js)
  || (((t =s? "checkbox"%js) || (t =s? "radio"%js)) && negb (c_checked el))
  || (((t =s? "submit"%js) || (t =s? "image"%js)) && c_has_form el && negb (clk_is clk el))
  || ((c_tag el =s? "select"%js) && (c_index el =? -1)%Z).

(** [$.fieldValue(el, successful)]; [clk] is the submitting element of the element's form. *)
Definition fieldValue (clk : option control) (el : control) (successful : bool) : field_value :=
  if successful && not_successful clk el then FNull
  else if c_tag el =s? "select"%js then
    if (c_index el <? 0)%Z then FNull
    else if c_type el =s? "select-one"%js then
      match c_options el !! Z.to_nat (c_index el) with
      | Some op => if o_selected op then FOne (option_value op) else FMany []
      | None => FMany []
      end
    else FMany (map option_value (filter o_selected (c_options el)))
  else FOne (el_val el).

(** [$(els).fieldValue(successful)] *)
Definition fieldValues (clk : option control) (els : list control) (successful : bool) : list jstring :=
  foldl (λ acc el,
    match fieldValue clk el successful with
    | FNull | FMany [] => acc
    | FMany v => acc ++ v
    | FOne v => acc ++ [v]
    end) [] els.

(** ** formToArray *)

Inductive item_value := IVal (v : val) | IFile (f : file).
Record item := Item {
  it_name : jstring;
  it_value : item_value;
  it_type : option jstring;
  it_required : option bool
}.

(** The coordinates of a click on an image input. *)
Definition coords (f : form) (n : jstring) : list item :=
  [Item (n ++ ".x"%js) (IVal (fm_clk_x f)) None None;
   Item (n ++ ".y"%js) (IVal (fm_clk_y f)) None None].

(** The elements the items are gathered from. *)
Definition form_els (semantic : bool) (f : form) : list control :=
  let els := if semantic then fm_all f else fm_elements f in
  if fm_id f =s? [] then els else els ++ fm_attached f.

(** The items one element contributes, and whether it is recorded in [elements]. *)
Definition element_items (fileapi semantic : bool) (f : form) (el : control) : list item * bool :=
  let n := c_name el in
  if (n =s? []) || c_disabled el then ([], false)
  else if semantic && bool_decide (is_Some (fm_clk f)) && (c_type el =s? "image"%js) then
    if clk_is (fm_clk f) el then
      (Item n (IVal (VStr (el_val el))) (Some (c_type el)) None :: coords f n, false)
    else ([], false)
  else
    match fieldValue (fm_clk f) el true with
    | FMany v => (map (λ s, Item n (IVal (VStr s)) None None) v, true)
    | v =>
        if fileapi && (c_type el =s? "file"%js) then
          (match c_files el with
           | [] => [Item n (IVal (VStr [])) (Some (c_type el)) None]
           | files => map (λ fl, Item n (IFile fl) (Some (c_type el)) None) files
           end, true)
        else match v with
             | FOne s => ([Item n (IVal (VStr s)) (Some (c_type el)) (Some (c_required el))], true)
             | _ => ([], false)
             end
    end.

(** The submitting image input, which [form.elements] does not hold. *)
Definition image_items (semantic : bool) (f : form) : list item :=
  match fm_clk f with
  | Some input =>
      if negb semantic && negb (c_name input =s? []) && negb (c_disabled input)
         && (c_type input =s? "image"%js)
      then Item (c_name input) (IVal (VStr (el_val input))) None None :: coords f (c_name input)
      else []
  | None => []
  end.

(** [formToArray(semantic, elements)]: the items and the recorded elements. *)
Definition formToArray (fileapi semantic : bool) (f : form) : list item * list control :=
  match form_els semantic f with
  | [] => ([], [])
  | els =>
      let '(a, elements) :=
        foldl (fun '(a, elements) el =>
          let '(items, recorded) := element_items fileapi semantic f el in
          (a ++ items, if recorded then elements ++ [el] else elements)) ([], []) els in
      (a ++ image_items semantic f, elements)
  end.

(** An item as [$.param] writes it. *)
Definition item_pair (it : item) : jstring * val :=
  (it_name it, match it_value it with IVal v => v | IFile _ => VStr "[object File]"%js end).

Definition formSerialize (fileapi semantic : bool) (f : form) : option jstring :=
  serialize (map item_pair (formToArray fileapi semantic f).1).

(** [$(els).fieldSerialize(successful)] *)
Definition fieldSerialize (clk : option control) (els : list control) (successful : bool) : option jstring :=
  serialize (foldl (λ a el,
    let n := c_name el in
    if n =s? [] then a
    else match fieldValue clk el successful with
         | FMany v => a ++ map (λ s, (n, VStr s)) v
         | FOne v => a ++ [(n, VStr v)]
         | FNull => a
         end) [] els).

(** ** Changing controls *)

Definition set_value (s : jstring) (c : control) : control :=
  Control (c_id c) (c_name c) (c_type c) (c_tag c) (c_disabled c) (c_checked c) (c_required c)
    (Some s) (c_index c) (c_options c) (c_has_form c) (c_files c).
Definition set_checked (b : bool) (c : control) : control :=
  Control (c_id c) (c_name c) (c_type c) (c_tag c) (c_disabled c) b (c_required c)
    (c_value c) (c_index c) (c_options c) (c_has_form c) (c_files c).
Definition set_disabled (b : bool) (c : control) : control :=
  Control (c_id c) (c_name c) (c_type c) (c_tag c) b (c_checked c) (c_required c)
    (c_value c) (c_index c) (c_options c) (c_has_form c) (c_files c).
Definition set_options (i : Z) (ops : list opt) (c : control) : control :=
  Control (c_id c) (c_name c) (c_type c) (c_tag c) (c_disabled c) (c_checked c) (c_required c)
    (c_value c) i ops (c_has_form c) (c_files c).
Definition opt_selected (b : bool) (o : opt) : opt :=
  Opt (o_text o) (o_value o) (o_specified o) b (o_disabled o).
(** [el.value = ''] of a file input: its files go too. *)
Definition clear_files (c : control) : control :=
  Control (c_id c) (c_name c) (c_type c) (c_tag c) (c_disabled c) (c_checked c) (c_required c)
    (Some []) (c_index c) (c_options c) (c_has_form c) [].

Definition lower_unit (u : N) : N := if ((65 <=? u) && (u <=? 90))%N then (u + 32)%N else u.
Definition lower (s : jstring) : jstring := map lower_unit s.

(** The types of the regular expression of [clearFields]. *)
Definition text_types : list jstring :=
  ["color"%js; "date"%js; "datetime"%js; "email"%js; "month"%js; "number"%js; "password"%js;
   "range"%js; "search"%js; "tel"%js; "text"%js; "time"%js; "url"%js; "week"%js].

(** The argument [includeHidden]: falsy, [true], or a selector (given by what it matches). *)
Inductive include_hidden := NoHidden | AllHidden | HiddenMatching (sel : control → bool).

Section clear.
(** [$(el).clone(true)] of a file input, for old versions of Internet Explorer. *)
Variable msie : bool.
Variable clone_file : control → control.

Definition clear_field (includeHidden : include_hidden) (c : control) : control :=
  let t := c_type c in let tag := c_tag c in
  if bool_decide (lower t ∈ text_types) || (tag =s? "textarea"%js) then set_value [] c
  else if (t =s? "checkbox"%js) || (t =s? "radio"%js) then set_checked false c
  else if tag =s? "select"%js then set_options (-1) (map (opt_selected false) (c_options c)) c
  else if t =s? "file"%js then if msie then clone_file c else clear_files c
  else match includeHidden with
       | NoHidden => c
       | AllHidden => if contains "hidden"%js t then set_value [] c else c
       | HiddenMatching sel => if sel c then set_value [] c else c
       end.

(** [clearFields(includeHidden)] *)
Definition clearFields (includeHidden : include_hidden) : list control → list control :=
  map (clear_field includeHidden).

(** [clearForm(includeHidden)]: the inputs, selects and text areas of the form. *)
Definition clearForm (includeHidden : include_hidden) (els : list control) : list control :=
  map (λ c, if bool_decide (c_tag c ∈ ["input"%js; "select"%js; "textarea"%js])
            then clear_field includeHidden c else c) els.
End clear.

(** [enable(b)]; the argument is [true] when it is left out. *)
Definition enable (b : option bool) : list control → list control :=
  map (set_disabled (negb (default true b))).

(** The index of the first selected option, -1 when there is none. *)
Fixpoint first_selected (ops : list opt) (i : Z) : Z :=
  match ops with
  | [] => -1
  | o :: rest => if o_selected o then i else first_selected rest (i + 1)
  end.
Definition first_enabled (ops : list opt) : option nat :=
  fst <$> list_find (λ o, o_disabled o = false) ops.

(** [option.selected = b] for option [i] of a select: in a [select-one], selecting an option
    deselects the others and deselecting the last one selects the first enabled option. *)
Definition set_selected (i : nat) (b : bool) (c : control) : control :=
  let ops :=
    if c_type c =s? "select-one"%js then
      if b then imap (λ j o, opt_selected (Nat.eqb j i) o) (c_options c)
      else
        let ops := alter (opt_selected false) i (c_options c) in
        if existsb o_selected ops then ops
        else match first_enabled ops with
             | Some j => alter (opt_selected true) j ops
             | None => ops
             end
    else alter (opt_selected b) i (c_options c) in
  set_options (first_selected ops 0) ops c.

(** [$(option).selected(select)] for option [i] of the select [c]. *)
Definition select_option (i : nat) (select : bool) (c : control) : control :=
  let c :=
    if select && (c_type c =s? "select-one"%js)
    then foldl (λ c j, set_selected j false c) c (seq 0 (length (c_options c)))
    else c in
  set_selected i select c.

(** [$(box).selected(select)] for a checkbox or radio button. *)
Definition select_box (select : bool) (c : control) : control :=
  if (c_type c =s? "checkbox"%js) || (c_type c =s? "radio"%js) then set_checked select c else c.
