(* ===== verification/FormSubmit.v ===== *)
(** * Submitting a form (theme/js/jquery.form.js, ajaxSubmit and ajaxForm)

    [ajaxSubmit] collects the form's data, lets the page veto or abort the submission, writes
    the query and hands the request to one of three transports.  The hooks of the page are
    state transformers on the options and the form; the outcome says how far it got. *)

From S2P Require Import Prelude JsString JsObject JsNumber JsValue Uri QueryString FormFields.

(** ** Options and surroundings *)

Record options := Options {
  so_type : option jstring;                (* options.type *)
  so_url : option jstring;                 (* options.url *)
  so_data : option val;                    (* options.data, when truthy *)
  so_traditional : option bool;
  so_semantic : bool;
  so_resetForm : bool;
  so_clearForm : bool;
  so_includeHidden : include_hidden;
  so_dataType : bool;                      (* options.dataType is set *)
  so_target : bool;                        (* options.target is set *)
  so_success : bool;                       (* options.success is set *)
  so_iframe : option bool;                 (* options.iframe, None when undefined *)
  so_keepAlive : option jstring            (* options.closeKeepAlive *)
}.

Definition with_request (ty url : option jstring) (o : options) : options :=
  Options ty url (so_data o) (so_traditional o) (so_semantic o) (so_resetForm o) (so_clearForm o)
    (so_includeHidden o) (so_dataType o) (so_target o) (so_success o) (so_iframe o) (so_keepAlive o).

(** What [ajaxSubmit] reads besides its argument. *)
Record surroundings := Surroundings {
  env_href : jstring;                      (* window.location.href *)
  env_type : jstring;                      (* $.ajaxSettings.type *)
  env_traditional : bool;                  (* $.ajaxSettings.traditional *)
  env_fileapi : bool;
  env_formdata : bool
}.

(** A property of an element with the attribute of its name: the property as the browser gives it (the
    resolved address for an action), [None] when it is not a text, as for a form with a control of that
    name; the attribute as it was written, [None] when there is none. *)
Record attribute := Attribute { a_prop : option jstring; a_attr : option jstring }.

(** [attr2] *)
Definition attr2 (a : attribute) : option jstring := match a_prop a with Some v => Some v | None => a_attr a end.

(** A form with the attributes a submission reads. *)
Record target_form := TargetForm {
  tf_form : form;
  tf_method : attribute;
  tf_action : attribute;
  tf_multipart : bool                      (* enctype or encoding is multipart/form-data *)
}.

(** The page's hooks; each returns whether the submission goes on. *)
Record hooks := Hooks {
  h_pre_serialize : options → target_form → options * target_form * bool;
  h_beforeSerialize : options → target_form → options * target_form * bool;
  h_beforeSubmit : list item → options → target_form → list item * options * target_form * bool;
  h_validate : list item → options → target_form → list item * options * target_form * bool
}.

(** What runs when the answer arrives. *)
Inductive on_success := CbReset | CbClear (ih : include_hidden) | CbLoadTarget | CbSuccess.

Inductive transport :=
  | ByIframe (after : option jstring)      (* after the GET of closeKeepAlive, if any *)
  | ByFormData (pairs : list (jstring * item_value))
  | ByAjax.

Inductive outcome :=
  | NoForm
  | VetoedPreSerialize
  | AbortedBeforeSerialize
  | AbortedBeforeSubmit
  | VetoedValidate
  | Threw                                  (* an exception of the language *)
  | Sent (via : transport) (type : jstring) (url : option jstring) (data : option jstring)
      (callbacks : list on_success).

(** ** The address *)

(** [(url.match(/^([^#]+)/) || [])[1]] *)
Fixpoint before_hash (s : jstring) : jstring :=
  match s with
  | [] => []
  | c :: t => if (c =? 35)%N then [] else c :: before_hash t
  end.
Definition clean_url (url : jstring) : option jstring :=
  match before_hash url with [] => None | u => Some u end.

Definition or_str (o : option jstring) (d : jstring) : jstring :=
  match o with Some [] | None => d | Some s => s end.

(** The options after [$.extend(true, {url: .., type: ..}, options)]. *)
Definition fill_options (env : surroundings) (tf : target_form) (o : options) : options :=
  let method := or_str (so_type o) (default [] (attr2 (tf_method tf))) in
  let action := match so_url o with Some [] | None => attr2 (tf_action tf) | u => u end in
  let url := match action with Some a => trim a | None => [] end in
  let url := match url with [] => env_href env | _ => url end in
  let url := match url with [] => Some [] | _ => clean_url url end in
  with_request
    (Some (match so_type o with Some t => t | None => or_str (Some method) (env_type env) end))
    (match so_url o with Some u => Some u | None => url end) o.

(** ** The query *)

Definition append_query (url q : jstring) : jstring :=
  url ++ (if contains "?"%js url then "&"%js else "?"%js) ++ q.

(** [qx = $.param(options.data, traditional)]; [Some None] when there is no extra data. *)
Definition extra_query (traditional : bool) (extra : option val) : option (option jstring) :=
  match extra with Some d => Some <$> param d traditional | None => Some None end.

(** [$.param(a)] and the serialized extra data, joined. *)
Definition build_query (a : list item) (qx : option jstring) : option jstring :=
  q ← serialize (map item_pair a);
  Some (match qx with
        | Some [] | None => q
        | Some x => match q with [] => x | _ => q ++ "&"%js ++ x end
        end).

Definition upper_unit (u : N) : N := if ((97 <=? u) && (u <=? 122))%N then (u - 32)%N else u.
Definition upper (s : jstring) : jstring := map upper_unit s.

Definition success_callbacks (o : options) : list on_success :=
  (if so_resetForm o then [CbReset] else [])
  ++ (if so_clearForm o then [CbClear (so_includeHidden o)] else [])
  ++ (if negb (so_dataType o) && so_target o then [CbLoadTarget]
      else if so_success o then [CbSuccess] else []).

(** The pairs [fileUploadXhr] appends to its FormData: the items, then the extra data as
    [deepSerialize] reads it back. *)
Definition upload_pairs (traditional : bool) (a : list item) (extra : option val) :
    option (list (jstring * item_value)) :=
  let items := map (λ it, (it_name it, it_value it)) a in
  match extra with
  | None => Some items
  | Some d =>
      ps ← deepSerialize d traditional;
      Some (items ++ map (λ kv, (kv.1, IVal (VStr kv.2))) ps)
  end.

Definition has_file_inputs (f : form) : bool :=
  existsb (λ c, (c_tag c =s? "input"%js) && (c_type c =s? "file"%js) && negb (c_disabled c)
                && negb (el_val c =s? [])) (fm_all f).

(** The choice of the transport. *)
Definition choose_transport (env : surroundings) (tf : target_form) (o : options) (a : list item)
    (extra : option val) (traditional : bool) : option transport :=
  let files := has_file_inputs (tf_form tf) in
  let fileAPI := env_fileapi env && env_formdata env in
  let shouldUseFrame := (files || tf_multipart tf) && negb fileAPI in
  let iframe := default false (so_iframe o) in
  if negb (bool_decide (so_iframe o = Some false)) && (iframe || shouldUseFrame)
  then Some (ByIframe (so_keepAlive o))
  else if (files || tf_multipart tf) && fileAPI then ByFormData <$> upload_pairs traditional a extra
  else Some ByAjax.

(** The type of a request by [fileUploadXhr]: [method || 'POST']. *)
Definition upload_type (o : options) (tf : target_form) (filled : jstring) (via : transport) : jstring :=
  match via with ByFormData _ => or_str (Some (or_str (so_type o) (default [] (attr2 (tf_method tf))))) "POST"%js
               | _ => filled end.

(** [$form.ajaxSubmit(options)]; [tf] is [None] when nothing is selected. *)
Definition ajaxSubmit (env : surroundings) (h : hooks) (o : options) (tf : option target_form) : outcome :=
  match tf with
  | None => NoForm
  | Some tf =>
      let o0 := o in let tf0 := tf in
      let o := fill_options env tf o in
      let '(o, tf, go) := h_pre_serialize h o tf in
      if negb go then VetoedPreSerialize else
      let '(o, tf, go) := h_beforeSerialize h o tf in
      if negb go then AbortedBeforeSerialize else
      let traditional := match so_traditional o with Some b => b | None => env_traditional env end in
      let '(a, elements) := formToArray (env_fileapi env) (so_semantic o) (tf_form tf) in
      let extra := so_data o in
      match extra_query traditional extra with None => Threw | Some qx =>
      let '(a, o, tf, go) := h_beforeSubmit h a o tf in
      if negb go then AbortedBeforeSubmit else
      let '(a, o, tf, go) := h_validate h a o tf in
      if negb go then VetoedValidate else
      match build_query a qx, so_type o with
      | Some q, Some type =>
          let sent :=
            if upper type =s? "GET"%js then
              url ← so_url o; Some (Some (append_query url q), None)
            else Some (so_url o, Some q) in
          match sent, choose_transport env tf o a extra (default (env_traditional env) (so_traditional o)) with
          | Some (url, data), Some via =>
              Sent via (upload_type o0 tf0 type via) url
                (match via with ByFormData _ => None | _ => data end) (success_callbacks o)
          | _, _ => Threw
          end
      | _, _ => Threw
      end
      end
  end.

(** ** The event handlers of ajaxForm *)

(** [doAjaxSubmit(e)]: nothing when another handler has prevented the submission; otherwise
    the default is prevented and the form goes through [ajaxSubmit]. *)
Definition doAjaxSubmit (env : surroundings) (h : hooks) (o : options) (prevented : bool)
    (tf : target_form) : bool * option outcome :=
  if prevented then (true, None) else (true, Some (ajaxSubmit env h o (Some tf))).

(** A click inside the form. *)
Record click := Click {
  ck_target : control;                     (* e.target *)
  ck_submit : option control;              (* $(target).closest('[type=submit]') *)
  ck_offset : option (val * val);          (* e.offsetX, e.offsetY when defined *)
  ck_page : val * val                      (* the position computed from pageX and pageY *)
}.

Definition set_clk (c : option control) (x y : val) (f : form) : form :=
  Form (fm_elements f) (fm_all f) (fm_id f) (fm_attached f) c x y.

(** [captureSubmittingElement(e)]: [true] when the timer that clears the capture is started. *)
Definition captureSubmittingElement (e : click) (f : form) : form * bool :=
  let target := ck_target e in
  let found :=
    if (c_type target =s? "submit"%js) || (c_type target =s? "image"%js) then Some target
    else ck_submit e in
  match found with
  | None => (f, false)
  | Some t =>
      let '(x, y) :=
        if c_type t =s? "image"%js then default (ck_page e) (ck_offset e)
        else (fm_clk_x f, fm_clk_y f) in
      (set_clk (Some t) x y f, true)
  end.

(** The timer of the capture, 100 ms later. *)
Definition clear_capture (f : form) : form := set_clk None VNull VNull f.
