(* ===== verification/FormTheorems.v ===== *)
(** * Correctness of the form plugin

    What a submission sends and that a server can read it back, which controls contribute,
    what clearing and selecting do. *)

From Stdlib Require Import ZifyBool.
From S2P Require Import Prelude JsString JsObject JsNumber JsValue Uri QueryString FormFields FormSubmit.

(** [decodeURIComponent] inverts [encodeURIComponent]; the encoding is defined exactly on
    the strings without a lone surrogate, and its result has only unreserved units and
    percent signs. *)
Theorem encode_roundtrip s :
  Forall unit16 s →
  (is_Some (encodeURIComponent s) ↔ well_formed s = true)
  ∧ ∀ e, encodeURIComponent s = Some e → decodeURIComponent e = Some s ∧ Forall uri_safe e.
Proof. intros H. split; [apply encode_defined|]. intros e He. by apply decode_encode. Qed.

(** Strings of 16-bit units, decided. *)
Lemma unit16_b s : forallb (λ u, u <? 65536)%N s = true → Forall unit16 s.
Proof.
  rewrite forallb_forall, Forall_forall. intros H u Hu. apply N.ltb_lt, H. by apply list_elem_of_In.
Qed.

Lemma encode_roundtrip_witness :
  encodeURIComponent [97; 38; 0xD83D; 0xDE00]%N = Some "a%26%F0%9F%98%80"%js
  ∧ decodeURIComponent "a%26%F0%9F%98%80"%js = Some [97; 38; 0xD83D; 0xDE00]%N.
Proof.
  assert (encodeURIComponent [97; 38; 0xD83D; 0xDE00]%N = Some "a%26%F0%9F%98%80"%js) as E
    by reflexivity.
  assert (Forall unit16 [97; 38; 0xD83D; 0xDE00]%N) as H by (apply unit16_b; reflexivity).
  split; [exact E|]. exact (proj1 (proj2 (encode_roundtrip _ H) _ E)).
Defined.

(** ** The query string *)

Lemma serialize_app l1 l2 s1 s2 :
  l1 ≠ [] → l2 ≠ [] → serialize l1 = Some s1 → serialize l2 = Some s2 →
  serialize (l1 ++ l2) = Some (s1 ++ "&"%js ++ s2).
Proof.
  unfold serialize. intros N1 N2 H1 H2.
  destruct (mapM add l1) as [e1|] eqn:E1; [|done]. destruct (mapM add l2) as [e2|] eqn:E2; [|done].
  injection H1 as <-. injection H2 as <-.
  assert (mapM add (l1 ++ l2) = Some (e1 ++ e2)) as ->.
  { apply mapM_Some. apply mapM_Some in E1, E2. by apply Forall2_app. }
  cbn. apply mapM_Some in E1, E2. f_equal. rewrite !r20_join by done. rewrite map_app.
  assert (map r20 e1 ≠ []) as M1 by (destruct E1; done).
  assert (map r20 e2 ≠ []) as M2 by (destruct E2; done).
  revert M1 M2. generalize (map r20 e1) as x, (map r20 e2) as y. clear. intros x y Hx Hy.
  induction x as [|a x IH]; [done|]. destruct x as [|b x].
  - destruct y; [done|]. done.
  - change (join "&"%js ((a :: b :: x) ++ y)) with (a ++ "&"%js ++ join "&"%js ((b :: x) ++ y)).
    rewrite IH by done. change (join "&"%js (a :: b :: x)) with (a ++ "&"%js ++ join "&"%js (b :: x)).
    by rewrite <- !app_assoc.
Qed.

Lemma serialize_nonempty l s : l ≠ [] → serialize l = Some s → s ≠ [].
Proof.
  unfold serialize. intros Hl H. destruct (mapM add l) as [es|] eqn:E; [|done]. injection H as <-.
  apply mapM_Some in E. destruct E as [|kv e l es He]; [done|]. clear Hl.
  unfold add in He. destruct (encodeURIComponent kv.1) as [k|]; [|done].
  destruct (encodeURIComponent (add_value kv.2)) as [v|]; [|done]. injection He as <-.
  rewrite r20_join by done. cbn [map]. rewrite (r20_cut 61%N) by done.
  destruct (map r20 es); simpl; destruct (r20 k); done.
Qed.

Lemma serialize_nil_inv l : serialize l = Some [] → l = [].
Proof. intros H. destruct l; [done|]. by destruct (serialize_nonempty (p :: l) [] ltac:(done) H eq_refl). Qed.

(** Hooks that agree and change nothing. *)
Definition idle_hooks : hooks :=
  Hooks (λ o tf, (o, tf, true)) (λ o tf, (o, tf, true)) (λ a o tf, (a, o, tf, true))
    (λ a o tf, (a, o, tf, true)).

(** The calls of [add] a submission makes. *)
Definition submitted (env : surroundings) (o : options) (tf : target_form) : list (jstring * val) :=
  map item_pair (formToArray (env_fileapi env) (so_semantic o) (tf_form tf)).1
  ++ match so_data o with
     | Some d => param_calls d (match so_traditional o with Some b => b | None => env_traditional env end)
     | None => []
     end.

Lemma build_query_submitted env o tf qx q :
  extra_query (match so_traditional o with Some b => b | None => env_traditional env end) (so_data o)
    = Some qx →
  build_query (formToArray (env_fileapi env) (so_semantic o) (tf_form tf)).1 qx = Some q →
  serialize (submitted env o tf) = Some q.
Proof.
  unfold extra_query, build_query, submitted. intros Hx Hq.
  set (items := map item_pair _) in *. set (tr := match so_traditional o with Some b => b | None => _ end) in *.
  destruct (serialize items) as [qi|] eqn:Ei; [|done]. cbn in Hq. injection Hq as <-.
  destruct (so_data o) as [d|]; [|injection Hx as <-; by rewrite app_nil_r].
  unfold param in Hx. destruct (serialize (param_calls d tr)) as [x|] eqn:Ex; [|done].
  injection Hx as <-. destruct x as [|c x].
  - apply serialize_nil_inv in Ex as ->. by rewrite app_nil_r.
  - destruct qi as [|c' qi]; [by apply serialize_nil_inv in Ei as ->|].
    apply serialize_app; try done.
    + intros E. rewrite E in Ei. done.
    + intros E. rewrite E in Ex. done.
Qed.

(** The form with which a submission is sent. *)
Lemma ajaxSubmit_idle env o tf :
  ajaxSubmit env idle_hooks o (Some tf) =
  let o' := fill_options env tf o in
  let traditional := match so_traditional o with Some b => b | None => env_traditional env end in
  let '(a, elements) := formToArray (env_fileapi env) (so_semantic o) (tf_form tf) in
  match extra_query traditional (so_data o) with
  | None => Threw
  | Some qx =>
      match build_query a qx, so_type o' with
      | Some q, Some type =>
          let sent :=
            if upper type =s? "GET"%js then
              url ← so_url o'; Some (Some (append_query url q), None)
            else Some (so_url o', Some q) in
          match sent, choose_transport env tf o' a (so_data o)
                        (default (env_traditional env) (so_traditional o)) with
          | Some (url, data), Some via =>
              Sent via (upload_type o tf type via) url
                (match via with ByFormData _ => None | _ => data end) (success_callbacks o')
          | _, _ => Threw
          end
      | _, _ => Threw
      end
  end.
Proof.
  unfold ajaxSubmit, idle_hooks. cbn [h_pre_serialize h_beforeSerialize h_beforeSubmit h_validate negb].
  reflexivity.
Qed.

(** C5: a submission sent by a plain request carries exactly the form's items followed by the
    extra data: splitting and decoding the body (or, for GET, the query appended to the
    address) gives the pairs back, in order, when there are any. *)
Theorem submission_roundtrip env o tf type url data cbs :
  ajaxSubmit env idle_hooks o (Some tf) = Sent ByAjax type url data cbs →
  submitted env o tf ≠ [] →
  Forall (λ kv, Forall unit16 kv.1 ∧ Forall unit16 (add_value kv.2)) (submitted env o tf) →
  ∃ q, deep_pairs q = Some (map (λ kv, (kv.1, add_value kv.2)) (submitted env o tf))
    ∧ (data = Some q ∧ url = so_url (fill_options env tf o)
       ∨ data = None ∧ ∃ u, so_url (fill_options env tf o) = Some u ∧ url = Some (append_query u q)).
Proof.
  rewrite ajaxSubmit_idle. intros H Hne Hu. cbv zeta in H.
  destruct (formToArray _ _ _) as [a els] eqn:Ea.
  destruct (extra_query _ _) as [qx|] eqn:Ex; [|done].
  destruct (build_query a qx) as [q|] eqn:Eq; [|done].
  assert (serialize (submitted env o tf) = Some q) as Hs.
  { eapply build_query_submitted; [exact Ex|]. by rewrite Ea. }
  exists q. split; [by apply deep_pairs_serialize|].
  destruct (so_type (fill_options env tf o)) as [ty|]; [|done].
  destruct (upper ty =s? "GET"%js).
  - destruct (so_url (fill_options env tf o)) as [u|]; [|done]. cbn [mbind option_bind] in H.
    destruct (choose_transport _ _ _ _ _ _) as [via|]; [|done]. injection H as -> _ <- <- _.
    right. split; [done|]. by exists u.
  - destruct (choose_transport _ _ _ _ _ _) as [via|]; [|done]. injection H as -> _ <- <- _.
    by left.
Qed.

(** ** A concrete form *)

Definition text_input (id : nat) (name value : jstring) : control :=
  Control id name "text"%js "input"%js false false false (Some value) 0 [] true [].
Definition check_input (id : nat) (name value : jstring) (checked : bool) : control :=
  Control id name "checkbox"%js "input"%js false checked false (Some value) 0 [] true [].
Definition select_input (id : nat) (name : jstring) (i : Z) (ops : list opt) : control :=
  Control id name "select-one"%js "select"%js false false false None i ops true [].
Definition plain_opt (v : jstring) (sel : bool) : opt := Opt v v (Some true) sel false.

Definition demo_form : form :=
  Form [text_input 1 "query"%js "a & b=c"%js; check_input 2 "all"%js "on"%js false;
        select_input 3 "type"%js 1 [plain_opt "x"%js false; plain_opt "x/y"%js true]]
    [] [] [] None VUndef VUndef.
Definition demo_target : target_form := 
  TargetForm demo_form (Attribute (Some "post"%js) (Some "post"%js)) (Attribute (Some "http://h/search#top"%js) (Some "/search#top"%js)) false.
Definition demo_env : surroundings := Surroundings "http://h/"%js "GET"%js false true true.
Definition demo_options : options :=
  Options None None (Some (VObj [("csrf"%js, VStr "t"%js)])) None false false false NoHidden
    false false true None None.

Lemma submission_roundtrip_witness :
  ∃ q, deep_pairs q = Some [("query"%js, "a & b=c"%js); ("type"%js, "x/y"%js); ("csrf"%js, "t"%js)]
    ∧ ajaxSubmit demo_env idle_hooks demo_options (Some demo_target)
      = Sent ByAjax "post"%js (Some "http://h/search"%js) (Some q) [CbSuccess].
Proof.
  set (q := match ajaxSubmit demo_env idle_hooks demo_options (Some demo_target) with
            | Sent _ _ _ (Some q) _ => q | _ => [] end).
  assert (ajaxSubmit demo_env idle_hooks demo_options (Some demo_target)
    = Sent ByAjax "post"%js (Some "http://h/search"%js) (Some q) [CbSuccess]) as E by (vm_compute; reflexivity).
  assert (submitted demo_env demo_options demo_target = [("query"%js, VStr "a & b=c"%js);
    ("type"%js, VStr "x/y"%js); ("csrf"%js, VStr "t"%js)]) as S by (vm_compute; reflexivity).
  destruct (submission_roundtrip _ _ _ _ _ _ _ E) as (q' & D & [[Hq _]|[Hq _]]).
  - rewrite S. discriminate.
  - rewrite S. repeat apply Forall_cons_2; try apply Forall_nil_2;
      (split; apply unit16_b; vm_compute; reflexivity).
  - exists q. rewrite S in D. injection Hq as <-. split; [exact D|exact E].
  - discriminate.
Defined.

(** ** Which controls contribute *)

(** What a browser guarantees of a control. *)
Record control_ok (c : control) : Prop := {
  co_select : c_tag c = "select"%js →
    (c_type c = "select-one"%js ∨ c_type c = "select-multiple"%js)
    ∧ c_index c = first_selected (c_options c) 0
    ∧ (c_type c = "select-one"%js → ∀ i o, c_options c !! i = Some o → o_selected o = true →
         Z.of_nat i = c_index c);
  co_options : Forall (λ o, o_value o = [] → o_specified o ≠ Some false) (c_options c);
  co_textarea : c_tag c = "textarea"%js → c_type c = "textarea"%js;
  co_form : c_has_form c = true
}.

(** The name/value pairs of a successful control. *)
Definition control_pairs (clk : option control) (c : control) : list (jstring * item_value) :=
  let n := c_name c in let t := c_type c in
  let own := (n, IVal (VStr (el_val c))) in
  if (n =s? []) || c_disabled c then []
  else if c_tag c =s? "select"%js then
    map (λ o, (n, IVal (VStr (o_value o)))) (filter o_selected (c_options c))
  else if (t =s? "reset"%js) || (t =s? "button"%js) then []
  else if (t =s? "submit"%js) || (t =s? "image"%js) then if clk_is clk c then [own] else []
  else if (t =s? "checkbox"%js) || (t =s? "radio"%js) then if c_checked c then [own] else []
  else if t =s? "file"%js then
    match c_files c with [] => [(n, IVal (VStr []))] | fs => map (λ f, (n, IFile f)) fs end
  else [own].

Definition pair_of (it : item) : jstring * item_value := (it_name it, it_value it).

Lemma first_selected_ge ops i :
  first_selected ops i = (-1)%Z ∨ (i ≤ first_selected ops i)%Z.
Proof.
  revert i. induction ops as [|o ops IH]; intros i; simpl; [by left|].
  destruct (o_selected o); [right; lia|]. destruct (IH (i + 1)%Z); [by left|right; lia].
Qed.

Lemma first_selected_none ops i : (0 ≤ i)%Z →
  first_selected ops i = (-1)%Z ↔ filter o_selected ops = [].
Proof.
  revert i. induction ops as [|o ops IH]; intros i Hi; simpl; [done|].
  destruct (o_selected o) eqn:E.
  - rewrite filter_cons_True by (by rewrite E). split; [lia|done].
  - rewrite filter_cons_False by (rewrite E; simpl; tauto). apply IH. lia.
Qed.

Lemma option_value_ok o : (o_value o = [] → o_specified o ≠ Some false) → option_value o = o_value o.
Proof.
  intros H. unfold option_value. destruct (o_value o =s? []) eqn:E; [|done]. bools.
  specialize (H E). destruct (o_specified o) as [[]|]; done.
Qed.

(** In a [select-one] with a selected option, that option is the one at [selectedIndex]. *)
Lemma single_selected ops k :
  first_selected ops 0 = Z.of_nat k →
  (∀ i o, ops !! i = Some o → o_selected o = true → Z.of_nat i = Z.of_nat k) →
  ∃ o, ops !! k = Some o ∧ o_selected o = true ∧ filter o_selected ops = [o].
Proof.
  assert (∀ i, first_selected ops i = (i + Z.of_nat k)%Z → (0 ≤ i)%Z →
    (∀ j o, ops !! j = Some o → o_selected o = true → Z.of_nat j = Z.of_nat k) →
    ∃ o, ops !! k = Some o ∧ o_selected o = true ∧ filter o_selected ops = [o]) as H;
    [|intros H1; apply (H 0%Z); lia].
  revert k. induction ops as [|o ops IH]; intros k i Hf Hi Hu; simpl in Hf; [lia|].
  destruct (o_selected o) eqn:E.
  - assert (k = 0) as -> by lia. exists o. split_and!; [done|done|].
    rewrite filter_cons_True by (by rewrite E). f_equal.
    destruct (filter o_selected ops) as [|o' l] eqn:F; [done|]. exfalso.
    assert (o' ∈ filter o_selected ops) as Hin by (rewrite F; by left).
    apply list_elem_of_filter in Hin as [Ho Hin]. apply list_elem_of_lookup in Hin as [j Hj].
    specialize (Hu (S j) o' Hj). rewrite Is_true_true in Ho. specialize (Hu Ho). lia.
  - destruct k as [|k].
    { destruct (first_selected_ge ops (i + 1)); lia. }
    destruct (IH k (i + 1)%Z) as (o' & H1 & H2 & H3); [lia|lia| |].
    { intros j o' Hj Ho. specialize (Hu (S j) o' Hj Ho). lia. }
    exists o'. split_and!; [done|done|]. by rewrite filter_cons_False by (rewrite E; simpl; tauto).
Qed.

Lemma select_items el clk :
  control_ok el → c_tag el = "select"%js → c_name el ≠ [] → c_disabled el = false →
  fieldValue clk el true =
    if (c_type el =s? "select-one"%js) then
      match filter o_selected (c_options el) with [o] => FOne (o_value o) | _ => FNull end
    else match filter o_selected (c_options el) with
         | [] => FNull | l => FMany (map o_value l) end.
Proof.
  intros [Hs Ho _ Hf] Ht Hn Hd. destruct (Hs Ht) as (Hty & Hi & Hu). unfold fieldValue, not_successful.
  rewrite Ht, Hd, (proj2 (jeqb_false _ _) Hn). cbn [orb andb].
  assert ((c_type el =s? "reset"%js) = false ∧ (c_type el =s? "button"%js) = false ∧
    (c_type el =s? "checkbox"%js) = false ∧ (c_type el =s? "radio"%js) = false ∧
    (c_type el =s? "submit"%js) = false ∧ (c_type el =s? "image"%js) = false)
    as (-> & -> & -> & -> & -> & ->) by (by destruct Hty as [->| ->]).
  change ("select"%js =s? "select"%js) with true. cbn [orb andb].
  destruct (Z.eqb_spec (c_index el) (-1)) as [E|E].
  { rewrite Hi in E. apply first_selected_none in E as ->; [|lia]. by destruct (c_type el =s? _). }
  assert (0 ≤ c_index el)%Z as Hge by (rewrite Hi in *; destruct (first_selected_ge (c_options el) 0); lia).
  replace (c_index el <? 0)%Z with false by lia.
  destruct (c_type el =s? "select-one"%js) eqn:Eone; bools.
  - destruct (single_selected (c_options el) (Z.to_nat (c_index el))) as (o & L & S & F).
    + rewrite <- Hi. lia.
    + intros i o' L S. rewrite (Hu Eone i o' L S). lia.
    + rewrite L, S, F. f_equal. apply option_value_ok. rewrite Forall_forall in Ho.
      apply Ho. by eapply list_elem_of_lookup_2.
  - assert (Forall (λ o, option_value o = o_value o) (filter o_selected (c_options el))) as Hv.
    { apply Forall_forall. intros o [_ Hin]%list_elem_of_filter. apply option_value_ok.
      rewrite Forall_forall in Ho. by apply Ho. }
    destruct (filter o_selected (c_options el)) as [|o l] eqn:F.
    + exfalso. apply E. rewrite Hi. apply first_selected_none; [lia|done].
    + f_equal. apply map_ext_in. intros x Hx. rewrite Forall_forall in Hv. apply Hv.
      by apply list_elem_of_In.
Qed.

Lemma element_pairs f el :
  control_ok el →
  map pair_of (element_items true false f el).1 = control_pairs (fm_clk f) el.
Proof.
  intros Hok. unfold element_items, control_pairs.
  destruct (c_name el =s? []) eqn:En; [done|]. destruct (c_disabled el) eqn:Ed; [done|].
  cbn [orb andb]. bools. destruct (c_tag el =s? "select"%js) eqn:Et; bools.
  - rewrite select_items by done.
    assert ((c_type el =s? "file"%js) = false) as ->.
    { destruct (co_select _ Hok Et) as ([->| ->] & _); done. }
    destruct (co_select _ Hok Et) as (_ & Hi & Hu).
    destruct (c_type el =s? "select-one"%js) eqn:Eone; bools.
    + destruct (first_selected_ge (c_options el) 0) as [E|E].
      { apply first_selected_none in E as ->; done. }
      destruct (single_selected (c_options el) (Z.to_nat (c_index el))) as (o & L & S & F).
      * rewrite <- Hi. lia.
      * intros i o' L S. rewrite (Hu Eone i o' L S). lia.
      * rewrite F. done.
    + destruct (filter o_selected (c_options el)) as [|o l]; [done|]. cbn [fst].
      rewrite !map_map. done.
  - unfold fieldValue, not_successful. rewrite (proj2 (jeqb_false _ _) En), Ed, (co_form _ Hok).
    rewrite (proj2 (jeqb_false _ _) Et). cbn [orb andb].
    destruct (c_type el =s? "reset"%js) eqn:E1; bools; [by rewrite E1|].
    destruct (c_type el =s? "button"%js) eqn:E2; bools; [by rewrite E2|]. cbn [orb].
    destruct ((c_type el =s? "submit"%js) || (c_type el =s? "image"%js)) eqn:E3.
    + assert ((c_type el =s? "checkbox"%js) = false ∧ (c_type el =s? "radio"%js) = false
        ∧ (c_type el =s? "file"%js) = false) as (-> & -> & ->).
      { apply orb_true_iff in E3 as [E3|E3]; apply jeqb_true in E3; by rewrite E3. }
      cbn [orb andb]. by destruct (clk_is (fm_clk f) el).
    + cbn [andb orb]. rewrite orb_false_r.
      destruct ((c_type el =s? "checkbox"%js) || (c_type el =s? "radio"%js)) eqn:E4.
      * assert ((c_type el =s? "file"%js) = false) as ->.
        { apply orb_true_iff in E4 as [E4|E4]; apply jeqb_true in E4; by rewrite E4. }
        by destruct (c_checked el).
      * cbn [andb]. destruct (c_type el =s? "file"%js); [|done]. cbn [fst].
        destruct (c_files el) as [|fl fs]; [done|]. cbn [orb fst]. rewrite map_map. done.
Qed.

Lemma gather_items fileapi semantic f els a e :
  (foldl (fun '(a, elements) el =>
      let '(items, recorded) := element_items fileapi semantic f el in
      (a ++ items, if recorded then elements ++ [el] else elements)) (a, e) els).1
  = a ++ flat_map (λ el, (element_items fileapi semantic f el).1) els.
Proof.
  revert a e. induction els as [|el els IH]; intros a e; [by rewrite app_nil_r|]. cbn [foldl flat_map].
  destruct (element_items fileapi semantic f el) as [items r]. rewrite IH. by rewrite app_assoc.
Qed.

Lemma formToArray_items fileapi semantic f :
  (formToArray fileapi semantic f).1 =
  match form_els semantic f with
  | [] => []
  | els => flat_map (λ el, (element_items fileapi semantic f el).1) els ++ image_items semantic f
  end.
Proof.
  unfold formToArray. destruct (form_els semantic f) as [|el els] eqn:E; [done|].
  destruct (foldl _ _ _) as [a e] eqn:Ef. cbn [fst]. f_equal.
  pose proof (gather_items fileapi semantic f (el :: els) [] []) as H. by rewrite Ef in H.
Qed.

(** C31: where the browser supports files, the submitted array is, in the order of the form's
    elements, the name/value pairs of the successful controls (the selected options of a
    select, a checked box, one pair per chosen file, the button that submitted), then the
    value and the coordinates of the image that submitted the form.  The elements are those of
    [form.elements] and, when the form has an id, every input of the page attached to that id
    once more. *)
Theorem formToArray_successful f :
  Forall control_ok (form_els false f) → form_els false f ≠ [] →
  map pair_of (formToArray true false f).1 =
    flat_map (control_pairs (fm_clk f))
      (fm_elements f ++ (if fm_id f =s? [] then [] else fm_attached f))
    ++ map pair_of (image_items false f).
Proof.
  intros Hok Hne. rewrite formToArray_items.
  assert (form_els false f = fm_elements f ++ (if fm_id f =s? [] then [] else fm_attached f)) as E.
  { unfold form_els. destruct (fm_id f =s? []); [by rewrite app_nil_r|done]. }
  rewrite <- E. destruct (form_els false f) as [|el els] eqn:Ee; [done|].
  rewrite map_app. f_equal. clear E Hne Ee. induction Hok as [|c l Hc _ IH]; [done|].
  cbn [flat_map]. rewrite map_app, IH. f_equal. by apply element_pairs.
Qed.

Lemma control_ok_plain c :
  c_tag c = "input"%js → c_options c = [] → c_has_form c = true → control_ok c.
Proof. intros H1 H2 H3. split; rewrite ?H1, ?H2; try done. Qed.

(** A form with an id: the input attached to it is among its elements and is sent twice. *)
Definition attached_form : form :=
  Form [text_input 1 "q"%js "x"%js] [] "f"%js [text_input 1 "q"%js "x"%js] None VUndef VUndef.

Lemma formToArray_successful_witness :
  map pair_of (formToArray true false attached_form).1
    = [("q"%js, IVal (VStr "x"%js)); ("q"%js, IVal (VStr "x"%js))].
Proof.
  refine (eq_trans (formToArray_successful attached_form _ _) _).
  - apply Forall_forall. intros c Hc. apply control_ok_plain;
      repeat (apply elem_of_cons in Hc as [->|Hc]; [done|]); by apply elem_of_nil in Hc.
  - discriminate.
  - reflexivity.
Defined.

(** ** Clearing and selecting *)

(** What a cleared control contributes. *)
Definition cleared_pairs (clk : option control) (c : control) : list (jstring * item_value) :=
  let t := c_type c in
  if (c_name c =s? []) || c_disabled c then []
  else if bool_decide (lower t ∈ text_types) || (c_tag c =s? "textarea"%js)
  then [(c_name c, IVal (VStr []))]
  else if (c_tag c =s? "select"%js) || (t =s? "checkbox"%js) || (t =s? "radio"%js) then []
  else if t =s? "file"%js then [(c_name c, IVal (VStr []))]
  else control_pairs clk c.

Lemma text_type_other t :
  lower t ∈ text_types →
  (t =s? "reset"%js) = false ∧ (t =s? "button"%js) = false ∧ (t =s? "submit"%js) = false
  ∧ (t =s? "image"%js) = false ∧ (t =s? "checkbox"%js) = false ∧ (t =s? "radio"%js) = false
  ∧ (t =s? "file"%js) = false.
Proof.
  intros H. assert (∀ x, lower x ∉ text_types → (t =s? x) = false) as E.
  { intros x Hx. apply jeqb_false. by intros ->. }
  split_and!; apply E; by apply (bool_decide_eq_true_1 _).
Qed.

(** clearing a control empties its text or files and takes it out of a select, a check box
    or a radio group; hidden inputs and buttons contribute what they did. *)
Theorem clear_field_pairs clone clk c :
  control_ok c →
  control_pairs clk (clear_field false clone NoHidden c) = cleared_pairs clk c.
Proof.
  intros Hok. unfold clear_field, cleared_pairs.
  destruct (bool_decide (lower (c_type c) ∈ text_types)) eqn:Et; cbn [orb]; bools.
  { destruct (text_type_other _ Et) as (E1 & E2 & E3 & E4 & E5 & E6 & E7).
    assert ((c_tag c =s? "select"%js) = false) as Es.
    { apply jeqb_false. intros Hs. destruct (co_select _ Hok Hs) as ([H|H] & _);
        rewrite H in Et; revert Et; by apply (bool_decide_eq_false_1 _). }
    unfold control_pairs. cbn [set_value c_name c_disabled c_tag c_type c_value].
    rewrite E1, E2, E3, E4, E5, E6, E7, Es. cbn [orb]. by destruct (c_name c =s? []), (c_disabled c). }
  destruct (c_tag c =s? "textarea"%js) eqn:Ea; bools.
  { pose proof (co_textarea _ Hok Ea) as Ety. unfold control_pairs.
    cbn [set_value c_name c_disabled c_tag c_type c_value]. rewrite Ea, Ety.
    by destruct (c_name c =s? []), (c_disabled c). }
  destruct ((c_type c =s? "checkbox"%js) || (c_type c =s? "radio"%js)) eqn:Eb.
  { assert (c_tag c ≠ "select"%js) as Es.
    { intros Hs. destruct (co_select _ Hok Hs) as ([H|H] & _); by rewrite H in Eb. }
    unfold control_pairs. cbn [set_checked c_name c_disabled c_tag c_type c_checked].
    rewrite Eb, (proj2 (jeqb_false _ _) Es), <- orb_assoc, Eb, orb_true_r.
    assert ((c_type c =s? "reset"%js) = false ∧ (c_type c =s? "button"%js) = false ∧
      (c_type c =s? "submit"%js) = false ∧ (c_type c =s? "image"%js) = false) as (-> & -> & -> & ->).
    { apply orb_true_iff in Eb as [E|E]; apply jeqb_true in E; by rewrite E. }
    by destruct (c_name c =s? []), (c_disabled c). }
  rewrite <- orb_assoc, Eb, orb_false_r. destruct (c_tag c =s? "select"%js) eqn:Es; bools.
  { unfold control_pairs. cbn [set_options c_name c_disabled c_tag c_type c_options]. rewrite Es.
    change ("select"%js =s? "select"%js) with true. cbv iota.
    assert (filter o_selected (map (opt_selected false) (c_options c)) = []) as ->.
    { induction (c_options c) as [|o l IH]; [done|]. cbn [map]. by rewrite filter_cons_False by (simpl; tauto). }
    by destruct (c_name c =s? []), (c_disabled c). }
  destruct (c_type c =s? "file"%js) eqn:Ef; bools.
  - unfold control_pairs. cbn [clear_files c_name c_disabled c_tag c_type c_files].
    rewrite Ef, (proj2 (jeqb_false _ _) Es). by destruct (c_name c =s? []), (c_disabled c).
  - unfold control_pairs. by destruct (c_name c =s? []), (c_disabled c).
Qed.

Lemma clear_field_pairs_witness :
  control_pairs None (clear_field false id NoHidden (text_input 1 "q"%js "x"%js))
    = [("q"%js, IVal (VStr []))].
Proof.
  refine (eq_trans (clear_field_pairs id None (text_input 1 "q"%js "x"%js) _) _).
  - apply control_ok_plain; reflexivity.
  - reflexivity.
Defined.

(** The same options but for what is selected. *)
Definition same_opt (o o' : opt) : Prop :=
  o_text o' = o_text o ∧ o_value o' = o_value o ∧ o_specified o' = o_specified o
  ∧ o_disabled o' = o_disabled o.

#[export] Instance same_opt_preorder : PreOrder same_opt.
Proof. split; [by intros ?|]. intros x y z (? & ? & ? & ?) (? & ? & ? & ?). by split_and!; congruence. Qed.

Lemma same_alter b i ops : Forall2 same_opt ops (alter (opt_selected b) i ops).
Proof.
  revert i. induction ops as [|o ops IH]; intros i; [constructor|].
  destruct i as [|i]; cbn; (constructor; [done|]); [done|apply IH].
Qed.

Lemma same_imap (f : nat → opt → opt) ops :
  (∀ i o, same_opt o (f i o)) → Forall2 same_opt ops (imap f ops).
Proof.
  revert f. induction ops as [|o ops IH]; intros f H; [constructor|]. rewrite imap_cons.
  constructor; [done|]. apply IH. intros i x. apply H.
Qed.

Lemma set_selected_same i b c :
  Forall2 same_opt (c_options c) (c_options (set_selected i b c)) ∧ c_type (set_selected i b c) = c_type c.
Proof.
  split; [|done]. unfold set_selected. cbn [set_options c_options].
  destruct (c_type c =s? "select-one"%js); [|apply same_alter]. destruct b; [by apply same_imap|].
  cbv zeta. destruct (existsb o_selected _); [apply same_alter|].
  destruct (first_enabled _) as [j|]; [|apply same_alter].
  etransitivity; apply same_alter.
Qed.

Lemma set_selected_fold js b c :
  let c' := foldl (λ c j, set_selected j b c) c js in
  Forall2 same_opt (c_options c) (c_options c') ∧ c_type c' = c_type c.
Proof.
  revert c. induction js as [|j js IH]; intros c; cbn [foldl].
  - split; [|done]. by apply Forall_Forall2_diag, Forall_true.
  - destruct (set_selected_same j b c) as [H1 H2]. destruct (IH (set_selected j b c)) as [H3 H4].
    split; [by etransitivity|congruence].
Qed.

Lemma first_selected_one ops i k :
  k < length ops → (∀ j o, ops !! j = Some o → o_selected o = Nat.eqb j k) →
  first_selected ops i = (i + Z.of_nat k)%Z.
Proof.
  revert i k. induction ops as [|o ops IH]; intros i k Hk Hs; simpl in *; [lia|].
  pose proof (Hs 0 o eq_refl) as H0. destruct k as [|k]; rewrite H0; simpl; [lia|].
  rewrite (IH (i + 1)%Z k); [lia|lia|]. intros j o' Hj. by apply (Hs (S j)).
Qed.

(** selecting an option of a single-choice select leaves exactly that option selected,
    with [selectedIndex] at it; the options are otherwise unchanged. *)
Theorem select_option_only i c :
  c_type c = "select-one"%js → i < length (c_options c) →
  let c' := select_option i true c in
  Forall2 same_opt (c_options c) (c_options c')
  ∧ (∀ j o, c_options c' !! j = Some o → o_selected o = Nat.eqb j i)
  ∧ c_index c' = Z.of_nat i.
Proof.
  intros Ht Hi. unfold select_option. rewrite Ht. change ("select-one"%js =s? "select-one"%js) with true.
  cbn [andb]. cbv zeta.
  destruct (set_selected_fold (seq 0 (length (c_options c))) false c) as [F T].
  revert F T. generalize (foldl (λ c j, set_selected j false c) c (seq 0 (length (c_options c)))).
  intros d F T. pose proof (set_selected_same i true d) as [F' _].
  assert (∀ j o, c_options (set_selected i true d) !! j = Some o → o_selected o = Nat.eqb j i) as Hs.
  { intros j o. unfold set_selected. rewrite T, Ht. cbn [set_options c_options].
    change ("select-one"%js =s? "select-one"%js) with true. cbv iota.
    rewrite list_lookup_imap. intros (x & _ & ->)%fmap_Some. done. }
  split_and!; [by etransitivity|done|].
  unfold set_selected at 1. cbn [set_options c_index].
  change (if c_type d =s? "select-one"%js then imap _ (c_options d) else _)
    with (c_options (set_selected i true d)).
  rewrite (first_selected_one _ 0 i); [lia| |done].
  rewrite <- (Forall2_length _ _ _ F'), <- (Forall2_length _ _ _ F). done.
Qed.

Lemma select_option_only_witness :
  c_index (select_option 1 true (select_input 3 "type"%js 0 [plain_opt "x"%js true; plain_opt "y"%js false])) = 1%Z.
Proof.
  apply (select_option_only 1 (select_input 3 "type"%js 0 [plain_opt "x"%js true; plain_opt "y"%js false]));
    [reflexivity|simpl; lia].
Defined.

(** ** Two slips of the plugin *)

(** a file upload with an empty object of extra data posts one pair nobody asked for: the
    empty name with the value "undefined". *)
Theorem empty_extra_pair a traditional :
  upload_pairs traditional a (Some (VObj [])) =
    Some (map (λ it, (it_name it, it_value it)) a ++ [([], IVal (VStr "undefined"%js))]).
Proof. reflexivity. Qed.

(** ** When a submission throws *)

(** The type of the request, and the address of the form. *)
Definition request_type (env : surroundings) (o : options) (tf : target_form) : jstring :=
  match so_type o, attr2 (tf_method tf) with
  | Some t, _ => t
  | None, Some ((_ :: _) as m) => m
  | None, _ => env_type env
  end.
Definition form_address (env : surroundings) (tf : target_form) : jstring :=
  match trim (default [] (attr2 (tf_action tf))) with [] => env_href env | u => u end.

Lemma filled_type env o tf : so_type (fill_options env tf o) = Some (request_type env o tf).
Proof. unfold fill_options, request_type. cbn. by destruct (so_type o) as [[|? ?]|], (attr2 (tf_method tf)) as [[|? ?]|]. Qed.

Lemma filled_url env o tf :
  so_url (fill_options env tf o) = None ↔ so_url o = None ∧ ∃ frag, form_address env tf = 35%N :: frag.
Proof.
  unfold fill_options, with_request, form_address. cbn [so_url]. cbv zeta. destruct (so_url o) as [u|]; [split; [discriminate|by intros [? _]]|]. assert (∀ a : option jstring, match a with Some a => trim a | None => [] end = trim (default [] a)) as -> by by intros [].
  assert (∀ url, match url with [] => Some [] | _ => clean_url url end = None ↔ ∃ frag, url = 35%N :: frag) as Hclean.
  { intros [|c url]; [split; [done|by intros []]|]. unfold clean_url. cbn [before_hash].
    destruct (N.eqb_spec c 35) as [->|Hc]; [split; by eauto|]. split; [done|]. intros [frag E]. congruence. }
  destruct (trim _) as [|c u]; [pose proof (Hclean (env_href env)) as H|pose proof (Hclean (c :: u)) as H];
    (split; [intros E; split; [done|]; by apply H|intros [_ E]; by apply H]).
Qed.

Lemma transport_chosen env tf o a d tr qx :
  extra_query tr d = Some qx →
  (∀ v, d = Some v → Forall (λ kv, Forall unit16 kv.1 ∧ Forall unit16 (add_value kv.2)) (param_calls v tr)) →
  is_Some (choose_transport env tf o a d tr).
Proof.
  intros Hx Hu. unfold choose_transport. destruct (_ && _); [by eexists|]. destruct (_ && _); [|by eexists].
  unfold upload_pairs. destruct d as [v|]; [|by eexists]. unfold deepSerialize. unfold extra_query in Hx.
  destruct (param v tr) as [x|] eqn:Ex; [|done]. cbn [mbind option_bind].
  assert (is_Some (deep_pairs x)) as [ps ->]; [|by eexists].
  destruct (param_calls v tr) as [|kv l] eqn:Ec.
  - unfold param in Ex. rewrite Ec in Ex. injection Ex as <-. by eexists.
  - eexists. apply (deep_pairs_serialize (param_calls v tr)); [by rewrite Ec|by apply Hu|exact Ex].
Qed.

(** C40: a submission, of texts in 16-bit units and with hooks that agree, throws in exactly two cases: a name
    or a value that it sends has a lone surrogate; or it is a GET without an address, which is when the
    page gives none and that of the form, the page's own when it is empty, is only a fragment.  Otherwise it is
    sent. *)
Theorem submission_throws env o tf :
  Forall (λ kv, Forall unit16 kv.1 ∧ Forall unit16 (add_value kv.2)) (submitted env o tf) →
  let fails :=
    (∃ kv, kv ∈ submitted env o tf ∧ (well_formed kv.1 = false ∨ well_formed (add_value kv.2) = false))
    ∨ upper (request_type env o tf) = "GET"%js ∧ so_url o = None ∧ ∃ frag, form_address env tf = 35%N :: frag in
  (ajaxSubmit env idle_hooks o (Some tf) = Threw ↔ fails)
  ∧ (¬ fails → ∃ via type url data cbs, ajaxSubmit env idle_hooks o (Some tf) = Sent via type url data cbs).
Proof.
  intros Hu fails. set (tr := match so_traditional o with Some b => b | None => env_traditional env end).
  assert (fails ∧ ajaxSubmit env idle_hooks o (Some tf) = Threw
    ∨ ¬ fails ∧ ∃ via type url data cbs, ajaxSubmit env idle_hooks o (Some tf) = Sent via type url data cbs) as H.
  2: { split; [|tauto]. split; [|tauto]. intros E. destruct H as [[H _]|(_ & ? & ? & ? & ? & ? & H)]; [done|]. by rewrite E in H. }
  rewrite ajaxSubmit_idle. cbv zeta. fold tr.
  assert (default (env_traditional env) (so_traditional o) = tr) as -> by (unfold tr; by destruct (so_traditional o)).
  pose proof (build_query_submitted env o tf) as Hq. fold tr in Hq. unfold fails.
  destruct (serialize (submitted env o tf)) as [s|] eqn:Es.
  - assert (Forall (λ kv, well_formed kv.1 = true ∧ well_formed (add_value kv.2) = true) (submitted env o tf)) as Hwf
      by (apply serialize_defined; by eexists).
    assert (¬ ∃ kv, kv ∈ submitted env o tf ∧ (well_formed kv.1 = false ∨ well_formed (add_value kv.2) = false)) as Hno.
    { intros (kv & Hin & Hbad). rewrite Forall_forall in Hwf. destruct (Hwf kv Hin). intuition congruence. }
    unfold submitted in Hwf, Hu. fold tr in Hwf, Hu. apply Forall_app in Hwf as [Hwi Hwc], Hu as [_ Huc].
    apply serialize_defined in Hwi as [qi Hqi].
    assert (is_Some (extra_query tr (so_data o))) as [qx Hx].
    { unfold extra_query. destruct (so_data o) as [d|]; [|by eexists]. apply serialize_defined in Hwc as [x Hx].
      unfold param. rewrite Hx. by eexists. }
    destruct (formToArray _ _ _) as [a els] eqn:Ea. cbn [fst] in Hqi. rewrite Hx.
    unfold build_query. rewrite Hqi. cbn [mbind option_bind]. rewrite filled_type.
    destruct (transport_chosen env tf (fill_options env tf o) a (so_data o) tr qx Hx) as [via ->].
    { intros v Hv. by rewrite Hv in Huc. }
    pose proof (filled_url env o tf) as Hurl. destruct (upper (request_type env o tf) =s? "GET"%js) eqn:Et; bools.
    + destruct (so_url (fill_options env tf o)) as [u|].
      * right. split; [|by do 5 eexists]. intros [?|(_ & Hn)]; [done|]. by apply Hurl in Hn.
      * left. split; [|done]. right. split; [done|]. by apply Hurl.
    + right. split; [|by do 5 eexists]. intros [?|(? & _)]; done.
  - left. split.
    + left. destruct (Exists_dec (λ kv, well_formed kv.1 = false ∨ well_formed (add_value kv.2) = false) (submitted env o tf)) as [H|H];
        [by apply Exists_exists in H|]. exfalso. apply not_Exists_Forall in H; [|intros ?; apply _].
      assert (is_Some (serialize (submitted env o tf))) as [? Hs]; [|by rewrite Es in Hs]. apply serialize_defined.
      eapply Forall_impl; [exact H|]. cbn. intros kv Hn. apply Decidable.not_or in Hn as [H1 H2].
      by apply not_false_iff_true in H1, H2.
    + destruct (formToArray _ _ _) as [a els] eqn:Ea. cbn [fst] in Hq. destruct (extra_query tr (so_data o)) as [qx|]; [|done].
      destruct (build_query a qx) as [q|] eqn:Eq; [|done]. by specialize (Hq qx q eq_refl Eq).
Qed.

(** A form with a control named [action], whose action was written as a fragment: [attr2] falls back on
    the attribute. *)
Definition fragment_target : target_form :=
  TargetForm demo_form (Attribute (Some "get"%js) None) (Attribute None (Some "#top"%js)) false.

Lemma submission_throws_witness :
  ajaxSubmit demo_env idle_hooks demo_options (Some fragment_target) = Threw
  ∧ ∃ via type url data cbs, ajaxSubmit demo_env idle_hooks demo_options (Some demo_target) = Sent via type url data cbs.
Proof.
  assert (∀ tf, tf_form tf = demo_form → submitted demo_env demo_options tf = [("query"%js, VStr "a & b=c"%js);
    ("type"%js, VStr "x/y"%js); ("csrf"%js, VStr "t"%js)]) as S by (intros tf E; unfold submitted; rewrite E; vm_compute; reflexivity).
  assert (∀ tf, tf_form tf = demo_form →
    Forall (λ kv, Forall unit16 kv.1 ∧ Forall unit16 (add_value kv.2)) (submitted demo_env demo_options tf)) as U.
  { intros tf E. rewrite (S tf E). repeat apply Forall_cons_2; try apply Forall_nil_2;
      (split; apply unit16_b; vm_compute; reflexivity). }
  split.
  - apply (submission_throws demo_env demo_options fragment_target (U fragment_target eq_refl)). right.
    split; [vm_compute; reflexivity|]. split; [reflexivity|]. exists "top"%js. vm_compute. reflexivity.
  - apply (submission_throws demo_env demo_options demo_target (U demo_target eq_refl)).
    intros [(kv & Hin & Hbad)|[Hget _]]; [|vm_compute in Hget; discriminate]. rewrite (S demo_target eq_refl) in Hin.
    repeat (apply elem_of_cons in Hin as [->|Hin]; [vm_compute in Hbad; destruct Hbad; discriminate|]). by apply elem_of_nil in Hin.
Defined.


