(* ===== verification/FormUpload.v ===== *)
(** * Uploading through an iframe (theme/js/jquery.form.js, fileUploadIframe)

    Without the file API the form is submitted into a hidden iframe and the answer is read
    from the iframe's document.  The upload is a small machine driven by timers, load events,
    the page's aborts and the documents the browser shows; [ustep] is its event loop. *)

From S2P Require Import Prelude JsString JsObject JsNumber JsValue QueryString FormFields FormSubmit.

(** ** Settings and documents *)

Record settings := Settings {
  s_url : option jstring;
  s_timeout : bool;                        (* s.timeout is set *)
  s_global : bool;                         (* s.global *)
  s_success : bool; s_error : bool; s_complete : bool;   (* the callbacks that are set *)
  s_beforeSend : option bool;              (* the answer of s.beforeSend, when it is set *)
  s_dataType : option jstring;
  s_textarea : bool;
  s_dataFilter : option (jstring → option jstring → jstring);
  s_iframeSrc : jstring;
  s_iframeTarget : bool;
  s_forceSync : bool;
  s_skipEncoding : bool;                   (* s.skipEncodingOverride *)
  s_extraData : option (jsobj val);
  s_method : option jstring                (* the variable [method] of ajaxSubmit *)
}.

(** An element with the attributes that emulate a status. *)
Record node := Node { n_text : jstring; n_status : option jstring; n_statusText : option jstring }.

(** A response document. *)
Record document := Document {
  doc_href : jstring;
  doc_xml : bool;                          (* XMLDocument or $.isXMLDoc(doc) *)
  doc_xml_error : bool;                    (* its root is a parsererror *)
  doc_body : option node;                  (* doc.body, with its innerHTML *)
  doc_root : option node;                  (* doc.documentElement *)
  doc_textarea : option node;              (* the first textarea, with its value *)
  doc_pre : option jstring;                (* the text of the first pre *)
  doc_body_text : option jstring           (* the text of the first body *)
}.

(** ** The state of an upload *)

Inductive settled := Pending | Resolved | Rejected.
Inductive reason := CLIENT_TIMEOUT_ABORT | SERVER_ABORT | LoadEvent.
Inductive result := RSuccess | RError | RParserError.

Inductive uevent :=
  | EvAjaxStart | EvAjaxSend
  | EvSubmit (extra : list (jstring * jstring))
  | EvSuccess (data : option jstring)
  | EvError (status : jstring) (msg : option jstring)    (* None: a caught exception *)
  | EvComplete (status : jstring)
  | EvAjaxSuccess | EvAjaxError | EvAjaxComplete | EvAjaxStop.

Record upload := Upload {
  u_aborted : bool;
  u_processed : bool;                      (* callbackProcessed *)
  u_timedOut : bool;
  u_timeout : bool;                        (* the timer of s.timeout is pending *)
  u_submit : bool;                         (* the timer of doSubmit is pending *)
  u_checks : nat;                          (* pending timers of checkState *)
  u_requeued : nat;                        (* pending timers of cb *)
  u_listening : bool;                      (* the load listener is attached *)
  u_domCheck : Z;                          (* domCheckCount *)
  u_status : num; u_statusText : jstring;  (* of the mock xhr *)
  u_text : option jstring;                 (* xhr.responseText *)
  u_deferred : settled;
  u_active : Z;                            (* $.active *)
  u_cleanup : bool;                        (* the clean-up timer is pending *)
  u_trace : list uevent
}.

Definition emit (l : list uevent) (u : upload) : upload :=
  Upload (u_aborted u) (u_processed u) (u_timedOut u) (u_timeout u) (u_submit u) (u_checks u)
    (u_requeued u) (u_listening u) (u_domCheck u) (u_status u) (u_statusText u) (u_text u)
    (u_deferred u) (u_active u) (u_cleanup u) (u_trace u ++ l).
Definition set_aborted (u : upload) : upload :=
  Upload true (u_processed u) (u_timedOut u) (u_timeout u) (u_submit u) (u_checks u)
    (u_requeued u) (u_listening u) (u_domCheck u) (u_status u) (u_statusText u) (u_text u)
    (u_deferred u) (u_active u) (u_cleanup u) (u_trace u).
(** [resolve] and [reject]: only the first one counts. *)
Definition settle (d : settled) (u : upload) : upload :=
  Upload (u_aborted u) (u_processed u) (u_timedOut u) (u_timeout u) (u_submit u) (u_checks u)
    (u_requeued u) (u_listening u) (u_domCheck u) (u_status u) (u_statusText u) (u_text u)
    (match u_deferred u with Pending => d | x => x end) (u_active u) (u_cleanup u) (u_trace u).
Definition set_active (z : Z) (u : upload) : upload :=
  Upload (u_aborted u) (u_processed u) (u_timedOut u) (u_timeout u) (u_submit u) (u_checks u)
    (u_requeued u) (u_listening u) (u_domCheck u) (u_status u) (u_statusText u) (u_text u)
    (u_deferred u) z (u_cleanup u) (u_trace u).
Definition set_utimers (timeout submit : bool) (checks requeued : nat) (u : upload) : upload :=
  Upload (u_aborted u) (u_processed u) (u_timedOut u) timeout submit checks
    requeued (u_listening u) (u_domCheck u) (u_status u) (u_statusText u) (u_text u)
    (u_deferred u) (u_active u) (u_cleanup u) (u_trace u).
Definition set_listening (b : bool) (u : upload) : upload :=
  Upload (u_aborted u) (u_processed u) (u_timedOut u) (u_timeout u) (u_submit u) (u_checks u)
    (u_requeued u) b (u_domCheck u) (u_status u) (u_statusText u) (u_text u)
    (u_deferred u) (u_active u) (u_cleanup u) (u_trace u).
Definition set_timedOut (u : upload) : upload :=
  Upload (u_aborted u) (u_processed u) true (u_timeout u) (u_submit u) (u_checks u)
    (u_requeued u) (u_listening u) (u_domCheck u) (u_status u) (u_statusText u) (u_text u)
    (u_deferred u) (u_active u) (u_cleanup u) (u_trace u).
Definition set_domCheck (z : Z) (u : upload) : upload :=
  Upload (u_aborted u) (u_processed u) (u_timedOut u) (u_timeout u) (u_submit u) (u_checks u)
    (u_requeued u) (u_listening u) z (u_status u) (u_statusText u) (u_text u)
    (u_deferred u) (u_active u) (u_cleanup u) (u_trace u).
Definition set_response (st : num) (stt : jstring) (t : option jstring) (u : upload) : upload :=
  Upload (u_aborted u) (u_processed u) (u_timedOut u) (u_timeout u) (u_submit u) (u_checks u)
    (u_requeued u) (u_listening u) (u_domCheck u) st stt t
    (u_deferred u) (u_active u) (u_cleanup u) (u_trace u).
Definition set_processed (u : upload) : upload :=
  Upload (u_aborted u) true (u_timedOut u) (u_timeout u) (u_submit u) (u_checks u)
    (u_requeued u) (u_listening u) (u_domCheck u) (u_status u) (u_statusText u) (u_text u)
    (u_deferred u) (u_active u) true (u_trace u).

Definition when (b : bool) (e : uevent) : list uevent := if b then [e] else [].

Section upload.
Variable s : settings.
(** [window.opera] *)
Variable opera : bool.
(** [JSON.parse], told only whether it throws; [$.globalEval] of a script likewise. *)
Variable json_ok script_ok : jstring → bool.

(** ** The form around the submission *)

Record form_attrs := FormAttrs {
  fa_target : jstring; fa_action : jstring; fa_method : jstring;
  fa_enctype : option jstring; fa_encoding : option jstring
}.

Definition multipart_type : jstring := "multipart/form-data"%js.
Definition is_post : bool :=
  match s_method s with
  | None | Some [] => true
  | Some m => contains "post"%js (lower m)
  end.

(** The attributes while the form is submitted, and what the [finally] block leaves. *)
Definition submit_attrs (id : jstring) (fa : form_attrs) : form_attrs * form_attrs :=
  let et := or_str (fa_enctype fa) (or_str (fa_encoding fa) multipart_type) in
  let during :=
    FormAttrs id (default (fa_action fa) (s_url s)) (if is_post then "POST"%js else fa_method fa)
      (if negb (s_skipEncoding s) && is_post then Some multipart_type else fa_enctype fa)
      (if negb (s_skipEncoding s) && is_post then Some multipart_type else fa_encoding fa) in
  (during, FormAttrs (fa_target fa) (fa_action fa) (fa_method during) (Some et) (fa_encoding during)).

(** The hidden inputs of the extra data, in enumeration order. *)
Definition extra_inputs (extra : jsobj val) : list (jstring * jstring) :=
  omap (λ n,
    match obj_get n extra with
    | Some (VObj o as v) =>
        match obj_get "name"%js o, obj_get "value"%js o with
        | Some name, Some value => Some (to_string name, add_value value)
        | _, _ => Some (n, add_value v)
        end
    | Some v => Some (n, add_value v)
    | None => None
    end) (for_in extra).

(** [doSubmit()] *)
Definition doSubmit (u : upload) : upload :=
  let u := set_utimers (u_timeout u || s_timeout s) (u_submit u) (u_checks u) (u_requeued u) u in
  let u := set_listening true u in
  let u := set_utimers (u_timeout u) (u_submit u) (S (u_checks u)) (u_requeued u) u in
  emit [EvSubmit (match s_extraData s with Some e => extra_inputs e | None => [] end)] u.

(** ** Aborts *)

(** [xhr.abort(status)]; [None]: without an argument. *)
Definition xhr_abort (status : option jstring) (u : upload) : upload :=
  let e := if bool_decide (status = Some "timeout"%js) then "timeout"%js else "aborted"%js in
  let u := set_aborted u in
  emit (when (s_error s) (EvError e (Some (default "undefined"%js status)))
        ++ when (s_global s) EvAjaxError ++ when (s_complete s) (EvComplete e)) u.

(** ** The answer *)

(** [Number(attr) || status] *)
Definition or_num (attr : option jstring) (d : num) : num :=
  match attr with
  | Some a => if truthy (VNum (num_of_string a)) then num_of_string a else d
  | None => d
  end.

(** The text and emulated status of the response: [(text, status, statusText)]. *)
Definition read_response (doc : document) (u : upload) : option jstring * num * jstring :=
  let docRoot := match doc_body doc with Some b => Some b | None => doc_root doc end in
  let text := n_text <$> docRoot in
  let '(st, stt) :=
    match docRoot with
    | Some r => (or_num (n_status r) (u_status u), or_str (n_statusText r) (u_statusText u))
    | None => (u_status u, u_statusText u)
    end in
  let isXml := bool_decide (s_dataType s = Some "xml"%js) || doc_xml doc in
  let dt := lower (default [] (if isXml then Some "xml"%js else s_dataType s)) in
  let scr := contains "json"%js dt || contains "script"%js dt || contains "text"%js dt in
  if scr || s_textarea s then
    match doc_textarea doc with
    | Some ta => (Some (n_text ta), or_num (n_status ta) st, or_str (n_statusText ta) stt)
    | None =>
        if scr then
          (match doc_pre doc with
           | Some p => Some p
           | None => match doc_body_text doc with Some b => Some b | None => text end
           end, st, stt)
        else (text, st, stt)
    end
  else (text, st, stt).

(** [httpData(xhr, dt, s)]: [None] when it throws. *)
Definition httpData (doc : document) (text : option jstring) : option (option jstring) :=
  let isXml := bool_decide (s_dataType s = Some "xml"%js) || doc_xml doc in
  let dataType := if isXml then Some "xml"%js else s_dataType s in
  let type := lower (default [] dataType) in
  let ct := default [] dataType in
  let untyped := type =s? [] in
  let xml := (type =s? "xml"%js) || (untyped && contains "xml"%js ct) in
  if xml && doc_xml_error doc then None
  else
    let data :=
      match s_dataFilter s with
      | Some f => Some (f (default [] text) dataType)
      | None => if xml then None else text
      end in
    match data with
    | Some d =>
        if (type =s? "json"%js) || (untyped && contains "json"%js ct)
        then if json_ok d then Some (Some d) else None
        else if (type =s? "script"%js) || (untyped && contains "javascript"%js ct)
        then if script_ok d then Some (Some d) else None
        else Some data
    | None => Some None
    end.

Definition good_status (st : num) : bool :=
  negb (flt st (num_of_Z 200)) && flt st (num_of_Z 300) || feq st (num_of_Z 304).

(** The callbacks of a finished upload; [errMsg] is [None] when it is undefined and
    [Some None] when it is an exception. *)
Definition finish (status : result) (errMsg : option (option jstring)) (data : option jstring) (u : upload) : upload :=
  let status :=
    if truthy (VNum (u_status u)) then if good_status (u_status u) then RSuccess else RError
    else status in
  let '(u, name) :=
    match status with
    | RSuccess =>
        let u := emit (when (s_success s) (EvSuccess data)) u in
        let u := settle Resolved u in
        (emit (when (s_global s) EvAjaxSuccess) u, "success"%js)
    | r =>
        let name := match r with RParserError => "parsererror"%js | _ => "error"%js end in
        let errMsg := default (Some (u_statusText u)) errMsg in
        let u := emit (when (s_error s) (EvError name errMsg)) u in
        let u := settle Rejected u in
        (emit (when (s_global s) EvAjaxError) u, name)
    end in
  let u := emit (when (s_global s) EvAjaxComplete) u in
  let u :=
    if s_global s then
      let u := set_active (u_active u - 1) u in
      emit (when (u_active u =? 0)%Z EvAjaxStop) u
    else u in
  let u := emit (when (s_complete s) (EvComplete name)) u in
  let u := set_processed u in
  if s_timeout s then set_utimers false (u_submit u) (u_checks u) (u_requeued u) u else u.

(** [cb(e)]; [doc] is what [getDoc(io)] gives. *)
Definition cb (e : reason) (doc : option document) (u : upload) : upload :=
  if u_aborted u || u_processed u then u
  else
    let e := match doc with None => SERVER_ABORT | Some _ => e end in
    match e, doc with
    | CLIENT_TIMEOUT_ABORT, _ => settle Rejected (xhr_abort (Some "timeout"%js) u)
    | SERVER_ABORT, _ | LoadEvent, None => settle Rejected (xhr_abort (Some "server abort"%js) u)
    | LoadEvent, Some doc =>
        if (doc_href doc =s? s_iframeSrc s) && negb (u_timedOut u) then u
        else
          let u := set_listening false u in
          if u_timedOut u then finish RError (Some (Some "timeout"%js)) None u
          else
            let isXml := bool_decide (s_dataType s = Some "xml"%js) || doc_xml doc in
            let blank := match doc_body doc with Some b => n_text b =s? [] | None => true end in
            let count := (u_domCheck u - 1)%Z in
            if negb isXml && opera && blank && negb (count =? 0)%Z then
              let u := set_domCheck count u in
              set_utimers (u_timeout u) (u_submit u) (u_checks u) (S (u_requeued u)) u
            else
              let u := if negb isXml && opera && blank then set_domCheck count u else u in
              let '(text, st, stt) := read_response doc u in
              let u := set_response st stt text u in
              match httpData doc text with
              | Some data => finish RSuccess None data u
              | None => finish RParserError (Some None) None u
              end
    end.

(** [checkState()]: the document could not be read, its state is [uninitialized], or it is
    something else. *)
Inductive ready := Unreadable | Uninitialized | Ready.
Definition checkState (r : ready) (doc : option document) (u : upload) : upload :=
  match r with
  | Unreadable =>
      let u := cb SERVER_ABORT doc u in
      set_utimers false (u_submit u) (u_checks u) (u_requeued u) u
  | Uninitialized => set_utimers (u_timeout u) (u_submit u) (S (u_checks u)) (u_requeued u) u
  | Ready => u
  end.

(** ** Starting *)

Definition fresh_upload (active : Z) : upload :=
  Upload false false false false false 0 0 false 50 (S754_zero false) "n/a"%js None Pending
    active false [].

(** [fileUploadIframe(a)] up to its return. *)
Definition fileUploadIframe (active : Z) : upload :=
  let u := fresh_upload active in
  let u :=
    if s_global s then
      let u := emit (when (active =? 0)%Z EvAjaxStart) u in
      emit [EvAjaxSend] (set_active (active + 1) u)
    else u in
  if bool_decide (s_beforeSend s = Some false) then
    settle Rejected (if s_global s then set_active (u_active u - 1) u else u)
  else if s_forceSync s then doSubmit u
  else set_utimers (u_timeout u) true (u_checks u) (u_requeued u) u.

(** ** The event loop; [user]: the page called abort *)
Inductive ustep : bool → upload → upload → Prop :=
  | us_submit u :
      u_submit u = true →
      ustep false u (doSubmit (set_utimers (u_timeout u) false (u_checks u) (u_requeued u) u))
  | us_timeout u doc :
      u_timeout u = true →
      ustep false u (cb CLIENT_TIMEOUT_ABORT doc
        (set_timedOut (set_utimers false (u_submit u) (u_checks u) (u_requeued u) u)))
  | us_check u n r doc :
      u_checks u = S n →
      ustep false u (checkState r doc (set_utimers (u_timeout u) (u_submit u) n (u_requeued u) u))
  | us_requeued u n doc :
      u_requeued u = S n →
      ustep false u (cb LoadEvent doc (set_utimers (u_timeout u) (u_submit u) (u_checks u) n u))
  | us_load u doc :
      u_listening u = true → ustep false u (cb LoadEvent doc u)
  | us_abort u status : ustep true u (xhr_abort status u).
End upload.
