(* ===== verification/FormUploadTheorems.v ===== *)
(** * Correctness of the iframe upload

    Every run without an abort by the page settles the upload at most once; what an abort by
    the page and a timeout leave behind. *)

From S2P Require Import Prelude JsString JsObject JsNumber JsValue QueryString FormFields FormSubmit FormUpload.

Definition is_complete (e : uevent) : bool := match e with EvComplete _ => true | _ => false end.
Definition is_success (e : uevent) : bool := match e with EvSuccess _ => true | _ => false end.
Definition is_error (e : uevent) : bool := match e with EvError _ _ => true | _ => false end.
Definition count (f : uevent → bool) (l : list uevent) : nat := length (filter f l).

#[local] Arguments count : simpl never.

Lemma count_app f l1 l2 : count f (l1 ++ l2) = count f l1 + count f l2.
Proof. unfold count. by rewrite filter_app, length_app. Qed.

Section runs.
Context (s : settings) (opera : bool) (json_ok script_ok : jstring → bool).

#[local] Abbreviation cb := (FormUpload.cb s opera json_ok script_ok).
#[local] Abbreviation ustep := (FormUpload.ustep s opera json_ok script_ok).

(** The parts of the state an upload's outcome is read from. *)
Definition open_ (u : upload) : Prop := u_aborted u = false ∧ u_processed u = false.

(** Before the outcome. *)
Definition waiting (active : Z) (u : upload) : Prop :=
  open_ u ∧ u_deferred u = Pending
  ∧ count is_complete (u_trace u) = 0 ∧ count is_success (u_trace u) = 0
  ∧ count is_error (u_trace u) = 0
  ∧ u_active u = (if s_global s then active + 1 else active)%Z.

Definition b2n (b : bool) : nat := if b then 1 else 0.

(** After it: one outcome, told to each callback that is set. *)
Definition outcome_told (active : Z) (u : upload) : Prop :=
  (u_aborted u || u_processed u) = true
  ∧ count is_complete (u_trace u) = b2n (s_complete s)
  ∧ ((u_deferred u = Resolved ∧ count is_success (u_trace u) = b2n (s_success s)
      ∧ count is_error (u_trace u) = 0 ∧ u_aborted u = false)
     ∨ (u_deferred u = Rejected ∧ count is_success (u_trace u) = 0
        ∧ count is_error (u_trace u) = b2n (s_error s)))
  ∧ u_active u = (if s_global s && u_aborted u then active + 1 else active)%Z.

(** Changes of the timers and the listener leave the outcome alone. *)
Definition same_outcome (u v : upload) : Prop :=
  u_aborted v = u_aborted u ∧ u_processed v = u_processed u ∧ u_deferred v = u_deferred u
  ∧ u_active v = u_active u
  ∧ count is_complete (u_trace v) = count is_complete (u_trace u)
  ∧ count is_success (u_trace v) = count is_success (u_trace u)
  ∧ count is_error (u_trace v) = count is_error (u_trace u).

Lemma waiting_same active u v : same_outcome u v → waiting active u → waiting active v.
Proof. unfold same_outcome, waiting, open_. intuition congruence. Qed.

Lemma told_same active u v : same_outcome u v → outcome_told active u → outcome_told active v.
Proof.
  unfold same_outcome, outcome_told. intros (-> & -> & -> & -> & -> & -> & ->). done.
Qed.

Lemma abort_told active st u :
  waiting active u → outcome_told active (settle Rejected (xhr_abort s st u)).
Proof.
  intros ((A & P) & D & C1 & C2 & C3 & Ac). unfold outcome_told, xhr_abort. cbn.
  rewrite D, !count_app, C1, C2, C3, Ac, andb_true_r. unfold when, b2n.
  split_and!; [done| | |done].
  - by destruct (s_error s), (s_global s), (s_complete s).
  - right. by destruct (s_error s), (s_global s), (s_complete s).
Qed.

Lemma finish_told active r m d u :
  waiting active u → outcome_told active (finish s r m d u).
Proof.
  intros ((A & P) & D & C1 & C2 & C3 & Ac). unfold finish.
  set (r' := if truthy _ then _ else _). clearbody r'.
  unfold outcome_told, b2n, when in *.
  destruct r'; cbn [emit settle set_active set_processed u_trace u_active u_deferred u_aborted
    u_processed u_statusText]; destruct (s_global s), (s_timeout s), (s_complete s), (s_success s), (s_error s);
    cbn; rewrite ?D, ?A, ?P; try (destruct (u_active u - 1 =? 0)%Z);
    cbn; rewrite ?count_app, ?C1, ?C2, ?C3; cbn; rewrite ?C1, ?C2, ?C3; split_and!; try done; try lia;
    first [by left|by right].
Qed.

Lemma same_refl u : same_outcome u u.
Proof. by split_and!. Qed.

Lemma same_trans u v w : same_outcome u v → same_outcome v w → same_outcome u w.
Proof. unfold same_outcome. intuition congruence. Qed.

Lemma doSubmit_same u : same_outcome u (doSubmit s u).
Proof. unfold doSubmit. cbv zeta. split_and!; try done; cbn; by rewrite count_app. Qed.

(** One run of [cb]: nothing, a step towards the outcome, or the outcome. *)
Lemma cb_step active e doc u :
  (waiting active u → waiting active (cb e doc u) ∨ outcome_told active (cb e doc u))
  ∧ (outcome_told active u → outcome_told active (cb e doc u)).
Proof.
  split; intros H.
  - unfold FormUpload.cb. pose proof H as ((A & P) & _). rewrite A, P. cbn [orb].
    destruct doc as [d|]; [|right; destruct e; by apply abort_told].
    destruct e; [right; by apply abort_told|right; by apply abort_told|].
    destruct (_ && _); [by left|].
    assert (waiting active (set_listening false u)) as H1 by (by eapply waiting_same; [|exact H]).
    revert H1. generalize (set_listening false u). clear. intros u H. cbv zeta.
    destruct (u_timedOut u); [right; by apply finish_told|].
    destruct (_ && _).
    { left. eapply waiting_same; [|exact H]. by split_and!. }
    right. assert (∀ v, same_outcome u v → outcome_told active
      (let '(text, st, stt) := read_response s d v in
       let v := set_response st stt text v in
       match httpData s json_ok script_ok d text with
       | Some data => finish s RSuccess None data v
       | None => finish s RParserError (Some None) None v
       end)) as K.
    { intros v Hv. destruct (read_response s d v) as [[text st] stt]. cbv zeta.
      assert (waiting active (set_response st stt text v)) as W
        by (by eapply waiting_same; [|exact H]).
      destruct (httpData _ _ _ _ _); by apply finish_told. }
    destruct (_ && _); apply K; by split_and!.
  - unfold FormUpload.cb. destruct H as (E & H). rewrite E. by split.
Qed.

Lemma ustep_outcome active u v :
  ustep false u v →
  (waiting active u → waiting active v ∨ outcome_told active v)
  ∧ (outcome_told active u → outcome_told active v).
Proof.
  intros Hs. inversion Hs; subst.
  - assert (same_outcome u (doSubmit s (set_utimers (u_timeout u) false (u_checks u) (u_requeued u) u)))
      as Hsame by (eapply same_trans; [|apply doSubmit_same]; by split_and!).
    split; intros H0; [left; by eapply waiting_same|by eapply told_same].
  - destruct (cb_step active CLIENT_TIMEOUT_ABORT doc
      (set_timedOut (set_utimers false (u_submit u) (u_checks u) (u_requeued u) u))) as [K1 K2].
    split; intros H0; [apply K1; by eapply waiting_same; [|exact H0]|apply K2; by eapply told_same; [|exact H0]].
  - set (w := set_utimers (u_timeout u) (u_submit u) n (u_requeued u) u).
    assert (same_outcome u w) as Hw by by split_and!.
    destruct (cb_step active SERVER_ABORT doc w) as [K1 K2]. unfold checkState. destruct r.
    + cbv zeta. split; intros H0.
      * destruct (K1 (waiting_same _ _ _ Hw H0)) as [X|X]; [left; by eapply waiting_same; [|exact X]|
          right; by eapply told_same; [|exact X]].
      * eapply told_same; [|exact (K2 (told_same _ _ _ Hw H0))]. by split_and!.
    + split; intros H0; [left; by eapply waiting_same; [|exact H0]|by eapply told_same; [|exact H0]].
    + split; intros H0; [left; by eapply waiting_same; [|exact H0]|by eapply told_same; [|exact H0]].
  - destruct (cb_step active LoadEvent doc (set_utimers (u_timeout u) (u_submit u) (u_checks u) n u))
      as [K1 K2].
    split; intros H0; [apply K1; by eapply waiting_same; [|exact H0]|apply K2; by eapply told_same; [|exact H0]].
  - apply cb_step.
Qed.

Lemma start_waiting active :
  s_beforeSend s ≠ Some false → waiting active (fileUploadIframe s active).
Proof.
  intros Hb. unfold fileUploadIframe. rewrite bool_decide_eq_false_2 by done.
  assert (waiting active (if s_global s then emit [EvAjaxSend] (set_active (active + 1)
    (emit (when (active =? 0)%Z EvAjaxStart) (fresh_upload active))) else fresh_upload active)) as W.
  { unfold waiting, open_, when. destruct (s_global s); [|by split_and!].
    by destruct (active =? 0)%Z. }
  cbv zeta. revert W. match goal with |- context [waiting active ?x] => generalize x end.
  intros u W. destruct (s_forceSync s); eapply waiting_same; try exact W; [apply doSubmit_same|].
  by split_and!.
Qed.
End runs.

(** C6: while the page does not abort it, an upload has one outcome, told once: either nothing
    has been told, or exactly one of success and error has run (when they are set), complete
    has run once, and the promise is settled accordingly; a resolved upload was not aborted,
    and the count of active requests drops only when the answer was processed. *)
Theorem upload_outcome_once s opera json_ok script_ok active u :
  s_beforeSend s ≠ Some false →
  rtc (ustep s opera json_ok script_ok false) (fileUploadIframe s active) u →
  waiting s active u ∨ outcome_told s active u.
Proof.
  intros Hb H. eapply (rtc_ind_r (λ v, waiting s active v ∨ outcome_told s active v)); [| |exact H].
  - left. by apply start_waiting.
  - intros v w _ Hs [W|W]; [by eapply ustep_outcome|right; by eapply ustep_outcome].
Qed.

(** An upload with callbacks and a timeout, answered by a document. *)
Definition demo_settings : settings :=
  Settings (Some "/up"%js) true true true true true None (Some "json"%js) false None
    "about:blank"%js false true false None None.
Definition demo_answer : document :=
  Document "http://h/up"%js false false (Some (Node "<pre>{}</pre>"%js None None)) None None
    (Some "{}"%js) (Some "{}"%js).

Lemma upload_outcome_once_witness :
  let u := cb demo_settings false (λ _, true) (λ _, true) LoadEvent (Some demo_answer)
             (fileUploadIframe demo_settings 0) in
  u_trace u = [EvAjaxStart; EvAjaxSend; EvSubmit []; EvSuccess (Some "{}"%js); EvAjaxSuccess;
               EvAjaxComplete; EvAjaxStop; EvComplete "success"%js]
  ∧ (waiting demo_settings 0 u ∨ outcome_told demo_settings 0 u).
Proof.
  split; [vm_compute; reflexivity|].
  apply (upload_outcome_once demo_settings false (λ _, true) (λ _, true)).
  - discriminate.
  - apply rtc_once, us_load. reflexivity.
Defined.

(** An abort by the page before the outcome leaves the promise pending for ever, whatever
    happens afterwards, and the count of active requests is never decremented. *)
Theorem abort_leaves_pending s opera json_ok script_ok u v w :
  u_deferred u = Pending →
  ustep s opera json_ok script_ok true u v →
  rtc (λ x y, ∃ user, ustep s opera json_ok script_ok user x y) v w →
  u_deferred w = Pending ∧ u_active w = u_active u.
Proof.
  intros Hd H1 Hr. inversion H1; subst.
  assert (∀ x y, u_aborted x = true → (∃ b, ustep s opera json_ok script_ok b x y) →
    u_aborted y = true ∧ u_deferred y = u_deferred x ∧ u_active y = u_active x) as Hstep.
  { assert (∀ e doc x, u_aborted x = true → cb s opera json_ok script_ok e doc x = x) as Hcb
      by (intros e doc x Hx; unfold cb; by rewrite Hx).
    intros x y Hx [b' Hs]. inversion Hs; subst; try done; rewrite ?Hcb by done; try done.
    unfold checkState. destruct r; rewrite ?Hcb by done; done. }
  assert (u_aborted w = true ∧ u_deferred w = u_deferred (xhr_abort s status u)
    ∧ u_active w = u_active (xhr_abort s status u)) as (_ & -> & ->); [|by rewrite <- Hd].
  revert Hr. apply (rtc_ind_r (λ x, u_aborted x = true ∧ u_deferred x = u_deferred (xhr_abort s status u)
    ∧ u_active x = u_active (xhr_abort s status u)) (xhr_abort s status u)); [by split_and!|].
  intros x y _ Hs (A & D & C). destruct (Hstep x y A Hs) as (A' & D' & C'). split_and!; congruence.
Qed.

Lemma abort_leaves_pending_witness :
  let u := fileUploadIframe demo_settings 0 in
  let v := xhr_abort demo_settings None u in
  u_deferred (cb demo_settings false (λ _, true) (λ _, true) LoadEvent (Some demo_answer) v) = Pending
  ∧ u_active (cb demo_settings false (λ _, true) (λ _, true) LoadEvent (Some demo_answer) v) = 1%Z.
Proof.
  refine (abort_leaves_pending demo_settings false (λ _, true) (λ _, true)
    (fileUploadIframe demo_settings 0) (xhr_abort demo_settings None (fileUploadIframe demo_settings 0))
    _ _ _ _).
  - reflexivity.
  - apply us_abort.
  - apply rtc_once. exists false. apply us_load. reflexivity.
Defined.

(** the submission puts the form's action and target back, but a form without an encoding
    is left as multipart/form-data, and a form posted without an explicit method or with one
    that names POST is left with the method POST and the multipart encoding attribute. *)
Theorem submit_attrs_after s id fa :
  let '(during, after) := submit_attrs s id fa in
  fa_target during = id ∧ fa_target after = fa_target fa ∧ fa_action after = fa_action fa
  ∧ fa_enctype after = Some (or_str (fa_enctype fa) (or_str (fa_encoding fa) multipart_type))
  ∧ fa_method after = (if is_post s then "POST"%js else fa_method fa)
  ∧ (∀ u, s_url s = Some u → fa_action during = u)
  ∧ (is_post s = true → s_skipEncoding s = false →
      fa_enctype during = Some multipart_type ∧ fa_encoding after = Some multipart_type).
Proof.
  unfold submit_attrs. cbn. split_and!; try done; [by intros u ->|].
  intros -> ->. done.
Qed.
