(* ===== verification/FormBind.v ===== *)
(** * Binding forms and preparing uploads (theme/js/jquery.form.js)

    The handlers that [ajaxForm] binds to forms, or to the document for a selector, and that
    [ajaxFormUnbind] takes away; the extra data, the frame name and the request settings of an
    upload.  Forms are numbers, options of a call are numbers; the events of the page other than
    the plugin's have their own handlers and are not touched. *)

From S2P Require Import Prelude JsString JsObject JsNumber JsValue FormFields FormTheorems FormSubmit.

(** ** Handlers *)

Inductive event_type := Submit | Click.
#[export] Instance event_type_eq_dec : EqDecision event_type.
Proof. solve_decision. Defined.

(** Where a handler of the plugin's name space is bound. *)
Inductive place := OnForm (f : nat) | OnDocument (selector : jstring).
#[export] Instance place_eq_dec : EqDecision place.
Proof. solve_decision. Defined.

(** A binding: [doAjaxSubmit] for submissions and [captureSubmittingElement] for clicks, with the
    options as its data. *)
Record binding := Binding { b_place : place; b_event : event_type; b_options : nat }.

(** The bindings, oldest first, and the calls that wait for the document. *)
Record bindings := Bindings { bound : list binding; queued : list (jstring * nat) }.

Definition bind (p : place) (o : nat) (b : bindings) : bindings :=
  Bindings (bound b ++ [Binding p Submit o; Binding p Click o]) (queued b).
Definition unbind (p : place → bool) (b : bindings) : bindings :=
  Bindings (List.filter (λ x, negb (p (b_place x))) (bound b)) (queued b).

Definition on_forms (els : list nat) (p : place) : bool :=
  match p with OnForm f => bool_decide (f ∈ els) | OnDocument _ => false end.

(** [$(els).ajaxFormUnbind()] *)
Definition ajaxFormUnbind (els : list nat) (b : bindings) : bindings := unbind (on_forms els) b.

(** [ajaxForm(options)] on the elements [els] of [selector]; [delegation]: it is asked for and the
    library supports it. *)
Definition ajaxForm (delegation isReady : bool) (selector : jstring) (els : list nat) (o : nat) (b : bindings) : bindings :=
  if negb delegation && bool_decide (els = []) then
    if negb isReady && negb (selector =s? []) then Bindings (bound b) (queued b ++ [(selector, o)]) else b
  else if delegation then
    bind (OnDocument selector) o (unbind (λ p, bool_decide (p = OnDocument selector)) b)
  else foldl (λ b f, bind (OnForm f) o b) (ajaxFormUnbind els b) els.

(** The document is ready: the calls that waited are made on the elements there are now. *)
Definition on_ready (select : jstring → list nat) (b : bindings) : bindings :=
  foldl (λ b '(selector, o), ajaxForm false true selector (select selector) o b) (Bindings (bound b) []) (queued b).

(** The options with which a submission of a form is handled by its own handlers. *)
Definition handled_with (e : event_type) (p : place) (b : bindings) : list nat :=
  b_options <$> filter (λ x, b_place x = p ∧ b_event x = e) (bound b).

(** ** Preparing an upload *)

(** The name of the frame: that of the target frame when it has one. *)
Definition frame_name (id : jstring) (target : option jstring) : jstring :=
  match target with Some [] | None => id | Some n => n end.

(** The submitting element goes into the extra data. *)
Definition clk_data (f : form) (extra : option (jsobj val)) : option (jsobj val) :=
  match fm_clk f with
  | Some sub =>
      let n := c_name sub in
      if negb (n =s? []) && negb (c_disabled sub) then
        let extra := obj_set n (match c_value sub with Some v => VStr v | None => VUndef end) (default [] extra) in
        Some (if c_type sub =s? "image"%js
              then obj_set (n ++ ".y"%js) (fm_clk_y f) (obj_set (n ++ ".x"%js) (fm_clk_x f) extra) else extra)
      else extra
  | None => extra
  end.

(** The token of the Rails convention, from the meta elements of the page. *)
Definition csrf_data (csrf_param csrf_token : option jstring) (extra : option (jsobj val)) : option (jsobj val) :=
  match csrf_param, csrf_token with
  | Some ((_ :: _) as p), Some ((_ :: _) as t) => Some (obj_set p (VStr t) (default [] extra))
  | _, _ => extra
  end.

Definition upload_extra (f : form) (csrf_param csrf_token : option jstring) (extra : option (jsobj val)) : option (jsobj val) :=
  csrf_data csrf_param csrf_token (clk_data f extra).

(** The serialized inputs are enabled before the upload ([a] is given). *)
Definition enable_elements (a : bool) (els : list control) : list control :=
  if a then set_disabled false <$> els else els.

(** The data an upload by [FormData] sends. *)
Inductive request_body := OwnFormData | GivenFormData.
Definition send_data (formData_given : bool) : request_body := if formData_given then GivenFormData else OwnFormData.

(** ** Every form has one handler *)

(** No place has two handlers of one kind. *)
Definition bound_once (b : bindings) : Prop := ∀ e p, length (handled_with e p b) ≤ 1.

Lemma handled_bind e p p' o b :
  handled_with e p (bind p' o b) = handled_with e p b ++ (if decide (p = p') then [o] else []).
Proof.
  unfold handled_with, bind. cbn [bound]. rewrite filter_app, fmap_app. f_equal. rewrite !filter_cons, filter_nil. cbn [b_place b_event].
  destruct (decide (p = p')) as [->|Hne].
  - destruct e; by repeat (case_decide; try naive_solver).
  - by rewrite !decide_False by naive_solver.
Qed.

Lemma handled_unbind e p q b :
  handled_with e p (unbind q b) = if q p then [] else handled_with e p b.
Proof.
  unfold handled_with, unbind. cbn [bound]. induction (bound b) as [|x l IH]; [by destruct (q p)|]. cbn [List.filter].
  destruct (q (b_place x)) eqn:E; cbn [negb]; rewrite ?filter_cons; case_decide as Hx; cbn [fmap list_fmap]; rewrite ?IH; try done;
    destruct Hx as [<- _]; by rewrite E.
Qed.

Lemma handled_bind_all e p els o b :
  NoDup els → handled_with e p (foldl (λ b f, bind (OnForm f) o b) b els)
  = handled_with e p b ++ (if on_forms els p then [o] else []).
Proof.
  revert b. induction els as [|f els IH]; intros b Hn; [destruct p; by rewrite app_nil_r|]. apply NoDup_cons in Hn as [Hf Hn].
  cbn [foldl]. rewrite IH, handled_bind, <- app_assoc by done. f_equal. destruct p as [g|]; cbn [on_forms].
  - destruct (decide (OnForm g = OnForm f)) as [[= ->]|Hne].
    + by rewrite bool_decide_eq_false_2, bool_decide_eq_true_2 by (done || by left).
    + cbn [app]. erewrite bool_decide_ext; [done|]. rewrite elem_of_cons. naive_solver.
  - by rewrite decide_False.
Qed.

Lemma ajaxForm_bound_once delegation isReady selector els o b :
  NoDup els → bound_once b → bound_once (ajaxForm delegation isReady selector els o b).
Proof.
  intros Hn Hb e p. unfold ajaxForm. destruct (negb delegation && bool_decide (els = [])); [by destruct (negb isReady && _); apply Hb|].
  destruct delegation.
  - rewrite handled_bind, handled_unbind. destruct (decide (p = OnDocument selector)) as [->|Hne].
    + by rewrite bool_decide_eq_true_2.
    + rewrite bool_decide_eq_false_2, app_nil_r by done. apply Hb.
  - rewrite handled_bind_all by done. unfold ajaxFormUnbind. rewrite handled_unbind. destruct (on_forms els p); [done|].
    rewrite app_nil_r. apply Hb.
Qed.

(** After [ajaxForm], a submission of each of its forms is handled once by its own handlers, with the
    options of that call, however often forms were bound before; other forms keep their handlers. *)
Lemma ajaxForm_handles selector els o b e f :
  NoDup els → bound_once b →
  handled_with e (OnForm f) (ajaxForm false true selector els o b)
  = if decide (f ∈ els) then [o] else handled_with e (OnForm f) b.
Proof.
  intros Hn Hb. unfold ajaxForm. destruct (bool_decide (els = [])) eqn:E; cbn [negb andb].
  - apply bool_decide_eq_true in E as ->. by rewrite decide_False by (by intros ?%elem_of_nil).
  - rewrite handled_bind_all by done. unfold ajaxFormUnbind. rewrite handled_unbind. cbn [on_forms].
    destruct (decide (f ∈ els)) as [Hin|Hin].
    + by rewrite bool_decide_eq_true_2.
    + by rewrite bool_decide_eq_false_2, app_nil_r.
Qed.

(** A form that matches two selectors is handled twice. *)
Example delegated_twice :
  let b := ajaxForm true true "form"%js [] 2 (ajaxForm true true "#f"%js [] 1 (Bindings [] [])) in
  b_options <$> filter (λ x, b_event x = Submit) (bound b) = [1; 2].
Proof. vm_compute. reflexivity. Qed.

Example clk_data_ex :
  upload_extra (Form [] [] [] [] (Some (Control 9 "go"%js "image"%js "input"%js false false false (Some "1"%js) 0 [] true []))
                 (VNum (num_of_Z 3)) (VNum (num_of_Z 4))) (Some "tok"%js) (Some "abc"%js) None
  = Some [("go"%js, VStr "1"%js); ("go.x"%js, VNum (num_of_Z 3)); ("go.y"%js, VNum (num_of_Z 4)); ("tok"%js, VStr "abc"%js)].
Proof. vm_compute. reflexivity. Qed.
