(* ===== verification/JqVal.v ===== *)
(** * Values of controls and serialized forms (jquery/src/attributes/val.js, serialize.js)

    The getter and the setter [val] of one control with their hooks for selects, radio buttons
    and check boxes, and [serializeArray].  What the browser says of the page around a control
    (disabled groups and field sets, the text of an option, which attributes are given) is a
    parameter, like the two results of the feature tests.

    For a form of ordinary controls the array the form plugin gathers is the one [serializeArray]
    gives, up to the line ends of the values. *)

From S2P Require Import Prelude JsString JsObject JsNumber JsValue Uri QueryString FormFields FormTheorems.

Section val.
(** [support.optDisabled], [support.checkOn] *)
Variable optDisabled checkOn : bool.
Variable textContent : opt → jstring.
(** [option.getAttribute("disabled") !== null]; [option.parentNode] is a disabled [optgroup]. *)
Variable disabled_attr in_disabled_group : opt → bool.
(** [elem.getAttribute("value") !== null] *)
Variable has_value_attr : control → bool.

(** ** The getter *)

(** The hook of options: the attribute, or the text of the option. *)
Definition option_get (o : opt) : jstring :=
  match o_specified o with Some _ => o_value o | None => trim (textContent o) end.

(** The test of one option of a select. *)
Definition counts (index : Z) (i : nat) (o : opt) : bool :=
  (o_selected o || (Z.of_nat i =? index)%Z)
  && (if optDisabled then negb (o_disabled o) else negb (disabled_attr o))
  && negb (in_disabled_group o).

(** The loop over the options; [inl]: the value it returned. *)
Fixpoint select_loop (one : bool) (index : Z) (l : list (nat * opt)) (values : list jstring) : jstring + list jstring :=
  match l with
  | [] => inr values
  | (i, o) :: l =>
      if counts index i o then
        if one then inl (option_get o) else select_loop one index l (values ++ [option_get o])
      else select_loop one index l values
  end.

(** The hook of selects; a [selectedIndex] that is not negative is that of an option. *)
Definition select_get (c : control) : field_value :=
  let index := c_index c in
  let one := (c_type c =s? "select-one"%js) || (index <? 0)%Z in
  let max := if one then (index + 1)%Z else Z.of_nat (length (c_options c)) in
  let from := if (index <? 0)%Z then max else if one then index else 0%Z in
  let l := filter (λ io : nat * opt, from ≤ Z.of_nat io.1 < max)%Z (imap pair (c_options c)) in
  match select_loop one index l [] with
  | inl v => FOne v
  | inr values => if one then FNull else FMany values
  end.

Definition is_check (c : control) : bool := (c_type c =s? "radio"%js) || (c_type c =s? "checkbox"%js).

(** [$(elem).val()] *)
Definition val_get (c : control) : field_value :=
  if is_check c then
    if checkOn then FOne (el_val c)
    else FOne (if has_value_attr c then default [] (c_value c) else "on"%js)
  else if c_tag c =s? "select"%js then select_get c
  else FOne (el_val c).

(** ** The setter *)

Definition blank_null (v : val) : val := match v with VNull | VUndef => VStr [] | v => VStr (to_string v) end.

(** Null and undefined become the empty string, numbers and elements of an array strings. *)
Definition set_arg (v : val) : val :=
  match v with
  | VNull | VUndef => VStr []
  | VNum _ => VStr (to_string v)
  | VArr l => VArr (blank_null <$> l)
  | v => v
  end.

Definition in_values (s : jstring) (values : list val) : bool :=
  existsb (λ v, match v with VStr t => t =s? s | _ => false end) values.

(** The hook of selects: the options from the last to the first. *)
Definition select_set (value : val) (c : control) : control :=
  let values := match value with VArr l => l | v => [v] end in
  let '(c, optionSet) :=
    foldl (λ '(c, optionSet) i,
             match c_options c !! i with
             | Some o => let b := in_values (o_value o) values in (set_selected i b c, optionSet || b)
             | None => (c, optionSet)
             end) (c, false) (rev (seq 0 (length (c_options c)))) in
  if optionSet then c else set_options (-1) (map (opt_selected false) (c_options c)) c.

(** [$(elem).val(value)] with a value that is not a function. *)
Definition val_set (value : val) (c : control) : control :=
  let v := set_arg value in
  if is_check c then
    match v with
    | VArr l => match val_get c with
                | FOne s => set_checked (in_values s l) c
                | _ => set_checked false c
                end
    | v => set_value (to_string v) c
    end
  else if c_tag c =s? "select"%js then select_set v c
  else set_value (to_string v) c.

(** ** [serializeArray] *)

(** [this] is matched by [:disabled]. *)
Variable fieldset_disabled : control → bool.

(** [rCRLF]: every line end becomes a carriage return with a line feed. *)
Fixpoint crlf (s : jstring) : jstring :=
  match s with
  | [] => []
  | u :: t =>
      if (u =? 10)%N then 13%N :: 10%N :: crlf t
      else match t with
           | w :: t' => if (u =? 13)%N && (w =? 10)%N then 13%N :: 10%N :: crlf t' else u :: crlf t
           | [] => [u]
           end
  end.

Definition submittable (c : control) : bool :=
  existsb (λ p, starts_with p (lower (c_tag c))) ["input"%js; "select"%js; "textarea"%js; "keygen"%js].
Definition submitter (c : control) : bool :=
  bool_decide (lower (c_type c) ∈ ["submit"%js; "button"%js; "image"%js; "reset"%js; "file"%js]).
Definition checkable (c : control) : bool := bool_decide (lower (c_type c) ∈ ["checkbox"%js; "radio"%js]).

(** The second filter. *)
Definition kept (c : control) : bool :=
  negb (c_name c =s? []) && negb (c_disabled c || fieldset_disabled c)
  && submittable c && negb (submitter c) && (c_checked c || negb (checkable c)).

Definition control_values (c : control) : list (jstring * jstring) :=
  match val_get c with
  | FNull => []
  | FMany l => (λ v, (c_name c, crlf v)) <$> l
  | FOne v => [(c_name c, crlf v)]
  end.

(** A member of the jQuery set: a form with its elements, or a control. *)
Inductive member := MForm (elements : list control) | MControl (c : control).

Definition serializeArray (this : list member) : list (jstring * jstring) :=
  let els := flat_map (λ m, match m with MForm els => els | MControl c => [c] end) this in
  flat_map control_values (List.filter kept els).

(** [serialize()] *)
Definition serialize_set (this : list member) : option jstring :=
  serialize ((λ x, (x.1, VStr x.2)) <$> serializeArray this).
End val.

(** ** The two serializers of a form *)

Section agree.
Variable optDisabled : bool.
Variable textContent : opt → jstring.
Variable disabled_attr in_disabled_group : opt → bool.
Variable has_value_attr fieldset_disabled : control → bool.

#[local] Abbreviation opt_get := (option_get textContent).
#[local] Abbreviation opt_counts := (counts optDisabled disabled_attr in_disabled_group).
#[local] Abbreviation values_of := (control_values optDisabled true textContent disabled_attr in_disabled_group has_value_attr).

(** A selected option of an enabled group, whose value is its attribute or its text. *)
Definition plain_option (o : opt) : Prop :=
  o_disabled o = false ∧ disabled_attr o = false ∧ in_disabled_group o = false ∧ opt_get o = o_value o.

(** An input that takes no file, a select or a text area, outside of disabled field sets. *)
Record plain_field (c : control) : Prop := {
  pf_ok : control_ok c;
  pf_tag : c_tag c ∈ ["input"%js; "select"%js; "textarea"%js];
  pf_type : lower (c_type c) = c_type c;
  pf_file : c_type c ≠ "file"%js;
  pf_fieldset : fieldset_disabled c = false;
  pf_options : Forall (λ o, o_selected o = true → plain_option o) (c_options c)
}.

Definition crlf_pair (x : jstring * item_value) : jstring * jstring :=
  (x.1, match x.2 with IVal (VStr s) => crlf s | _ => [] end).

Lemma counts_selected index i o : (o_selected o = true → plain_option o) → o_selected o = true → opt_counts index i o = true.
Proof. intros H Hs. destruct (H Hs) as (H1 & H2 & H3 & _). unfold counts. rewrite Hs, H1, H2, H3. by destruct optDisabled. Qed.

(** The options in the range of the loop. *)
Lemma filter_range {A} (f : nat → nat) (l : list A) lo hi :
  (∀ i, f (S i) = S (f i)) → lo ≤ f 0 → f 0 + length l ≤ hi →
  filter (λ io : nat * A, (Z.of_nat lo ≤ Z.of_nat io.1 < Z.of_nat hi)%Z) (imap (λ i o, (f i, o)) l) = imap (λ i o, (f i, o)) l.
Proof.
  revert f. induction l as [|x l IH]; intros f Hf Hlo Hhi; [done|]. cbn [imap]. cbn in Hhi.
  rewrite filter_cons_True by (cbn; lia). f_equal. apply (IH (f ∘ S)); unfold compose; [intros i; by rewrite Hf|rewrite Hf; lia|rewrite Hf; lia].
Qed.

Lemma filter_at {A} (f : nat → nat) (l : list A) (k : nat) (x : A) :
  (∀ i, f (S i) = S (f i)) → l !! k = Some x →
  filter (λ io : nat * A, (Z.of_nat (f 0%nat + k)%nat ≤ Z.of_nat io.1 < Z.of_nat (f 0%nat + k)%nat + 1)%Z) (imap (λ i o, (f i, o)) l) = [(f 0 + k, x)].
Proof.
  revert f k. induction l as [|y l IH]; intros f k Hf Hk; [done|]. cbn [imap]. destruct k as [|k].
  - injection Hk as ->. rewrite filter_cons_True by (cbn; lia). rewrite Nat.add_0_r. f_equal.
    apply elem_of_nil_inv. intros io [Hr Hin]%list_elem_of_filter. apply elem_of_lookup_imap_1 in Hin as (i & y & -> & _).
    cbn in Hr. unfold compose in Hr. assert (∀ i, f i = f 0 + i) as Hfi.
    { induction i0 as [|i0 IHi]; [lia|]. rewrite Hf. lia. }
    rewrite (Hfi (S i)) in Hr. lia.
  - rewrite filter_cons_False by (cbn; lia). pose proof (IH (f ∘ S) k) as E. unfold compose in E.
    rewrite Hf in E. replace (f 0 + S k) with (S (f 0) + k) by lia. apply E; [intros i; by rewrite Hf|done].
Qed.

Lemma loop_many index (l : list (nat * opt)) values :
  (∀ i o, (i, o) ∈ l → opt_counts index i o = o_selected o) → (∀ i o, (i, o) ∈ l → o_selected o = true → opt_get o = o_value o) →
  select_loop optDisabled textContent disabled_attr in_disabled_group false index l values
  = inr (values ++ map o_value (filter o_selected l.*2)).
Proof.
  revert values. induction l as [|[i o] l IH]; intros values Hc Hv; [by rewrite app_nil_r|]. cbn [select_loop fmap list_fmap snd].
  rewrite (Hc i o) by (by left). destruct (o_selected o) eqn:Hs.
  - rewrite IH; [|intros j o' Hin; apply Hc; by right|intros j o' Hin; apply (Hv j); by right].
    rewrite filter_cons_True by (by rewrite Hs). rewrite (Hv i o) by (done || by left). cbn. by rewrite <- app_assoc.
  - rewrite IH; [|intros j o' Hin; apply Hc; by right|intros j o' Hin; apply (Hv j); by right].
    by rewrite filter_cons_False by (rewrite Hs; simpl; tauto).
Qed.

Lemma first_selected_at ops k : first_selected ops 0 = Z.of_nat k → ∃ o, ops !! k = Some o ∧ o_selected o = true.
Proof.
  assert (∀ i, (0 ≤ i)%Z → first_selected ops i = (i + Z.of_nat k)%Z → ∃ o, ops !! k = Some o ∧ o_selected o = true) as H;
    [|intros E; by apply (H 0%Z)].
  revert k. induction ops as [|o ops IH]; intros k i Hi Hf; simpl in Hf; [lia|].
  destruct (o_selected o) eqn:E.
  - assert (k = 0) as -> by lia. by exists o.
  - destruct k as [|k]; [destruct (first_selected_ge ops (i + 1)); lia|]. apply (IH k (i + 1)%Z); lia.
Qed.

(** The value of a select is that of its selected options. *)
Lemma select_get_plain c :
  plain_field c → c_tag c = "select"%js →
  select_get optDisabled textContent disabled_attr in_disabled_group c
  = if c_type c =s? "select-one"%js then
      match filter o_selected (c_options c) with [o] => FOne (o_value o) | _ => FNull end
    else match filter o_selected (c_options c) with [] => FNull | l => FMany (map o_value l) end.
Proof.
  intros [Hok _ _ _ _ Hpl] Ht. destruct (co_select _ Hok Ht) as (_ & Hi & Hu). rewrite Forall_forall in Hpl. unfold select_get.
  destruct (first_selected_ge (c_options c) 0) as [E|E].
  { pose proof E as Hnone. apply first_selected_none in Hnone; [|lia]. rewrite Hnone. rewrite Hi, E. cbn [Z.ltb Z.compare]. rewrite orb_true_r.
    change (-1 + 1)%Z with 0%Z. assert (filter (λ io : nat * opt, (0 ≤ Z.of_nat io.1 < 0)%Z) (imap pair (c_options c)) = []) as ->.
    { apply elem_of_nil_inv. intros io [Hr _]%list_elem_of_filter. lia. }
    by destruct (c_type c =s? _). }
  destruct (first_selected_at (c_options c) (Z.to_nat (c_index c))) as (o & Lo & So); [lia|].
  assert ((c_index c <? 0)%Z = false) as -> by (apply Z.ltb_ge; lia). rewrite orb_false_r.
  destruct (c_type c =s? "select-one"%js) eqn:Eone; bools.
  - destruct (single_selected (c_options c) (Z.to_nat (c_index c))) as (o' & L & S & F); [lia| |].
    { intros i o' L S. rewrite (Hu Eone i o' L S). lia. }
    assert (filter (λ io : nat * opt, (c_index c ≤ Z.of_nat io.1 < c_index c + 1)%Z) (imap pair (c_options c)) = [(Z.to_nat (c_index c), o')]) as ->.
    { pose proof (filter_at (λ i, i) (c_options c) (Z.to_nat (c_index c)) o' (λ _, eq_refl) L) as E'. cbn [Nat.add] in E'.
      replace (Z.of_nat (Z.to_nat (c_index c))) with (c_index c) in E' by lia. exact E'. }
    apply list_elem_of_lookup_2 in L. cbn [select_loop]. rewrite counts_selected by auto. rewrite F. f_equal. by apply Hpl.
  - assert (filter (λ io : nat * opt, (0 ≤ Z.of_nat io.1 < Z.of_nat (length (c_options c)))%Z) (imap pair (c_options c)) = imap pair (c_options c)) as ->.
    { by apply (filter_range (λ i, i) (c_options c) 0 (length (c_options c))). }
    rewrite loop_many.
    + cbn [app]. assert ((imap pair (c_options c)).*2 = c_options c) as ->.
      { rewrite fmap_imap. transitivity (imap (λ _ x, x) (c_options c)); [by apply imap_ext|]. clear. induction (c_options c) as [|x l IH]; [done|].
        cbn. f_equal. rewrite <- IH at 2. by apply imap_ext. }
      destruct (filter o_selected (c_options c)) as [|x l] eqn:F; [|done]. exfalso.
      assert (o ∈ filter o_selected (c_options c)) as Hin; [|by rewrite F in Hin; apply elem_of_nil in Hin].
      apply list_elem_of_filter. split; [by rewrite So|]. by eapply list_elem_of_lookup_2.
    + intros i x Hin. apply elem_of_lookup_imap_1 in Hin as (j & y & [= -> ->] & Hy).
      destruct (o_selected y) eqn:Sy; [apply counts_selected; [|done]; apply Hpl; by eapply list_elem_of_lookup_2|].
      unfold counts. rewrite Sy. destruct (Z.eqb_spec (Z.of_nat j) (c_index c)) as [Ej|]; [|done]. exfalso.
      rewrite <- Ej, Nat2Z.id in Lo. congruence.
    + intros i x Hin Sx. apply elem_of_lookup_imap_1 in Hin as (j & y & [= -> ->] & Hy).
      apply Hpl; [by eapply list_elem_of_lookup_2|done].
Qed.

(** One control. *)
Lemma field_agrees c :
  plain_field c →
  (if kept fieldset_disabled c then values_of c else []) = map crlf_pair (control_pairs None c).
Proof.
  intros Hp. pose proof Hp as [Hok Htag Hlow Hfile Hfs _]. unfold kept, control_pairs, submitter, checkable. rewrite Hlow, Hfs, orb_false_r.
  destruct (c_name c =s? []) eqn:En; [done|]. destruct (c_disabled c) eqn:Ed; [done|]. cbn [negb andb orb].
  assert (submittable c = true) as ->.
  { unfold submittable. repeat (apply elem_of_cons in Htag as [->|Htag]; [done|]). by apply elem_of_nil in Htag. }
  cbn [andb]. unfold control_values, val_get, is_check. destruct (c_tag c =s? "select"%js) eqn:Et; bools.
  - assert (bool_decide (c_type c ∈ ["submit"%js; "button"%js; "image"%js; "reset"%js; "file"%js]) = false ∧ bool_decide (c_type c ∈ ["checkbox"%js; "radio"%js]) = false
      ∧ (c_type c =s? "radio"%js) = false ∧ (c_type c =s? "checkbox"%js) = false) as (-> & -> & -> & ->)
      by (destruct (co_select _ Hok Et) as ([-> | ->] & _); by vm_compute).
    cbn [negb orb andb]. rewrite orb_true_r, select_get_plain by done.
    destruct (co_select _ Hok Et) as (_ & Hi & Hu). destruct (c_type c =s? "select-one"%js) eqn:Eone; bools.
    + destruct (first_selected_ge (c_options c) 0) as [E|E]; [by apply first_selected_none in E as ->|].
      destruct (single_selected (c_options c) (Z.to_nat (c_index c))) as (o & _ & _ & ->); [lia| |done].
      intros i o' L S. rewrite (Hu Eone i o' L S). lia.
    + destruct (filter o_selected (c_options c)) as [|o l]; [done|]. change (map o_value (o :: l)) with (o_value <$> (o :: l)). rewrite <- list_fmap_compose. by rewrite map_map.
  - cbn [clk_is]. destruct (c_type c =s? "reset"%js) eqn:E1; bools; [by rewrite E1|].
    destruct (c_type c =s? "button"%js) eqn:E2; bools; [by rewrite E2|]. cbn [orb].
    destruct (c_type c =s? "submit"%js) eqn:E3; bools; [by rewrite E3|]. destruct (c_type c =s? "image"%js) eqn:E4; bools; [by rewrite E4|].
    cbn [orb]. rewrite bool_decide_eq_false_2; [|intros Hin; repeat (apply elem_of_cons in Hin as [?|Hin]; [done|]); by apply elem_of_nil in Hin].
    cbn [negb andb]. rewrite (proj2 (jeqb_false _ _) Hfile).
    destruct (c_type c =s? "checkbox"%js) eqn:E5; bools; [rewrite E5; by destruct (c_checked c)|].
    destruct (c_type c =s? "radio"%js) eqn:E6; bools; [rewrite E6; by destruct (c_checked c)|]. cbn [orb].
    rewrite bool_decide_eq_false_2; [by rewrite orb_true_r|]. intros Hin. repeat (apply elem_of_cons in Hin as [?|Hin]; [done|]). by apply elem_of_nil in Hin.
Qed.

(** For a form of ordinary controls that no button submitted, the array that the form plugin
    gathers and the one of [serializeArray] are the same list of names and values, but for the line
    ends, which only the latter normalises. *)
Theorem serializers_agree f :
  Forall plain_field (fm_elements f) → fm_id f = [] → fm_clk f = None →
  serializeArray optDisabled true textContent disabled_attr in_disabled_group has_value_attr fieldset_disabled [MForm (fm_elements f)]
  = map (λ it, crlf_pair (pair_of it)) (formToArray true false f).1.
Proof.
  intros Hf Hid Hclk. rewrite formToArray_items. unfold form_els, image_items. rewrite Hid, Hclk. change ([] =s? []) with true.
  unfold serializeArray. cbn [flat_map]. rewrite app_nil_r.
  transitivity (map (λ it, crlf_pair (pair_of it)) (flat_map (λ el, (element_items true false f el).1) (fm_elements f))).
  - induction Hf as [|c l Hc _ IH]; [done|]. cbn [List.filter flat_map]. rewrite map_app, <- IH, <- map_map, element_pairs, Hclk, <- field_agrees by (done || apply Hc).
    by destruct (kept fieldset_disabled c).
  - destruct (fm_elements f); [done|]. by rewrite app_nil_r.
Qed.
End agree.

(** ** At a concrete form *)

#[local] Abbreviation demo_array :=
  (serializeArray true true o_text (λ _, false) (λ _, false) (λ _, true) (λ _, false) [MForm (fm_elements demo_form)]).

Example serializers_agree_witness :
  demo_array = [("query"%js, "a & b=c"%js); ("type"%js, "x/y"%js)].
Proof.
  refine (eq_trans (serializers_agree true o_text (λ _, false) (λ _, false) (λ _, true) (λ _, false) demo_form _ eq_refl eq_refl) _).
  - assert (∀ c, control_ok c → c ∈ fm_elements demo_form → plain_field o_text (λ _, false) (λ _, false) (λ _, false) c) as H.
    { intros c Hok Hc. repeat (apply elem_of_cons in Hc as [->|Hc]; [split; [exact Hok|apply (bool_decide_eq_true_1 (_ ∈ _)); vm_compute; reflexivity|done..|by repeat constructor]|]).
      by apply elem_of_nil in Hc. }
    repeat apply Forall_cons_2; [apply H; [by apply control_ok_plain|apply list_elem_of_In; cbn; tauto]..| |apply Forall_nil_2].
    apply H; [|apply list_elem_of_In; cbn; tauto]. split; [|by repeat constructor|done|done].
    intros _. split_and!; [by left|done|]. intros _ i o Hi Ho. by destruct i as [|[|i]]; [injection Hi as <-|..].
  - vm_compute. reflexivity.
Defined.

(** The setter: several values of a select with several options, one that it does not have, and a check box. *)
Example val_set_ex :
  let sel := Control 4 "s"%js "select-multiple"%js "select"%js false false false None (-1) [plain_opt "x"%js false; plain_opt "y"%js true; plain_opt "7"%js false] true [] in
  let get := val_get true true o_text (λ _, false) (λ _, false) (λ _, true) in
  let set v := get (val_set true true o_text (λ _, false) (λ _, false) (λ _, true) v sel) in
  (set (VArr [VNum (num_of_Z 7); VStr "x"%js]), set (VStr "z"%js), set VNull,
   c_checked (val_set true true o_text (λ _, false) (λ _, false) (λ _, true) (VArr [VStr "on"%js]) (check_input 2 "all"%js "on"%js false)))
  = (FMany ["x"%js; "7"%js], FNull, FNull, true).
Proof. vm_compute. reflexivity. Qed.

(** A disabled option that is selected is sent by the plugin and not by [serializeArray]. *)
Example disabled_option_sent :
  let sel := select_input 3 "type"%js 0 [Opt "x"%js "x"%js (Some true) true true] in
  (serializeArray true true o_text (λ _, false) (λ _, false) (λ _, true) (λ _, false) [MForm [sel]],
   map pair_of (formToArray true false (Form [sel] [] [] [] None VUndef VUndef)).1)
  = ([], [("type"%js, IVal (VStr "x"%js))]).
Proof. vm_compute. reflexivity. Qed.
