(* ===== verification/JsDate.v ===== *)
(** * Dates of the language

    The days since 1970-01-01 in the proleptic Gregorian calendar, with the year, the month (from 0)
    and the day of the month, as the definition of the language has them for its dates; then the
    dates themselves in a time zone.  The value of a [Date] object is a time in milliseconds, or NaN; its
    fields are those of the local time.  A zone is an interface ([TimeZone]): the local time of a time, and
    the time of a local time.  [ZoneLaws] states what is known of the zones in use: the offset changes by some
    hours at most, and local times that are skipped when it grows are read with the old offset, so they come
    out later. *)

From S2P Require Import Prelude.
#[local] Open Scope Z_scope.

Ltac divlia := Z.to_euclidean_division_equations; lia.

(** ** Years *)

Definition msPerDay : Z := 86400000.
Definition leap (y : Z) : bool := (y mod 4 =? 0) && (negb (y mod 100 =? 0) || (y mod 400 =? 0)).
Definition DaysInYear (y : Z) : Z := if leap y then 366 else 365.
Definition DayFromYear (y : Z) : Z := 365 * (y - 1970) + (y - 1969) / 4 - (y - 1901) / 100 + (y - 1601) / 400.

(** The largest year that begins no later: an estimate from the length of 400 years is off by one year
    at most. *)
Definition YearFromDay (n : Z) : Z :=
  let y := 1970 + n * 400 / 146097 in
  if n <? DayFromYear y then y - 1 else if DayFromYear (y + 1) <=? n then y + 1 else y.

Lemma div_step c d a b : 0 < b -> d = c + 1 -> d mod b = a mod b -> d / b = c / b + (if a mod b =? 0 then 1 else 0).
Proof. intros Hb -> <-. destruct (Z.eqb_spec ((c + 1) mod b) 0); Z.to_euclidean_division_equations; nia. Qed.

Lemma year_length y : DayFromYear (y + 1) = DayFromYear y + DaysInYear y.
Proof.
  unfold DayFromYear.
  rewrite (div_step (y - 1969) (y + 1 - 1969) y 4), (div_step (y - 1901) (y + 1 - 1901) y 100),
    (div_step (y - 1601) (y + 1 - 1601) y 400) by (lia || (rewrite <- (Z_mod_plus_full y (-492)); f_equal; lia)
      || (rewrite <- (Z_mod_plus_full y (-19)); f_equal; lia) || (rewrite <- (Z_mod_plus_full y (-4)); f_equal; lia)).
  assert ((y mod 100 =? 0) = true -> (y mod 4 =? 0) = true) by (rewrite !Z.eqb_eq; divlia).
  assert ((y mod 400 =? 0) = true -> (y mod 100 =? 0) = true) by (rewrite !Z.eqb_eq; divlia).
  unfold DaysInYear, leap. destruct (y mod 4 =? 0), (y mod 100 =? 0), (y mod 400 =? 0); cbn [negb andb orb]; intuition (discriminate || lia).
Qed.

Lemma year_length_pos y : 365 <= DaysInYear y <= 366.
Proof. unfold DaysInYear. destruct (leap y); lia. Qed.

Lemma year_le y y' : y <= y' -> DayFromYear y + 365 * (y' - y) <= DayFromYear y'.
Proof.
  intros H. replace y' with (y + Z.of_nat (Z.to_nat (y' - y))) by lia. generalize (Z.to_nat (y' - y)). intros k.
  replace (y + Z.of_nat k - y) with (Z.of_nat k) by lia. induction k as [|k IH]; [replace (y + Z.of_nat 0) with y by lia; lia|].
  replace (y + Z.of_nat (S k)) with (y + Z.of_nat k + 1) by lia. rewrite year_length.
  pose proof (year_length_pos (y + Z.of_nat k)). lia.
Qed.

(** A year is 146097/400 days long, but for the leap days inside 400 years. *)
Lemma year_bounds k : 146097 * k - 506 <= 400 * DayFromYear (1970 + k) <= 146097 * k + 589.
Proof. unfold DayFromYear. divlia. Qed.

Lemma year_spec n : DayFromYear (YearFromDay n) <= n < DayFromYear (YearFromDay n + 1).
Proof.
  set (q := n * 400 / 146097).
  assert (146097 * q <= 400 * n < 146097 * (q + 1)) as Hq by (unfold q; divlia).
  assert (DayFromYear (1970 + q - 1) <= n < DayFromYear (1970 + q + 2)) as H.
  { pose proof (year_bounds (q - 1)) as H1. pose proof (year_bounds (q + 2)) as H2.
    replace (1970 + q - 1) with (1970 + (q - 1)) by lia. replace (1970 + q + 2) with (1970 + (q + 2)) by lia. lia. }
  unfold YearFromDay. cbv zeta. fold q.
  clearbody q. set (y := 1970 + q) in *.
  destruct (Z.ltb_spec n (DayFromYear y)); [replace (y - 1 + 1) with y by lia; lia|].
  destruct (Z.leb_spec (DayFromYear (y + 1)) n); [replace (y + 1 + 1) with (y + 2) by lia; lia|lia].
Qed.

Lemma year_unique n y : DayFromYear y <= n < DayFromYear (y + 1) -> YearFromDay n = y.
Proof.
  intros H. pose proof (year_spec n) as H'. destruct (Z.lt_trichotomy (YearFromDay n) y) as [Hlt|[?|Hlt]]; [|done|].
  - pose proof (year_le (YearFromDay n + 1) y ltac:(lia)). lia.
  - pose proof (year_le (y + 1) (YearFromDay n) ltac:(lia)). lia.
Qed.

(** ** Months *)

(** The days of a year before a month, and the days of a month. *)
Definition month_starts (l : bool) : list Z :=
  if l then [0; 31; 60; 91; 121; 152; 182; 213; 244; 274; 305; 335]
  else [0; 31; 59; 90; 120; 151; 181; 212; 243; 273; 304; 334].
Definition month_start (l : bool) (m : Z) : Z := default 0 (month_starts l !! Z.to_nat m).
Definition month_days (l : bool) (m : Z) : Z :=
  if m =? 1 then (if l then 29 else 28) else if bool_decide (m ∈ [3; 5; 8; 10]) then 30 else 31.

(** The month of a day of the year: the last that begins no later. *)
Definition month_in_year (l : bool) (d : Z) : Z :=
  Z.of_nat (length (List.filter (fun s => s <=? d) (month_starts l))) - 1.

Definition MonthFromDay (n : Z) : Z :=
  let y := YearFromDay n in month_in_year (leap y) (n - DayFromYear y).
Definition DateFromDay (n : Z) : Z :=
  let y := YearFromDay n in n - DayFromYear y - month_start (leap y) (MonthFromDay n) + 1.
Definition WeekDay (n : Z) : Z := (n + 4) mod 7.

(** The day of a year, a month and a day of the month, which may be beyond their ranges. *)
Definition MakeDay (y m d : Z) : Z :=
  let ym := y + m / 12 in DayFromYear ym + month_start (leap ym) (m mod 12) + d - 1.

(** Years below 100 are of the 20th century for the constructor of dates. *)
Definition MakeFullYear (y : Z) : Z := if (0 <=? y) && (y <=? 99) then 1900 + y else y.

(** Case analysis on a month. *)
Lemma month_cases m : 0 <= m < 12 ->
  m = 0 \/ m = 1 \/ m = 2 \/ m = 3 \/ m = 4 \/ m = 5 \/ m = 6 \/ m = 7 \/ m = 8 \/ m = 9 \/ m = 10 \/ m = 11.
Proof. lia. Qed.
Ltac by_month m :=
  let H := fresh in
  assert (0 <= m < 12) as H by lia; apply month_cases in H;
  repeat (destruct H as [->|H]); [..|subst m].

Lemma january_start l : month_start l 0 = 0.
Proof. by destruct l. Qed.
Lemma last_month_end y : month_start (leap y) 11 + month_days (leap y) 11 = DaysInYear y.
Proof. unfold DaysInYear. by destruct (leap y). Qed.

Lemma month_step l m : 0 <= m < 11 -> month_start l (m + 1) = month_start l m + month_days l m.
Proof. intros H. destruct l; by_month m; reflexivity || lia. Qed.

Lemma month_days_pos l m : 28 <= month_days l m <= 31.
Proof. unfold month_days. destruct (m =? 1); [destruct l; lia|]. case_bool_decide; lia. Qed.

Lemma year_days l m : 0 <= m < 12 -> 0 <= month_start l m /\ month_start l m + month_days l m <= if l then 366 else 365.
Proof. intros H. destruct l; by_month m; vm_compute; split; discriminate. Qed.

(** The month of each day of a year, by inspection of its 366 days. *)
Definition month_ok (l : bool) (d : Z) : bool :=
  let m := month_in_year l d in
  (0 <=? m) && (m <? 12) && (month_start l m <=? d) && (d <? month_start l m + month_days l m).
Lemma month_ok_all l : forallb (fun k => month_ok l (Z.of_nat k)) (seq 0 (if l then 366 else 365)) = true.
Proof. destruct l; vm_compute; reflexivity. Qed.

Lemma month_of_day (l : bool) d : 0 <= d < (if l then 366 else 365) ->
  0 <= month_in_year l d < 12 /\
  month_start l (month_in_year l d) <= d < month_start l (month_in_year l d) + month_days l (month_in_year l d).
Proof.
  intros Hd. pose proof (proj1 (forallb_forall _ _) (month_ok_all l)) as H. specialize (H (Z.to_nat d)). cbv beta in H.
  rewrite Z2Nat.id in H by lia. unfold month_ok in H. rewrite !andb_true_iff, !Z.leb_le, !Z.ltb_lt in H.
  destruct H as [[[? ?] ?] ?]; [apply in_seq; destruct l; lia|done].
Qed.

Lemma month_start_le l m m' : 0 <= m < m' -> m' < 12 -> month_start l m + month_days l m <= month_start l m'.
Proof.
  intros H H'. remember (Z.to_nat (m' - m - 1)) as k eqn:Ek. assert (m' = m + 1 + Z.of_nat k) as -> by lia.
  clear Ek. induction k as [|k IH].
  - replace (m + 1 + Z.of_nat 0) with (m + 1) by lia. rewrite month_step; lia.
  - replace (m + 1 + Z.of_nat (S k)) with (m + 1 + Z.of_nat k + 1) by lia. rewrite (month_step l (m + 1 + Z.of_nat k)) by lia.
    pose proof (month_days_pos l (m + 1 + Z.of_nat k)). lia.
Qed.

Lemma month_in_year_spec l m d :
  0 <= m < 12 -> month_start l m <= d < month_start l m + month_days l m -> month_in_year l d = m.
Proof.
  intros Hm Hd. pose proof (year_days l m Hm) as Hy. destruct (month_of_day l d) as [Hm' Hd']; [lia|].
  destruct (Z.lt_trichotomy (month_in_year l d) m) as [Hlt|[?|Hlt]]; [|done|].
  - pose proof (month_start_le l (month_in_year l d) m). lia.
  - pose proof (month_start_le l m (month_in_year l d)). lia.
Qed.

(** ** Days and their names *)

Definition days_in_month (y m : Z) : Z := month_days (leap y) m.

(** Fields that name a day. *)
Definition valid_date (y m d : Z) : Prop := 0 <= m < 12 /\ 1 <= d <= days_in_month y m.
#[export] Instance valid_date_dec y m d : Decision (valid_date y m d).
Proof. unfold valid_date. apply _. Defined.

Lemma MakeDay_in_year y m d : 0 <= m < 12 -> MakeDay y m d = DayFromYear y + month_start (leap y) m + d - 1.
Proof.
  intros H. unfold MakeDay. cbv zeta. rewrite Z.div_small, Z.mod_small by lia. by replace (y + 0) with y by lia.
Qed.

Lemma MakeDay_shift y m d k : MakeDay y m (d + k) = MakeDay y m d + k.
Proof. unfold MakeDay. lia. Qed.

(** The fields of a day name it, and no other fields do. *)
Lemma fields_of_day n :
  valid_date (YearFromDay n) (MonthFromDay n) (DateFromDay n)
  /\ MakeDay (YearFromDay n) (MonthFromDay n) (DateFromDay n) = n.
Proof.
  pose proof (year_spec n) as H. rewrite year_length in H. unfold DaysInYear in H.
  destruct (month_of_day (leap (YearFromDay n)) (n - DayFromYear (YearFromDay n))) as [Hm Hd]; [lia|].
  unfold valid_date, days_in_month, DateFromDay. cbv zeta.
  change (month_in_year (leap (YearFromDay n)) (n - DayFromYear (YearFromDay n))) with (MonthFromDay n) in *.
  split; [split; lia|]. rewrite MakeDay_in_year by done. lia.
Qed.

Lemma day_of_fields y m d : valid_date y m d ->
  YearFromDay (MakeDay y m d) = y /\ MonthFromDay (MakeDay y m d) = m /\ DateFromDay (MakeDay y m d) = d.
Proof.
  intros [Hm Hd]. unfold days_in_month in Hd. pose proof (year_days (leap y) m Hm) as Hy.
  assert (YearFromDay (MakeDay y m d) = y) as Ey.
  { apply year_unique. rewrite year_length, MakeDay_in_year by done. unfold DaysInYear. lia. }
  assert (MonthFromDay (MakeDay y m d) = m) as Em.
  { unfold MonthFromDay. cbv zeta. rewrite Ey. apply month_in_year_spec; [done|]. rewrite MakeDay_in_year by done. lia. }
  split; [done|]. split; [done|]. unfold DateFromDay. cbv zeta. rewrite Ey, Em, MakeDay_in_year by done. lia.
Qed.

(** A month beyond the year is one of another year. *)
Lemma MakeDay_carry y m d : MakeDay y m d = MakeDay (y + m / 12) (m mod 12) d.
Proof.
  unfold MakeDay. cbv zeta. rewrite (Z.div_small (m mod 12)), Z.mod_mod by (try apply Z.mod_pos_bound; lia).
  by replace (y + m / 12 + 0) with (y + m / 12) by lia.
Qed.

Lemma next_month y m : MakeDay y (m + 1) 1 = MakeDay y m 1 + days_in_month (y + m / 12) (m mod 12).
Proof.
  rewrite (MakeDay_carry y m). set (y' := y + m / 12). set (m' := m mod 12).
  assert (0 <= m' < 12) as Hm' by (apply Z.mod_pos_bound; lia). unfold days_in_month.
  replace (MakeDay y (m + 1) 1) with (MakeDay y' (m' + 1) 1).
  2:{ rewrite (MakeDay_carry y' (m' + 1)), (MakeDay_carry y (m + 1)). f_equal; subst y' m'; divlia. }
  clearbody y' m'. destruct (Z.eq_dec m' 11) as [->|].
  - rewrite (MakeDay_in_year y' 11) by lia. rewrite MakeDay_carry. change ((11 + 1) / 12) with 1. change ((11 + 1) mod 12) with 0.
    rewrite MakeDay_in_year, year_length, january_start by lia. pose proof (last_month_end y'). lia.
  - rewrite !MakeDay_in_year by lia. rewrite month_step by lia. lia.
Qed.

Lemma MakeDay_mono y m d : valid_date y m d -> MakeDay y 0 1 <= MakeDay y m d < MakeDay (y + 1) 0 1.
Proof.
  intros [Hm Hd]. unfold days_in_month in Hd. pose proof (year_days (leap y) m Hm) as Hy.
  rewrite !MakeDay_in_year, !january_start, year_length by lia. unfold DaysInYear. lia.
Qed.

Example date_ex : (fun n => (YearFromDay n, MonthFromDay n, DateFromDay n, WeekDay n)) <$> [0; 11016; 16860; -1; MakeDay 2100 2 0]
  = [(1970, 0, 1, 4); (2000, 1, 29, 2); (2016, 1, 29, 1); (1969, 11, 31, 3); (2100, 1, 28, 0)].
Proof. vm_compute. reflexivity. Qed.

(** ** Dates in a time zone *)

Definition msPerHour : Z := 3600000.

Class TimeZone := { LocalTime : Z -> Z; UTC : Z -> Z }.

(** ** The operations *)

(** The value of a date, and a number read from one: [None] is NaN. *)
Abbreviation jnum := (option Z).

Definition Day (t : Z) : Z := t / msPerDay.
Definition TimeWithinDay (t : Z) : Z := t mod msPerDay.
Definition HourFromTime (t : Z) : Z := (t / msPerHour) mod 24.
Definition TimeClip (t : Z) : jnum := if Z.abs t <=? 8640000000000000 then Some t else None.

Section dates.
Context `{TimeZone}.

(** [new Date(y, m, d)] *)
Definition new_date (y m d : jnum) : jnum :=
  y ← y; m ← m; d ← d; TimeClip (UTC (MakeDay (MakeFullYear y) m d * msPerDay)).

Definition getFullYear (t : jnum) : jnum := (fun t => YearFromDay (Day (LocalTime t))) <$> t.
Definition getMonth (t : jnum) : jnum := (fun t => MonthFromDay (Day (LocalTime t))) <$> t.
Definition getDate (t : jnum) : jnum := (fun t => DateFromDay (Day (LocalTime t))) <$> t.
Definition getDay (t : jnum) : jnum := (fun t => WeekDay (Day (LocalTime t))) <$> t.
Definition getHours (t : jnum) : jnum := (fun t => HourFromTime (LocalTime t)) <$> t.

Definition setHours (h t : jnum) : jnum :=
  t ← t; h ← h; let l := LocalTime t in TimeClip (UTC (Day l * msPerDay + h * msPerHour + l mod msPerHour)).
Definition setDate (d t : jnum) : jnum :=
  t ← t; d ← d; let l := LocalTime t in
  TimeClip (UTC (MakeDay (YearFromDay (Day l)) (MonthFromDay (Day l)) d * msPerDay + TimeWithinDay l)).
Definition setMonth (m t : jnum) : jnum :=
  t ← t; m ← m; let l := LocalTime t in
  TimeClip (UTC (MakeDay (YearFromDay (Day l)) m (DateFromDay (Day l)) * msPerDay + TimeWithinDay l)).
(** [setHours(0); setMinutes(0); setSeconds(0); setMilliseconds(0)], one after the other. *)
Definition set_part (unit size : Z) (t : jnum) : jnum :=
  t ← t; let l := LocalTime t in TimeClip (UTC (l - (l / unit) mod size * unit)).
Definition clear_time (t : jnum) : jnum :=
  set_part 1 1000 (set_part 1000 60 (set_part 60000 60 (setHours (Some 0) t))).

(** The first time of a local day. *)
Definition midnight (n : Z) : Z := UTC (n * msPerDay).
Definition local_day (t : Z) : Z := Day (LocalTime t).

End dates.

(** [a < b] on dates and numbers: false when one is NaN. *)
Definition jnum_lt (a b : jnum) : bool := match a, b with Some a, Some b => a <? b | _, _ => false end.
(** [a === b] on numbers. *)
Definition jnum_eq (a b : jnum) : bool := match a, b with Some a, Some b => a =? b | _, _ => false end.
Definition jnum_map2 (f : Z -> Z -> Z) (a b : jnum) : jnum := a ← a; b ← b; Some (f a b).

(** ** Zones *)

Class ZoneLaws `{TimeZone} := {
  zone_offset t : Z.abs (LocalTime t - t) <= msPerDay;
  zone_spread t t' : Z.abs ((LocalTime t - t) - (LocalTime t' - t')) <= 3 * msPerHour;
  zone_skip x : x <= LocalTime (UTC x) <= x + 3 * msPerHour;
  zone_hours h : LocalTime (UTC (h * msPerHour)) mod msPerHour = 0 }.

(** Days whose times are in the range of dates in every zone. *)
Definition day_in_range (n : Z) : Prop := Z.abs n <= 99999997.

Section laws.
Context `{ZoneLaws}.

Lemma hours_of_day n k : n * msPerDay + k * msPerHour = (n * 24 + k) * msPerHour.
Proof. unfold msPerDay, msPerHour. lia. Qed.

(** A local time early in a day is of that day, when it is skipped too. *)
Lemma early_local n r : 0 <= r <= 12 * msPerHour ->
  n * msPerDay + r <= LocalTime (UTC (n * msPerDay + r)) <= n * msPerDay + r + 3 * msPerHour
  /\ local_day (UTC (n * msPerDay + r)) = n.
Proof.
  intros Hr. pose proof (zone_skip (n * msPerDay + r)) as Hs. split; [done|].
  unfold local_day, Day. revert Hs. generalize (LocalTime (UTC (n * msPerDay + r))). unfold msPerDay, msPerHour in *. intros l Hs. divlia.
Qed.

Lemma local_day_midnight n : local_day (midnight n) = n.
Proof. unfold midnight. rewrite <- (Z.add_0_r (n * msPerDay)). apply early_local. unfold msPerHour. lia. Qed.

Lemma midnight_hours n : exists k, 0 <= k <= 3 /\ LocalTime (midnight n) = n * msPerDay + k * msPerHour.
Proof.
  pose proof (zone_skip (n * msPerDay)) as Hs. pose proof (zone_hours (n * 24)) as Hh.
  replace (n * 24 * msPerHour) with (n * msPerDay) in Hh by (unfold msPerDay, msPerHour; lia).
  exists ((LocalTime (midnight n) - n * msPerDay) / msPerHour). unfold midnight, msPerDay, msPerHour in *. divlia.
Qed.

Lemma midnight_spread n n' : Z.abs (midnight n' - midnight n - (n' - n) * msPerDay) <= 6 * msPerHour.
Proof.
  destruct (midnight_hours n) as (k & Hk & E), (midnight_hours n') as (k' & Hk' & E').
  pose proof (zone_spread (midnight n) (midnight n')). unfold msPerDay, msPerHour in *. lia.
Qed.

Lemma midnight_lt n n' : n < n' <-> midnight n < midnight n'.
Proof.
  pose proof (midnight_spread n n') as Hs. unfold msPerDay, msPerHour in Hs.
  destruct (Z.lt_trichotomy n n') as [|[->|]]; lia.
Qed.
Lemma midnight_le n n' : n <= n' <-> midnight n <= midnight n'.
Proof. pose proof (midnight_lt n' n). lia. Qed.
Lemma midnight_inj n n' : midnight n = midnight n' -> n = n'.
Proof. intros E. pose proof (midnight_le n n'). pose proof (midnight_le n' n). lia. Qed.

(** Local times of days in the range are in the range of dates. *)
Lemma TimeClip_early n r : day_in_range n -> 0 <= r <= 12 * msPerHour ->
  TimeClip (UTC (n * msPerDay + r)) = Some (UTC (n * msPerDay + r)).
Proof.
  intros Hn Hr. unfold TimeClip. destruct (Z.leb_spec (Z.abs (UTC (n * msPerDay + r))) 8640000000000000) as [|Hgt]; [done|exfalso].
  pose proof (zone_skip (n * msPerDay + r)). pose proof (zone_offset (UTC (n * msPerDay + r))).
  unfold day_in_range, msPerDay, msPerHour in *. lia.
Qed.

Lemma TimeClip_midnight n : day_in_range n -> TimeClip (UTC (n * msPerDay)) = Some (midnight n).
Proof. intros Hn. unfold midnight. rewrite <- (Z.add_0_r (n * msPerDay)). apply TimeClip_early; [done|]. unfold msPerHour. lia. Qed.

Lemma getFullYear_midnight n : getFullYear (Some (midnight n)) = Some (YearFromDay n).
Proof. cbn. fold (local_day (midnight n)). by rewrite local_day_midnight. Qed.
Lemma getMonth_midnight n : getMonth (Some (midnight n)) = Some (MonthFromDay n).
Proof. cbn. fold (local_day (midnight n)). by rewrite local_day_midnight. Qed.
Lemma getDate_midnight n : getDate (Some (midnight n)) = Some (DateFromDay n).
Proof. cbn. fold (local_day (midnight n)). by rewrite local_day_midnight. Qed.
Lemma getDay_midnight n : getDay (Some (midnight n)) = Some (WeekDay n).
Proof. cbn. fold (local_day (midnight n)). by rewrite local_day_midnight. Qed.

Lemma MakeDay_same_month n k :
  MakeDay (YearFromDay n) (MonthFromDay n) (DateFromDay n + k) = n + k.
Proof. rewrite MakeDay_shift. by rewrite (proj2 (fields_of_day n)). Qed.

(** Moving a midnight by days ends early in the other day, a whole number of hours in. *)
Lemma setDate_midnight n k : day_in_range (n + k) ->
  exists h, 0 <= h <= 3 /\ setDate (Some (DateFromDay n + k)) (Some (midnight n)) = Some (UTC ((n + k) * msPerDay + h * msPerHour)).
Proof.
  intros Hr. destruct (midnight_hours n) as (h & Hh & E). exists h. split; [done|]. cbn.
  pose proof (local_day_midnight n) as Hd. unfold local_day in Hd. rewrite Hd, MakeDay_same_month.
  replace (TimeWithinDay (LocalTime (midnight n))) with (h * msPerHour).
  { apply TimeClip_early; [done|]. unfold msPerHour in *. lia. }
  rewrite E. unfold TimeWithinDay. rewrite Z.add_comm, Z_mod_plus_full, Z.mod_small; [done|]. unfold msPerDay, msPerHour. lia.
Qed.

End laws.


(** ** Two kinds of zones *)

(** A fixed offset. *)
Definition fixed_zone (off : Z) : TimeZone := {| LocalTime t := t + off; UTC x := x - off |}.

Lemma fixed_zone_laws off : Z.abs off <= msPerDay -> @ZoneLaws (fixed_zone off).
Proof.
  intros H. split; cbn; intros.
  - lia.
  - unfold msPerHour. lia.
  - unfold msPerHour. lia.
  - replace (h * msPerHour - off + off) with (h * msPerHour) by lia. apply Z_mod_mult.
Qed.

(** An offset that grows by an hour at the midnight that begins the day [n]: that midnight is skipped. *)
Definition summer_zone (off n : Z) : TimeZone :=
  {| LocalTime t := if t <? n * msPerDay - off then t + off else t + off + msPerHour;
     UTC x := if x <? n * msPerDay + msPerHour then x - off else x - off - msPerHour |}.

Lemma summer_zone_laws off n : Z.abs off < 23 * msPerHour -> @ZoneLaws (summer_zone off n).
Proof.
  intros Hoff. split; cbn; intros; unfold msPerDay, msPerHour in *;
    repeat match goal with |- context [?a <? ?b] => destruct (Z.ltb_spec a b) end; try lia.
  all: divlia.
Qed.
