(* ===== verification/Cookie.v ===== *)
(** * Cookies (theme/js/jquery.cookie.js)

    Writing, reading and removing cookies.  The browser is an interface ([Browser]): the text of
    [document.cookie], and the assignment of a text to it.  [CookieLaws] states what is known of browsers:
    the text lists the cookies of the page, and a cookie that the browser keeps replaces those of its
    name; which cookies it keeps depends on their attributes, and is up to the browser.  A small browser
    with paths, expiry and secure cookies is an instance. *)

From Stdlib Require Import ZifyBool.
From S2P Require Import Prelude JsString JsObject JsNumber JsValue JsJson JsDate Uri QueryString.

(** ** The browser *)

Class Browser (B : Type) := {
  document_cookie : B → jstring;
  set_document_cookie : jstring → B → B
}.

(** A name or a value that can stand in the text of a cookie. *)
Definition plain (s : jstring) : Prop := (59%N ∉ s) ∧ (61%N ∉ s).

(** The text of a cookie with attributes. *)
Definition cookie_string (n v : jstring) (attrs : list jstring) : jstring :=
  n ++ "="%js ++ v ++ concat (map (λ a, "; "%js ++ a) attrs).

(** [listing]: the names and values of the cookies that the page sees.  [kept b n attrs]: the browser
    [b] keeps a cookie [n] with these attributes, for this page among others, and has no other of the name
    for it.  [dropped b n attrs]: such a cookie has expired, and one of the name is removed. *)
Class CookieLaws (B : Type) `{Browser B} := {
  listing : B → list (jstring * jstring);
  kept : B → jstring → list jstring → Prop;
  dropped : B → jstring → list jstring → Prop;
  cookies_listed b : document_cookie b = join "; "%js (map (λ kv, kv.1 ++ "="%js ++ kv.2) (listing b));
  cookie_kept b n v attrs kv :
    kept b n attrs → plain n → plain v →
    kv ∈ listing (set_document_cookie (cookie_string n v attrs) b) ↔ kv = (n, v) ∨ kv.1 ≠ n ∧ kv ∈ listing b;
  cookie_dropped b n v attrs kv :
    dropped b n attrs → plain n → plain v →
    kv ∈ listing (set_document_cookie (cookie_string n v attrs) b) ↔ kv.1 ≠ n ∧ kv ∈ listing b
}.

(** ** The text of a date *)

Definition two (n : Z) : jstring := (if (n <? 10)%Z then "0"%js else []) ++ str_of_nat (Z.to_nat n).
Definition day_names : list jstring := ["Sun"; "Mon"; "Tue"; "Wed"; "Thu"; "Fri"; "Sat"]%js.
Definition month_names : list jstring :=
  ["Jan"; "Feb"; "Mar"; "Apr"; "May"; "Jun"; "Jul"; "Aug"; "Sep"; "Oct"; "Nov"; "Dec"]%js.

(** [toUTCString] of a date in the years from 1000 to 9999. *)
Definition toUTCString (t : Z) : jstring :=
  let n := Day t in
  let s := (TimeWithinDay t / 1000)%Z in
  default [] (day_names !! Z.to_nat (WeekDay n)) ++ ", "%js ++ two (DateFromDay n) ++ " "%js
  ++ default [] (month_names !! Z.to_nat (MonthFromDay n)) ++ " "%js ++ str_of_nat (Z.to_nat (YearFromDay n)) ++ " "%js
  ++ two (s / 3600) ++ ":"%js ++ two (s / 60 mod 60) ++ ":"%js ++ two (s mod 60) ++ " GMT"%js.

Example utc_text : toUTCString 1456789012345 = "Mon, 29 Feb 2016 23:36:52 GMT"%js.
Proof. vm_compute. reflexivity. Qed.

(** What a write asks of the browser. *)
Record request := Request {
  rq_name : jstring;
  rq_value : jstring;
  rq_expires : option Z;                   (* milliseconds, when given *)
  rq_path : option jstring;
  rq_domain : option jstring;
  rq_secure : bool
}.

(** ** Configuration *)

Record config := Config { cf_raw : bool; cf_json : bool }.

(** The options of a write, after [$.extend({}, config.defaults, options)]. *)
Inductive expiry := NoExpiry | Days (days : Z) | At (t : Z).
Record cookie_options := CookieOptions {
  co_expires : expiry;
  co_path : option jstring;
  co_domain : option jstring;
  co_secure : bool
}.

Section cookie.
Variable cf : config.

(** [encode] and [decode]; [None]: a URIError. *)
Definition encode (s : jstring) : option jstring := if cf_raw cf then Some s else encodeURIComponent s.
Definition decode (s : jstring) : option jstring := if cf_raw cf then Some s else decodeURIComponent s.

Definition stringifyCookieValue (value : val) : option jstring :=
  encode (if cf_json cf then default "undefined"%js (json_stringify value) else to_string value).

(** [s.replace(/\\"/g, '"')] and [s.replace(/\\\\/g, '\\')] *)
Fixpoint unescape (q : N) (s : jstring) : jstring :=
  match s with
  | [] => []
  | c :: t =>
      match t with
      | d :: t' => if ((c =? 92) && (d =? q))%N then q :: unescape q t' else c :: unescape q t
      | [] => [c]
      end
  end.

(** [parseCookieValue(s)]; [VUndef] when the text cannot be decoded or parsed. *)
Definition parseCookieValue (s : jstring) : val :=
  let s :=
    match s with
    | 34%N :: t => unescape 92 (unescape 34 (take (length t - 1) t))
    | _ => s
    end in
  match decodeURIComponent (plus_to_space s) with
  | Some s => if cf_json cf then default VUndef (json_parse s) else VStr s
  | None => VUndef
  end.

(** [read(s, converter)] *)
Definition read (s : jstring) (converter : option (val → val)) : val :=
  let value := if cf_raw cf then VStr s else parseCookieValue s in
  match converter with Some f => f value | None => value end.

(** [$.cookie(key, value, options)]: the request; [None]: a URIError. *)
Definition cookie_write (now : Z) (key : jstring) (value : val) (o : cookie_options) : option request :=
  k ← encode key; v ← stringifyCookieValue value;
  Some (Request k v
    (match co_expires o with
     | NoExpiry => None
     | Days d => Some (now + d * 86400000)%Z
     | At t => Some t
     end)
    (match co_path o with Some [] => None | p => p end)
    (match co_domain o with Some [] => None | d => d end) (co_secure o)).

(** The text assigned to [document.cookie]. *)
Definition cookie_text (r : request) : jstring :=
  rq_name r ++ "="%js ++ rq_value r
  ++ (match rq_expires r with Some t => "; expires="%js ++ toUTCString t | None => [] end)
  ++ (match rq_path r with Some p => "; path="%js ++ p | None => [] end)
  ++ (match rq_domain r with Some d => "; domain="%js ++ d | None => [] end)
  ++ (if rq_secure r then "; secure"%js else []).

(** The name and the text of one entry of [document.cookie]. *)
Definition entry (c : jstring) : option jstring * jstring :=
  match split "="%js c with
  | name :: parts => (decode name, join "="%js parts)
  | [] => (None, [])
  end.

(** The loop of [$.cookie(key, converter)]; [None]: a URIError. *)
Fixpoint find_cookie (key : jstring) (converter : option (val → val)) (cookies : list jstring) : option val :=
  match cookies with
  | [] => Some VUndef
  | c :: rest =>
      let '(name, text) := entry c in
      n ← name;
      if n =s? key then Some (read text converter) else find_cookie key converter rest
  end.

(** The loop of [$.cookie()]: every cookie that can be decoded. *)
Fixpoint all_cookies (cookies : list jstring) (acc : jsobj val) : option (jsobj val) :=
  match cookies with
  | [] => Some acc
  | c :: rest =>
      let '(name, text) := entry c in
      n ← name;
      let v := read text None in
      all_cookies rest (if is_undef v then acc else obj_set n v acc)
  end.

Definition cookie_entries (text : jstring) : list jstring :=
  match text with [] => [] | _ => split "; "%js text end.

Section page.
Context {B : Type} `{Browser B}.

(** [$.cookie(key, value, options)]; [None]: a URIError. *)
Definition cookie_set (now : Z) (key : jstring) (value : val) (o : cookie_options) (b : B) : option B :=
  r ← cookie_write now key value o; Some (set_document_cookie (cookie_text r) b).

(** [$.cookie(key, converter)] for a non-empty key, and [$.cookie()]. *)
Definition cookie_read (key : jstring) (converter : option (val → val)) (b : B) : option val :=
  find_cookie key converter (cookie_entries (document_cookie b)).
Definition cookie_read_all (b : B) : option (jsobj val) :=
  all_cookies (cookie_entries (document_cookie b)) [].

(** [$.removeCookie(key, options)]: a write that has expired, then whether the cookie is
    gone; [None]: a URIError. *)
Definition removeCookie (now : Z) (key : jstring) (o : cookie_options) (b : B) : option (B * bool) :=
  b ← cookie_set now key (VStr []) (CookieOptions (Days (-1)) (co_path o) (co_domain o) (co_secure o)) b;
  v ← cookie_read key None b;
  Some (b, negb (truthy v)).
End page.
End cookie.

(** ** Properties *)

(** An entry of the store as the plugin writes it. *)
Definition written (kv : jstring * jstring) : Prop :=
  ∃ k v, encodeURIComponent k = Some kv.1 ∧ Forall unit16 k ∧
         encodeURIComponent v = Some kv.2 ∧ Forall unit16 v.

Lemma safe_no u e : unreserved u = false → u ≠ 37%N → Forall uri_safe e → u ∉ e.
Proof.
  intros H1 H2 He Hin. rewrite Forall_forall in He. destruct (He u Hin); congruence.
Qed.

Lemma written_safe kv : written kv → Forall uri_safe kv.1 ∧ Forall uri_safe kv.2.
Proof.
  intros (k & v & Ek & Uk & Ev & Uv).
  split; [by destruct (decode_encode _ _ Uk Ek)|by destruct (decode_encode _ _ Uv Ev)].
Qed.

Lemma plain_safe e : Forall uri_safe e → plain e.
Proof. intros He. split; by apply safe_no. Qed.

Lemma entries_written j :
  Forall written j →
  cookie_entries (join "; "%js (map (λ kv, kv.1 ++ "="%js ++ kv.2) j)) = map (λ kv, kv.1 ++ 61%N :: kv.2) j.
Proof.
  intros H. unfold cookie_entries. destruct j as [|kv j]; [done|].
  change (map (λ kv, kv.1 ++ "="%js ++ kv.2) (kv :: j)) with (map (λ kv, kv.1 ++ 61%N :: kv.2) (kv :: j)).
  assert (split "; "%js (join "; "%js (map (λ kv, kv.1 ++ 61%N :: kv.2) (kv :: j)))
    = map (λ kv, kv.1 ++ 61%N :: kv.2) (kv :: j)) as E.
  { apply (split_join 59%N [32%N]); [done|]. apply Forall_fmap. eapply Forall_impl; [exact H|].
    intros x Hx. destruct (written_safe x Hx) as [S1 S2]. cbn.
    rewrite not_elem_of_app, not_elem_of_cons.
    split_and!; [by apply safe_no|done|by apply safe_no]. }
  destruct (join "; "%js (map (λ kv, kv.1 ++ 61%N :: kv.2) (kv :: j))) eqn:Ej; [|done].
  exfalso. destruct kv as [k v]. cbn in Ej. destruct (map _ j); by destruct k.
Qed.

Lemma entry_written cf kv :
  cf_raw cf = false → written kv →
  entry cf (kv.1 ++ 61%N :: kv.2) = (decodeURIComponent kv.1, kv.2).
Proof.
  intros Hr Hw. destruct (written_safe kv Hw) as [S1 S2]. unfold entry, decode. rewrite Hr.
  assert (split "="%js (kv.1 ++ 61%N :: kv.2) = [kv.1; kv.2]) as ->; [|done].
  apply (split_join 61%N [] [kv.1; kv.2]); [done|]. repeat constructor; by apply safe_no.
Qed.


Lemma find_written cf key conv j :
  cf_raw cf = false → Forall written j →
  find_cookie cf key conv (map (λ kv, kv.1 ++ 61%N :: kv.2) j) =
  Some (match list_find (λ kv, decodeURIComponent kv.1 = Some key) j with
        | Some (_, kv) => read cf kv.2 conv | None => VUndef end).
Proof.
  intros Hr H. induction H as [|kv j Hw _ IH]; [done|]. cbn [map find_cookie list_find].
  rewrite entry_written by done. pose proof Hw as (k & v & Ek & Uk & _ & _).
  destruct (decode_encode _ _ Uk Ek) as [-> _]. cbn [mbind option_bind].
  destruct (decide (Some k = Some key)) as [[= ->]|Hne].
  - rewrite jeqb_refl. done.
  - rewrite (proj2 (jeqb_false k key)) by congruence. rewrite IH.
    destruct (list_find _ j) as [[i kv']|]; done.
Qed.

(** ** Writing and reading *)

(** The attributes that the options ask for. *)
Definition attributes (now : Z) (o : cookie_options) : list jstring :=
  (match co_expires o with
   | NoExpiry => []
   | Days d => ["expires="%js ++ toUTCString (now + d * 86400000)]
   | At t => ["expires="%js ++ toUTCString t]
   end)
  ++ (match co_path o with Some ((_ :: _) as p) => ["path="%js ++ p] | _ => [] end)
  ++ (match co_domain o with Some ((_ :: _) as d) => ["domain="%js ++ d] | _ => [] end)
  ++ (if co_secure o then ["secure"%js] else []).

Lemma cookie_text_string cf now key value o r :
  cookie_write cf now key value o = Some r → cookie_text r = cookie_string (rq_name r) (rq_value r) (attributes now o).
Proof.
  unfold cookie_write. destruct (encode cf key) as [k|]; [|done]. cbn [mbind option_bind].
  destruct (stringifyCookieValue cf value) as [v|]; [|done]. cbn [mbind option_bind]. intros [= <-].
  unfold cookie_text, cookie_string, attributes. cbn [rq_name rq_value rq_expires rq_path rq_domain rq_secure]. do 3 f_equal.
  rewrite !map_app, !concat_app. f_equal; [by destruct (co_expires o); cbn; rewrite ?app_nil_r|].
  f_equal; [by destruct (co_path o) as [[|? ?]|]; cbn; rewrite ?app_nil_r|].
  f_equal; [by destruct (co_domain o) as [[|? ?]|]; cbn; rewrite ?app_nil_r|]. by destruct (co_secure o).
Qed.

(** The first cookie of a name among those the plugin wrote. *)
Lemma find_named k e j :
  encodeURIComponent k = Some e → Forall unit16 k → Forall written j →
  list_find (λ kv, decodeURIComponent kv.1 = Some k) j = list_find (λ kv, kv.1 = e) j.
Proof.
  intros He Hu Hj. induction Hj as [|[e' w] j Hw _ IH]; [done|]. cbn [list_find fst].
  destruct Hw as (k' & v & Ek & Uk & _). cbn [fst] in Ek. destruct (decode_encode _ _ Uk Ek) as [-> _].
  rewrite IH. destruct (decide (Some k' = Some k)) as [[= ->]|Hne], (decide (e' = e)) as [->|Hne']; try done.
  - congruence.
  - exfalso. apply Hne. destruct (decode_encode _ _ Uk Ek) as [D _], (decode_encode _ _ Hu He) as [D' _]. congruence.
Qed.

Section correct.
Context {B : Type} `{CookieLaws B}.


(** Removing a cookie the plugin wrote removes exactly those of its name and reports success. *)
Theorem removeCookie_correct cf now key o (b : B) e :
  cf_raw cf = false → cf_json cf = false → Forall unit16 key → Forall written (listing b) →
  encodeURIComponent key = Some e →
  dropped b e (attributes now (CookieOptions (Days (-1)) (co_path o) (co_domain o) (co_secure o))) →
  ∃ b', removeCookie cf now key o b = Some (b', true)
    ∧ ∀ kv, kv ∈ listing b' ↔ kv.1 ≠ e ∧ kv ∈ listing b.
Proof.
  intros Hr Hjs Hk Hj He Hd. unfold removeCookie, cookie_set. set (o' := CookieOptions _ _ _ _) in *.
  destruct (cookie_write cf now key (VStr []) o') as [r|] eqn:Ew.
  2: { unfold cookie_write, stringifyCookieValue, encode in Ew. by rewrite Hr, Hjs, He in Ew. }
  cbn [mbind option_bind]. rewrite (cookie_text_string _ _ _ _ _ _ Ew).
  unfold cookie_write, stringifyCookieValue, encode in Ew. rewrite Hr, Hjs, He in Ew. injection Ew as <-. cbn [rq_name rq_value].
  destruct (decode_encode _ _ Hk He) as [_ Sk].
  pose proof (λ kv, cookie_dropped b e [] _ kv Hd (plain_safe _ Sk) ltac:(split; apply not_elem_of_nil)) as Hl.
  set (b' := set_document_cookie _ b) in *. exists b'. split; [|exact Hl].
  assert (Forall written (listing b')) as Hj'.
  { apply Forall_forall. intros kv [_ Hin]%Hl. rewrite Forall_forall in Hj. by apply Hj. }
  unfold cookie_read. rewrite cookies_listed, entries_written, find_written by done. rewrite (find_named key e) by done.
  assert (list_find (λ kv, kv.1 = e) (listing b') = None) as ->; [|done].
  apply list_find_None, Forall_forall. by intros kv [Hne _]%Hl.
Qed.
End correct.

(** ** A small browser

    The page at one path of one host, perhaps over https; the cookies with their name, value and path. *)

Record visit := Visit {
  v_path : jstring; v_https : bool; v_now : Z;
  v_cookies : list (jstring * jstring * jstring)
}.

(** What precedes the first [u], and what follows it. *)
Fixpoint cut (u : N) (s : jstring) : jstring * jstring :=
  match s with
  | [] => ([], [])
  | c :: s => if (c =? u)%N then ([], s) else let '(a, b) := cut u s in (c :: a, b)
  end.

Lemma cut_spec u a b : u ∉ a → cut u (a ++ u :: b) = (a, b).
Proof.
  induction a as [|c a IH]; intros Hn; cbn; [by rewrite N.eqb_refl|]. apply not_elem_of_cons in Hn as [Hc Hn].
  rewrite (proj2 (N.eqb_neq c u)) by congruence. by rewrite IH.
Qed.
Lemma cut_none u a : u ∉ a → cut u a = (a, []).
Proof.
  induction a as [|c a IH]; intros Hn; [done|]. apply not_elem_of_cons in Hn as [Hc Hn]. cbn.
  rewrite (proj2 (N.eqb_neq c u)) by congruence. by rewrite IH.
Qed.

(** The time of a text such as [Thu, 01 Jan 1970 00:00:00 GMT]. *)
Definition number (s : jstring) : Z := foldl (λ n c, (10 * n + Z.of_N c - 48)%Z) 0%Z s.
Definition parse_utc (s : jstring) : option Z :=
  match split " "%js s with
  | [_; d; m; y; time; _] =>
      '(i, _) ← list_find (λ n, n = m) month_names;
      match split ":"%js time with
      | [h; mi; sec] => Some ((MakeDay (number y) (Z.of_nat i) (number d) * 86400 + number h * 3600 + number mi * 60 + number sec) * 1000)%Z
      | _ => None
      end
  | _ => None
  end.

Definition attribute (name : jstring) (attrs : list jstring) : option jstring :=
  head (omap (λ a, if starts_with name a then Some (drop (length name) a) else None) attrs).

(** The page's path is the path [p] or below it. *)
Definition covers (p path : jstring) : bool :=
  starts_with p path && (bool_decide (p = path) || bool_decide (last p = Some 47%N) || bool_decide (path !! length p = Some 47%N)).

Definition attr_path (b : visit) (attrs : list jstring) : jstring := default (v_path b) (attribute "path="%js attrs).
(** Cookies for other hosts, and secure ones without https, are refused. *)
Definition refused (b : visit) (attrs : list jstring) : bool :=
  bool_decide (is_Some (attribute "domain="%js attrs)) || bool_decide ("secure"%js ∈ attrs) && negb (v_https b).
Definition out_of_date (b : visit) (attrs : list jstring) : bool :=
  match d ← attribute "expires="%js attrs; parse_utc d with Some t => (t <=? v_now b)%Z | None => false end.

Definition visible (b : visit) : list (jstring * jstring) :=
  omap (λ '(n, v, p), if covers p (v_path b) then Some (n, v) else None) (v_cookies b).

Definition visit_set (text : jstring) (b : visit) : visit :=
  let '(nv, rest) := cut 59 text in
  let '(n, v) := cut 61 nv in
  let attrs := match rest with [] => [] | _ => split "; "%js (drop 1 rest) end in
  if refused b attrs then b
  else
    let p := attr_path b attrs in
    let others := filter (λ c, ¬ (c.1.1 = n ∧ c.2 = p)) (v_cookies b) in
    Visit (v_path b) (v_https b) (v_now b) (if out_of_date b attrs then others else others ++ [(n, v, p)]).

#[export] Instance visit_browser : Browser visit := {
  document_cookie b := join "; "%js (map (λ kv, kv.1 ++ "="%js ++ kv.2) (visible b));
  set_document_cookie := visit_set
}.

(** Attributes that are not refused, without separators in them, for a path that covers the page, when
    the page sees no cookie of the name from another path. *)
Definition for_page (b : visit) (n : jstring) (attrs : list jstring) : bool :=
  forallb (λ a, bool_decide (59%N ∉ a)) attrs && negb (refused b attrs)
  && covers (attr_path b attrs) (v_path b)
  && forallb (λ '(n', _, p), negb (bool_decide (n' = n) && covers p (v_path b)) || bool_decide (p = attr_path b attrs)) (v_cookies b).

Lemma attributes_text a attrs :
  concat (map (λ a, "; "%js ++ a) (a :: attrs)) = "; "%js ++ join "; "%js (a :: attrs).
Proof.
  revert a. induction attrs as [|a' attrs IH]; intros a; [cbn; by rewrite app_nil_r|].
  transitivity (("; "%js ++ a) ++ concat (map (λ a, "; "%js ++ a) (a' :: attrs))); [done|]. rewrite IH.
  change (join "; "%js (a :: a' :: attrs)) with (a ++ "; "%js ++ join "; "%js (a' :: attrs)). by rewrite <- app_assoc.
Qed.

Lemma visit_set_string b n v attrs :
  plain n → plain v → for_page b n attrs = true →
  visit_set (cookie_string n v attrs) b
  = Visit (v_path b) (v_https b) (v_now b)
      (let others := filter (λ c, ¬ (c.1.1 = n ∧ c.2 = attr_path b attrs)) (v_cookies b) in
       if out_of_date b attrs then others else others ++ [(n, v, attr_path b attrs)]).
Proof.
  intros [Hn1 Hn2] [Hv1 Hv2] Hp. unfold for_page in Hp. rewrite !andb_true_iff in Hp. destruct Hp as [[[Ha Hr] _] _].
  assert (59%N ∉ n ++ 61%N :: v) as Hnv by (rewrite not_elem_of_app, not_elem_of_cons; by split_and!).
  assert (let '(nv, rest) := cut 59 (cookie_string n v attrs) in
    nv = n ++ 61%N :: v ∧ match rest with [] => [] | _ => split "; "%js (drop 1 rest) end = attrs) as Hcut.
  { destruct attrs as [|a attrs].
    - unfold cookie_string. cbn [map concat]. rewrite app_nil_r. change (n ++ "="%js ++ v) with (n ++ 61%N :: v). by rewrite cut_none.
    - assert (cookie_string n v (a :: attrs) = (n ++ 61%N :: v) ++ 59%N :: 32%N :: join "; "%js (a :: attrs)) as ->.
      { unfold cookie_string. by rewrite attributes_text, <- app_assoc. }
      rewrite cut_spec by done. split; [done|]. apply (split_join 59%N [32%N] (a :: attrs)); [done|].
      rewrite forallb_forall in Ha. apply Forall_forall. intros x Hx.
      apply list_elem_of_In in Hx. exact (bool_decide_eq_true_1 _ (Ha x Hx)). }
  unfold visit_set. destruct (cut 59 _) as [nv rest]. destruct Hcut as [-> ->]. rewrite cut_spec by done.
  apply negb_true_iff in Hr. by rewrite Hr.
Qed.

Lemma visible_set b n v attrs kv :
  plain n → plain v → for_page b n attrs = true →
  kv ∈ visible (visit_set (cookie_string n v attrs) b) ↔
  (out_of_date b attrs = false ∧ kv = (n, v)) ∨ kv.1 ≠ n ∧ kv ∈ visible b.
Proof.
  intros Hn Hv Hp. rewrite visit_set_string by done. unfold visible. cbn [v_path v_cookies].
  unfold for_page in Hp. rewrite !andb_true_iff in Hp. destruct Hp as [[_ Hc] Hs]. rewrite forallb_forall in Hs.
  assert (∀ kv, kv ∈ omap (λ '(n, v, p), if covers p (v_path b) then Some (n, v) else None)
      (filter (λ c, ¬ (c.1.1 = n ∧ c.2 = attr_path b attrs)) (v_cookies b))
    ↔ kv.1 ≠ n ∧ kv ∈ omap (λ '(n, v, p), if covers p (v_path b) then Some (n, v) else None) (v_cookies b)) as Hf.
  { intros [m w]. rewrite !list_elem_of_omap. cbn [fst]. split.
    - intros ([[m' w'] p] & [Hne Hin]%list_elem_of_filter & E). cbn [fst snd] in *. destruct (covers p (v_path b)) eqn:Ep; [|done].
      injection E as <- <-. split; [|exists (m', w', p); by rewrite Ep]. intros ->.
      pose proof (Hs (n, w', p) ltac:(by apply list_elem_of_In)) as H. cbv beta iota in H. rewrite Ep, (bool_decide_eq_true_2 (n = n)) in H by done.
      cbn in H. apply bool_decide_eq_true in H. by apply Hne.
    - intros (Hne & [[m' w'] p] & Hin & E). exists (m', w', p). split; [|done]. apply list_elem_of_filter. split; [|done].
      cbn [fst snd]. intros [-> _]. destruct (covers p (v_path b)); [|done]. by injection E as <- <-. }
  destruct (out_of_date b attrs).
  - rewrite Hf. naive_solver.
  - rewrite omap_app, elem_of_app, Hf. cbn [omap list_omap]. rewrite Hc, list_elem_of_singleton. naive_solver.
Qed.

#[export] Instance visit_laws : CookieLaws visit.
Proof.
  refine {| listing := visible;
            kept b n attrs := for_page b n attrs = true ∧ out_of_date b attrs = false;
            dropped b n attrs := for_page b n attrs = true ∧ out_of_date b attrs = true |}.
  - done.
  - intros b n v attrs kv [Hp Hd] Hn Hv. change (set_document_cookie ?t b) with (visit_set t b). rewrite visible_set by done. rewrite Hd. naive_solver.
  - intros b n v attrs kv [Hp Hd] Hn Hv. change (set_document_cookie ?t b) with (visit_set t b). rewrite visible_set by done. rewrite Hd. naive_solver.
Defined.

(** ** Examples *)


Lemma unit16_check s : forallb (λ u, u <? 65536)%N s = true → Forall unit16 s.
Proof. intros H. rewrite forallb_forall in H. apply Forall_forall. intros u Hu. apply N.ltb_lt, H. by apply list_elem_of_In. Qed.

(** A page under [/app/], in 2016, which sees a cookie and does not see that of another path. *)
Definition demo_visit : visit :=
  Visit "/app/search"%js true 1456789012345 [("other"%js, "1"%js, "/app"%js); ("prefs%3B1"%js, "2"%js, "/elsewhere"%js)].


Lemma removeCookie_correct_witness :
  ∃ b', removeCookie (Config false false) 1456789012345 "other"%js (CookieOptions NoExpiry (Some "/app"%js) None false) demo_visit = Some (b', true)
    ∧ ∀ kv, kv ∈ listing b' ↔ kv.1 ≠ "other"%js ∧ kv ∈ listing demo_visit.
Proof.
  apply (removeCookie_correct (Config false false) 1456789012345 "other"%js
    (CookieOptions NoExpiry (Some "/app"%js) None false) demo_visit "other"%js); [done|done|by apply unit16_check| |done|split; vm_compute; reflexivity].
  repeat constructor. exists "other"%js, "1"%js. split_and!; [done|by apply unit16_check|done|by apply unit16_check].
Defined.

(** A cookie written for another path is not read back. *)
Example other_path_not_read :
  (b ← cookie_set (Config false false) 0 "a"%js (VStr "1"%js) (CookieOptions NoExpiry (Some "/other"%js) None false) demo_visit;
   cookie_read (Config false false) "a"%js None b) = Some VUndef.
Proof. vm_compute. reflexivity. Qed.
