(* ===== verification/TableHelpers.v ===== *)
(** * Table helpers and the frame of the page (theme/js/datatables-helpers.js, sb-admin-2.js)

    Rendering of a cell, the request for the selected rows of a table, and the layout and
    navigation marks of the surrounding page. *)

From S2P Require Import Prelude JsString JsObject JsNumber JsValue JsJson JqClasses Dom.

(** ** Cells *)

Inductive rendered := RStr (s : jstring) | RVal (v : val).

(** [dt_render(data, type)] *)
Definition dt_render (data : val) (type : jstring) : rendered :=
  let title := get_prop data "title"%js in
  let value := get_prop data "value"%js in
  let sort := get_prop data "sort"%js in
  if type =s? "display"%js then
    RStr ("<span "%js
      ++ (if truthy title then "title="%js ++ [34%N] ++ to_string title ++ [34%N] else [])
      ++ ">"%js ++ (if nullish value then [] else to_string value) ++ "</span>"%js)
  else if (type =s? "sort"%js) || (type =s? "type"%js) then
    if truthy sort then
      if is_nan (to_number sort) then RVal sort else RVal (VNum (parse_float (to_string sort)))
    else RVal value
  else RVal value.

(** ** The request for the selected rows *)

(** [options.extra_data], evaluated; [None] when it is left out. *)
Record ajax_options := AjaxOptions {
  ao_extra_data : option (jsobj val);
  ao_dest_attr : option jstring;
  ao_reloader : bool                       (* a reloader is given *)
}.

(** What runs with the answer. *)
Inductive on_answer := ResultAlerts | TableReload | OptionReload.

Record ajax_request := AjaxRequest {
  rq_url : jstring;
  rq_method : jstring;
  rq_content_type : jstring;
  rq_csrf : jstring;                       (* the X-CSRFToken header *)
  rq_data : option jstring;
  rq_success : list on_answer
}.

(** [for (var attr in extra_data) json_data[attr] = extra_data[attr]], then the keys. *)
Definition selection_data (key : jstring) (rows : list val) (o : ajax_options) : jsobj val :=
  let extra_data := default [] (ao_extra_data o) in
  let json_data :=
    foldl (λ acc attr, obj_set attr (default VUndef (obj_get attr extra_data)) acc) []
      (for_in extra_data) in
  obj_set (default "rows"%js (ao_dest_attr o)) (VArr (map (λ row, get_prop row key) rows)) json_data.

(** The action [dt_ajax_selected(key, url, options)] returns, on the data of the selected rows. *)
Definition dt_ajax_selected (csrf key url : jstring) (o : ajax_options) (rows : list val) : ajax_request :=
  AjaxRequest url "POST"%js "application/json"%js csrf
    (json_stringify (VObj (selection_data key rows o)))
    [ResultAlerts; if ao_reloader o then OptionReload else TableReload].

(** ** The frame of the page *)

(** The size of the window, or of the screen when the window tells none. *)
Record viewport := Viewport { vp_inner : Z; vp_screen : Z }.
Definition extent (v : viewport) : Z := if (0 <? vp_inner v)%Z then vp_inner v else vp_screen v.

(** The handler of load and resize: whether the side bar is collapsed, and the minimal height
    the page wrapper is given, if any. *)
Definition layout (width height : viewport) : bool * option Z :=
  let collapsed := (extent width <? 768)%Z in
  let topOffset := if collapsed then 100%Z else 50%Z in
  let h := (extent height - 1 - topOffset)%Z in
  let h := if (h <? 1)%Z then 1%Z else h in
  (collapsed, if (topOffset <? h)%Z then Some h else None).

Definition apply_layout (navbars : list nat) (width height : viewport) (d : dom) : dom :=
  foldl (λ d n, if (layout width height).1 then add_class n "collapse"%js d
                else remove_class n "collapse"%js d) d navbars.

(** The links of the navigation that match the address of the page. *)
Definition link_matches (url href : jstring) : bool := (href =s? url) || starts_with href url.

Definition parents (d : dom) (els : list nat) : list nat :=
  remove_dups (omap (parent d) els).

(** The marks on the navigation; [links]: the elements [ul.nav a] with their [href]. *)
Definition mark_navigation (url : jstring) (links : list (nat * jstring)) (d : dom) : dom :=
  let active := map fst (filter (λ l, link_matches url l.2) links) in
  let d := foldl (λ d l, add_class l "active"%js d) d active in
  let lists := parents d (parents d active) in
  let d := foldl (λ d l, add_class l "in"%js d) d lists in
  let element := parents d lists in
  if existsb (λ e, match d_elems d !! e with Some el => e_tag el =s? "li"%js | None => false end) element
  then foldl (λ d l, add_class l "active"%js d) d element
  else d.

(** ** Properties *)

Lemma selection_get key rows o k :
  NoDup (obj_keys (default [] (ao_extra_data o))) →
  obj_get k (selection_data key rows o) =
    if decide (k = default "rows"%js (ao_dest_attr o))
    then Some (VArr (map (λ row, get_prop row key) rows))
    else obj_get k (default [] (ao_extra_data o)).
Proof.
  intros Hnd. unfold selection_data. cbv zeta. rewrite obj_get_set.
  destruct (decide (default "rows"%js (ao_dest_attr o) = k)) as [->|Hne].
  { by rewrite decide_True. }
  rewrite decide_False by congruence. set (extra := default [] (ao_extra_data o)) in *.
  assert (∀ ks acc, (∀ k, k ∈ ks → k ∈ obj_keys extra) →
    obj_get k (foldl (λ acc attr, obj_set attr (default VUndef (obj_get attr extra)) acc) acc ks)
    = if decide (k ∈ ks) then obj_get k extra else obj_get k acc) as H.
  { clear Hnd. induction ks as [|a ks IH]; intros acc Hks; [done|]. cbn [foldl].
    rewrite IH by (intros; apply Hks; by right). rewrite obj_get_set.
    destruct (decide (k ∈ ks)).
    - by rewrite decide_True by (by right).
    - destruct (decide (a = k)) as [->|].
      + rewrite decide_True by (by left). assert (is_Some (obj_get k extra)) as [v ->]; [|done].
        apply obj_get_keys, Hks. by left.
      + rewrite decide_False; [done|]. intros [->|?]%elem_of_cons; done. }
  rewrite H by (intros; by apply elem_of_for_in).
  destruct (decide (k ∈ for_in extra)) as [|Hn]; [done|]. rewrite elem_of_for_in in Hn.
  destruct (obj_get k extra) eqn:E; [|done]. exfalso. apply Hn, obj_get_keys. by rewrite E.
Qed.

(** The server that parses the body of the request finds, under the destination
    attribute, the key of every selected row in order, and under every other attribute what
    the extra data says. *)
Theorem selected_rows_request csrf key url o rows :
  NoDup (obj_keys (default [] (ao_extra_data o))) →
  json_val (VObj (selection_data key rows o)) →
  let r := dt_ajax_selected csrf key url o rows in
  ∃ data body,
    rq_data r = Some data ∧ json_parse data = Some (VObj body)
    ∧ obj_get (default "rows"%js (ao_dest_attr o)) body = Some (VArr (map (λ row, get_prop row key) rows))
    ∧ (∀ k, k ≠ default "rows"%js (ao_dest_attr o) →
        obj_get k body = obj_get k (default [] (ao_extra_data o)))
    ∧ head (rq_success r) = Some ResultAlerts ∧ rq_csrf r = csrf.
Proof.
  intros Hnd Hj. cbv zeta. destruct (json_text _ Hj) as (s & Hs & _).
  exists s, (selection_data key rows o). split_and!; try done.
  - by apply json_parse_stringify.
  - rewrite selection_get by done. by rewrite decide_True.
  - intros k Hk. rewrite selection_get by done. by rewrite decide_False.
Qed.

Definition demo_rows : list val :=
  [VObj [("name"%js, VStr "disk0"%js); ("size"%js, VNum (num_of_Z 4))];
   VObj [("name"%js, VStr "disk1"%js)]].
Definition demo_ajax : ajax_options := AjaxOptions (Some [("host"%js, VStr "c1"%js)]) (Some "disks"%js) false.

Lemma selected_rows_request_witness :
  ∃ data body, rq_data (dt_ajax_selected "tok"%js "name"%js "/disks"%js demo_ajax demo_rows) = Some data
    ∧ json_parse data = Some (VObj body)
    ∧ obj_get "disks"%js body = Some (VArr [VStr "disk0"%js; VStr "disk1"%js])
    ∧ obj_get "host"%js body = Some (VStr "c1"%js).
Proof.
  destruct (selected_rows_request "tok"%js "name"%js "/disks"%js demo_ajax demo_rows)
    as (data & body & H1 & H2 & H3 & H4 & _).
  - apply (bool_decide_eq_true_1 _). vm_compute. reflexivity.
  - cbn. split_and!; try (by repeat constructor); apply (bool_decide_eq_true_1 _);
      vm_compute; reflexivity.
  - exists data, body. split; [exact H1|]. split; [exact H2|]. split; [exact H3|].
    rewrite H4 by discriminate. reflexivity.
Defined.

(** a cell with a sort key that is not zero, empty or null is ordered by that key, as a
    number when it reads as one and as it is otherwise; a key of zero is ignored in favour of
    the displayed value. *)
Theorem dt_render_sort data type :
  type = "sort"%js ∨ type = "type"%js →
  let sort := get_prop data "sort"%js in
  dt_render data type =
    RVal (if truthy sort
          then if is_nan (to_number sort) then sort else VNum (parse_float (to_string sort))
          else get_prop data "value"%js)
  ∧ (sort = VNum (num_of_Z 0) → dt_render data type = RVal (get_prop data "value"%js)).
Proof.
  intros Ht. cbv zeta. unfold dt_render.
  assert ((type =s? "display"%js) = false ∧ ((type =s? "sort"%js) || (type =s? "type"%js)) = true)
    as [-> ->] by (destruct Ht as [->| ->]; done).
  split; [|intros ->; done]. destruct (truthy _); [|done]. by destruct (is_nan _).
Qed.

Lemma dt_render_sort_witness :
  dt_render (VObj [("value"%js, VStr "now"%js); ("sort"%js, VNum (num_of_Z 0))]) "sort"%js
    = RVal (VStr "now"%js).
Proof.
  exact (proj2 (dt_render_sort (VObj [("value"%js, VStr "now"%js); ("sort"%js, VNum (num_of_Z 0))])
    "sort"%js (or_introl eq_refl)) eq_refl).
Defined.

(** the page wrapper only ever gets a minimal height above its offset, never taller than
    the window less the offset, and the side bar is collapsed exactly below 768 pixels. *)
Theorem layout_bounds width height :
  (layout width height).1 = bool_decide (extent width < 768)%Z
  ∧ ∀ h, (layout width height).2 = Some h →
      (50 < h ≤ extent height - 51)%Z ∧ ((layout width height).1 = true → (100 < h ≤ extent height - 101)%Z).
Proof.
  unfold layout. cbn [fst snd]. split.
  - destruct (Z.ltb_spec (extent width) 768); [by rewrite bool_decide_eq_true_2|
      rewrite bool_decide_eq_false_2; [done|lia]].
  - intros h. destruct (extent width <? 768)%Z; (destruct (Z.ltb_spec (extent height - 1 - 50) 1));
      (destruct (Z.ltb_spec (extent height - 1 - 100) 1));
      repeat (match goal with |- context [Z.ltb ?a ?b] => destruct (Z.ltb_spec a b) end);
      intros [= <-]; split; intros; try discriminate; lia.
Qed.

Lemma layout_bounds_witness :
  layout (Viewport 1024 0) (Viewport 768 0) = (false, Some 717%Z) ∧ (50 < 717 ≤ 717)%Z.
Proof.
  split; [reflexivity|].
  exact (proj1 (proj2 (layout_bounds (Viewport 1024 0) (Viewport 768 0)) 717%Z eq_refl)).
Defined.

(** ** Navigation marks *)

(** Adding classes keeps well-formed class texts and the names they hold. *)
Definition class_grows (d d' : dom) : Prop :=
  (∀ x, is_Some (d_elems d !! x) → is_Some (d_elems d' !! x))
  ∧ ∀ x, class_text (class_of d x) →
      class_text (class_of d' x) ∧ ∀ c, c ∈ words (class_of d x) → c ∈ words (class_of d' x).

#[export] Instance class_grows_preorder : PreOrder class_grows.
Proof.
  split; [by split|]. intros d1 d2 d3 [E1 H1] [E2 H2]. split; [auto|].
  intros x Hx. destruct (H1 x Hx) as [T K]. destruct (H2 x T) as [T' K']. auto.
Qed.

Lemma add_name_elem c l cs : c ∈ foldl add_name l cs ↔ c ∈ l ∨ c ∈ cs.
Proof.
  revert l. induction cs as [|x cs IH]; intros l; [rewrite elem_of_nil; tauto|]. cbn [foldl].
  rewrite IH, elem_of_cons. unfold add_name. case_bool_decide; [naive_solver|].
  rewrite elem_of_app, list_elem_of_singleton. tauto.
Qed.

Lemma class_of_add y v d x :
  class_of (add_class y v d) x =
  if decide (y = x ∧ is_Some (d_elems d !! x)) then addClass v (class_of d x) else class_of d x.
Proof.
  unfold class_of, add_class. simpl. destruct (decide (y = x)) as [->|Hne].
  - rewrite lookup_alter_eq. destruct (d_elems d !! x); simpl.
    + by rewrite decide_True by eauto.
    + rewrite decide_False; [done|]. by intros [_ []].
  - rewrite lookup_alter_ne by done. by rewrite decide_False by naive_solver.
Qed.

Lemma add_class_grows y v d : class_grows d (add_class y v d).
Proof.
  split; [intros x; by unfold add_class; rewrite elems_upd|]. intros x Hx. rewrite class_of_add.
  destruct (decide _); [|done]. destruct (addClass_names v _ Hx) as [E T]. split; [done|].
  intros c Hc. rewrite E. apply add_name_elem. by left.
Qed.

Lemma add_classes_grow v l d : class_grows d (foldl (λ d y, add_class y v d) d l).
Proof.
  revert d. induction l as [|y l IH]; intros d; [reflexivity|]. cbn [foldl].
  etransitivity; [apply add_class_grows|apply IH].
Qed.

Lemma add_classes_in c v l d x :
  c ∈ words v → x ∈ l → is_Some (d_elems d !! x) → class_text (class_of d x) →
  c ∈ words (class_of (foldl (λ d y, add_class y v d) d l) x).
Proof.
  intros Hc Hx Hi Ht. revert d Hi Ht. induction l as [|y l IH]; intros d Hi Ht; [by inversion Hx|].
  cbn [foldl]. destruct (add_class_grows y v d) as [G1 G2]. destruct (G2 x Ht) as [T _].
  apply elem_of_cons in Hx as [<-|Hx]; [|by apply IH; [|apply G1|]].
  apply (proj2 (add_classes_grow v l _) x T). rewrite class_of_add, decide_True by done.
  rewrite (proj1 (addClass_names v _ Ht)). apply add_name_elem. by right.
Qed.

(** every link of the navigation whose address is that of the page, or a prefix of it, is
    marked active, and the list two levels above it is opened; a link without an address is
    always among them; no class is removed anywhere. *)
Theorem mark_navigation_correct url links d id href :
  (id, href) ∈ links → link_matches url href = true →
  is_Some (d_elems d !! id) → dom_wf d → (∀ x, class_text (class_of d x)) →
  let d' := mark_navigation url links d in
  "active"%js ∈ words (class_of d' id)
  ∧ (∀ p l, parent d id = Some p → parent d p = Some l → "in"%js ∈ words (class_of d' l))
  ∧ (∀ x c, c ∈ words (class_of d x) → c ∈ words (class_of d' x))
  ∧ link_matches url [] = true.
Proof.
  intros Hin Hm Hi Hd Ht. cbv zeta. unfold mark_navigation.
  set (active := map fst _). set (d1 := foldl _ d active).
  assert (class_grows d d1) as G1 by apply add_classes_grow.
  assert (∀ x, parent d1 x = parent d x) as Pe.
  { intros x. unfold d1. clear. revert d. induction active as [|y l IH]; intros d; [done|].
    cbn [foldl]. rewrite IH. by apply parent_local. }
  set (lists := parents d1 (parents d1 active)). set (d2 := foldl _ d1 lists).
  assert (class_grows d1 d2) as G2 by apply add_classes_grow.
  match goal with |- context [class_of ?x id] => assert (class_grows d2 x) as G3 by
    (match goal with |- class_grows _ (if ?b then _ else _) => destruct b end;
     [apply add_classes_grow|reflexivity]); revert G3; generalize x end.
  intros d3 G3. assert (class_grows d1 d3) as G13 by (by transitivity d2).
  assert (id ∈ active) as Ha.
  { unfold active. apply list_elem_of_fmap. exists (id, href). split; [done|].
    apply list_elem_of_filter. split; [by apply Is_true_true|done]. }
  split_and!.
  - destruct (proj2 G13 id) as [_ K]; [by apply G1|]. apply K.
    by apply (add_classes_in "active"%js "active"%js); [left|..].
  - intros p l Hp Hl. destruct (proj2 G3 l) as [_ K]; [by apply G2, G1|]. apply K.
    apply (add_classes_in "in"%js "in"%js); [by left| | |by apply G1].
    + unfold lists, parents. apply elem_of_remove_dups, list_elem_of_omap. exists p.
      split; [|by rewrite Pe]. apply elem_of_remove_dups, list_elem_of_omap. exists id.
      split; [done|]. by rewrite Pe.
    + apply G1, (kids_is_Some d l (KElem p)). by apply (wf_parent _ Hd).
  - intros x c Hc. destruct (proj2 G1 x (Ht x)) as [T K]. by apply (proj2 G13 x T), K.
  - unfold link_matches. by rewrite orb_true_r.
Qed.

(** A list of one entry holding a link. *)
Definition nav_dom : dom :=
  Dom {[0 := Elem "ul"%js [] ∅ [KElem 1] None true; 1 := Elem "li"%js [] ∅ [KElem 2] (Some 0) true;
        2 := Elem "a"%js [] ∅ [] (Some 1) true]} 3.

Lemma nav_dom_lookup x e :
  d_elems nav_dom !! x = Some e →
  x = 0 ∧ e = Elem "ul"%js [] ∅ [KElem 1] None true
  ∨ x = 1 ∧ e = Elem "li"%js [] ∅ [KElem 2] (Some 0) true
  ∨ x = 2 ∧ e = Elem "a"%js [] ∅ [] (Some 1) true.
Proof.
  unfold nav_dom. cbn [d_elems]. rewrite !lookup_insert_Some, lookup_singleton_Some. naive_solver.
Qed.

Lemma nav_dom_wf : dom_wf nav_dom.
Proof.
  split.
  - intros p c. unfold kids, parent. split; intros H.
    + destruct (d_elems nav_dom !! p) as [e|] eqn:E; [|by inversion H].
      apply nav_dom_lookup in E as [[-> ->]|[[-> ->]|[-> ->]]]; cbn in H;
        [apply list_elem_of_singleton in H|apply list_elem_of_singleton in H|by inversion H];
        injection H as ->; reflexivity.
    + destruct (d_elems nav_dom !! c) as [e|] eqn:E; [|done].
      apply nav_dom_lookup in E as [[-> ->]|[[-> ->]|[-> ->]]]; cbn in H; [done|..];
        injection H as <-; by left.
  - intros p. unfold kids. destruct (d_elems nav_dom !! p) as [e|] eqn:E; [|constructor].
    apply nav_dom_lookup in E as [[-> ->]|[[-> ->]|[-> ->]]]; cbn; repeat constructor; set_solver.
  - intros id H. destruct (d_elems nav_dom !! id) as [e|] eqn:E; [|done].
    cbn in H. apply nav_dom_lookup in E as [[-> _]|[[-> _]|[-> _]]]; lia.
Qed.

Lemma mark_navigation_correct_witness :
  "active"%js ∈ words (class_of (mark_navigation "/a/b"%js [(2, "/a"%js)] nav_dom) 2)
  ∧ "in"%js ∈ words (class_of (mark_navigation "/a/b"%js [(2, "/a"%js)] nav_dom) 0).
Proof.
  destruct (mark_navigation_correct "/a/b"%js [(2, "/a"%js)] nav_dom 2 "/a"%js) as (H1 & H2 & _).
  - by left.
  - reflexivity.
  - by eexists.
  - apply nav_dom_wf.
  - intros x. unfold class_of. destruct (d_elems nav_dom !! x) as [e|] eqn:E; [|constructor].
    apply nav_dom_lookup in E as [[_ ->]|[[_ ->]|[_ ->]]]; constructor.
  - split; [exact H1|]. exact (H2 1 0 eq_refl eq_refl).
Defined.
