(* ===== verification/JqCallbacks.v ===== *)
(** * Callback lists and deferreds (jquery/src/callbacks.js, deferred.js)

    A world holds several callback lists.  A callback is a function of the page, which may
    operate on the lists while they fire, or one of the three functions a deferred installs.
    [run] executes the operations; it is fuelled because callbacks can re-enter for ever. *)

From S2P Require Import Prelude.

(** The context and arguments of a call, identified. *)
Abbreviation data := nat.

Inductive dstate := Pending | Resolved | Rejected.

(** A callback: a function of the page, or [state = stateString], [list.disable] and
    [list.lock] of a deferred. *)
Inductive callback :=
  | CbUser (f : nat)
  | CbState (s : dstate)
  | CbDisable (l : nat)
  | CbLock (l : nat).

#[export] Instance dstate_eq_dec : EqDecision dstate.
Proof. solve_decision. Defined.
#[export] Instance callback_eq_dec : EqDecision callback.
Proof. solve_decision. Defined.

(** The options of a list. *)
Record flags := Flags { once : bool; memory_opt : bool; unique : bool; stopOnFalse : bool }.

Record cblist := CbList {
  cl_opts : flags;
  cl_memory : option data;                 (* None: undefined or false *)
  cl_fired : bool;
  cl_firing : bool;
  cl_start : nat;                          (* firingStart || 0 *)
  cl_length : Z;                           (* firingLength *)
  cl_index : Z;                            (* firingIndex *)
  cl_list : option (list callback);        (* None: undefined *)
  cl_stack : option (list data)            (* None: undefined or false *)
}.

Definition with_list (ls : option (list callback)) (c : cblist) : cblist :=
  CbList (cl_opts c) (cl_memory c) (cl_fired c) (cl_firing c) (cl_start c) (cl_length c) (cl_index c)
    ls (cl_stack c).
Definition with_memory (m : option data) (c : cblist) : cblist :=
  CbList (cl_opts c) m (cl_fired c) (cl_firing c) (cl_start c) (cl_length c) (cl_index c)
    (cl_list c) (cl_stack c).
Definition with_stack (s : option (list data)) (c : cblist) : cblist :=
  CbList (cl_opts c) (cl_memory c) (cl_fired c) (cl_firing c) (cl_start c) (cl_length c) (cl_index c)
    (cl_list c) s.
Definition with_loop (firing : bool) (len idx : Z) (c : cblist) : cblist :=
  CbList (cl_opts c) (cl_memory c) (cl_fired c) firing (cl_start c) len idx (cl_list c) (cl_stack c).
Definition with_start (n : nat) (c : cblist) : cblist :=
  CbList (cl_opts c) (cl_memory c) (cl_fired c) (cl_firing c) n (cl_length c) (cl_index c)
    (cl_list c) (cl_stack c).
Definition with_fired (c : cblist) : cblist :=
  CbList (cl_opts c) (cl_memory c) true (cl_firing c) (cl_start c) (cl_length c) (cl_index c)
    (cl_list c) (cl_stack c).

(** [jQuery.Callbacks(options)] *)
Definition Callbacks (o : flags) : cblist :=
  CbList o None false false 0 0 0 (Some []) (if once o then None else Some []).

(** ** Operations that call nothing *)

(** [createOptions]: the flags of a string of options are its words. *)
Definition createOptions (ws : list jstring) : flags :=
  Flags (bool_decide ("once"%js ∈ ws)) (bool_decide ("memory"%js ∈ ws))
    (bool_decide ("unique"%js ∈ ws)) (bool_decide ("stopOnFalse"%js ∈ ws)).

Definition has (c : cblist) (f : callback) : bool :=
  match cl_list c with Some l => bool_decide (f ∈ l) | None => false end.

(** The inner [add]: the callbacks in order, each once when the list is unique. *)
Fixpoint push_all (uniq : bool) (fs : list callback) (l : list callback) : list callback :=
  match fs with
  | [] => l
  | f :: fs => push_all uniq fs (if uniq && bool_decide (f ∈ l) then l else l ++ [f])
  end.

(** The [while] loop of [remove] for one argument: every occurrence goes, and the indexes of a
    running loop follow. *)
Fixpoint remove_go (fuel : nat) (f : callback) (from : nat) (c : cblist) : cblist :=
  match fuel with
  | O => c
  | S n =>
      match cl_list c with
      | Some l =>
          match list_find (λ g, g = f) (drop from l) with
          | Some (k, _) =>
              let i := from + k in
              let c' := with_list (Some (delete i l)) c in
              let c' :=
                if cl_firing c then
                  with_loop true
                    (if (Z.of_nat i <=? cl_length c)%Z then cl_length c - 1 else cl_length c)%Z
                    (if (Z.of_nat i <=? cl_index c)%Z then cl_index c - 1 else cl_index c)%Z c'
                else c' in
              remove_go n f i c'
          | None => c
          end
      | None => c
      end
  end.
Definition remove_one (c : cblist) (f : callback) : cblist :=
  match cl_list c with Some l => remove_go (S (length l)) f 0 c | None => c end.
Definition remove (fs : list callback) (c : cblist) : cblist := foldl remove_one c fs.

Definition empty (c : cblist) : cblist := with_list (Some []) (with_loop (cl_firing c) 0 (cl_index c) c).
Definition disable (c : cblist) : cblist := with_list None (with_stack None (with_memory None c)).
Definition lock (c : cblist) : cblist :=
  let c := with_stack None c in
  match cl_memory c with None => disable c | Some _ => c end.

(** ** The world *)

Record world := World {
  w_lists : list cblist;
  w_state : dstate;                        (* the variable [state] of a deferred *)
  w_trace : list (nat * data)              (* the calls of the page's functions, oldest first *)
}.

Definition get (l : nat) (w : world) : cblist :=
  default (Callbacks (Flags false false false false)) (w_lists w !! l).
Definition put (l : nat) (c : cblist) (w : world) : world :=
  World (<[l := c]> (w_lists w)) (w_state w) (w_trace w).
Definition upd (l : nat) (f : cblist → cblist) (w : world) : world := put l (f (get l w)) w.
Definition log (f : nat) (d : data) (w : world) : world :=
  World (w_lists w) (w_state w) (w_trace w ++ [(f, d)]).
Definition set_state (s : dstate) (w : world) : world := World (w_lists w) s (w_trace w).

(** What a function of the page does with the lists. *)
Inductive op :=
  | OAdd (l : nat) (fs : list callback)
  | ORemove (l : nat) (fs : list callback)
  | OEmpty (l : nat)
  | ODisable (l : nat)
  | OLock (l : nat)
  | OFire (l : nat) (d : data).

Inductive job :=
  | JFire (l : nat) (d : data)             (* fire(data) *)
  | JLoop (l : nat) (d : data)             (* the for loop of fire, from firingIndex on *)
  | JOps (ops : list op).

Inductive res := Done (w : world) | Crash | OutOfFuel.

Section run.
(** The page's functions: what each does with the lists when it is called, and whether it
    returns false. *)
Variable body : nat → data → list op * bool.

(** The effect of one callback on the world, and the operations it goes on with. *)
Definition call (f : callback) (d : data) (w : world) : world * list op * bool :=
  match f with
  | CbUser n => let '(ops, ret) := body n d in (log n d w, ops, ret)
  | CbState s => (set_state s w, [], false)
  | CbDisable l => (upd l disable w, [], false)
  | CbLock l => (upd l lock w, [], false)
  end.

(** Starting [fire(data)]. *)
Definition fire_start (d : data) (c : cblist) : cblist :=
  let c := with_fired (with_memory (if memory_opt (cl_opts c) then Some d else None) c) in
  let len := match cl_list c with Some l => Z.of_nat (length l) | None => 0%Z end in
  with_start 0 (with_loop true len (Z.of_nat (cl_start c)) c).

(** After the loop: the next fire of the stack, if any. *)
Definition fire_end (l : nat) (w : world) : world * option data :=
  let c := get l w in
  let c := with_loop false (cl_length c) (cl_index c) c in
  match cl_list c with
  | None => (put l c w, None)
  | Some _ =>
      match cl_stack c with
      | Some (d :: rest) => (put l (with_stack (Some rest) c) w, Some d)
      | Some [] => (put l c w, None)
      | None =>
          match cl_memory c with
          | Some _ => (put l (with_list (Some []) c) w, None)
          | None => (put l (disable c) w, None)
          end
      end
  end.

(** [fireWith(data)]: queue the fire, start it, or nothing. *)
Definition fireWith (l : nat) (d : data) (w : world) : world * option (nat * data) :=
  let c := get l w in
  match cl_list c, cl_stack c with
  | Some _, Some st =>
      if cl_firing c then (put l (with_stack (Some (st ++ [d])) c) w, None) else (w, Some (l, d))
  | Some _, None => if cl_fired c then (w, None) else (w, Some (l, d))
  | None, _ => (w, None)
  end.

(** One operation: the new world and the fire it starts, if any. *)
Definition op_start (o : op) (w : world) : world * option (nat * data) :=
  match o with
  | OAdd l fs =>
      let c := get l w in
      match cl_list c with
      | None => (w, None)
      | Some ls =>
          let ls' := push_all (unique (cl_opts c)) fs ls in
          let c' := with_list (Some ls') c in
          if cl_firing c then
            (put l (with_loop true (Z.of_nat (length ls')) (cl_index c) c') w, None)
          else match cl_memory c with
               | Some d => (put l (with_start (length ls) c') w, Some (l, d))
               | None => (put l c' w, None)
               end
      end
  | ORemove l fs => (upd l (remove fs) w, None)
  | OEmpty l => (upd l empty w, None)
  | ODisable l => (upd l disable w, None)
  | OLock l => (upd l lock w, None)
  | OFire l d => fireWith l d w
  end.

Fixpoint run (fuel : nat) (j : job) (w : world) : res :=
  match fuel with
  | O => OutOfFuel
  | S n =>
      match j with
      | JFire l d => run n (JLoop l d) (upd l (fire_start d) w)
      | JLoop l d =>
          let c := get l w in
          let stop w :=
            let '(w, next) := fire_end l w in
            match next with Some d => run n (JFire l d) w | None => Done w end in
          match cl_list c with
          | None => stop w
          | Some ls =>
              if (cl_index c <? cl_length c)%Z then
                match (if (cl_index c <? 0)%Z then None else ls !! Z.to_nat (cl_index c)) with
                | None => Crash
                | Some f =>
                    let '(w, ops, ret) := call f d w in
                    match run n (JOps ops) w with
                    | Done w =>
                        if ret && stopOnFalse (cl_opts (get l w)) then stop (upd l (with_memory None) w)
                        else
                          let c := get l w in
                          run n (JLoop l d) (put l (with_loop (cl_firing c) (cl_length c) (cl_index c + 1) c) w)
                    | r => r
                    end
                end
              else stop w
          end
      | JOps [] => Done w
      | JOps (o :: ops) =>
          let '(w, start) := op_start o w in
          match start with
          | None => run n (JOps ops) w
          | Some (l, d) =>
              match run n (JFire l d) w with
              | Done w => run n (JOps ops) w
              | r => r
              end
          end
      end
  end.
End run.

(** ** Deferreds *)

Definition once_memory : flags := Flags true true false false.
Definition only_memory : flags := Flags false true false false.

(** The lists 0, 1 and 2 of a new deferred: done, fail and progress, with what the constructor
    adds to the first two. *)
Definition settle_callbacks (s : dstate) (other : nat) : list callback := [CbState s; CbDisable other; CbLock 2].
Definition Deferred : world :=
  World
    [with_list (Some (settle_callbacks Resolved 1)) (Callbacks once_memory);
     with_list (Some (settle_callbacks Rejected 0)) (Callbacks once_memory);
     Callbacks only_memory] Pending [].

Definition done (f : nat) : op := OAdd 0 [CbUser f].
Definition fail (f : nat) : op := OAdd 1 [CbUser f].
Definition progress (f : nat) : op := OAdd 2 [CbUser f].
Definition always (f : nat) : list op := [done f; fail f].
Definition resolve (d : data) : op := OFire 0 d.
Definition reject (d : data) : op := OFire 1 d.
Definition notify (d : data) : op := OFire 2 d.

(** Function 7 adds a handler while the deferred resolves; it runs in the same batch. *)
Example deferred_ex :
  match run (λ f d, if Nat.eqb f 7 then ([done 8; reject 5], false) else ([], false)) 100
          (JOps [done 7; fail 9; resolve 3; done 10; resolve 4]) Deferred with
  | Done w => Some (w_state w, w_trace w)
  | _ => None
  end = Some (Resolved, [(7, 3); (8, 3); (10, 3)]).
Proof. vm_compute. reflexivity. Qed.
