(* ===== verification/JqCallbacksTheorems.v ===== *)
(** * Correctness of callback lists and deferreds

    Firing never runs off its list, whatever the callbacks do to the lists meanwhile; a
    deferred settles once; handlers run in order, each once. *)

From S2P Require Import Prelude JqCallbacks.

(** ** Lists in a world *)

Lemma get_put l l' c w :
  get l' (put l c w) = if decide (l = l' ∧ l < length (w_lists w)) then c else get l' w.
Proof.
  unfold get, put. cbn [w_lists]. destruct (decide (l = l')) as [->|Hne].
  - destruct (decide (l' < length (w_lists w))) as [H|H].
    + rewrite decide_True by done. by rewrite list_lookup_insert_eq.
    + rewrite decide_False by tauto. rewrite list_insert_ge by lia. done.
  - rewrite decide_False by tauto. by rewrite list_lookup_insert_ne.
Qed.

Lemma get_put_ne l l' c w : l ≠ l' → get l' (put l c w) = get l' w.
Proof. intros H. rewrite get_put. by rewrite decide_False by tauto. Qed.

(** A list in good order: while it fires, it counts as fired, the index is at least -1 and
    [firingLength] is its length. *)
Definition list_ok (c : cblist) : Prop :=
  cl_firing c = true →
    (cl_fired c = true ∧ -1 ≤ cl_index c)%Z ∧ ∀ ls, cl_list c = Some ls → cl_length c = Z.of_nat (length ls).

Definition world_ok (w : world) : Prop := ∀ l, list_ok (get l w).
Definition same_firing (w w' : world) : Prop := ∀ l, cl_firing (get l w') = cl_firing (get l w).

Lemma list_ok_default o : list_ok (Callbacks o).
Proof. intros H. done. Qed.
Lemma list_ok_idle c : cl_firing c = false → list_ok c.
Proof. intros H H'. congruence. Qed.

Lemma world_ok_put l c w : world_ok w → list_ok c → world_ok (put l c w).
Proof. intros Hw Hc l'. rewrite get_put. case_decide; [done|apply Hw]. Qed.

Lemma same_firing_put l c w : cl_firing c = cl_firing (get l w) → same_firing w (put l c w).
Proof. intros H l'. rewrite get_put. case_decide as E; [|done]. by destruct E as [<- _]. Qed.

#[export] Instance same_firing_preorder : PreOrder same_firing.
Proof. split; [by intros w l|]. intros w1 w2 w3 H1 H2 l. by rewrite H2, H1. Qed.

(** What every operation on one list keeps. *)
Definition keeps (f : cblist → cblist) : Prop :=
  ∀ c, list_ok c → list_ok (f c) ∧ cl_firing (f c) = cl_firing c.

Lemma upd_ok l f w : keeps f → world_ok w → world_ok (upd l f w) ∧ same_firing w (upd l f w).
Proof.
  intros Hf Hw. destruct (Hf _ (Hw l)). split; [by apply world_ok_put|by apply same_firing_put].
Qed.

Lemma remove_go_keeps n f from : keeps (remove_go n f from).
Proof.
  revert from. induction n as [|n IH]; intros from c Hc; [done|]. cbn [remove_go].
  destruct (cl_list c) as [l|] eqn:El; [|done].
  destruct (list_find _ (drop from l)) as [[k g]|] eqn:Ef; [|done].
  apply list_find_Some in Ef as (Hk & _ & _). rewrite lookup_drop in Hk.
  set (i := from + k) in *. assert (i < length l) as Hi by by eapply lookup_lt_Some.
  cbv zeta. match goal with |- list_ok (remove_go _ _ _ ?x) ∧ _ =>
    assert (list_ok x ∧ cl_firing x = cl_firing c) as [Hx Fx] end.
  { destruct (cl_firing c) eqn:Fc; [|by split; [intros Hf; cbn in *; congruence|]].
    split; [|done]. intros _. destruct (Hc Fc) as [H1 H2]. specialize (H2 l El). cbn.
    assert (length (delete i l) = length l - 1) as Ed.
    { assert (is_Some (l !! i)) as [? Hs] by by apply lookup_lt_is_Some.
      rewrite length_delete by done. lia. }
    split; [split; [apply H1|destruct (Z.leb_spec (Z.of_nat i) (cl_index c)); lia]|].
    intros ls [= <-]. destruct (Z.leb_spec (Z.of_nat i) (cl_length c)); lia. }
  destruct (IH i _ Hx) as [H1 H2]. split; [done|congruence].
Qed.

Lemma remove_keeps fs : keeps (remove fs).
Proof.
  unfold remove. induction fs as [|f fs IH]; intros c Hc; [done|]. cbn [foldl].
  assert (list_ok (remove_one c f) ∧ cl_firing (remove_one c f) = cl_firing c) as [H1 H2].
  { unfold remove_one. destruct (cl_list c); [by apply remove_go_keeps|done]. }
  destruct (IH _ H1) as [H3 H4]. split; [done|congruence].
Qed.

Lemma empty_keeps : keeps empty.
Proof.
  intros c H. split; [|done]. intros Hf. cbn in *. destruct (H Hf) as [H1 _].
  split; [done|]. by intros ls [= <-].
Qed.
Lemma disable_keeps : keeps disable.
Proof. intros c H. split; [|done]. intros Hf. cbn in *. destruct (H Hf). by split. Qed.
Lemma lock_keeps : keeps lock.
Proof.
  intros c H. unfold lock. cbv zeta. cbn [cl_memory with_stack].
  destruct (cl_memory c); [done|]. by apply (disable_keeps (with_stack None c)).
Qed.

(** An operation keeps the order; a fire it starts is of a list that is not firing. *)
Lemma op_start_ok o w w' start :
  op_start o w = (w', start) → world_ok w →
  world_ok w' ∧ same_firing w w'
  ∧ ∀ l d, start = Some (l, d) → cl_firing (get l w') = false.
Proof.
  intros H Hw. destruct o as [l fs|l fs|l|l|l|l d]; cbn [op_start] in H; unfold fireWith in H.
  - destruct (cl_list (get l w)) as [ls|] eqn:El; [|by injection H as <- <-].
    destruct (cl_firing (get l w)) eqn:Ef.
    + injection H as <- <-. split_and!; [apply world_ok_put; [done|]| by apply same_firing_put|done].
      intros _. destruct (Hw l Ef) as [H1 _]. split; [done|]. by intros ls' [= <-].
    + destruct (cl_memory (get l w)) as [d|]; injection H as <- <-;
        (split_and!; [apply world_ok_put; [done|by apply list_ok_idle]|by apply same_firing_put|done ||
          (intros l' d' [= <- <-]; rewrite get_put; by case_decide)]).
  - injection H as <- <-. destruct (upd_ok l _ w (remove_keeps fs) Hw). done.
  - injection H as <- <-. destruct (upd_ok l _ w empty_keeps Hw). done.
  - injection H as <- <-. destruct (upd_ok l _ w disable_keeps Hw). done.
  - injection H as <- <-. destruct (upd_ok l _ w lock_keeps Hw). done.
  - destruct (cl_list (get l w)) as [ls|] eqn:El; [|by injection H as <- <-].
    destruct (cl_stack (get l w)) as [st|] eqn:Es.
    + destruct (cl_firing (get l w)) eqn:Ef; injection H as <- <-.
      * split_and!; [apply world_ok_put; [done|exact (Hw l)]|by apply same_firing_put|done].
      * split_and!; [done|done|]. by intros l' d' [= <- <-].
    + destruct (cl_fired (get l w)) eqn:Ed; injection H as <- <-; [done|].
      split_and!; [done|done|]. intros l' d' [= <- <-].
      destruct (cl_firing (get l w)) eqn:Ef; [|done]. destruct (Hw l Ef) as [[H1 _] _]. congruence.
Qed.


(** ** Firing never runs off a list *)

Definition job_ok (j : job) (w : world) : Prop :=
  match j with
  | JFire l _ => cl_firing (get l w) = false
  | JLoop l _ => l < length (w_lists w) → cl_firing (get l w) = true ∧ (0 ≤ cl_index (get l w))%Z
  | JOps _ => True
  end.

(** The firing flags after a job: a loop ends the firing of its list, nothing else changes. *)
Definition job_flags (j : job) (w w' : world) : Prop :=
  match j with
  | JLoop l _ => ∀ l', cl_firing (get l' w') = if decide (l = l') then false else cl_firing (get l' w)
  | _ => same_firing w w'
  end.

Lemma put_length l c w : length (w_lists (put l c w)) = length (w_lists w).
Proof. apply length_insert. Qed.

Lemma get_outside l w : length (w_lists w) ≤ l → get l w = Callbacks (Flags false false false false).
Proof. intros H. unfold get. by rewrite lookup_ge_None_2. Qed.

Lemma fire_end_ok l w w' next :
  fire_end l w = (w', next) → world_ok w →
  world_ok w' ∧ length (w_lists w') = length (w_lists w)
  ∧ (∀ l', cl_firing (get l' w') = if decide (l = l') then false else cl_firing (get l' w)).
Proof.
  intros H Hw. assert (∀ c, cl_firing c = false → world_ok (put l c w)
    ∧ length (w_lists (put l c w)) = length (w_lists w)
    ∧ ∀ l', cl_firing (get l' (put l c w)) = if decide (l = l') then false else cl_firing (get l' w)) as Hc.
  { intros c Hc. split_and!; [apply world_ok_put; [done|by apply list_ok_idle]|apply put_length|].
    intros l'. rewrite get_put. destruct (decide (l = l')) as [<-|]; [|by rewrite decide_False by tauto].
    case_decide; [done|]. by rewrite get_outside by lia. }
  unfold fire_end in H. cbv zeta in H. cbn [cl_list with_loop cl_stack cl_memory] in H.
  destruct (cl_list (get l w)); [destruct (cl_stack (get l w)) as [[|]|]; [| |destruct (cl_memory (get l w))]|];
    injection H as <- <-; by apply Hc.
Qed.

Lemma op_start_length o w w' start :
  op_start o w = (w', start) → length (w_lists w') = length (w_lists w).
Proof.
  intros H. destruct o as [l fs|l fs|l|l|l|l d]; cbn [op_start] in H; unfold fireWith in H; cbv zeta in H;
    repeat case_match; injection H as <- <-; try done; apply put_length.
Qed.

Lemma call_ok body f d w w' ops ret :
  call body f d w = (w', ops, ret) → world_ok w →
  world_ok w' ∧ same_firing w w' ∧ length (w_lists w') = length (w_lists w).
Proof.
  intros H Hw. destruct f as [f|s|l|l]; cbn [call] in H.
  - destruct (body f d). by injection H as <- <- <-.
  - by injection H as <- <- <-.
  - injection H as <- <- <-. destruct (upd_ok l _ w disable_keeps Hw). split_and!; [done..|apply put_length].
  - injection H as <- <- <-. destruct (upd_ok l _ w lock_keeps Hw). split_and!; [done..|apply put_length].
Qed.

(** Leaving the loop of [l]: its firing ends, and a stacked fire runs. *)
Definition stop_ok (l : nat) (w : world) (r : res) : Prop :=
  match r with
  | Done w' => world_ok w' ∧ length (w_lists w') = length (w_lists w)
      ∧ ∀ l', cl_firing (get l' w') = if decide (l = l') then false else cl_firing (get l' w)
  | Crash => False
  | OutOfFuel => True
  end.

(** What a run of a job keeps, as a statement about its result. *)
Definition run_keeps (j : job) (w : world) (r : res) : Prop :=
  match r with
  | Done w' => world_ok w' ∧ length (w_lists w') = length (w_lists w) ∧ job_flags j w w'
  | Crash => False
  | OutOfFuel => True
  end.

(** The steps of a run, given the runs with less fuel. *)
Section steps.
Context (body : nat → data → list op * bool) (n : nat) (IH : ∀ j w, world_ok w → job_ok j w → run_keeps j w (run body n j w)).

Lemma stop_run l w :
  world_ok w →
  stop_ok l w (let '(w, next) := fire_end l w in
               match next with Some d => run body n (JFire l d) w | None => Done w end).
Proof.
  intros Hw. destruct (fire_end l w) as [w' next] eqn:E.
  destruct (fire_end_ok l w w' next E Hw) as (H1 & H2 & H3).
  destruct next as [d|]; [|done].
  assert (job_ok (JFire l d) w') as Hj by (cbn; rewrite H3; by rewrite decide_True).
  pose proof (IH _ _ H1 Hj) as Hr. destruct (run body n (JFire l d) w') as [w2| |]; [|done..].
  destruct Hr as (I1 & I2 & I3). split_and!; [done|congruence|]. intros l'. by rewrite I3, H3.
Qed.

Lemma fire_run l d w : world_ok w → job_ok (JFire l d) w → run_keeps (JFire l d) w (run body (S n) (JFire l d) w).
Proof.
  intros Hw Hj. cbn [run]. cbn in Hj. set (w1 := upd l (fire_start d) w).
  assert (world_ok w1) as Hw1.
  { apply world_ok_put; [done|]. intros _. cbn. split; [split; [done|lia]|]. intros ls E. by rewrite E. }
  assert (job_ok (JLoop l d) w1) as Hj1.
  { intros Hl. unfold w1, upd in *. rewrite put_length in Hl. rewrite get_put, decide_True by done.
    cbn. split; [done|lia]. }
  pose proof (IH (JLoop l d) w1 Hw1 Hj1) as Hr. destruct (run body n (JLoop l d) w1) as [w'| |]; [|done..].
  destruct Hr as (H1 & H2 & H3). split_and!; [done| |].
  - by rewrite H2; apply put_length.
  - intros l'. cbn in H3. rewrite H3. destruct (decide (l = l')) as [<-|Hne]; [done|].
    by apply f_equal, get_put_ne.
Qed.

(** After a callback was called, from the world [w1] with the operations [ops]: the loop goes on or stops. *)
Lemma loop_next l d w w1 ops ret (Hl : l < length (w_lists w)) :
  cl_firing (get l w) = true → world_ok w1 → same_firing w w1 → length (w_lists w1) = length (w_lists w) →
  run_keeps (JLoop l d) w
    (match run body n (JOps ops) w1 with
     | Done w => if ret && stopOnFalse (cl_opts (get l w))
                 then let '(w, next) := fire_end l (upd l (with_memory None) w) in
                      match next with Some d => run body n (JFire l d) w | None => Done w end
                 else let c := get l w in
                      run body n (JLoop l d) (put l (with_loop (cl_firing c) (cl_length c) (cl_index c + 1) c) w)
     | r => r
     end).
Proof.
  intros Hf C1 C2 C3. pose proof (IH (JOps ops) w1 C1 I) as IHo. destruct (run body n (JOps ops) w1) as [w2| |]; [|done..].
  destruct IHo as (O1 & O2 & O3). cbn [job_flags] in O3.
  assert (∀ r w3, world_ok w3 → length (w_lists w3) = length (w_lists w2) → same_firing w2 w3 → stop_ok l w3 r → run_keeps (JLoop l d) w r) as Hstop.
  { intros [w'| |] w3 H1 H2 H3 H; [|done..]. destruct H as (I1 & I2 & I3).
    split_and!; [done|congruence|]. intros l'. rewrite I3. case_decide; [done|]. by rewrite H3, O3, C2. }
  destruct (ret && stopOnFalse (cl_opts (get l w2))).
  - eapply (Hstop _ (upd l (with_memory None) w2)); [| | |apply stop_run];
      [by apply world_ok_put, (O1 l)|apply put_length|by apply same_firing_put|by apply world_ok_put, (O1 l)].
  - cbv zeta. match goal with |- context [run body n _ ?x] => set (w3 := x) end.
    assert (world_ok w3) as H3.
    { apply world_ok_put; [done|]. intros F. cbn in *. destruct (O1 l F) as [[? ?] ?]. split; [split; [done|lia]|done]. }
    assert (same_firing w2 w3) as F3 by by apply same_firing_put.
    eapply (Hstop _ w3); [done|apply put_length|done|].
    assert (job_ok (JLoop l d) w3) as J3.
    { intros _. assert (cl_firing (get l w2) = true) as F2 by by rewrite O3, C2.
      unfold w3. rewrite get_put, decide_True by (split; [done|congruence]). cbn.
      destruct (O1 l F2) as [[? ?] ?]. split; [done|lia]. }
    pose proof (IH (JLoop l d) w3 H3 J3) as Hr. by destruct (run body n (JLoop l d) w3).
Qed.

Lemma loop_run l d w : world_ok w → job_ok (JLoop l d) w → run_keeps (JLoop l d) w (run body (S n) (JLoop l d) w).
Proof.
  intros Hw Hj. cbn [run]. cbv zeta. destruct (cl_list (get l w)) as [ls|] eqn:El; [|apply (stop_run l w Hw)].
  destruct (Z.ltb_spec (cl_index (get l w)) (cl_length (get l w))) as [Hlt|]; [|apply (stop_run l w Hw)].
  destruct (decide (l < length (w_lists w))) as [Hl|Hl]; [|rewrite get_outside in Hlt by lia; cbn in Hlt; lia].
  destruct (Hj Hl) as [Hf Hi]. destruct (Hw l Hf) as [_ Hlen]. rewrite (Hlen ls El) in Hlt.
  destruct (Z.ltb_spec (cl_index (get l w)) 0) as [|_]; [lia|].
  destruct (lookup_lt_is_Some_2 ls (Z.to_nat (cl_index (get l w)))) as [f Ef]; [lia|]. rewrite Ef.
  destruct (call body f d w) as [[w1 ops] ret] eqn:Ec. destruct (call_ok _ _ _ _ _ _ _ Ec Hw) as (C1 & C2 & C3).
  by apply (loop_next l d w w1 ops ret).
Qed.

Lemma ops_run ops w : world_ok w → run_keeps (JOps ops) w (run body (S n) (JOps ops) w).
Proof.
  intros Hw. cbn [run]. destruct ops as [|o ops]; [by split|]. destruct (op_start o w) as [w1 start] eqn:Eo.
  destruct (op_start_ok _ _ _ _ Eo Hw) as (O1 & O2 & O3). apply op_start_length in Eo.
  assert (∀ w2, world_ok w2 → length (w_lists w2) = length (w_lists w) → same_firing w w2 → run_keeps (JOps ops) w (run body n (JOps ops) w2)) as Hrest.
  { intros w2 H1 H2 H3. pose proof (IH (JOps ops) w2 H1 I) as Hr. destruct (run body n (JOps ops) w2); [|done..].
    destruct Hr as (I1 & I2 & I3). split_and!; [done|congruence|]. by transitivity w2. }
  destruct start as [[l d]|]; [|by apply Hrest].
  pose proof (IH (JFire l d) w1 O1 (O3 l d eq_refl)) as IHf.
  destruct (run body n (JFire l d) w1) as [w2| |]; [|done..]. destruct IHf as (I1 & I2 & I3).
  apply Hrest; [done|congruence|]. by transitivity w1.
Qed.
End steps.

Lemma run_ok body n j w : world_ok w → job_ok j w → run_keeps j w (run body n j w).
Proof.
  revert j w. induction n as [|n IH]; intros j w Hw Hj; [done|].
  destruct j as [l d|l d|ops]; [by apply fire_run|by apply loop_run|by apply ops_run].
Qed.

(** Whatever the callbacks do to the lists while they fire, re-entrantly or not, firing
    never reads a callback beyond the end of its list, and when it returns nothing fires any
    more. *)
Theorem firing_safe body n ops w :
  (∀ l, cl_firing (get l w) = false) →
  match run body n (JOps ops) w with
  | Done w' => ∀ l, cl_firing (get l w') = false
  | Crash => False
  | OutOfFuel => True
  end.
Proof.
  intros H. pose proof (run_ok body n (JOps ops) w (λ l, list_ok_idle _ (H l)) I) as Hr.
  destruct (run body n (JOps ops) w); [|done..]. destruct Hr as (_ & _ & Hr). intros l. by rewrite Hr.
Qed.

(** A callback that removes itself and the next one, and fires the list again. *)
Example firing_safe_witness :
  let w := World [Callbacks (Flags false false false false)] Pending [] in
  let body f (d : data) :=
    if Nat.eqb f 1 then ([ORemove 0 [CbUser 1; CbUser 2]; OFire 0 5], false) else ([], false) in
  match run body 100 (JOps [OAdd 0 [CbUser 1; CbUser 2; CbUser 3]; OFire 0 4]) w with
  | Done w' => (∀ l, cl_firing (get l w') = false) ∧ w_trace w' = [(1, 4); (3, 4); (3, 5)]
  | _ => False
  end.
Proof.
  intros w body. pose proof (firing_safe body 100 [OAdd 0 [CbUser 1; CbUser 2; CbUser 3]; OFire 0 4] w) as H.
  assert (∀ l, cl_firing (get l w) = false) as H0 by (intros [|l]; done). specialize (H H0). clear H0.
  destruct (run body 100 _ w) as [w'| |] eqn:E; [|vm_compute in E; discriminate..].
  split; [exact H|]. vm_compute in E. injection E as <-. reflexivity.
Defined.

(** ** A deferred settles once *)

Section settle.
(** The list each function of the page is meant for: 0 done, 1 fail, 2 progress. *)
Variable kind : nat → nat.

(** What a page does with a deferred: it adds handlers to the three lists and fires them. *)
Definition dop_ok (o : op) : Prop :=
  match o with
  | OAdd l fs => l < 3 ∧ ∀ f, f ∈ fs → ∃ u, f = CbUser u ∧ kind u = l
  | OFire l _ => l < 3
  | _ => False
  end.

Variable body : nat → data → list op * bool.
Hypothesis body_ok : ∀ f d, Forall dop_ok (body f d).1.

Definition user (l : nat) (f : callback) : Prop := ∃ u, f = CbUser u ∧ kind u = l.
Definition users (l : nat) (fs : list callback) : Prop := Forall (user l) fs.

Definition final (k : nat) : dstate := if decide (k = 0) then Resolved else Rejected.

(** The progress list: its callbacks are progress handlers. *)
Definition progress_ok (c : cblist) : Prop :=
  cl_opts c = only_memory ∧ ∀ ls, cl_list c = Some ls → users 2 ls.

(** Before it settles: the constructor's callbacks lead the lists of [done] and [fail]. *)
Definition fresh_list (k : nat) (c : cblist) : Prop :=
  cl_opts c = once_memory ∧ cl_memory c = None ∧ cl_fired c = false ∧ cl_firing c = false
  ∧ cl_start c = 0 ∧ cl_stack c = None
  ∧ ∃ ls, cl_list c = Some (CbState (final k) :: CbDisable (1 - k) :: CbLock 2 :: ls) ∧ users k ls.

Definition pending (w : world) : Prop :=
  length (w_lists w) = 3 ∧ w_state w = Pending
  ∧ fresh_list 0 (get 0 w) ∧ fresh_list 1 (get 1 w) ∧ progress_ok (get 2 w)
  ∧ ∀ e, e ∈ w_trace w → kind e.1 = 2.

(** After it settled by list [k] with data [d]. *)
Definition settled_list (k : nat) (d : data) (c : cblist) : Prop :=
  cl_opts c = once_memory ∧ cl_memory c = Some d ∧ cl_fired c = true ∧ cl_stack c = None
  ∧ ∃ ls, cl_list c = Some ls
      ∧ ∀ i f, ls !! i = Some f → (cl_firing c = true → cl_index c ≤ Z.of_nat i)%Z → user k f.
Definition dead_list (c : cblist) : Prop := cl_list c = None.

Definition settled (k : nat) (d : data) (w : world) : Prop :=
  length (w_lists w) = 3 ∧ w_state w = final k ∧ k < 2
  ∧ settled_list k d (get k w) ∧ dead_list (get (1 - k) w) ∧ progress_ok (get 2 w)
  ∧ ∀ e, e ∈ w_trace w → kind e.1 = 2 ∨ kind e.1 = k ∧ e.2 = d.

Lemma pending_Deferred : pending Deferred.
Proof.
  unfold pending, fresh_list, progress_ok. split_and!; try done; try (exists []; split; [done|constructor]).
  - intros ls [= <-]. constructor.
  - intros e He. by apply elem_of_nil in He.
Qed.

Definition inv (w : world) : Prop := pending w ∨ ∃ k d, settled k d w.
Definition later (w w' : world) : Prop := ∀ k d, settled k d w → settled k d w'.

#[local] Instance later_preorder : PreOrder later.
Proof. split; [by intros w k d|]. intros w1 w2 w3 H1 H2 k d H. by apply H2, H1. Qed.

Lemma not_both w k d : pending w → settled k d w → False.
Proof. intros (_ & H1 & _) (_ & H2 & _). rewrite H1 in H2. unfold final in H2. by case_decide. Qed.

(** ** Changing one list *)

Lemma settled_put k d c w : settled k d w → settled_list k d c → settled k d (put k c w).
Proof.
  intros (H1 & H2 & H3 & H4 & H5 & H6 & H7) Hc. unfold settled. rewrite put_length.
  split_and!; [done|done|done| | | |done].
  - by rewrite get_put, decide_True by lia.
  - by rewrite get_put_ne by lia.
  - by rewrite get_put_ne by lia.
Qed.

Lemma settled_put2 k d c w : settled k d w → progress_ok c → settled k d (put 2 c w).
Proof.
  intros (H1 & H2 & H3 & H4 & H5 & H6 & H7) Hc. unfold settled. rewrite put_length.
  split_and!; [done|done|done| | | |done].
  - by rewrite get_put_ne by lia.
  - by rewrite get_put_ne by lia.
  - by rewrite get_put, decide_True by lia.
Qed.

Lemma pending_put k c w : pending w → k < 2 → fresh_list k c → pending (put k c w).
Proof.
  intros (H1 & H2 & H3 & H4 & H5 & H6) Hk Hc. unfold pending. rewrite put_length.
  split_and!; [done|done| | | |done]; rewrite get_put; case_decide as E; try done;
    destruct E as [-> _]; done || lia.
Qed.

Lemma pending_put2 c w : pending w → progress_ok c → pending (put 2 c w).
Proof.
  intros (H1 & H2 & H3 & H4 & H5 & H6) Hc. unfold pending. rewrite put_length.
  split_and!; [done|done| | | |done].
  - by rewrite get_put_ne by lia.
  - by rewrite get_put_ne by lia.
  - by rewrite get_put, decide_True by lia.
Qed.

Lemma inv_put2 c w : inv w → progress_ok c → inv (put 2 c w) ∧ later w (put 2 c w).
Proof.
  intros Hw Hc. split; [|intros k d H; by apply settled_put2].
  destruct Hw as [H|(k & d & H)]; [left; by apply pending_put2|right; exists k, d; by apply settled_put2].
Qed.

Lemma inv_progress w : inv w → progress_ok (get 2 w).
Proof. intros [H|(k & d & H)]; [by destruct H as (_ & _ & _ & _ & H & _)|by destruct H as (_ & _ & _ & _ & _ & H & _)]. Qed.

(** A progress handler may be logged at any time, a handler of the settling list with its data. *)
Lemma inv_log2 u d w : inv w → kind u = 2 → inv (log u d w) ∧ later w (log u d w).
Proof.
  intros Hw Hu. assert (∀ k d', settled k d' w → settled k d' (log u d w)) as Hl.
  { intros k d' (H1 & H2 & H3 & H4 & H5 & H6 & H7). split_and!; [done..|].
    intros e [He| ->%list_elem_of_singleton]%elem_of_app; [by apply H7|by left]. }
  split; [|done]. destruct Hw as [(H1 & H2 & H3 & H4 & H5 & H6)|(k & d' & H)]; [left|right; eauto].
  split_and!; [done..|]. intros e [He| ->%list_elem_of_singleton]%elem_of_app; [by apply H6|done].
Qed.

Lemma settled_log u d k w : settled k d w → kind u = k → settled k d (log u d w).
Proof.
  intros (H1 & H2 & H3 & H4 & H5 & H6 & H7) Hu. split_and!; [done..|].
  intros e [He| ->%list_elem_of_singleton]%elem_of_app; [by apply H7|by right].
Qed.

Lemma push_users uniq l fs ls : users l ls → users l fs → users l (push_all uniq fs ls).
Proof.
  revert ls. induction fs as [|f fs IH]; intros ls Hl Hf; [done|]. inversion Hf; subst. cbn [push_all].
  apply IH; [|done]. case_match; [done|]. apply Forall_app. split; [done|]. by constructor.
Qed.

(** ** Starting a fire *)

Definition fire_pre (l : nat) (d : data) (w : world) : Prop :=
  l = 2 ∨ l < 2 ∧ (pending w ∨ settled l d w).

Lemma lists_of l : l < 3 → l = 2 ∨ l < 2.
Proof. lia. Qed.

Lemma pending_fresh w k : pending w → k < 2 → fresh_list k (get k w).
Proof. intros (_ & _ & H0 & H1 & _) Hk. destruct k as [|[|k]]; [done|done|lia]. Qed.

Lemma push_all_false fs ls : push_all false fs ls = ls ++ fs.
Proof.
  revert ls. induction fs as [|f fs IH]; intros ls; [by rewrite app_nil_r|].
  cbn [push_all andb]. rewrite IH. by rewrite <- app_assoc.
Qed.

Lemma settled_unique k d k' d' w : settled k d w → settled k' d' w → k' = k ∧ d' = d.
Proof.
  intros (_ & E5 & E6 & E7 & E8 & _) (_ & E1 & E2 & E3 & E4 & _).
  assert (k' = k) as ->.
  { rewrite E1 in E5. revert E5. unfold final. destruct k as [|[|]], k' as [|[|]]; try done; lia. }
  split; [done|]. destruct E3 as (_ & E3 & _), E7 as (_ & E7 & _). congruence.
Qed.

Lemma inv_put_settled k d c w :
  settled k d w → settled_list k d c → inv (put k c w) ∧ later w (put k c w) ∧ settled k d (put k c w).
Proof.
  intros Hs Hc. assert (settled k d (put k c w)) as Hs' by by apply settled_put.
  split_and!; [right; eauto| |done]. intros k' d' Hs2. by destruct (settled_unique _ _ _ _ _ Hs Hs2) as [-> ->].
Qed.

(** What starting an operation has to establish. *)
Definition started (w w' : world) (start : option (nat * data)) : Prop :=
  inv w' ∧ later w w' ∧ ∀ l d, start = Some (l, d) → fire_pre l d w'.

Lemma started_refl w : inv w → started w w None.
Proof. by split. Qed.

Lemma started_put2 w c start :
  inv w → progress_ok c → (∀ l d, start = Some (l, d) → l = 2) → started w (put 2 c w) start.
Proof. intros Hw Hc Hs. destruct (inv_put2 c w Hw Hc). split_and!; [done..|]. left. by eapply Hs. Qed.

Lemma add_progress fs w w' start :
  op_start (OAdd 2 fs) w = (w', start) → users 2 fs → inv w → started w w' start.
Proof.
  intros H Hu Hw. cbn [op_start] in H; unfold fireWith in H. destruct (inv_progress w Hw) as [P1 P2].
  destruct (cl_list (get 2 w)) as [ls|] eqn:El; [|injection H as <- <-; by apply started_refl].
  assert (users 2 (push_all (unique (cl_opts (get 2 w))) fs ls)) as Hpu
    by (apply push_users; [by apply P2|done]).
  destruct (cl_firing (get 2 w)); [|destruct (cl_memory (get 2 w))]; injection H as <- <-;
    (apply started_put2; [done|split; [exact P1|by intros ls' [= <-]]|by intros l d [= <- <-]]).
Qed.

Lemma add_pending k fs w w' start :
  op_start (OAdd k fs) w = (w', start) → k < 2 → users k fs → pending w → started w w' start.
Proof.
  intros H Hk Hu Hp. destruct (pending_fresh w k Hp Hk) as (F1 & F2 & F3 & F4 & F5 & F6 & ls & F7 & F8).
  cbn [op_start] in H; unfold fireWith in H. rewrite F7, F4, F2, F1 in H. cbn [unique once_memory] in H. rewrite push_all_false in H.
  injection H as <- <-. split_and!; [left; apply pending_put; [done|done|]| |done].
  - unfold fresh_list. cbn. rewrite F1. split_and!; try done. eexists. split; [done|].
    apply Forall_app. by split.
  - intros k' d Hs. by destruct (not_both w k' d Hp Hs).
Qed.

Lemma add_settled k d fs w w' start :
  op_start (OAdd k fs) w = (w', start) → users k fs → settled k d w → started w w' start.
Proof.
  intros H Hu Hs. pose proof Hs as (_ & _ & Hk & (S1 & S2 & S3 & S4 & ls & S5 & S6) & _).
  cbn [op_start] in H; unfold fireWith in H. rewrite S5, S1, S2 in H. cbn [unique once_memory] in H. rewrite push_all_false in H.
  assert (∀ i f, (ls ++ fs) !! i = Some f → (cl_firing (get k w) = true → cl_index (get k w) ≤ Z.of_nat i)%Z →
    user k f) as Hls.
  { intros i f Hi Hx. apply lookup_app_Some in Hi as [Hi|[_ Hi]]; [by apply (S6 i f Hi)|].
    eapply Forall_lookup_1; [exact Hu|exact Hi]. }
  destruct (cl_firing (get k w)) eqn:Ef; injection H as <- <-;
    (edestruct (inv_put_settled k d) as (I1 & I2 & I3);
      [exact Hs| |split_and!; [exact I1|exact I2|by intros l' d' [= <- <-]; right; (split; [|right])]]);
    unfold settled_list; cbn; rewrite ?Ef; split_and!; try done; by exists (ls ++ fs).
Qed.

Lemma op_start_phase o w w' start :
  op_start o w = (w', start) → dop_ok o → inv w → started w w' start.
Proof.
  intros H Ho Hw. destruct o as [l fs| | | | |l d]; try done; cbn [dop_ok] in Ho.
  - destruct Ho as [Hl Hfs].
    assert (users l fs) as Hu by (apply Forall_forall; intros f Hf; by apply Hfs).
    destruct (lists_of l Hl) as [->|Hl2]; [by eapply add_progress|].
    destruct Hw as [Hp|(k & d & Hs)]; [by eapply add_pending|].
    destruct (decide (l = k)) as [->|Hne]; [by eapply add_settled|].
    pose proof Hs as (_ & _ & Hk & _ & Hd & _). assert (l = 1 - k) as -> by lia.
    cbn [op_start] in H; unfold fireWith in H. rewrite Hd in H. injection H as <- <-. apply started_refl. right; eauto.
  - cbn [op_start] in H; unfold fireWith in H.
    destruct (lists_of l Ho) as [->|Hl2].
    + destruct (inv_progress w Hw) as [P1 P2].
      destruct (cl_list (get 2 w)) as [ls|] eqn:El; [|injection H as <- <-; by apply started_refl].
      assert (started w w (Some (2, d))) as Hst by (split_and!; [done..|by intros l' d' [= <- <-]; left]).
      destruct (cl_stack (get 2 w)); [destruct (cl_firing (get 2 w))|destruct (cl_fired (get 2 w))];
        injection H as <- <-; [|exact Hst|by apply started_refl|exact Hst].
      apply started_put2; [done| |done]. split; [exact P1|]. intros ls' E. apply P2. by rewrite <- E.
    + destruct Hw as [Hp|(k & d' & Hs)].
      * destruct (pending_fresh w l Hp Hl2) as (F1 & F2 & F3 & F4 & F5 & F6 & ls & F7 & F8).
        rewrite F7, F6, F3 in H. injection H as <- <-.
        split_and!; [by left|done|]. intros l' d' [= <- <-]. right. split; [done|by left].
      * destruct (decide (l = k)) as [->|Hne].
        -- pose proof Hs as (_ & _ & Hk & (S1 & S2 & S3 & S4 & ls & S5 & S6) & _).
           rewrite S5, S4, S3 in H. injection H as <- <-. apply started_refl. right; eauto.
        -- pose proof Hs as (_ & _ & Hk & _ & Hd & _). assert (l = 1 - k) as -> by lia.
           rewrite Hd in H. injection H as <- <-. apply started_refl. right; eauto.
Qed.

(** ** The fire that settles *)

Definition bump (c : cblist) : cblist := with_loop (cl_firing c) (cl_length c) (cl_index c + 1) c.

Lemma loop_step n l d w w1 ls f :
  cl_list (get l w) = Some ls → (0 ≤ cl_index (get l w) < cl_length (get l w))%Z →
  ls !! Z.to_nat (cl_index (get l w)) = Some f → call body f d w = (w1, [], false) →
  run body (S n) (JLoop l d) w = match n with O => OutOfFuel | S _ => run body n (JLoop l d) (upd l bump w1) end.
Proof.
  intros H1 [H2 H3] H4 H5. cbn [run]. cbv zeta. rewrite H1.
  destruct (Z.ltb_spec (cl_index (get l w)) (cl_length (get l w))); [|lia].
  destruct (Z.ltb_spec (cl_index (get l w)) 0); [lia|]. rewrite H4, H5. by destruct n.
Qed.

(** The world while the constructor's callbacks of list [k] run: [b] is the other list. *)
Definition settling (k : nat) (d : data) (cs : list callback) (t : list (nat * data))
    (i : Z) (s : dstate) (b c : cblist) : world :=
  let me := CbList once_memory (Some d) true true 0 (Z.of_nat (3 + length cs)) i
     (Some (CbState (final k) :: CbDisable (1 - k) :: CbLock 2 :: cs)) None in
  World (if decide (k = 0) then [me; b; c] else [b; me; c]) s t.

Lemma settling_steps k d cs t b c n :
  k < 2 →
  run body n (JLoop k d) (settling k d cs t 0 Pending b c) =
    match n with
    | S (S (S (S n))) => run body (S n) (JLoop k d) (settling k d cs t 3 (final k) (disable b) (lock c))
    | _ => OutOfFuel
    end.
Proof.
  intros Hk.
  assert (∀ n i (f : callback) s b c w1, (0 ≤ i < 3)%Z →
    [CbState (final k); CbDisable (1 - k); CbLock 2] !! Z.to_nat i = Some f →
    call body f d (settling k d cs t i s b c) = (w1, [], false) →
    run body (S n) (JLoop k d) (settling k d cs t i s b c)
    = match n with O => OutOfFuel | S _ => run body n (JLoop k d) (upd k bump w1) end) as Hstep.
  { intros m i f s b' c' w1 Hi Hf Hc.
    apply (lookup_app_l_Some _ cs) in Hf.
    destruct k as [|[|k]]; [| |lia];
      (eapply (loop_step m _ d _ w1 (CbState (final _) :: CbDisable _ :: CbLock 2 :: cs) f);
        [reflexivity|change (0 ≤ i < Z.of_nat (3 + length cs))%Z; lia|exact Hf|exact Hc]). }
  destruct n as [|n]; [done|]. rewrite (Hstep n 0%Z _ _ _ _ _ ltac:(lia) eq_refl eq_refl).
  destruct n as [|n]; [done|].
  replace (upd k bump _) with (settling k d cs t 1 (final k) b c) by (destruct k as [|[|k]]; [done|done|lia]).
  rewrite (Hstep n 1%Z _ _ _ _ _ ltac:(lia) eq_refl eq_refl). destruct n as [|n]; [done|].
  replace (upd k bump _) with (settling k d cs t 2 (final k) (disable b) c)
    by (destruct k as [|[|k]]; [done|done|lia]).
  rewrite (Hstep n 2%Z _ _ _ _ _ ltac:(lia) eq_refl eq_refl). destruct n as [|n]; [done|].
  by replace (upd k bump _) with (settling k d cs t 3 (final k) (disable b) (lock c))
    by (destruct k as [|[|k]]; [done|done|lia]).
Qed.

Lemma settling_settled k d cs t b c :
  k < 2 → users k cs → progress_ok c → (∀ e, e ∈ t → kind e.1 = 2) → list_ok b → list_ok c →
  let w := settling k d cs t 3 (final k) (disable b) (lock c) in
  settled k d w ∧ cl_firing (get k w) = true ∧ cl_index (get k w) = 3%Z ∧ cl_firing (get (1 - k) w) = cl_firing b
  ∧ world_ok w.
Proof.
  intros Hk Hcs [P1 P2] Ht Hb Hc.
  assert (progress_ok (lock c)) as Hl.
  { unfold lock. cbv zeta. cbn [cl_memory with_stack]. destruct (cl_memory c); (split; [exact P1|]); cbn; [exact P2|done]. }
  assert (∀ i f, (CbState (final k) :: CbDisable (1 - k) :: CbLock 2 :: cs) !! i = Some f → (3 ≤ Z.of_nat i)%Z → user k f)
    as Hu.
  { intros i f Hf Hi. destruct i as [|[|[|i]]]; [lia..|]. cbn in Hf. eapply Forall_lookup_1; [exact Hcs|exact Hf]. }
  intros w. split_and!.
  - unfold settled, w. destruct k as [|[|k]]; [| |lia]; (split_and!; [done|done|lia| |done|exact Hl|intros e He; left; by apply Ht]);
      (split_and!; try done; eexists; split; [reflexivity|]; intros i f Hf Hi; apply (Hu i f Hf), Hi; done).
  - by destruct k as [|[|k]]; [| |lia].
  - by destruct k as [|[|k]]; [| |lia].
  - by destruct k as [|[|k]]; [| |lia].
  - assert (list_ok (disable b)) as Hb' by by apply disable_keeps.
    assert (list_ok (lock c)) as Hc' by by apply lock_keeps.
    assert (∀ k', list_ok (CbList once_memory (Some d) true true 0 (Z.of_nat (3 + length cs)) 3
      (Some (CbState (final k) :: CbDisable k' :: CbLock 2 :: cs)) None)) as Hm.
    { intros k' _. split; [split; [done|cbn; lia]|]. by intros ls [= <-]. }
    intros l. destruct k as [|[|k]]; [| |lia];
      (destruct l as [|[|[|l]]]; [| | |apply list_ok_default]); done || apply Hm.
Qed.

Lemma settle_fire k d w :
  pending w → k < 2 → world_ok w →
  ∃ w4, settled k d w4 ∧ cl_firing (get k w4) = true ∧ (0 ≤ cl_index (get k w4))%Z ∧ world_ok w4
    ∧ ∀ n, run body n (JFire k d) w =
        match n with S (S (S (S (S n)))) => run body (S n) (JLoop k d) w4 | _ => OutOfFuel end.
Proof.
  intros (H1 & H2 & F0 & F1 & P & Ht) Hk Hw. destruct w as [[|a [|b [|c [|]]]] s t]; try done.
  pose proof (Hw 0) as O0. pose proof (Hw 1) as O1. pose proof (Hw 2) as O2.
  unfold get in F0, F1, P, O0, O1, O2. cbn in H2, F0, F1, P, O0, O1, O2, Ht. subst s.
  destruct a as [oa ma fa ga sa la ia ka ta], b as [ob mb fb gb sb lb ib kb tb].
  destruct F0 as (E1 & E2 & E3 & E4 & E5 & E6 & la' & E7 & E8). cbn in E1, E2, E3, E4, E5, E6, E7. subst.
  destruct F1 as (E1 & E2 & E3 & E4 & E5 & E6 & lb' & E7 & E9). cbn in E1, E2, E3, E4, E5, E6, E7. subst.
  destruct k as [|[|k]]; [| |lia].
  - edestruct (settling_settled 0 d la' t _ c Hk E8 P Ht O1 O2) as (S1 & S2 & S3 & _ & S4).
    eexists. split_and!; [exact S1|exact S2|rewrite S3; lia|exact S4|]. intros [|n]; [done|].
    rewrite <- (settling_steps 0 d la' t) by lia. reflexivity.
  - edestruct (settling_settled 1 d lb' t _ c Hk E9 P Ht O0 O2) as (S1 & S2 & S3 & _ & S4).
    eexists. split_and!; [exact S1|exact S2|rewrite S3; lia|exact S4|]. intros [|n]; [done|].
    rewrite <- (settling_steps 1 d lb' t) by lia. reflexivity.
Qed.

(** ** Running *)

Definition phase_pre (j : job) (w : world) : Prop :=
  match j with
  | JFire l d => fire_pre l d w
  | JLoop l d => l = 2 ∨ settled l d w
  | JOps ops => Forall dop_ok ops
  end.

Definition phase_post (w : world) (r : res) : Prop :=
  match r with Done w' => inv w' ∧ later w w' | _ => True end.

Lemma phase_post_later w w1 r : later w w1 → phase_post w1 r → phase_post w r.
Proof. destruct r; [|done..]. intros H [H1 H2]. split; [done|]. by transitivity w1. Qed.

(** The statement proved by induction on the fuel. *)
Definition phase_at (n : nat) : Prop :=
  ∀ j w, inv w → world_ok w → job_ok j w → phase_pre j w → phase_post w (run body n j w).

Lemma stop_phase n l d w :
  phase_at n → inv w → world_ok w → l = 2 ∨ settled l d w →
  phase_post w (let '(w, next) := fire_end l w in
                match next with Some d => run body n (JFire l d) w | None => Done w end).
Proof.
  intros IH Hw Ho Hl. destruct (fire_end l w) as [w' next] eqn:E.
  destruct (fire_end_ok l w w' next E Ho) as (H1 & H2 & H3).
  assert (job_ok (JFire l d) w') as Hj by (cbn; rewrite H3; by rewrite decide_True).
  destruct Hl as [->|Hs].
  - destruct (inv_progress w Hw) as [P1 P2].
    assert (inv w' ∧ later w w') as [I1 I2].
    { unfold fire_end in E. cbv zeta in E. cbn [cl_list with_loop cl_stack cl_memory] in E.
      destruct (cl_list (get 2 w)) as [ls|] eqn:El;
        [destruct (cl_stack (get 2 w)) as [[|]|]; [| |destruct (cl_memory (get 2 w))]|];
        injection E as <- <-; apply inv_put2; try done; (split; [exact P1|]); cbn; rewrite ?El;
        intros ls' [= <-]; done || (by apply P2) || constructor. }
    destruct next as [d'|]; [|done]. eapply phase_post_later; [exact I2|].
    apply IH; [done|done|exact Hj|by left].
  - pose proof Hs as (_ & _ & Hk & (S1 & S2 & S3 & S4 & ls & S5 & S6) & _).
    unfold fire_end in E. cbv zeta in E. cbn [cl_list with_loop cl_stack cl_memory] in E.
    rewrite S5, S4, S2 in E. injection E as <- <-.
    edestruct (inv_put_settled l d) as (I1 & I2 & _); [exact Hs| |split; [exact I1|exact I2]].
    unfold settled_list. cbn. split_and!; try done. by exists [].
Qed.

Lemma inv_bump l d w : inv w → l = 2 ∨ settled l d w → inv (upd l bump w) ∧ later w (upd l bump w)
  ∧ (l = 2 ∨ settled l d (upd l bump w)).
Proof.
  intros Hw [->|Hs].
  - destruct (inv_put2 (bump (get 2 w)) w Hw) as [I1 I2]; [exact (inv_progress w Hw)|]. split_and!; [done..|by left].
  - edestruct (inv_put_settled l d (bump (get l w))) as (I1 & I2 & I3); [exact Hs| |split_and!; [exact I1|exact I2|by right]].
    destruct Hs as (_ & _ & Hk & (S1 & S2 & S3 & S4 & ls & S5 & S6) & _).
    unfold settled_list. cbn. split_and!; try done. exists ls. split; [done|]. intros i f Hi Hf.
    apply (S6 i f Hi). intros F. specialize (Hf F). lia.
Qed.

Lemma phase_loop n l d w : phase_at n → inv w → world_ok w → job_ok (JLoop l d) w →
  phase_pre (JLoop l d) w → phase_post w (run body (S n) (JLoop l d) w).
Proof.
  intros IH Hw Ho Hj Hl. cbn [run]. cbv zeta.
  destruct (cl_list (get l w)) as [ls|] eqn:El; [|by eapply (stop_phase n l d)].
  destruct (Z.ltb_spec (cl_index (get l w)) (cl_length (get l w))) as [Hlt|]; [|by eapply (stop_phase n l d)].
  destruct (Z.ltb_spec (cl_index (get l w)) 0) as [|Hi]; [done|].
  destruct (ls !! Z.to_nat (cl_index (get l w))) as [f|] eqn:Ef; [|done].
  assert (l < length (w_lists w)) as Hlw.
  { destruct (decide (l < length (w_lists w))); [done|]. rewrite get_outside in Hlt by lia. cbn in Hlt. lia. }
  destruct (Hj Hlw) as [Hf _].
  assert (user l f) as (u & -> & Hu).
  { destruct Hl as [->|Hs].
    - destruct (inv_progress w Hw) as [_ P2]. specialize (P2 ls El). by eapply Forall_lookup_1 in P2.
    - destruct Hs as (_ & _ & _ & (_ & _ & _ & _ & ls' & S5 & S6) & _). rewrite S5 in El. injection El as <-.
      apply (S6 _ _ Ef). intros _. lia. }
  cbn [call]. destruct (body u d) as [ops ret] eqn:Eb.
  assert (inv (log u d w) ∧ later w (log u d w) ∧ (l = 2 ∨ settled l d (log u d w))) as (L1 & L2 & L3).
  { destruct Hl as [->|Hs]; [destruct (inv_log2 u d w Hw Hu); split_and!; [done..|by left]|].
    pose proof (settled_log u d l w Hs Hu) as Hs'. split_and!; [right; eauto| |by right].
    intros k d' H. by destruct (settled_unique _ _ _ _ _ Hs H) as [-> ->]. }
  assert (world_ok (log u d w)) as L4 by exact Ho.
  assert (Forall dop_ok ops) as Hops by (pose proof (body_ok u d) as B; by rewrite Eb in B).
  pose proof (IH (JOps ops) (log u d w) L1 L4 I Hops) as IHo.
  pose proof (run_ok body n (JOps ops) (log u d w) L4 I) as Hro.
  destruct (run body n (JOps ops) (log u d w)) as [w2| |]; [|done..].
  destruct IHo as [I1 I2]. destruct Hro as (R1 & R2 & R3). cbn [job_flags] in R3.
  assert (l = 2 ∨ settled l d w2) as Hl2 by (destruct L3 as [->|]; [by left|right; by apply I2]).
  assert (stopOnFalse (cl_opts (get l w2)) = false) as ->.
  { destruct Hl2 as [->|Hs]; [by destruct (inv_progress w2 I1) as [-> _]|].
    by destruct Hs as (_ & _ & _ & (-> & _) & _). }
  rewrite andb_false_r. destruct (inv_bump l d w2 I1 Hl2) as (B1 & B2 & B3).
  eapply phase_post_later; [by transitivity (log u d w); [|transitivity w2]|].
  assert (cl_firing (get l w2) = true) as F2 by by rewrite R3.
  destruct (R1 l F2) as [[D1 D2] D3].
  apply IH; [done| | |done].
  - apply world_ok_put; [done|]. intros _. cbn. split; [split; [done|lia]|done].
  - intros _. unfold upd. rewrite get_put, decide_True by (split; [done|by rewrite R2]). cbn. split; [done|lia].
Qed.

Lemma fire_start_ok l d w : world_ok w → world_ok (upd l (fire_start d) w).
Proof.
  intros Ho. apply world_ok_put; [done|]. intros _. cbn. split; [split; [done|lia]|]. intros ls E. by rewrite E.
Qed.

Lemma fire_start_job l d w : job_ok (JLoop l d) (upd l (fire_start d) w).
Proof.
  intros Hl. unfold upd in *. rewrite put_length in Hl. rewrite get_put, decide_True by done.
  cbn. split; [done|lia].
Qed.

Lemma fire_start_phase l d w :
  inv w → cl_firing (get l w) = false → l = 2 ∨ settled l d w →
  inv (upd l (fire_start d) w) ∧ later w (upd l (fire_start d) w) ∧ (l = 2 ∨ settled l d (upd l (fire_start d) w)).
Proof.
  intros Hw Hf [->|Hs].
  - destruct (inv_put2 (fire_start d (get 2 w)) w Hw) as [I1 I2]; [exact (inv_progress w Hw)|].
    split_and!; [done..|by left].
  - edestruct (inv_put_settled l d (fire_start d (get l w))) as (I1 & I2 & I3);
      [exact Hs| |split_and!; [exact I1|exact I2|by right]].
    destruct Hs as (_ & _ & Hk & (S1 & S2 & S3 & S4 & ls & S5 & S6) & _).
    unfold settled_list. cbn. rewrite S1. split_and!; try done. exists ls. split; [done|]. intros i f Hi _.
    apply (S6 i f Hi). congruence.
Qed.

Lemma phase_all n : phase_at n.
Proof.
  induction n as [n IHs] using lt_wf_ind. intros j w Hw Ho Hj Hp.
  destruct n as [|n]; [done|]. assert (phase_at n) as IH by (apply IHs; lia).
  destruct j as [l d|l d|ops].
  - assert (l = 2 ∨ settled l d w → phase_post w (run body (S n) (JFire l d) w)) as Hdirect.
    { intros Hl. destruct (fire_start_phase l d w Hw Hj Hl) as (I1 & I2 & I3).
      eapply phase_post_later; [exact I2|]. cbn [run].
      apply IH; [done|by apply fire_start_ok|by apply fire_start_job|done]. }
    destruct Hp as [Hl|(Hl & [Hp|Hs])]; [by apply Hdirect; left| |by apply Hdirect; right].
    destruct (settle_fire l d w Hp Hl Ho) as (w4 & W1 & W2 & W3 & W4 & ->).
    destruct n as [|[|[|[|n]]]]; [done..|].
    eapply (phase_post_later _ w4); [intros k' d' Hs; by destruct (not_both w k' d' Hp Hs)|].
    apply IHs; [lia|right; eauto|done|by intros _|by right].
  - by apply phase_loop.
  - cbn [run]. destruct ops as [|o ops]; [by split|]. inversion Hp as [|? ? Hop Hops]; subst.
    destruct (op_start o w) as [w1 start] eqn:Eo.
    destruct (op_start_phase _ _ _ _ Eo Hop Hw) as (P1 & P2 & P3).
    destruct (op_start_ok _ _ _ _ Eo Ho) as (O1 & O2 & O3).
    eapply phase_post_later; [exact P2|].
    destruct start as [[l d]|]; [|by apply IH].
    pose proof (IH (JFire l d) w1 P1 O1 (O3 l d eq_refl) (P3 l d eq_refl)) as IHf.
    pose proof (run_ok body n (JFire l d) w1 O1 (O3 l d eq_refl)) as Hr.
    destruct (run body n (JFire l d) w1) as [w2| |]; [|done..]. destruct IHf as [I1 I2], Hr as (R1 & _ & _).
    eapply phase_post_later; [exact I2|]. by apply IH.
Qed.
End settle.

Lemma world_ok_Deferred : world_ok Deferred.
Proof. intros l. apply list_ok_idle. by destruct l as [|[|[|l]]]. Qed.

(** C18: however a page adds handlers to a deferred and resolves, rejects and notifies it, also
    from within the handlers, the deferred settles at most once: either it is pending and only
    progress handlers have been called; or it is resolved or rejected, the handlers of the other
    outcome are never called, and every handler of the outcome is called with the same data. *)
Theorem deferred_settles_once kind body ops n w :
  (∀ f d, Forall (dop_ok kind) (body f d).1) → Forall (dop_ok kind) ops →
  run body n (JOps ops) Deferred = Done w →
  w_state w = Pending ∧ (∀ e, e ∈ w_trace w → kind e.1 = 2)
  ∨ ∃ k d, k < 2 ∧ w_state w = final k
      ∧ ∀ e, e ∈ w_trace w → kind e.1 = 2 ∨ kind e.1 = k ∧ e.2 = d.
Proof.
  intros Hb Hops Hr.
  pose proof (phase_all kind body Hb n (JOps ops) Deferred (or_introl (pending_Deferred kind))
    world_ok_Deferred I Hops) as H. rewrite Hr in H.
  destruct H as [[(_ & H1 & _ & _ & _ & H2)|(k & d & _ & H1 & Hk & _ & _ & _ & H2)] _]; [by left|].
  right. by exists k, d.
Qed.

(** Handler 3 rejects again and adds a handler while the deferred resolves. *)
Example deferred_settles_once_witness :
  let kind f := Nat.modulo f 3 in
  let body f (d : data) := if Nat.eqb f 3 then ([reject 7; done 6; notify 1], false) else ([], false) in
  let ops := [done 3; fail 1; progress 2; notify 4; resolve 5; reject 8; done 9] in
  ∃ w, run body 100 (JOps ops) Deferred = Done w ∧ w_trace w = [(2, 4); (3, 5); (6, 5); (9, 5)]
    ∧ (w_state w = Pending ∧ (∀ e, e ∈ w_trace w → kind e.1 = 2)
       ∨ ∃ k d, k < 2 ∧ w_state w = final k
           ∧ ∀ e, e ∈ w_trace w → kind e.1 = 2 ∨ kind e.1 = k ∧ e.2 = d).
Proof.
  intros kind body ops. destruct (run body 100 (JOps ops) Deferred) as [w| |] eqn:E;
    [|vm_compute in E; discriminate..].
  assert (∀ l u, l < 3 → kind u = l → dop_ok kind (OAdd l [CbUser u])) as Ha.
  { intros l u Hl Hu. split; [done|]. intros ? ->%list_elem_of_singleton. eauto. }
  assert (∀ l d, l < 3 → dop_ok kind (OFire l d)) as Hf by done.
  assert (Forall (dop_ok kind) ops) as Hops.
  { repeat apply Forall_cons_2; try apply Forall_nil_2;
      first [apply Ha; [lia|reflexivity]|apply Hf; lia]. }
  exists w. split; [done|]. split; [vm_compute in E; injection E as <-; reflexivity|].
  apply (deferred_settles_once kind body ops 100 w); [|exact Hops|exact E].
  intros f d. unfold body. destruct (Nat.eqb f 3); [|by apply Forall_nil_2].
  repeat apply Forall_cons_2; try apply Forall_nil_2; first [apply Ha; [lia|reflexivity]|apply Hf; lia].
Defined.

(** ** Handlers that only compute *)

Section pure.
Variable body : nat → data → list op * bool.
Hypothesis body_pure : ∀ f d, body f d = ([], false).

(** The world with the done list [l] and the rest of it. *)
Definition done_world (memory : option data) (fired firing : bool) (len idx : Z) (l : list callback)
    (b c : cblist) (s : dstate) (t : list (nat * data)) : world :=
  World [CbList once_memory memory fired firing 0 len idx (Some l) None; b; c] s t.

(** A new deferred with the done handlers [fs]. *)
Definition with_handlers (fs : list nat) : world :=
  done_world None false false 0 0 ([CbState Resolved; CbDisable 1; CbLock 2] ++ (CbUser <$> fs))
    (get 1 Deferred) (get 2 Deferred) Pending [].

Lemma add_handlers fs gs ops n :
  run body (length gs + n) (JOps ((done <$> gs) ++ ops)) (with_handlers fs)
  = run body n (JOps ops) (with_handlers (fs ++ gs)).
Proof.
  revert fs. induction gs as [|g gs IH]; intros fs; [by rewrite app_nil_r|].
  replace (fs ++ g :: gs) with ((fs ++ [g]) ++ gs) by by rewrite <- app_assoc.
  rewrite <- IH. cbn [length Nat.add fmap list_fmap app run op_start done]. cbv zeta.
  change (cl_list (get 0 (with_handlers fs))) with (Some ([CbState Resolved; CbDisable 1; CbLock 2] ++ (CbUser <$> fs))).
  cbv iota beta. rewrite push_all_false.
  unfold with_handlers. rewrite (fmap_app CbUser fs [g]), app_assoc. reflexivity.
Qed.

(** The loop over the rest [fs] of the list. *)
Lemma loop_users fs pre d m fired b c s t n :
  length fs + 1 < n →
  run body n (JLoop 0 d) (done_world (Some m) fired true (Z.of_nat (length pre + length fs))
    (Z.of_nat (length pre)) (pre ++ (CbUser <$> fs)) b c s t)
  = Done (done_world (Some m) fired false (Z.of_nat (length pre + length fs))
      (Z.of_nat (length pre + length fs)) [] b c s (t ++ ((., d) <$> fs))).
Proof.
  revert pre t n. induction fs as [|f fs IH]; intros pre t n Hn.
  - destruct n as [|n]; [lia|]. cbn [fmap list_fmap length]. rewrite !app_nil_r, Nat.add_0_r. cbn [run]. cbv zeta.
    set (w := done_world _ _ true _ _ _ _ _ _ _).
    change (cl_list (get 0 w)) with (Some pre). change (cl_index (get 0 w)) with (Z.of_nat (length pre)).
    change (cl_length (get 0 w)) with (Z.of_nat (length pre)). cbv iota beta.
    destruct (Z.ltb_spec (Z.of_nat (length pre)) (Z.of_nat (length pre))); [lia|]. reflexivity.
  - destruct n as [|n]; [lia|]. cbn [length] in Hn.
    erewrite (loop_step body n 0 d _ _ (pre ++ (CbUser <$> f :: fs)) (CbUser f)); cycle 1.
    + reflexivity.
    + change (0 ≤ Z.of_nat (length pre) < Z.of_nat (length pre + length (f :: fs)))%Z. cbn [length]. lia.
    + change (cl_index (get 0 _)) with (Z.of_nat (length pre)). rewrite Nat2Z.id.
      by rewrite lookup_app_r, Nat.sub_diag by lia.
    + cbn [call]. rewrite body_pure. reflexivity.
    + destruct n as [|n]; [lia|].
      assert (length fs + 1 < S n) as Hn' by lia.
      specialize (IH (pre ++ [CbUser f]) (t ++ [(f, d)]) (S n) Hn').
      rewrite length_app in IH. cbn [length] in IH |- *.
      replace (length pre + S (length fs)) with (length pre + 1 + length fs) by lia.
      cbn [fmap list_fmap]. change (CbUser f :: (CbUser <$> fs)) with ([CbUser f] ++ (CbUser <$> fs)).
      change ((f, d) :: ((., d) <$> fs)) with ([(f, d)] ++ ((., d) <$> fs)). rewrite !app_assoc.
      rewrite <- IH. by replace (Z.of_nat (length pre + 1)) with (Z.of_nat (length pre) + 1)%Z by lia.
Qed.

(** Resolving a pending deferred calls its handlers in order. *)
Lemma resolve_pending fs d n :
  length fs + 10 < n →
  ∃ b c len idx,
    run body n (JFire 0 d) (with_handlers fs)
    = Done (done_world (Some d) true false len idx [] b c Resolved ((., d) <$> fs)).
Proof.
  intros Hn. destruct n as [|n]; [lia|].
  do 4 eexists. transitivity (run body n (JLoop 0 d)
    (settling 0 d (CbUser <$> fs) [] 0 Pending (get 1 Deferred) (get 2 Deferred))).
  - reflexivity.
  - rewrite (settling_steps _ 0 d) by lia. destruct n as [|[|[|[|n]]]]; [lia..|].
    pose proof (loop_users fs [CbState Resolved; CbDisable 1; CbLock 2] d d true
      (disable (get 1 Deferred)) (lock (get 2 Deferred)) Resolved [] (S n) ltac:(lia)) as H.
    etransitivity; [|exact H]. unfold settling. rewrite length_fmap. reflexivity.
Qed.

(** A handler added afterwards is called at once. *)
Lemma add_resolved gs d len idx b c t n :
  2 * length gs + 3 < n →
  ∃ len' idx', run body n (JOps (done <$> gs)) (done_world (Some d) true false len idx [] b c Resolved t)
    = Done (done_world (Some d) true false len' idx' [] b c Resolved (t ++ ((., d) <$> gs))).
Proof.
  revert len idx t n. induction gs as [|g gs IH]; intros len idx t n Hn.
  - destruct n as [|n]; [lia|]. exists len, idx. cbn [fmap list_fmap run]. by rewrite app_nil_r.
  - destruct n as [|n]; [lia|]. cbn [length] in Hn. destruct n as [|n]; [lia|].
    edestruct (IH 1%Z 1%Z (t ++ [(g, d)]) (S n)) as (len' & idx' & H); [lia|]. exists len', idx'.
    cbn [fmap list_fmap]. change ((g, d) :: ((., d) <$> gs)) with ([(g, d)] ++ ((., d) <$> gs)).
    rewrite app_assoc, <- H.
    change (run body (S (S n)) (JOps (done g :: (done <$> gs))) (done_world (Some d) true false len idx [] b c Resolved t))
      with (match run body (S n) (JFire 0 d) (done_world (Some d) true false len idx [CbUser g] b c Resolved t) with
            | Done w => run body (S n) (JOps (done <$> gs)) w | r => r end).
    pose proof (loop_users [g] [] d d true b c Resolved t n ltac:(cbn; lia)) as Hl.
    change (run body (S n) (JFire 0 d) _) with
      (run body n (JLoop 0 d) (done_world (Some d) true true 1 0 [CbUser g] b c Resolved t)).
    cbn [length Nat.add app fmap list_fmap] in Hl. change (Z.of_nat 1) with 1%Z in Hl. change (Z.of_nat 0) with 0%Z in Hl.
    rewrite Hl. reflexivity.
Qed.

(** C37: when the handlers themselves leave the deferred alone, resolving it calls every handler,
    those added before and those added after, exactly once, in the order in which they were
    added and with the data of the resolution; the run terminates. *)
Theorem handlers_in_order fs gs d n :
  2 * length fs + 2 * length gs + 20 < n →
  ∃ w, run body n (JOps ((done <$> fs) ++ resolve d :: (done <$> gs))) Deferred = Done w
    ∧ w_state w = Resolved ∧ w_trace w = (., d) <$> (fs ++ gs).
Proof.
  intros Hn. replace n with (length fs + S (n - length fs - 1)) by lia.
  change Deferred with (with_handlers []). rewrite add_handlers. cbn [app].
  destruct (resolve_pending fs d (n - length fs - 1)) as (b & c & len & idx & Hr); [lia|].
  destruct (add_resolved gs d len idx b c ((., d) <$> fs) (n - length fs - 1)) as (len' & idx' & Ha); [lia|].
  rewrite fmap_app.
  exists (done_world (Some d) true false len' idx' [] b c Resolved (((., d) <$> fs) ++ ((., d) <$> gs))).
  split; [|by split].
  change (run body (S (n - length fs - 1)) (JOps (resolve d :: (done <$> gs))) (with_handlers fs))
    with (match run body (n - length fs - 1) (JFire 0 d) (with_handlers fs) with
          | Done w => run body (n - length fs - 1) (JOps (done <$> gs)) w | r => r end).
  rewrite Hr. exact Ha.
Qed.
End pure.

Example handlers_in_order_witness :
  (∀ f d : nat, (λ _ _, ([], false)) f d = ([] : list op, false)) ∧ 2 * 2 + 2 * 1 + 20 < 30
  ∧ ∃ w, run (λ _ _, ([], false)) 30 (JOps [done 4; done 2; resolve 7; done 9]) Deferred = Done w
    ∧ w_state w = Resolved ∧ w_trace w = [(4, 7); (2, 7); (9, 7)].
Proof.
  split; [done|]. split; [lia|].
  apply (handlers_in_order (λ _ _, ([], false)) (λ _ _, eq_refl) [4; 2] [9] 7 30). cbn. lia.
Defined.
