(* ===== verification/JqWhen.v ===== *)
(** * Waiting for several deferreds (jquery/src/deferred.js, jQuery.when and then)

    [jQuery.when] makes a master deferred that is resolved with the values of all its
    subordinates, or rejected with the first failure.  It is modelled against an interface to
    deferreds, which the callback lists of [JqCallbacks] implement.  The handlers it installs are
    called by the subordinates in any order; a subordinate settles once.  A call is the context
    with the arguments. *)

From S2P Require Import Prelude JqCallbacks.

(** ** The interface of a deferred *)

(** What a deferred of calls [A] offers to the code that settles it: [settle true] is
    [resolveWith], [settle false] is [rejectWith], [notify] is [notifyWith]. *)
Class DeferredOps (D A : Type) := {
  fresh : D;
  settle : bool → A → D → D;
  notifyWith : A → D → D;
  outcome : D → option (bool * A)
}.

Class DeferredLaws (D A : Type) `{DeferredOps D A} := {
  sound : D → Prop;
  sound_fresh : sound fresh ∧ outcome fresh = None;
  sound_settle b x d : sound d → sound (settle b x d);
  sound_notify x d : sound d → sound (notifyWith x d);
  settle_once b x d : sound d → outcome (settle b x d) = Some (default (b, x) (outcome d));
  notify_keeps x d : sound d → outcome (notifyWith x d) = outcome d
}.

(** ** The values of a call *)

(** Contexts and values of the page are numbers.  A value of the master: [undefined], a value, the
    array of several arguments, or a subordinate that has not been replaced by its value. *)
Inductive wval := WUndef | WVal (v : nat) | WArgs (l : list nat) | WSub (i : nat).

(** [this] and the arguments of a call of the page. *)
Abbreviation pcall := (nat * list nat)%type.
(** ... of the master: the arrays of contexts and of values. *)
Abbreviation mcall := (list (option nat) * list wval)%type.

(** [arguments.length > 1 ? slice.call(arguments) : value] *)
Definition packed (args : list nat) : wval :=
  match args with [] => WUndef | [v] => WVal v | _ => WArgs args end.

Section when.
Context {D : Type} `{DeferredOps D (mcall + pcall)}.

(** The variables of a call of [jQuery.when]. *)
Record when_state := WhenState {
  remaining : Z;
  resolveContexts : list (option nat); resolveValues : list wval;
  progressContexts : list (option nat); progressValues : list wval;
  master : D
}.

Definition set_master (f : D → D) (w : when_state) : when_state :=
  WhenState (remaining w) (resolveContexts w) (resolveValues w) (progressContexts w) (progressValues w) (f (master w)).

(** The function [updateFunc(i, contexts, values)] returns, for the progress and for the resolve
    arrays. *)
Definition update_progress (i : nat) (c : pcall) (w : when_state) : when_state :=
  let contexts := <[i := Some c.1]> (progressContexts w) in
  let values := <[i := packed c.2]> (progressValues w) in
  WhenState (remaining w) (resolveContexts w) (resolveValues w) contexts values
    (notifyWith (inl (contexts, values)) (master w)).

Definition update_resolve (i : nat) (c : pcall) (w : when_state) : when_state :=
  let contexts := <[i := Some c.1]> (resolveContexts w) in
  let values := <[i := packed c.2]> (resolveValues w) in
  let n := (remaining w - 1)%Z in
  WhenState n contexts values (progressContexts w) (progressValues w)
    (if (n =? 0)%Z then settle true (inl (contexts, values)) (master w) else master w).

(** What a subordinate calls; [Skip]: an argument that is not a promise. *)
Inductive handler_call := Skip | CallDone (c : pcall) | CallFail (c : pcall) | CallProgress (c : pcall).

Definition handle (i : nat) (h : handler_call) (w : when_state) : when_state :=
  match h with
  | Skip => WhenState (remaining w - 1) (resolveContexts w) (resolveValues w) (progressContexts w) (progressValues w) (master w)
  | CallDone c => update_resolve i c w
  | CallFail c => set_master (settle false (inr c)) w
  | CallProgress c => update_progress i c w
  end.

Definition handle_all (l : list (nat * handler_call)) (w : when_state) : when_state :=
  foldl (λ w '(i, h), handle i h w) w l.

(** An argument of [jQuery.when]: a value, or a promise with the outcome and the progress it
    remembers, which its handlers get at once. *)
Inductive argument := Value (v : nat) | Promise (settled : option (bool * pcall)) (memory : option pcall).

(** The calls that adding the three handlers makes: done, then fail, then progress. *)
Definition registration (i : nat) (a : argument) : list (nat * handler_call) :=
  match a with
  | Value _ => [(i, Skip)]
  | Promise o m =>
      match o with Some (true, c) => [(i, CallDone c)] | Some (false, c) => [(i, CallFail c)] | None => [] end
      ++ match m with Some c => [(i, CallProgress c)] | None => [] end
  end.

Definition first_value (i : nat) (a : argument) : wval := match a with Value v => WVal v | Promise _ _ => WSub i end.

(** [jQuery.when(...)]: the promise of its only argument, or of a new master. *)
Inductive when_result := TheArgument | Waiting (w : when_state).

Definition when (subordinates : list argument) : when_result :=
  let length_ := length subordinates in
  let values := imap first_value subordinates in
  match subordinates with
  | [Promise _ _] => TheArgument
  | _ =>
      let w :=
        if bool_decide (1 < length_) then
          let none := replicate length_ None in
          handle_all (concat (imap registration subordinates))
            (WhenState (Z.of_nat length_) none values none (replicate length_ WUndef) fresh)
        else WhenState 0 [] values [] [] fresh in
      Waiting (if (remaining w =? 0)%Z then set_master (settle true (inl (resolveContexts w, resolveValues w))) w else w)
  end.

(** ** What the master is to become *)

(** The first failure among the calls. *)
Fixpoint first_failure (l : list (nat * handler_call)) : option pcall :=
  match l with
  | [] => None
  | (_, CallFail c) :: _ => Some c
  | _ :: l => first_failure l
  end.

(** The outcome a subordinate has told. *)
Definition settles (h : handler_call) : bool := match h with CallProgress _ => false | _ => true end.
Definition told (l : list (nat * handler_call)) (i : nat) : option handler_call :=
  snd <$> head (filter (λ x, x.1 = i ∧ settles x.2 = true) l).

(** The value for a subordinate: that of its done call. *)
Definition value_of (l : list (nat * handler_call)) (i : nat) (a : argument) : wval :=
  match told l i with Some (CallDone c) => packed c.2 | _ => first_value i a end.
Definition context_of (l : list (nat * handler_call)) (i : nat) : option nat :=
  match told l i with Some (CallDone c) => Some c.1 | _ => None end.

(** The specification: rejected with the first failure, resolved with the values in the order of
    the arguments once all are done, pending otherwise. *)
Definition when_spec (args : list argument) (l : list (nat * handler_call)) : option (bool * (mcall + pcall)) :=
  match first_failure l with
  | Some c => Some (false, inr c)
  | None =>
      if forallb (λ i, bool_decide (is_Some (told l i))) (seq 0 (length args))
      then Some (true, inl (context_of l <$> seq 0 (length args), imap (value_of l) args))
      else None
  end.

(** The calls are those of subordinates that settle once. *)
Definition calls_ok (n : nat) (l : list (nat * handler_call)) : Prop :=
  Forall (λ x, x.1 < n) l ∧ NoDup (filter (λ x, settles x.2 = true) l).*1.
End when.

(** ** The calls so far *)

Section facts.
Context {D : Type} `{DeferredLaws D (mcall + pcall)}.

Lemma told_snoc l i h j :
  told (l ++ [(i, h)]) j
  = match told l j with Some x => Some x | None => if decide (i = j ∧ settles h = true) then Some h else None end.
Proof.
  unfold told. rewrite filter_app. destruct (filter _ l) as [|x t]; [|done]. cbn [app head fmap option_fmap option_map].
  rewrite filter_cons. cbn [fst snd]. by case_decide.
Qed.

Lemma first_failure_snoc l i h :
  first_failure (l ++ [(i, h)])
  = match first_failure l with Some c => Some c | None => match h with CallFail c => Some c | _ => None end end.
Proof. induction l as [|[j k] l IH]; [by destruct h|]. cbn. by destruct k. Qed.

Lemma calls_ok_snoc n l i h :
  calls_ok n (l ++ [(i, h)]) → calls_ok n l ∧ i < n ∧ (settles h = true → told l i = None).
Proof.
  intros [Hf Hn]. apply Forall_app in Hf as [Hf [Hi _]%Forall_cons]. rewrite filter_app, fmap_app in Hn.
  apply NoDup_app in Hn as (Hn & Hd & _). split; [done|]. split; [done|]. intros Hs. unfold told.
  destruct (head _) as [x|] eqn:Hx; [|done]. apply head_Some_elem_of, list_elem_of_filter in Hx as [[Hx1 Hx2] Hx].
  exfalso. apply (Hd i).
  - apply list_elem_of_fmap. exists x. split; [done|]. by apply list_elem_of_filter.
  - rewrite filter_cons_True by done. by left.
Qed.

(** What the counter counts: the subordinates without a done call. *)
Definition undone (l : list (nat * handler_call)) (i : nat) : Prop :=
  match told l i with Some Skip | Some (CallDone _) => False | _ => True end.
#[local] Instance undone_dec l i : Decision (undone l i).
Proof. unfold undone. destruct (told l i) as [[]|]; apply _. Defined.

Lemma filter_drop_one {A} (P Q : A → Prop) `{∀ x, Decision (P x), ∀ x, Decision (Q x)} (l : list A) a :
  NoDup l → a ∈ l → P a → ¬ Q a → (∀ x, x ≠ a → Q x ↔ P x) → length (filter P l) = S (length (filter Q l)).
Proof.
  intros Hn (l1 & l2 & ->)%list_elem_of_split HP HQ Heq. apply NoDup_app in Hn as (_ & Hd & Hn). apply NoDup_cons in Hn as [Ha _].
  assert (∀ k : list A, a ∉ k → filter P k = filter Q k) as Hk.
  { induction k as [|x k IH]; [done|]. intros Hx%not_elem_of_cons. rewrite !filter_cons, IH by naive_solver.
    pose proof (Heq x). repeat case_decide; naive_solver. }
  rewrite !filter_app, filter_cons_True, filter_cons_False, !length_app by done. cbn [length].
  rewrite (Hk l1), (Hk l2); [lia|done|]. intros Hin. apply (Hd a Hin). by left.
Qed.

Context (args : list argument).
#[local] Abbreviation n := (length args).
#[local] Abbreviation spec := (when_spec args).

(** The calls [l] have been handled; [strict]: the last check is behind. *)
Definition handled (strict : bool) (l : list (nat * handler_call)) (w : when_state) : Prop :=
  remaining w = Z.of_nat (length (filter (undone l) (seq 0 n)))
  ∧ resolveValues w = imap (value_of l) args ∧ resolveContexts w = context_of l <$> seq 0 n
  ∧ sound (master w)
  ∧ match first_failure l with
    | Some c => outcome (master w) = Some (false, inr c)
    | None => (strict = false ∧ outcome (master w) = None) ∨ outcome (master w) = spec l
    end.

Lemma spec_pending l i : first_failure l = None → i < n → told l i = None → spec l = None.
Proof.
  intros Hf Hi Ht. unfold when_spec. rewrite Hf. destruct (forallb _ _) eqn:E; [|done]. rewrite forallb_forall in E.
  specialize (E i). rewrite in_seq, Ht in E. specialize (E ltac:(lia)). by apply bool_decide_eq_true in E as [].
Qed.

Lemma failed_told l i c : first_failure l = None → told l i ≠ Some (CallFail c).
Proof.
  intros Hf Ht. unfold told in Ht. destruct (head _) as [x|] eqn:Hx; [|done]. injection Ht as Ht.
  apply head_Some_elem_of, list_elem_of_filter in Hx as [_ Hx]. destruct x as [j h]. cbn in Ht. subst h.
  induction l as [|[k h] l IH]; [by apply elem_of_nil in Hx|].
  apply elem_of_cons in Hx as [[= <- <-]|Hx]; [done|]. destruct h; try done; by apply IH.
Qed.

Lemma spec_none_left l :
  first_failure l = None → length (filter (undone l) (seq 0 n)) = 0 →
  spec l = Some (true, inl (context_of l <$> seq 0 n, imap (value_of l) args)).
Proof.
  intros Hf Hl. unfold when_spec. rewrite Hf. destruct (forallb _ _) eqn:E; [done|]. exfalso.
  apply not_true_iff_false in E. apply E, forallb_forall. intros i Hi. apply bool_decide_eq_true.
  destruct (told l i) as [h|] eqn:Ht; [done|]. apply nil_length_inv in Hl.
  assert (i ∈ filter (undone l) (seq 0 n)) as Hin; [|by rewrite Hl in Hin; apply elem_of_nil in Hin].
  apply list_elem_of_filter. split; [unfold undone; by rewrite Ht|by apply list_elem_of_In].
Qed.

Lemma spec_some_left l :
  first_failure l = None → length (filter (undone l) (seq 0 n)) ≠ 0 → spec l = None.
Proof.
  intros Hf Hl. destruct (filter (undone l) (seq 0 n)) as [|i t] eqn:E; [done|].
  assert (i ∈ filter (undone l) (seq 0 n)) as [Hu Hi%elem_of_seq]%list_elem_of_filter by (rewrite E; by left).
  apply (spec_pending l i); [done|lia|]. unfold undone in Hu. destruct (told l i) as [[]|] eqn:Ht; try done.
  - by destruct (failed_told l i c Hf).
  - exfalso. unfold told in Ht. destruct (head _) as [x|] eqn:Hx; [|done]. injection Ht as Ht.
    apply head_Some_elem_of, list_elem_of_filter in Hx as [[_ Hs] _]. by rewrite Ht in Hs.
Qed.

(** *** Handling one more call *)

Lemma told_other l i h j : i ≠ j ∨ settles h = false → told (l ++ [(i, h)]) j = told l j.
Proof.
  intros Hij. rewrite told_snoc. destruct (told l j); [done|]. rewrite decide_False; [done|].
  intros [-> Hs]. destruct Hij as [?|Hs']; [done|]. by rewrite Hs in Hs'.
Qed.
Lemma told_here l i h : told l i = None → settles h = true → told (l ++ [(i, h)]) i = Some h.
Proof. intros Ht Hs. by rewrite told_snoc, Ht, decide_True. Qed.

(** A call that is not a done call leaves the arrays. *)
Lemma arrays_keep l i h :
  (settles h = true → told l i = None) → (∀ c, h ≠ CallDone c) →
  imap (value_of (l ++ [(i, h)])) args = imap (value_of l) args
  ∧ context_of (l ++ [(i, h)]) <$> seq 0 n = context_of l <$> seq 0 n.
Proof.
  intros Ht Hd. assert (∀ j, j = i ∧ settles h = true ∨ told (l ++ [(i, h)]) j = told l j) as Hj.
  { intros j. destruct (decide (i = j)) as [<-|Hne]; [|right; apply told_other; by left].
    destruct (settles h) eqn:Hs; [by left|right; apply told_other; by right]. }
  split.
  - apply imap_ext. intros j a _. unfold value_of. destruct (Hj j) as [[-> Hs] | ->]; [|done].
    rewrite told_here by auto. rewrite Ht by done. by destruct h; [|destruct (Hd c)|..].
  - apply list_fmap_ext. intros _ j _. unfold context_of. destruct (Hj j) as [[-> Hs] | ->]; [|done].
    rewrite told_here by auto. rewrite Ht by done. by destruct h; [|destruct (Hd c)|..].
Qed.

Lemma arrays_done l i c :
  told l i = None → i < n →
  imap (value_of (l ++ [(i, CallDone c)])) args = <[i := packed c.2]> (imap (value_of l) args)
  ∧ context_of (l ++ [(i, CallDone c)]) <$> seq 0 n = <[i := Some c.1]> (context_of l <$> seq 0 n).
Proof.
  intros Ht Hi. split; apply list_eq; intros j.
  - rewrite list_lookup_imap. destruct (decide (i = j)) as [<-|Hne].
    + rewrite list_lookup_insert_eq by (by rewrite length_imap). destruct (lookup_lt_is_Some_2 args i Hi) as [a ->].
      cbn. unfold value_of. by rewrite told_here.
    + rewrite list_lookup_insert_ne, list_lookup_imap by done. destruct (args !! j); [|done]. cbn. unfold value_of.
      by rewrite told_other by (by left).
  - rewrite list_lookup_fmap. destruct (decide (i = j)) as [<-|Hne].
    + rewrite list_lookup_insert_eq by (by rewrite length_fmap, length_seq). rewrite lookup_seq_lt by done. cbn. unfold context_of.
      by rewrite told_here.
    + rewrite list_lookup_insert_ne, list_lookup_fmap by done. destruct (seq 0 n !! j) as [k|] eqn:Hk; [|done].
      apply lookup_seq in Hk as [-> _]. cbn. unfold context_of. by rewrite told_other by (by left).
Qed.

(** The counter falls with a skip or a done call, and only then. *)
Lemma undone_falls l i h :
  told l i = None → i < n → h = Skip ∨ (∃ c, h = CallDone c) →
  length (filter (undone l) (seq 0 n)) = S (length (filter (undone (l ++ [(i, h)])) (seq 0 n))).
Proof.
  intros Ht Hi Hh. assert (settles h = true) as Hs by (by destruct Hh as [->|[c ->]]).
  apply filter_drop_one with i; [apply NoDup_seq|apply elem_of_seq; lia| | |].
  - unfold undone. by rewrite Ht.
  - unfold undone. rewrite told_here by done. by destruct Hh as [->|[c ->]]; intros ?.
  - intros j Hj. unfold undone. by rewrite told_other by (left; congruence).
Qed.

Lemma undone_keeps l i h :
  (settles h = true → told l i = None) → h ≠ Skip → (∀ c, h ≠ CallDone c) →
  filter (undone (l ++ [(i, h)])) (seq 0 n) = filter (undone l) (seq 0 n).
Proof.
  intros Ht H1 H2. apply list_filter_iff. intros j. unfold undone. destruct (decide (i = j ∧ settles h = true)) as [[<- Hs]|Hne].
  - rewrite told_here, Ht by auto. by destruct h; [|destruct (H2 c)|..].
  - rewrite told_other; [done|]. destruct (decide (i = j)); [right|by left]. destruct (settles h); naive_solver.
Qed.

Lemma handle_handled strict l i h w :
  handled strict l w → calls_ok n (l ++ [(i, h)]) → (strict = true → h ≠ Skip) →
  handled strict (l ++ [(i, h)]) (handle i h w).
Proof.
  intros (HR & HV & HC & HS & HO) (_ & Hi & Ht)%calls_ok_snoc Hstrict.
  assert (told l i = None → first_failure l = None → (strict = false ∧ outcome (master w) = None) ∨ outcome (master w) = spec l →
          outcome (master w) = None) as Hpend.
  { intros Hti Hf [[_ ?]|Ho]; [done|]. by rewrite Ho, (spec_pending l i Hf Hi Hti). }
  unfold handled. rewrite first_failure_snoc. destruct h as [|c|c|c]; cbn [handle].
  - specialize (Ht eq_refl). destruct (arrays_keep l i Skip) as [-> ->]; [done|done|]. cbn [remaining resolveValues resolveContexts master].
    rewrite HR, (undone_falls l i Skip) by (done || by left). split_and!; [lia|done|done|done|].
    destruct (first_failure l) as [c|] eqn:Hf; [done|]. destruct strict; [by destruct Hstrict|].
    left. split; [done|]. by apply Hpend.
  - specialize (Ht eq_refl). destruct (arrays_done l i c Ht Hi) as [EV EC]. unfold update_resolve. cbn [remaining resolveValues resolveContexts master].
    rewrite EV, EC, <- HV, <- HC, HR, (undone_falls l i (CallDone c)) by (done || right; by eexists).
    set (k := length _). replace (Z.of_nat (S k) - 1)%Z with (Z.of_nat k) by lia.
    assert (first_failure (l ++ [(i, CallDone c)]) = first_failure l) as Ef by (rewrite first_failure_snoc; by destruct (first_failure l)).
    split_and!; [done|done|done|by destruct (Z.of_nat k =? 0)%Z; [apply sound_settle|]|].
    destruct (first_failure l) as [c'|] eqn:Hf.
    + destruct (Z.of_nat k =? 0)%Z; [|done]. by rewrite settle_once, HO.
    + pose proof (Hpend Ht eq_refl HO) as Ho. right. destruct (Z.eqb_spec (Z.of_nat k) 0) as [Hk|Hk].
      * rewrite settle_once, Ho, spec_none_left by (done || lia). cbn. by rewrite EV, EC, <- HV, <- HC.
      * rewrite Ho, spec_some_left; [done|done|]. subst k. lia.
  - specialize (Ht eq_refl). destruct (arrays_keep l i (CallFail c)) as [-> ->]; [done|done|].
    rewrite (undone_keeps l i (CallFail c)) by done. cbn [set_master remaining resolveValues resolveContexts master].
    split_and!; [done|done|done|by apply sound_settle|].
    destruct (first_failure l) as [c'|] eqn:Hf; [by rewrite settle_once, HO|].
    pose proof (Hpend Ht eq_refl HO) as Ho. by rewrite settle_once, Ho.
  - destruct (arrays_keep l i (CallProgress c)) as [EV EC]; [done|done|]. rewrite EV, EC, (undone_keeps l i (CallProgress c)) by done.
    unfold update_progress. cbn [remaining resolveValues resolveContexts master].
    split_and!; [done|done|done|by apply sound_notify|]. rewrite notify_keeps by done.
    destruct (first_failure l) as [c'|] eqn:Hf; [done|]. destruct HO as [?|Ho]; [by left|right]. rewrite Ho.
    unfold when_spec. rewrite first_failure_snoc, Hf, EV, EC.
    assert (forallb (λ j, bool_decide (is_Some (told (l ++ [(i, CallProgress c)]) j))) (seq 0 n)
            = forallb (λ j, bool_decide (is_Some (told l j))) (seq 0 n)) as ->; [|done].
    clear. induction (seq 0 n) as [|j t IH]; [done|]. cbn [forallb]. by rewrite IH, told_other by (by right).
Qed.
Lemma handle_all_handled strict l0 l w :
  handled strict l0 w → calls_ok n (l0 ++ l) → (strict = true → Forall (λ x, x.2 ≠ Skip) l) →
  handled strict (l0 ++ l) (handle_all l w).
Proof.
  revert l0 w. induction l as [|[i h] l IH]; intros l0 w Hw Hc Hs; [by rewrite app_nil_r|].
  cbn [handle_all foldl]. rewrite cons_middle, app_assoc in Hc |- *. apply IH; [|done|].
  - apply handle_handled; [done| |].
    + destruct Hc as [Hf Hn]. apply Forall_app in Hf as [Hf _]. split; [done|].
      rewrite filter_app, fmap_app in Hn. by apply NoDup_app in Hn as [Hn _].
    + intros E. by apply Hs, Forall_cons in E as [? _].
  - intros E. by apply Hs, Forall_cons in E as [_ ?].
Qed.

(** The calls that the registration of the handlers makes. *)
Definition registered : list (nat * handler_call) := concat (imap registration args).

Lemma handled_start :
  handled false [] (WhenState (Z.of_nat n) (replicate n None) (imap first_value args) (replicate n None) (replicate n WUndef) fresh).
Proof.
  destruct sound_fresh as [Hs Ho]. unfold handled. cbn [remaining resolveValues resolveContexts master first_failure]. split_and!.
  - f_equal. transitivity (length (seq 0 n)); [by rewrite length_seq|]. f_equal.
    generalize (seq 0 n). induction l as [|i t IH]; [done|]. rewrite filter_cons_True by done. by rewrite <- IH.
  - by apply imap_ext.
  - transitivity (replicate (length (seq 0 n)) (None : option nat)); [by rewrite length_seq|].
    generalize (seq 0 n). induction l as [|i t IH]; [done|]. cbn. by rewrite IH.
  - done.
  - by left.
Qed.

(** The last check closes the case that the last argument was no promise. *)
Lemma last_check l w :
  handled false l w →
  handled true l (if (remaining w =? 0)%Z then set_master (settle true (inl (resolveContexts w, resolveValues w))) w else w).
Proof.
  intros (HR & HV & HC & HS & HO). destruct (Z.eqb_spec (remaining w) 0) as [E|E].
  - unfold handled. cbn [set_master remaining resolveValues resolveContexts master]. split_and!; [done|done|done|by apply sound_settle|].
    rewrite settle_once by done. destruct (first_failure l) as [c|] eqn:Hf; [by rewrite HO|]. right.
    destruct HO as [[_ Ho]|Ho]; [|by rewrite Ho, (spec_none_left l Hf) by lia].
    rewrite Ho, (spec_none_left l Hf) by lia. cbn. by rewrite HC, HV.
  - unfold handled. split_and!; [done|done|done|done|]. destruct (first_failure l) as [c|] eqn:Hf; [done|]. right.
    destruct HO as [[_ Ho]|Ho]; [|done]. rewrite Ho, (spec_some_left l Hf); [done|lia].
Qed.
End facts.

(** ** Callback lists implement the interface *)

#[export] Instance wval_eq_dec : EqDecision wval.
Proof. solve_decision. Defined.
#[export] Program Instance wval_countable : Countable wval :=
  inj_countable (λ v, match v with WUndef => inl (inl tt) | WVal n => inl (inr n) | WArgs l => inr (inl l) | WSub i => inr (inr i) end)
    (λ v : (unit + nat) + (list nat + nat),
       Some match v with inl (inl _) => WUndef | inl (inr n) => WVal n | inr (inl l) => WArgs l | inr (inr i) => WSub i end) _.
Next Obligation. by intros []. Qed.

Section implementation.
Context {A : Type} `{Countable A}.

(** An operation on a deferred whose handlers leave it alone. *)
Definition operate (o : op) (w : world) : world :=
  match run (λ _ _, ([], false)) 30 (JOps [o]) w with Done w => w | _ => w end.

#[export] Instance callbacks_ops : DeferredOps world A := {|
  fresh := Deferred;
  settle b x := operate (if b then resolve (encode_nat x) else reject (encode_nat x));
  notifyWith x := operate (notify (encode_nat x));
  outcome w :=
    match w_state w with
    | Pending => None
    | Resolved => d ← cl_memory (get 0 w); x ← decode_nat d; Some (true, x)
    | Rejected => d ← cl_memory (get 1 w); x ← decode_nat d; Some (false, x)
    end
|}.

(** The worlds of a deferred without handlers: what it was notified of last and settled with. *)
Definition noted (m : option nat) : world :=
  match m with Some d => operate (notify d) Deferred | None => Deferred end.
Definition settled_as (b : bool) (d : nat) (m : option nat) : world :=
  operate (if b then resolve d else reject d) (noted m).
Definition deferred_sound (w : world) : Prop :=
  (∃ m, w = noted m) ∨ ∃ b (x : A) m, w = settled_as b (encode_nat x) m.

Lemma notify_noted d m : operate (notify d) (noted m) = noted (Some d).
Proof. destruct m; vm_compute; reflexivity. Qed.
Lemma settle_settled (b : bool) d b' d' m : operate (if b then resolve d else reject d) (settled_as b' d' m) = settled_as b' d' m.
Proof. destruct b, b', m; vm_compute; reflexivity. Qed.
Lemma notify_settled d b' d' m : operate (notify d) (settled_as b' d' m) = settled_as b' d' m.
Proof. destruct b', m; vm_compute; reflexivity. Qed.
Lemma outcome_noted m : outcome (noted m) = (None : option (bool * A)).
Proof. destruct m; vm_compute; reflexivity. Qed.
Lemma outcome_settled b (x : A) m : outcome (settled_as b (encode_nat x) m) = Some (b, x).
Proof.
  transitivity (y ← decode_nat (encode_nat x) : option A; Some (b, y)); [destruct b, m; vm_compute; reflexivity|]. by rewrite decode_encode_nat.
Qed.

#[local] Opaque operate.

#[export] Program Instance callbacks_laws : DeferredLaws world A := {| sound := deferred_sound |}.
Next Obligation. split; [by left; exists None|reflexivity]. Qed.
Next Obligation.
  intros b x w [[m ->]|(b' & x' & m & ->)]; right.
  - by exists b, x, m.
  - exists b', x', m. apply settle_settled.
Qed.
Next Obligation.
  intros x w [[m ->]|(b' & x' & m & ->)].
  - left. exists (Some (encode_nat x)). apply notify_noted.
  - right. exists b', x', m. apply notify_settled.
Qed.
Next Obligation.
  intros b x w [[m ->]|(b' & x' & m & ->)].
  - rewrite outcome_noted. apply (outcome_settled b x m).
  - rewrite outcome_settled. cbn [default from_option id]. change (settle b x ?w) with (operate (if b then resolve (encode_nat x) else reject (encode_nat x)) w).
    by rewrite settle_settled, outcome_settled.
Qed.
Next Obligation.
  intros x w [[m ->]|(b' & x' & m & ->)].
  - change (notifyWith x ?w) with (operate (notify (encode_nat x)) w). by rewrite notify_noted, !outcome_noted.
  - change (notifyWith x ?w) with (operate (notify (encode_nat x)) w). by rewrite notify_settled.
Qed.
End implementation.

(** ** Correctness *)

(** C19: [jQuery.when] of two or more arguments implements its specification, over any deferred that
    keeps its first outcome: however the subordinates call its handlers, at once or later and in any
    order, with progress in between, the master is rejected exactly with the first failure, resolved
    exactly when every promise is done, with the contexts and values in the order of the arguments,
    and pending until then. *)
Theorem when_correct {D} `{DeferredLaws D (mcall + pcall)} (args : list argument) (calls : list (nat * handler_call)) :
  2 ≤ length args → calls_ok (length args) (registered args ++ calls) → Forall (λ x, x.2 ≠ Skip) calls →
  ∃ w : when_state, when args = Waiting w
    ∧ outcome (master (handle_all calls w)) = when_spec args (registered args ++ calls)
    ∧ outcome (master w) = when_spec args (registered args).
Proof.
  intros Hn Hc Hs. unfold when. rewrite bool_decide_eq_true_2 by lia. fold (registered args).
  set (w0 := handle_all (registered args) _).
  assert (calls_ok (length args) (registered args)) as Hr.
  { destruct Hc as [Hf Hd]. apply Forall_app in Hf as [Hf _]. split; [done|]. rewrite filter_app, fmap_app in Hd.
    by apply NoDup_app in Hd as [Hd _]. }
  pose proof (handle_all_handled args false [] (registered args) _ (handled_start args) Hr ltac:(done)) as HW0. fold w0 in HW0.
  pose proof (last_check args _ _ HW0) as HW1. set (w := if (remaining w0 =? 0)%Z then _ else w0) in *.
  assert (∀ l (v : when_state), handled args true l v → outcome (master v) = when_spec args l) as Hout.
  { intros l v (_ & _ & _ & _ & HO). unfold when_spec in *. destruct (first_failure l); [done|].
    by destruct HO as [[? _]|?]. }
  exists w. split_and!.
  - destruct args as [|a [|b t]]; [cbn in Hn; lia|cbn in Hn; lia|]. by destruct a.
  - apply Hout. by apply handle_all_handled.
  - by apply Hout.
Qed.

#[local] Abbreviation result w := (outcome (A := mcall + pcall) (master w)).

Example when_correct_witness :
  let args := [Promise None None; Value 7; Promise None (Some (0, [1]))] in
  let calls := [(2, CallDone (5, [8; 9])); (0, CallProgress (4, [])); (0, CallDone (4, [3]))] in
  ∃ w : when_state, when (D := world) args = Waiting w ∧ result w = None
    ∧ result (handle_all calls w)
      = Some (true, inl ([Some 4; None; Some 5], [WVal 3; WVal 7; WArgs [8; 9]])).
Proof.
  intros args calls. destruct (when_correct (D := world) args calls) as (w & E & Ho & Hw).
  - vm_compute. lia.
  - split; [apply (bool_decide_eq_true_1 (Forall _ _))|apply (bool_decide_eq_true_1 (NoDup _))]; vm_compute; reflexivity.
  - by repeat constructor.
  - exists w. split; [exact E|]. split; [exact Hw|exact Ho].
Defined.

(** ** [promise.then] *)

Section then_.
Context {D : Type} `{DeferredLaws D pcall}.

Inductive action := Resolve | Reject | Notify.

(** [newDefer[action + "With"]] *)
Definition perform (k : action) (c : pcall) (d : D) : D :=
  match k with Resolve => settle true c d | Reject => settle false c d | Notify => notifyWith c d end.

(** What a function given to [then] returns: a value, or a promise by its number. *)
Inductive returned := RValue (v : nat) | RPromise (q : nat).

Variable fns : action → option (pcall → returned).
(** [this === promise ? newDefer.promise() : this] *)
Variable context : nat → nat.

(** The new deferred and the promises whose calls it forwards. *)
Record then_state := ThenState { newDefer : D; forwards : list nat }.

Inductive then_call := FromSource (k : action) (c : pcall) | FromReturned (q : nat) (k : action) (c : pcall).

Definition then_handle (t : then_state) (h : then_call) : then_state :=
  match h with
  | FromSource k c =>
      match fns k with
      | Some fn =>
          match fn c with
          | RPromise q => ThenState (newDefer t) (forwards t ++ [q])
          | RValue v => ThenState (perform k (context c.1, [v]) (newDefer t)) (forwards t)
          end
      | None => ThenState (perform k (context c.1, c.2) (newDefer t)) (forwards t)
      end
  | FromReturned q k c =>
      if bool_decide (q ∈ forwards t) then ThenState (perform k c (newDefer t)) (forwards t) else t
  end.

Definition then_ : then_state := ThenState fresh [].

(** The outcome of the promise of [then] when the source settles: a function that returns a value
    passes it on with the same action, so that a fail function does not recover. *)
Lemma then_outcome (b : bool) c :
  let k := if b then Resolve else Reject in
  let t := then_handle then_ (FromSource k c) in
  match (fn ← fns k; Some (fn c)) with
  | None => outcome (newDefer t) = Some (b, (context c.1, c.2))
  | Some (RValue v) => outcome (newDefer t) = Some (b, (context c.1, [v]))
  | Some (RPromise q) =>
      outcome (newDefer t) = None
      ∧ ∀ b' c', outcome (newDefer (then_handle t (FromReturned q (if b' : bool then Resolve else Reject) c'))) = Some (b', c')
  end.
Proof.
  destruct sound_fresh as [Hs Ho]. intros k t. subst t. cbn [then_handle].
  assert (∀ b c (d : D), perform (if b : bool then Resolve else Reject) c d = settle b c d) as Hp by (by intros []).
  destruct (fns k) as [fn|]; cbn [mbind option_bind].
  - destruct (fn c) as [v|q]; cbn [newDefer forwards then_].
    + subst k. by rewrite Hp, settle_once, Ho.
    + split; [done|]. intros b' c'. unfold then_handle, then_. cbn [newDefer forwards app].
      rewrite bool_decide_eq_true_2 by (by left). cbn [newDefer]. by rewrite Hp, settle_once, Ho.
  - subst k. cbn [newDefer then_]. by rewrite Hp, settle_once, Ho.
Qed.
End then_.
