(* ===== verification/JsInt.v ===== *)
(** * Integer numbers of the language

    Positions and counts are integral numbers, NaN or an infinity; integers stay far below 2^53
    in the sources that use this type, so their arithmetic is exact. *)

From S2P Require Import Prelude JsNumber.
#[local] Open Scope Z_scope.

Inductive jint := JInt (z : Z) | JNaN | JInf (neg : bool).
Coercion JInt : Z >-> jint.

#[export] Instance jint_eq_dec : EqDecision jint.
Proof. solve_decision. Defined.

Definition jneg (a : jint) : jint :=
  match a with JInt z => JInt (- z) | JNaN => JNaN | JInf n => JInf (negb n) end.

Definition jadd (a b : jint) : jint :=
  match a, b with
  | JInt x, JInt y => JInt (x + y)
  | JNaN, _ | _, JNaN => JNaN
  | JInf n, JInf m => if Bool.eqb n m then JInf n else JNaN
  | JInf n, _ | _, JInf n => JInf n
  end.
Definition jsub (a b : jint) : jint := jadd a (jneg b).

Definition jmul (a b : jint) : jint :=
  match a, b with
  | JInt x, JInt y => JInt (x * y)
  | JNaN, _ | _, JNaN => JNaN
  | JInf n, JInf m => JInf (xorb n m)
  | JInf n, JInt z | JInt z, JInf n => if z =? 0 then JNaN else JInf (xorb n (z <? 0))
  end.

(** [a % b]: the sign is that of the dividend. *)
Definition jrem (a b : jint) : jint :=
  match a, b with
  | JInt x, JInt y => if y =? 0 then JNaN else JInt (Z.rem x y)
  | JInt x, JInf _ => JInt x
  | _, _ => JNaN
  end.

(** [Math.floor(a / b)], [Math.ceil(a / b)] *)
Definition jdiv0 (x : Z) : jint := if x =? 0 then JNaN else JInf (x <? 0).
Definition jfloor_div (a b : jint) : jint :=
  match a, b with
  | JInt x, JInt y => if y =? 0 then jdiv0 x else JInt (x / y)
  | JInt _, JInf _ => JInt 0
  | JInf n, JInt y => JInf (xorb n (y <? 0))
  | _, _ => JNaN
  end.
Definition jceil_div (a b : jint) : jint :=
  match a, b with
  | JInt x, JInt y => if y =? 0 then jdiv0 x else JInt (- ((- x) / y))
  | JInt _, JInf _ => JInt 0
  | JInf n, JInt y => JInf (xorb n (y <? 0))
  | _, _ => JNaN
  end.

Definition jlt (a b : jint) : bool :=
  match a, b with
  | JInt x, JInt y => x <? y
  | JInf n, JInf m => n && negb m
  | JInf n, JInt _ => n
  | JInt _, JInf m => negb m
  | _, _ => false
  end.
Definition jeq (a b : jint) : bool :=
  match a, b with
  | JInt x, JInt y => x =? y
  | JInf n, JInf m => Bool.eqb n m
  | _, _ => false
  end.
(** [a <= b] *)
Definition jle (a b : jint) : bool := jlt a b || jeq a b.

Definition jmin (a b : jint) : jint :=
  match a, b with
  | JNaN, _ | _, JNaN => JNaN
  | _, _ => if jlt a b then a else b
  end.

(** An integral number as a value, and back: [None] for a number with a fraction. *)
Definition num_of_jint (a : jint) : num :=
  match a with JInt z => num_of_Z z | JNaN => nan | JInf n => S754_infinity n end.

Definition jint_of_num (x : num) : option jint :=
  match x with
  | S754_zero _ => Some (JInt 0)
  | S754_infinity n => Some (JInf n)
  | S754_nan => Some JNaN
  | S754_finite s m e =>
      if 0 <=? e then Some (JInt (cond_Zopp s (Zpos m * 2 ^ e)))
      else if Zpos m mod 2 ^ (- e) =? 0 then Some (JInt (cond_Zopp s (Zpos m / 2 ^ (- e)))) else None
  end.

Example jint_ex : (jint_of_num (num_of_Z 12), jint_of_num (parse_int "7px"%js), jint_of_num (parse_int []),
  jrem (JInt (-5)) (JInt 3), jceil_div (JInt 11) (JInt 5)) = (Some (JInt 12), Some (JInt 7), Some JNaN, JInt (-2), JInt 3).
Proof. vm_compute. reflexivity. Qed.
