(* ===== verification/DtUtil.v ===== *)
(** * Helpers of the table library (jquery.dataTables.js, "util")

    Tests on cell values, array helpers, tag stripping, escaping for regular expressions and
    the throttle. *)

From S2P Require Import Prelude JsString JsObject JsNumber JsValue.

(** ** Cell values *)

Definition _empty (d : val) : bool :=
  match d with
  | VBool true => true
  | VStr s => (s =s? []) || (s =s? "-"%js)
  | d => negb (truthy d)
  end.

(** [isFinite(v)] *)
Definition is_finite (x : num) : bool :=
  match x with S754_nan | S754_infinity _ => false | _ => true end.

Definition _intVal (s : val) : option num :=
  let integer := parse_int (to_string s) in
  if negb (is_nan integer) && is_finite (to_number s) then Some integer else None.

(** [s.replace(new RegExp(escape(p), 'g'), r)] for a non-empty literal [p] and an [r] without
    dollar signs. *)
Definition replace_all (p r s : jstring) : jstring := join r (split p s).

Definition dot : N := 46.

(** The cache [_re_dic] of the compiled expressions has no other effect. *)
Definition _numToDecimal (num : val) (decimalPoint : jstring) : val :=
  match num with
  | VStr s =>
      if negb (decimalPoint =s? "."%js)
      then VStr (replace_all decimalPoint "."%js (replace_units (N.eqb dot) [] s))
      else num
  | _ => num
  end.

(** [/[',$£€¥%\u2009\u202F\u20BD\u20a9\u20BArfk]/gi] *)
Definition _re_formatted_numeric (u : N) : bool :=
  bool_decide (u ∈ [39; 44; 36; 0xA3; 0x20AC; 0xA5; 37; 0x2009; 0x202F; 0x20BD; 0x20A9; 0x20BA;
                    114; 102; 107; 82; 70; 75]%N).

(** [isFinite] and [parseFloat] convert a number to itself. *)
Definition float_of (d : val) : num := parse_float (to_string d).

Definition _isNumber (d : val) (decimalPoint : jstring) (formatted : bool) : bool :=
  if _empty d then true
  else
    let str := match d with VStr _ => true | _ => false end in
    let d := if negb (decimalPoint =s? []) && str then _numToDecimal d decimalPoint else d in
    let d := match d with
             | VStr s => if formatted && str then VStr (replace_units _re_formatted_numeric [] s) else d
             | _ => d
             end in
    negb (is_nan (float_of d)) && is_finite (to_number d).

Definition _isHtml (d : val) : bool :=
  _empty d || match d with VStr _ => true | _ => false end.

(** [.] does not match a line terminator. *)
Definition line_end (u : N) : bool := bool_decide (u ∈ [10; 13; 0x2028; 0x2029]%N).

(** How many units [.*?>] matches at the start of [s]. *)
Fixpoint tag_rest (s : jstring) : option nat :=
  match s with
  | [] => None
  | u :: t => if (u =? 62)%N then Some 1 else if line_end u then None else S <$> tag_rest t
  end.

(** [s.replace(/<.*?>/g, '')]; [skip]: units of a match still to pass. *)
Fixpoint strip_go (skip : nat) (s : jstring) : jstring :=
  match s with
  | [] => []
  | u :: t =>
      match skip with
      | S k => strip_go k t
      | O =>
          if (u =? 60)%N then
            match tag_rest t with Some k => strip_go k t | None => u :: strip_go 0 t end
          else u :: strip_go 0 t
      end
  end.
Definition _stripHtml (d : jstring) : jstring := strip_go 0 d.

(** [true] or [null]; null stands as [false]. *)
Definition _htmlNumeric (d : val) (decimalPoint : jstring) (formatted : bool) : bool :=
  if _empty d then true
  else match d with
       | VStr s => _isNumber (VStr (_stripHtml s)) decimalPoint formatted
       | _ => false
       end.

Example isNumber_ex :
  (_isNumber (VStr "1.234,5 kr"%js) ","%js true, _isNumber (VStr "1.234,5"%js) []%js false,
   _isNumber (VStr "-"%js) []%js false, _htmlNumeric (VStr "<b>7</b>"%js) []%js false)
  = (true, false, true, true).
Proof. vm_compute. reflexivity. Qed.

(** ** Arrays *)

(** [a[i][prop][prop2]] of the truthy elements that have the property. *)
Definition _pluck (a : list val) (prop : jstring) (prop2 : option jstring) : list val :=
  match prop2 with
  | Some p2 => omap (λ v, if truthy v && truthy (get_prop v prop)
                          then Some (get_prop (get_prop v prop) p2) else None) a
  | None => omap (λ v, if truthy v then Some (get_prop v prop) else None) a
  end.

(** [None]: an index leads to undefined or null, whose property is read. *)
Definition _pluck_order (a : list val) (order : list nat) (prop : jstring) (prop2 : option jstring)
    : option (list val) :=
  let at_ i := match a !! i with Some v => if nullish v then None else Some v | None => None end in
  match prop2 with
  | Some p2 =>
      l ← mapM (λ i, v ← at_ i; Some (get_prop v prop)) order;
      Some (omap (λ v, if truthy v then Some (get_prop v p2) else None) l)
  | None => mapM (λ i, v ← at_ i; Some (get_prop v prop)) order
  end.

(** [_range(len)] and [_range(len, start)]: the second form starts at [len]. *)
Definition _range (len : Z) (start : option Z) : list Z :=
  match start with
  | None => seqZ 0 len
  | Some e => seqZ len (e - len)
  end.

Definition _removeEmpty (a : list val) : list val := filter (λ v, truthy v = true) a.

Section unique.
Context {A : Type} (strict_eq : A → A → bool).

Fixpoint unique_go (src out : list A) : list A :=
  match src with
  | [] => out
  | v :: src => unique_go src (if existsb (λ o, strict_eq o v) out then out else out ++ [v])
  end.
Definition _unique (src : list A) : list A := unique_go src [].
End unique.

(** ** Throttle

    [time] in milliseconds; a timer is due at its time and carries the arguments of the call
    that set it. *)
Section throttle.
Context {args : Type}.
Variable frequency : Z.

Record throttled := Throttled {
  th_last : option Z;
  th_timer : option (Z * args);
  th_runs : list (Z * args)                (* the calls of [fn], oldest first *)
}.
Inductive throttle_event := TCall (now : Z) (a : args) | TTimer (now : Z).

Definition throttle_idle : throttled := Throttled None None [].

(** [last && now < last + frequency] *)
Definition too_soon (now : Z) (last : option Z) : bool :=
  match last with Some l => negb (l =? 0)%Z && (now <? l + frequency)%Z | None => false end.

Definition throttle (e : throttle_event) (st : throttled) : throttled :=
  match e with
  | TCall now a =>
      if too_soon now (th_last st)
      then Throttled (th_last st) (Some (now + frequency, a)%Z) (th_runs st)
      else Throttled (Some now) (th_timer st) (th_runs st ++ [(now, a)])
  | TTimer now =>
      match th_timer st with
      | Some (due, a) => if (due <=? now)%Z then Throttled None None (th_runs st ++ [(now, a)]) else st
      | None => st
      end
  end.
End throttle.
Arguments throttle_event : clear implicits.
Arguments throttled : clear implicits.

Definition throttle_run {args} (f : Z) (es : list (throttle_event args)) : throttled args :=
  foldl (λ st e, throttle f e st) throttle_idle es.

(** ** Escaping *)

Definition re_special (u : N) : bool :=
  bool_decide (u ∈ ("/.*+?|()[]{}\$^-"%js : jstring)).

(** [val.replace(_re_escape_regex, '\\$1')] *)
Definition escapeRegex (val : jstring) : jstring :=
  flat_map (λ u, if re_special u then [92%N; u] else [u]) val.

Example escape_ex : escapeRegex "a.b (c)"%js = "a\.b \(c\)"%js.
Proof. reflexivity. Qed.

(** ** Theorems *)

(** A bracket that closes nothing closes nothing after the stripping either. *)
Lemma strip_go_none s : tag_rest s = None → tag_rest (strip_go 0 s) = None.
Proof.
  induction s as [|u s IH]; [done|]. cbn [tag_rest strip_go].
  destruct (N.eqb_spec u 62) as [|H1]; [done|]. destruct (line_end u) eqn:El.
  - intros _. destruct (N.eqb_spec u 60) as [->|]; [by vm_compute in El|].
    cbn [tag_rest]. by destruct (N.eqb_spec u 62), (line_end u).
  - destruct (tag_rest s) eqn:Et; [done|]. intros _. specialize (IH eq_refl).
    destruct (u =? 60)%N; cbn [tag_rest]; (destruct (N.eqb_spec u 62); [done|]); by rewrite El, IH.
Qed.

Lemma strip_go_idem k d : strip_go 0 (strip_go k d) = strip_go k d.
Proof.
  revert k. induction d as [|u d IH]; intros k; [done|].
  destruct k as [|k]; [|apply IH]. cbn [strip_go].
  destruct (N.eqb_spec u 60) as [->|H]; [destruct (tag_rest d) eqn:Et; [apply IH|]|];
    cbn [strip_go]; [|apply N.eqb_neq in H; rewrite H; by rewrite IH].
  rewrite N.eqb_refl, strip_go_none by done. by rewrite IH.
Qed.

(** stripping the tags of a text once leaves no tag behind, however the brackets are nested
    or broken: stripping the result again changes nothing, and no bracket of it opens a tag. *)
Theorem stripHtml_complete d :
  _stripHtml (_stripHtml d) = _stripHtml d
  ∧ ∀ pre post, _stripHtml d = pre ++ 60%N :: post → tag_rest post = None.
Proof.
  split; [apply strip_go_idem|]. unfold _stripHtml. generalize 0 as k.
  induction d as [|u d IH]; intros k pre post; [by destruct pre|].
  destruct k as [|k]; [|apply IH]. cbn [strip_go].
  destruct (N.eqb_spec u 60) as [->|H]; [destruct (tag_rest d) eqn:Et; [apply IH|]|];
    (destruct pre as [|v pre]; cbn [app]; [|intros [= _ E]; by apply (IH 0 pre post)]);
    intros E; injection E; [|done]. intros <-. by apply strip_go_none.
Qed.

Example stripHtml_ex : _stripHtml "a<<b>c>d<e"%js = "ac>d<e"%js.
Proof. reflexivity. Qed.

Section unique_facts.
Context {A : Type} `{EqDecision A}.
Let eqb (x y : A) : bool := bool_decide (x = y).

Lemma unique_go_spec src out :
  NoDup out →
  NoDup (unique_go eqb src out) ∧ (∀ x, x ∈ unique_go eqb src out ↔ x ∈ out ∨ x ∈ src)
  ∧ ∃ rest, unique_go eqb src out = out ++ rest ∧ rest `sublist_of` src.
Proof.
  revert out. induction src as [|v src IH]; intros out Hn.
  - split_and!; [done|set_solver|]. exists []. by rewrite app_nil_r.
  - cbn [unique_go]. assert (existsb (λ o, eqb o v) out = bool_decide (v ∈ out)) as ->.
    { apply Bool.eq_iff_eq_true. rewrite existsb_exists, bool_decide_eq_true. split.
      - intros (x & Hx & Hv). apply bool_decide_eq_true_1 in Hv as ->. by apply list_elem_of_In.
      - intros Hv. exists v. split; [by apply list_elem_of_In|]. by apply bool_decide_eq_true_2. }
    case_bool_decide as Hv.
    + destruct (IH out Hn) as (H1 & H2 & rest & H3 & H4). split_and!; [done|set_solver|].
      exists rest. split; [done|by constructor].
    + destruct (IH (out ++ [v])) as (H1 & H2 & rest & H3 & H4).
      { apply NoDup_app. split_and!; [done|set_solver|apply NoDup_singleton]. }
      split_and!; [done|set_solver|]. exists (v :: rest). split; [by rewrite H3, <- app_assoc|by constructor].
Qed.

(** [_unique] keeps the first occurrence of every element, in order. *)
Lemma unique_spec (src : list A) :
  NoDup (_unique eqb src) ∧ (∀ x, x ∈ _unique eqb src ↔ x ∈ src) ∧ _unique eqb src `sublist_of` src.
Proof.
  destruct (unique_go_spec src []) as (H1 & H2 & rest & H3 & H4); [constructor|].
  split_and!; [done|set_solver|]. unfold _unique. by rewrite H3.
Qed.
End unique_facts.

(** ** The throttle *)

Section throttle_facts.
Context {args : Type}.
Variable f : Z.

Definition calls_of (es : list (throttle_event args)) : list args :=
  omap (λ e, match e with TCall _ a => Some a | TTimer _ => None end) es.

(** The arguments that have run, and those the pending timer will run. *)
Definition covered (st : throttled args) : list args :=
  (th_runs st).*2 ++ match th_timer st with Some (_, a) => [a] | None => [] end.

Lemma throttle_covered e st :
  covered (throttle f e st) ⊆+ covered st ++ match e with TCall _ b => [b] | _ => [] end.
Proof.
  unfold covered. destruct st as [l t r], e as [now b|now]; cbn [throttle th_last th_timer th_runs].
  - destruct (too_soon f now l); cbn [th_timer th_runs]; rewrite ?fmap_app; cbn [fmap list_fmap].
    + apply submseteq_app; [by apply submseteq_inserts_r|done].
    + rewrite <- !app_assoc. apply submseteq_app; [done|]. rewrite (Permutation_app_comm [b]). done.
  - rewrite app_nil_r. destruct t as [[due c]|]; [|done]. destruct (due <=? now)%Z; [|done].
    cbn [th_timer th_runs]. by rewrite fmap_app, app_nil_r.
Qed.

Lemma throttle_run_snoc (es : list (throttle_event args)) e : throttle_run f (es ++ [e]) = throttle f e (throttle_run f es).
Proof. unfold throttle_run. by rewrite foldl_app. Qed.

(** Nothing runs but the arguments of calls, at most once per call; and the arguments of
    the last call have run or wait in the timer, whatever the times of the calls are. *)
Theorem throttle_last_call (es : list (throttle_event args)) :
  covered (throttle_run f es) ⊆+ calls_of es
  ∧ ∀ a, last (calls_of es) = Some a → a ∈ covered (throttle_run f es).
Proof.
  induction es as [|e es (IH1 & IH3)] using rev_ind; [split; done|].
  rewrite throttle_run_snoc. unfold calls_of in *. rewrite omap_app. split.
  - etransitivity; [apply throttle_covered|]. apply submseteq_app; [done|]. by destruct e.
  - intros a Ha. destruct (throttle_run f es) as [l t r]. unfold covered in *.
    destruct e as [now b|now]; cbn [omap list_omap throttle th_last th_timer th_runs] in *.
    + rewrite last_snoc in Ha. injection Ha as ->.
      destruct (too_soon f now l); cbn [th_timer th_runs]; rewrite ?fmap_app; set_solver.
    + rewrite app_nil_r in Ha. specialize (IH3 a Ha). cbn [th_timer th_runs] in IH3.
      destruct t as [[due c]|]; cbn [th_timer th_runs]; [|done]. destruct (due <=? now)%Z;
        cbn [th_timer th_runs]; rewrite ?fmap_app; set_solver.
Qed.
End throttle_facts.

(** A call that runs at once leaves the timer of an older call pending, which then runs the
    older arguments last. *)
Example throttle_stale :
  th_runs (throttle_run 200 [TCall 1000 1; TCall 1150 2; TCall 1210 3; TTimer 1350])
  = [(1000%Z, 1); (1210%Z, 3); (1350%Z, 2)].
Proof. reflexivity. Qed.
