(* ===== verification/JqExtend.v ===== *)
(** * Extending objects (jquery/src/core.js, [jQuery.extend])

    Copying the members of an object into another, by reference or deep.  Values are trees: what two
    objects share is not modelled, so that a copy by reference and a deep copy differ only in what
    they do with a member that the target has too. *)

From S2P Require Import Prelude JsString JsObject JsNumber JsValue.

(** [target[i] = v] of an array; a gap is filled with undefined. *)
Definition arr_set (i : nat) (v : val) (l : list val) : list val :=
  if decide (i < length l) then <[i := v]> l else l ++ replicate (i - length l) VUndef ++ [v].

(** One member: the value assigned to a member that has the value [src]; [None]: nothing is. *)
Fixpoint deep_copy (copy : val) : val → option val :=
  match copy with
  | VUndef => λ _, None
  | VObj o =>
      let fs := map (λ kv : jstring * val, (kv.1, deep_copy kv.2)) o in
      λ src,
        let target := match src with VObj t => t | _ => [] end in
        Some (VObj (foldl (λ t name,
          match f ← obj_get name fs; f (default VUndef (obj_get name t)) with
          | Some v => obj_set name v t
          | None => t
          end) target (for_in o)))
  | VArr l =>
      let fs := map deep_copy l in
      λ src,
        let target := match src with VArr t => t | _ => [] end in
        Some (VArr (foldl (λ t i,
          match f ← fs !! i; f (default VUndef (t !! i)) with
          | Some v => arr_set i v t
          | None => t
          end) target (seq 0 (length l))))
  | v => λ _, Some v
  end.

Definition shallow_copy (copy : val) (src : val) : option val := if is_undef copy then None else Some copy.

(** [jQuery.extend(deep, target, options)] of two objects *)
Definition extend_members (copy : val → val → option val) (target options : jsobj val) : jsobj val :=
  foldl (λ t name,
    match copy (default VUndef (obj_get name options)) (default VUndef (obj_get name t)) with
    | Some v => obj_set name v t
    | None => t
    end) target (for_in options).
Definition extend (deep : bool) : jsobj val → jsobj val → jsobj val := extend_members (if deep then deep_copy else shallow_copy).

(** [jQuery.extend(true, target, options)] where the target may be missing *)
Definition extend_value (target : val) (options : jsobj val) : val := VObj (extend true (match target with VObj t => t | _ => [] end) options).

(** ** What it does *)

Lemma for_in_NoDup {V} (o : jsobj V) : NoDup (obj_keys o) → NoDup (for_in o).
Proof. intros H. by rewrite for_in_perm. Qed.

(** Members assigned one after the other, each once. *)
Lemma fold_members (f : jstring → val → option val) (ks : list jstring) (t : jsobj val) k :
  NoDup ks →
  let t' := foldl (λ t name, match f name (default VUndef (obj_get name t)) with Some v => obj_set name v t | None => t end) t ks in
  obj_get k t' = match (if decide (k ∈ ks) then f k (default VUndef (obj_get k t)) else None) with Some v => Some v | None => obj_get k t end.
Proof.
  intros Hn. cbv zeta. revert t. induction Hn as [|name ks Hk Hn IH]; intros t.
  - cbn. rewrite decide_False; [done|]. apply not_elem_of_nil.
  - cbn [foldl]. rewrite IH. assert (∀ t', (∀ x, x ≠ name → obj_get x t' = obj_get x t) → k ≠ name →
      match (if decide (k ∈ ks) then f k (default VUndef (obj_get k t')) else None) with Some v => Some v | None => obj_get k t' end
      = match (if decide (k ∈ name :: ks) then f k (default VUndef (obj_get k t)) else None) with Some v => Some v | None => obj_get k t end) as Hne.
    { intros t' Ht' Hx. rewrite (Ht' k Hx). repeat case_decide; try done; exfalso; set_solver. }
    destruct (decide (k = name)) as [->|Hx].
    + rewrite decide_False by done. rewrite decide_True by (by left). destruct (f name _); [by rewrite obj_get_set, decide_True|done].
    + apply Hne; [|done]. intros x Hx'. destruct (f name _); [by rewrite obj_get_set, decide_False|done].
Qed.

(** Every member of the options is copied onto that of the target, undefined ones are not. *)
Lemma extend_get copy (target options : jsobj val) k :
  NoDup (obj_keys options) →
  obj_get k (extend_members copy target options)
  = match (c ← obj_get k options; copy c (default VUndef (obj_get k target))) with Some v => Some v | None => obj_get k target end.
Proof.
  intros Hn. unfold extend_members. pose proof (fold_members (λ name, copy (default VUndef (obj_get name options))) (for_in options) target k (for_in_NoDup _ Hn)) as H.
  cbv zeta in H. rewrite H. destruct (obj_get k options) as [c|] eqn:E; cbn [mbind option_bind].
  - rewrite decide_True; [done|]. apply elem_of_for_in, obj_get_keys. by eexists.
  - rewrite decide_False; [done|]. intros Hin%elem_of_for_in%obj_get_keys. rewrite E in Hin. by destruct Hin.
Qed.

Lemma obj_get_map {V W} (f : V → W) (o : jsobj V) k : obj_get k (map (λ kv : jstring * V, (kv.1, f kv.2)) o) = f <$> obj_get k o.
Proof. induction o as [|[k' v] o IH]; [done|]. cbn. by case_decide. Qed.

(** A deep copy of an object onto an object is [extend]. *)
Lemma deep_copy_obj o src :
  deep_copy (VObj o) src = Some (extend_value src o).
Proof.
  unfold extend_value. cbn [deep_copy extend]. do 2 f_equal. unfold extend_members. set (t := match src with VObj t => t | _ => [] end). clearbody t.
  assert (∀ ks t, Forall (λ k, k ∈ obj_keys o) ks →
    foldl (λ t name, match f ← obj_get name (map (λ kv : jstring * val, (kv.1, deep_copy kv.2)) o); f (default VUndef (obj_get name t)) with Some v => obj_set name v t | None => t end) t ks
    = foldl (λ t name, match deep_copy (default VUndef (obj_get name o)) (default VUndef (obj_get name t)) with Some v => obj_set name v t | None => t end) t ks) as H.
  { clear t. intros ks t Hks. revert t. induction Hks as [|k ks Hk _ IH]; intros t; [done|]. cbn [foldl]. rewrite <- IH. do 2 f_equal.
    rewrite obj_get_map. apply obj_get_keys in Hk as [c ->]. done. }
  apply H. apply Forall_forall. intros k. apply elem_of_for_in.
Qed.

Lemma extend_keys copy target options : NoDup (obj_keys target) → NoDup (obj_keys (extend_members copy target options)).
Proof.
  unfold extend_members. generalize (for_in options). intros ks. revert target. induction ks as [|k ks IH]; intros t Ht; [done|]. cbn [foldl].
  apply IH. destruct (copy _ _); [by apply NoDup_obj_set|done].
Qed.
