(* ===== verification/JqAjaxTypes.v ===== *)
(** * Data types, headers and addresses of requests (jquery/src/ajax.js)

    The registration and the inspection of prefilters and transports, the choice of the response
    and its conversion, the headers of an answer, and what a request does with its address.  The
    case mappings of Unicode are parameters; so are the functions of the page. *)

From S2P Require Import Prelude JsString JsObject JsNumber JsValue DtUtil.

(** ** Prefilters and transports *)

Section registration.
Context {F : Type}.
Variable toLowerCase : jstring → jstring.

Definition queue_of (k : jstring) (structure : jsobj (list F)) : list F := default [] (obj_get k structure).

(** The body of the loop for one data type. *)
Definition register (func : F) (structure : jsobj (list F)) (dataType : jstring) : jsobj (list F) :=
  match dataType with
  | 43%N :: t =>
      let k := if t =s? [] then "*"%js else t in
      obj_set k (func :: queue_of k structure) structure
  | k => obj_set k (queue_of k structure ++ [func]) structure
  end.

(** [None]: the call gives the function only. *)
Definition addToPrefiltersOrTransports (dataTypeExpression : option jstring) (func : F)
    (structure : jsobj (list F)) : jsobj (list F) :=
  let dataTypes := words (toLowerCase (default "*"%js dataTypeExpression)) in
  foldl (register func) structure dataTypes.
End registration.

(** Inspection with the state [W] of the request, which the functions of the page may change. *)
Section inspect.
Context {W : Type}.
Variable unshift : jstring → W → W.        (* options.dataTypes.unshift *)

(** A prefilter, with the string it returns if it returns one. *)
Abbreviation prefilter := (W → option jstring * W).

(** [None]: the fuel is used up. *)
Section one_type.
Variable inspect : jstring → list jstring → W → option (list jstring * W).

Fixpoint each_prefilter (hs : list prefilter) (inspected : list jstring) (w : W) : option (list jstring * W) :=
  match hs with
  | [] => Some (inspected, w)
  | h :: hs =>
      let '(r, w) := h w in
      match r with
      | Some t => if decide (t ∈ inspected) then each_prefilter hs inspected w
                  else inspect t inspected (unshift t w)
      | None => each_prefilter hs inspected w
      end
  end.
End one_type.

Fixpoint inspect_prefilter (fuel : nat) (structure : jsobj (list prefilter)) (dataType : jstring)
    (inspected : list jstring) (w : W) : option (list jstring * W) :=
  match fuel with
  | O => None
  | S fuel =>
      each_prefilter (inspect_prefilter fuel structure) (queue_of dataType structure) (dataType :: inspected) w
  end.

(** The inspection selects nothing, so that the prefilters of all types follow. *)
Definition inspectPrefilters (structure : jsobj (list prefilter)) (first : jstring) (w : W) : option W :=
  let fuel := S (S (length structure)) in
  '(inspected, w) ← inspect_prefilter fuel structure first [] w;
  if decide ("*"%js ∈ inspected) then Some w
  else '(_, w) ← inspect_prefilter fuel structure "*"%js inspected w; Some w.

(** A factory of transports. *)
Context {T : Type}.
Abbreviation factory := (W → option T * W).

Fixpoint first_transport (hs : list factory) (w : W) : option T * W :=
  match hs with
  | [] => (None, w)
  | h :: hs => match h w with (Some t, w) => (Some t, w) | (None, w) => first_transport hs w end
  end.

Definition inspectTransports (structure : jsobj (list factory)) (first : jstring) (w : W) : option T * W :=
  match first_transport (queue_of first structure) w with
  | (Some t, w) => (Some t, w)
  | (None, w) => if first =s? "*"%js then (None, w) else first_transport (queue_of "*"%js structure) w
  end.
End inspect.

(** ** Choosing the response *)

Fixpoint drop_auto (dataTypes : list jstring) : bool * list jstring :=
  match dataTypes with
  | t :: l => if t =s? "*"%js then (true, (drop_auto l).2) else (false, dataTypes)
  | [] => (false, [])
  end.

(** The first known type of content that matches. *)
Fixpoint content_type (contents : list (jstring * (jstring → bool))) (ct : jstring) : option jstring :=
  match contents with
  | [] => None
  | (type, test) :: contents => if test ct then Some type else content_type contents ct
  end.

Definition not_empty (t : jstring) : option jstring := if t =s? [] then None else Some t.

(** The loop over the responses: a type that can be converted to [first], or the first one. *)
Fixpoint convertible_type {C} (converters : jsobj C) (first : option jstring) (types : list jstring)
    (firstDataType : option jstring) : option jstring :=
  match types with
  | [] => firstDataType
  | type :: types =>
      if match first with
         | Some f => match obj_get (type ++ " "%js ++ f) converters with Some _ => true | None => false end
         | None => true
         end
      then match not_empty type with Some t => Some t | None => firstDataType end
      else convertible_type converters first types (match firstDataType with Some t => Some t | None => not_empty type end)
  end.

(** [ajaxHandleResponses]: the response and the data types after it; [ct_of]: the type of the
    settings or of the header, [None] when neither is given. *)
Definition ajaxHandleResponses {C} (contents : list (jstring * (jstring → bool))) (converters : jsobj C)
    (ct_of : option jstring) (dataTypes : list jstring) (responses : jsobj val) : option val * list jstring :=
  let '(auto, dataTypes) := drop_auto dataTypes in
  let dataTypes :=
    match (if auto then ct_of else None) with
    | Some ct => if ct =s? [] then dataTypes
                 else match content_type contents ct with Some type => type :: dataTypes | None => dataTypes end
    | None => dataTypes
    end in
  let finalDataType :=
    match obj_get (default "undefined"%js (head dataTypes)) responses with
    | Some _ => match head dataTypes with Some t => not_empty t | None => None end
    | None => convertible_type converters (t ← head dataTypes; not_empty t) (for_in responses) None
    end in
  match finalDataType with
  | Some f => (obj_get f responses, if bool_decide (head dataTypes = Some f) then dataTypes else f :: dataTypes)
  | None => (None, dataTypes)
  end.

(** ** Converting the response *)

(** A converter is [true] or a function, which may throw. *)
Inductive conv := CSame | CFun (f : val → val + val).

(** A thrown value or the message for a missing converter. *)
Inductive converted := Success (data : val) | ParserError (error : val) | Thrown (e : val).

Section convert.
Variable toLowerCase : jstring → jstring.
Variable responseFields : jsobj jstring.
Variable dataFilter : option (val → val).        (* with s.dataType *)
Variable throws : bool.
Variable isSuccess : bool.

Definition lower_keys (o : jsobj conv) : jsobj conv :=
  foldl (λ m k, match obj_get k o with Some c => obj_set (toLowerCase k) c m | None => m end) [] (for_in o).

Definition key (a b : jstring) : jstring := a ++ " "%js ++ b.
Definition direct (converters : jsobj conv) (prev current : jstring) : option conv :=
  match obj_get (key prev current) converters with Some c => Some c | None => obj_get (key "*"%js current) converters end.

(** What the search for a pair of converters finds: a converter to [current], or one to an
    intermediate type, which is followed by [rest]. *)
Inductive step_found := Use (c : conv) | Through (c : conv) (mid rest : jstring).

Fixpoint seek_pair (converters : jsobj conv) (prev current : jstring) (keys : list jstring) : option step_found :=
  match keys with
  | [] => None
  | conv2 :: keys =>
      let tmp := split " "%js conv2 in
      let tmp0 := default "undefined"%js (tmp !! 0) in
      match tmp !! 1 with
      | Some out =>
          if out =s? current then
            match direct converters prev tmp0 with
            | Some CSame => match obj_get conv2 converters with Some c => Some (Use c) | None => None end
            | Some c => match obj_get conv2 converters with
                        | Some CSame => Some (Use c)
                        | _ => Some (Through c tmp0 out)
                        end
            | None => seek_pair converters prev current keys
            end
          else seek_pair converters prev current keys
      | None => seek_pair converters prev current keys
      end
  end.

Definition seek (converters : jsobj conv) (prev current : jstring) : option step_found :=
  match direct converters prev current with
  | Some c => Some (Use c)
  | None => seek_pair converters prev current (for_in converters)
  end.

Definition no_conversion (prev current : jstring) : val :=
  VStr ("No conversion from "%js ++ prev ++ " to "%js ++ current).

(** The response after a converter, or how the conversion ends. *)
Definition apply_conv (c : conv) (response : val) : val + converted :=
  match c with
  | CSame => inl response
  | CFun f => match f response with
              | inl v => inl v
              | inr e => inr (if throws then Thrown e else ParserError e)
              end
  end.

Definition field_set (current : jstring) (response : val) (fields : jsobj val) : jsobj val :=
  match obj_get current responseFields with
  | Some f => if f =s? [] then fields else obj_set f response fields
  | None => fields
  end.

Definition filtered (first : bool) (response : val) : val :=
  match dataFilter with Some f => if first && isSuccess then f response else response | None => response end.

(** The loop; [fields]: the properties of the request that are assigned.  [None]: the fuel is
    used up. *)
Fixpoint convert_loop (fuel : nat) (converters : jsobj conv) (current : jstring) (dataTypes : list jstring) (first : bool)
    (response : val) (fields : jsobj val) : option (converted * jsobj val) :=
  match fuel with
  | O => None
  | S fuel =>
      if current =s? [] then Some (Success response, fields) else
      let fields := field_set current response fields in
      let response := filtered first response in
      let prev := current in
      match dataTypes with
      | [] => Some (Success response, fields)
      | current :: dataTypes =>
          if current =s? [] then Some (Success response, fields)
          else if current =s? "*"%js then convert_loop fuel converters prev dataTypes false response fields
          else if negb (prev =s? "*"%js) && negb (prev =s? current) then
            match seek converters prev current with
            | None => Some (ParserError (no_conversion prev current), fields)
            | Some (Use c) =>
                match apply_conv c response with
                | inl response => convert_loop fuel converters current dataTypes false response fields
                | inr r => Some (r, fields)
                end
            | Some (Through c mid rest) =>
                match apply_conv c response with
                | inl response => convert_loop fuel converters mid (rest :: dataTypes) false response fields
                | inr r => Some (r, fields)
                end
            end
          else convert_loop fuel converters current dataTypes false response fields
      end
  end.

(** The lower-case map is only made when there is a second type. *)
Definition ajaxConvert (converters : jsobj conv) (dataTypes : list jstring) (response : val) (fields : jsobj val)
    : option (converted * jsobj val) :=
  let m := match dataTypes !! 1 with
           | Some t => if t =s? [] then [] else lower_keys converters
           | None => []
           end in
  match dataTypes with
  | [] => Some (Success response, fields)
  | current :: dataTypes => convert_loop (S (2 * length dataTypes)) m current dataTypes true response fields
  end.
End convert.

(** ** Headers of an answer

    The units of headers are bytes. *)

Definition is_crlf (u : N) : bool := (u =? 13)%N || (u =? 10)%N.

Fixpoint lines_go (s : jstring) (cur : jstring) : list jstring :=
  match s with
  | [] => [rev cur]
  | c :: t => if is_crlf c then rev cur :: lines_go t [] else lines_go t (c :: cur)
  end.
Definition lines (s : jstring) : list jstring := lines_go s [].

Fixpoint skip_blanks (s : jstring) : jstring :=
  match s with c :: t => if (c =? 32)%N || (c =? 9)%N then skip_blanks t else s | [] => [] end.

(** [rheaders] on one line: what is before the first colon and what follows it. *)
Definition rheaders (line : jstring) : option (jstring * jstring) :=
  i ← index_of ":"%js line; Some (take i line, skip_blanks (drop (S i) line)).

Section headers.
Variable toLowerCase : jstring → jstring.

Definition header_table (responseHeadersString : jstring) : jsobj jstring :=
  foldl (λ m line, match rheaders line with Some (k, v) => obj_set (toLowerCase k) v m | None => m end)
    [] (lines responseHeadersString).

(** [getResponseHeader(key)] of a request that is done *)
Definition getResponseHeader (responseHeadersString key : jstring) : option jstring :=
  obj_get (toLowerCase key) (header_table responseHeadersString).

(** [setRequestHeader(name, value)] of a request that is not sent: the table of the names as they
    were first written, and the headers. *)
Definition setRequestHeader (name value : jstring) (h : jsobj jstring * jsobj jstring) : jsobj jstring * jsobj jstring :=
  let lname := toLowerCase name in
  let '(requestHeadersNames, requestHeaders) := h in
  let name := match obj_get lname requestHeadersNames with
              | Some n => if n =s? [] then name else n
              | None => name
              end in
  (obj_set lname name requestHeadersNames, obj_set name value requestHeaders).
End headers.

(** ** Addresses *)

(** [url.replace(rhash, '')] *)
Fixpoint strip_hash (s : jstring) : jstring :=
  match s with
  | [] => []
  | c :: t => if (c =? 35)%N && negb (existsb line_end t) then [] else c :: strip_hash t
  end.

Definition is_digit (u : N) : bool := ((48 <=? u) && (u <=? 57))%N.
Definition scheme_char (u : N) : bool :=
  (is_digit u || ((65 <=? u) && (u <=? 90)) || ((97 <=? u) && (u <=? 122)) || (u =? 95) || (u =? 46) || (u =? 43) || (u =? 45))%N.

Fixpoint span (p : N → bool) (s : jstring) : jstring * jstring :=
  match s with
  | c :: t => if p c then let '(a, b) := span p t in (c :: a, b) else ([], s)
  | [] => ([], [])
  end.

(** What follows the last at sign. *)
Fixpoint after_at (s : jstring) : option jstring :=
  match s with
  | [] => None
  | c :: t => match after_at t with Some r => Some r | None => if (c =? 64)%N then Some t else None end
  end.

Definition authority_char (u : N) : bool := negb ((u =? 47) || (u =? 63) || (u =? 35))%N.

(** [rurl.exec(url)]: the protocol with its colon; the host and the port when they are given. *)
Definition rurl (url : jstring) : option (jstring * option jstring * option jstring) :=
  let '(scheme, r) := span scheme_char url in
  match scheme, r with
  | _ :: _, 58%N :: r =>
      let proto := scheme ++ ":"%js in
      if starts_with "//"%js r then
        let '(auth, rest) := span authority_char (drop 2 r) in
        let auth := default auth (after_at auth) in
        let '(host, r) := span (λ u, negb (u =? 58)%N) auth in
        let port := match r with
                    | 58%N :: r => let '(d, _) := span is_digit r in not_empty d
                    | _ => None
                    end in
        Some (proto, Some host, port)
      else Some (proto, None, None)
  | _, _ => None
  end.

Definition default_port (proto : jstring) : jstring := if proto =s? "http:"%js then "80"%js else "443"%js.

(** [s.crossDomain] when the settings leave it open; [ajaxLocParts] are the parts of the page. *)
Definition crossDomain (ajaxLocParts : jstring * option jstring * option jstring) (lower_url : jstring) : bool :=
  match rurl lower_url with
  | Some (proto, host, port) =>
      let '(lproto, lhost, lport) := ajaxLocParts in
      negb (proto =s? lproto) || negb (bool_decide (host = lhost))
      || negb (default (default_port proto) port =s? default (default_port lproto) lport)
  | None => false
  end.

(** [s.url] at the start. *)
Definition request_url (url location proto : jstring) : jstring :=
  let u := strip_hash (if url =s? [] then location else url) in
  if starts_with "//"%js u then proto ++ u else u.

(** [rquery.test(url)] *)
Definition rquery (url : jstring) : bool := existsb (N.eqb 63) url.

Definition add_query (url q : jstring) : jstring := url ++ (if rquery url then "&"%js else "?"%js) ++ q.

(** [url.replace(rts, '$1_=' + nonce)], [None] when there is no parameter [_]. *)
Fixpoint replace_ts (nonce : jstring) (s : jstring) : option jstring :=
  match s with
  | [] => None
  | c :: t =>
      if ((c =? 63) || (c =? 38))%N && starts_with "_="%js t
      then Some (c :: "_="%js ++ nonce ++ (span (λ u, negb (u =? 38)%N) (drop 2 t)).2)
      else cons c <$> replace_ts nonce t
  end.

Definition anti_cache (nonce : jstring) (cacheURL : jstring) : jstring :=
  match replace_ts nonce cacheURL with Some u => u | None => add_query cacheURL ("_="%js ++ nonce) end.

(** ** Examples *)

Example rurl_ex :
  rurl "http://user:pw@example.org:8080/a"%js = Some ("http:"%js, Some "example.org"%js, Some "8080"%js)
  ∧ rurl "/api/tasks"%js = None ∧ rurl "mailto:x"%js = Some ("mailto:"%js, None, None).
Proof. vm_compute. split_and!; reflexivity. Qed.

Example anti_cache_ex :
  anti_cache "7"%js "/t?a=1&_=3&b=2"%js = "/t?a=1&_=7&b=2"%js ∧ anti_cache "7"%js "/t"%js = "/t?_=7"%js.
Proof. vm_compute. split; reflexivity. Qed.

Example headers_ex :
  getResponseHeader id ("a: 1"%js ++ [13; 10]%N ++ "b:2"%js ++ [13; 10]%N ++ "a:  3"%js ++ [13; 10]%N) "a"%js = Some "3"%js.
Proof. vm_compute. reflexivity. Qed.
