(* ===== verification/JqAjax.v ===== *)
(** * Requests (jquery/src/ajax.js, jQuery.ajax)

    A request from the call of [jQuery.ajax] to its end: a machine that the transport, the timer and
    the page drive.  The functions of the page (prefilters, [beforeSend], the handlers of
    [ajaxSend]) are lists of calls on the request; what they do to the settings beyond that is left
    out, and so are the handlers of the end, which only find a finished request.  The deferred and
    the list of complete callbacks are any implementation of the interface of [JqWhen].  A call that
    an exception leaves keeps the state reached by then. *)

From S2P Require Import Prelude JsString JsObject JsNumber JsValue DtUtil QueryString JqWhen JqAjaxTypes.
#[local] Open Scope Z_scope.

(** ** Data *)

(** The arguments of the handlers, without the request itself. *)
Inductive told_value := Resolved (success : val) (statusText : val) | Rejected (statusText error : val) | Completed (statusText : val).

(** What a request lets the page see, in order. *)
Inductive happening :=
  | Trigger (event : jstring)               (* a global event *)
  | Settle (success : bool) (v : told_value)  (* the deferred is resolved or rejected *)
  | RunStatus (code : Z) (callback : nat)   (* a callback for a status *)
  | RunComplete (v : told_value)            (* the complete callbacks are fired *)
  | SendAbort (statusText : val).           (* the transport is told to abort *)

(** Calls on a request by the page. *)
Inductive xop :=
  | OpAbort (statusText : val)
  | OpSetHeader (name value : jstring)
  | OpMimeType (type : jstring)
  | OpStatusCode (map : list (Z * nat)).

(** The settings that the run of a request does not change. *)
Record options := Options {
  o_global : bool; o_ifModified : bool; o_processData : bool; o_async : bool; o_timeout : Z;
  o_no_cache : bool; o_throws : bool; o_traditional : bool;
  o_contentType : option jstring;           (* false is None *)
  o_given_contentType : bool;               (* options.contentType *)
  o_accepts : jsobj jstring; o_headers : jsobj jstring;
  o_contents : list (jstring * (jstring → bool)); o_converters : jsobj conv;
  o_responseFields : jsobj jstring; o_dataFilter : option (val → val)
}.

(** A call of the callback that the transport is given; [c_native] may be a thrown value. *)
Record completion := Completion {
  c_status : Z; c_native : val; c_responses : option (jsobj val); c_headers : option jstring
}.

(** A transport: the calls [send] makes before it returns or throws, and those of [abort]. *)
Record transport := Transport { t_send : jsobj jstring → list completion * option val; t_abort : list completion }.

Record request {D : Type} := Request {
  q_state : nat;
  q_transport : option transport;
  q_timer : bool;                           (* the timeout is pending *)
  q_global : bool;                          (* fireGlobals *)
  q_strAbort : jstring;
  q_readyState : Z;
  q_status : option Z; q_statusText : option jstring;
  q_headersString : jstring;                (* of the answer *)
  q_names : jsobj jstring; q_headers : jsobj jstring;   (* of the request *)
  q_mimeType : option jstring; q_dataTypes : list jstring;
  q_url : jstring; q_cacheURL : jstring; q_type : jstring; q_data : val;
  q_fields : jsobj val;                     (* responseText and the like *)
  q_codes : option (list (Z * nat));
  q_deferred : D; q_complete : D
}.
Arguments request D : clear implicits.
Arguments Request {D}.

(** What the requests share. *)
Record shared := Shared { n_active : Z; n_nonce : Z; n_lastModified : jsobj jstring; n_etag : jsobj jstring }.

Record world {D : Type} := World { w_q : request D; w_n : shared; w_log : list happening }.
Arguments world D : clear implicits.
Arguments World {D}.

(** ** Assignments *)

Section setters.
Context {D : Type}.
Implicit Types q : request D.

Definition set_q_state (x : nat) q : request D :=
  Request x (q_transport q) (q_timer q) (q_global q) (q_strAbort q) (q_readyState q) (q_status q)
    (q_statusText q) (q_headersString q) (q_names q) (q_headers q) (q_mimeType q) (q_dataTypes q) (q_url
    q) (q_cacheURL q) (q_type q) (q_data q) (q_fields q) (q_codes q) (q_deferred q) (q_complete q).
Definition set_q_transport (x : option transport) q : request D :=
  Request (q_state q) x (q_timer q) (q_global q) (q_strAbort q) (q_readyState q) (q_status q)
    (q_statusText q) (q_headersString q) (q_names q) (q_headers q) (q_mimeType q) (q_dataTypes q) (q_url
    q) (q_cacheURL q) (q_type q) (q_data q) (q_fields q) (q_codes q) (q_deferred q) (q_complete q).
Definition set_q_timer (x : bool) q : request D :=
  Request (q_state q) (q_transport q) x (q_global q) (q_strAbort q) (q_readyState q) (q_status q)
    (q_statusText q) (q_headersString q) (q_names q) (q_headers q) (q_mimeType q) (q_dataTypes q) (q_url
    q) (q_cacheURL q) (q_type q) (q_data q) (q_fields q) (q_codes q) (q_deferred q) (q_complete q).
Definition set_q_global (x : bool) q : request D :=
  Request (q_state q) (q_transport q) (q_timer q) x (q_strAbort q) (q_readyState q) (q_status q)
    (q_statusText q) (q_headersString q) (q_names q) (q_headers q) (q_mimeType q) (q_dataTypes q) (q_url
    q) (q_cacheURL q) (q_type q) (q_data q) (q_fields q) (q_codes q) (q_deferred q) (q_complete q).
Definition set_q_strAbort (x : jstring) q : request D :=
  Request (q_state q) (q_transport q) (q_timer q) (q_global q) x (q_readyState q) (q_status q)
    (q_statusText q) (q_headersString q) (q_names q) (q_headers q) (q_mimeType q) (q_dataTypes q) (q_url
    q) (q_cacheURL q) (q_type q) (q_data q) (q_fields q) (q_codes q) (q_deferred q) (q_complete q).
Definition set_q_readyState (x : Z) q : request D :=
  Request (q_state q) (q_transport q) (q_timer q) (q_global q) (q_strAbort q) x (q_status q)
    (q_statusText q) (q_headersString q) (q_names q) (q_headers q) (q_mimeType q) (q_dataTypes q) (q_url
    q) (q_cacheURL q) (q_type q) (q_data q) (q_fields q) (q_codes q) (q_deferred q) (q_complete q).
Definition set_q_headersString (x : jstring) q : request D :=
  Request (q_state q) (q_transport q) (q_timer q) (q_global q) (q_strAbort q) (q_readyState q)
    (q_status q) (q_statusText q) x (q_names q) (q_headers q) (q_mimeType q) (q_dataTypes q) (q_url q)
    (q_cacheURL q) (q_type q) (q_data q) (q_fields q) (q_codes q) (q_deferred q) (q_complete q).
Definition set_q_mimeType (x : option jstring) q : request D :=
  Request (q_state q) (q_transport q) (q_timer q) (q_global q) (q_strAbort q) (q_readyState q)
    (q_status q) (q_statusText q) (q_headersString q) (q_names q) (q_headers q) x (q_dataTypes q) (q_url
    q) (q_cacheURL q) (q_type q) (q_data q) (q_fields q) (q_codes q) (q_deferred q) (q_complete q).
Definition set_q_dataTypes (x : list jstring) q : request D :=
  Request (q_state q) (q_transport q) (q_timer q) (q_global q) (q_strAbort q) (q_readyState q)
    (q_status q) (q_statusText q) (q_headersString q) (q_names q) (q_headers q) (q_mimeType q) x (q_url
    q) (q_cacheURL q) (q_type q) (q_data q) (q_fields q) (q_codes q) (q_deferred q) (q_complete q).
Definition set_q_type (x : jstring) q : request D :=
  Request (q_state q) (q_transport q) (q_timer q) (q_global q) (q_strAbort q) (q_readyState q)
    (q_status q) (q_statusText q) (q_headersString q) (q_names q) (q_headers q) (q_mimeType q)
    (q_dataTypes q) (q_url q) (q_cacheURL q) x (q_data q) (q_fields q) (q_codes q) (q_deferred q)
    (q_complete q).
Definition set_q_codes (x : option (list (Z * nat))) q : request D :=
  Request (q_state q) (q_transport q) (q_timer q) (q_global q) (q_strAbort q) (q_readyState q)
    (q_status q) (q_statusText q) (q_headersString q) (q_names q) (q_headers q) (q_mimeType q)
    (q_dataTypes q) (q_url q) (q_cacheURL q) (q_type q) (q_data q) (q_fields q) x (q_deferred q)
    (q_complete q).
Definition set_q_deferred (x : D) q : request D :=
  Request (q_state q) (q_transport q) (q_timer q) (q_global q) (q_strAbort q) (q_readyState q)
    (q_status q) (q_statusText q) (q_headersString q) (q_names q) (q_headers q) (q_mimeType q)
    (q_dataTypes q) (q_url q) (q_cacheURL q) (q_type q) (q_data q) (q_fields q) (q_codes q) x
    (q_complete q).
Definition set_q_complete (x : D) q : request D :=
  Request (q_state q) (q_transport q) (q_timer q) (q_global q) (q_strAbort q) (q_readyState q)
    (q_status q) (q_statusText q) (q_headersString q) (q_names q) (q_headers q) (q_mimeType q)
    (q_dataTypes q) (q_url q) (q_cacheURL q) (q_type q) (q_data q) (q_fields q) (q_codes q) (q_deferred
    q) x.
Definition set_q_result (status : Z) (text : jstring) q : request D :=
  Request (q_state q) (q_transport q) (q_timer q) (q_global q) (q_strAbort q) (q_readyState q) (Some
    status) (Some text) (q_headersString q) (q_names q) (q_headers q) (q_mimeType q) (q_dataTypes q)
    (q_url q) (q_cacheURL q) (q_type q) (q_data q) (q_fields q) (q_codes q) (q_deferred q) (q_complete
    q).
Definition set_q_headers (h : jsobj jstring * jsobj jstring) q : request D :=
  Request (q_state q) (q_transport q) (q_timer q) (q_global q) (q_strAbort q) (q_readyState q)
    (q_status q) (q_statusText q) (q_headersString q) h.1 h.2 (q_mimeType q) (q_dataTypes q) (q_url q)
    (q_cacheURL q) (q_type q) (q_data q) (q_fields q) (q_codes q) (q_deferred q) (q_complete q).
Definition set_q_address (url cacheURL : jstring) q : request D :=
  Request (q_state q) (q_transport q) (q_timer q) (q_global q) (q_strAbort q) (q_readyState q)
    (q_status q) (q_statusText q) (q_headersString q) (q_names q) (q_headers q) (q_mimeType q)
    (q_dataTypes q) url cacheURL (q_type q) (q_data q) (q_fields q) (q_codes q) (q_deferred q)
    (q_complete q).
Definition set_q_data (x : val) q : request D :=
  Request (q_state q) (q_transport q) (q_timer q) (q_global q) (q_strAbort q) (q_readyState q)
    (q_status q) (q_statusText q) (q_headersString q) (q_names q) (q_headers q) (q_mimeType q)
    (q_dataTypes q) (q_url q) (q_cacheURL q) (q_type q) x (q_fields q) (q_codes q) (q_deferred q)
    (q_complete q).
Definition set_q_fields (x : jsobj val) q : request D :=
  Request (q_state q) (q_transport q) (q_timer q) (q_global q) (q_strAbort q) (q_readyState q)
    (q_status q) (q_statusText q) (q_headersString q) (q_names q) (q_headers q) (q_mimeType q)
    (q_dataTypes q) (q_url q) (q_cacheURL q) (q_type q) (q_data q) x (q_codes q) (q_deferred q)
    (q_complete q).

Definition upd_q (f : request D → request D) (w : world D) : world D := World (f (w_q w)) (w_n w) (w_log w).
Definition upd_n (f : shared → shared) (w : world D) : world D := World (w_q w) (f (w_n w)) (w_log w).
Definition log (h : happening) (w : world D) : world D := World (w_q w) (w_n w) (w_log w ++ [h]).
Definition set_active (f : Z → Z) : world D → world D :=
  upd_n (λ n, Shared (f (n_active n)) (n_nonce n) (n_lastModified n) (n_etag n)).
End setters.

(** How a call ends: it returns, throws, or the conversion of the response runs for ever. *)
Inductive ending := Ends | Throws (e : val) | Diverges.

Section ajax.
Context {D : Type} `{DeferredOps D told_value}.
Variable toLowerCase toUpperCase : jstring → jstring.
Variable o : options.

Abbreviation result := (world D * ending)%type.
Definition andthen (r : result) (f : world D → result) : result :=
  match r with (w, Ends) => f w | _ => r end.

(** ** The end of a request *)

Definition is_success (status : Z) : bool := ((200 <=? status) && (status <? 300)) || (status =? 304).

(** [isSuccess], [status], [statusText], [success] and [error] at the end. *)
Definition verdict (status : Z) (native : val) (type : jstring) (r : converted) : bool * Z * val * val * val :=
  if is_success status then
    if (status =? 204) || (type =s? "HEAD"%js) then (true, status, VStr "nocontent"%js, VUndef, VUndef)
    else if status =? 304 then (true, status, VStr "notmodified"%js, VUndef, VUndef)
    else match r with
         | Success data => (true, status, VStr "success"%js, data, VUndef)
         | ParserError e | Thrown e => (negb (truthy e), status, VStr "parsererror"%js, VUndef, e)
         end
  else if negb (status =? 0) || negb (truthy native)
       then (false, if status <? 0 then 0 else status, VStr "error"%js, VUndef, native)
       else (false, status, native, VUndef, native).

Definition header (w : world D) (k : jstring) : option jstring :=
  v ← getResponseHeader toLowerCase (q_headersString (w_q w)) k; not_empty v.

(** The caches of [ifModified]. *)
Definition remember_modified (w : world D) : world D :=
  if o_ifModified o then
    let url := q_cacheURL (w_q w) in
    let put k m := match header w k with Some v => obj_set url v m | None => m end in
    upd_n (λ n, Shared (n_active n) (n_nonce n) (put "Last-Modified"%js (n_lastModified n)) (put "etag"%js (n_etag n))) w
  else w.

Definition settle_with (success : bool) (v : told_value) (w : world D) : world D :=
  let w' := upd_q (set_q_deferred (settle success v (q_deferred (w_q w)))) w in
  match outcome (q_deferred (w_q w)) with None => log (Settle success v) w' | Some _ => w' end.

Definition fire_complete (v : told_value) (w : world D) : world D :=
  let w' := upd_q (set_q_complete (settle true v (q_complete (w_q w)))) w in
  match outcome (q_complete (w_q w)) with None => log (RunComplete v) w' | Some _ => w' end.

(** [jqXHR.always(map[jqXHR.status])] on a request that is settled *)
Definition run_codes (map : list (Z * nat)) (w : world D) : world D :=
  match q_status (w_q w), outcome (q_deferred (w_q w)) with
  | Some status, Some _ =>
      foldl (λ w (e : Z * nat), if e.1 =? status then log (RunStatus status e.2) w else w) w map
  | _, _ => w
  end.

Definition trigger (event : jstring) (w : world D) : world D :=
  if q_global (w_q w) then log (Trigger event) w else w.

(** The counter of the requests at the end of one. *)
Definition leave (w : world D) : world D :=
  if q_global (w_q w) then
    let w := set_active (λ a, a - 1) w in
    if n_active (w_n w) =? 0 then log (Trigger "ajaxStop"%js) w else w
  else w.

(** The assignments at the start of [done]. *)
Definition close (c : completion) (q : request D) : request D :=
  set_q_readyState (if 0 <? c_status c then 4 else 0)
    (set_q_headersString (default [] (c_headers c)) (set_q_transport None (set_q_timer false (set_q_state 2%nat q)))).

(** The response of the answer, with the data types that remain. *)
Definition response_of (c : completion) (w : world D) : val * list jstring :=
  let q := w_q w in
  match c_responses c with
  | Some responses =>
      let ct := match (m ← q_mimeType q; not_empty m) with
                | Some m => Some m
                | None => getResponseHeader toLowerCase (q_headersString q) "Content-Type"%js
                end in
      let '(r, dataTypes) := ajaxHandleResponses (o_contents o) (o_converters o) ct (q_dataTypes q) responses in
      (default VUndef r, dataTypes)
  | None => (VUndef, q_dataTypes q)
  end.

(** The deferred at the end, and the callbacks for the status. *)
Definition settle_verdict (isSuccess : bool) (statusText success error : val) (w : world D) : world D :=
  if isSuccess then settle_with true (Resolved success statusText) w
  else settle_with false (Rejected statusText error) w.
Definition call_codes (w : world D) : world D :=
  upd_q (set_q_codes None) (match q_codes (w_q w) with Some map => run_codes map w | None => w end).

(** What follows the conversion. *)
Definition announce (c : completion) (r : converted) (w : world D) : world D :=
  let w := if is_success (c_status c) then remember_modified w else w in
  let '(isSuccess, status, statusText, success, error) := verdict (c_status c) (c_native c) (q_type (w_q w)) r in
  let w := upd_q (set_q_result status (to_string (if truthy (c_native c) then c_native c else statusText))) w in
  let w := call_codes (settle_verdict isSuccess statusText success error w) in
  let w := trigger (if isSuccess then "ajaxSuccess"%js else "ajaxError"%js) w in
  let w := fire_complete (Completed statusText) w in
  leave (trigger "ajaxComplete"%js w).

(** [done(status, nativeStatusText, responses, headers)] *)
Definition done_ (c : completion) (w : world D) : result :=
  if (q_state (w_q w) =? 2)%nat then (w, Ends) else
  let w := upd_q (close c) w in
  let '(response, dataTypes) := response_of c w in
  let w := upd_q (set_q_dataTypes dataTypes) w in
  match ajaxConvert toLowerCase (o_responseFields o) (o_dataFilter o) (o_throws o) (is_success (c_status c))
          (o_converters o) dataTypes response (q_fields (w_q w)) with
  | None => (w, Diverges)
  | Some (r, fields) =>
      let w := upd_q (set_q_fields fields) w in
      match r with Thrown e => (w, Throws e) | _ => (announce c r w, Ends) end
  end.

Fixpoint done_each (cs : list completion) (w : world D) : result :=
  match cs with [] => (w, Ends) | c :: cs => andthen (done_ c w) (done_each cs) end.

(** ** Calls of the page *)

(** [jqXHR.abort(statusText)] *)
Definition abort (statusText : val) (w : world D) : result :=
  let finalText := if truthy statusText then statusText else VStr (q_strAbort (w_q w)) in
  let r := match q_transport (w_q w) with
           | Some t => done_each (t_abort t) (log (SendAbort finalText) w)
           | None => (w, Ends)
           end in
  andthen r (done_ (Completion 0 finalText None None)).

Definition set_header (name value : jstring) (q : request D) : request D :=
  if (q_state q =? 0)%nat then set_q_headers (setRequestHeader toLowerCase name value (q_names q, q_headers q)) q else q.

Definition run_op (op : xop) (w : world D) : result :=
  match op with
  | OpAbort t => abort t w
  | OpSetHeader name value => (upd_q (set_header name value) w, Ends)
  | OpMimeType type => (upd_q (λ q, if (q_state q =? 0)%nat then set_q_mimeType (Some type) q else q) w, Ends)
  | OpStatusCode map =>
      (if (q_state (w_q w) <? 2)%nat then upd_q (λ q, set_q_codes (Some (default [] (q_codes q) ++ map)) q) w
       else run_codes map w, Ends)
  end.

Fixpoint run_ops (ops : list xop) (w : world D) : result :=
  match ops with [] => (w, Ends) | op :: ops => andthen (run_op op w) (run_ops ops) end.

(** ** From the call to the transport *)

(** The settings of a call that change: address, method, types, data and status callbacks. *)
Record call := Call {
  a_url : jstring; a_type : jstring; a_dataType : option jstring; a_data : val;
  a_mimeType : option jstring; a_codes : list (Z * nat)
}.

(** What the page adds to a request: prefilters, with the data type they return, [beforeSend] with
    whether it returns false, the handlers of [ajaxSend] and the factories of transports. *)
Record page_hooks := PageHooks {
  h_prefilters : jsobj (list (request D → list xop * option jstring));
  h_beforeSend : option (request D → list xop * bool);
  h_ajaxSend : request D → list xop;
  h_transports : jsobj (list (request D → option transport))
}.

Variable location : jstring.                     (* ajaxLocation *)
Variable ajaxLocParts : jstring * option jstring * option jstring.

Definition data_types (dataType : option jstring) : list jstring :=
  match words (toLowerCase (trim (default "*"%js (t ← dataType; not_empty t)))) with [] => [[]] | l => l end.

Definition new_request (a : call) : request D :=
  Request 0 None false false "canceled"%js 0 None None [] [] [] (a_mimeType a) (data_types (a_dataType a))
    (request_url (a_url a) location ajaxLocParts.1.1) [] (a_type a) (a_data a) [] (Some (a_codes a)) fresh fresh.

(** The data as a string; [None]: a URIError. *)
Definition prepare_data (data : val) : option val :=
  if truthy data && o_processData o && negb (match data with VStr _ => true | _ => false end)
  then t ← QueryString.param data (o_traditional o); Some (VStr t)
  else Some data.

(** A prefilter as the inspection sees it; after an exception nothing more happens. *)
Definition as_prefilter (p : request D → list xop * option jstring) (r : result) : option jstring * result :=
  match r with
  | (w, Ends) =>
      let '(ops, t) := p (w_q w) in
      match run_ops ops w with (w, Ends) => (t, (w, Ends)) | r => (None, r) end
  | r => (None, r)
  end.
Definition unshift_type (t : jstring) (r : result) : result :=
  (upd_q (λ q, set_q_dataTypes (t :: q_dataTypes q) q) r.1, r.2).

Definition has_content (type : jstring) : bool := negb ((type =s? "GET"%js) || (type =s? "HEAD"%js)).

(** The address of a request without content. *)
Definition address (w : world D) : world D :=
  let q := w_q w in
  let w := upd_q (set_q_address (q_url q) (q_url q)) w in
  if has_content (q_type q) then w else
  let w := if truthy (q_data q) then
             let url := add_query (q_url q) (to_string (q_data q)) in
             upd_q (λ q, set_q_data VUndef (set_q_address url url q)) w
           else w in
  if o_no_cache o then
    let cacheURL := q_cacheURL (w_q w) in
    let url := anti_cache (str_of_nat (Z.to_nat (n_nonce (w_n w)))) cacheURL in
    upd_n (λ n, Shared (n_active n) (n_nonce n + 1) (n_lastModified n) (n_etag n)) (upd_q (set_q_address url cacheURL) w)
  else w.

Definition accept (dataTypes : list jstring) : jstring :=
  let all := default [] (obj_get "*"%js (o_accepts o)) in
  match (t ← head dataTypes; t ← not_empty t; x ← obj_get t (o_accepts o); x ← not_empty x; Some (t, x)) with
  | Some (t, x) => x ++ (if t =s? "*"%js then [] else ", */*; q=0.01"%js)
  | None => all
  end.

Definition set_headers (w : world D) : world D :=
  let h name value w := upd_q (set_header name value) w in
  let url := q_cacheURL (w_q w) in
  let cached m := v ← obj_get url m; not_empty v in
  let w := if o_ifModified o then
             let w := match cached (n_lastModified (w_n w)) with Some v => h "If-Modified-Since"%js v w | None => w end in
             match cached (n_etag (w_n w)) with Some v => h "If-None-Match"%js v w | None => w end
           else w in
  let w := if (truthy (q_data (w_q w)) && has_content (q_type (w_q w)) && bool_decide (is_Some (o_contentType o)))
              || o_given_contentType o
           then h "Content-Type"%js (default "false"%js (o_contentType o)) w else w in
  let w := h "Accept"%js (accept (q_dataTypes (w_q w))) w in
  foldl (λ w i, match obj_get i (o_headers o) with Some v => h i v w | None => w end) w (for_in (o_headers o)).

Definition type_error : val := VObj [("message"%js, VStr "transport is undefined"%js)].

(** The [try] around [transport.send]. *)
Definition send (w : world D) : result :=
  let w := upd_q (set_q_state 1%nat) w in
  let r := match q_transport (w_q w) with
           | None => (w, Throws type_error)
           | Some t =>
               let '(cs, threw) := t_send t (q_headers (w_q w)) in
               andthen (done_each cs w) (λ w, (w, match threw with Some e => Throws e | None => Ends end))
           end in
  match r with
  | (w, Throws e) => if (q_state (w_q w) <? 2)%nat then done_ (Completion (-1) e None None) w else (w, Throws e)
  | r => r
  end.

Variable hooks : page_hooks.

Definition start_transport (w : world D) : result :=
  let w := upd_q (set_q_strAbort "abort"%js) w in
  let '(t, _) := inspectTransports (W := unit)
                   ((λ e : jstring * list (request D → option transport), (e.1, (λ f _, (f (w_q w), ())) <$> e.2)) <$> h_transports hooks)
                   (default "undefined"%js (head (q_dataTypes (w_q w)))) () in
  let w := upd_q (set_q_transport t) w in
  match t with
  | None => done_ (Completion (-1) (VStr "No Transport"%js) None None) w
  | Some _ =>
      let w := trigger "ajaxSend"%js (upd_q (set_q_readyState 1) w) in
      andthen (if q_global (w_q w) then run_ops (h_ajaxSend hooks (w_q w)) w else (w, Ends)) (λ w,
      send (if o_async o && (0 <? o_timeout o) then upd_q (set_q_timer true) w else w))
  end.

Definition before_send (w : world D) : result :=
  let '(ops, refused) := match h_beforeSend hooks with Some f => f (w_q w) | None => ([], false) end in
  andthen (run_ops ops w) (λ w,
  if match h_beforeSend hooks with Some _ => refused || (q_state (w_q w) =? 2)%nat | None => false end
  then abort VUndef w else start_transport w).

(** The request joins the active ones. *)
Definition enter (w : world D) : world D :=
  let w := upd_q (set_q_global (o_global o)) w in
  if o_global o then
    let was := n_active (w_n w) in
    let w := set_active (λ a, a + 1) w in
    if was =? 0 then log (Trigger "ajaxStart"%js) w else w
  else w.

Definition upper_type (q : request D) : request D := set_q_type (toUpperCase (q_type q)) q.

(** [jQuery.ajax(...)] *)
Definition ajax (a : call) (n : shared) : result :=
  let w := World (new_request a) n [] in
  match prepare_data (a_data a) with
  | None => (w, Throws (VStr "URIError"%js))
  | Some data =>
      let w := upd_q (set_q_data data) w in
      match inspectPrefilters unshift_type
              ((λ e : jstring * list _, (e.1, as_prefilter <$> e.2)) <$> h_prefilters hooks)
              (default "undefined"%js (head (q_dataTypes (w_q w)))) (w, Ends) with
      | None => (w, Diverges)
      | Some r =>
          andthen r (λ w,
          if (q_state (w_q w) =? 2)%nat then (w, Ends)
          else before_send (set_headers (address (upd_q upper_type (enter w)))))
      end
  end.

(** ** What happens to a request later *)

Inductive xevent := EvDone (c : completion) | EvTimeout | EvOp (op : xop).

Definition xstep (e : xevent) (w : world D) : world D :=
  match e with
  | EvDone c => (done_ c w).1
  | EvTimeout => if q_timer (w_q w) then (abort (VStr "timeout"%js) (upd_q (set_q_timer false) w)).1 else w
  | EvOp op => (run_op op w).1
  end.
Definition xrun (es : list xevent) (w : world D) : world D := foldl (flip xstep) w es.
End ajax.
