(* ===== verification/JqXhr.v ===== *)
(** * The transport over XMLHttpRequest (jquery/src/ajax/xhr.js)

    The browser's request object belongs to the browser: it is driven by the events it fires, and
    what the transport tells it is logged.  A completion is the call of the callback of
    [jQuery.ajax]. *)

From S2P Require Import Prelude JsString JsObject JsNumber JsValue DtUtil QueryString JqWhen JqAjaxTypes JqAjax.
#[local] Open Scope Z_scope.

(** ** State *)

Inductive xhr_call :=
  | XOpen (type url : jstring) (async : bool)
  | XField (name : jstring) (v : val)
  | XMime (type : jstring)
  | XHeader (name value : jstring)
  | XSend (body : val)
  | XAbort
  | XComplete (c : completion).

(** [x_callback]: the closure variable [callback] is set; [x_handlers]: [onload] and [onerror] are. *)
Record xhr := Xhr { x_callback : bool; x_handlers : bool; x_log : list xhr_call }.
Definition x_new : xhr := Xhr false false [].
Definition x_add (c : xhr_call) (x : xhr) : xhr := Xhr (x_callback x) (x_handlers x) (x_log x ++ [c]).

Record xhr_options := XhrOptions {
  xo_type : jstring; xo_url : jstring; xo_async : bool; xo_fields : jsobj val; xo_mimeType : option jstring;
  xo_crossDomain : bool; xo_hasContent : bool; xo_data : val
}.

(** [support.cors || xhrSupported && !options.crossDomain] *)
Definition xhr_usable (cors supported crossDomain : bool) : bool := cors || (supported && negb crossDomain).

Definition requested_with : jstring := "X-Requested-With"%js.

Definition xhr_headers (o : xhr_options) (headers : jsobj jstring) : jsobj jstring :=
  if negb (xo_crossDomain o)
     && negb (match obj_get requested_with headers with Some v => negb (v =s? []) | None => false end)
  then obj_set requested_with "XMLHttpRequest"%js headers else headers.

(** [send(headers, complete)]; [throws]: what the browser throws from its [send], with whether the
    callback has run by then. *)
Definition xhr_send (o : xhr_options) (headers : jsobj jstring) (throws : option val) (x : xhr) : xhr * option val :=
  let x := x_add (XOpen (xo_type o) (xo_url o) (xo_async o)) x in
  let x := foldl (λ x i, match obj_get i (xo_fields o) with Some v => x_add (XField i v) x | None => x end) x (for_in (xo_fields o)) in
  let x := match (m ← xo_mimeType o; not_empty m) with Some m => x_add (XMime m) x | None => x end in
  let headers := xhr_headers o headers in
  let x := foldl (λ x i, match obj_get i headers with Some v => x_add (XHeader i v) x | None => x end) x (for_in headers) in
  let x := Xhr true true (x_log x) in
  let x := x_add (XSend (if xo_hasContent o && truthy (xo_data o) then xo_data o else VNull)) x in
  (x, match throws with Some e => if x_callback x then Some e else None | None => None end).

(** What the browser reports when an event is fired. *)
Record xhr_answer := XhrAnswer { xa_status : Z; xa_statusText : jstring; xa_responseText : option jstring; xa_headers : jstring }.

Definition xhrSuccessStatus (status : Z) : Z :=
  if status =? 0 then 200 else if status =? 1223 then 204 else status.

Inductive xhr_event := XLoad (a : xhr_answer) | XError (a : xhr_answer) | XAborted.

(** The function [callback(type)] makes for an event. *)
Definition xhr_callback (e : xhr_event) (x : xhr) : xhr :=
  if x_callback x then
    let x := Xhr false false (x_log x) in
    match e with
    | XAborted => x_add XAbort x
    | XError a => x_add (XComplete (Completion (xa_status a) (VStr (xa_statusText a)) None None)) x
    | XLoad a =>
        x_add (XComplete (Completion (xhrSuccessStatus (xa_status a)) (VStr (xa_statusText a))
                 ((λ t, [("text"%js, VStr t)]) <$> xa_responseText a) (Some (xa_headers a)))) x
    end
  else x.

(** The browser calls a handler that is set; the page aborts through the transport. *)
Definition xhr_step (x : xhr) (e : xhr_event) : xhr :=
  match e with
  | XAborted => if x_callback x then xhr_callback XAborted x else x
  | e => if x_handlers x then xhr_callback e x else x
  end.
Definition xhr_run (es : list xhr_event) (x : xhr) : xhr := foldl xhr_step x es.

(** ** A transport completes or aborts, once *)

Definition ends_call (c : xhr_call) : bool := match c with XAbort | XComplete _ => true | _ => false end.

Lemma fold_adds {A} (f : A → option xhr_call) (g : xhr → A → xhr) l x :
  (∀ x i, g x i = match f i with Some c => x_add c x | None => x end) →
  (∀ i c, f i = Some c → ends_call c = false) →
  ∃ l', foldl g x l = Xhr (x_callback x) (x_handlers x) (x_log x ++ l')
    ∧ Forall (λ c, ends_call c = false) l'.
Proof.
  intros Hg Hf. revert x. induction l as [|i l IH]; intros x; [exists []; rewrite app_nil_r; by destruct x|]. cbn [foldl].
  rewrite Hg. destruct (f i) as [c|] eqn:E; [|apply IH]. destruct (IH (x_add c x)) as (l' & -> & H). exists (c :: l').
  split; [cbn; by rewrite <- app_assoc|]. constructor; [by eapply Hf|done].
Qed.

Lemma send_quiet o headers throws x :
  Forall (λ c, ends_call c = false) (x_log x) →
  x_callback (xhr_send o headers throws x).1 = true ∧ x_handlers (xhr_send o headers throws x).1 = true
  ∧ Forall (λ c, ends_call c = false) (x_log (xhr_send o headers throws x).1).
Proof.
  intros Hx. split; [done|]. split; [done|]. unfold xhr_send.
  set (x1 := foldl _ _ (for_in (xo_fields o))). set (x2 := match _ with Some m => x_add (XMime m) x1 | None => x1 end).
  set (x3 := foldl _ x2 _).
  assert (Forall (λ c, ends_call c = false) (x_log x1)) as H1.
  { unfold x1. match goal with |- context [foldl ?g ?y (for_in (xo_fields o))] =>
      destruct (fold_adds (λ i, XField i <$> obj_get i (xo_fields o)) g (for_in (xo_fields o)) y) as (l' & -> & Hq) end;
      [|intros i c; destruct (obj_get _ _); cbn; [intros [= <-]; done|done]|].
    - intros x' i. destruct (obj_get _ _); done.
    - cbn. rewrite <- app_assoc. apply Forall_app. split; [done|]. by constructor. }
  assert (Forall (λ c, ends_call c = false) (x_log x2)) as H2.
  { unfold x2. case_match; [|done]. cbn. apply Forall_app. split; [done|]. by repeat constructor. }
  assert (Forall (λ c, ends_call c = false) (x_log x3)) as H3.
  { unfold x3. match goal with |- context [foldl ?g ?y (for_in (xhr_headers o headers))] =>
      destruct (fold_adds (λ i, XHeader i <$> obj_get i (xhr_headers o headers)) g (for_in (xhr_headers o headers)) y) as (l' & -> & Hq) end;
      [|intros i c; destruct (obj_get _ _); cbn; [intros [= <-]; done|done]|].
    - intros x' i. destruct (obj_get _ _); done.
    - cbn. by apply Forall_app. }
  cbn. apply Forall_app. split; [done|]. by repeat constructor.
Qed.

(** Once it is sent, the transport over the browser's request ends with the first event: a load
    and an error complete the request, an abort aborts the browser's request and completes nothing;
    whatever the browser fires later changes nothing. *)
Theorem xhr_ends_once o headers es :
  let x := xhr_run es (xhr_send o headers None x_new).1 in
  filter (λ c, ends_call c = true) (x_log x)
  = match es with
    | [] => []
    | XAborted :: _ => [XAbort]
    | XError a :: _ => [XComplete (Completion (xa_status a) (VStr (xa_statusText a)) None None)]
    | XLoad a :: _ => [XComplete (Completion (xhrSuccessStatus (xa_status a)) (VStr (xa_statusText a))
                         ((λ t, [("text"%js, VStr t)]) <$> xa_responseText a) (Some (xa_headers a)))]
    end.
Proof.
  destruct (send_quiet o headers None x_new) as (Hc & Hh & Hl); [constructor|].
  set (x0 := (xhr_send o headers None x_new).1) in *. clearbody x0. intros x.
  assert (filter (λ c, ends_call c = true) (x_log x0) = []) as H0.
  { clear -Hl. induction Hl as [|c l Hc _ IH]; [done|]. by rewrite filter_cons_False, IH by (rewrite Hc; done). }
  assert (∀ es y, x_callback y = false → x_handlers y = false → xhr_run es y = y) as Hstop.
  { clear. induction es as [|e es IH]; intros y Hc Hh; [done|]. unfold xhr_run in *. cbn [foldl].
    replace (xhr_step y e) with y; [by apply IH|]. unfold xhr_step. destruct e; by rewrite ?Hc, ?Hh. }
  destruct es as [|e es]; [done|]. unfold x, xhr_run. cbn [foldl]. fold (xhr_run es (xhr_step x0 e)).
  rewrite Hstop.
  - unfold xhr_step, xhr_callback. rewrite Hc, Hh. destruct e; cbn [x_add x_log]; rewrite filter_app, H0; done.
  - unfold xhr_step, xhr_callback. rewrite Hc, Hh. by destruct e.
  - unfold xhr_step, xhr_callback. rewrite Hc, Hh. by destruct e.
Qed.
