(* ===== verification/JqAjaxTheorems.v ===== *)
(** * Correctness of requests

    The inspection of prefilters and the conversion of responses come to an end; a request settles
    once and is counted once, whatever its transport, its timer and the page do; an abort while
    [ajaxSend] is triggered breaks the count. *)

From S2P Require Import Prelude JsString JsObject JsNumber JsValue JsJson DtUtil JqWhen JqAjaxTypes JqAjax.

(** ** The inspection of prefilters ends *)

Section inspect.
Context {W : Type}.
Variable unshift : jstring → W → W.
Implicit Types structure : jsobj (list (W → option jstring * W)).

(** The types with prefilters that are still to come. *)
Definition to_come structure (inspected : list jstring) : nat := length (filter (.∉ inspected) (obj_keys structure)).

Lemma filter_shorter {A} (P Q : A → Prop) `{∀ x, Decision (P x), ∀ x, Decision (Q x)} (l : list A) :
  (∀ x, P x → Q x) → length (filter P l) ≤ length (filter Q l).
Proof.
  intros HPQ. induction l as [|x l IH]; [done|]. rewrite !filter_cons. repeat case_decide; cbn; naive_solver lia.
Qed.

Lemma filter_strictly {A} (P Q : A → Prop) `{∀ x, Decision (P x), ∀ x, Decision (Q x)} (l : list A) a :
  (∀ x, P x → Q x) → a ∈ l → Q a → ¬ P a → length (filter P l) < length (filter Q l).
Proof.
  intros HPQ Hin HQ HP. induction l as [|x l IH]; [by apply elem_of_nil in Hin|]. apply elem_of_cons in Hin as [<-|Hin].
  - rewrite filter_cons_False, filter_cons_True by done. cbn. pose proof (filter_shorter P Q l HPQ). lia.
  - rewrite !filter_cons. repeat case_decide; cbn; naive_solver lia.
Qed.

Lemma each_prefilter_ends inspect hs inspected w :
  (∀ t i w, t ∉ i → inspected ⊆ i → ∃ i' w', inspect t i w = Some (i', w') ∧ i ⊆ i') →
  ∃ i' w', each_prefilter unshift inspect hs inspected w = Some (i', w') ∧ inspected ⊆ i'.
Proof.
  intros Hi. revert w. induction hs as [|h hs IH]; intros w; [by eexists _, _|]. cbn [each_prefilter].
  destruct (h w) as [[t|] w1]; [|by apply IH]. case_decide; [by apply IH|]. by apply Hi.
Qed.

Lemma inspect_ends fuel structure t inspected w :
  t ∉ inspected → to_come structure inspected < fuel →
  ∃ i' w', inspect_prefilter unshift fuel structure t inspected w = Some (i', w') ∧ t :: inspected ⊆ i'.
Proof.
  revert t inspected w. induction fuel as [|fuel IH]; intros t inspected w Ht Hf; [lia|]. cbn [inspect_prefilter].
  destruct (decide (t ∈ obj_keys structure)) as [Hin|Hin].
  - apply each_prefilter_ends. intros t' i w' Ht' Hsub.
    destruct (IH t' i w' Ht') as (i' & w'' & E & Hi'); [|exists i', w''; split; [done|set_solver]].
    assert (to_come structure i < to_come structure inspected); [|lia].
    apply (filter_strictly _ _ _ t); [set_solver|done|done|set_solver].
  - unfold queue_of. destruct (obj_get t structure) eqn:E; [|by eexists _, _].
    exfalso. apply Hin, obj_get_keys. by eexists.
Qed.

(** What the prefilters keep, the inspection keeps. *)
Lemma inspect_keeps (P : W → Prop) fuel structure t inspected w i' w' :
  (∀ k hs, obj_get k structure = Some hs → Forall (λ h : W → option jstring * W, ∀ w, P w → P (h w).2) hs) →
  (∀ t w, P w → P (unshift t w)) →
  P w → inspect_prefilter unshift fuel structure t inspected w = Some (i', w') → P w'.
Proof.
  intros Hs Hu. revert t inspected w. induction fuel as [|fuel IH]; intros t inspected w HP; [done|]. cbn [inspect_prefilter].
  assert (Forall (λ h : W → option jstring * W, ∀ w, P w → P (h w).2) (queue_of t structure)) as Hf.
  { unfold queue_of. destruct (obj_get t structure) as [hs|] eqn:E; [by eapply Hs|constructor]. }
  generalize (t :: inspected) as ins. revert w HP. induction Hf as [|h hs Hh Hhs IHh]; intros w HP ins; cbn [each_prefilter].
  { by intros [= _ <-]. }
  specialize (Hh w HP). destruct (h w) as [[t'|] w1]; [|by apply IHh]. case_decide; [by apply IHh|].
  apply IH. by apply Hu.
Qed.

Lemma inspectPrefilters_keeps (P : W → Prop) structure first w w' :
  (∀ k hs, obj_get k structure = Some hs → Forall (λ h : W → option jstring * W, ∀ w, P w → P (h w).2) hs) →
  (∀ t w, P w → P (unshift t w)) →
  P w → inspectPrefilters unshift structure first w = Some w' → P w'.
Proof.
  intros Hs Hu HP. unfold inspectPrefilters. destruct (inspect_prefilter _ _ _ first _ _) as [[i w1]|] eqn:E1; [|done].
  cbn [mbind option_bind]. assert (P w1) as HP1 by (by eapply inspect_keeps). case_decide; [by intros [= <-]|].
  destruct (inspect_prefilter _ _ _ "*"%js _ _) as [[i2 w2]|] eqn:E2; [|done]. intros [= <-]. by eapply inspect_keeps.
Qed.

(** The inspection ends: every type is inspected at most once. *)
Lemma inspectPrefilters_ends structure first w : is_Some (inspectPrefilters unshift structure first w).
Proof.
  unfold inspectPrefilters.
  assert (∀ i, to_come structure i < S (S (length structure))) as Hf.
  { intros i. unfold to_come. assert (length (filter (.∉ i) (obj_keys structure)) ≤ length (obj_keys structure))
      by apply length_filter. unfold obj_keys in *. rewrite length_fmap in *. lia. }
  destruct (inspect_ends (S (S (length structure))) structure first [] w) as (i & w1 & -> & _); [set_solver|done|].
  cbn [mbind option_bind]. case_decide; [done|].
  destruct (inspect_ends (S (S (length structure))) structure "*"%js i w1) as (i' & w2 & -> & _); done.
Qed.

End inspect.

(** ** The conversion of a response ends *)

(** Every converter goes from one type to one type. *)
Definition pair_key (k : jstring) : Prop := ∃ a b, k = key a b ∧ (32%N ∉ a) ∧ (32%N ∉ b).

Lemma split_key a b : 32%N ∉ a → 32%N ∉ b → split " "%js (key a b) = [a; b].
Proof. intros Ha Hb. apply (split_join 32%N [] [a; b]); [done|]. by repeat constructor. Qed.

Section conversion.
Variable toLowerCase : jstring → jstring.
Variable responseFields : jsobj jstring.
Variable dataFilter : option (val → val).
Variable throws isSuccess : bool.

Lemma lower_keys_from converters k :
  k ∈ obj_keys (lower_keys toLowerCase converters) → ∃ k', k' ∈ obj_keys converters ∧ k = toLowerCase k'.
Proof.
  unfold lower_keys. assert (∀ l m, l ⊆ obj_keys converters →
    k ∈ obj_keys (foldl (λ m k, match obj_get k converters with Some c => obj_set (toLowerCase k) c m | None => m end) m l) →
    k ∈ obj_keys m ∨ ∃ k', k' ∈ obj_keys converters ∧ k = toLowerCase k') as Hl.
  { induction l as [|x l IH]; intros m Hsub Hk; [by left|]. cbn [foldl] in Hk. apply IH in Hk; [|set_solver].
    destruct Hk as [Hk|Hk]; [|by right]. destruct (obj_get x converters) as [c|]; [|by left].
    rewrite obj_keys_set in Hk. case_decide; [by left|]. apply elem_of_app in Hk as [Hk|Hk%list_elem_of_singleton]; [by left|].
    right. exists x. split; [set_solver|done]. }
  intros Hk. apply Hl in Hk as [Hk|Hk]; [by apply elem_of_nil in Hk|done|]. intros x. by rewrite elem_of_for_in.
Qed.

Section loop.
Variable m : jsobj conv.
Hypothesis Hm : ∀ k, k ∈ obj_keys m → pair_key k.

Lemma through_direct prev current keys c mid rest :
  keys ⊆ obj_keys m → seek_pair m prev current keys = Some (Through c mid rest) → direct m mid rest ≠ None.
Proof.
  induction keys as [|k keys IH]; intros Hsub; [done|]. cbn [seek_pair].
  assert (k ∈ obj_keys m) as Hk by set_solver. destruct (Hm k Hk) as (a & b & -> & Ha & Hb).
  rewrite split_key by done. cbn [lookup list_lookup default from_option id].
  assert (keys ⊆ obj_keys m) by set_solver. case_match eqn:Eb; [apply jeqb_true in Eb as <-|by apply IH].
  destruct (direct m prev a) as [[]|]; [by case_match| |by apply IH].
  apply obj_get_keys in Hk as [c' Hk]. rewrite Hk. destruct c' as [|g]; [done|]. intros [= <- <- <-]. unfold direct. by rewrite Hk.
Qed.

Abbreviation loop := (convert_loop responseFields dataFilter throws isSuccess).

Lemma loop_ends fuel :
  (∀ cur dts first r f, 2 * length dts < fuel → is_Some (loop fuel m cur dts first r f))
  ∧ (∀ cur t dts first r f, direct m cur t ≠ None → 2 * length dts + 1 < fuel → is_Some (loop fuel m cur (t :: dts) first r f)).
Proof.
  induction fuel as [|fuel [IHP IHQ]]; [split; intros; lia|]. split.
  - intros cur dts first r f Hf. cbn [convert_loop]. case_match; [done|]. destruct dts as [|t dts]; [done|]. cbn [length] in Hf.
    case_match; [done|]. case_match; [apply IHP; lia|]. case_match; [|apply IHP; lia].
    destruct (seek m cur t) as [[c|c mid rest]|] eqn:Es; [| |done].
    + case_match; [apply IHP; lia|done].
    + case_match; [|done]. apply IHQ; [|lia]. unfold seek in Es. destruct (direct m cur t); [done|].
      eapply through_direct; [|exact Es]. intros x. by rewrite elem_of_for_in.
  - intros cur t dts first r f Hd Hf. cbn [convert_loop]. case_match; [done|]. case_match; [done|].
    case_match; [apply IHP; lia|]. case_match; [|apply IHP; lia]. unfold seek. destruct (direct m cur t); [|done].
    case_match; [apply IHP; lia|done].
Qed.
End loop.

(** The conversion of a response ends for all data types, when every converter goes from one
    type to one type: a conversion through an intermediate type is followed by the direct one. *)
Theorem conversion_ends converters dataTypes response fields :
  (∀ k, k ∈ obj_keys converters → pair_key (toLowerCase k)) →
  is_Some (ajaxConvert toLowerCase responseFields dataFilter throws isSuccess converters dataTypes response fields).
Proof.
  intros Hk. unfold ajaxConvert. destruct dataTypes as [|current dataTypes]; [done|].
  apply loop_ends; [|lia]. intros k Hin. case_match; [case_match; [by apply elem_of_nil in Hin|]|by apply elem_of_nil in Hin].
  apply lower_keys_from in Hin as (k' & Hk' & ->). by apply Hk.
Qed.
End conversion.

(** ** A request settles once *)

(** What is logged before the end: global events and the abort of the transport. *)
Definition quiet_happening (h : happening) : Prop :=
  match h with Trigger _ | SendAbort _ => True | _ => False end.
Definition status_happening (h : happening) : Prop := match h with RunStatus _ _ => True | _ => False end.

(** The end of a request: the deferred, the callbacks for the status, the global event, the complete
    callbacks and the last global events. *)
Definition ending_log (global b : bool) (v : told_value) (status : Z) (codes : list nat) (text : val) (stop : bool) : list happening :=
  Settle b v :: (RunStatus status <$> codes)
  ++ (if global then [Trigger (if b then "ajaxSuccess"%js else "ajaxError"%js)] else [])
  ++ RunComplete (Completed text)
  :: (if global then Trigger "ajaxComplete"%js :: (if stop then [Trigger "ajaxStop"%js] else []) else []).

Section machine.
Context {D : Type} `{DeferredLaws D told_value}.
Variable toLowerCase toUpperCase : jstring → jstring.
Variable o : options.

Abbreviation W := (world D).
Implicit Types w : W.

(** A request under way, and one that has ended; [n0]: the active requests without this one. *)
Record pending (n0 : Z) (g : bool) w : Prop := {
  p_state : q_state (w_q w) < 2;
  p_sound : sound (q_deferred (w_q w)) ∧ sound (q_complete (w_q w));
  p_deferred : outcome (q_deferred (w_q w)) = None;
  p_complete : outcome (q_complete (w_q w)) = None;
  p_log : Forall quiet_happening (w_log w);
  p_active : n_active (w_n w) = (n0 + (if g then 1 else 0))%Z;
  p_global : q_global (w_q w) = g
}.

Definition finished (n0 : Z) (g : bool) w : Prop :=
  q_state (w_q w) = 2%nat ∧ q_global (w_q w) = g ∧ q_transport (w_q w) = None ∧ q_codes (w_q w) = None ∧ n_active (w_n w) = n0
  ∧ ∃ pre post b v status codes text stop,
      w_log w = pre ++ ending_log g b v status codes text stop ++ post
      ∧ Forall quiet_happening pre ∧ Forall status_happening post
      ∧ outcome (q_deferred (w_q w)) = Some (b, v) ∧ outcome (q_complete (w_q w)) = Some (true, Completed text)
      ∧ q_status (w_q w) = Some status.

Lemma run_codes_log status x map w :
  q_status (w_q w) = Some status → outcome (q_deferred (w_q w)) = Some x →
  ∃ codes, run_codes map w = World (w_q w) (w_n w) (w_log w ++ (RunStatus status <$> codes)).
Proof.
  unfold run_codes. intros -> ->. revert w. induction map as [|[c k] map IH]; intros [q n l].
  { exists []. by rewrite app_nil_r. }
  cbn [foldl fst snd]. case_match.
  - destruct (IH (log (RunStatus status k) (World q n l))) as (codes & ->). exists (k :: codes). cbn. by rewrite <- app_assoc.
  - apply IH.
Qed.

(** The pieces of the end. *)
Lemma settle_verdict_world (b : bool) text success error w :
  outcome (q_deferred (w_q w)) = None →
  let v := if b then Resolved success text else Rejected text error in
  settle_verdict b text success error w
  = World (set_q_deferred (settle b v (q_deferred (w_q w))) (w_q w)) (w_n w) (w_log w ++ [Settle b v]).
Proof. intros Ho v. unfold settle_verdict, settle_with, v. rewrite Ho. by destruct b. Qed.

Lemma call_codes_world status x w :
  q_status (w_q w) = Some status → outcome (q_deferred (w_q w)) = Some x →
  ∃ codes, call_codes w = World (set_q_codes None (w_q w)) (w_n w) (w_log w ++ (RunStatus status <$> codes)).
Proof.
  intros Hs Ho. unfold call_codes. destruct (q_codes (w_q w)) as [map|].
  - destruct (run_codes_log status x map w Hs Ho) as (codes & ->). by exists codes.
  - exists []. cbn. by rewrite app_nil_r.
Qed.

Lemma fire_complete_world v w :
  outcome (q_complete (w_q w)) = None →
  fire_complete v w = World (set_q_complete (settle true v (q_complete (w_q w))) (w_q w)) (w_n w) (w_log w ++ [RunComplete v]).
Proof. intros Ho. unfold fire_complete. by rewrite Ho. Qed.

Definition globals (global : bool) (l : list happening) : list happening := if global then l else [].

Lemma trigger_world (e : jstring) w : trigger e w = World (w_q w) (w_n w) (w_log w ++ globals (q_global (w_q w)) [Trigger e]).
Proof. unfold trigger, globals. destruct w as [q n l]. cbn. destruct (q_global q); [done|]. by rewrite app_nil_r. Qed.

Lemma leave_world w :
  ∃ (stop : bool) (n : shared), leave w = World (w_q w) n (w_log w ++ globals (q_global (w_q w)) (if stop then [Trigger "ajaxStop"%js] else []))
    ∧ n_active n = (n_active (w_n w) - (if q_global (w_q w) then 1 else 0))%Z.
Proof.
  unfold leave, globals. destruct w as [q n l]. cbn. destruct (q_global q); cbn.
  - exists (n_active n - 1 =? 0)%Z. eexists. case_match; cbn; [done|]. by rewrite app_nil_r.
  - exists false, n. rewrite app_nil_r. split; [done|lia].
Qed.

(** What the verdict tells the deferred. *)
Definition verdict_outcome (x : bool * Z * val * val * val) : bool * told_value :=
  let '(b, _, text, success, error) := x in (b, if b then Resolved success text else Rejected text error).

(** What [announce] does, once the first assignments of [done] are made. *)
Lemma announce_finishes n0 (g : bool) c r w :
  q_state (w_q w) = 2%nat → q_transport (w_q w) = None →
  sound (q_deferred (w_q w)) → sound (q_complete (w_q w)) →
  outcome (q_deferred (w_q w)) = None → outcome (q_complete (w_q w)) = None →
  Forall quiet_happening (w_log w) → n_active (w_n w) = (n0 + (if g then 1 else 0))%Z → q_global (w_q w) = g →
  finished n0 g (announce toLowerCase o c r w)
  ∧ outcome (q_deferred (w_q (announce toLowerCase o c r w)))
    = Some (verdict_outcome (verdict (c_status c) (c_native c) (q_type (w_q w)) r)).
Proof.
  intros Hs Ht S1 S2 O1 O2 Hl Ha Hg. unfold announce.
  set (w1 := if is_success (c_status c) then _ else w).
  assert (w_q w1 = w_q w ∧ w_log w1 = w_log w ∧ n_active (w_n w1) = n_active (w_n w)) as (E1 & E2 & E3).
  { unfold w1, remember_modified. by repeat case_match. }
  rewrite <- E1. destruct (verdict _ _ _ r) as [[[[b status] text] success] error]. rewrite <- E1, <- E2, <- E3 in *.
  clearbody w1. clear E1 E2 E3 w. cbn [verdict_outcome].
  rewrite settle_verdict_world by done. set (v := if b then Resolved success text else Rejected text error). cbn [w_q w_n w_log upd_q].
  edestruct (call_codes_world status (b, v)) as (codes & ->); [done| |].
  { cbn. by rewrite settle_once, O1 by done. }
  rewrite (trigger_world (if b then _ else _)), fire_complete_world by done. rewrite trigger_world. cbn [w_q w_n w_log].
  match goal with |- finished _ _ (leave ?x) ∧ _ => destruct (leave_world x) as (stop & n & -> & Hn) end.
  cbn in Hn |- *. rewrite Hg in Hn.
  assert (outcome (settle b v (q_deferred (w_q w1))) = Some (b, v)) as Ho by (by rewrite settle_once, O1 by done).
  split; [|exact Ho]. split_and!; try done; [cbn; rewrite Hn, Ha; lia|].
  exists (w_log w1), [], b, v, status, codes, text, stop. split_and!; try done.
  - unfold ending_log, globals. cbn. rewrite app_nil_r, <- !app_assoc. cbn. rewrite Hg. do 2 f_equal. f_equal. by destruct g.
  - cbn. by rewrite settle_once, O2 by done.
Qed.

Lemma no_throw responseFields dataFilter ok fuel m cur dts first r f x :
  convert_loop responseFields dataFilter false ok fuel m cur dts first r f = Some x → ∀ e, x.1 ≠ Thrown e.
Proof.
  revert cur dts first r f. induction fuel as [|fuel IH]; intros cur dts first r f; [done|]. cbn [convert_loop].
  assert (∀ c v y, apply_conv false c v = inr y → ∀ e, y ≠ Thrown e) as Ha.
  { intros [|g] v y; cbn; [done|]. destruct (g v); [done|]. by intros [= <-]. }
  repeat case_match; try (by intros [= <-]); try (by apply IH).
  all: intros [= <-]; cbn; by eapply Ha.
Qed.

Hypothesis Hthrows : o_throws o = false.
Hypothesis Hconv : ∀ k, k ∈ obj_keys (o_converters o) → pair_key (toLowerCase k).

Lemma done_pending n0 (g : bool) c w : pending n0 g w → ∃ w', done_ toLowerCase o c w = (w', Ends) ∧ finished n0 g w'.
Proof.
  intros [Ps [S1 S2] P1 P2 Pl Pa Pg]. unfold done_. destruct (Nat.eqb_spec (q_state (w_q w)) 2); [lia|].
  destruct (response_of _ _ _ _) as [response dataTypes]. rewrite Hthrows.
  set (w1 := upd_q (set_q_dataTypes dataTypes) _).
  destruct (conversion_ends toLowerCase (o_responseFields o) (o_dataFilter o) false (is_success (c_status c)) (o_converters o)
    dataTypes response (q_fields (w_q w1)) Hconv) as [[r fields] E]. rewrite E.
  assert (∀ e, r ≠ Thrown e) as Hr.
  { unfold ajaxConvert in E. destruct dataTypes as [|t l]; [by injection E as <- <-|]. by apply (no_throw _ _ _ _ _ _ _ _ _ _ _ E). }
  assert (finished n0 g (announce toLowerCase o c r (upd_q (set_q_fields fields) w1))) as F.
  { by apply announce_finishes. }
  eexists. split; [|exact F]. destruct r; [done|done|]. by destruct (Hr e).
Qed.

Lemma done_finished n0 (g : bool) c w : finished n0 g w → done_ toLowerCase o c w = (w, Ends).
Proof. intros [Hs _]. unfold done_. by rewrite Hs. Qed.

(** A request that is under way or has ended properly. *)
Definition proper (n0 : Z) (g : bool) w : Prop := pending n0 g w ∨ finished n0 g w.

Lemma done_proper n0 (g : bool) c w : proper n0 g w → ∃ w', done_ toLowerCase o c w = (w', Ends) ∧ finished n0 g w'.
Proof. intros [P|F]; [by apply done_pending|]. exists w. split; [by eapply done_finished|done]. Qed.

Lemma done_each_proper n0 (g : bool) cs w : proper n0 g w → ∃ w', done_each toLowerCase o cs w = (w', Ends) ∧ proper n0 g w'.
Proof.
  revert w. induction cs as [|c cs IH]; intros w P; [by exists w|]. cbn [done_each].
  destruct (done_proper n0 g c w P) as (w1 & -> & F). cbn [andthen]. apply IH. by right.
Qed.

Lemma abort_proper n0 (g : bool) t w : proper n0 g w → ∃ w', abort toLowerCase o t w = (w', Ends) ∧ finished n0 g w'.
Proof.
  intros P. unfold abort. set (final := if truthy t then t else _).
  assert (∃ w1, match q_transport (w_q w) with
     | Some t0 => done_each toLowerCase o (t_abort t0) (log (SendAbort final) w)
     | None => (w, Ends) end = (w1, Ends) ∧ proper n0 g w1) as (w1 & -> & P1).
  { destruct (q_transport (w_q w)) as [t0|] eqn:Et; [|by exists w]. apply done_each_proper.
    destruct P as [[]|(_ & _ & F & _)]; [|congruence]. left. split; cbn; try done. apply Forall_app. split; [done|]. by repeat constructor. }
  cbn [andthen]. by apply done_proper.
Qed.

(** Assignments that the page makes while a request is under way. *)
Lemma pending_upd n0 (g : bool) f w :
  pending n0 g w → q_state (f (w_q w)) < 2 → q_deferred (f (w_q w)) = q_deferred (w_q w) → q_complete (f (w_q w)) = q_complete (w_q w) →
  q_global (f (w_q w)) = q_global (w_q w) → pending n0 g (upd_q f w).
Proof.
  intros [P1 [P2 P3] P4 P5 P6 P7 P8] H1 H2 H3 H4. split; cbn; rewrite ?H2, ?H3, ?H4; try done.
Qed.

Lemma codes_finished n0 (g : bool) map w : finished n0 g w → finished n0 g (run_codes map w).
Proof.
  intros (Hs & Hg & Ht & Hc & Ha & pre & post & b & v & status & codes & text & stop & Hl & Hpre & Hpost & Ho & Hcomp & Hst).
  destruct (run_codes_log status (b, v) map w Hst Ho) as (codes' & ->). split_and!; try done.
  exists pre, (post ++ (RunStatus status <$> codes')), b, v, status, codes, text, stop. split_and!; try done.
  - cbn [w_log w_q]. rewrite Hl, <- !app_assoc. done.
  - apply Forall_app. split; [done|]. apply Forall_fmap, Forall_forall. done.
Qed.

Definition aborts (op : xop) : bool := match op with OpAbort _ => true | _ => false end.

Lemma op_pending n0 (g : bool) op w : aborts op = false → pending n0 g w → ∃ w', run_op toLowerCase o op w = (w', Ends) ∧ pending n0 g w'.
Proof.
  intros Hop P. pose proof (p_state _ _ _ P). destruct op; [done| | |]; cbn [run_op].
  - eexists. split; [done|]. apply pending_upd; [done|..]; unfold set_header; case_match; done.
  - eexists. split; [done|]. apply pending_upd; [done|..]; case_match; done.
  - case_match eqn:E; [|apply Nat.ltb_ge in E; lia]. eexists. split; [done|]. apply pending_upd; done.
Qed.

Lemma op_proper n0 (g : bool) op w : proper n0 g w → ∃ w', run_op toLowerCase o op w = (w', Ends) ∧ proper n0 g w'.
Proof.
  intros P. destruct (aborts op) eqn:Ea.
  { destruct op; [|done..]. destruct (abort_proper n0 g statusText w P) as (w' & E & F). exists w'. split; [done|by right]. }
  destruct P as [P|F].
  { destruct (op_pending n0 g op w Ea P) as (w' & E & P'). exists w'. split; [done|by left]. }
  pose proof F as (Hs & _). destruct op; [done| | |]; cbn [run_op].
  - exists w. split; [|by right]. unfold set_header, upd_q. rewrite Hs. by destruct w.
  - exists w. split; [|by right]. unfold upd_q. rewrite Hs. by destruct w.
  - rewrite Hs. cbn. eexists. split; [done|]. right. by apply codes_finished.
Qed.

Lemma ops_proper n0 (g : bool) ops w : proper n0 g w → ∃ w', run_ops toLowerCase o ops w = (w', Ends) ∧ proper n0 g w'.
Proof.
  revert w. induction ops as [|op ops IH]; intros w P; [by exists w|]. cbn [run_ops].
  destruct (op_proper n0 g op w P) as (w1 & -> & P1). cbn [andthen]. by apply IH.
Qed.

Lemma ops_pending n0 (g : bool) ops w :
  Forall (λ op, aborts op = false) ops → pending n0 g w → ∃ w', run_ops toLowerCase o ops w = (w', Ends) ∧ pending n0 g w'.
Proof.
  intros Hops. revert w. induction Hops as [|op ops Hop Hops IH]; intros w P; [by exists w|]. cbn [run_ops].
  destruct (op_pending n0 g op w Hop P) as (w1 & -> & P1). cbn [andthen]. by apply IH.
Qed.

(** ** From the call to the transport *)

Lemma obj_get_fmap_values {A B} (g : A → B) k (obj : jsobj A) x :
  obj_get k ((λ e : jstring * A, (e.1, g e.2)) <$> obj) = Some x → ∃ y, x = g y.
Proof.
  induction obj as [|[k' v] obj IH]; [done|]. cbn [fmap list_fmap obj_get fst snd]. case_decide; [|done].
  intros [= <-]. by exists v.
Qed.

Context (hooks : page_hooks (D := D)).
(** The handlers of [ajaxSend] abort no request. *)
Hypothesis Hsend : ∀ q, Forall (λ op, aborts op = false) (h_ajaxSend hooks q).

Lemma send_proper n0 (g : bool) w : pending n0 g w → proper n0 g (send toLowerCase o w).1.
Proof.
  intros P. unfold send. set (w1 := upd_q _ w).
  assert (pending n0 g w1) as P1 by (apply pending_upd; try done; cbn; lia).
  destruct (q_transport (w_q w1)) as [t|].
  - destruct (t_send t _) as [cs threw].
    destruct (done_each_proper n0 g cs w1) as (w2 & -> & P2); [by left|]. cbn [andthen].
    destruct threw as [e|]; [|done]. case_match; [|done].
    destruct (done_proper n0 g (Completion (-1) e None None) w2 P2) as (w3 & -> & F). by right.
  - pose proof (p_state _ _ _ P1). case_match eqn:E; [|apply Nat.ltb_ge in E; lia].
    destruct (done_pending n0 g (Completion (-1) type_error None None) w1 P1) as (w3 & -> & F). by right.
Qed.

Lemma start_transport_proper n0 (g : bool) w : pending n0 g w → proper n0 g (start_transport toLowerCase o hooks w).1.
Proof.
  intros P. unfold start_transport. set (w1 := upd_q _ w).
  assert (pending n0 g w1) as P1 by (apply pending_upd; try done; apply (p_state _ _ _ P)).
  destruct (inspectTransports _ _ _) as [t u]. set (w2 := upd_q _ w1).
  assert (pending n0 g w2) as P2 by (apply pending_upd; try done; apply (p_state _ _ _ P1)).
  destruct t as [t|].
  - assert (pending n0 g (trigger "ajaxSend"%js (upd_q (set_q_readyState 1) w2))) as P3.
    { rewrite trigger_world. destruct P2 as [p1 p2 p3 p4 p5 p6 p7]. split; try done.
      cbn [w_log]. apply Forall_app. split; [done|]. unfold globals. destruct (q_global _); by repeat constructor. }
    set (w3 := trigger _ _) in *.
    assert (∃ w4, (if q_global (w_q w3) then run_ops toLowerCase o (h_ajaxSend hooks (w_q w3)) w3 else (w3, Ends)) = (w4, Ends)
      ∧ pending n0 g w4) as (w4 & -> & P4).
    { destruct (q_global (w_q w3)); [|by exists w3]. apply ops_pending; [apply Hsend|done]. }
    cbn [andthen]. apply send_proper. case_match; [|done]. apply pending_upd; try done; apply (p_state _ _ _ P4).
  - destruct (done_proper n0 g (Completion (-1) (VStr "No Transport"%js) None None) w2) as (w3 & -> & F); [by left|by right].
Qed.

Lemma before_send_proper n0 (g : bool) w : pending n0 g w → proper n0 g (before_send toLowerCase o hooks w).1.
Proof.
  intros P. unfold before_send. destruct (h_beforeSend hooks) as [f|]; [destruct (f (w_q w)) as [ops refused]|].
  - destruct (ops_proper n0 g ops w) as (w1 & -> & P1); [by left|]. cbn [andthen]. case_match eqn:E.
    + destruct (abort_proper n0 g VUndef w1 P1) as (w2 & -> & F). by right.
    + destruct P1 as [P1|F1]; [by apply start_transport_proper|]. destruct F1 as [F1 _]. rewrite F1 in E. by destruct refused.
  - by apply start_transport_proper.
Qed.

Lemma set_header_keeps name value (q : request D) :
  q_state (set_header toLowerCase name value q) = q_state q ∧ q_deferred (set_header toLowerCase name value q) = q_deferred q
  ∧ q_complete (set_header toLowerCase name value q) = q_complete q ∧ q_global (set_header toLowerCase name value q) = q_global q.
Proof. unfold set_header. by case_match. Qed.

Lemma header_pending n0 (g : bool) name value w : pending n0 g w → pending n0 g (upd_q (set_header toLowerCase name value) w).
Proof.
  intros P. destruct (set_header_keeps name value (w_q w)) as (H1 & H2 & H3 & H4).
  apply pending_upd; [done| |done..]. rewrite H1. apply (p_state _ _ _ P).
Qed.

Lemma set_headers_pending n0 (g : bool) w : pending n0 g w → pending n0 g (set_headers toLowerCase o w).
Proof.
  intros P. unfold set_headers. set (w1 := if o_ifModified o then _ else w).
  assert (pending n0 g w1) as P1 by (unfold w1; repeat case_match; repeat apply header_pending; done).
  set (w2 := if _ || _ then _ else w1). assert (pending n0 g w2) as P2 by (unfold w2; case_match; [by apply header_pending|done]).
  apply (header_pending n0 g "Accept"%js (accept o (q_dataTypes (w_q w2)))) in P2. clearbody w2.
  revert P2. generalize (upd_q (set_header toLowerCase "Accept"%js (accept o (q_dataTypes (w_q w2)))) w2) as w3.
  induction (for_in (o_headers o)) as [|i l IH]; intros w3 P3; [done|]. cbn [foldl]. apply IH.
  case_match; [by apply header_pending|done].
Qed.

Lemma address_pending n0 (g : bool) w : pending n0 g w → pending n0 g (address o w).
Proof.
  intros P. unfold address. set (w1 := upd_q _ w).
  assert (pending n0 g w1) as P1 by (apply pending_upd; try done; apply (p_state _ _ _ P)).
  case_match; [done|]. set (w2 := if truthy _ then _ else w1).
  assert (pending n0 g w2) as P2 by (unfold w2; case_match; [|done]; apply pending_upd; try done; apply (p_state _ _ _ P1)).
  case_match; [|done]. destruct P2. split; done.
Qed.

(** The request as it is when the prefilters have run and nothing has aborted it. *)
Lemma enter_pending n0 w : pending n0 false w → pending n0 (o_global o) (upd_q (upper_type toUpperCase) (enter o w)).
Proof.
  intros [p1 p2 p3 p4 p5 p6 p7]. unfold enter. destruct (o_global o); [|split; cbn; try done].
  assert (∀ l, Forall quiet_happening l → pending n0 true (upd_q (upper_type toUpperCase)
    (World (set_q_global true (w_q w)) (Shared (n_active (w_n w) + 1) (n_nonce (w_n w)) (n_lastModified (w_n w)) (n_etag (w_n w))) l))) as Hx.
  { intros l Hl. split; cbn; try done. lia. }
  case_match; apply Hx; [|done]. apply Forall_app. split; [done|]. by repeat constructor.
Qed.


(** Assignments to the types or to the timer. *)
Lemma proper_upd n0 (g : bool) f w :
  (∀ q, q_state (f q) = q_state q ∧ q_deferred (f q) = q_deferred q ∧ q_complete (f q) = q_complete q ∧ q_global (f q) = q_global q
     ∧ q_transport (f q) = q_transport q ∧ q_codes (f q) = q_codes q ∧ q_status (f q) = q_status q) →
  proper n0 g w → proper n0 g (upd_q f w).
Proof.
  intros Hf P. destruct (Hf (w_q w)) as (H1 & H2 & H3 & H4 & H5 & H6 & H7). destruct P as [P|F].
  - left. apply pending_upd; try done. rewrite H1. apply (p_state _ _ _ P).
  - right. unfold finished in *. cbn. by rewrite H1, H2, H3, H4, H5, H6, H7.
Qed.

(** The prefilters see a proper request, which is not counted yet. *)
Definition prefiltered (n0 : Z) (r : W * ending) : Prop := r.2 = Ends ∧ proper n0 false r.1.

Lemma as_prefilter_keeps n0 p r : prefiltered n0 r → prefiltered n0 (as_prefilter toLowerCase o p r).2.
Proof.
  destruct r as [w e]. intros [E P]. cbn in E. subst e. unfold as_prefilter. destruct (p (w_q w)) as [ops t].
  destruct (ops_proper n0 false ops w P) as (w' & -> & P'). done.
Qed.

Lemma unshift_keeps n0 t r : prefiltered n0 r → prefiltered n0 (unshift_type t r).
Proof. intros [E P]. split; [done|]. by apply proper_upd. Qed.

Context (location : jstring) (ajaxLocParts : jstring * option jstring * option jstring).

Lemma new_request_pending a n : pending (n_active n) false (World (new_request toLowerCase location ajaxLocParts a : request D) n []).
Proof. destruct sound_fresh as [S O]. split; cbn; try done; lia. Qed.

Lemma prefilters_proper n0 w r :
  pending n0 false w →
  inspectPrefilters unshift_type
    ((λ e : jstring * list (request D → list xop * option jstring), (e.1, as_prefilter toLowerCase o <$> e.2)) <$> h_prefilters hooks)
    (default "undefined"%js (head (q_dataTypes (w_q w)))) (w, Ends) = Some r →
  prefiltered n0 r.
Proof.
  intros P. apply inspectPrefilters_keeps; [|intros t r'; apply unshift_keeps|split; [done|by left]].
  intros k hs (l & ->)%obj_get_fmap_values. apply Forall_fmap, Forall_forall. intros p _ r'. apply as_prefilter_keeps.
Qed.

Lemma ajax_proper a n : ∃ g, proper (n_active n) g (ajax toLowerCase toUpperCase o location ajaxLocParts hooks a n).1.
Proof.
  unfold ajax. pose proof (new_request_pending a n) as P. set (w := World _ n []) in *.
  destruct (prepare_data o (a_data a)) as [data|]; [|exists false; by left].
  set (w1 := upd_q _ w). assert (pending (n_active n) false w1) as P1 by (apply pending_upd; try done; apply (p_state _ _ _ P)).
  destruct (inspectPrefilters _ _ _ _) as [[w2 e]|] eqn:E; [|exists false; by left].
  apply (prefilters_proper (n_active n)) in E as [He P2]; [|done]. cbn in He, P2. subst e. cbn [andthen].
  case_match eqn:Es; [exists false; done|].
  destruct P2 as [P2|[F2 _]]; [|by rewrite F2 in Es]. exists (o_global o).
  by apply before_send_proper, set_headers_pending, address_pending, enter_pending.
Qed.

Lemma xstep_proper n0 (g : bool) e w : proper n0 g w → proper n0 g (xstep toLowerCase o e w).
Proof.
  intros P. destruct e as [c| |op]; cbn [xstep].
  - destruct (done_proper n0 g c w P) as (w' & -> & F). by right.
  - case_match; [|done]. destruct (abort_proper n0 g (VStr "timeout"%js) (upd_q (set_q_timer false) w)) as (w' & -> & F); [|by right].
    by apply proper_upd.
  - destruct (op_proper n0 g op w P) as (w' & -> & P'). done.
Qed.

(** C25: a request, under any answers of its transport, timeouts and calls of the page, before and
    after its end, is settled at most once: until then nothing but global events is seen and the
    request is counted as active; from then on the deferred has one outcome, its callbacks, those of
    the status, the complete callbacks and the global events came once and in this order, the
    request is not counted any more, and only status callbacks that the page adds later still run.
    An answer or an abort always brings a request there.  This holds when no handler of [ajaxSend]
    aborts the request. *)
Theorem request_settles_once a n es :
  let w := xrun toLowerCase o es (ajax toLowerCase toUpperCase o location ajaxLocParts hooks a n).1 in
  ∃ g, (pending (n_active n) g w ∨ finished (n_active n) g w)
    ∧ (∀ c, finished (n_active n) g (xstep toLowerCase o (EvDone c) w))
    ∧ (∀ t, finished (n_active n) g (xstep toLowerCase o (EvOp (OpAbort t)) w)).
Proof.
  intros w. destruct (ajax_proper a n) as [g P]. exists g. assert (proper (n_active n) g w) as Pw.
  { unfold w, xrun. revert P. generalize (ajax toLowerCase toUpperCase o location ajaxLocParts hooks a n).1 as w0. clear w.
    induction es as [|e es IH]; intros w0 P0; [done|]. cbn [foldl flip]. by apply IH, xstep_proper. }
  split; [exact Pw|]. split.
  - intros c. cbn [xstep]. by destruct (done_proper (n_active n) g c w Pw) as (w' & -> & F).
  - intros t. cbn [xstep run_op]. by destruct (abort_proper (n_active n) g t w Pw) as (w' & -> & F).
Qed.
End machine.
