(* ===== verification/JqAjaxAnswers.v ===== *)
(** * Answers of a server and the default settings (jquery/src/ajax.js, ajaxSettings)

    With the settings of the library a JSON answer reaches the page as the value the server
    serialized; a text that is no JSON is an error; and an abort from a handler of [ajaxSend]
    finishes a request twice. *)

From S2P Require Import Prelude JsString JsObject JsNumber JsValue JsJson DtUtil JqWhen JqAjaxTypes JqAjax JqAjaxTheorems.
#[local] Open Scope Z_scope.

(** ** The settings of the library *)

Definition contains (p s : jstring) : bool := match index_of p s with Some _ => true | None => false end.

Definition default_contents : list (jstring * (jstring → bool)) :=
  [("xml"%js, contains "xml"%js); ("html"%js, contains "html"%js); ("json"%js, contains "json"%js);
   ("script"%js, λ ct, contains "javascript"%js ct || contains "ecmascript"%js ct)].

Definition default_responseFields : jsobj jstring :=
  [("xml"%js, "responseXML"%js); ("text"%js, "responseText"%js); ("json"%js, "responseJSON"%js)].

Definition syntax_error : val := VObj [("name"%js, VStr "SyntaxError"%js)].
Definition parseJSON (data : val) : val + val :=
  match json_parse (to_string data) with Some v => inl v | None => inr syntax_error end.

(** The XML parser and the evaluation of scripts belong to the browser. *)
Definition default_converters (parseXML globalEval : val → val + val) : jsobj conv :=
  [("* text"%js, CFun (λ v, inl (VStr (to_string v)))); ("text html"%js, CSame);
   ("text json"%js, CFun parseJSON); ("text xml"%js, CFun parseXML);
   ("text script"%js, CFun (λ text, match globalEval text with inl _ => inl text | inr e => inr e end))].

Definition default_accepts : jsobj jstring :=
  [("*"%js, "*/*"%js); ("text"%js, "text/plain"%js); ("html"%js, "text/html"%js);
   ("xml"%js, "application/xml, text/xml"%js); ("json"%js, "application/json, text/javascript"%js);
   ("script"%js, "text/javascript, application/javascript, application/ecmascript, application/x-ecmascript"%js)].

Definition default_options (parseXML globalEval : val → val + val) : options :=
  Options true false true true 0 false false false
    (Some "application/x-www-form-urlencoded; charset=UTF-8"%js) false default_accepts []
    default_contents (default_converters parseXML globalEval) default_responseFields None.

(** ** JSON answers *)

Section answers.
Context {D : Type} `{DeferredLaws D told_value}.
Variable toLowerCase : jstring → jstring.
Variable parseXML globalEval : val → val + val.
(** The lower case mapping leaves what is in lower case. *)
Hypothesis Hlower : ∀ k, k ∈ obj_keys (default_converters parseXML globalEval) → toLowerCase k = k.
Abbreviation o := (default_options parseXML globalEval).

Lemma default_pairs k : k ∈ obj_keys (o_converters o) → pair_key (toLowerCase k).
Proof.
  intros Hk. rewrite Hlower by done. cbn in Hk.
  repeat (apply elem_of_cons in Hk as [->|Hk]; [|]); [..|by apply elem_of_nil in Hk].
  all: match goal with
       | |- pair_key ?k => let l := eval vm_compute in (split " "%js k) in
                           match l with [?a; ?b] => exists a, b end
       end; (split; [reflexivity|]); split; apply (bool_decide_eq_true_1 _); vm_compute; reflexivity.
Qed.

Lemma lower_default : lower_keys toLowerCase (default_converters parseXML globalEval) = default_converters parseXML globalEval.
Proof.
  unfold lower_keys. change (for_in (default_converters parseXML globalEval)) with (obj_keys (default_converters parseXML globalEval)).
  cbn [obj_keys default_converters fmap list_fmap fst foldl obj_get]. rewrite !decide_False by done.
  repeat (rewrite decide_True by done). cbn. rewrite !Hlower by (apply list_elem_of_In; cbn; tauto). reflexivity.
Qed.

(** The data types of a request for JSON, or of one that leaves the type to the answer. *)
Definition wants_json (q : request D) (c : completion) : Prop :=
  q_dataTypes q = ["json"%js]
  ∨ q_dataTypes q = ["*"%js] ∧ q_mimeType q = None
    ∧ ∃ ct, getResponseHeader toLowerCase (default [] (c_headers c)) "Content-Type"%js = Some ct
            ∧ content_type default_contents ct = Some "json"%js.

Lemma handle_json ct r :
  ajaxHandleResponses default_contents (default_converters parseXML globalEval) ct ["json"%js] [("text"%js, r)]
  = (Some r, ["text"%js; "json"%js]).
Proof. reflexivity. Qed.

Lemma handle_auto ct r :
  ct ≠ [] → content_type default_contents ct = Some "json"%js →
  ajaxHandleResponses default_contents (default_converters parseXML globalEval) (Some ct) ["*"%js] [("text"%js, r)]
  = (Some r, ["text"%js; "json"%js]).
Proof.
  intros Hne Hct. unfold ajaxHandleResponses. cbn [drop_auto]. change ("*"%js =s? "*"%js) with true.
  cbn [snd]. rewrite (proj2 (jeqb_false ct []) Hne), Hct. reflexivity.
Qed.

Lemma convert_json ok text v fields :
  json_parse text = Some v →
  ∃ fields', ajaxConvert toLowerCase default_responseFields None false ok (default_converters parseXML globalEval)
    ["text"%js; "json"%js] (VStr text) fields = Some (Success v, fields').
Proof.
  intros Hp. unfold ajaxConvert. cbn [lookup list_lookup]. change ("json"%js =s? []) with false. rewrite lower_default.
  cbn [length Nat.mul Nat.add]. cbn [convert_loop]. change ("text"%js =s? []) with false. change ("json"%js =s? []) with false.
  change ("json"%js =s? "*"%js) with false. change ("text"%js =s? "*"%js) with false. change ("text"%js =s? "json"%js) with false.
  cbn [negb andb]. change (seek (default_converters parseXML globalEval) "text"%js "json"%js) with (Some (Use (CFun parseJSON))).
  cbn [apply_conv filtered]. unfold parseJSON. cbn [to_string]. rewrite Hp. by eexists.
Qed.

(** What a JSON answer does to the data types and the response. *)
Lemma json_response c s (w : world D) :
  c_responses c = Some [("text"%js, VStr s)] → q_headersString (w_q w) = default [] (c_headers c) →
  wants_json (w_q w) c → response_of toLowerCase o c w = (VStr s, ["text"%js; "json"%js]).
Proof.
  intros Hr Hh Hw. unfold response_of. rewrite Hr. cbn [o_contents o_converters default_options].
  destruct Hw as [->|(-> & -> & ct & Hct & Hj)]; [by rewrite handle_json|].
  cbn [mbind option_bind]. rewrite Hh, Hct. rewrite handle_auto; [done| |done].
  intros ->. discriminate.
Qed.

(** With the settings of the library, an answer of success whose text the server wrote with
    [JSON.stringify] resolves the deferred of a request for JSON, or of one that asks for no type
    and gets the JSON content type, with the value the server wrote. *)
Theorem json_answer n0 g c v s w :
  pending n0 g w → wants_json (w_q w) c → is_success (c_status c) = true → c_status c ≠ 204 → c_status c ≠ 304 →
  q_type (w_q w) ≠ "HEAD"%js → json_val v → json_stringify v = Some s → c_responses c = Some [("text"%js, VStr s)] →
  ∃ w', done_ toLowerCase o c w = (w', Ends) ∧ finished n0 g w'
    ∧ outcome (q_deferred (w_q w')) = Some (true, Resolved v (VStr "success"%js)).
Proof.
  intros P Hw Hok H204 H304 Hhead Hv Hs Hr.
  destruct (done_pending toLowerCase o eq_refl default_pairs n0 g c w P) as (w' & E & F). exists w'. split; [done|]. split; [done|].
  revert E. unfold done_. pose proof (p_state _ _ _ P) as Hst. destruct (Nat.eqb_spec (q_state (w_q w)) 2); [lia|].
  rewrite (json_response c s (upd_q (close c) w)) by done. cbn [o_responseFields o_dataFilter o_throws o_converters default_options].
  match goal with |- context [ajaxConvert _ _ _ _ ?ok _ _ _ ?f] =>
    destruct (convert_json ok s v f (json_parse_stringify v s Hv Hs)) as (fields & ->) end.
  intros [= <-]. destruct P as [_ [S1 S2] P1 P2 Pl Pa Pg].
  match goal with |- context [announce _ _ c ?r ?w1] => destruct (announce_finishes toLowerCase o n0 g c r w1) as [_ ->]; try done end.
  cbn [verdict_outcome]. unfold verdict. rewrite Hok.
  match goal with |- context [?t =s? "HEAD"%js] => change t with (q_type (w_q w)) end.
  by rewrite (proj2 (Z.eqb_neq _ _) H204), (proj2 (Z.eqb_neq _ _) H304), (proj2 (jeqb_false _ _) Hhead).
Qed.
End answers.

(** ** Examples *)

(** A deferred that only remembers its outcome. *)
#[local] Instance remembered_ops {A} : DeferredOps (option (bool * A)) A :=
  {| fresh := None; settle b x d := Some (default (b, x) d); notifyWith _ d := d; outcome d := d |}.
#[local] Program Instance remembered_laws {A} : DeferredLaws (option (bool * A)) A := {| sound _ := True |}.
Solve Obligations with done.

Definition ascii_lower (s : jstring) : jstring := map (λ u, if ((65 <=? u) && (u <=? 90))%N then (u + 32)%N else u) s.
Definition ascii_upper (s : jstring) : jstring := map (λ u, if ((97 <=? u) && (u <=? 122))%N then (u - 32)%N else u) s.

Abbreviation D := (option (bool * told_value)).
Definition no_browser (v : val) : val + val := inr (VStr "no browser"%js).
Abbreviation settings := (default_options no_browser no_browser).

(** The request for the tasks; the transport answers later. *)
Definition task_call : call := Call "/api/tasks/#now"%js "get"%js (Some "json"%js) (VObj [("all"%js, VNum (num_of_Z 1))]) None [(200, 7%nat)].
Definition waits : transport := Transport (λ _, ([], None)) [].
Definition page (ajaxSend : list xop) : page_hooks (D := D) :=
  PageHooks [] None (λ _, ajaxSend) [("*"%js, [λ _, Some waits])].
Definition idle : shared := Shared 0 1 [] [].
Definition parts : jstring * option jstring * option jstring := ("http:"%js, Some "pcapdb"%js, None).
Abbreviation start := (ajax ascii_lower ascii_upper settings "http://pcapdb/"%js parts).

Definition task_answer : completion :=
  Completion 200 (VStr "OK"%js) (Some [("text"%js, VStr "[1]"%js)]) (Some "Content-Type: application/json"%js).

Lemma lower_keys_ascii k : k ∈ obj_keys (default_converters no_browser no_browser) → ascii_lower k = k.
Proof.
  intros Hk. cbn in Hk.
  repeat (apply elem_of_cons in Hk as [->|Hk]; [vm_compute; reflexivity|]). by apply elem_of_nil in Hk.
Qed.

Lemma lower_pairs k : k ∈ obj_keys (o_converters settings) → pair_key (ascii_lower k).
Proof. apply default_pairs, lower_keys_ascii. Qed.

(** What the page sees of a request that is answered. *)
Example task_request :
  let w := xrun ascii_lower settings [EvDone task_answer; EvDone task_answer; EvOp (OpAbort VUndef)] (start (page []) task_call idle).1 in
  q_url (w_q w) = "/api/tasks/?all=1"%js
  ∧ q_headers (w_q w) = [("Accept"%js, "application/json, text/javascript, */*; q=0.01"%js)]
  ∧ w_log w = [Trigger "ajaxStart"%js; Trigger "ajaxSend"%js; Settle true (Resolved (VArr [VNum (num_of_Z 1)]) (VStr "success"%js));
               RunStatus 200 7; Trigger "ajaxSuccess"%js; RunComplete (Completed (VStr "success"%js));
               Trigger "ajaxComplete"%js; Trigger "ajaxStop"%js]
  ∧ n_active (w_n w) = 0.
Proof. vm_compute. split_and!; reflexivity. Qed.

Example request_settles_once_witness :
  let w := xrun ascii_lower settings [EvOp (OpStatusCode [(0, 3%nat)]); EvOp (OpAbort VUndef); EvDone task_answer] (start (page []) task_call idle).1 in
  ∃ g, finished 0 g w ∧ outcome (q_deferred (w_q w)) = Some (false, Rejected (VStr "abort"%js) (VStr "abort"%js)).
Proof.
  intros w. destruct (request_settles_once ascii_lower ascii_upper settings eq_refl lower_pairs (page []) (λ _, Forall_nil_2 _) "http://pcapdb/"%js parts
    task_call idle [EvOp (OpStatusCode [(0, 3%nat)]); EvOp (OpAbort VUndef); EvDone task_answer]) as (g & [P|F] & _).
  - pose proof (p_state _ _ _ P) as Hs. vm_compute in Hs. lia.
  - exists g. split; [exact F|]. vm_compute. reflexivity.
Defined.

Example json_answer_witness :
  let w := (start (page []) task_call idle).1 in
  ∃ w', done_ ascii_lower settings task_answer w = (w', Ends)
    ∧ outcome (q_deferred (w_q w')) = Some (true, Resolved (VArr [VNum (num_of_Z 1)]) (VStr "success"%js)).
Proof.
  intros w. destruct (json_answer ascii_lower no_browser no_browser lower_keys_ascii 0 true task_answer (VArr [VNum (num_of_Z 1)]) "[1]"%js w)
    as (w' & E & _ & O).
  - split; try (vm_compute; reflexivity); [vm_compute; lia|vm_compute; repeat constructor].
  - left. vm_compute. reflexivity.
  - reflexivity.
  - done.
  - done.
  - intros H. vm_compute in H. discriminate.
  - vm_compute. done.
  - vm_compute. reflexivity.
  - reflexivity.
  - exists w'. split; [exact E|exact O].
Defined.

(** A handler of [ajaxSend] that aborts: the request is finished, then sent without a transport and
    finished again as an error; it leaves the count of active requests twice. *)
Lemma send_abort_counted_twice :
  let w := (start (page [OpAbort VUndef]) task_call idle).1 in
  n_active (w_n w) = -1
  ∧ w_log w = [Trigger "ajaxStart"%js; Trigger "ajaxSend"%js; SendAbort (VStr "abort"%js);
               Settle false (Rejected (VStr "abort"%js) (VStr "abort"%js)); Trigger "ajaxError"%js;
               RunComplete (Completed (VStr "abort"%js)); Trigger "ajaxComplete"%js; Trigger "ajaxStop"%js;
               Trigger "ajaxError"%js; Trigger "ajaxComplete"%js].
Proof. vm_compute. split; reflexivity. Qed.
