(* ===== verification/DtModel.v ===== *)
(** * The state of a table (jquery.dataTables.js, models and settings)

    The settings object of a table with its columns and rows, as records with a setter per
    property that the operations assign; the small operations every component uses. *)

From S2P Require Import Prelude JsString JsObject JsNumber JsValue JsInt.

(** A column of [aoColumns].  [fnGetData] is the data getter of the column, with its renderer;
    [th_hidden] and [th_classes] are the style and the classes of its header cell. *)
Record column := Column {
  bSearchable : bool;
  bSortable : bool;
  bVisible : bool;
  sType : option jstring;
  _sManualType : option jstring;
  sName : jstring;
  sTitle : jstring;
  sSortDataType : jstring;
  mData : val;
  fnGetData : val → option jstring → val;
  sDefaultContent : val;
  aDataSort : list nat;
  asSorting : list jstring;
  th_hidden : bool;
  th_classes : jstring;
  sWidth : val;
  sClass : jstring
}.

Definition set_bSearchable (x : bool) (s : column) : column :=
  Column x (bSortable s) (bVisible s) (sType s) (_sManualType s) (sName s) (sTitle s)
    (sSortDataType s) (mData s) (fnGetData s) (sDefaultContent s) (aDataSort s) (asSorting s)
    (th_hidden s) (th_classes s) (sWidth s) (sClass s).
Definition set_bSortable (x : bool) (s : column) : column :=
  Column (bSearchable s) x (bVisible s) (sType s) (_sManualType s) (sName s) (sTitle s)
    (sSortDataType s) (mData s) (fnGetData s) (sDefaultContent s) (aDataSort s) (asSorting s)
    (th_hidden s) (th_classes s) (sWidth s) (sClass s).
Definition set_bVisible (x : bool) (s : column) : column :=
  Column (bSearchable s) (bSortable s) x (sType s) (_sManualType s) (sName s) (sTitle s)
    (sSortDataType s) (mData s) (fnGetData s) (sDefaultContent s) (aDataSort s) (asSorting s)
    (th_hidden s) (th_classes s) (sWidth s) (sClass s).
Definition set_sType (x : option jstring) (s : column) : column :=
  Column (bSearchable s) (bSortable s) (bVisible s) x (_sManualType s) (sName s) (sTitle s)
    (sSortDataType s) (mData s) (fnGetData s) (sDefaultContent s) (aDataSort s) (asSorting s)
    (th_hidden s) (th_classes s) (sWidth s) (sClass s).

(** A row of [aoData]; [nTr]: its node exists. *)
Record row := Row {
  _aData : val;
  _aSortData : option (gmap nat val);
  _aFilterData : option (list jstring);
  _sFilterRow : jstring;
  nTr : bool;
  _sRowStripe : jstring
}.

Definition set_aData (x : val) (s : row) : row :=
  Row x (_aSortData s) (_aFilterData s) (_sFilterRow s) (nTr s) (_sRowStripe s).
Definition set_aSortData (x : option (gmap nat val)) (s : row) : row :=
  Row (_aData s) x (_aFilterData s) (_sFilterRow s) (nTr s) (_sRowStripe s).
Definition set_aFilterData (x : option (list jstring)) (s : row) : row :=
  Row (_aData s) (_aSortData s) x (_sFilterRow s) (nTr s) (_sRowStripe s).
Definition set_sFilterRow (x : jstring) (s : row) : row :=
  Row (_aData s) (_aSortData s) (_aFilterData s) x (nTr s) (_sRowStripe s).
Definition set_nTr (x : bool) (s : row) : row :=
  Row (_aData s) (_aSortData s) (_aFilterData s) (_sFilterRow s) x (_sRowStripe s).
Definition set_sRowStripe (x : jstring) (s : row) : row :=
  Row (_aData s) (_aSortData s) (_aFilterData s) (_sFilterRow s) (nTr s) x.

(** A search: [oSearch] of the models. *)
Record search := Search {
  sSearch : jstring; bRegex : bool; bSmart : bool; bCaseInsensitive : bool;
  bEscapeRegex : option bool               (* of old options; None: undefined *)
}.

Definition oSearch : search := Search [] false true true None.

(** One entry of [aaSorting], an array with the extra property [_idx]. *)
Record sorting := Sorting { s_col : nat; s_dir : jstring; s_idx : option Z }.

(** [aaSorting] is one entry or an array of entries. *)
Inductive sorting_opt := One (s : sorting) | Many (l : list sorting).

(** [aaSortingFixed]: null, an array, or an object with [pre] and [post]. *)
Inductive fixed_opt :=
  | NoFixed
  | FixedArr (s : sorting_opt)
  | FixedObj (pre post : option sorting_opt).

(** What [_fnSortFlatten] gives for one sorted column; [type] is its [sType]. *)
Record flat_sort := FlatSort { f_src : nat; f_col : nat; f_dir : jstring; f_index : Z; f_type : jstring }.

(** A row of the table's body: a row of the data, or the row with a message. *)
Inductive drawn := DRow (i : nat) (stripe : jstring) | DMessage (sZero : jstring) (colspan : nat).

(** The settings object of a table.  [preDraw]: what the page's [aoPreDrawCallback] functions
    return; [nTBody]: the rows in the table's body; [requests]: the data of the requests sent,
    oldest first; [processing]: the processing indicator shows; [fired]: the events triggered. *)
Record settings := Settings {
  bServerSide : bool;
  bPaginate : bool;
  bSort : bool;
  bFilter : bool;
  bSortMulti : bool;
  bSortClasses : bool;
  bStateSave : bool;
  bDeferRender : bool;
  ajax : val;
  sAjaxSource : val;
  sAjaxDataProp : jstring;
  aoColumns : list column;
  aoData : list row;
  aiDisplay : list nat;
  aiDisplayMaster : list nat;
  aaSorting : sorting_opt;
  aaSortingFixed : fixed_opt;
  aLastSort : list flat_sort;
  oPreviousSearch : search;
  aoPreSearchCols : list search;
  _iDisplayStart : jint;
  _iDisplayLength : jint;
  iInitDisplayStart : option jint;
  _iRecordsTotal : jint;
  _iRecordsDisplay : jint;
  iDraw : jint;
  iDrawError : jint;
  bSorted : bool;
  bFiltered : bool;
  bDrawing : bool;
  bAjaxDataGet : bool;
  bDeferLoading : bool;
  bDestroying : bool;
  _bInitComplete : bool;
  asStripeClasses : list jstring;
  preDraw : list bool;
  iStateDuration : Z;
  aIds : list (jstring * option nat);
  nTBody : list drawn;
  requests : list val;
  processing : bool;
  fired : list jstring;
  oSavedState : val;
  oLoadedState : val
}.

Definition set_aoColumns (x : list column) (s : settings) : settings :=
  Settings (bServerSide s) (bPaginate s) (bSort s) (bFilter s) (bSortMulti s) (bSortClasses s)
    (bStateSave s) (bDeferRender s) (ajax s) (sAjaxSource s) (sAjaxDataProp s) x (aoData s)
    (aiDisplay s) (aiDisplayMaster s) (aaSorting s) (aaSortingFixed s) (aLastSort s)
    (oPreviousSearch s) (aoPreSearchCols s) (_iDisplayStart s) (_iDisplayLength s)
    (iInitDisplayStart s) (_iRecordsTotal s) (_iRecordsDisplay s) (iDraw s) (iDrawError s)
    (bSorted s) (bFiltered s) (bDrawing s) (bAjaxDataGet s) (bDeferLoading s) (bDestroying s)
    (_bInitComplete s) (asStripeClasses s) (preDraw s) (iStateDuration s) (aIds s) (nTBody s)
    (requests s) (processing s) (fired s) (oSavedState s) (oLoadedState s).
Definition set_aoData (x : list row) (s : settings) : settings :=
  Settings (bServerSide s) (bPaginate s) (bSort s) (bFilter s) (bSortMulti s) (bSortClasses s)
    (bStateSave s) (bDeferRender s) (ajax s) (sAjaxSource s) (sAjaxDataProp s) (aoColumns s) x
    (aiDisplay s) (aiDisplayMaster s) (aaSorting s) (aaSortingFixed s) (aLastSort s)
    (oPreviousSearch s) (aoPreSearchCols s) (_iDisplayStart s) (_iDisplayLength s)
    (iInitDisplayStart s) (_iRecordsTotal s) (_iRecordsDisplay s) (iDraw s) (iDrawError s)
    (bSorted s) (bFiltered s) (bDrawing s) (bAjaxDataGet s) (bDeferLoading s) (bDestroying s)
    (_bInitComplete s) (asStripeClasses s) (preDraw s) (iStateDuration s) (aIds s) (nTBody s)
    (requests s) (processing s) (fired s) (oSavedState s) (oLoadedState s).
Definition set_aiDisplay (x : list nat) (s : settings) : settings :=
  Settings (bServerSide s) (bPaginate s) (bSort s) (bFilter s) (bSortMulti s) (bSortClasses s)
    (bStateSave s) (bDeferRender s) (ajax s) (sAjaxSource s) (sAjaxDataProp s) (aoColumns s)
    (aoData s) x (aiDisplayMaster s) (aaSorting s) (aaSortingFixed s) (aLastSort s)
    (oPreviousSearch s) (aoPreSearchCols s) (_iDisplayStart s) (_iDisplayLength s)
    (iInitDisplayStart s) (_iRecordsTotal s) (_iRecordsDisplay s) (iDraw s) (iDrawError s)
    (bSorted s) (bFiltered s) (bDrawing s) (bAjaxDataGet s) (bDeferLoading s) (bDestroying s)
    (_bInitComplete s) (asStripeClasses s) (preDraw s) (iStateDuration s) (aIds s) (nTBody s)
    (requests s) (processing s) (fired s) (oSavedState s) (oLoadedState s).
Definition set_aiDisplayMaster (x : list nat) (s : settings) : settings :=
  Settings (bServerSide s) (bPaginate s) (bSort s) (bFilter s) (bSortMulti s) (bSortClasses s)
    (bStateSave s) (bDeferRender s) (ajax s) (sAjaxSource s) (sAjaxDataProp s) (aoColumns s)
    (aoData s) (aiDisplay s) x (aaSorting s) (aaSortingFixed s) (aLastSort s) (oPreviousSearch
    s) (aoPreSearchCols s) (_iDisplayStart s) (_iDisplayLength s) (iInitDisplayStart s)
    (_iRecordsTotal s) (_iRecordsDisplay s) (iDraw s) (iDrawError s) (bSorted s) (bFiltered s)
    (bDrawing s) (bAjaxDataGet s) (bDeferLoading s) (bDestroying s) (_bInitComplete s)
    (asStripeClasses s) (preDraw s) (iStateDuration s) (aIds s) (nTBody s) (requests s)
    (processing s) (fired s) (oSavedState s) (oLoadedState s).
Definition set_aaSorting (x : sorting_opt) (s : settings) : settings :=
  Settings (bServerSide s) (bPaginate s) (bSort s) (bFilter s) (bSortMulti s) (bSortClasses s)
    (bStateSave s) (bDeferRender s) (ajax s) (sAjaxSource s) (sAjaxDataProp s) (aoColumns s)
    (aoData s) (aiDisplay s) (aiDisplayMaster s) x (aaSortingFixed s) (aLastSort s)
    (oPreviousSearch s) (aoPreSearchCols s) (_iDisplayStart s) (_iDisplayLength s)
    (iInitDisplayStart s) (_iRecordsTotal s) (_iRecordsDisplay s) (iDraw s) (iDrawError s)
    (bSorted s) (bFiltered s) (bDrawing s) (bAjaxDataGet s) (bDeferLoading s) (bDestroying s)
    (_bInitComplete s) (asStripeClasses s) (preDraw s) (iStateDuration s) (aIds s) (nTBody s)
    (requests s) (processing s) (fired s) (oSavedState s) (oLoadedState s).
Definition set_aaSortingFixed (x : fixed_opt) (s : settings) : settings :=
  Settings (bServerSide s) (bPaginate s) (bSort s) (bFilter s) (bSortMulti s) (bSortClasses s)
    (bStateSave s) (bDeferRender s) (ajax s) (sAjaxSource s) (sAjaxDataProp s) (aoColumns s)
    (aoData s) (aiDisplay s) (aiDisplayMaster s) (aaSorting s) x (aLastSort s) (oPreviousSearch
    s) (aoPreSearchCols s) (_iDisplayStart s) (_iDisplayLength s) (iInitDisplayStart s)
    (_iRecordsTotal s) (_iRecordsDisplay s) (iDraw s) (iDrawError s) (bSorted s) (bFiltered s)
    (bDrawing s) (bAjaxDataGet s) (bDeferLoading s) (bDestroying s) (_bInitComplete s)
    (asStripeClasses s) (preDraw s) (iStateDuration s) (aIds s) (nTBody s) (requests s)
    (processing s) (fired s) (oSavedState s) (oLoadedState s).
Definition set_aLastSort (x : list flat_sort) (s : settings) : settings :=
  Settings (bServerSide s) (bPaginate s) (bSort s) (bFilter s) (bSortMulti s) (bSortClasses s)
    (bStateSave s) (bDeferRender s) (ajax s) (sAjaxSource s) (sAjaxDataProp s) (aoColumns s)
    (aoData s) (aiDisplay s) (aiDisplayMaster s) (aaSorting s) (aaSortingFixed s) x
    (oPreviousSearch s) (aoPreSearchCols s) (_iDisplayStart s) (_iDisplayLength s)
    (iInitDisplayStart s) (_iRecordsTotal s) (_iRecordsDisplay s) (iDraw s) (iDrawError s)
    (bSorted s) (bFiltered s) (bDrawing s) (bAjaxDataGet s) (bDeferLoading s) (bDestroying s)
    (_bInitComplete s) (asStripeClasses s) (preDraw s) (iStateDuration s) (aIds s) (nTBody s)
    (requests s) (processing s) (fired s) (oSavedState s) (oLoadedState s).
Definition set_oPreviousSearch (x : search) (s : settings) : settings :=
  Settings (bServerSide s) (bPaginate s) (bSort s) (bFilter s) (bSortMulti s) (bSortClasses s)
    (bStateSave s) (bDeferRender s) (ajax s) (sAjaxSource s) (sAjaxDataProp s) (aoColumns s)
    (aoData s) (aiDisplay s) (aiDisplayMaster s) (aaSorting s) (aaSortingFixed s) (aLastSort s)
    x (aoPreSearchCols s) (_iDisplayStart s) (_iDisplayLength s) (iInitDisplayStart s)
    (_iRecordsTotal s) (_iRecordsDisplay s) (iDraw s) (iDrawError s) (bSorted s) (bFiltered s)
    (bDrawing s) (bAjaxDataGet s) (bDeferLoading s) (bDestroying s) (_bInitComplete s)
    (asStripeClasses s) (preDraw s) (iStateDuration s) (aIds s) (nTBody s) (requests s)
    (processing s) (fired s) (oSavedState s) (oLoadedState s).
Definition set_aoPreSearchCols (x : list search) (s : settings) : settings :=
  Settings (bServerSide s) (bPaginate s) (bSort s) (bFilter s) (bSortMulti s) (bSortClasses s)
    (bStateSave s) (bDeferRender s) (ajax s) (sAjaxSource s) (sAjaxDataProp s) (aoColumns s)
    (aoData s) (aiDisplay s) (aiDisplayMaster s) (aaSorting s) (aaSortingFixed s) (aLastSort s)
    (oPreviousSearch s) x (_iDisplayStart s) (_iDisplayLength s) (iInitDisplayStart s)
    (_iRecordsTotal s) (_iRecordsDisplay s) (iDraw s) (iDrawError s) (bSorted s) (bFiltered s)
    (bDrawing s) (bAjaxDataGet s) (bDeferLoading s) (bDestroying s) (_bInitComplete s)
    (asStripeClasses s) (preDraw s) (iStateDuration s) (aIds s) (nTBody s) (requests s)
    (processing s) (fired s) (oSavedState s) (oLoadedState s).
Definition set_iDisplayStart (x : jint) (s : settings) : settings :=
  Settings (bServerSide s) (bPaginate s) (bSort s) (bFilter s) (bSortMulti s) (bSortClasses s)
    (bStateSave s) (bDeferRender s) (ajax s) (sAjaxSource s) (sAjaxDataProp s) (aoColumns s)
    (aoData s) (aiDisplay s) (aiDisplayMaster s) (aaSorting s) (aaSortingFixed s) (aLastSort s)
    (oPreviousSearch s) (aoPreSearchCols s) x (_iDisplayLength s) (iInitDisplayStart s)
    (_iRecordsTotal s) (_iRecordsDisplay s) (iDraw s) (iDrawError s) (bSorted s) (bFiltered s)
    (bDrawing s) (bAjaxDataGet s) (bDeferLoading s) (bDestroying s) (_bInitComplete s)
    (asStripeClasses s) (preDraw s) (iStateDuration s) (aIds s) (nTBody s) (requests s)
    (processing s) (fired s) (oSavedState s) (oLoadedState s).
Definition set_iDisplayLength (x : jint) (s : settings) : settings :=
  Settings (bServerSide s) (bPaginate s) (bSort s) (bFilter s) (bSortMulti s) (bSortClasses s)
    (bStateSave s) (bDeferRender s) (ajax s) (sAjaxSource s) (sAjaxDataProp s) (aoColumns s)
    (aoData s) (aiDisplay s) (aiDisplayMaster s) (aaSorting s) (aaSortingFixed s) (aLastSort s)
    (oPreviousSearch s) (aoPreSearchCols s) (_iDisplayStart s) x (iInitDisplayStart s)
    (_iRecordsTotal s) (_iRecordsDisplay s) (iDraw s) (iDrawError s) (bSorted s) (bFiltered s)
    (bDrawing s) (bAjaxDataGet s) (bDeferLoading s) (bDestroying s) (_bInitComplete s)
    (asStripeClasses s) (preDraw s) (iStateDuration s) (aIds s) (nTBody s) (requests s)
    (processing s) (fired s) (oSavedState s) (oLoadedState s).
Definition set_iInitDisplayStart (x : option jint) (s : settings) : settings :=
  Settings (bServerSide s) (bPaginate s) (bSort s) (bFilter s) (bSortMulti s) (bSortClasses s)
    (bStateSave s) (bDeferRender s) (ajax s) (sAjaxSource s) (sAjaxDataProp s) (aoColumns s)
    (aoData s) (aiDisplay s) (aiDisplayMaster s) (aaSorting s) (aaSortingFixed s) (aLastSort s)
    (oPreviousSearch s) (aoPreSearchCols s) (_iDisplayStart s) (_iDisplayLength s) x
    (_iRecordsTotal s) (_iRecordsDisplay s) (iDraw s) (iDrawError s) (bSorted s) (bFiltered s)
    (bDrawing s) (bAjaxDataGet s) (bDeferLoading s) (bDestroying s) (_bInitComplete s)
    (asStripeClasses s) (preDraw s) (iStateDuration s) (aIds s) (nTBody s) (requests s)
    (processing s) (fired s) (oSavedState s) (oLoadedState s).
Definition set_iRecordsTotal (x : jint) (s : settings) : settings :=
  Settings (bServerSide s) (bPaginate s) (bSort s) (bFilter s) (bSortMulti s) (bSortClasses s)
    (bStateSave s) (bDeferRender s) (ajax s) (sAjaxSource s) (sAjaxDataProp s) (aoColumns s)
    (aoData s) (aiDisplay s) (aiDisplayMaster s) (aaSorting s) (aaSortingFixed s) (aLastSort s)
    (oPreviousSearch s) (aoPreSearchCols s) (_iDisplayStart s) (_iDisplayLength s)
    (iInitDisplayStart s) x (_iRecordsDisplay s) (iDraw s) (iDrawError s) (bSorted s) (bFiltered
    s) (bDrawing s) (bAjaxDataGet s) (bDeferLoading s) (bDestroying s) (_bInitComplete s)
    (asStripeClasses s) (preDraw s) (iStateDuration s) (aIds s) (nTBody s) (requests s)
    (processing s) (fired s) (oSavedState s) (oLoadedState s).
Definition set_iRecordsDisplay (x : jint) (s : settings) : settings :=
  Settings (bServerSide s) (bPaginate s) (bSort s) (bFilter s) (bSortMulti s) (bSortClasses s)
    (bStateSave s) (bDeferRender s) (ajax s) (sAjaxSource s) (sAjaxDataProp s) (aoColumns s)
    (aoData s) (aiDisplay s) (aiDisplayMaster s) (aaSorting s) (aaSortingFixed s) (aLastSort s)
    (oPreviousSearch s) (aoPreSearchCols s) (_iDisplayStart s) (_iDisplayLength s)
    (iInitDisplayStart s) (_iRecordsTotal s) x (iDraw s) (iDrawError s) (bSorted s) (bFiltered
    s) (bDrawing s) (bAjaxDataGet s) (bDeferLoading s) (bDestroying s) (_bInitComplete s)
    (asStripeClasses s) (preDraw s) (iStateDuration s) (aIds s) (nTBody s) (requests s)
    (processing s) (fired s) (oSavedState s) (oLoadedState s).
Definition set_iDraw (x : jint) (s : settings) : settings :=
  Settings (bServerSide s) (bPaginate s) (bSort s) (bFilter s) (bSortMulti s) (bSortClasses s)
    (bStateSave s) (bDeferRender s) (ajax s) (sAjaxSource s) (sAjaxDataProp s) (aoColumns s)
    (aoData s) (aiDisplay s) (aiDisplayMaster s) (aaSorting s) (aaSortingFixed s) (aLastSort s)
    (oPreviousSearch s) (aoPreSearchCols s) (_iDisplayStart s) (_iDisplayLength s)
    (iInitDisplayStart s) (_iRecordsTotal s) (_iRecordsDisplay s) x (iDrawError s) (bSorted s)
    (bFiltered s) (bDrawing s) (bAjaxDataGet s) (bDeferLoading s) (bDestroying s)
    (_bInitComplete s) (asStripeClasses s) (preDraw s) (iStateDuration s) (aIds s) (nTBody s)
    (requests s) (processing s) (fired s) (oSavedState s) (oLoadedState s).
Definition set_iDrawError (x : jint) (s : settings) : settings :=
  Settings (bServerSide s) (bPaginate s) (bSort s) (bFilter s) (bSortMulti s) (bSortClasses s)
    (bStateSave s) (bDeferRender s) (ajax s) (sAjaxSource s) (sAjaxDataProp s) (aoColumns s)
    (aoData s) (aiDisplay s) (aiDisplayMaster s) (aaSorting s) (aaSortingFixed s) (aLastSort s)
    (oPreviousSearch s) (aoPreSearchCols s) (_iDisplayStart s) (_iDisplayLength s)
    (iInitDisplayStart s) (_iRecordsTotal s) (_iRecordsDisplay s) (iDraw s) x (bSorted s)
    (bFiltered s) (bDrawing s) (bAjaxDataGet s) (bDeferLoading s) (bDestroying s)
    (_bInitComplete s) (asStripeClasses s) (preDraw s) (iStateDuration s) (aIds s) (nTBody s)
    (requests s) (processing s) (fired s) (oSavedState s) (oLoadedState s).
Definition set_bSorted (x : bool) (s : settings) : settings :=
  Settings (bServerSide s) (bPaginate s) (bSort s) (bFilter s) (bSortMulti s) (bSortClasses s)
    (bStateSave s) (bDeferRender s) (ajax s) (sAjaxSource s) (sAjaxDataProp s) (aoColumns s)
    (aoData s) (aiDisplay s) (aiDisplayMaster s) (aaSorting s) (aaSortingFixed s) (aLastSort s)
    (oPreviousSearch s) (aoPreSearchCols s) (_iDisplayStart s) (_iDisplayLength s)
    (iInitDisplayStart s) (_iRecordsTotal s) (_iRecordsDisplay s) (iDraw s) (iDrawError s) x
    (bFiltered s) (bDrawing s) (bAjaxDataGet s) (bDeferLoading s) (bDestroying s)
    (_bInitComplete s) (asStripeClasses s) (preDraw s) (iStateDuration s) (aIds s) (nTBody s)
    (requests s) (processing s) (fired s) (oSavedState s) (oLoadedState s).
Definition set_bFiltered (x : bool) (s : settings) : settings :=
  Settings (bServerSide s) (bPaginate s) (bSort s) (bFilter s) (bSortMulti s) (bSortClasses s)
    (bStateSave s) (bDeferRender s) (ajax s) (sAjaxSource s) (sAjaxDataProp s) (aoColumns s)
    (aoData s) (aiDisplay s) (aiDisplayMaster s) (aaSorting s) (aaSortingFixed s) (aLastSort s)
    (oPreviousSearch s) (aoPreSearchCols s) (_iDisplayStart s) (_iDisplayLength s)
    (iInitDisplayStart s) (_iRecordsTotal s) (_iRecordsDisplay s) (iDraw s) (iDrawError s)
    (bSorted s) x (bDrawing s) (bAjaxDataGet s) (bDeferLoading s) (bDestroying s)
    (_bInitComplete s) (asStripeClasses s) (preDraw s) (iStateDuration s) (aIds s) (nTBody s)
    (requests s) (processing s) (fired s) (oSavedState s) (oLoadedState s).
Definition set_bDrawing (x : bool) (s : settings) : settings :=
  Settings (bServerSide s) (bPaginate s) (bSort s) (bFilter s) (bSortMulti s) (bSortClasses s)
    (bStateSave s) (bDeferRender s) (ajax s) (sAjaxSource s) (sAjaxDataProp s) (aoColumns s)
    (aoData s) (aiDisplay s) (aiDisplayMaster s) (aaSorting s) (aaSortingFixed s) (aLastSort s)
    (oPreviousSearch s) (aoPreSearchCols s) (_iDisplayStart s) (_iDisplayLength s)
    (iInitDisplayStart s) (_iRecordsTotal s) (_iRecordsDisplay s) (iDraw s) (iDrawError s)
    (bSorted s) (bFiltered s) x (bAjaxDataGet s) (bDeferLoading s) (bDestroying s)
    (_bInitComplete s) (asStripeClasses s) (preDraw s) (iStateDuration s) (aIds s) (nTBody s)
    (requests s) (processing s) (fired s) (oSavedState s) (oLoadedState s).
Definition set_bAjaxDataGet (x : bool) (s : settings) : settings :=
  Settings (bServerSide s) (bPaginate s) (bSort s) (bFilter s) (bSortMulti s) (bSortClasses s)
    (bStateSave s) (bDeferRender s) (ajax s) (sAjaxSource s) (sAjaxDataProp s) (aoColumns s)
    (aoData s) (aiDisplay s) (aiDisplayMaster s) (aaSorting s) (aaSortingFixed s) (aLastSort s)
    (oPreviousSearch s) (aoPreSearchCols s) (_iDisplayStart s) (_iDisplayLength s)
    (iInitDisplayStart s) (_iRecordsTotal s) (_iRecordsDisplay s) (iDraw s) (iDrawError s)
    (bSorted s) (bFiltered s) (bDrawing s) x (bDeferLoading s) (bDestroying s) (_bInitComplete
    s) (asStripeClasses s) (preDraw s) (iStateDuration s) (aIds s) (nTBody s) (requests s)
    (processing s) (fired s) (oSavedState s) (oLoadedState s).
Definition set_bDeferLoading (x : bool) (s : settings) : settings :=
  Settings (bServerSide s) (bPaginate s) (bSort s) (bFilter s) (bSortMulti s) (bSortClasses s)
    (bStateSave s) (bDeferRender s) (ajax s) (sAjaxSource s) (sAjaxDataProp s) (aoColumns s)
    (aoData s) (aiDisplay s) (aiDisplayMaster s) (aaSorting s) (aaSortingFixed s) (aLastSort s)
    (oPreviousSearch s) (aoPreSearchCols s) (_iDisplayStart s) (_iDisplayLength s)
    (iInitDisplayStart s) (_iRecordsTotal s) (_iRecordsDisplay s) (iDraw s) (iDrawError s)
    (bSorted s) (bFiltered s) (bDrawing s) (bAjaxDataGet s) x (bDestroying s) (_bInitComplete s)
    (asStripeClasses s) (preDraw s) (iStateDuration s) (aIds s) (nTBody s) (requests s)
    (processing s) (fired s) (oSavedState s) (oLoadedState s).
Definition set_bInitComplete (x : bool) (s : settings) : settings :=
  Settings (bServerSide s) (bPaginate s) (bSort s) (bFilter s) (bSortMulti s) (bSortClasses s)
    (bStateSave s) (bDeferRender s) (ajax s) (sAjaxSource s) (sAjaxDataProp s) (aoColumns s)
    (aoData s) (aiDisplay s) (aiDisplayMaster s) (aaSorting s) (aaSortingFixed s) (aLastSort s)
    (oPreviousSearch s) (aoPreSearchCols s) (_iDisplayStart s) (_iDisplayLength s)
    (iInitDisplayStart s) (_iRecordsTotal s) (_iRecordsDisplay s) (iDraw s) (iDrawError s)
    (bSorted s) (bFiltered s) (bDrawing s) (bAjaxDataGet s) (bDeferLoading s) (bDestroying s) x
    (asStripeClasses s) (preDraw s) (iStateDuration s) (aIds s) (nTBody s) (requests s)
    (processing s) (fired s) (oSavedState s) (oLoadedState s).
Definition set_aIds (x : list (jstring * option nat)) (s : settings) : settings :=
  Settings (bServerSide s) (bPaginate s) (bSort s) (bFilter s) (bSortMulti s) (bSortClasses s)
    (bStateSave s) (bDeferRender s) (ajax s) (sAjaxSource s) (sAjaxDataProp s) (aoColumns s)
    (aoData s) (aiDisplay s) (aiDisplayMaster s) (aaSorting s) (aaSortingFixed s) (aLastSort s)
    (oPreviousSearch s) (aoPreSearchCols s) (_iDisplayStart s) (_iDisplayLength s)
    (iInitDisplayStart s) (_iRecordsTotal s) (_iRecordsDisplay s) (iDraw s) (iDrawError s)
    (bSorted s) (bFiltered s) (bDrawing s) (bAjaxDataGet s) (bDeferLoading s) (bDestroying s)
    (_bInitComplete s) (asStripeClasses s) (preDraw s) (iStateDuration s) x (nTBody s) (requests
    s) (processing s) (fired s) (oSavedState s) (oLoadedState s).
Definition set_nTBody (x : list drawn) (s : settings) : settings :=
  Settings (bServerSide s) (bPaginate s) (bSort s) (bFilter s) (bSortMulti s) (bSortClasses s)
    (bStateSave s) (bDeferRender s) (ajax s) (sAjaxSource s) (sAjaxDataProp s) (aoColumns s)
    (aoData s) (aiDisplay s) (aiDisplayMaster s) (aaSorting s) (aaSortingFixed s) (aLastSort s)
    (oPreviousSearch s) (aoPreSearchCols s) (_iDisplayStart s) (_iDisplayLength s)
    (iInitDisplayStart s) (_iRecordsTotal s) (_iRecordsDisplay s) (iDraw s) (iDrawError s)
    (bSorted s) (bFiltered s) (bDrawing s) (bAjaxDataGet s) (bDeferLoading s) (bDestroying s)
    (_bInitComplete s) (asStripeClasses s) (preDraw s) (iStateDuration s) (aIds s) x (requests
    s) (processing s) (fired s) (oSavedState s) (oLoadedState s).
Definition set_requests (x : list val) (s : settings) : settings :=
  Settings (bServerSide s) (bPaginate s) (bSort s) (bFilter s) (bSortMulti s) (bSortClasses s)
    (bStateSave s) (bDeferRender s) (ajax s) (sAjaxSource s) (sAjaxDataProp s) (aoColumns s)
    (aoData s) (aiDisplay s) (aiDisplayMaster s) (aaSorting s) (aaSortingFixed s) (aLastSort s)
    (oPreviousSearch s) (aoPreSearchCols s) (_iDisplayStart s) (_iDisplayLength s)
    (iInitDisplayStart s) (_iRecordsTotal s) (_iRecordsDisplay s) (iDraw s) (iDrawError s)
    (bSorted s) (bFiltered s) (bDrawing s) (bAjaxDataGet s) (bDeferLoading s) (bDestroying s)
    (_bInitComplete s) (asStripeClasses s) (preDraw s) (iStateDuration s) (aIds s) (nTBody s) x
    (processing s) (fired s) (oSavedState s) (oLoadedState s).
Definition set_processing (x : bool) (s : settings) : settings :=
  Settings (bServerSide s) (bPaginate s) (bSort s) (bFilter s) (bSortMulti s) (bSortClasses s)
    (bStateSave s) (bDeferRender s) (ajax s) (sAjaxSource s) (sAjaxDataProp s) (aoColumns s)
    (aoData s) (aiDisplay s) (aiDisplayMaster s) (aaSorting s) (aaSortingFixed s) (aLastSort s)
    (oPreviousSearch s) (aoPreSearchCols s) (_iDisplayStart s) (_iDisplayLength s)
    (iInitDisplayStart s) (_iRecordsTotal s) (_iRecordsDisplay s) (iDraw s) (iDrawError s)
    (bSorted s) (bFiltered s) (bDrawing s) (bAjaxDataGet s) (bDeferLoading s) (bDestroying s)
    (_bInitComplete s) (asStripeClasses s) (preDraw s) (iStateDuration s) (aIds s) (nTBody s)
    (requests s) x (fired s) (oSavedState s) (oLoadedState s).
Definition set_fired (x : list jstring) (s : settings) : settings :=
  Settings (bServerSide s) (bPaginate s) (bSort s) (bFilter s) (bSortMulti s) (bSortClasses s)
    (bStateSave s) (bDeferRender s) (ajax s) (sAjaxSource s) (sAjaxDataProp s) (aoColumns s)
    (aoData s) (aiDisplay s) (aiDisplayMaster s) (aaSorting s) (aaSortingFixed s) (aLastSort s)
    (oPreviousSearch s) (aoPreSearchCols s) (_iDisplayStart s) (_iDisplayLength s)
    (iInitDisplayStart s) (_iRecordsTotal s) (_iRecordsDisplay s) (iDraw s) (iDrawError s)
    (bSorted s) (bFiltered s) (bDrawing s) (bAjaxDataGet s) (bDeferLoading s) (bDestroying s)
    (_bInitComplete s) (asStripeClasses s) (preDraw s) (iStateDuration s) (aIds s) (nTBody s)
    (requests s) (processing s) x (oSavedState s) (oLoadedState s).
Definition set_oSavedState (x : val) (s : settings) : settings :=
  Settings (bServerSide s) (bPaginate s) (bSort s) (bFilter s) (bSortMulti s) (bSortClasses s)
    (bStateSave s) (bDeferRender s) (ajax s) (sAjaxSource s) (sAjaxDataProp s) (aoColumns s)
    (aoData s) (aiDisplay s) (aiDisplayMaster s) (aaSorting s) (aaSortingFixed s) (aLastSort s)
    (oPreviousSearch s) (aoPreSearchCols s) (_iDisplayStart s) (_iDisplayLength s)
    (iInitDisplayStart s) (_iRecordsTotal s) (_iRecordsDisplay s) (iDraw s) (iDrawError s)
    (bSorted s) (bFiltered s) (bDrawing s) (bAjaxDataGet s) (bDeferLoading s) (bDestroying s)
    (_bInitComplete s) (asStripeClasses s) (preDraw s) (iStateDuration s) (aIds s) (nTBody s)
    (requests s) (processing s) (fired s) x (oLoadedState s).
Definition set_oLoadedState (x : val) (s : settings) : settings :=
  Settings (bServerSide s) (bPaginate s) (bSort s) (bFilter s) (bSortMulti s) (bSortClasses s)
    (bStateSave s) (bDeferRender s) (ajax s) (sAjaxSource s) (sAjaxDataProp s) (aoColumns s)
    (aoData s) (aiDisplay s) (aiDisplayMaster s) (aaSorting s) (aaSortingFixed s) (aLastSort s)
    (oPreviousSearch s) (aoPreSearchCols s) (_iDisplayStart s) (_iDisplayLength s)
    (iInitDisplayStart s) (_iRecordsTotal s) (_iRecordsDisplay s) (iDraw s) (iDrawError s)
    (bSorted s) (bFiltered s) (bDrawing s) (bAjaxDataGet s) (bDeferLoading s) (bDestroying s)
    (_bInitComplete s) (asStripeClasses s) (preDraw s) (iStateDuration s) (aIds s) (nTBody s)
    (requests s) (processing s) (fired s) (oSavedState s) x.

Definition fire (ev : jstring) (s : settings) : settings := set_fired (fired s ++ [ev]) s.

(** [f] applied to the [i]th column, row. *)
Definition upd_column (i : nat) (f : column → column) (s : settings) : settings :=
  set_aoColumns (alter f i (aoColumns s)) s.
Definition upd_row (i : nat) (f : row → row) (s : settings) : settings :=
  set_aoData (alter f i (aoData s)) s.

Inductive source := Ssp | Ajax | DomSource.
#[export] Instance source_eq_dec : EqDecision source.
Proof. solve_decision. Defined.

Definition _fnDataSource (s : settings) : source :=
  if bServerSide s then Ssp
  else if truthy (ajax s) || truthy (sAjaxSource s) then Ajax
  else DomSource.

Definition is_ssp (s : settings) : bool := bool_decide (_fnDataSource s = Ssp).

Lemma is_ssp_bServerSide s : is_ssp s = bServerSide s.
Proof.
  unfold is_ssp, _fnDataSource. destruct (bServerSide s); [done|].
  by destruct (truthy (ajax s) || truthy (sAjaxSource s)).
Qed.

(** ** Counts and the display window *)

Definition fnRecordsTotal (s : settings) : jint :=
  if is_ssp s then _iRecordsTotal s else JInt (Z.of_nat (length (aiDisplayMaster s))).

Definition fnRecordsDisplay (s : settings) : jint :=
  if is_ssp s then _iRecordsDisplay s else JInt (Z.of_nat (length (aiDisplay s))).

Definition fnDisplayEnd (s : settings) : jint :=
  let len := _iDisplayLength s in
  let start := _iDisplayStart s in
  let calc := jadd start len in
  let records := JInt (Z.of_nat (length (aiDisplay s))) in
  if bServerSide s then
    if negb (bPaginate s) || jeq len (JInt (-1)) then jadd start records
    else jmin (jadd start len) (_iRecordsDisplay s)
  else if negb (bPaginate s) || jlt records calc || jeq len (JInt (-1)) then records
  else calc.

(** ** Cells

    Getters take values out of the data of a row; a part of a value is never equal to the whole,
    so an array or object is the row's data itself when it is equal to it. *)
Definition is_row_data (v rowData : val) : bool :=
  match v with VArr _ | VObj _ => bool_decide (v = rowData) | _ => strict_eq_prim v rowData end.

(** [None] stands for an exception.  The warning about a missing parameter marks the draw in
    [iDrawError]; the text it logs is not part of the state. *)
Definition _fnGetCellData (s : settings) (rowIdx colIdx : nat) (type : option jstring)
    : option (val * settings) :=
  col ← aoColumns s !! colIdx;
  r ← aoData s !! rowIdx;
  let rowData := _aData r in
  let defaultContent := sDefaultContent col in
  let isnull v := match v with VNull => true | _ => false end in
  let cellData := fnGetData col rowData type in
  if is_undef cellData then
    let s := if negb (jeq (iDrawError s) (iDraw s)) && isnull defaultContent
             then set_iDrawError (iDraw s) (fire "error"%js s) else s in
    Some (defaultContent, s)
  else
    let cellData :=
      if (is_row_data cellData rowData || isnull cellData) && negb (isnull defaultContent)
         && match type with Some _ => true | None => false end
      then defaultContent else cellData in
    if isnull cellData && bool_decide (type = Some "display"%js) then Some (VStr [], s)
    else Some (cellData, s).

(** The value of a cell, and what reading it may change: the mark of the draw that warned, and
    the event of the warning. *)
Definition cell_value (col : column) (r : row) (type : option jstring) : val :=
  let isnull v := match v with VNull => true | _ => false end in
  let cellData := fnGetData col (_aData r) type in
  if is_undef cellData then sDefaultContent col
  else
    let cellData :=
      if (is_row_data cellData (_aData r) || isnull cellData) && negb (isnull (sDefaultContent col))
         && match type with Some _ => true | None => false end
      then sDefaultContent col else cellData in
    if isnull cellData && bool_decide (type = Some "display"%js) then VStr [] else cellData.

Definition quiet (s s' : settings) : Prop := s' = set_iDrawError (iDrawError s') (set_fired (fired s') s).

#[export] Instance quiet_preorder : PreOrder quiet.
Proof.
  split; [by intros []|]. unfold quiet. intros s1 s2 s3 H1 H2. rewrite H1 in H2. rewrite H2.
  by destruct s1, s3.
Qed.

Lemma get_cell_spec s k i ty col r :
  aoColumns s !! i = Some col → aoData s !! k = Some r →
  ∃ s', _fnGetCellData s k i ty = Some (cell_value col r ty, s') ∧ quiet s s'.
Proof.
  intros Hc Hr. unfold _fnGetCellData, cell_value. rewrite Hc, Hr. cbn [mbind option_bind].
  destruct (is_undef (fnGetData col (_aData r) ty)).
  - case_match; eexists; (split; [reflexivity|]); [|done]. by destruct s.
  - case_match; eexists; by split.
Qed.

Lemma quiet_columns s s' : quiet s s' → aoColumns s' = aoColumns s.
Proof. intros ->. by destruct s. Qed.
Lemma quiet_data s s' : quiet s s' → aoData s' = aoData s.
Proof. intros ->. by destruct s. Qed.
