(* ===== verification/DtTypes.v ===== *)
(** * Column types of a table (jquery.dataTables.js, type detection and ordering)

    The detectors of the type of a column, [_fnColumnTypes], the formatters of the sort keys and
    of the search texts.  The Unicode case mapping and the date parser of the language are
    parameters. *)

From S2P Require Import Prelude JsString JsObject JsNumber JsValue JsInt DtUtil DtModel.

Section types.
Variable toLowerCase : jstring → jstring.
Variable date_parse : jstring → num.        (* Date.parse *)

(** ** Detection *)

Definition word_unit (u : N) : bool :=
  ((48 <=? u) && (u <=? 57) || (65 <=? u) && (u <=? 90) || (97 <=? u) && (u <=? 122) || (u =? 95))%N.
Definition date_unit (u : N) : bool := word_unit u || (u =? 43)%N || (u =? 45)%N.
(** [_re_date_start], [_re_date_end] *)
Definition _re_date_start (s : jstring) : bool := match s with u :: _ => date_unit u | [] => false end.
Definition _re_date_end (s : jstring) : bool := match last s with Some u => date_unit u | None => false end.

Definition detect_num (decimal : jstring) (d : val) : option jstring :=
  if _isNumber d decimal false then Some ("num"%js ++ decimal) else None.
Definition detect_date (d : val) : option jstring :=
  if truthy d && (negb (_re_date_start (to_string d)) || negb (_re_date_end (to_string d))) then None
  else if negb (is_nan (date_parse (to_string d))) || _empty d then Some "date"%js else None.
Definition detect_num_fmt (decimal : jstring) (d : val) : option jstring :=
  if _isNumber d decimal true then Some ("num-fmt"%js ++ decimal) else None.
Definition detect_html_num (decimal : jstring) (d : val) : option jstring :=
  if _htmlNumeric d decimal false then Some ("html-num"%js ++ decimal) else None.
Definition detect_html_num_fmt (decimal : jstring) (d : val) : option jstring :=
  if _htmlNumeric d decimal true then Some ("html-num-fmt"%js ++ decimal) else None.
Definition detect_html (d : val) : option jstring :=
  if _empty d || match d with VStr s => contains "<"%js s | _ => false end then Some "html"%js else None.

(** [DataTable.ext.type.detect]; [decimal] is [oLanguage.sDecimal]. *)
Definition detect (decimal : jstring) : list (val → option jstring) :=
  [detect_num decimal; detect_date; detect_num_fmt decimal; detect_html_num decimal;
   detect_html_num_fmt decimal; detect_html].

(** The loop over the cells of column [i] for one detector; [last]: it is the last detector. *)
Fixpoint scan_cells (det : val → option jstring) (last_type : bool) (i : nat) (ks : list nat)
    (detectedType : option jstring) (s : settings) : option (option jstring * settings) :=
  match ks with
  | [] => Some (detectedType, s)
  | k :: ks =>
      '(cell, s) ← _fnGetCellData s k i (Some "type"%js);
      let t := det cell in
      match t with
      | None => if last_type then scan_cells det last_type i ks t s else Some (None, s)
      | Some ty => if ty =s? "html"%js then Some (t, s) else scan_cells det last_type i ks t s
      end
  end.

(** The loop over the detectors.  The cache of the cells only saves calls. *)
Fixpoint detect_column (types : list (val → option jstring)) (i : nat) (s : settings)
    : option (option jstring * settings) :=
  match types with
  | [] => Some (None, s)
  | det :: types =>
      '(t, s) ← scan_cells det (match types with [] => true | _ => false end) i
                  (seq 0 (length (aoData s))) None s;
      match t with Some _ => Some (t, s) | None => detect_column types i s end
  end.

Definition falsy_str (o : option jstring) : bool := match o with Some (_ :: _) => false | _ => true end.

Definition column_type (decimal : jstring) (i : nat) (s : settings) : option settings :=
  col ← aoColumns s !! i;
  if falsy_str (sType col) && negb (falsy_str (_sManualType col)) then
    Some (upd_column i (set_sType (_sManualType col)) s)
  else if falsy_str (sType col) then
    '(t, s) ← detect_column (detect decimal) i s;
    Some (upd_column i (set_sType (Some (default "string"%js t))) s)
  else Some s.

Fixpoint column_types (decimal : jstring) (ks : list nat) (s : settings) : option settings :=
  match ks with
  | [] => Some s
  | i :: ks => s ← column_type decimal i s; column_types decimal ks s
  end.
Definition _fnColumnTypes (decimal : jstring) (s : settings) : option settings :=
  column_types decimal (seq 0 (length (aoColumns s))) s.

(** ** Sort keys *)

Definition replace_text (f : jstring → jstring) (d : val) : val :=
  match d with VStr s => VStr (f s) | _ => d end.

(** [d.replace(re1, '')] then [re2]; the number of the result. *)
Definition __numericReplace (d : val) (decimalPlace : jstring) (res : list (jstring → jstring)) : num :=
  if negb (match d with VNum (S754_zero _) => true | _ => false end)
     && (negb (truthy d) || match d with VStr s => s =s? "-"%js | _ => false end)
  then S754_infinity true
  else
    let d := if negb (decimalPlace =s? []) then _numToDecimal d decimalPlace else d in
    to_number (foldl (λ d re, replace_text re d) d res).

Definition strip_formatted : jstring → jstring := replace_units _re_formatted_numeric [].

(** The formatters [_addNumericSort] registers for one decimal place. *)
Definition _addNumericSort (decimalPlace : jstring) : list (jstring * (val → val)) :=
  [("num"%js ++ decimalPlace, λ d, VNum (__numericReplace d decimalPlace []));
   ("num-fmt"%js ++ decimalPlace, λ d, VNum (__numericReplace d decimalPlace [strip_formatted]));
   ("html-num"%js ++ decimalPlace, λ d, VNum (__numericReplace d decimalPlace [_stripHtml]));
   ("html-num-fmt"%js ++ decimalPlace, λ d, VNum (__numericReplace d decimalPlace [_stripHtml; strip_formatted]))].

(** [Date.parse(d) || 0] *)
Definition date_pre (d : val) : val :=
  let x := date_parse (to_string d) in
  VNum (match x with S754_nan | S754_zero _ => S754_zero false | _ => x end).

Definition html_pre (a : val) : val :=
  if _empty a then VStr []
  else match a with
       | VStr s => VStr (toLowerCase (_stripHtml s))
       | _ => VStr (to_string a)
       end.

Definition string_pre (a : val) : val :=
  if _empty a then VStr []
  else match a with VStr s => VStr (toLowerCase s) | _ => VStr (to_string a) end.

(** [DataTable.ext.type.order[t + '-pre']], after [_addNumericSort] of some decimal places, the
    last one first. *)
Definition order_pre (decimals : list jstring) (t : jstring) : option (val → val) :=
  match list_find (λ kv : jstring * (val → val), kv.1 = t) (decimals ≫= _addNumericSort) with
  | Some (_, kv) => Some kv.2
  | None =>
      if t =s? "date"%js then Some date_pre
      else if t =s? "html"%js then Some html_pre
      else if t =s? "string"%js then Some string_pre
      else None
  end.

(** ** Search texts *)

Definition newline_unit (u : N) : bool := (u =? 10)%N || (u =? 13)%N.
Definition search_html (data : val) : val :=
  if _empty data then data
  else match data with
       | VStr s => VStr (_stripHtml (replace_units newline_unit " "%js s))
       | _ => VStr []
       end.
Definition search_string (data : val) : val :=
  if _empty data then data
  else match data with VStr s => VStr (replace_units newline_unit " "%js s) | _ => data end.

(** [DataTable.ext.type.search[t]] *)
Definition search_formatter (decimals : list jstring) (t : jstring) : option (val → val) :=
  if bool_decide (t ∈ (decimals ≫= λ d, ["html-num"%js ++ d; "html-num-fmt"%js ++ d])) then Some search_html
  else if t =s? "html"%js then Some search_html
  else if t =s? "string"%js then Some search_string
  else None.
End types.

(** ** The order of values

    [x < y]: strings by their units, everything else as numbers. *)
Fixpoint units_lt (s t : jstring) : bool :=
  match s, t with
  | [], [] => false
  | [], _ :: _ => true
  | _ :: _, [] => false
  | a :: s, b :: t => (a <? b)%N || (a =? b)%N && units_lt s t
  end.

Definition primitive (v : val) : val := match v with VArr _ | VObj _ => VStr (to_string v) | _ => v end.
Definition val_lt (x y : val) : bool :=
  match primitive x, primitive y with
  | VStr s, VStr t => units_lt s t
  | x, y => flt (to_number x) (to_number y)
  end.

(** [x < y ? -1 : x > y ? 1 : 0] *)
Definition val_cmp (x y : val) : Z := if val_lt x y then (-1)%Z else if val_lt y x then 1%Z else 0%Z.

(** [ext.type.order['string-asc']] and ['string-desc'] *)
Definition string_asc (x y : val) : Z := val_cmp x y.
Definition string_desc (x y : val) : Z := if val_lt x y then 1%Z else if val_lt y x then (-1)%Z else 0%Z.

(** ** What the detection finds *)

Section detection.
Variable date_parse : jstring → num.

Definition some_b {A} (o : option A) : bool := match o with Some _ => true | None => false end.

(** The type the detection should find for the cells of a column. *)
Definition reference_type (decimal : jstring) (cells : list val) : jstring :=
  if bool_decide (cells = []) then "string"%js
  else if forallb (λ c, some_b (detect_num decimal c)) cells then "num"%js ++ decimal
  else if forallb (λ c, some_b (detect_date date_parse c)) cells then "date"%js
  else if forallb (λ c, some_b (detect_num_fmt decimal c)) cells then "num-fmt"%js ++ decimal
  else if forallb (λ c, some_b (detect_html_num decimal c)) cells then "html-num"%js ++ decimal
  else if forallb (λ c, some_b (detect_html_num_fmt decimal c)) cells then "html-num-fmt"%js ++ decimal
  else if existsb (λ c, some_b (detect_html c)) cells then "html"%js
  else "string"%js.

(** The values of the cells of a column, as the detectors see them. *)
Definition type_cells (col : column) (s : settings) : list val :=
  (λ r, cell_value col r (Some "type"%js)) <$> aoData s.

Definition cells_nil (col : column) (s : settings) : bool := bool_decide (type_cells col s = []).

Lemma scan_quiet det lt i ks acc s t s' :
  scan_cells det lt i ks acc s = Some (t, s') → quiet s s'.
Proof.
  revert acc s. induction ks as [|k ks IH]; intros acc s H; cbn [scan_cells] in H; [by injection H as <- <-|].
  destruct (_fnGetCellData s k i _) as [[c s1]|] eqn:Eg; [|done]. cbn [mbind option_bind] in H.
  assert (quiet s s1) as Hq.
  { destruct (aoColumns s !! i) as [col|] eqn:Ec; [|unfold _fnGetCellData in Eg; by rewrite Ec in Eg].
    destruct (aoData s !! k) as [r|] eqn:Er; [|unfold _fnGetCellData in Eg; by rewrite Ec, Er in Eg].
    destruct (get_cell_spec s k i (Some "type"%js) col r Ec Er) as (s2 & E2 & Hq). congruence. }
  transitivity s1; [done|]. cbv zeta in H.
  destruct (det c) as [ty|]; [destruct (ty =s? _)|destruct lt]; first [by injection H as <- <-|by eapply IH].
Qed.

(** One detector over the rows from [k] on, for a type other than [html]. *)
Lemma scan_spec det ty i col s n k acc :
  aoColumns s !! i = Some col → k + n = length (aoData s) →
  (∀ c, det c = Some ty ∨ det c = None) → ty ≠ "html"%js →
  ∃ s', scan_cells det false i (seq k n) acc s
    = Some (if bool_decide (n = 0) then acc
            else if forallb (λ c, some_b (det c)) (drop k (type_cells col s)) then Some ty else None, s')
    ∧ quiet s s'.
Proof.
  revert k acc s. induction n as [|n IH]; intros k acc s Hc Hn Hd Hh; [by exists s|].
  cbn [seq scan_cells]. destruct (lookup_lt_is_Some_2 (aoData s) k) as [r Hr]; [lia|].
  destruct (get_cell_spec s k i (Some "type"%js) col r Hc Hr) as (s1 & E1 & Q1). rewrite E1. cbn [mbind option_bind].
  assert (drop k (type_cells col s) = cell_value col r (Some "type"%js) :: drop (S k) (type_cells col s)) as ->.
  { apply drop_S. unfold type_cells. rewrite list_lookup_fmap. by rewrite Hr. }
  rewrite bool_decide_eq_false_2 by done. cbn [forallb].
  destruct (Hd (cell_value col r (Some "type"%js))) as [-> | ->]; cbn [some_b andb]; [|by exists s1].
  apply jeqb_false in Hh as Hb. rewrite Hb.
  assert (type_cells col s1 = type_cells col s) as Ht by (unfold type_cells; by rewrite (quiet_data _ _ Q1)).
  destruct (IH (S k) (Some ty) s1) as (s2 & E2 & Q2);
    [by rewrite (quiet_columns _ _ Q1)|rewrite (quiet_data _ _ Q1); lia|done|done|].
  exists s2. split; [|by transitivity s1]. rewrite E2, Ht. do 2 f_equal.
  case_bool_decide as Hn0; [|done]. subst n. rewrite (drop_ge (type_cells col s)); [done|].
  unfold type_cells. rewrite length_fmap. lia.
Qed.

(** The last detector, which looks for one cell. *)
Lemma scan_html_spec i col s n k acc :
  aoColumns s !! i = Some col → k + n = length (aoData s) →
  ∃ s', scan_cells detect_html true i (seq k n) acc s
    = Some (if bool_decide (n = 0) then acc
            else if existsb (λ c, some_b (detect_html c)) (drop k (type_cells col s)) then Some "html"%js else None, s')
    ∧ quiet s s'.
Proof.
  revert k acc s. induction n as [|n IH]; intros k acc s Hc Hn; [by exists s|].
  cbn [seq scan_cells]. destruct (lookup_lt_is_Some_2 (aoData s) k) as [r Hr]; [lia|].
  destruct (get_cell_spec s k i (Some "type"%js) col r Hc Hr) as (s1 & E1 & Q1). rewrite E1. cbn [mbind option_bind].
  assert (drop k (type_cells col s) = cell_value col r (Some "type"%js) :: drop (S k) (type_cells col s)) as ->.
  { apply drop_S. unfold type_cells. rewrite list_lookup_fmap. by rewrite Hr. }
  rewrite bool_decide_eq_false_2 by done. cbn [existsb].
  assert (∀ c, detect_html c = Some "html"%js ∨ detect_html c = None) as Hd
    by (intros c; unfold detect_html; destruct (_empty c || _); [by left|by right]).
  destruct (Hd (cell_value col r (Some "type"%js))) as [-> | ->]; cbn [some_b orb]; [by exists s1|].
  assert (type_cells col s1 = type_cells col s) as Ht by (unfold type_cells; by rewrite (quiet_data _ _ Q1)).
  destruct (IH (S k) None s1) as (s2 & E2 & Q2);
    [by rewrite (quiet_columns _ _ Q1)|rewrite (quiet_data _ _ Q1); lia|].
  exists s2. split; [|by transitivity s1]. rewrite E2, Ht. do 2 f_equal.
  case_bool_decide as Hn0; [|done]. subst n. rewrite (drop_ge (type_cells col s)); [done|].
  unfold type_cells. rewrite length_fmap. lia.
Qed.

Lemma num_not_html (x : jstring) : ("num"%js ++ x ≠ "html"%js) ∧ ("num-fmt"%js ++ x ≠ "html"%js)
  ∧ ("html-num"%js ++ x ≠ "html"%js) ∧ ("html-num-fmt"%js ++ x ≠ "html"%js).
Proof. split_and!; discriminate. Qed.

Lemma nil_cells col s : cells_nil col s = bool_decide (length (aoData s) = 0).
Proof.
  unfold cells_nil, type_cells. apply bool_decide_ext. split; intros H.
  - by apply fmap_nil_inv in H as ->.
  - apply nil_length_inv in H. by rewrite H.
Qed.

(** One detector, from a state in which only warnings have changed. *)
Lemma detector_step det ty d types i col s0 s :
  aoColumns s !! i = Some col → quiet s s0 →
  (∀ c, det c = Some ty ∨ det c = None) → ty ≠ "html"%js →
  ∃ s1, quiet s s1 ∧
    detect_column (det :: d :: types) i s0 =
      if negb (cells_nil col s) && forallb (λ c, some_b (det c)) (type_cells col s) then Some (Some ty, s1)
      else detect_column (d :: types) i s1.
Proof.
  intros Hc Hq Hd Hh.
  destruct (scan_spec det ty i col s0 (length (aoData s0)) 0 None) as (s1 & E & Q);
    [by rewrite (quiet_columns _ _ Hq)|lia|done|done|].
  exists s1. split; [by transitivity s0|]. cbn [detect_column]. rewrite E. cbn [mbind option_bind].
  rewrite nil_cells. unfold type_cells in *. rewrite (quiet_data _ _ Hq), drop_0.
  destruct (decide (length (aoData s) = 0));
    [rewrite !bool_decide_eq_true_2 by done|rewrite !bool_decide_eq_false_2 by done]; cbn [negb andb]; [done|].
  clear E. by match goal with |- context [forallb ?f ?l] => destruct (forallb f l) end.
Qed.

Lemma detect_column_spec decimal i col s :
  aoColumns s !! i = Some col →
  ∃ t s', detect_column (detect date_parse decimal) i s = Some (t, s') ∧ quiet s s'
    ∧ default "string"%js t = reference_type decimal (type_cells col s).
Proof.
  intros Hc. destruct (num_not_html decimal) as (N1 & N2 & N3 & N4).
  assert (∀ (b : bool) (ty : jstring), (if b then Some ty else None) = Some ty ∨ (if b then Some ty else None) = None) as Hif
    by (intros []; auto).
  unfold detect, reference_type. change (bool_decide (type_cells col s = [])) with (cells_nil col s).
  assert (∀ A (x y : A) b, (if negb (cells_nil col s) && b then x else y)
    = if cells_nil col s then y else if b then x else y) as Hb by (intros A x y b; by destruct (cells_nil col s)).
  edestruct (detector_step (detect_num decimal) ("num"%js ++ decimal)) as (s1 & Q1 & ->);
    [exact Hc|reflexivity|intros c; apply Hif|done|].
  edestruct (detector_step (detect_date date_parse) "date"%js) as (s2 & Q2 & ->);
    [exact Hc|exact Q1|intros c; unfold detect_date; destruct (truthy c && _); [by right|apply Hif]|done|].
  edestruct (detector_step (detect_num_fmt decimal) ("num-fmt"%js ++ decimal)) as (s3 & Q3 & ->);
    [exact Hc|exact Q2|intros c; apply Hif|done|].
  edestruct (detector_step (detect_html_num decimal) ("html-num"%js ++ decimal)) as (s4 & Q4 & ->);
    [exact Hc|exact Q3|intros c; apply Hif|done|].
  edestruct (detector_step (detect_html_num_fmt decimal) ("html-num-fmt"%js ++ decimal)) as (s5 & Q5 & ->);
    [exact Hc|exact Q4|intros c; apply Hif|done|].
  rewrite !Hb.
  destruct (scan_html_spec i col s5 (length (aoData s5)) 0 None) as (s6 & E6 & Q6);
    [by rewrite (quiet_columns _ _ Q5)|lia|].
  assert (quiet s s6) as Q by by transitivity s5.
  assert (detect_column [detect_html] i s5 = Some (if cells_nil col s then None
    else if existsb (λ c, some_b (detect_html c)) (type_cells col s) then Some "html"%js else None, s6)) as ->.
  { cbn [detect_column]. rewrite E6. cbn [mbind option_bind]. rewrite nil_cells. unfold type_cells.
    rewrite (quiet_data _ _ Q5), drop_0. clear E6.
    destruct (decide (length (aoData s) = 0));
      [rewrite !bool_decide_eq_true_2 by done|rewrite !bool_decide_eq_false_2 by done]; [done|].
    by match goal with |- context [existsb ?f ?l] => destruct (existsb f l) end. }
  destruct (cells_nil col s); [eexists _, _; split_and!; [reflexivity|done|reflexivity]|].
  repeat match goal with |- context [if ?b then _ else _] =>
    destruct b; [eexists _, _; split_and!; [reflexivity|done|reflexivity]|]
  end. eexists _, _; split_and!; [reflexivity|done|reflexivity].
Qed.

(** A column of unknown type gets the first type all its cells have, among number, date,
    formatted number, number in HTML and formatted number in HTML; failing that, [html] when one
    of its cells is empty or has a tag; failing that, or without rows, [string]. *)
Theorem column_type_reference decimal i col s :
  aoColumns s !! i = Some col → sType col = None → _sManualType col = None →
  ∃ s', column_type date_parse decimal i s = Some s'
    ∧ aoColumns s' = alter (set_sType (Some (reference_type decimal (type_cells col s)))) i (aoColumns s)
    ∧ aoData s' = aoData s.
Proof.
  intros Hc H1 H2. unfold column_type. rewrite Hc. cbn [mbind option_bind]. rewrite H1, H2. cbn [falsy_str negb andb].
  destruct (detect_column_spec decimal i col s Hc) as (t & s' & -> & Q & <-). cbn [mbind option_bind].
  eexists. split; [reflexivity|]. split.
  - change (alter (set_sType (Some (default "string"%js t))) i (aoColumns s')
      = alter (set_sType (Some (default "string"%js t))) i (aoColumns s)). by rewrite (quiet_columns _ _ Q).
  - change (aoData s' = aoData s). by rewrite (quiet_data _ _ Q).
Qed.
End detection.

Definition sample_column (d : val → option jstring → val) : column :=
  Column true true true None None [] [] [] VNull d VNull [0] ["asc"%js; "desc"%js] false [] VNull [].
Definition sample_row (v : val) : row := Row v None None [] false [].

Definition sample_table (rows : list val) : settings :=
  let n := length rows in
  Settings false true true true true true false false VNull VNull []
    [sample_column (λ v _, v)] (sample_row <$> rows) (seq 0 n) (seq 0 n) (Many []) NoFixed [] oSearch [oSearch]
    (JInt 0) (JInt 10) None (JInt 0) (JInt 0)
    (JInt 0) (JInt (-1)) false false false true false false true [] [] 0 [] [] [] false [] VNull VNull.

Example column_type_reference_witness :
  let s := sample_table [VStr "$1,200"%js; VStr "7"%js; VStr "-"%js] in
  ∃ s', column_type (λ _, nan) []%js 0 s = Some s'
    ∧ aoColumns s' = [set_sType (Some "num-fmt"%js) (sample_column (λ v _, v))] ∧ aoData s' = aoData s.
Proof.
  intros s. exact (column_type_reference (λ _, nan) []%js 0 (sample_column (λ v _, v)) s eq_refl eq_refl eq_refl).
Defined.

(** ** Sort keys of numeric columns *)

Lemma finite_not_nan x : is_finite x = true → is_nan x = false.
Proof. by destruct x. Qed.

Lemma not_empty_number d : _empty d = true →
  (negb (match d with VNum (S754_zero _) => true | _ => false end)
     && (negb (truthy d) || match d with VStr s => s =s? "-"%js | _ => false end) = true)
  ∨ d = VBool true ∨ ∃ b, d = VNum (S754_zero b).
Proof.
  destruct d as [| |[]|[b| | |]|s|l|o]; cbn [_empty truthy negb andb orb]; try (by left); try done.
  - right. by left.
  - right. right. by exists b.
  - intros H. left. rewrite negb_involutive. exact H.
Qed.

(** C39: the sort key of a cell that the detection takes for a number, plain or formatted, is
    never NaN, so that the keys of such a column can be compared. *)
Theorem numeric_keys decimal d :
  (detect_num decimal d ≠ None → is_nan (__numericReplace d decimal []) = false)
  ∧ (detect_num_fmt decimal d ≠ None → is_nan (__numericReplace d decimal [strip_formatted]) = false).
Proof.
  assert (∀ res : list (jstring → jstring), _empty d = true →
    is_nan (__numericReplace d decimal res) = false) as He.
  { intros res H. unfold __numericReplace.
    destruct (not_empty_number d H) as [-> |[->|[b ->]]]; [done| |]; cbn [negb truthy andb orb];
      (match goal with |- context [if ?b then _ else _] => destruct b end; induction res as [|re res IH]; done). }
  assert (∀ fmt, _isNumber d decimal fmt = true →
    is_nan (__numericReplace d decimal (if fmt then [strip_formatted] else [])) = false) as Hn.
  { intros fmt H. destruct (_empty d) eqn:Ee; [by apply He|]. unfold _isNumber in H. rewrite Ee in H.
    unfold __numericReplace. match goal with |- context [if ?b then S754_infinity true else _] => destruct b end; [done|].
    cbv zeta in H. apply andb_true_iff in H as [_ H].
    set (d' := if negb (decimal =s? []) && _ then _ else d) in H.
    assert ((if negb (decimal =s? []) then _numToDecimal d decimal else d) = d') as ->.
    { unfold d'. destruct (negb (decimal =s? [])); [|done]. by destruct d. }
    apply finite_not_nan. destruct fmt; cbn [foldl replace_text].
    - assert (match d with VStr _ => true | _ => false end = match d' with VStr _ => true | _ => false end) as Hd.
      { unfold d'. destruct (negb (decimal =s? []) && _); [|done]. destruct d; try done. cbn [_numToDecimal].
        by destruct (negb _). }
      rewrite Hd in H. by destruct d'.
    - by destruct d'. }
  split; intros H.
  - apply (Hn false). unfold detect_num in H. by destruct (_isNumber d decimal false).
  - apply (Hn true). unfold detect_num_fmt in H. by destruct (_isNumber d decimal true).
Qed.

Example numeric_keys_witness :
  detect_num_fmt ","%js (VStr "1.200,5 kr"%js) ≠ None
  ∧ is_nan (__numericReplace (VStr "1.200,5 kr"%js) ","%js [strip_formatted]) = false.
Proof.
  assert (detect_num_fmt ","%js (VStr "1.200,5 kr"%js) ≠ None) as H by (vm_compute; discriminate).
  split; [exact H|]. exact (proj2 (numeric_keys ","%js (VStr "1.200,5 kr"%js)) H).
Defined.

(** The same fails for numbers in HTML: a dash between tags is taken for a number. *)
Example html_dash_key :
  let d := VStr "<b>-</b>"%js in
  _htmlNumeric d []%js false = true ∧ is_nan (__numericReplace d []%js [_stripHtml]) = true.
Proof. vm_compute. done. Qed.

(** An empty cell makes a column of texts an HTML column. *)
Example empty_cell_html :
  reference_type (λ _, nan) []%js [VStr "alpha"%js; VStr []%js] = "html"%js.
Proof. vm_compute. done. Qed.
