(* ===== verification/DtSort.v ===== *)
(** * Ordering of a table (jquery.dataTables.js, "sort")

    The columns to sort by, the sort keys, the sort of the rows, the reaction to a click on a
    header, the accessibility attributes and the classes of sorted columns.  Plug-ins of the page
    (sort data sources, comparison functions) are parameters. *)

From Stdlib Require Import Sorting.Sorted.
From S2P Require Import Prelude JsString JsObject JsNumber JsValue JsInt JqClasses DtUtil DtModel DtTypes.

(** [$.inArray(x, l)] *)
Definition inArray {A} `{EqDecision A} (x : A) (l : list A) : Z :=
  match list_find (λ y, y = x) l with Some (i, _) => Z.of_nat i | None => -1 end.

(** ** Columns to sort by *)

Definition entries (a : sorting_opt) : list sorting := match a with One e => [e] | Many l => l end.
Definition like (a : sorting_opt) (l : list sorting) : sorting_opt :=
  match a, l with One _, [e] => One e | _, _ => Many l end.

Fixpoint flatten_data (cols : list column) (src : nat) (dir : jstring) (idx : option Z) (ks : list nat)
    : option (list flat_sort * option Z) :=
  match ks with
  | [] => Some ([], idx)
  | iCol :: ks =>
      c ← cols !! iCol;
      let sType := match sType c with Some ((_ :: _) as t) => t | _ => "string"%js end in
      let i := match idx with Some i => i | None => inArray dir (asSorting c) end in
      '(l, idx) ← flatten_data cols src dir (Some i) ks;
      Some (FlatSort src iCol dir i sType :: l, idx)
  end.

(** The entries with their [_idx] filled in, and the columns they sort by. *)
Fixpoint flatten_entries (cols : list column) (l : list sorting) : option (list flat_sort * list sorting) :=
  match l with
  | [] => Some ([], [])
  | e :: l =>
      c ← cols !! s_col e;
      '(fs, idx) ← flatten_data cols (s_col e) (s_dir e) (s_idx e) (aDataSort c);
      '(fs', l') ← flatten_entries cols l;
      Some (fs ++ fs', Sorting (s_col e) (s_dir e) idx :: l')
  end.

Definition flatten_opt (cols : list column) (a : sorting_opt) : option (list flat_sort * sorting_opt) :=
  '(fs, l) ← flatten_entries cols (entries a); Some (fs, like a l).
Definition flatten_part (cols : list column) (a : option sorting_opt) : option (list flat_sort * option sorting_opt) :=
  match a with
  | Some a => '(fs, a) ← flatten_opt cols a; Some (fs, Some a)
  | None => Some ([], None)
  end.

(** [None]: an entry names a column that does not exist. *)
Definition _fnSortFlatten (s : settings) : option (list flat_sort * settings) :=
  let cols := aoColumns s in
  match aaSortingFixed s with
  | FixedArr a =>
      '(f1, a) ← flatten_opt cols a;
      '(f2, b) ← flatten_opt cols (aaSorting s);
      Some (f1 ++ f2, set_aaSorting b (set_aaSortingFixed (FixedArr a) s))
  | NoFixed => '(f2, b) ← flatten_opt cols (aaSorting s); Some (f2, set_aaSorting b s)
  | FixedObj pre post =>
      '(f1, pre) ← flatten_part cols pre;
      '(f2, b) ← flatten_opt cols (aaSorting s);
      '(f3, post) ← flatten_part cols post;
      Some (f1 ++ f2 ++ f3, set_aaSorting b (set_aaSortingFixed (FixedObj pre post) s))
  end.

Section sort.
Variable toLowerCase : jstring → jstring.
Variable date_parse : jstring → num.
(** The decimal places of [_addNumericSort], that of the language first. *)
Variable decimals : list jstring.
(** [DataTable.ext.order]: the sort data sources; their data, by row. *)
Variable ext_order : jstring → option (settings → nat → list val).
(** Comparison functions of plug-ins: [DataTable.ext.type.order] without [-pre]. *)
Variable ext_sort : jstring → option (val → val → Z).

Definition pre (t : jstring) : option (val → val) := order_pre toLowerCase date_parse decimals t.

(** ** Sort keys *)

Definition key_of (r : row) (idx : nat) : val := default VUndef (default ∅ (_aSortData r) !! idx).

Fixpoint sort_data_rows (col : column) (custom : option (list val)) (idx : nat) (ks : list nat) (s : settings)
    : option settings :=
  match ks with
  | [] => Some s
  | i :: ks =>
      r ← aoData s !! i;
      if negb (truthy (key_of r idx)) || match custom with Some _ => true | None => false end then
        '(cellData, s) ← match custom with
                         | Some d => Some (default VUndef (d !! i), s)
                         | None => _fnGetCellData s i idx (Some "sort"%js)
                         end;
        let cellData := match pre (default "null"%js (sType col)) with Some f => f cellData | None => cellData end in
        sort_data_rows col custom idx ks
          (upd_row i (λ r, set_aSortData (Some (<[idx := cellData]> (default ∅ (_aSortData r)))) r) s)
      else sort_data_rows col custom idx ks (upd_row i (λ r, set_aSortData (Some (default ∅ (_aSortData r))) r) s)
  end.

Definition _fnSortData (idx : nat) (s : settings) : option settings :=
  col ← aoColumns s !! idx;
  let custom := (λ f, f s idx) <$> ext_order (sSortDataType col) in
  sort_data_rows col custom idx (seq 0 (length (aoData s))) s.

Fixpoint load_sort_data (l : list flat_sort) (s : settings) : option settings :=
  match l with
  | [] => Some s
  | f :: l => s ← _fnSortData (f_col f) s; load_sort_data l s
  end.

(** ** The comparison of two rows *)

(** [fn = oExtSort[type+'-'+dir] || oExtSort['string-'+dir]] *)
Definition sort_fn (t dir : jstring) : option (val → val → Z) :=
  let fn n := match ext_sort n with
              | Some f => Some f
              | None => if n =s? "string-asc"%js then Some string_asc
                        else if n =s? "string-desc"%js then Some string_desc else None
              end in
  match fn (t ++ "-"%js ++ dir) with Some f => Some f | None => fn ("string-"%js ++ dir) end.

(** The comparison by one sorted column. *)
Definition col_cmp (fast : bool) (f : flat_sort) : option (val → val → Z) :=
  if fast then Some (λ x y, if f_dir f =s? "asc"%js then val_cmp x y else (- val_cmp x y)%Z)
  else sort_fn (f_type f) (f_dir f).

(** The first comparison that tells the rows apart decides. *)
Fixpoint first_cmp (cmps : list (nat * (val → val → Z))) (a b : row) : Z :=
  match cmps with
  | [] => 0
  | (c, f) :: cmps =>
      let test := f (key_of a c) (key_of b c) in
      if (test =? 0)%Z then first_cmp cmps a b else test
  end.

(** [aiOrig]: the position of each row in the master array before the sort. *)
Definition aiOrig (master : list nat) : gmap nat nat :=
  foldl (λ m '(i, r), <[r := i]> m) ∅ (imap pair master).

Definition no_row : row := Row VUndef None None [] false [].
Definition row_at (s : settings) (i : nat) : row := default no_row (aoData s !! i).

Definition row_cmp (s : settings) (orig : gmap nat nat) (cmps : list (nat * (val → val → Z))) (a b : nat) : Z :=
  let test := first_cmp cmps (row_at s a) (row_at s b) in
  if (test =? 0)%Z then Z.sgn (Z.of_nat (default 0%nat (orig !! a)) - Z.of_nat (default 0%nat (orig !! b))) else test.
End sort.

(** [Array.prototype.sort(cmp)]; rows never compare equal, so that the result does not depend on
    the algorithm. *)
Section array_sort.
Context {A : Type} (cmp : A → A → Z).

Fixpoint sort_insert (x : A) (l : list A) : list A :=
  match l with
  | [] => [x]
  | y :: t => if (cmp x y <=? 0)%Z then x :: l else y :: sort_insert x t
  end.
Fixpoint array_sort (l : list A) : list A :=
  match l with [] => [] | x :: t => sort_insert x (array_sort t) end.
End array_sort.

Section sort_table.
Variable toLowerCase : jstring → jstring.
Variable date_parse : jstring → num.
Variable decimals : list jstring.
Variable ext_order : jstring → option (settings → nat → list val).
Variable ext_sort : jstring → option (val → val → Z).
#[local] Abbreviation pre := (pre toLowerCase date_parse decimals).

Definition cmps_of (l : list flat_sort) : option (list (nat * (val → val → Z))) :=
  let fast := forallb (λ f, some_b (pre (f_type f))) l in
  mapM (λ f, c ← col_cmp ext_sort fast f; Some (f_col f, c)) l.

Definition _fnSort (s : settings) : option settings :=
  s ← _fnColumnTypes date_parse (default [] (head decimals)) s;
  '(aSort, s) ← _fnSortFlatten s;
  s ← load_sort_data toLowerCase date_parse decimals ext_order aSort s;
  if negb (is_ssp s) && negb (bool_decide (aSort = [])) then
    cmps ← cmps_of aSort;
    let displayMaster := aiDisplayMaster s in
    Some (set_bSorted true
      (set_aiDisplayMaster (array_sort (row_cmp s (aiOrig displayMaster) cmps) displayMaster) s))
  else Some (set_bSorted true s).
End sort_table.

(** ** A click on a header *)

(** [next(a, overflow)]: the index of the next direction; [None] stands for null. *)
Definition next_sort (asSorting : list jstring) (a : sorting) (overflow : bool) : option Z :=
  let idx := match s_idx a with Some i => i | None => inArray (s_dir a) asSorting end in
  if (idx + 1 <? Z.of_nat (length asSorting))%Z then Some (idx + 1)%Z
  else if overflow then None else Some 0%Z.

(** [asSorting[i]] of an index the code computed. *)
Definition dir_at (asSorting : list jstring) (i : Z) : jstring := default [] (asSorting !! Z.to_nat i).

(** The new [aaSorting]; [append]: the shift key was down. *)
Definition listener_sorting (s : settings) (col : column) (colIdx : nat) (append : bool) : list sorting :=
  let asS := asSorting col in
  let sorting := entries (aaSorting s) in
  if append && bSortMulti s then
    let sortIdx := inArray colIdx (s_col <$> sorting) in
    if (sortIdx =? -1)%Z then sorting ++ [Sorting colIdx (dir_at asS 0) (Some 0%Z)]
    else
      let i := Z.to_nat sortIdx in
      match sorting !! i with
      | None => sorting
      | Some e =>
          let nextSortIdx :=
            match next_sort asS e true with
            | None => if bool_decide (length sorting = 1) then Some 0%Z else None
            | Some n => Some n
            end in
          match nextSortIdx with
          | None => delete i sorting
          | Some n => <[i := Sorting (s_col e) (dir_at asS n) (Some n)]> sorting
          end
      end
  else
    match sorting with
    | e :: _ =>
        if bool_decide (s_col e = colIdx) then
          match next_sort asS e false with
          | Some n => [Sorting (s_col e) (dir_at asS n) (Some n)]
          | None => sorting
          end
        else [Sorting colIdx (dir_at asS 0) (Some 0%Z)]
    | [] => [Sorting colIdx (dir_at asS 0) (Some 0%Z)]
    end.

(** [redraw] is [_fnReDraw]; the callback of the caller follows it. *)
Definition _fnSortListener (redraw : settings → option settings) (s : settings) (colIdx : nat) (append : bool)
    : option settings :=
  col ← aoColumns s !! colIdx;
  redraw (set_aaSorting (Many (listener_sorting s col colIdx append)) s).

(** ** Accessibility attributes *)

Record aria := Aria { aria_sort : option jstring; aria_label : jstring }.

Definition sort_aria_column (sSortAscending sSortDescending : jstring) (aSort : list flat_sort) (i : nat) (col : column)
    : aria :=
  let sTitle := _stripHtml (sTitle col) in
  let first := default [] (asSorting col !! 0) in
  if bSortable col then
    match aSort with
    | f :: _ =>
        if bool_decide (f_col f = i) then
          let next := match asSorting col !! Z.to_nat (f_index f + 1) with
                      | Some ((_ :: _) as d) => d
                      | _ => first
                      end in
          Aria (Some (if f_dir f =s? "asc"%js then "ascending"%js else "descending"%js))
            (sTitle ++ if next =s? "asc"%js then sSortAscending else sSortDescending)
        else Aria None (sTitle ++ if first =s? "asc"%js then sSortAscending else sSortDescending)
    | [] => Aria None (sTitle ++ if first =s? "asc"%js then sSortAscending else sSortDescending)
    end
  else Aria None sTitle.

Definition _fnSortAria (asc desc : jstring) (s : settings) : option (list aria * settings) :=
  '(aSort, s) ← _fnSortFlatten s;
  Some (imap (sort_aria_column asc desc aSort) (aoColumns s), s).

(** ** Classes of the sorted columns

    [cells]: the class of the cells of each column. *)
Definition sort_class (sortClass : jstring) (i : nat) : jstring :=
  sortClass ++ str_of_nat (if bool_decide (i < 2) then i + 1 else 3).

Definition remove_sort_classes (sortClass : jstring) (oldSort : list flat_sort) (cells : gmap nat jstring) : gmap nat jstring :=
  foldl (λ m '(i, f), alter (removeClass (Some (sort_class sortClass i))) (f_src f) m) cells (imap pair oldSort).
Definition add_sort_classes (sortClass : jstring) (sort : list flat_sort) (cells : gmap nat jstring) : gmap nat jstring :=
  foldl (λ m '(i, f), alter (addClass (sort_class sortClass i)) (f_src f) m) cells (imap pair sort).

Definition _fnSortingClasses (sortClass : jstring) (s : settings) (cells : gmap nat jstring)
    : option (settings * gmap nat jstring) :=
  let oldSort := aLastSort s in
  '(sort, s) ← _fnSortFlatten s;
  let cells := if bSort s && bSortClasses s
               then add_sort_classes sortClass sort (remove_sort_classes sortClass oldSort cells) else cells in
  Some (set_aLastSort sort s, cells).
