(* ===== verification/DtSortTheorems.v ===== *)
(** * Correctness of the ordering of a table

    The sort of the rows: it permutes them, orders them lexicographically by the sorted columns,
    keeps the previous order of rows that tie, and is the only list that does.  The reaction to
    clicks on the headers. *)

From Stdlib Require Import Sorting.Sorted.
From S2P Require Import Prelude JsString JsObject JsNumber JsValue JsInt JqClasses DtUtil DtModel DtTypes DtSort.

(** ** Consistent comparison functions *)

Section consistent.
Context {A : Type}.

Record consistent (P : A → Prop) (cmp : A → A → Z) : Prop := {
  cmp_anti : ∀ x y, P x → P y → cmp y x = (- cmp x y)%Z;
  cmp_trans : ∀ x y z, P x → P y → P z → (cmp x y ≤ 0)%Z → (cmp y z ≤ 0)%Z → (cmp x z ≤ 0)%Z
}.

Lemma consistent_lt_le P cmp x y z :
  consistent P cmp → P x → P y → P z → (cmp x y < 0)%Z → (cmp y z ≤ 0)%Z → (cmp x z < 0)%Z.
Proof.
  intros [Ha Ht] Hx Hy Hz H1 H2. destruct (Z.lt_ge_cases (cmp x z) 0) as [|H3]; [done|].
  assert (cmp z x ≤ 0)%Z as H4 by (rewrite (Ha x z) by done; lia).
  pose proof (Ht y z x Hy Hz Hx H2 H4) as H5. rewrite (Ha x y) in H5 by done. lia.
Qed.

Lemma consistent_le_lt P cmp x y z :
  consistent P cmp → P x → P y → P z → (cmp x y ≤ 0)%Z → (cmp y z < 0)%Z → (cmp x z < 0)%Z.
Proof.
  intros Hc Hx Hy Hz H1 H2. destruct Hc as [Ha Ht]. destruct (Z.lt_ge_cases (cmp x z) 0) as [|H3]; [done|].
  assert (cmp z x ≤ 0)%Z as H4 by (rewrite (Ha x z) by done; lia).
  pose proof (Ht z x y Hz Hx Hy H4 H1) as H5. rewrite (Ha y z) in H5 by done. lia.
Qed.

Lemma consistent_opp P cmp : consistent P cmp → consistent P (λ x y, - cmp x y)%Z.
Proof.
  intros [Ha Ht]. split.
  - intros x y Hx Hy. by rewrite (Ha x y).
  - intros x y z Hx Hy Hz H1 H2. pose proof (Ht z y x Hz Hy Hx) as H.
    rewrite (Ha y z), (Ha x y), (Ha x z) in H by done. lia.
Qed.

(** The sort with a consistent comparison that tells the elements apart. *)
Section sorted.
Variables (P : A → Prop) (cmp : A → A → Z).
Hypothesis Hc : consistent P cmp.

Lemma sort_insert_perm x l : sort_insert cmp x l ≡ₚ x :: l.
Proof.
  induction l as [|y l IH]; [done|]. cbn [sort_insert]. destruct (_ <=? _)%Z; [done|].
  rewrite IH. apply Permutation_swap.
Qed.
Lemma array_sort_perm l : array_sort cmp l ≡ₚ l.
Proof. induction l as [|x l IH]; [done|]. cbn [array_sort]. by rewrite sort_insert_perm, IH. Qed.

#[local] Abbreviation le := (λ x y, cmp x y ≤ 0)%Z.

Lemma sort_insert_sorted x l :
  P x → Forall P l → StronglySorted le l → StronglySorted le (sort_insert cmp x l).
Proof.
  intros Hx Hl. induction 1 as [|y l Hs IH Hy]; [repeat constructor|].
  apply Forall_cons in Hl as [Py Hl]. cbn [sort_insert]. destruct (Z.leb_spec (cmp x y) 0) as [H|H].
  - constructor; [by constructor|]. constructor; [done|]. rewrite Forall_forall in *. intros z Hz.
    apply (cmp_trans _ _ Hc x y z); auto.
  - constructor; [by apply IH|]. rewrite sort_insert_perm. constructor; [|done].
    rewrite (cmp_anti _ _ Hc x y) by done. lia.
Qed.

Lemma array_sort_sorted l : Forall P l → StronglySorted le (array_sort cmp l).
Proof.
  induction 1 as [|x l Hx Hl IH]; [constructor|]. cbn [array_sort].
  apply sort_insert_sorted; [done|by rewrite array_sort_perm|done].
Qed.

#[local] Abbreviation lt := (λ x y, cmp x y < 0)%Z.
Hypothesis Hdist : ∀ x y, P x → P y → cmp x y = 0%Z → x = y.

Lemma array_sort_strict l : Forall P l → NoDup l → StronglySorted lt (array_sort cmp l).
Proof.
  intros Hl Hn. pose proof (array_sort_sorted l Hl) as Hs.
  assert (Forall P (array_sort cmp l)) as HP by by rewrite array_sort_perm.
  assert (NoDup (array_sort cmp l)) as HN by by rewrite array_sort_perm.
  induction Hs as [|x l' Hs IH Hx]; [constructor|].
  apply Forall_cons in HP as [Px HP]. apply NoDup_cons in HN as [Hnx HN].
  constructor; [by apply IH|]. rewrite Forall_forall in *. intros y Hy. specialize (Hx y Hy).
  destruct (Z.eq_dec (cmp x y) 0%Z) as [E|]; [|lia]. apply Hdist in E; [by subst|done|by apply HP].
Qed.

Lemma strict_unique l l' :
  Forall P l → StronglySorted lt l → StronglySorted lt l' → l ≡ₚ l' → l = l'.
Proof.
  intros HP Hl. revert l' HP. induction Hl as [|x l Hl IH Hx]; intros l' HP Hl' Hp.
  { by apply Permutation_nil_l in Hp. }
  inversion Hl' as [|y l2 Hl2 Hy]; subst; [by apply Permutation_nil_r in Hp|].
  apply Forall_cons in HP as [Px HP]. rewrite Forall_forall in *.
  assert (x = y) as ->.
  { assert (x ∈ y :: l2) as H1 by (rewrite <- Hp; by left). assert (y ∈ x :: l) as H2 by (rewrite Hp; by left).
    apply elem_of_cons in H1 as [|H1]; [done|]. apply elem_of_cons in H2 as [|H2]; [done|].
    specialize (Hx y H2). specialize (Hy x H1). pose proof (cmp_anti _ _ Hc x y Px (HP y H2)). lia. }
  f_equal. apply IH; [by apply Forall_forall|done|]. by apply Permutation_cons_inv in Hp.
Qed.
End sorted.
End consistent.

(** ** Keys *)

Lemma units_lt_irrefl s : units_lt s s = false.
Proof. induction s as [|u s IH]; [done|]. cbn. by rewrite N.ltb_irrefl, N.eqb_refl, IH. Qed.

Lemma units_lt_total s t : units_lt s t = true ∨ s = t ∨ units_lt t s = true.
Proof.
  revert t. induction s as [|u s IH]; intros [|v t]; cbn; auto.
  destruct (N.lt_trichotomy u v) as [H|[->|H]].
  - left. apply N.ltb_lt in H. by rewrite H.
  - rewrite N.ltb_irrefl, N.eqb_refl. cbn. destruct (IH t) as [-> | [-> | ->]]; auto.
  - right. right. apply N.ltb_lt in H. by rewrite H.
Qed.

Lemma units_lt_trans s t r : units_lt s t = true → units_lt t r = true → units_lt s r = true.
Proof.
  revert t r. induction s as [|u s IH]; intros [|v t] [|w r]; cbn; try done.
  rewrite !orb_true_iff, !andb_true_iff, !N.ltb_lt, !N.eqb_eq.
  intros [H1|[-> H1]] [H2|[-> H2]]; [left; lia|left; lia|left; lia|right; eauto].
Qed.

(** The place of a number in the order: infinities, finite numbers by sign, exponent and
    mantissa, both zeros together. *)
Definition rank (x : num) : Z * Z * Z :=
  match x with
  | S754_infinity true => (-2, 0, 0)
  | S754_finite true m e => (-1, - e, - Zpos m)
  | S754_zero _ | S754_nan => (0, 0, 0)
  | S754_finite false m e => (1, e, Zpos m)
  | S754_infinity false => (2, 0, 0)
  end%Z.
Definition lex_lt (a b : Z * Z * Z) : Prop :=
  let '(a1, a2, a3) := a in let '(b1, b2, b3) := b in
  (a1 < b1 ∨ a1 = b1 ∧ (a2 < b2 ∨ a2 = b2 ∧ a3 < b3))%Z.

Lemma flt_rank x y : is_nan x = false → is_nan y = false → flt x y = true ↔ lex_lt (rank x) (rank y).
Proof.
  intros Hx Hy. unfold flt, lex_lt.
  destruct x as [sx|sx| |sx mx ex], y as [sy|sy| |sy my ey]; try done; cbn [SFcompare rank];
    repeat match goal with b : bool |- _ => destruct b end; try (split; [done || lia|lia]); try (split; intros; lia || done).
  all: change (Pos.compare_cont Eq mx my) with (mx ?= my)%positive;
    destruct (Z.compare_spec ex ey) as [E|E|E], (Pos.compare_spec mx my) as [M|M|M]; cbn [CompOpp];
    split; intros; lia || done.
Qed.

Definition num_key (v : val) : Prop := ∃ x, v = VNum x ∧ is_nan x = false.
Definition str_key (v : val) : Prop := ∃ s, v = VStr s.

Lemma val_cmp_consistent (P : val → Prop) :
  (∀ x y, P x → P y → val_lt x y = true → val_lt y x = false) →
  (∀ x y z, P x → P y → P z → val_lt y x = false → val_lt z y = false → val_lt z x = false) →
  consistent P val_cmp.
Proof.
  intros Ha Ht. split.
  - intros x y Hx Hy. unfold val_cmp. destruct (val_lt x y) eqn:E1.
    + by rewrite (Ha x y Hx Hy E1).
    + by destruct (val_lt y x).
  - intros x y z Hx Hy Hz H1 H2.
    assert (∀ a b, P a → P b → (val_cmp a b ≤ 0)%Z ↔ val_lt b a = false) as Hle.
    { intros a b Pa Pb. unfold val_cmp. destruct (val_lt a b) eqn:E.
      - rewrite (Ha a b Pa Pb E). split; [done|lia].
      - destruct (val_lt b a); split; lia || done. }
    rewrite Hle in * by done. eauto.
Qed.

Lemma str_keys_consistent : consistent str_key val_cmp.
Proof.
  apply val_cmp_consistent.
  - intros x y [s ->] [t ->]. unfold val_lt. cbn. intros H. destruct (units_lt t s) eqn:E; [|done].
    pose proof (units_lt_trans _ _ _ H E) as H'. by rewrite units_lt_irrefl in H'.
  - intros x y z [s ->] [t ->] [r ->]. unfold val_lt. cbn. intros H1 H2.
    destruct (units_lt r s) eqn:E; [|done].
    destruct (units_lt_total t r) as [H|[->|H]]; [|congruence|congruence].
    pose proof (units_lt_trans _ _ _ H E). congruence.
Qed.

Lemma num_keys_consistent : consistent num_key val_cmp.
Proof.
  assert (∀ x y, is_nan x = false → is_nan y = false → flt x y = false ↔ ¬ lex_lt (rank x) (rank y)) as Hf.
  { intros x y Hx Hy. rewrite <- flt_rank by done. by destruct (flt x y). }
  apply val_cmp_consistent.
  - intros v w (x & -> & Hx) (y & -> & Hy). unfold val_lt. cbn. rewrite flt_rank, Hf by done.
    destruct (rank x) as [[? ?] ?], (rank y) as [[? ?] ?]. unfold lex_lt. lia.
  - intros u v w (x & -> & Hx) (y & -> & Hy) (z & -> & Hz). unfold val_lt. cbn. rewrite !Hf by done.
    destruct (rank x) as [[? ?] ?], (rank y) as [[? ?] ?], (rank z) as [[? ?] ?]. unfold lex_lt. lia.
Qed.

(** ** Comparing rows *)

Lemma first_cmp_consistent (P : row → Prop) cmps :
  Forall (λ cf : nat * (val → val → Z), consistent P (λ a b, cf.2 (key_of a cf.1) (key_of b cf.1))) cmps →
  consistent P (first_cmp cmps).
Proof.
  induction 1 as [|[c f] cmps Hf _ [Ia It]]; [by split|]. cbn [fst snd] in Hf. pose proof Hf as [Ha Ht]. split.
  - intros x y Hx Hy. cbn [first_cmp]. cbv zeta. specialize (Ha x y Hx Hy). rewrite Ha.
    destruct (Z.eqb_spec (f (key_of x c) (key_of y c)) 0) as [E|E].
    + rewrite E. by apply Ia.
    + destruct (Z.eqb_spec (- f (key_of x c) (key_of y c)) 0); [lia|done].
  - intros x y z Hx Hy Hz. cbn [first_cmp]. cbv zeta.
    pose proof (Ht x y z Hx Hy Hz) as H1. pose proof (consistent_lt_le _ _ x y z Hf Hx Hy Hz) as H2.
    pose proof (consistent_le_lt _ _ x y z Hf Hx Hy Hz) as H3. cbv beta in *.
    destruct (Z.eqb_spec (f (key_of x c) (key_of y c)) 0) as [E1|E1],
      (Z.eqb_spec (f (key_of y c) (key_of z c)) 0) as [E2|E2],
      (Z.eqb_spec (f (key_of x c) (key_of z c)) 0) as [E3|E3]; intros L1 L2; try lia.
    by apply (It x y z).
Qed.

(** ** Positions *)

Lemma imap_shift {A} k (l : list A) :
  imap ((λ j x, (k + j, x)) ∘ S) l = imap (λ j x, (S k + j, x)) l.
Proof. apply imap_ext. intros i x _. cbn. f_equal. lia. Qed.

Lemma aiOrig_go_lookup l k m r i :
  NoDup l → l !! i = Some r →
  foldl (λ (m : gmap nat nat) '(i, r), <[r := i]> m) m (imap (λ j x, (k + j, x)) l) !! r = Some (k + i).
Proof.
  revert k m i. induction l as [|x l IH]; intros k m i Hn Hi; [done|]. apply NoDup_cons in Hn as [Hx Hn].
  cbn [imap foldl]. rewrite imap_shift.
  destruct i as [|i]; cbn in Hi.
  - injection Hi as ->. clear IH. rewrite Nat.add_0_r.
    assert (∀ l k (m : gmap nat nat), r ∉ l → foldl (λ m '(i, r), <[r := i]> m) m (imap (λ j x, (k + j, x)) l) !! r = m !! r) as Hnot.
    { clear. induction l as [|y l IH]; intros k m Hr; [done|]. cbn [imap foldl].
      rewrite imap_shift.
      apply not_elem_of_cons in Hr as [Hr1 Hr2]. rewrite IH by done. by rewrite lookup_insert_ne. }
    rewrite (Hnot l (S k)) by done. by rewrite lookup_insert_eq.
  - rewrite (IH (S k) _ i Hn Hi). f_equal. lia.
Qed.

Lemma aiOrig_lookup l r i : NoDup l → l !! i = Some r → aiOrig l !! r = Some i.
Proof. intros Hn Hi. apply (aiOrig_go_lookup l 0 ∅ r i Hn Hi). Qed.

(** [a] stands before [b] in [master]. *)
Definition before (master : list nat) (a b : nat) : Prop :=
  ∃ i j, master !! i = Some a ∧ master !! j = Some b ∧ i < j.

Lemma before_orig master a b :
  NoDup master → a ∈ master → b ∈ master →
  before master a b ↔ default 0 (aiOrig master !! a) < default 0 (aiOrig master !! b).
Proof.
  intros Hn [i Hi]%list_elem_of_lookup [j Hj]%list_elem_of_lookup.
  rewrite (aiOrig_lookup _ _ _ Hn Hi), (aiOrig_lookup _ _ _ Hn Hj). cbn [default]. split; [|by exists i, j].
  intros (i' & j' & Hi' & Hj' & H). by rewrite (NoDup_lookup _ _ _ _ Hn Hi Hi'), (NoDup_lookup _ _ _ _ Hn Hj Hj').
Qed.

Lemma row_cmp_consistent s master cmps :
  NoDup master → consistent (λ r, ∃ i, i ∈ master ∧ r = row_at s i) (first_cmp cmps) →
  consistent (λ i, i ∈ master) (row_cmp s (aiOrig master) cmps)
  ∧ (∀ a b, a ∈ master → b ∈ master → row_cmp s (aiOrig master) cmps a b = 0%Z → a = b)
  ∧ ∀ a b, a ∈ master → b ∈ master →
      (row_cmp s (aiOrig master) cmps a b < 0)%Z ↔
      (first_cmp cmps (row_at s a) (row_at s b) < 0)%Z
      ∨ first_cmp cmps (row_at s a) (row_at s b) = 0%Z ∧ before master a b.
Proof.
  intros Hn Hc. pose proof Hc as [Ha Ht]. set (orig := aiOrig master).
  assert (∀ a, a ∈ master → ∃ i, i ∈ master ∧ row_at s a = row_at s i) as Hin by eauto.
  unfold row_cmp. cbv zeta. split; [split|split].
  - intros x y Hx Hy. rewrite (Ha (row_at s x) (row_at s y)) by auto.
    destruct (Z.eqb_spec (first_cmp cmps (row_at s x) (row_at s y)) 0) as [E|E].
    + rewrite E. cbn [Z.eqb Z.opp]. rewrite <- Z.sgn_opp. f_equal. lia.
    + destruct (Z.eqb_spec (- first_cmp cmps (row_at s x) (row_at s y)) 0); [lia|done].
  - intros x y z Hx Hy Hz.
    pose proof (Ht _ _ _ (Hin x Hx) (Hin y Hy) (Hin z Hz)) as H1.
    pose proof (consistent_lt_le _ _ _ _ _ Hc (Hin x Hx) (Hin y Hy) (Hin z Hz)) as H2.
    pose proof (consistent_le_lt _ _ _ _ _ Hc (Hin x Hx) (Hin y Hy) (Hin z Hz)) as H3.
    pose proof (Ht _ _ _ (Hin z Hz) (Hin y Hy) (Hin x Hx)) as H4.
    rewrite (Ha (row_at s y) (row_at s z)), (Ha (row_at s x) (row_at s y)), (Ha (row_at s x) (row_at s z)) in H4 by auto.
    destruct (Z.eqb_spec (first_cmp cmps (row_at s x) (row_at s y)) 0),
      (Z.eqb_spec (first_cmp cmps (row_at s y) (row_at s z)) 0),
      (Z.eqb_spec (first_cmp cmps (row_at s x) (row_at s z)) 0); lia.
  - intros a b Hx Hy. destruct (Z.eqb_spec (first_cmp cmps (row_at s a) (row_at s b)) 0); [|done].
    intros Hs. apply list_elem_of_lookup in Hx as [i Hi]. apply list_elem_of_lookup in Hy as [j Hj].
    unfold orig in Hs. rewrite (aiOrig_lookup _ _ _ Hn Hi), (aiOrig_lookup _ _ _ Hn Hj) in Hs. change (Z.sgn (Z.of_nat i - Z.of_nat j) = 0)%Z in Hs.
    assert (i = j) as -> by lia. congruence.
  - intros a b Hx Hy. rewrite before_orig by done. fold orig.
    destruct (Z.eqb_spec (first_cmp cmps (row_at s a) (row_at s b)) 0); lia.
Qed.

(** The sort of the rows, for any consistent comparisons of the columns. *)
Lemma sort_rows_spec s master cmps :
  NoDup master → consistent (λ r, ∃ i, i ∈ master ∧ r = row_at s i) (first_cmp cmps) →
  let l := array_sort (row_cmp s (aiOrig master) cmps) master in
  let row_before a b := (first_cmp cmps (row_at s a) (row_at s b) < 0)%Z
    ∨ first_cmp cmps (row_at s a) (row_at s b) = 0%Z ∧ before master a b in
  l ≡ₚ master ∧ StronglySorted row_before l
  ∧ ∀ l', l' ≡ₚ master → StronglySorted row_before l' → l' = l.
Proof.
  intros Hn Hc l row_before. destruct (row_cmp_consistent s master cmps Hn Hc) as (R1 & R2 & R3).
  assert (l ≡ₚ master) as Hp by apply array_sort_perm.
  assert (∀ l', l' ≡ₚ master →
    StronglySorted (λ x y, row_cmp s (aiOrig master) cmps x y < 0)%Z l' ↔ StronglySorted row_before l') as Hiff.
  { intros l' Hp'. assert (Forall (λ x, x ∈ master) l') as Hl' by (apply Forall_forall; intros x Hx; by rewrite <- Hp').
    clear Hp'. induction Hl' as [|x l' Hx Hl' IH]; [split; constructor|].
    split; (intros H; inversion H as [|? ? H1 H2]; subst; constructor; [by apply IH|]); rewrite Forall_forall in *;
      intros y Hy; specialize (H2 y Hy); by apply R3; [|apply Hl'|]. }
  assert (Forall (λ x, x ∈ master) master) as Hall by by apply Forall_forall.
  assert (StronglySorted (λ x y, row_cmp s (aiOrig master) cmps x y < 0)%Z l) as Hs
    by by apply (array_sort_strict (λ x, x ∈ master) _ R1 R2).
  split_and!; [done|by apply Hiff|].
  intros l' Hp' Hs'. symmetry. apply (strict_unique (λ x, x ∈ master) _ R1).
  - by rewrite Hp.
  - exact Hs.
  - by apply Hiff.
  - by rewrite Hp, Hp'.
Qed.

(** ** The columns a sort goes by *)

Definition entry_columns (cols : list column) (e : sorting) : list (nat * jstring) :=
  (., s_dir e) <$> default [] (aDataSort <$> cols !! s_col e).
Definition part_columns (cols : list column) (a : option sorting_opt) : list (nat * jstring) :=
  match a with Some a => entries a ≫= entry_columns cols | None => [] end.

(** The columns with their directions, the most significant first. *)
Definition sort_columns (s : settings) : list (nat * jstring) :=
  let cols := aoColumns s in
  match aaSortingFixed s with
  | NoFixed => part_columns cols (Some (aaSorting s))
  | FixedArr a => part_columns cols (Some a) ++ part_columns cols (Some (aaSorting s))
  | FixedObj pre post =>
      part_columns cols pre ++ part_columns cols (Some (aaSorting s)) ++ part_columns cols post
  end.

Definition col_type (c : column) : jstring := match sType c with Some ((_ :: _) as t) => t | _ => "string"%js end.

(** What [flatten] gives is right: the columns, and their types. *)
Definition flat_ok (cols : list column) (l : list (nat * jstring)) (fs : list flat_sort) : Prop :=
  (λ f, (f_col f, f_dir f)) <$> fs = l
  ∧ Forall (λ f, ∃ c, cols !! f_col f = Some c ∧ f_type f = col_type c) fs.

Lemma flat_ok_app cols l l' fs fs' : flat_ok cols l fs → flat_ok cols l' fs' → flat_ok cols (l ++ l') (fs ++ fs').
Proof. intros [<- H1] [<- H2]. split; [apply fmap_app|by apply Forall_app]. Qed.

Lemma flatten_data_ok cols src dir idx ks fs idx' :
  flatten_data cols src dir idx ks = Some (fs, idx') → flat_ok cols ((., dir) <$> ks) fs.
Proof.
  revert idx fs. induction ks as [|k ks IH]; intros idx fs H; cbn [flatten_data] in H; [by injection H as <- <-|].
  destruct (cols !! k) as [c|] eqn:Ec; [|done]. cbn [mbind option_bind] in H.
  destruct (flatten_data cols src dir _ ks) as [[l i]|] eqn:Ef; [|done]. cbn in H. injection H as <- <-.
  apply IH in Ef as [E H]. split; [cbn; by rewrite E|]. constructor; [|done]. by exists c.
Qed.

Lemma flatten_entries_ok cols l fs l' :
  flatten_entries cols l = Some (fs, l') → flat_ok cols (l ≫= entry_columns cols) fs.
Proof.
  revert fs l'. induction l as [|e l IH]; intros fs l' H; cbn [flatten_entries] in H; [by injection H as <- <-|].
  destruct (cols !! s_col e) as [c|] eqn:Ec; [|done]. cbn [mbind option_bind] in H.
  destruct (flatten_data cols _ _ _ _) as [[f1 i]|] eqn:Ef; [|done]. cbn in H.
  destruct (flatten_entries cols l) as [[f2 l2]|] eqn:Ee; [|done]. cbn in H. injection H as <- <-.
  rewrite bind_cons. apply flat_ok_app.
  - unfold entry_columns. rewrite Ec. by eapply flatten_data_ok.
  - by eapply IH.
Qed.

Lemma flatten_opt_ok cols a fs b : flatten_opt cols a = Some (fs, b) → flat_ok cols (part_columns cols (Some a)) fs.
Proof.
  unfold flatten_opt. destruct (flatten_entries cols (entries a)) as [[f l]|] eqn:E; [|done].
  cbn. intros [= <- <-]. by eapply flatten_entries_ok.
Qed.
Lemma flatten_part_ok cols a fs b : flatten_part cols a = Some (fs, b) → flat_ok cols (part_columns cols a) fs.
Proof.
  destruct a as [a|]; cbn [flatten_part]; [|by intros [= <- <-]].
  destruct (flatten_opt cols a) as [[f l]|] eqn:E; [|done]. cbn. intros [= <- <-]. by eapply flatten_opt_ok.
Qed.

(** [_fnSortFlatten] changes nothing but the recorded directions. *)
Lemma flatten_spec s fs s' :
  _fnSortFlatten s = Some (fs, s') →
  flat_ok (aoColumns s) (sort_columns s) fs
  ∧ ∃ a b, s' = set_aaSorting a (set_aaSortingFixed b s).
Proof.
  unfold _fnSortFlatten, sort_columns. destruct (aaSortingFixed s) as [|a|pre post] eqn:Ef; intros H.
  - destruct (flatten_opt _ (aaSorting s)) as [[f1 b]|] eqn:E1; [|done]. cbn in H. injection H as <- <-.
    split; [by eapply flatten_opt_ok|]. exists b, NoFixed. rewrite <- Ef. by destruct s.
  - destruct (flatten_opt _ a) as [[f1 a']|] eqn:E1; [|done]. cbn in H.
    destruct (flatten_opt _ (aaSorting s)) as [[f2 b]|] eqn:E2; [|done]. cbn in H. injection H as <- <-.
    split; [|by eexists _, _]. apply flat_ok_app; by eapply flatten_opt_ok.
  - destruct (flatten_part _ pre) as [[f1 pre']|] eqn:E1; [|done]. cbn in H.
    destruct (flatten_opt _ (aaSorting s)) as [[f2 b]|] eqn:E2; [|done]. cbn in H.
    destruct (flatten_part _ post) as [[f3 post']|] eqn:E3; [|done]. cbn in H. injection H as <- <-.
    split; [|by eexists _, _].
    apply flat_ok_app; [by eapply flatten_part_ok|apply flat_ok_app; [by eapply flatten_opt_ok|by eapply flatten_part_ok]].
Qed.

(** ** What the steps before the sort keep *)

(** Types of columns and sort keys may change, the rest of what a sort depends on does not. *)
Definition sort_frame (s s' : settings) : Prop :=
  aiDisplayMaster s' = aiDisplayMaster s ∧ bServerSide s' = bServerSide s
  ∧ aDataSort <$> aoColumns s' = aDataSort <$> aoColumns s
  ∧ aaSorting s' = aaSorting s ∧ aaSortingFixed s' = aaSortingFixed s.

#[export] Instance sort_frame_preorder : PreOrder sort_frame.
Proof.
  split; [by intros s|]. intros s1 s2 s3 (A1 & A2 & A3 & A4 & A5) (B1 & B2 & B3 & B4 & B5).
  unfold sort_frame. split_and!; congruence.
Qed.

Lemma quiet_frame s s' : quiet s s' → sort_frame s s'.
Proof. intros ->. by destruct s. Qed.

Lemma column_type_frame date_parse d i s s' : column_type date_parse d i s = Some s' → sort_frame s s'.
Proof.
  unfold column_type. intros H. destruct (aoColumns s !! i) as [col|] eqn:Ec; [|done]. cbn [mbind option_bind] in H.
  assert (∀ t s1, quiet s s1 → sort_frame s (upd_column i (set_sType t) s1)) as Hu.
  { intros t s1 Hq. transitivity s1; [by apply quiet_frame|]. unfold sort_frame. split_and!; try done.
    unfold upd_column. cbn [aoColumns set_aoColumns]. apply list_eq. intros j. rewrite !list_lookup_fmap.
    destruct (decide (j = i)) as [->|]; [rewrite list_lookup_alter_eq|by rewrite list_lookup_alter_ne].
    by destruct (aoColumns s1 !! i). }
  destruct (falsy_str (sType col) && negb (falsy_str (_sManualType col))); [injection H as <-; by apply Hu|].
  destruct (falsy_str (sType col)); [|by injection H as <-].
  destruct (detect_column_spec date_parse d i col s Ec) as (t & s1 & E & Q & _). rewrite E in H. cbn in H.
  injection H as <-. by apply Hu.
Qed.

Lemma column_types_frame date_parse d ks s s' : column_types date_parse d ks s = Some s' → sort_frame s s'.
Proof.
  revert s. induction ks as [|k ks IH]; intros s H; cbn [column_types] in H; [by injection H as <-|].
  destruct (column_type _ _ _ _) as [s1|] eqn:E; [|done]. cbn in H.
  transitivity s1; [by eapply column_type_frame|by apply IH].
Qed.

Lemma column_types_data date_parse d ks s s' : column_types date_parse d ks s = Some s' → aoData s' = aoData s.
Proof.
  revert s. induction ks as [|k ks IH]; intros s H; cbn [column_types] in H; [by injection H as <-|].
  destruct (column_type _ _ _ _) as [s1|] eqn:E; [|done]. cbn in H. rewrite (IH _ H). clear IH H.
  unfold column_type in E. destruct (aoColumns s !! k) as [col|] eqn:Ec; [|done]. cbn [mbind option_bind] in E.
  destruct (falsy_str (sType col) && negb (falsy_str (_sManualType col))); [by injection E as <-|].
  destruct (falsy_str (sType col)); [|by injection E as <-].
  destruct (detect_column_spec date_parse d k col s Ec) as (t & s2 & E2 & Q & _). rewrite E2 in E. injection E as <-.
  by rewrite <- (quiet_data _ _ Q).
Qed.

Lemma frame_columns s s' : sort_frame s s' → sort_columns s' = sort_columns s.
Proof.
  intros (_ & _ & H & Ha & Hf). unfold sort_columns. rewrite Ha, Hf.
  assert (∀ a, part_columns (aoColumns s') a = part_columns (aoColumns s) a) as Hp; [|by rewrite !Hp; destruct (aaSortingFixed s); rewrite ?Hp].
  intros [a|]; [|done]. cbn [part_columns]. apply list_bind_ext; [|done]. intros e. unfold entry_columns.
  by rewrite <- !list_lookup_fmap, H.
Qed.

(** Columns do not change when the keys are loaded. *)
Definition load_frame (s s' : settings) : Prop := sort_frame s s' ∧ aoColumns s' = aoColumns s.
#[export] Instance load_frame_preorder : PreOrder load_frame.
Proof. split; [by intros s|]. intros s1 s2 s3 [A1 A2] [B1 B2]. split; [by transitivity s2|congruence]. Qed.

Lemma upd_row_frame i f s : load_frame s (upd_row i f s).
Proof. by destruct s. Qed.

(** ** The sort keys *)

(** The sort key kept in a row for column [c], and in row [i] of a table. *)
Definition row_key (c : nat) (r : row) : val := default VUndef (keys ← _aSortData r; keys !! c).
Definition stored_key (s : settings) (i c : nat) : val :=
  match aoData s !! i with Some r => row_key c r | None => VUndef end.

Lemma key_of_row r c : key_of r c = row_key c r.
Proof. unfold key_of, row_key. by destruct (_aSortData r). Qed.

Lemma key_of_stored s i c : key_of (row_at s i) c = stored_key s i c.
Proof. unfold row_at, stored_key. rewrite key_of_row. by destruct (aoData s !! i). Qed.

(** A row but for its sort keys. *)
Definition same_data (r r' : row) : Prop := set_aSortData None r = set_aSortData None r'.
#[export] Instance same_data_equiv : Equivalence same_data.
Proof. unfold same_data. split; [done|by intros ??|]. intros ???. congruence. Qed.

Lemma same_data_cell col r r' ty : same_data r r' → cell_value col r' ty = cell_value col r ty.
Proof. unfold same_data, cell_value. destruct r, r'. cbn. by intros [= -> -> -> ->]. Qed.

Lemma upd_row_lookup i j f s : aoData (upd_row i f s) !! j = if decide (j = i) then f <$> aoData s !! j else aoData s !! j.
Proof.
  unfold upd_row. cbn [aoData set_aoData]. case_decide as E; [subst; apply list_lookup_alter_eq|by apply list_lookup_alter_ne].
Qed.

Section load.
Variable toLowerCase : jstring → jstring.
Variable date_parse : jstring → num.
Variable decimals : list jstring.
Variable ext_order : jstring → option (settings → nat → list val).

Lemma sort_data_rows_frame col custom idx ks s s' :
  aoColumns s !! idx = Some col →
  sort_data_rows toLowerCase date_parse decimals col custom idx ks s = Some s' → load_frame s s'.
Proof.
  revert s. induction ks as [|i ks IH]; intros s Hc H; cbn [sort_data_rows] in H; [by injection H as <-|].
  destruct (aoData s !! i) as [r|] eqn:Er; [|done]. cbn [mbind option_bind] in H.
  assert (∀ s1 f, load_frame s s1 →
    sort_data_rows toLowerCase date_parse decimals col custom idx ks (upd_row i f s1) = Some s' → load_frame s s') as Hstep.
  { intros s1 f H1 H2. transitivity (upd_row i f s1); [by transitivity s1; [|apply upd_row_frame]|].
    apply IH; [|done]. destruct H1 as [_ H1]. cbn. by rewrite H1. }
  destruct (negb (truthy (key_of r idx)) || _); [|by eapply Hstep; [|exact H]].
  destruct custom as [d|]; cbn in H; [by eapply Hstep; [|exact H]|].
  destruct (get_cell_spec s i idx (Some "sort"%js) col r Hc Er) as (s1 & E & Q). rewrite E in H. cbn in H.
  eapply Hstep; [|exact H]. split; [by apply quiet_frame|by apply quiet_columns].
Qed.

Lemma load_sort_data_frame l s s' :
  load_sort_data toLowerCase date_parse decimals ext_order l s = Some s' → load_frame s s'.
Proof.
  revert s. induction l as [|f l IH]; intros s H; cbn [load_sort_data] in H; [by injection H as <-|].
  destruct (_fnSortData _ _ _ _ (f_col f) s) as [s1|] eqn:E; [|done]. cbn in H.
  transitivity s1; [|by apply IH]. unfold _fnSortData in E.
  destruct (aoColumns s !! f_col f) as [col|] eqn:Ec; [|done]. cbn in E. by eapply sort_data_rows_frame.
Qed.
(** The sort key of a row for column [c]: the key it has, unless that counts as none, or else the
    data of the cell for sorting, through the formatter of the type of the column. *)
Definition sort_key (c : nat) (col : column) (r : row) : val :=
  if truthy (row_key c r) then row_key c r
  else
    let v := cell_value col r (Some "sort"%js) in
    match pre toLowerCase date_parse decimals (default "null"%js (sType col)) with Some f => f v | None => v end.

(** How the rows are after the keys of the columns [l] were filled in: a row keeps its data, the
    other keys, and gets the sort key of each column without a sort data source. *)
Definition filled (l : list nat) (s s' : settings) (i : nat) : Prop :=
  ∀ r, aoData s !! i = Some r → ∃ r', aoData s' !! i = Some r' ∧ same_data r r'
    ∧ (∀ c, c ∉ l → row_key c r' = row_key c r)
    ∧ ∀ c col, c ∈ l → aoColumns s !! c = Some col → ext_order (sSortDataType col) = None →
        row_key c r' = sort_key c col r.

Lemma sort_key_again c col r r' :
  same_data r r' → row_key c r' = sort_key c col r ∨ row_key c r' = row_key c r → sort_key c col r' = sort_key c col r.
Proof.
  intros Hd H. unfold sort_key at 1. rewrite (same_data_cell col r r' _ Hd). destruct H as [-> | ->].
  - destruct (truthy (sort_key c col r)) eqn:E; [done|]. unfold sort_key in *. destruct (truthy (row_key c r)) eqn:Ek; congruence.
  - unfold sort_key. done.
Qed.

Lemma filled_trans l l' s s1 s2 i :
  aoColumns s1 = aoColumns s → filled l s s1 i → filled l' s1 s2 i → filled (l ++ l') s s2 i.
Proof.
  intros Hc H1 H2 r Hr. destruct (H1 r Hr) as (r1 & Hr1 & D1 & K1 & F1).
  destruct (H2 r1 Hr1) as (r2 & Hr2 & D2 & K2 & F2). exists r2. split; [done|]. split; [by transitivity r1|]. split.
  - intros c [Hn1 Hn2]%not_elem_of_app. by rewrite K2, K1.
  - intros c col Hin Hcol Ho. rewrite Hc in F2. destruct (decide (c ∈ l')) as [Hl'|Hl'].
    + rewrite (F2 c col Hl' Hcol Ho). apply sort_key_again; [done|].
      destruct (decide (c ∈ l)); [left|right]; auto.
    + rewrite (K2 c Hl'). apply elem_of_app in Hin as [Hl|]; [by apply F1|done].
Qed.

(** What one row of the loop does. *)
Lemma sort_row_step col (custom : option (list val)) idx i s r g s1 :
  (ext_order (sSortDataType col) = None → custom = None) → aoColumns s !! idx = Some col → aoData s !! i = Some r →
  aoData s1 = aoData s → same_data r (g r) → (∀ c, c ≠ idx → row_key c (g r) = row_key c r) →
  (custom = None → row_key idx (g r) = sort_key idx col r) →
  filled [idx] s (upd_row i g s1) i.
Proof.
  intros Hcu Hcol Hr Hs1 Hd Hk Hi r0 Hr0. assert (r0 = r) as -> by congruence. exists (g r).
  rewrite upd_row_lookup, decide_True, Hs1, Hr by done. split_and!; [done|done| |].
  - intros c Hc. apply Hk. intros ->. apply Hc. by left.
  - intros c col' ->%list_elem_of_singleton Hcol' Ho. assert (col' = col) as -> by congruence. auto.
Qed.

Lemma sort_data_rows_keys col custom idx ks s s' :
  (ext_order (sSortDataType col) = None → custom = None) → aoColumns s !! idx = Some col → NoDup ks →
  sort_data_rows toLowerCase date_parse decimals col custom idx ks s = Some s' →
  ∀ i, (i ∈ ks → filled [idx] s s' i) ∧ (i ∉ ks → aoData s' !! i = aoData s !! i).
Proof.
  intros Hcu. revert s. induction ks as [|k ks IH]; intros s Hc Hn H; cbn [sort_data_rows] in H.
  { injection H as <-. split; [by intros ?%elem_of_nil|done]. }
  apply NoDup_cons in Hn as [Hk Hn].
  destruct (aoData s !! k) as [r|] eqn:Er; [|done]. cbn [mbind option_bind] in H.
  assert (∀ g s1, aoData s1 = aoData s → aoColumns s1 = aoColumns s → filled [idx] s (upd_row k g s1) k →
    sort_data_rows toLowerCase date_parse decimals col custom idx ks (upd_row k g s1) = Some s' →
    ∀ i, (i ∈ k :: ks → filled [idx] s s' i) ∧ (i ∉ k :: ks → aoData s' !! i = aoData s !! i)) as Hstep.
  { intros g s1 Hs1 Hc1 Hf H2 i. assert (aoColumns (upd_row k g s1) = aoColumns s) as Hc2 by exact Hc1.
    destruct (IH (upd_row k g s1)) with (i := i) as [I1 I2]; [by rewrite Hc2|done|exact H2|].
    rewrite upd_row_lookup, Hs1 in I2. destruct (decide (i = k)) as [->|Hne].
    - split; [intros _|intros Hni; destruct Hni; by left]. intros r0 Hr0. destruct (Hf r0 Hr0) as (r' & E & F).
      exists r'. split; [|exact F]. rewrite I2 by done. rewrite upd_row_lookup, decide_True, Hs1 in E by done. exact E.
    - split; [intros [->|Hi]%elem_of_cons; [done|]|intros [_ Hi]%not_elem_of_cons; by apply I2].
      specialize (I1 Hi). unfold filled in I1 |- *. by rewrite upd_row_lookup, decide_False, Hs1, Hc2 in I1. }
  clear IH. destruct (negb (truthy (key_of r idx)) || _) eqn:Eb.
  - assert (∃ v s1, aoData s1 = aoData s ∧ aoColumns s1 = aoColumns s ∧
      (custom = None → v = cell_value col r (Some "sort"%js)) ∧
      sort_data_rows toLowerCase date_parse decimals col custom idx ks
        (upd_row k (λ r, set_aSortData (Some (<[idx := match pre toLowerCase date_parse decimals (default "null"%js (sType col))
           with Some f => f v | None => v end]> (default ∅ (_aSortData r)))) r) s1) = Some s') as (v & s1 & D & C & V & H1).
    { destruct custom as [d|]; cbn in H; [eexists _, s; split_and!; [done|done| |exact H]; done|].
      destruct (get_cell_spec s k idx (Some "sort"%js) col r Hc Er) as (s1 & E & Q). rewrite E in H. cbn in H.
      exists (cell_value col r (Some "sort"%js)), s1.
      split_and!; [by apply quiet_data|by apply quiet_columns|done|exact H]. }
    eapply Hstep; [exact D|exact C| |exact H1]. eapply sort_row_step; eauto; [by destruct r| |].
    + intros c Hne. unfold row_key. cbn. rewrite lookup_insert_ne by done. by destruct (_aSortData r).
    + intros E. rewrite E, orb_false_r, negb_true_iff, key_of_row in Eb. unfold sort_key. rewrite Eb, <- (V E).
      unfold row_key. cbn. by rewrite lookup_insert_eq.
  - eapply Hstep; [done|done| |exact H]. eapply sort_row_step; eauto; [by destruct r| |].
    + intros c _. unfold row_key. cbn. by destruct (_aSortData r).
    + intros E. rewrite E, orb_false_r, negb_false_iff, key_of_row in Eb. unfold sort_key. rewrite Eb.
      unfold row_key. cbn. by destruct (_aSortData r).
Qed.

Lemma load_sort_data_keys l s s' i :
  load_sort_data toLowerCase date_parse decimals ext_order l s = Some s' → filled (f_col <$> l) s s' i.
Proof.
  revert s. induction l as [|f l IH]; intros s H; cbn [load_sort_data] in H.
  { injection H as <-. intros r Hr. exists r. split_and!; [done|done|done|]. by intros c col Hc%elem_of_nil. }
  destruct (_fnSortData _ _ _ _ (f_col f) s) as [s1|] eqn:E; [|done]. cbn in H.
  change (f_col <$> f :: l) with ([f_col f] ++ (f_col <$> l)).
  unfold _fnSortData in E. destruct (aoColumns s !! f_col f) as [col|] eqn:Ec; [|done]. cbn [mbind option_bind] in E.
  apply (filled_trans _ _ s s1 s'); [by apply sort_data_rows_frame in E as [_ ->]| |by apply IH].
  eapply sort_data_rows_keys with (i := i) in E as [E _]; [|by intros ->|done|apply NoDup_seq].
  intros r Hr. apply E; [|done]. apply lookup_lt_Some in Hr. apply elem_of_seq. lia.
Qed.
End load.

(** ** The sort *)

Definition dir_cmp (dir : jstring) : val → val → Z :=
  if dir =s? "asc"%js then val_cmp else λ x y, (- val_cmp x y)%Z.
Definition ref_cmps (cols : list (nat * jstring)) : list (nat * (val → val → Z)) :=
  (λ cd, (cd.1, dir_cmp cd.2)) <$> cols.

(** [x] stands before [y] in a column sorted in the direction [d]. *)
Definition key_before (d : jstring) (x y : val) : Prop :=
  if d =s? "asc"%js then val_lt x y = true else val_lt y x = true.

(** Row [a] stands before row [b] in the lexicographic order of the sorted columns: the first of
    them whose keys differ decides, and rows that differ in none keep the order of [master]. *)
Inductive row_before (s : settings) (master : list nat) (a b : nat) : list (nat * jstring) → Prop :=
| before_here c d cols :
    key_before d (stored_key s a c) (stored_key s b c) → row_before s master a b ((c, d) :: cols)
| before_later c d cols :
    ¬ key_before d (stored_key s a c) (stored_key s b c) →
    ¬ key_before d (stored_key s b c) (stored_key s a c) →
    row_before s master a b cols → row_before s master a b ((c, d) :: cols)
| before_old : before master a b → row_before s master a b [].

(** The keys of a column can be compared: all are texts, or all are numbers other than NaN. *)
Definition comparable (s : settings) (master : list nat) (c : nat) : Prop :=
  (∀ i, i ∈ master → str_key (stored_key s i c)) ∨ (∀ i, i ∈ master → num_key (stored_key s i c)).

Lemma consistent_weaken {A B} (P : A → Prop) (Q : B → Prop) (g : B → A) (cmp : A → A → Z) :
  (∀ x, Q x → P (g x)) → consistent P cmp → consistent Q (λ x y, cmp (g x) (g y)).
Proof. intros H [Ha Ht]. split; eauto. Qed.

Lemma ref_cmps_consistent s master cols :
  Forall (λ cd, comparable s master cd.1) cols →
  consistent (λ r, ∃ i, i ∈ master ∧ r = row_at s i) (first_cmp (ref_cmps cols)).
Proof.
  intros H. apply first_cmp_consistent. unfold ref_cmps. rewrite Forall_fmap. eapply Forall_impl; [exact H|].
  intros [c d] Hc. cbn [fst snd compose]. unfold dir_cmp.
  assert (consistent (λ r, ∃ i, i ∈ master ∧ r = row_at s i) (λ a b, val_cmp (key_of a c) (key_of b c))) as Hv.
  { destruct Hc as [Hc|Hc]; [apply (consistent_weaken str_key _ (λ r, key_of r c))|apply (consistent_weaken num_key _ (λ r, key_of r c))];
      [intros r (i & Hi & ->); rewrite key_of_stored; by apply Hc|apply str_keys_consistent|intros r (i & Hi & ->); rewrite key_of_stored; by apply Hc|apply num_keys_consistent]. }
  destruct (d =s? "asc"%js); [done|]. by apply consistent_opp.
Qed.

Lemma comparable_anti s master c i j :
  comparable s master c → i ∈ master → j ∈ master →
  val_lt (stored_key s i c) (stored_key s j c) = true → val_lt (stored_key s j c) (stored_key s i c) = false.
Proof.
  intros Hc Hi Hj Hlt.
  assert (val_cmp (stored_key s j c) (stored_key s i c) = (- val_cmp (stored_key s i c) (stored_key s j c))%Z) as Ha
    by (destruct Hc as [Hc|Hc]; [apply (cmp_anti _ _ str_keys_consistent)|apply (cmp_anti _ _ num_keys_consistent)]; auto).
  unfold val_cmp in Ha. rewrite Hlt in Ha. by destruct (val_lt (stored_key s j c) (stored_key s i c)).
Qed.

(** The comparisons of the code decide that order. *)
Lemma first_cmp_before s master cols a b :
  Forall (λ cd, comparable s master cd.1) cols → a ∈ master → b ∈ master →
  (first_cmp (ref_cmps cols) (row_at s a) (row_at s b) < 0)%Z
  ∨ first_cmp (ref_cmps cols) (row_at s a) (row_at s b) = 0%Z ∧ before master a b
  ↔ row_before s master a b cols.
Proof.
  intros H Ha Hb. induction H as [|[c d] cols Hc _ IH].
  { cbn. split; [intros [H|[_ H]]; [lia|by constructor]|inversion 1; auto]. }
  cbn [fst] in Hc. pose proof (comparable_anti s master c a b Hc Ha Hb) as Hab.
  pose proof (comparable_anti s master c b a Hc Hb Ha) as Hba.
  change (ref_cmps ((c, d) :: cols)) with ((c, dir_cmp d) :: ref_cmps cols). cbn [first_cmp]. cbv zeta.
  rewrite !key_of_stored.
  assert (row_before s master a b ((c, d) :: cols) ↔
    key_before d (stored_key s a c) (stored_key s b c)
    ∨ ¬ key_before d (stored_key s a c) (stored_key s b c) ∧ ¬ key_before d (stored_key s b c) (stored_key s a c)
      ∧ row_before s master a b cols) as ->.
  { split; [inversion 1; subst; auto|]. intros [H|(H1 & H2 & H3)]; [by apply before_here|by apply before_later]. }
  rewrite <- IH. clear IH. unfold dir_cmp, key_before, val_cmp.
  destruct (d =s? "asc"%js), (val_lt (stored_key s a c) (stored_key s b c)) eqn:E1,
    (val_lt (stored_key s b c) (stored_key s a c)) eqn:E2; cbn;
    try (specialize (Hab eq_refl); done); intuition (lia || done).
Qed.

(** Without columns to sort by, the order is the one there was. *)
Lemma master_sorted master : StronglySorted (λ a b, (0 < 0)%Z ∨ 0%Z = 0%Z ∧ before master a b) master.
Proof.
  assert (∀ l l', l ++ l' = master → StronglySorted (λ a b, (0 < 0)%Z ∨ 0%Z = 0%Z ∧ before master a b) l') as Hgen; [|by apply (Hgen [])].
  intros l l'. revert l. induction l' as [|x l' IH]; intros l E; [constructor|]. constructor.
  - apply (IH (l ++ [x])). by rewrite <- app_assoc.
  - apply Forall_forall. intros y [j Hj]%list_elem_of_lookup. right. split; [done|].
    exists (length l), (length l + S j). rewrite <- E.
    rewrite list_lookup_middle by done. split_and!; [done| |lia].
    rewrite lookup_app_r by lia. by replace (length l + S j - length l) with (S j) by lia.
Qed.

(** Sorted by the comparisons of the code: sorted in the lexicographic order. *)
Lemma ordered_iff s master cols l :
  Forall (λ cd, comparable s master cd.1) cols → l ≡ₚ master →
  StronglySorted (λ a b, (first_cmp (ref_cmps cols) (row_at s a) (row_at s b) < 0)%Z
    ∨ first_cmp (ref_cmps cols) (row_at s a) (row_at s b) = 0%Z ∧ before master a b) l
  ↔ StronglySorted (λ a b, row_before s master a b cols) l.
Proof.
  intros Hc Hp. assert (Forall (λ x, x ∈ master) l) as Hl by (apply Forall_forall; intros x Hx; by rewrite <- Hp).
  pose proof (λ a b, first_cmp_before s master cols a b Hc) as Hiff. clear Hp Hc.
  induction Hl as [|x l Hx Hl IH]; [split; constructor|]. rewrite Forall_forall in Hl.
  split; (intros H; inversion H as [|? ? H1 H2]; subst; constructor; [by apply IH|]); rewrite Forall_forall in *;
    intros y Hy; specialize (H2 y Hy); apply Hiff; auto.
Qed.

Section sort_correct.
Variable toLowerCase : jstring → jstring.
Variable date_parse : jstring → num.
Variable decimals : list jstring.
Variable ext_order : jstring → option (settings → nat → list val).
Variable ext_sort : jstring → option (val → val → Z).

Lemma cmps_of_fast cols l fs :
  flat_ok cols l fs →
  Forall (λ cd, ∃ c, cols !! cd.1 = Some c ∧ pre toLowerCase date_parse decimals (col_type c) ≠ None) l →
  cmps_of toLowerCase date_parse decimals ext_sort fs = Some (ref_cmps l).
Proof.
  intros [<- Ht] Hl. rewrite Forall_fmap in Hl. unfold cmps_of, ref_cmps.
  assert (forallb (λ f, some_b (pre toLowerCase date_parse decimals (f_type f))) fs = true) as ->.
  { apply forallb_forall. intros f Hf%list_elem_of_In. rewrite Forall_forall in Ht, Hl.
    destruct (Ht f Hf) as (c & Hc & ->), (Hl f Hf) as (c' & Hc' & Hp). cbn in Hc', Hp.
    assert (c' = c) as -> by congruence. by destruct (pre _ _ _ _). }
  apply mapM_Some. clear Ht Hl. induction fs as [|f fs IH]; cbn; constructor; [|exact IH].
  unfold dir_cmp. by destruct (f_dir f =s? "asc"%js).
Qed.

(** C9: a sort of a table whose data is in the browser, by columns with sort formatters whose
    keys can be compared, permutes the rows, orders them lexicographically by the keys of the
    sorted columns and their directions, keeps the previous order of rows that tie, and is the only
    such order; the key of a row for a sorted column without a sort data source is its cell's data
    for sorting, through the formatter of the column's type, or the key that the row had cached. *)
Theorem sort_correct s s' :
  _fnSort toLowerCase date_parse decimals ext_order ext_sort s = Some s' →
  bServerSide s = false → NoDup (aiDisplayMaster s) →
  let master := aiDisplayMaster s in
  let ordered := StronglySorted (λ a b, row_before s' master a b (sort_columns s)) in
  Forall (λ cd, (∃ c, aoColumns s' !! cd.1 = Some c ∧ pre toLowerCase date_parse decimals (col_type c) ≠ None)
    ∧ comparable s' master cd.1) (sort_columns s) →
  aiDisplayMaster s' ≡ₚ master
  ∧ ordered (aiDisplayMaster s')
  ∧ (∀ l, l ≡ₚ master → ordered l → l = aiDisplayMaster s')
  ∧ (∀ i r c d col, aoData s !! i = Some r → (c, d) ∈ sort_columns s → aoColumns s' !! c = Some col →
       ext_order (sSortDataType col) = None → stored_key s' i c = sort_key toLowerCase date_parse decimals c col r)
  ∧ bSorted s' = true.
Proof.
  intros H Hs Hn master ordered [Hcols Hkeys]%Forall_and. unfold _fnSort in H.
  destruct (_fnColumnTypes date_parse _ s) as [s1|] eqn:E1; [|done]. cbn [mbind option_bind] in H.
  pose proof (column_types_data _ _ _ _ _ E1) as D1. apply column_types_frame in E1 as F1.
  destruct (_fnSortFlatten s1) as [[fs s2]|] eqn:E2; [|done]. cbn in H.
  destruct (flatten_spec s1 fs s2 E2) as (Hflat & a & b & ->). rewrite (frame_columns _ _ F1) in Hflat.
  destruct (load_sort_data _ _ _ _ fs _) as [s3|] eqn:E3; [|done]. cbn in H.
  pose proof (λ i, load_sort_data_keys _ _ _ _ _ _ _ i E3) as K3.
  apply load_sort_data_frame in E3 as [F3 C3].
  destruct F1 as (M1 & B1 & _), F3 as (M3 & B3 & _). cbn in M3, B3, C3.
  rewrite is_ssp_bServerSide, B3, B1, Hs in H. cbn [negb andb] in H.
  assert (∃ cmps, aiDisplayMaster s' = array_sort (row_cmp s3 (aiOrig master) cmps) master ∧ cmps = ref_cmps (sort_columns s)
    ∧ aoData s' = aoData s3 ∧ aoColumns s' = aoColumns s3 ∧ bSorted s' = true) as (cmps & Hm' & -> & Hd' & Hc' & Hb').
  { assert (aiDisplayMaster s3 = master) as Hm by (rewrite M3; exact M1). destruct (decide (fs = [])) as [->|Hne].
    - rewrite bool_decide_eq_true_2 in H by done. injection H as <-. destruct Hflat as [Hc _]. cbn in Hc. rewrite <- Hc.
      eexists; split_and!; [|done|done|done|done]. cbn [aiDisplayMaster set_bSorted]. rewrite Hm.
      destruct (sort_rows_spec s3 master [] Hn) as (_ & _ & S3); [by split|]. apply S3; [done|]. apply master_sorted.
    - rewrite bool_decide_eq_false_2 in H by done. destruct (cmps_of _ _ _ _ fs) as [cmps|] eqn:Ec; [|done]. injection H as <-.
      exists cmps. split_and!; [by cbn; rewrite Hm| |done|done|done].
      rewrite (cmps_of_fast (aoColumns s3) (sort_columns s) fs) in Ec; [by injection Ec|by rewrite C3|exact Hcols]. }
  assert (row_cmp s3 (aiOrig master) (ref_cmps (sort_columns s)) = row_cmp s' (aiOrig master) (ref_cmps (sort_columns s))) as Hst
    by (unfold row_cmp, row_at; by rewrite Hd').
  rewrite Hst in Hm'. destruct (sort_rows_spec s' master (ref_cmps (sort_columns s)) Hn) as (S1 & S2 & S3);
    [by apply ref_cmps_consistent|]. rewrite Hm'.
  split_and!; [done|by apply (ordered_iff s' master)|intros l Hp Hl; apply S3; [done|by apply (ordered_iff s' master)]| |done].
  intros i r c d col Hr Hin Hcol Ho. destruct (K3 i r) as (r' & Hr' & _ & _ & F).
  { cbn. by rewrite D1. }
  unfold stored_key. rewrite Hd', Hr'. apply F; [|by rewrite Hc', C3 in Hcol |done].
  destruct Hflat as [Hf _]. rewrite <- Hf in Hin. apply list_elem_of_fmap in Hin as (f & [= -> _] & Hin).
  apply list_elem_of_fmap. by exists f.
Qed.
End sort_correct.

(** Two columns, the first descending: a tie there is decided by the second, and a tie in both by
    the order before. *)
Example sort_correct_witness :
  let srt := _fnSort (λ s, s) (λ _, nan) [[]%js] (λ _, None) (λ _, None) in
  let cell k : val → option jstring → val := λ v _, match v with VArr l => default VUndef (l !! k) | _ => VUndef end in
  let col k := Column true true true None None [] [] [] VNull (cell k) VNull [k] ["asc"%js; "desc"%js] false [] VNull [] in
  let s := set_aaSorting (Many [Sorting 0 "desc"%js None; Sorting 1 "asc"%js None])
             (set_aoColumns [col 0; col 1]
               (sample_table ((λ p, VArr [VStr p.1; VStr p.2]) <$>
                 [("7", "b"); ("12", "a"); ("-", "c"); ("7.0", "a"); ("7", "a")]%js))) in
  ∃ s', srt s = Some s' ∧ aiDisplayMaster s' = [1; 3; 4; 0; 2]
    ∧ StronglySorted (λ a b, row_before s' [0; 1; 2; 3; 4] a b (sort_columns s)) (aiDisplayMaster s').
Proof.
  intros srt cell col s. destruct (srt s) as [s'|] eqn:E; [|vm_compute in E; discriminate].
  exists s'. split; [done|]. split; [vm_compute in E; injection E as <-; reflexivity|].
  apply (sort_correct (λ s, s) (λ _, nan) [[]%js] (λ _, None) (λ _, None) s s' E eq_refl).
  - apply (bool_decide_eq_true_1 _). vm_compute. reflexivity.
  - vm_compute in E. injection E as <-. apply Forall_cons; split; [split|apply Forall_cons; split; [split|constructor]].
    all: try (eexists; split; [reflexivity|]; intros H; apply (f_equal some_b) in H; vm_compute in H; discriminate).
    + right. intros i Hi. repeat (apply elem_of_cons in Hi as [->|Hi]; [vm_compute; eexists; split; reflexivity|]).
      by apply elem_of_nil in Hi.
    + left. intros i Hi. repeat (apply elem_of_cons in Hi as [->|Hi]; [vm_compute; eexists; reflexivity|]).
      by apply elem_of_nil in Hi.
Defined.

(** ** Clicks on the headers *)

(** An entry with a direction its column offers, at the index recorded for it. *)
Definition entry_ok (cols : list column) (e : sorting) : Prop :=
  ∃ c i, cols !! s_col e = Some c ∧ s_idx e = Some (Z.of_nat i) ∧ asSorting c !! i = Some (s_dir e).

Definition sorting_ok (cols : list column) (l : list sorting) : Prop :=
  Forall (entry_ok cols) l ∧ NoDup (s_col <$> l).

Lemma entry_ok_at cols c col i :
  cols !! c = Some col → i < length (asSorting col) →
  entry_ok cols (Sorting c (dir_at (asSorting col) (Z.of_nat i)) (Some (Z.of_nat i))).
Proof.
  intros Hc Hi. exists col, i. split_and!; [done|done|]. unfold dir_at. rewrite Nat2Z.id. cbn [s_dir].
  by destruct (lookup_lt_is_Some_2 _ _ Hi) as [d ->].
Qed.

Lemma next_sort_ok cols col e overflow :
  entry_ok cols e → cols !! s_col e = Some col →
  ∃ i, asSorting col !! i = Some (s_dir e) ∧
    next_sort (asSorting col) e overflow
    = if bool_decide (S i < length (asSorting col)) then Some (Z.of_nat (S i))
      else if overflow then None else Some 0%Z.
Proof.
  intros (c & i & Hc & Hi & Hd) Hcol. assert (c = col) as -> by congruence. exists i. split; [done|].
  unfold next_sort. rewrite Hi. cbv zeta.
  destruct (Z.ltb_spec (Z.of_nat i + 1) (Z.of_nat (length (asSorting col)))).
  - rewrite bool_decide_eq_true_2 by lia. f_equal. lia.
  - by rewrite bool_decide_eq_false_2 by lia.
Qed.

Lemma inArray_spec {A} `{EqDecision A} (x : A) l :
  (inArray x l = -1 ∧ x ∉ l)%Z ∨ ∃ i, inArray x l = Z.of_nat i ∧ l !! i = Some x.
Proof.
  unfold inArray. destruct (list_find _ l) as [[i y]|] eqn:E.
  - apply list_find_Some in E as (Hi & -> & _). right. by exists i.
  - apply list_find_None in E. left. split; [done|]. intros Hx. rewrite Forall_forall in E. by apply (E x).
Qed.

(** An entry of the column is replaced, or removed. *)
Lemma entry_replaced cols l i e c col k :
  cols !! c = Some col → l !! i = Some e → s_col e = c → k < length (asSorting col) → Forall (entry_ok cols) l → NoDup (s_col <$> l) →
  let l2 := <[i := Sorting (s_col e) (dir_at (asSorting col) (Z.of_nat k)) (Some (Z.of_nat k))]> l in
  l2 ≠ [] ∧ sorting_ok cols l2 ∧ filter (λ e, s_col e ≠ c) l2 = filter (λ e, s_col e ≠ c) l.
Proof.
  intros Hc El Hec Hk Hok Hn l2. assert (i < length l) as Hil by by eapply lookup_lt_Some. split_and!.
  - intros H. apply (f_equal length) in H. unfold l2 in H. rewrite length_insert in H. cbn in H. lia.
  - split.
    + apply Forall_insert; [done|]. rewrite Hec. by apply entry_ok_at.
    + unfold l2. rewrite list_fmap_insert. cbn [s_col]. rewrite list_insert_id; [done|]. by rewrite list_lookup_fmap, El.
  - unfold l2. rewrite insert_take_drop by done. rewrite <- (take_drop_middle l i e El) at 3.
    rewrite !filter_app, !filter_cons_False by (cbn; rewrite ?Hec; tauto). done.
Qed.

Lemma entry_removed cols l i e c :
  l !! i = Some e → s_col e = c → length l ≠ 1 → Forall (entry_ok cols) l → NoDup (s_col <$> l) →
  delete i l ≠ [] ∧ sorting_ok cols (delete i l) ∧ filter (λ e, s_col e ≠ c) (delete i l) = filter (λ e, s_col e ≠ c) l.
Proof.
  intros El Hec H1 Hok Hn. assert (i < length l) as Hil by by eapply lookup_lt_Some. split_and!.
  - intros H. apply (f_equal length) in H. rewrite length_delete in H by by exists e. cbn in H. lia.
  - split; [by apply Forall_delete|]. rewrite list_fmap_delete. by eapply sublist_NoDup, sublist_delete.
  - rewrite delete_take_drop. rewrite <- (take_drop_middle l i e El) at 3.
    by rewrite !filter_app, filter_cons_False by (cbn; tauto).
Qed.

(** A click on the header of a column that offers a direction leaves a legal, non-empty list
    of sorted columns without repetition; without the shift key it is that column alone, with the
    direction after the one it had, cyclically, or the first; with it, the other columns keep
    their directions. *)
Theorem listener_correct s c col append :
  aoColumns s !! c = Some col → asSorting col ≠ [] → sorting_ok (aoColumns s) (entries (aaSorting s)) →
  let l := entries (aaSorting s) in
  let l' := listener_sorting s col c append in
  l' ≠ [] ∧ sorting_ok (aoColumns s) l'
  ∧ (append && bSortMulti s = false → ∃ i, l' = [Sorting c (dir_at (asSorting col) (Z.of_nat i)) (Some (Z.of_nat i))]
       ∧ match l with
         | e :: _ => if bool_decide (s_col e = c)
                     then ∃ j, asSorting col !! j = Some (s_dir e) ∧ i = S j mod length (asSorting col)
                     else i = 0
         | [] => i = 0
         end)
  ∧ (append && bSortMulti s = true → filter (λ e, s_col e ≠ c) l' = filter (λ e, s_col e ≠ c) l).
Proof.
  intros Hc Hne [Hok Hn] l l'. assert (0 < length (asSorting col)) as Hlen by (destruct (asSorting col); [done|cbn; lia]).
  assert (sorting_ok (aoColumns s) [Sorting c (dir_at (asSorting col) 0) (Some 0%Z)]) as Hfirst.
  { split; [constructor; [by apply (entry_ok_at _ c col 0)|constructor]|apply NoDup_singleton]. }
  unfold l', listener_sorting. fold l. fold l in Hok, Hn. clear l'. clearbody l. destruct (append && bSortMulti s).
  - (* another column *)
    destruct (inArray_spec c (s_col <$> l)) as [[-> Hnot]|(i & Hi & Hli)].
    + rewrite Z.eqb_refl. split_and!; [by destruct l| |done|].
      * split; [apply Forall_app; split; [done|apply Hfirst]|]. rewrite fmap_app. apply NoDup_app.
        split_and!; [done| |apply NoDup_singleton]. intros x Hx ->%list_elem_of_singleton. done.
      * intros _. rewrite filter_app, filter_cons_False by (cbn; tauto). by rewrite app_nil_r.
    + rewrite list_lookup_fmap in Hli. destruct (l !! i) as [e|] eqn:El; [|done]. injection Hli as Hec.
      assert ((inArray c (s_col <$> l) =? -1)%Z = false) as -> by (rewrite Hi; lia).
      rewrite Hi, Nat2Z.id. cbv zeta. rewrite El.
      assert (entry_ok (aoColumns s) e) as He by (by eapply Forall_lookup_1).
      destruct (next_sort_ok _ col e true He) as (j & Hj & ->); [by rewrite Hec|].
      pose proof (λ k Hk, entry_replaced _ l i e c col k Hc El Hec Hk Hok Hn) as Hins.
      case_bool_decide as Hlt; [|case_bool_decide as H1].
      * destruct (Hins (S j) Hlt) as (A1 & A2 & A4). by split_and!.
      * destruct (Hins 0 Hlen) as (A1 & A2 & A4). by split_and!.
      * destruct (entry_removed _ l i e c El Hec H1 Hok Hn) as (A1 & A2 & A4). by split_and!.
  - (* this column alone *)
    destruct l as [|e l0] eqn:El.
    { split_and!; [done|done| |done]. intros _. by exists 0. }
    destruct (decide (s_col e = c)) as [Hec|Hec].
    + rewrite !bool_decide_eq_true_2 by done. apply Forall_cons in Hok as [He _].
      destruct (next_sort_ok _ col e false He) as (j & Hj & ->); [by rewrite Hec|].
      assert (j < length (asSorting col)) as Hjl by by eapply lookup_lt_Some.
      rewrite Hec. case_bool_decide as Hlt.
      * split_and!; [done| |intros _; exists (S j); split; [done|]|done].
        -- split; [constructor; [by apply entry_ok_at|constructor]|apply NoDup_singleton].
        -- exists j. split; [done|]. symmetry. by apply Nat.mod_small.
      * split_and!; [done|done|intros _; exists 0; split; [done|]|done].
        exists j. split; [done|]. assert (S j = length (asSorting col)) as -> by lia. symmetry. apply Nat.Div0.mod_same.
    + rewrite !bool_decide_eq_false_2 by done. split_and!; [done|done|intros _; by exists 0|done].
Qed.

Example listener_correct_witness :
  let s := set_aaSorting (Many [Sorting 0 "desc"%js (Some 1%Z)]) (sample_table []) in
  let col := sample_column (λ v _, v) in
  listener_sorting s col 0 false = [Sorting 0 "asc"%js (Some 0%Z)]
  ∧ sorting_ok (aoColumns s) (listener_sorting s col 0 false).
Proof.
  intros s col. split; [reflexivity|].
  apply (listener_correct s 0 col false eq_refl); [done|].
  split; [|apply NoDup_singleton]. constructor; [|constructor]. by exists col, 1.
Defined.
