(* ===== verification/JsRegExp.v ===== *)
(** * Regular expressions

    The part of the syntax of regular expressions that literal and smart searches use, and the
    usual operators: units, escaped units, the dot, groups, lookahead, alternatives, the
    quantifiers star, plus and question mark, lazy or not, and the anchors.  A test only asks
    whether there is a match, so that the order in which matches are tried does not matter. *)

From S2P Require Import Prelude JsString DtUtil.

Inductive re :=
  | REmpty
  | RChar (u : N)
  | RAny
  | RSeq (a b : re)
  | RAlt (a b : re)
  | RStar (a : re)
  | RPlus (a : re)
  | ROpt (a : re)
  | RLook (a : re)
  | RBegin
  | REnd.

(** ** Syntax *)

Definition alt_of (a : option re) (r : re) : re := match a with Some a => RAlt a r | None => r end.

(** A quantifier behind an atom. *)
Definition lazy_mark (p : jstring) : jstring := match p with u :: t => if (u =? 63)%N then t else p | [] => [] end.
Definition quantified (r : re) (p : jstring) : re * jstring :=
  match p with
  | u :: t =>
      if (u =? 42)%N then (RStar r, lazy_mark t)
      else if (u =? 43)%N then (RPlus r, lazy_mark t)
      else if (u =? 63)%N then (ROpt r, lazy_mark t)
      else (r, p)
  | [] => (r, [])
  end.

(** The pattern up to its end or to a closing parenthesis, which is left; [None]: not in the
    syntax.  The fuel is the length of the pattern. *)
Fixpoint parse (fuel : nat) (alt : option re) (acc : re) (p : jstring) : option (re * jstring) :=
  match fuel, p with
  | _, [] => Some (alt_of alt acc, [])
  | O, _ => None
  | S n, u :: t =>
      if (u =? 41)%N then Some (alt_of alt acc, p)                        (* ')' *)
      else if (u =? 124)%N then parse n (Some (alt_of alt acc)) REmpty t  (* '|' *)
      else if (u =? 94)%N then parse n alt (RSeq acc RBegin) t            (* '^' *)
      else if (u =? 36)%N then parse n alt (RSeq acc REnd) t              (* '$' *)
      else if (u =? 40)%N then                                            (* '(' *)
        let '(look, inner) := match t with
                              | 63%N :: 61%N :: t' => (true, t')          (* '?=' *)
                              | 63%N :: 58%N :: t' => (false, t')         (* '?:' *)
                              | _ => (false, t)
                              end in
        match parse n None REmpty inner with
        | Some (r, c :: rest) =>
            let '(r, rest) := if look then (RLook r, rest) else quantified r rest in
            parse n alt (RSeq acc r) rest
        | _ => None
        end
      else if (u =? 92)%N then                                            (* '\' *)
        match t with
        | c :: t => if re_special c
                    then let '(r, rest) := quantified (RChar c) t in parse n alt (RSeq acc r) rest
                    else None
        | [] => None
        end
      else if (u =? 46)%N then let '(r, rest) := quantified RAny t in parse n alt (RSeq acc r) rest
      else if bool_decide (u ∈ ("*+?[{"%js : jstring)) then None
      else let '(r, rest) := quantified (RChar u) t in parse n alt (RSeq acc r) rest
  end.

Definition parse_re (p : jstring) : option re :=
  match parse (length p) None REmpty p with Some (r, []) => Some r | _ => None end.

(** ** Matching *)

Section matching.
(** The case folding of the flag [i], the identity without it. *)
Variable canon : N → N.

(** The positions reached from [i] by any number of steps that advance. *)
Fixpoint star (step : nat → list nat) (fuel i : nat) : list nat :=
  i :: match fuel with
       | O => []
       | S n => flat_map (λ j, if bool_decide (i < j) then star step n j else []) (step i)
       end.

(** The ends of the matches of [r] in [s] that start at [i]. *)
Fixpoint ends (r : re) (s : jstring) (i : nat) : list nat :=
  match r with
  | REmpty => [i]
  | RChar u => match s !! i with Some v => if (canon v =? canon u)%N then [S i] else [] | None => [] end
  | RAny => match s !! i with Some v => if line_end v then [] else [S i] | None => [] end
  | RSeq a b => flat_map (ends b s) (ends a s i)
  | RAlt a b => ends a s i ++ ends b s i
  | RStar a => star (ends a s) (length s - i) i
  | RPlus a => flat_map (λ j, star (ends a s) (length s - j) j) (ends a s i)
  | ROpt a => i :: ends a s i
  | RLook a => match ends a s i with [] => [] | _ => [i] end
  | RBegin => if bool_decide (i = 0) then [i] else []
  | REnd => if bool_decide (i = length s) then [i] else []
  end.

(** [new RegExp(p, flags).test(s)] *)
Definition re_test (r : re) (s : jstring) : bool :=
  existsb (λ i, negb (bool_decide (ends r s i = []))) (seq 0 (S (length s))).
End matching.

Definition lower_ascii (u : N) : N := if ((65 <=? u) && (u <=? 90))%N then (u + 32)%N else u.

Example re_ex :
  (λ p, (λ r, re_test lower_ascii r "The Cat sat"%js) <$> parse_re p) <$>
    ["cat"%js; "^cat"%js; "c.t|dog"%js; "^(?=.*?sat)(?=.*?the).*$"%js; "a[b]"%js]
  = [Some true; Some false; Some true; Some true; None].
Proof. vm_compute. reflexivity. Qed.

(** ** Literal patterns *)

(** [w] stands at position [i] of [s], up to case. *)
Definition at_pos (canon : N → N) (w s : jstring) (i : nat) : Prop :=
  i + length w ≤ length s ∧ canon <$> take (length w) (drop i s) = canon <$> w.


#[export] Instance at_pos_dec canon w s i : Decision (at_pos canon w s i).
Proof. unfold at_pos. apply _. Defined.

(** [s] contains [w], up to case. *)
Definition contains_ci (canon : N → N) (w s : jstring) : bool :=
  existsb (λ i, bool_decide (at_pos canon w s i)) (seq 0 (S (length s))).

Lemma contains_ci_true canon w s : contains_ci canon w s = true ↔ ∃ i, at_pos canon w s i.
Proof.
  unfold contains_ci. rewrite existsb_exists. split.
  - intros (i & _ & Hi). exists i. by apply bool_decide_eq_true_1 in Hi.
  - intros [i Hi]. exists i. split; [|by apply bool_decide_eq_true_2].
    apply in_seq. destruct Hi as [Hi _]. lia.
Qed.

Definition chars (acc : re) (w : jstring) : re := foldl (λ a u, RSeq a (RChar u)) acc w.

(** What may follow a literal: the end, or a unit that is no quantifier. *)
Definition no_quantifier (p : jstring) : Prop :=
  match p with u :: _ => u ≠ 42%N ∧ u ≠ 43%N ∧ u ≠ 63%N | [] => True end.

Lemma quantified_none r p : no_quantifier p → quantified r p = (r, p).
Proof.
  destruct p as [|u p]; [done|]. intros (H1 & H2 & H3). cbn.
  apply N.eqb_neq in H1, H2, H3. by rewrite H1, H2, H3.
Qed.

Lemma special_quantifier u : re_special u = false → u ≠ 42%N ∧ u ≠ 43%N ∧ u ≠ 63%N ∧ u ≠ 41%N ∧ u ≠ 124%N
  ∧ u ≠ 94%N ∧ u ≠ 36%N ∧ u ≠ 40%N ∧ u ≠ 92%N ∧ u ≠ 46%N ∧ u ∉ ("*+?[{"%js : jstring).
Proof.
  intros H. split_and!; try (intros ->; by vm_compute in H).
  intros Hu. repeat (apply elem_of_cons in Hu as [->|Hu]; [by vm_compute in H|]). by apply elem_of_nil in Hu.
Qed.

Lemma escape_no_quantifier w rest : no_quantifier rest → no_quantifier (escapeRegex w ++ rest).
Proof.
  intros H. destruct w as [|u w]; [done|]. unfold escapeRegex. cbn [flat_map].
  destruct (re_special u) eqn:E; [done|]. apply special_quantifier in E. cbn. tauto.
Qed.

Lemma parse_more n m alt acc p x : parse n alt acc p = Some x → n ≤ m → parse m alt acc p = Some x.
Proof.
  revert m alt acc p x. induction n as [|n IH]; intros m alt acc p x H Hm.
  { destruct p; [|done]. by destruct m. }
  destruct m as [|m]; [lia|]. assert (n ≤ m) as Hnm by lia. destruct p as [|u t]; [done|]. cbn [parse] in *.
  assert (∀ alt acc p x, parse n alt acc p = Some x → parse m alt acc p = Some x) as IH' by eauto. clear IH.
  repeat match goal with
  | H : (if ?b then _ else _) = Some _ |- _ => destruct b
  | H : (let '(_, _) := ?q in _) = Some _ |- _ => destruct q
  end; try done; try (by apply IH').
  - destruct (parse n None REmpty _) as [[r [|c rest]]|] eqn:E; try done. rewrite (IH' _ _ _ _ E).
    destruct (if b then _ else _) as [r' rest']. by apply IH'.
  - destruct t as [|c t]; [done|]. destruct (re_special c); [|done]. destruct (quantified _ t). by apply IH'.
Qed.

(** An escaped text is parsed as its units. *)
Lemma parse_escape w fuel alt acc rest :
  no_quantifier rest →
  parse (length w + fuel) alt acc (escapeRegex w ++ rest) = parse fuel alt (chars acc w) rest.
Proof.
  intros Hr. revert acc. induction w as [|u w IH]; intros acc; [done|].
  assert (no_quantifier (escapeRegex w ++ rest)) as Hq by by apply escape_no_quantifier.
  unfold escapeRegex in *. cbn [flat_map]. destruct (re_special u) eqn:E.
  - cbn [app length Nat.add parse N.eqb Pos.eqb]. rewrite E, quantified_none by done. apply IH.
  - cbn [app length Nat.add parse].
    apply special_quantifier in E as (E1 & E2 & E3 & E4 & E5 & E6 & E7 & E8 & E9 & E10 & E11).
    rewrite (proj2 (N.eqb_neq _ _) E4), (proj2 (N.eqb_neq _ _) E5), (proj2 (N.eqb_neq _ _) E6),
      (proj2 (N.eqb_neq _ _) E7), (proj2 (N.eqb_neq _ _) E8), (proj2 (N.eqb_neq _ _) E9), (proj2 (N.eqb_neq _ _) E10).
    rewrite bool_decide_eq_false_2 by done. rewrite quantified_none by done. apply IH.
Qed.

(** Units that mean themselves. *)
Definition re_meta (u : N) : bool := bool_decide (u ∈ ("\^$.*+?()[{|"%js : jstring)).

Lemma meta_quantifier u : re_meta u = false → u ≠ 42%N ∧ u ≠ 43%N ∧ u ≠ 63%N ∧ u ≠ 41%N ∧ u ≠ 124%N
  ∧ u ≠ 94%N ∧ u ≠ 36%N ∧ u ≠ 40%N ∧ u ≠ 92%N ∧ u ≠ 46%N ∧ u ∉ ("*+?[{"%js : jstring).
Proof.
  intros H. split_and!; try (intros ->; by vm_compute in H).
  intros Hu. repeat (apply elem_of_cons in Hu as [->|Hu]; [by vm_compute in H|]). by apply elem_of_nil in Hu.
Qed.

Lemma parse_plain w fuel alt acc rest :
  Forall (λ u, re_meta u = false) w → no_quantifier rest →
  parse (length w + fuel) alt acc (w ++ rest) = parse fuel alt (chars acc w) rest.
Proof.
  intros Hw Hr. revert acc. induction Hw as [|u w E Hw IH]; intros acc; [done|].
  assert (no_quantifier (w ++ rest)) as Hq.
  { destruct Hw as [|v w' Ev]; [done|]. apply meta_quantifier in Ev. cbn. tauto. }
  cbn [app length Nat.add parse].
  apply meta_quantifier in E as (E1 & E2 & E3 & E4 & E5 & E6 & E7 & E8 & E9 & E10 & E11).
  rewrite (proj2 (N.eqb_neq _ _) E4), (proj2 (N.eqb_neq _ _) E5), (proj2 (N.eqb_neq _ _) E6),
    (proj2 (N.eqb_neq _ _) E7), (proj2 (N.eqb_neq _ _) E8), (proj2 (N.eqb_neq _ _) E9), (proj2 (N.eqb_neq _ _) E10).
  rewrite bool_decide_eq_false_2 by done. rewrite quantified_none by done. apply IH.
Qed.

(** ** What patterns match *)

Section semantics.
Variable canon : N → N.

Lemma at_pos_cons u w s i :
  at_pos canon (u :: w) s i ↔ (∃ v, s !! i = Some v ∧ canon v = canon u) ∧ at_pos canon w s (S i).
Proof.
  unfold at_pos. cbn [length]. split.
  - intros [Hl Hm]. destruct (lookup_lt_is_Some_2 s i) as [v Hv]; [lia|].
    rewrite (drop_S _ v) in Hm by done. cbn in Hm. injection Hm as Hu Hm.
    split; [by exists v|]. split; [lia|done].
  - intros [(v & Hv & Hu) [Hl Hm]]. split; [lia|]. rewrite (drop_S _ v) by done. cbn. by rewrite Hu, Hm.
Qed.

Lemma ends_char u s i j :
  j ∈ ends canon (RChar u) s i ↔ j = S i ∧ ∃ v, s !! i = Some v ∧ canon v = canon u.
Proof.
  cbn [ends]. destruct (s !! i) as [v|]; [|set_solver]. destruct (N.eqb_spec (canon v) (canon u)).
  - rewrite list_elem_of_singleton. naive_solver.
  - set_solver.
Qed.

Lemma ends_seq a b s i j :
  j ∈ ends canon (RSeq a b) s i ↔ ∃ k, k ∈ ends canon a s i ∧ j ∈ ends canon b s k.
Proof.
  cbn [ends]. rewrite list_elem_of_In, in_flat_map. by setoid_rewrite <- list_elem_of_In.
Qed.

Lemma star_bound step (n : nat) fuel i j :
  (∀ i j, i ≤ n → j ∈ step i → i ≤ j ≤ n) → i ≤ n → j ∈ star step fuel i → i ≤ j ≤ n.
Proof.
  intros Hs. revert i. induction fuel as [|f IH]; intros i Hi; cbn [star].
  - intros ->%list_elem_of_singleton. lia.
  - intros [->|H]%elem_of_cons; [lia|]. apply list_elem_of_In, in_flat_map in H as (k & Hk & Hj).
    apply list_elem_of_In in Hk, Hj. specialize (Hs i k Hi Hk). case_bool_decide; [|by apply elem_of_nil in Hj].
    specialize (IH k ltac:(lia) Hj). lia.
Qed.

Lemma ends_bound r s i j : i ≤ length s → j ∈ ends canon r s i → i ≤ j ≤ length s.
Proof.
  revert i j. induction r as [|u| |a IHa b IHb|a IHa b IHb|a IHa|a IHa|a IHa|a IHa| |]; intros i j Hi H.
  - apply list_elem_of_singleton in H. lia.
  - apply ends_char in H as (-> & v & Hv & _). apply lookup_lt_Some in Hv. lia.
  - cbn in H. destruct (s !! i) eqn:Hv; [|set_solver]. apply lookup_lt_Some in Hv.
    destruct (line_end n); [set_solver|]. apply list_elem_of_singleton in H. lia.
  - apply ends_seq in H as (k & Hk & Hj). specialize (IHa i k Hi Hk). specialize (IHb k j). lia || (apply IHb in Hj; lia).
  - cbn in H. apply elem_of_app in H as [H|H]; eauto.
  - cbn in H. eapply star_bound; [|exact Hi|exact H]. exact IHa.
  - cbn in H. apply list_elem_of_In, in_flat_map in H as (k & Hk & Hj). apply list_elem_of_In in Hk, Hj.
    specialize (IHa i k Hi Hk) as Hik. pose proof (star_bound _ (length s) _ k j IHa ltac:(lia) Hj). lia.
  - cbn in H. apply elem_of_cons in H as [->|H]; [lia|eauto].
  - cbn in H. destruct (ends canon a s i); [set_solver|]. apply list_elem_of_singleton in H. lia.
  - cbn in H. case_bool_decide; [|set_solver]. apply list_elem_of_singleton in H. lia.
  - cbn in H. case_bool_decide; [|set_solver]. apply list_elem_of_singleton in H. lia.
Qed.

Lemma ends_chars acc w s i j :
  i ≤ length s →
  j ∈ ends canon (chars acc w) s i ↔ ∃ k, k ∈ ends canon acc s i ∧ at_pos canon w s k ∧ j = k + length w.
Proof.
  intros Hi. revert acc. induction w as [|u w IH]; intros acc.
  - split.
    + intros H. exists j. pose proof (ends_bound _ _ _ _ Hi H). split_and!; [done| |cbn; lia]. split; [cbn; lia|done].
    + intros (k & Hk & _ & ->). cbn. by rewrite Nat.add_0_r.
  - change (chars acc (u :: w)) with (chars (RSeq acc (RChar u)) w). rewrite IH. setoid_rewrite ends_seq.
    setoid_rewrite at_pos_cons. setoid_rewrite ends_char. cbn [length]. split.
    + intros (k & (k0 & Hk0 & -> & Hv) & Hw & ->). exists k0. split_and!; [done|done|done|lia].
    + intros (k & Hk & (Hv & Hw) & ->). exists (S k). split_and!; [by exists k|done|lia].
Qed.

(** The dot star reaches every position before the end of the line. *)
Lemma star_any s fuel i j :
  length s - i ≤ fuel →
  j ∈ star (ends canon RAny s) fuel i ↔ i ≤ j ∧ (j = i ∨ j ≤ length s ∧ Forall (λ u, line_end u = false) (take (j - i) (drop i s))).
Proof.
  revert i. induction fuel as [|f IH]; intros i Hf; cbn [star].
  - rewrite list_elem_of_singleton. split; [lia|]. intros [H1 [->|[H2 _]]]; lia.
  - rewrite elem_of_cons. cbn [ends]. destruct (s !! i) as [v|] eqn:Hv.
    + pose proof (lookup_lt_Some _ _ _ Hv). rewrite (drop_S _ v) by done. destruct (line_end v) eqn:El; cbn [flat_map].
      * split; [intros [->|H']; [auto|set_solver]|]. intros [H1 [->|[H2 H3]]]; [by left|].
        destruct (j - i) eqn:E; [left; lia|]. cbn in H3. apply Forall_cons in H3 as [H3 _]. congruence.
      * rewrite app_nil_r, bool_decide_eq_true_2, IH by lia. split.
        -- intros [->|[H1 H2]]; [auto|]. split; [lia|]. right. replace (j - i) with (S (j - S i)) by lia. cbn.
           destruct H2 as [->|[H2 H3]]; [rewrite Nat.sub_diag; split; [lia|by constructor; [|constructor]]|].
           split; [done|by constructor].
        -- intros [H1 [->|[H2 H3]]]; [by left|]. destruct (j - i) as [|d] eqn:E; [left; lia|]. right.
           split; [lia|]. right. split; [done|]. cbn in H3. apply Forall_cons in H3 as [_ H3].
           by replace (j - S i) with d by lia.
    + cbn [flat_map]. apply lookup_ge_None in Hv. split; [intros [->|H]; [auto|set_solver]|].
      intros [H1 [->|[H2 H3]]]; [by left|]. left. lia.
Qed.
Lemma star_any_ends s i j :
  i ≤ length s →
  j ∈ ends canon (RStar RAny) s i ↔
  i ≤ j ∧ (j = i ∨ j ≤ length s ∧ Forall (λ u, line_end u = false) (take (j - i) (drop i s))).
Proof. intros Hi. cbn [ends]. apply star_any. lia. Qed.

Lemma re_test_true r s : re_test canon r s = true ↔ ∃ i j, i ≤ length s ∧ j ∈ ends canon r s i.
Proof.
  unfold re_test. rewrite existsb_exists. split.
  - intros (i & Hi%in_seq & H). apply negb_true_iff, bool_decide_eq_false_1 in H.
    destruct (ends canon r s i) as [|j l] eqn:E; [done|]. exists i, j. split; [lia|]. rewrite E. by left.
  - intros (i & j & Hi & Hj). exists i. split; [apply in_seq; lia|]. apply negb_true_iff, bool_decide_eq_false_2.
    intros E. rewrite E in Hj. by apply elem_of_nil in Hj.
Qed.

End semantics.
