(* ===== verification/JqEvent.v ===== *)
(** * Events (jquery/src/event.js)

    The handlers bound to an element, with their namespaces and selectors; binding, unbinding and
    the dispatch of an event along its path.  Elements, functions and the data of handlers are
    numbers; what the page's functions do, which elements a selector matches and which types special
    events stand for are parameters; of the other hooks of special events, the [handle] hook of
    [mouseenter] and its kind is modelled, the others are left out.  [None] stands
    for an exception, or for a call that never returns. *)

From S2P Require Import Prelude JsString JsObject DtUtil JsRegExp.

(** ** Types and namespaces *)

(** A lexicographic order on strings, by code units. *)
Fixpoint str_leb (s t : jstring) : bool :=
  match s, t with
  | [], _ => true
  | _ :: _, [] => false
  | a :: s, b :: t => if (a <? b)%N then true else if (b <? a)%N then false else str_leb s t
  end.
Fixpoint insert_str (s : jstring) (l : list jstring) : list jstring :=
  match l with [] => [s] | t :: l => if str_leb s t then s :: t :: l else t :: insert_str s l end.
Fixpoint sort_strs (l : list jstring) : list jstring :=
  match l with [] => [] | s :: l => insert_str s (sort_strs l) end.

(** [rtypenamespace.exec(t)]: the type and what follows the first period, if anything does; [None]:
    no match. *)
Definition rtypenamespace (t : jstring) : option (jstring * option jstring) :=
  match index_of "."%js t with
  | None => Some (t, None)
  | Some i => let rest := drop (S i) t in
              if (rest =s? []) || existsb line_end rest then None else Some (take i t, Some rest)
  end.

Definition event_types (types : jstring) : list jstring := match words types with [] => [[]] | l => l end.

(** [( tmp[2] || "" ).split( "." ).sort()] *)
Definition namespaces_of (m : option (jstring * option jstring)) : list jstring :=
  sort_strs (split "."%js (default [] (x ← m; snd x))).

Definition namespace_pattern (namespaces : list jstring) : jstring :=
  "(^|\.)"%js ++ join "\.(?:.*\.|)"%js namespaces ++ "(\.|$)"%js.

(** [new RegExp(...)]; [None]: a SyntaxError, or a syntax that is not modelled. *)
Definition namespace_re (namespaces : list jstring) : option re := parse_re (namespace_pattern namespaces).

(** ** Handlers of an element *)

(** A function of the page, or the one that [one] makes for it. *)
Inductive callback := Fn (f : nat) | Once (f : nat).
#[export] Instance callback_eq_dec : EqDecision callback.
Proof. solve_decision. Defined.

Record handleObj := HandleObj {
  h_type : jstring; h_origType : jstring; h_data : nat; h_handler : callback; h_guid : nat;
  h_selector : option jstring; h_namespace : jstring
}.
#[export] Instance handleObj_eq_dec : EqDecision handleObj.
Proof. solve_decision. Defined.

(** The handlers of one type; the delegated ones come first. *)
Record handlers := Handlers { hs_list : list handleObj; delegateCount : nat }.

(** The data of an element: the handlers by type, and the types its native listener is added for. *)
Record elem_data := ElemData { e_events : option (jsobj handlers); e_handle : bool; e_listeners : list jstring }.
Definition no_events : elem_data := ElemData None false [].

(** The state of the library: the elements, the guid of each function and the next guid. *)
Record lib := Lib { l_elems : gmap nat elem_data; l_guids : gmap nat nat; l_guid : nat }.

Definition elem_of (l : lib) (elem : nat) : elem_data := default no_events (l_elems l !! elem).
Definition put_elem (elem : nat) (d : elem_data) (l : lib) : lib := Lib (<[elem := d]> (l_elems l)) (l_guids l) (l_guid l).

(** The function of a callback; both carry the guid of the function. *)
Definition fn_of (c : callback) : nat := match c with Fn f | Once f => f end.
Definition guid_of (l : lib) (c : callback) : option nat := l_guids l !! fn_of c.
Definition give_guid (c : callback) (l : lib) : nat * lib :=
  match guid_of l c with
  | Some g => (g, l)
  | None => (l_guid l, Lib (l_elems l) (<[fn_of c := l_guid l]> (l_guids l)) (S (l_guid l)))
  end.

Section events.
(** [special.delegateType] and [special.bindType] *)
Variable special_type : bool → jstring → option jstring.

Definition bound_type (selector : option jstring) (type : jstring) : jstring :=
  match special_type (bool_decide (is_Some selector)) type with
  | Some t => if t =s? [] then type else t
  | None => type
  end.

(** ** Binding *)

Definition insert_handler (h : handleObj) (hs : handlers) : handlers :=
  match h_selector h with
  | Some _ => Handlers (take (delegateCount hs) (hs_list hs) ++ h :: drop (delegateCount hs) (hs_list hs)) (S (delegateCount hs))
  | None => Handlers (hs_list hs ++ [h]) (delegateCount hs)
  end.

Definition add_handler (h : handleObj) (d : elem_data) : elem_data :=
  let events := default [] (e_events d) in
  match obj_get (h_type h) events with
  | Some hs => ElemData (Some (obj_set (h_type h) (insert_handler h hs) events)) true (e_listeners d)
  | None => ElemData (Some (obj_set (h_type h) (insert_handler h (Handlers [] 0)) events)) true (e_listeners d ++ [h_type h])
  end.

(** The handler that one of the types of a call binds. *)
Definition new_handler (t : jstring) (handler : callback) (guid data : nat) (selector : option jstring) : option handleObj :=
  let m := rtypenamespace t in
  match m with
  | Some ((_ :: _) as type, _) =>
      Some (HandleObj (bound_type selector type) type data handler guid selector (join "."%js (namespaces_of m)))
  | _ => None
  end.

(** [jQuery.event.add]: the types of the call from the last to the first.  An empty selector counts
    as none. *)
Definition event_add (elem : nat) (types : jstring) (handler : callback) (data : nat) (selector : option jstring) (l : lib) : lib :=
  let selector := s ← selector; if s =s? [] then None else Some s in
  let '(guid, l) := give_guid handler l in
  let d := elem_of l elem in
  let d := ElemData (Some (default [] (e_events d))) true (e_listeners d) in
  put_elem elem
    (foldr (λ t d, match new_handler t handler guid data selector with Some h => add_handler h d | None => d end) d
       (event_types types)) l.

(** ** Unbinding *)

(** What a call of [remove] looks for; a function that was never bound has no guid. *)
Record target := Target {
  g_type : jstring; g_origType : jstring; g_mapped : bool; g_guid : option (option nat);
  g_namespaces : option re; g_selector : option jstring
}.

Definition matches (g : target) (h : handleObj) : bool :=
  (g_mapped g || (g_origType g =s? h_origType h))
  && (match g_guid g with Some n => bool_decide (n = Some (h_guid h)) | None => true end)
  && (match g_namespaces g with Some r => re_test (λ u, u) r (h_namespace h) | None => true end)
  && (match g_selector g with
      | None => true
      | Some s => bool_decide (h_selector h = Some s) || ((s =s? "**"%js) && bool_decide (is_Some (h_selector h)))
      end).

Definition delegated (l : list handleObj) : list handleObj := filter (λ h, is_Some (h_selector h)) l.

(** Handlers go, and [delegateCount] goes down with the delegated ones among them. *)
Definition remove_handlers (g : target) (hs : handlers) : handlers :=
  Handlers (List.filter (λ h, negb (matches g h)) (hs_list hs))
    (delegateCount hs - length (delegated (List.filter (matches g) (hs_list hs)))).

Fixpoint obj_del {V} (k : jstring) (o : jsobj V) : jsobj V :=
  match o with [] => [] | (k', v) :: o => if decide (k' = k) then o else (k', v) :: obj_del k o end.

(** One type of a call that names it. *)
Definition remove_type (g : target) (d : elem_data) : elem_data :=
  let events := default [] (e_events d) in
  match obj_get (g_type g) events with
  | None => d
  | Some hs =>
      let hs' := remove_handlers g hs in
      if negb (bool_decide (hs_list hs = [])) && bool_decide (hs_list hs' = [])
      then ElemData (Some (obj_del (g_type g) events)) (e_handle d) (filter (.≠ g_type g) (e_listeners d))
      else ElemData (Some (obj_set (g_type g) hs' events)) (e_handle d) (e_listeners d)
  end.

(** The end of a call: an element without handlers keeps no data. *)
Definition drop_empty (d : elem_data) : elem_data :=
  match e_events d with
  | Some [] => ElemData None false (e_listeners d)
  | _ => d
  end.

(** [jQuery.event.remove] on one element; [guid] is that of the function that is named, if one is.  A
    call for all types of a namespace calls itself for every type.  [None]: an exception, or the
    fuel is used up. *)
Fixpoint event_remove (fuel : nat) (types : jstring) (guid : option (option nat)) (selector : option jstring) (mappedTypes : bool)
    (d : elem_data) : option elem_data :=
  match fuel with
  | O => None
  | S fuel =>
      match e_events d with
      | None => Some d
      | Some _ =>
          d ← foldr (λ t (d : option elem_data),
                d ← d;
                match rtypenamespace t with
                | Some ((_ :: _) as type, ns) =>
                    r ← (match ns with
                         | Some _ => Some <$> namespace_re (namespaces_of (Some (type, ns)))
                         | None => Some None
                         end);
                    Some (remove_type (Target (bound_type selector type) type mappedTypes guid r selector) d)
                | _ =>
                    foldl (λ (d : option elem_data) (type : jstring),
                             d ← d; event_remove fuel (type ++ t) guid selector true d)
                      (Some d) (for_in (default [] (e_events d)))
                end)
              (Some d) (event_types types);
          Some (drop_empty d)
      end
  end.

(** The depth of the calls for all types of a namespace is two. *)
Definition remove_fuel : nat := 2.

(** [jQuery.event.remove(elem, types, handler, selector)] *)
Definition event_off (elem : nat) (types : jstring) (handler : option callback) (selector : option jstring) (l : lib) : option lib :=
  let selector := s ← selector; if s =s? [] then None else Some s in
  let guid := (λ c, guid_of l c) <$> handler in
  d ← event_remove remove_fuel types guid selector false (elem_of l elem);
  Some (put_elem elem d l).

(** ** Dispatch *)

(** An event as the handlers see it. *)
Record event := Event {
  ev_type : jstring; ev_target : nat; ev_namespaces : option re;
  ev_result : option nat; ev_stopped : bool; ev_immediate : bool; ev_prevented : bool;
  ev_related : option nat                                (* relatedTarget *)
}.
Definition set_type (t : jstring) (e : event) : event :=
  Event t (ev_target e) (ev_namespaces e) (ev_result e) (ev_stopped e) (ev_immediate e) (ev_prevented e) (ev_related e).

(** The types whose special event has a [handle] hook, with the types they stand for. *)
Definition mouse_types : jsobj jstring :=
  [("mouseenter"%js, "mouseover"%js); ("mouseleave"%js, "mouseout"%js);
   ("pointerenter"%js, "pointerover"%js); ("pointerleave"%js, "pointerout"%js)].

(** What a function of the page returns ([None]: undefined, [Some 0]: false) and which of the three
    methods of the event it calls. *)
Record answer := Answer { a_ret : option nat; a_stop : bool; a_immediate : bool; a_prevent : bool }.

Section dispatch.
Context {W : Type}.
Variable ancestors : nat → list nat.                     (* a node and its ancestors, outwards *)
Variable sel_matches : nat → jstring → nat → bool.       (* the element, the selector, a node below *)
Variable disabled : nat → bool.
Variable other_button : bool.                            (* event.button is truthy *)
Variable page_fn : nat → nat → event → lib * W → (lib * W) * answer.   (* function, element *)

Fixpoint up_to (this : nat) (l : list nat) : list nat :=
  match l with [] => [] | cur :: l => if cur =? this then [] else cur :: up_to this l end.

Definition is_click (e : event) : bool := ev_type e =s? "click"%js.

(** [jQuery.event.handlers]: the elements with the handlers to run. *)
Definition event_handlers (this : nat) (e : event) (hs : handlers) : list (nat * list handleObj) :=
  let first := take (delegateCount hs) (hs_list hs) in
  let queue :=
    if negb (delegateCount hs =? 0) && negb (other_button && is_click e) then
      omap (λ cur : nat,
              if disabled cur && is_click e then None else
              match List.filter (λ h, sel_matches this (default [] (h_selector h)) cur) first with
              | [] => None
              | ms => Some (cur, ms)
              end)
        (up_to this (ancestors (ev_target e)))
    else [] in
  if delegateCount hs <? length (hs_list hs) then queue ++ [(this, drop (delegateCount hs) (hs_list hs))] else queue.

Definition namespace_ok (e : event) (h : handleObj) : bool :=
  match ev_namespaces e with Some r => re_test (λ u, u) r (h_namespace h) | None => true end.

(** The event after a handler. *)
Definition after (e : event) (a : answer) : event :=
  let stop := a_stop a || a_immediate a || bool_decide (a_ret a = Some 0) in
  Event (ev_type e) (ev_target e) (ev_namespaces e)
    (match a_ret a with Some r => Some r | None => ev_result e end)
    (ev_stopped e || stop) (ev_immediate e || a_immediate a)
    (ev_prevented e || a_prevent a || bool_decide (a_ret a = Some 0)) (ev_related e).

(** [jQuery.contains(a, b)] *)
Definition contains_node (a b : nat) : bool := bool_decide (a ∈ tail (ancestors b)).

(** The [handle] hook of [mouseenter] and its kind calls the handler only when the other node of the
    event is outside the element; without a hook the handler is always called. *)
Definition hook_calls (elem : nat) (h : handleObj) (e : event) : bool :=
  match obj_get (h_origType h) mouse_types, ev_related e with
  | Some _, Some related => negb (related =? elem) && negb (contains_node elem related)
  | _, _ => true
  end.

(** A handler that [one] made unbinds itself first. *)
Definition off_event (this : nat) (h : handleObj) (l : lib) : option lib :=
  event_off this (if h_namespace h =s? [] then h_origType h else h_origType h ++ "."%js ++ h_namespace h)
    (Some (h_handler h)) (h_selector h) l.

(** A handler called with a hook sees the type it was bound for. *)
Definition call_handler (this elem : nat) (h : handleObj) (e : event) (w : lib * W) : option (event * (lib * W)) :=
  let seen := match obj_get (h_origType h) mouse_types with Some _ => set_type (h_origType h) e | None => e end in
  l ← (match h_handler h with Once _ => off_event this h w.1 | Fn _ => Some w.1 end);
  let '(w, a) := page_fn (fn_of (h_handler h)) elem seen (l, w.2) in
  let e := after seen a in
  Some (match obj_get (h_origType h) mouse_types with Some fix_type => set_type fix_type e | None => e end, w).

(** What is called, in order: the element and the handler. *)
Abbreviation trace := (list (nat * handleObj)).

Fixpoint run_handlers (this elem : nat) (hs : list handleObj) (e : event) (w : lib * W) : option (event * (lib * W) * trace) :=
  match hs with
  | [] => Some (e, w, [])
  | h :: hs =>
      if ev_immediate e then Some (e, w, [])
      else if namespace_ok e h && hook_calls elem h e then
        '(e, w) ← call_handler this elem h e w;
        '(e, w, t) ← run_handlers this elem hs e w;
        Some (e, w, (elem, h) :: t)
      else run_handlers this elem hs e w
  end.

Fixpoint run_queue (this : nat) (queue : list (nat * list handleObj)) (e : event) (w : lib * W) : option (event * (lib * W) * trace) :=
  match queue with
  | [] => Some (e, w, [])
  | (elem, hs) :: queue =>
      if ev_stopped e then Some (e, w, [])
      else '(e, w, t) ← run_handlers this elem hs e w;
           '(e, w, t') ← run_queue this queue e w;
           Some (e, w, t ++ t')
  end.

(** [jQuery.event.dispatch] on the element [this] *)
Definition dispatch (this : nat) (e : event) (w : lib * W) : option (event * (lib * W) * trace) :=
  let hs := default (Handlers [] 0) (obj_get (ev_type e) (default [] (e_events (elem_of w.1 this)))) in
  run_queue this (event_handlers this e hs) e w.
End dispatch.
End events.

(** ** The types of [jQuery.event.special]

    [delegateType], and [bindType] when the handler is not delegated; the types that have neither are
    left out. *)
Definition jq_special (delegate : bool) (type : jstring) : option jstring :=
  if type =s? "focus"%js then (if delegate then Some "focusin"%js else None)
  else if type =s? "blur"%js then (if delegate then Some "focusout"%js else None)
  else obj_get type mouse_types.

(** ** Examples *)

Definition no_special (delegated : bool) (type : jstring) : option jstring := None.

Example bind_order :
  let l := event_add no_special 1 "click.b.a keyup"%js (Fn 7) 0 None (Lib ∅ ∅ 1) in
  let l := event_add no_special 1 "click"%js (Fn 8) 0 (Some "td"%js) l in
  (λ d : handlers, ((λ h, (h_namespace h, h_guid h)) <$> hs_list d, delegateCount d)) <$> obj_get "click"%js (default [] (e_events (elem_of l 1)))
  = Some ([([], 2); ("a.b"%js, 1)], 1)
  ∧ e_listeners (elem_of l 1) = ["keyup"%js; "click"%js].
Proof. vm_compute. split; reflexivity. Qed.

Example unbind_namespace :
  let l := event_add no_special 1 "click.b.a keyup"%js (Fn 7) 0 None (Lib ∅ ∅ 1) in
  (λ l, obj_keys (default [] (e_events (elem_of l 1)))) <$> event_off no_special 1 ".a"%js None None l = Some ["keyup"%js]
  ∧ (λ l, e_events (elem_of l 1)) <$> event_off no_special 1 []%js None None l = Some None.
Proof. vm_compute. split; reflexivity. Qed.
