(* ===== verification/JqEventNamespaces.v ===== *)
(** * Namespaces of events (jquery/src/event.js)

    The regular expression built from the sorted namespaces of a call matches the namespace of a
    handler exactly when its parts are among those of the handler, in order. *)

From S2P Require Import Prelude JsString JsObject DtUtil JsRegExp JqEvent.

(** ** The expression *)

(** A part of a namespace without units that expressions give a meaning. *)
Definition plain_part (n : jstring) : Prop :=
  n ≠ [] ∧ Forall (λ u, re_meta u = false) n ∧ Forall (λ u, line_end u = false) n.

Definition start_re : re := RAlt (RSeq REmpty RBegin) (RSeq REmpty (RChar 46%N)).
Definition skip_re : re := RAlt (RSeq (RSeq REmpty (RStar RAny)) (RChar 46%N)) REmpty.
Definition end_re : re := RAlt (RSeq REmpty (RChar 46%N)) (RSeq REmpty REnd).

Fixpoint parts_re (acc : re) (ns : list jstring) : re :=
  match ns with
  | [] => acc
  | [n] => chars acc n
  | n :: ns => parts_re (RSeq (RSeq (chars acc n) (RChar 46%N)) skip_re) ns
  end.
Definition whole_re (ns : list jstring) : re := RSeq (parts_re (RSeq REmpty start_re) ns) end_re.

(** The steps of the parser. *)
Lemma parse_close n alt acc t : parse (S n) alt acc (41%N :: t) = Some (alt_of alt acc, 41%N :: t).
Proof. reflexivity. Qed.
Lemma parse_bar n alt acc t : parse (S n) alt acc (124%N :: t) = parse n (Some (alt_of alt acc)) REmpty t.
Proof. reflexivity. Qed.
Lemma parse_begin n alt acc t : parse (S n) alt acc (94%N :: t) = parse n alt (RSeq acc RBegin) t.
Proof. reflexivity. Qed.
Lemma parse_finish n alt acc t : parse (S n) alt acc (36%N :: t) = parse n alt (RSeq acc REnd) t.
Proof. reflexivity. Qed.
Lemma parse_dot_star n alt acc t : parse (S n) alt acc (46%N :: 42%N :: t) = parse n alt (RSeq acc (RStar RAny)) (lazy_mark t).
Proof. reflexivity. Qed.
Lemma parse_period n alt acc t : no_quantifier t → parse (S n) alt acc (92%N :: 46%N :: t) = parse n alt (RSeq acc (RChar 46%N)) t.
Proof.
  intros Ht. transitivity (let '(r, rest) := quantified (RChar 46%N) t in parse n alt (RSeq acc r) rest); [reflexivity|].
  by rewrite quantified_none.
Qed.
Lemma parse_group n alt acc c t r rest :
  c = 94%N ∨ c = 92%N → parse n None REmpty (c :: t) = Some (r, 41%N :: rest) → no_quantifier rest →
  parse (S n) alt acc (40%N :: c :: t) = parse n alt (RSeq acc r) rest.
Proof.
  intros Hc Hp Hq.
  transitivity (match parse n None REmpty (c :: t) with
                | Some (r, _ :: rest) => let '(r, rest) := quantified r rest in parse n alt (RSeq acc r) rest
                | _ => None end); [by destruct Hc as [-> | ->]|].
  rewrite Hp, quantified_none by done. done.
Qed.
Lemma parse_noncapturing n alt acc t r rest :
  parse n None REmpty t = Some (r, 41%N :: rest) → no_quantifier rest →
  parse (S n) alt acc (40%N :: 63%N :: 58%N :: t) = parse n alt (RSeq acc r) rest.
Proof.
  intros Hp Hq.
  transitivity (match parse n None REmpty t with
                | Some (r, _ :: rest) => let '(r, rest) := quantified r rest in parse n alt (RSeq acc r) rest
                | _ => None end); [reflexivity|].
  rewrite Hp, quantified_none by done. done.
Qed.

Lemma parse_start n rest :
  no_quantifier rest → parse (S (S (S (S (S n))))) None REmpty ("(^|\.)"%js ++ rest) = parse (S (S (S (S n)))) None (RSeq REmpty start_re) rest.
Proof.
  intros Hr. apply parse_group; [by left| |done]. rewrite parse_begin, parse_bar, parse_period by done. apply parse_close.
Qed.

Lemma parse_skip n acc rest :
  no_quantifier rest →
  parse (S (S (S (S (S (S n)))))) None acc ("\.(?:.*\.|)"%js ++ rest) = parse (S (S (S (S n)))) None (RSeq (RSeq acc (RChar 46%N)) skip_re) rest.
Proof.
  intros Hr. etransitivity; [apply parse_period; by split_and!|]. apply parse_noncapturing; [|done].
  change (".*\.|)"%js ++ rest) with (46%N :: 42%N :: 92%N :: 46%N :: 124%N :: 41%N :: rest).
  etransitivity; [apply parse_dot_star|]. cbn [lazy_mark N.eqb Pos.eqb].
  etransitivity; [apply parse_period; by split_and!|]. rewrite parse_bar. apply parse_close.
Qed.

Lemma parse_end n acc : parse (S (S (S (S (S n))))) None acc "(\.|$)"%js = Some (RSeq acc end_re, []).
Proof.
  transitivity (parse (S (S (S (S n)))) None (RSeq acc end_re) []); [|done].
  apply parse_group; [by right| |done].
  change ("\.|$)"%js) with (92%N :: 46%N :: 124%N :: 36%N :: 41%N :: []).
  rewrite parse_period by (by split_and!). rewrite parse_bar, parse_finish. apply parse_close.
Qed.

Lemma plain_no_quantifier n rest : plain_part n → no_quantifier (n ++ rest).
Proof.
  intros (Hn & Hm & _). destruct n as [|u n]; [done|]. apply Forall_cons in Hm as [Hu _]. apply meta_quantifier in Hu. cbn. tauto.
Qed.

Abbreviation skip_text := ("\.(?:.*\.|)"%js : jstring).
Abbreviation end_text := ("(\.|$)"%js : jstring).

Lemma join_cons2 (sep s t : jstring) l : join sep (s :: t :: l) = s ++ sep ++ join sep (t :: l).
Proof. done. Qed.

Lemma join_no_quantifier n ns rest : plain_part n → no_quantifier (join skip_text (n :: ns) ++ rest).
Proof. intros Hn. destruct ns as [|m ns]; [by apply plain_no_quantifier|]. rewrite join_cons2, <- app_assoc. by apply plain_no_quantifier. Qed.

Lemma parse_parts n ns acc :
  Forall plain_part (n :: ns) →
  parse (length (join skip_text (n :: ns)) + 5) None acc (join skip_text (n :: ns) ++ end_text) = Some (RSeq (parts_re acc (n :: ns)) end_re, []).
Proof.
  revert n acc. induction ns as [|m ns IH]; intros n acc [Hn Hns]%Forall_cons.
  - change (join skip_text [n]) with n. rewrite parse_plain; [|by destruct Hn as (_ & ? & _)|by split_and!]. apply parse_end.
  - rewrite join_cons2, !length_app, <- !app_assoc, <- Nat.add_assoc.
    rewrite parse_plain; [|by destruct Hn as (_ & ? & _)|by split_and!].
    set (L := length (join skip_text (m :: ns))). change (length skip_text) with 11.
    replace (11 + L + 5) with (S (S (S (S (S (S (10 + L))))))) by lia.
    pose proof Hns as [Hm _]%Forall_cons. rewrite parse_skip by (by apply join_no_quantifier).
    apply (parse_more (L + 5)); [|lia]. by apply IH.
Qed.

Lemma namespace_re_parses n ns : Forall plain_part (n :: ns) → namespace_re (n :: ns) = Some (whole_re (n :: ns)).
Proof.
  intros Hns. pose proof Hns as [Hn _]%Forall_cons. unfold namespace_re, parse_re, namespace_pattern. rewrite !length_app.
  set (L := length (join skip_text (n :: ns))).
  assert (parse (S (S (S (S (S (L + 2)))))) None REmpty ("(^|\.)"%js ++ join skip_text (n :: ns) ++ end_text) = Some (whole_re (n :: ns), [])) as Hp.
  { rewrite parse_start by (by apply join_no_quantifier). apply (parse_more (L + 5)); [|lia]. by apply parse_parts. }
  change (length "(^|\.)"%js) with 6. change (length end_text) with 6.
  by rewrite (parse_more _ (6 + (L + 6)) _ _ _ _ Hp ltac:(lia)).
Qed.

(** ** What the expression matches *)

Abbreviation id_canon := (λ u : N, u).
Abbreviation ends := (JsRegExp.ends id_canon).

Lemma at_pos_take w s i : at_pos id_canon w s i ↔ i + length w ≤ length s ∧ take (length w) (drop i s) = w.
Proof. unfold at_pos. by rewrite !list_fmap_id. Qed.

(** The text [t] starts with the parts [ns], with other parts between them. *)
Inductive starts_parts : list jstring → jstring → Prop :=
  | sp_last n t : t = n ∨ (∃ t', t = n ++ 46%N :: t') → starts_parts [n] t
  | sp_next n ns t t' : t = n ++ 46%N :: t' → starts_parts ns t' → ns ≠ [] → starts_parts (n :: ns) t
  | sp_skip n ns t t' t'' : t = n ++ 46%N :: t' ++ 46%N :: t'' → starts_parts ns t'' → ns ≠ [] → starts_parts (n :: ns) t.

Lemma at_pos_drop w s i : i ≤ length s → at_pos id_canon w s i ↔ drop i s = w ++ drop (i + length w) s.
Proof.
  intros Hi. rewrite at_pos_take. split.
  - intros [_ H]. rewrite <- H at 1. rewrite <- drop_drop. by rewrite take_drop.
  - intros H. assert (length (drop i s) = length (w ++ drop (i + length w) s)) as Hl by congruence.
    rewrite length_app, !length_drop in Hl. split; [lia|]. by rewrite H, take_app_length.
Qed.

Lemma lookup_drop_cons (s : jstring) i u : s !! i = Some u ↔ drop i s = u :: drop (S i) s ∧ i < length s.
Proof.
  split; [intros H; split; [by apply drop_S|by eapply lookup_lt_Some]|].
  intros [H Hi]. destruct (lookup_lt_is_Some_2 s i Hi) as [v Hv]. rewrite (drop_S _ v) in H by done. congruence.
Qed.

Lemma ends_period s i j : j ∈ ends (RChar 46%N) s i ↔ j = S i ∧ s !! i = Some 46%N.
Proof. rewrite ends_char. naive_solver. Qed.

Lemma ends_end s i : i ≤ length s → (∃ j, j ∈ ends end_re s i) ↔ s !! i = Some 46%N ∨ i = length s.
Proof.
  intros Hi. unfold end_re. cbn [JsRegExp.ends]. setoid_rewrite elem_of_app. split.
  - intros [j [H|H]].
    + change (j ∈ ends (RSeq REmpty (RChar 46%N)) s i) in H. apply ends_seq in H as (k & ->%list_elem_of_singleton & H).
      apply ends_period in H as [_ H]. by left.
    + change (j ∈ ends (RSeq REmpty REnd) s i) in H. apply ends_seq in H as (k & ->%list_elem_of_singleton & H).
      cbn in H. case_bool_decide; [by right|by apply elem_of_nil in H].
  - intros [H|H].
    + exists (S i). left. change (S i ∈ ends (RSeq REmpty (RChar 46%N)) s i). apply ends_seq. exists i.
      split; [by left|]. by apply ends_period.
    + exists i. right. change (i ∈ ends (RSeq REmpty REnd) s i). apply ends_seq. exists i. split; [by left|].
      cbn. rewrite bool_decide_eq_true_2 by done. by left.
Qed.

Lemma ends_skip s a b :
  a ≤ length s → Forall (λ u, line_end u = false) s →
  b ∈ ends skip_re s a ↔ b = a ∨ ∃ c, a ≤ c ∧ b = S c ∧ s !! c = Some 46%N.
Proof.
  intros Ha Hs. unfold skip_re. cbn [JsRegExp.ends]. rewrite elem_of_app, list_elem_of_singleton.
  match goal with |- ?l ∈ _ ∨ _ ↔ _ => change (l ∈ ends (RSeq (RSeq REmpty (RStar RAny)) (RChar 46%N)) s a ∨ b = a ↔ b = a ∨ ∃ c, a ≤ c ∧ b = S c ∧ s !! c = Some 46%N) end.
  rewrite ends_seq. setoid_rewrite ends_seq. split.
  - intros [(c & (a' & ->%list_elem_of_singleton & Hc) & [-> Hp]%ends_period)| ->]; [|by left].
    right. exists c. apply star_any_ends in Hc as [Hc _]; [|done]. done.
  - intros [->|(c & Hac & -> & Hp)]; [by right|]. left. exists c. split; [|by apply ends_period].
    exists a. split; [by left|]. apply star_any_ends; [done|]. split; [done|]. right. split; [by apply lookup_lt_Some in Hp; lia|].
    by apply Forall_take, Forall_drop.
Qed.

Lemma drop_exact (s n : jstring) k t : k ≤ length s → drop k s = n ++ t → t = drop (k + length n) s ∧ k + length n ≤ length s.
Proof.
  intros Hk H. split; [rewrite <- drop_drop, H; by rewrite drop_app_length|].
  apply (f_equal length) in H. rewrite length_drop, length_app in H. lia.
Qed.

Lemma drop_at_pos (s n : jstring) k t : k ≤ length s → drop k s = n ++ t → at_pos id_canon n s k.
Proof. intros Hk H. pose proof (drop_exact s n k t Hk H) as [-> _]. by apply at_pos_drop. Qed.

Lemma drop_lookup (s : jstring) k u t : drop k s = u :: t → s !! k = Some u ∧ t = drop (S k) s.
Proof.
  intros H. assert (k < length s) as Hk.
  { apply (f_equal length) in H. rewrite length_drop in H. cbn in H. lia. }
  destruct (lookup_lt_is_Some_2 s k Hk) as [v Hv]. rewrite (drop_S _ v) in H by done. by injection H as <- <-.
Qed.

(** The last part. *)
Lemma last_ends n acc s i :
  i ≤ length s →
  (∃ x, x ∈ ends (RSeq (chars acc n) end_re) s i)
  ↔ ∃ k, k ∈ ends acc s i ∧ (drop k s = n ∨ ∃ t, drop k s = n ++ 46%N :: t).
Proof.
  intros Hi. setoid_rewrite ends_seq. split.
  - intros (x & p & Hp & Hx). pose proof (ends_bound _ _ _ _ _ Hi Hp) as Hb.
    apply ends_chars in Hp as (k & Hk & Hat & ->); [|done]. exists k. split; [done|].
    pose proof (ends_bound _ _ _ _ _ Hi Hk) as Hbk. apply at_pos_drop in Hat; [|lia].
    destruct (proj1 (ends_end s (k + length n) ltac:(lia)) (ex_intro _ x Hx)) as [H|H].
    + right. apply lookup_drop_cons in H as [H _]. rewrite H in Hat. by eexists.
    + left. rewrite (drop_ge s (k + length n)) in Hat by lia. by rewrite app_nil_r in Hat.
  - intros (k & Hk & Hd). pose proof (ends_bound _ _ _ _ _ Hi Hk) as Hb.
    assert (∃ t, drop k s = n ++ t ∧ (t = [] ∨ ∃ t', t = 46%N :: t')) as (t & Ht & Hcase).
    { destruct Hd as [Hd|[t' Hd]]; rewrite Hd; [exists []; rewrite app_nil_r; auto|eexists; eauto]. }
    pose proof (drop_at_pos s n k t ltac:(lia) Ht) as Hat. apply drop_exact in Ht as [Ht Hle]; [|lia].
    destruct (proj2 (ends_end s (k + length n) Hle)) as [x Hx].
    { destruct Hcase as [->|[t' ->]].
      - right. apply (f_equal length) in Ht. rewrite length_drop in Ht. cbn in Ht. lia.
      - left. symmetry in Ht. by apply drop_lookup in Ht as [? _]. }
    exists x, (k + length n). split; [|done]. apply ends_chars; [done|]. by exists k.
Qed.

(** A part, a period, and any number of other parts. *)
Lemma skip_ends n acc s i k' :
  i ≤ length s → Forall (λ u, line_end u = false) s →
  k' ∈ ends (RSeq (RSeq (chars acc n) (RChar 46%N)) skip_re) s i
  ↔ k' ≤ length s ∧ ∃ k, k ∈ ends acc s i
    ∧ (drop k s = n ++ 46%N :: drop k' s ∨ ∃ t, drop k s = n ++ 46%N :: t ++ 46%N :: drop k' s).
Proof.
  intros Hi Hs. rewrite ends_seq. setoid_rewrite ends_seq. split.
  - intros (a & (p & Hp & [-> Hper]%ends_period) & Hk'). pose proof (lookup_lt_Some _ _ _ Hper) as Hlt.
    apply ends_chars in Hp as (k & Hk & Hat & ->); [|done]. pose proof (ends_bound _ _ _ _ _ Hi Hk) as Hbk.
    apply at_pos_drop in Hat; [|lia]. rewrite (drop_S _ _ _ Hper) in Hat.
    apply ends_skip in Hk' as [->|(c & Hac & -> & Hc)]; [| |lia|done].
    + split; [lia|]. exists k. split; [done|]. by left.
    + pose proof (lookup_lt_Some _ _ _ Hc). split; [lia|]. exists k. split; [done|]. right.
      exists (take (c - S (k + length n)) (drop (S (k + length n)) s)). rewrite Hat. do 2 f_equal.
      rewrite <- (drop_S _ _ _ Hc). replace c with (S (k + length n) + (c - S (k + length n))) at 2 by lia.
      rewrite <- drop_drop. by rewrite take_drop.
  - intros (Hk' & k & Hk & Hd). pose proof (ends_bound _ _ _ _ _ Hi Hk) as Hbk.
    assert (∃ t, drop k s = n ++ 46%N :: t ∧ (t = drop k' s ∨ ∃ t', t = t' ++ 46%N :: drop k' s)) as (t & Ht & Hcase).
    { destruct Hd as [Hd|[t' Hd]]; rewrite Hd; eexists; eauto. }
    pose proof (drop_at_pos s n k _ ltac:(lia) Ht) as Hat. apply drop_exact in Ht as [Ht Hle]; [|lia].
    symmetry in Ht. apply drop_lookup in Ht as [Hper Ht]. pose proof (lookup_lt_Some _ _ _ Hper) as Hlt.
    exists (S (k + length n)). split.
    { exists (k + length n). split; [|by apply ends_period]. apply ends_chars; [done|]. by exists k. }
    apply ends_skip; [lia|done|]. destruct Hcase as [->|[t' ->]].
    + left. apply (f_equal length) in Ht. rewrite !length_drop in Ht. lia.
    + right. symmetry in Ht. pose proof (drop_exact s t' (S (k + length n)) _ ltac:(lia) Ht) as [Ht2 Hle2].
      symmetry in Ht2. apply drop_lookup in Ht2 as [Hc Ht2]. exists (S (k + length n) + length t').
      pose proof (lookup_lt_Some _ _ _ Hc). split; [lia|]. split; [|done].
      apply (f_equal length) in Ht2. rewrite !length_drop in Ht2. lia.
Qed.

Lemma whole_ends ns acc s i :
  ns ≠ [] → i ≤ length s → Forall (λ u, line_end u = false) s →
  (∃ x, x ∈ ends (RSeq (parts_re acc ns) end_re) s i) ↔ ∃ k, k ∈ ends acc s i ∧ starts_parts ns (drop k s).
Proof.
  intros Hne Hi Hs. revert acc. induction ns as [|n ns IH]; [done|]. intros acc. destruct ns as [|m ns].
  - cbn [parts_re]. rewrite last_ends by done. apply exist_proper. intros k. apply and_iff_compat_l. split.
    + intros Hd. by constructor.
    + intros Hsp. by inversion Hsp.
  - change (parts_re acc (n :: m :: ns)) with (parts_re (RSeq (RSeq (chars acc n) (RChar 46%N)) skip_re) (m :: ns)).
    rewrite IH by done. setoid_rewrite skip_ends; [|done..]. split.
    + intros (k' & (Hk' & k & Hk & Hd) & Hsp). exists k. split; [done|].
      destruct Hd as [Hd|[t Hd]]; rewrite Hd; [by eapply sp_next|by eapply sp_skip].
    + intros (k & Hk & Hsp). pose proof (ends_bound _ _ _ _ _ Hi Hk) as Hbk.
      assert (∃ t, starts_parts (m :: ns) t ∧ (drop k s = n ++ 46%N :: t ∨ ∃ t', drop k s = n ++ 46%N :: t' ++ 46%N :: t)) as (t & Ht & Hd).
      { inversion Hsp; subst; eauto. }
      assert (∃ k', t = drop k' s ∧ k' ≤ length s) as (k' & -> & Hk').
      { destruct Hd as [Hd|[t' Hd]].
        - exists (S (k + length n)). change (46%N :: t) with ([46%N] ++ t) in Hd. rewrite app_assoc in Hd.
          apply drop_exact in Hd as [-> Hle]; [|lia]. rewrite length_app in *. cbn in *. split; [f_equal; lia|lia].
        - exists (k + length (n ++ 46%N :: t' ++ [46%N])).
          replace (n ++ 46%N :: t' ++ 46%N :: t) with ((n ++ 46%N :: t' ++ [46%N]) ++ t) in Hd by (by rewrite <- !app_assoc, <- app_comm_cons, <- app_assoc).
          by apply drop_exact in Hd as [-> Hle]; [|lia]. }
      exists k'. split; [|done]. split; [done|]. by exists k.
Qed.

(** ** Texts of parts *)

Abbreviation dotted := (join "."%js).
Definition no_period (n : jstring) : Prop := 46%N ∉ n.

Lemma period_inj (h n a b : jstring) : no_period h → no_period n → h ++ 46%N :: a = n ++ 46%N :: b → h = n ∧ a = b.
Proof.
  revert n. induction h as [|u h IH]; intros [|v n] Hh Hn; cbn.
  - by intros [= ->].
  - intros [= <- _]. exfalso. apply Hn. by left.
  - intros [= -> _]. exfalso. apply Hh. by left.
  - apply not_elem_of_cons in Hh as [_ Hh], Hn as [_ Hn]. intros [= -> H]. by apply IH in H as [-> ->].
Qed.

Lemma no_period_app (n a b : jstring) : no_period n → n ≠ a ++ 46%N :: b.
Proof. intros Hn ->. apply Hn, elem_of_app. right. by left. Qed.

Lemma dotted_cons h h2 hs : dotted (h :: h2 :: hs) = h ++ 46%N :: dotted (h2 :: hs).
Proof. done. Qed.

Lemma dotted_app hs1 hs2 : hs1 ≠ [] → hs2 ≠ [] → dotted (hs1 ++ hs2) = dotted hs1 ++ 46%N :: dotted hs2.
Proof.
  intros H1 H2. induction hs1 as [|h hs1 IH]; [done|]. destruct hs1 as [|h' hs1].
  - destruct hs2 as [|h2 hs2]; [done|]. done.
  - change ((h :: h' :: hs1) ++ hs2) with (h :: h' :: (hs1 ++ hs2)). rewrite !dotted_cons.
    change (h' :: hs1 ++ hs2) with ((h' :: hs1) ++ hs2). rewrite IH by done. by rewrite <- app_assoc.
Qed.

(** What follows a period is a text of the last parts. *)
Lemma dotted_suffix hs t t' :
  Forall no_period hs → dotted hs = t ++ 46%N :: t' → ∃ hs1 hs2, hs = hs1 ++ hs2 ∧ hs2 ≠ [] ∧ t' = dotted hs2.
Proof.
  intros Hf. revert t. induction Hf as [|h hs Hh Hf IH]; intros t; [by destruct t|]. destruct hs as [|h2 hs].
  - intros H. by apply no_period_app in H.
  - rewrite dotted_cons. intros H. apply app_eq_inv in H as [(k & Eh & H)|(k & -> & H)].
    + destruct k as [|u k]; [|injection H as <- _; exfalso; by eapply no_period_app in Hh].
      injection H as H. by exists [h], (h2 :: hs).
    + destruct k as [|u k]; [injection H as H; by exists [h], (h2 :: hs)|]. injection H as <- H.
      destruct (IH k H) as (hs1 & hs2 & -> & Hne & ->). by exists (h :: hs1), hs2.
Qed.

Lemma starts_dotted n ns hs :
  Forall no_period (n :: ns) → Forall no_period hs → hs ≠ [] →
  starts_parts (n :: ns) (dotted hs) ↔ ∃ hs', hs = n :: hs' ∧ ns `sublist_of` hs'.
Proof.
  revert n hs. induction ns as [|m ns IH]; intros n hs [Hn Hns]%Forall_cons Hhs Hne.
  - split.
    + intros H. inversion H as [? ? Hd| |]; subst; [|done|done]. destruct hs as [|h [|h2 hs]]; [done| |].
      * change (dotted [h]) with h in Hd. destruct Hd as [->|[t' Hd]]; [exists []; split; [done|constructor]|]. apply Forall_cons in Hhs as [Hh _]. by apply no_period_app in Hd.
      * rewrite dotted_cons in Hd. apply Forall_cons in Hhs as [Hh _]. destruct Hd as [Hd|[t' Hd]].
        -- by apply eq_sym, no_period_app in Hd.
        -- apply period_inj in Hd as [-> _]; [|done..]. exists (h2 :: hs). split; [done|]. apply sublist_nil_l.
    + intros (hs' & -> & _). constructor. destruct hs' as [|h2 hs']; [by left|]. right. by eexists.
  - assert (∀ t, dotted hs = n ++ 46%N :: t → ∃ h2 hs', hs = n :: h2 :: hs' ∧ t = dotted (h2 :: hs')) as Hhead.
    { intros t Ht. destruct hs as [|h [|h2 hs]]; [done| |].
      - apply Forall_cons in Hhs as [Hh _]. by apply no_period_app in Ht.
      - rewrite dotted_cons in Ht. apply Forall_cons in Hhs as [Hh _]. apply period_inj in Ht as [-> <-]; [|done..]. by eexists _, _. }
    split.
    + intros H. inversion H as [|? ? ? ? Ht Hsp _|? ? ? ? ? Ht Hsp _]; subst.
      * apply Hhead in Ht as (h2 & hs' & -> & ->). apply Forall_cons in Hhs as [_ Hhs].
        apply IH in Hsp as (hs2 & Heq & Hsub); [|done..]. exists (h2 :: hs'). split; [done|]. rewrite Heq. by constructor.
      * apply Hhead in Ht as (h2 & hs' & -> & Ht). apply Forall_cons in Hhs as [_ Hhs].
        destruct (dotted_suffix (h2 :: hs') t' t'' Hhs) as (hs1 & hs2 & Heq & Hne2 & ->); [done|].
        rewrite Heq in Hhs. apply Forall_app in Hhs as [_ Hhs2].
        apply IH in Hsp as (hs3 & -> & Hsub); [|done..]. exists (h2 :: hs'). split; [done|]. rewrite Heq.
        apply sublist_inserts_l. by constructor.
    + intros (hs' & -> & Hsub). apply Forall_cons in Hhs as [_ Hhs]. apply sublist_cons_l in Hsub as (hs1 & hs2 & -> & Hsub).
      apply Forall_app in Hhs as [_ Hhs2].
      assert (starts_parts (m :: ns) (dotted (m :: hs2))) as Hsp by (apply IH; [done..|by eexists]).
      destruct hs1 as [|h1 hs1].
      * eapply sp_next; [|exact Hsp|done]. apply dotted_cons.
      * eapply sp_skip; [|exact Hsp|done]. change ((h1 :: hs1) ++ m :: hs2) with (h1 :: (hs1 ++ m :: hs2)). rewrite dotted_cons.
        do 2 f_equal. change (h1 :: hs1 ++ m :: hs2) with ((h1 :: hs1) ++ m :: hs2). by apply dotted_app.
Qed.

Lemma start_ends s i k : i ≤ length s → k ∈ ends (RSeq REmpty start_re) s i ↔ i = 0 ∧ k = 0 ∨ k = S i ∧ s !! i = Some 46%N.
Proof.
  intros Hi. rewrite ends_seq. unfold start_re. split.
  - intros (a & ->%list_elem_of_singleton & H). cbn [JsRegExp.ends] in H. apply elem_of_app in H as [H|H].
    + change (k ∈ ends (RSeq REmpty RBegin) s i) in H. apply ends_seq in H as (b & ->%list_elem_of_singleton & H).
      cbn in H. case_bool_decide; [|by apply elem_of_nil in H]. apply list_elem_of_singleton in H. left. by subst.
    + change (k ∈ ends (RSeq REmpty (RChar 46%N)) s i) in H. apply ends_seq in H as (b & ->%list_elem_of_singleton & H).
      apply ends_period in H. by right.
  - intros H. exists i. split; [by left|]. cbn [JsRegExp.ends]. apply elem_of_app. destruct H as [[-> ->]|[-> H]].
    + left. change (0 ∈ ends (RSeq REmpty RBegin) s 0). apply ends_seq. exists 0. split; by left.
    + right. change (S i ∈ ends (RSeq REmpty (RChar 46%N)) s i). apply ends_seq. exists i. split; [by left|]. by apply ends_period.
Qed.

(** The regular expression that the namespaces of a call are turned into compiles, for
    namespaces of ordinary units, and matches the namespace of a handler exactly when the
    namespaces of the call are among those of the handler, in their order. *)
Lemma namespaces_match n ns hs :
  Forall plain_part (n :: ns) → Forall no_period hs → Forall (Forall (λ u, line_end u = false)) hs → hs ≠ [] →
  ∃ r, namespace_re (n :: ns) = Some r ∧ (re_test (λ u, u) r (dotted hs) = true ↔ n :: ns `sublist_of` hs).
Proof.
  intros Hns Hhs Hl Hne. exists (whole_re (n :: ns)). split; [by apply namespace_re_parses|]. set (s := dotted hs).
  assert (Forall (λ u, line_end u = false) s) as Hs.
  { unfold s. clear -Hl. induction Hl as [|h hs Hh _ IH]; [constructor|]. destruct hs; [done|]. rewrite dotted_cons.
    apply Forall_app. split; [done|]. by constructor. }
  assert (Forall no_period (n :: ns)) as Hnp.
  { eapply Forall_impl; [exact Hns|]. intros x (_ & Hm & _) Hin. rewrite Forall_forall in Hm. specialize (Hm _ Hin). by vm_compute in Hm. }
  rewrite re_test_true. trans (∃ hs1 hs2, hs = hs1 ++ hs2 ∧ hs2 ≠ [] ∧ starts_parts (n :: ns) (dotted hs2)).
  - split.
    + intros (i & j & Hi & Hj). destruct (proj1 (whole_ends (n :: ns) _ s i ltac:(done) Hi Hs) (ex_intro _ j Hj)) as (k & Hk & Hsp).
      apply start_ends in Hk as [[-> ->]|[-> Hp]]; [by exists [], hs|  |done].
      apply lookup_drop_cons in Hp as [Hd _]. destruct (dotted_suffix hs (take i s) (drop (S i) s) Hhs) as (hs1 & hs2 & -> & Hne2 & E).
      { by rewrite <- Hd, take_drop. }
      exists hs1, hs2. split_and!; [done|done|]. by rewrite <- E.
    + intros (hs1 & hs2 & -> & Hne2 & Hsp). destruct hs1 as [|h1 hs1].
      * destruct (proj2 (whole_ends (n :: ns) (RSeq REmpty start_re) s 0 ltac:(done) ltac:(lia) Hs)) as [j Hj]; [|by exists 0, j; split; [lia|]].
        exists 0. split; [apply start_ends; [lia|by left]|done].
      * unfold s in *. rewrite dotted_app in * by done. set (d1 := dotted (h1 :: hs1)) in *.
        assert ((d1 ++ 46%N :: dotted hs2) !! length d1 = Some 46%N) as Hp by (by rewrite lookup_app_r, Nat.sub_diag by lia).
        pose proof (lookup_lt_Some _ _ _ Hp).
        destruct (proj2 (whole_ends (n :: ns) (RSeq REmpty start_re) (d1 ++ 46%N :: dotted hs2) (length d1) ltac:(done) ltac:(lia) Hs)) as [j Hj];
          [|by exists (length d1), j; split; [lia|]].
        exists (S (length d1)). split; [apply start_ends; [lia|by right]|].
        replace (drop (S (length d1)) (d1 ++ 46%N :: dotted hs2)) with (dotted hs2); [done|].
        change (46%N :: dotted hs2) with ([46%N] ++ dotted hs2). rewrite app_assoc.
        replace (S (length d1)) with (length (d1 ++ [46%N])) by (rewrite length_app; cbn; lia). by rewrite drop_app_length.
  - split.
    + intros (hs1 & hs2 & -> & Hne2 & Hsp). apply Forall_app in Hhs as [_ Hh2].
      apply starts_dotted in Hsp as (hs' & -> & Hsub); [|done..]. apply sublist_inserts_l. by constructor.
    + intros Hsub. apply sublist_cons_l in Hsub as (hs1 & hs2 & -> & Hsub). exists hs1, (n :: hs2). split_and!; [done..|].
      apply Forall_app in Hhs as [_ Hh2]. apply starts_dotted; [done..|by eexists].
Qed.
