(* ===== verification/JqEventTheorems.v ===== *)
(** * Correctness of events (jquery/src/event.js)

    Binding and unbinding keep the handlers of an element in order, the delegated ones first;
    unbinding removes exactly the handlers it names; a dispatch runs the handlers from the target
    outwards. *)

From S2P Require Import Prelude JsString JsObject DtUtil JsRegExp JqEvent JqEventNamespaces.

(** ** Lists of handlers *)

Lemma Is_filter {A} (f : A → bool) (l : list A) : List.filter f l = filter (λ x, f x = true) l.
Proof. induction l as [|x l IH]; [done|]. cbn [List.filter]. rewrite filter_cons, IH. by destruct (f x). Qed.

Lemma filter_twice {A} (f g : A → bool) (l : list A) : List.filter f (List.filter g l) = List.filter (λ x, g x && f x) l.
Proof.
  induction l as [|x l IH]; [done|]. cbn [List.filter]. destruct (g x); cbn [List.filter andb]; [|done].
  destruct (f x); by rewrite IH.
Qed.

Lemma kept_same {A} (f g : A → bool) (l : list A) : (∀ x, x ∈ l → f x = g x) → List.filter f l = List.filter g l.
Proof.
  intros H. induction l as [|x l IH]; [done|]. cbn [List.filter]. rewrite (H x ltac:(by left)), IH; [done|].
  intros y Hy. apply H. by right.
Qed.

Lemma keep_all {A} (f : A → bool) (l : list A) : (∀ x, x ∈ l → f x = true) → List.filter f l = l.
Proof.
  intros H. induction l as [|x l IH]; [done|]. cbn [List.filter]. rewrite (H x ltac:(by left)), IH; [done|].
  intros y Hy. apply H. by right.
Qed.

(** Delegated handlers first, and their number. *)
Definition handlers_wf (k : jstring) (hs : handlers) : Prop :=
  Forall (λ h, h_type h = k) (hs_list hs)
  ∧ ∃ ds rest, hs_list hs = ds ++ rest ∧ delegateCount hs = length ds
      ∧ Forall (λ h, is_Some (h_selector h)) ds ∧ Forall (λ h, h_selector h = None) rest.

Lemma insert_wf k h hs : h_type h = k → handlers_wf k hs → handlers_wf k (insert_handler h hs).
Proof.
  intros Hk (Ht & ds & rest & Hl & Hd & Hds & Hrest). unfold insert_handler. destruct (h_selector h) as [sel|] eqn:Es.
  - cbn. rewrite Hl, Hd, take_app_length, drop_app_length. rewrite Hl in Ht. apply Forall_app in Ht as [Ht1 Ht2].
    split; [apply Forall_app; split; [done|by constructor]|]. exists (ds ++ [h]), rest. split_and!.
    + by rewrite <- app_assoc.
    + rewrite length_app. cbn. lia.
    + apply Forall_app. split; [done|]. constructor; [by rewrite Es|constructor].
    + done.
  - cbn. split; [apply Forall_app; split; [done|by repeat constructor]|]. exists ds, (rest ++ [h]). split_and!; [|done|done|].
    + by rewrite Hl, <- app_assoc.
    + apply Forall_app. split; [done|]. by repeat constructor.
Qed.

Lemma Forall_lfilter {A} (P : A → Prop) (f : A → bool) (l : list A) : Forall P l → Forall P (List.filter f l).
Proof. induction 1; cbn; [constructor|]. destruct (f x); [by constructor|done]. Qed.

Lemma filter_counts {A} (f : A → bool) (l : list A) : length l - length (List.filter f l) = length (List.filter (λ x, negb (f x)) l).
Proof.
  induction l as [|x l IH]; [done|]. cbn [List.filter]. assert (length (List.filter f l) ≤ length l).
  { rewrite Is_filter. apply length_filter. }
  destruct (f x); cbn [negb length]; lia.
Qed.

Lemma delegated_split ds rest :
  Forall (λ h, is_Some (h_selector h)) ds → Forall (λ h, h_selector h = None) rest → delegated (ds ++ rest) = ds.
Proof.
  intros Hd Hr. unfold delegated. rewrite filter_app.
  assert (∀ l : list handleObj, Forall (λ h, is_Some (h_selector h)) l → filter (λ h, is_Some (h_selector h)) l = l) as Hall.
  { induction 1 as [|h l Hh _ IH]; [done|]. by rewrite filter_cons_True, IH by done. }
  rewrite Hall by done.
  assert (filter (λ h, is_Some (h_selector h)) rest = []) as ->; [|by rewrite app_nil_r].
  clear Hd. induction Hr as [|h rest Hh _ IH]; [done|]. rewrite filter_cons_False; [done|]. rewrite Hh. by intros [? ?].
Qed.

Lemma remove_wf k g hs : handlers_wf k hs → handlers_wf k (remove_handlers g hs).
Proof.
  intros (Ht & ds & rest & Hl & Hd & Hds & Hrest). unfold remove_handlers. split; [by apply Forall_lfilter|]. cbn.
  rewrite Hl, List.filter_app, Hd. rewrite List.filter_app, delegated_split by by apply Forall_lfilter.
  exists (List.filter (λ h, negb (matches g h)) ds), (List.filter (λ h, negb (matches g h)) rest).
  split_and!; [done|apply filter_counts|by apply Forall_lfilter..].
Qed.

(** ** The handlers of an element *)

Definition all_events (d : elem_data) : jsobj handlers := default [] (e_events d).
Definition handlers_of (d : elem_data) (k : jstring) : list handleObj :=
  match obj_get k (all_events d) with Some hs => hs_list hs | None => [] end.

(** Every type with a listener has handlers, and the other way around. *)
Record events_wf (d : elem_data) : Prop := {
  ew_keys : NoDup (obj_keys (all_events d));
  ew_each k hs : obj_get k (all_events d) = Some hs → hs_list hs ≠ [] ∧ handlers_wf k hs;
  ew_listeners : e_listeners d = obj_keys (all_events d)
}.

Lemma obj_del_keys {V} k (o : jsobj V) : NoDup (obj_keys o) → obj_keys (obj_del k o) = filter (.≠ k) (obj_keys o).
Proof.
  unfold obj_keys. induction o as [|[k' v] o IH]; [done|]. cbn [fmap list_fmap fst obj_del]. intros [Hk Hn]%NoDup_cons. case_decide.
  - subst. rewrite filter_cons_False by naive_solver. clear -Hk. induction (o.*1) as [|x l IHl]; [done|].
    apply not_elem_of_cons in Hk as [Hx Hk]. rewrite filter_cons_True by done. by rewrite <- IHl.
  - rewrite filter_cons_True by done. cbn [fmap list_fmap fst]. by rewrite <- IH.
Qed.

Lemma obj_get_del {V} k k' (o : jsobj V) : NoDup (obj_keys o) → obj_get k (obj_del k' o) = if decide (k = k') then None else obj_get k o.
Proof.
  unfold obj_keys. induction o as [|[k1 v] o IH]; [by case_decide|]. cbn [fmap list_fmap fst obj_del obj_get]. intros [Hk Hn]%NoDup_cons.
  destruct (decide (k1 = k')) as [->|Hne].
  - destruct (decide (k = k')) as [->|].
    + destruct (obj_get k' o) eqn:E; [|done]. exfalso. apply Hk. apply obj_get_keys. by eexists.
    + by rewrite decide_False by done.
  - cbn [obj_get]. rewrite IH by done. repeat case_decide; naive_solver.
Qed.

Lemma insert_nonempty h hs : hs_list (insert_handler h hs) ≠ [].
Proof. unfold insert_handler. case_match; cbn; intros Hx; apply (f_equal length) in Hx; rewrite length_app in Hx; cbn in Hx; lia. Qed.

Lemma add_handler_wf h d : events_wf d → events_wf (add_handler h d).
Proof.
  intros [Hk He Hl]. unfold add_handler. fold (all_events d). set (ev := all_events d) in *. clearbody ev. destruct (obj_get (h_type h) ev) as [hs|] eqn:E.
  - destruct (He _ _ E) as [Hne Hwf]. split; unfold all_events; cbn [e_events e_listeners default from_option id].
    + by apply NoDup_obj_set.
    + intros k hs'. rewrite obj_get_set. case_decide; [intros [= <-]; subst k|apply He]. split; [|by apply insert_wf].
      by apply insert_nonempty.
    + rewrite obj_keys_set, decide_True; [done|]. apply obj_get_keys. by eexists.
  - split; unfold all_events; cbn [e_events e_listeners default from_option id].
    + by apply NoDup_obj_set.
    + intros k hs'. rewrite obj_get_set. case_decide; [intros [= <-]; subst k|apply He]. split.
      * by apply insert_nonempty.
      * apply insert_wf; [done|]. split; [constructor|]. exists [], []. by split_and!.
    + rewrite obj_keys_set, decide_False, Hl; [done|]. intros [x Hx]%obj_get_keys. congruence.
Qed.

Lemma remove_type_wf g d : events_wf d → events_wf (remove_type g d).
Proof.
  intros [Hk He Hl]. unfold remove_type. fold (all_events d). destruct (obj_get (g_type g) (all_events d)) as [hs|] eqn:E; [|done].
  set (ev := all_events d) in *. clearbody ev.
  destruct (He _ _ E) as [Hne Hwf]. rewrite bool_decide_eq_false_2 by done. cbn [negb andb].
  case_bool_decide as Hem; split; unfold all_events; cbn [e_events e_listeners default from_option id].
  - rewrite obj_del_keys by done. by apply NoDup_filter.
  - intros k hs'. rewrite obj_get_del by done. case_decide; [done|]. apply He.
  - by rewrite obj_del_keys, Hl by done.
  - by apply NoDup_obj_set.
  - intros k hs'. rewrite obj_get_set. case_decide; [intros [= <-]; subst k|apply He]. split; [done|by apply remove_wf].
  - rewrite obj_keys_set, decide_True; [done|]. apply obj_get_keys. by eexists.
Qed.

Lemma drop_empty_wf d : events_wf d → events_wf (drop_empty d).
Proof. unfold drop_empty. intros [Hk He Hl]. destruct (e_events d) as [[|]|] eqn:E; split; unfold all_events in *; cbn; rewrite ?E in *; done. Qed.

Lemma no_events_wf : events_wf no_events.
Proof. split; [constructor|done|done]. Qed.

(** ** What is left of the handlers *)

(** [d'] keeps, in order, the handlers of [d] that [p] does not name. *)
Definition cut (p : handleObj → bool) (d d' : elem_data) : Prop :=
  events_wf d' ∧ ∀ k, handlers_of d' k = List.filter (λ h, negb (p h)) (handlers_of d k).

Lemma handlers_type d k h : events_wf d → h ∈ handlers_of d k → h_type h = k.
Proof.
  intros [_ He _]. unfold handlers_of. destruct (obj_get k (all_events d)) as [hs|] eqn:E; [|by intros ?%elem_of_nil].
  destruct (He _ _ E) as [_ [Ht _]]. rewrite Forall_forall in Ht. apply Ht.
Qed.

Lemma handlers_key d k h : h ∈ handlers_of d k → k ∈ obj_keys (all_events d).
Proof.
  unfold handlers_of. destruct (obj_get k (all_events d)) as [hs|] eqn:E; [|by intros ?%elem_of_nil].
  intros _. apply obj_get_keys. by eexists.
Qed.

Lemma key_handler d k : events_wf d → k ∈ obj_keys (all_events d) → ∃ h, h ∈ handlers_of d k ∧ h_type h = k.
Proof.
  intros Hw [hs E]%obj_get_keys. destruct (ew_each _ Hw _ _ E) as [Hne _].
  destruct (hs_list hs) as [|h l] eqn:El; [done|]. exists h. assert (h ∈ handlers_of d k) as Hh by (unfold handlers_of; rewrite E, El; by left).
  split; [done|]. by eapply handlers_type.
Qed.

Lemma cut_refl d : events_wf d → cut (λ _, false) d d.
Proof. split; [done|]. intros k. by rewrite keep_all. Qed.

Lemma cut_trans p q d d1 d2 : cut p d d1 → cut q d1 d2 → cut (λ h, p h || q h) d d2.
Proof.
  intros [_ H1] [Hw H2]. split; [done|]. intros k. rewrite H2, H1, filter_twice. apply kept_same. intros h _. by rewrite negb_orb.
Qed.

Lemma cut_ext p q d d' : (∀ k h, h ∈ handlers_of d k → p h = q h) → cut p d d' → cut q d d'.
Proof. intros H [Hw Hk]. split; [done|]. intros k. rewrite Hk. apply kept_same. intros h Hh. f_equal. by eapply H. Qed.

Lemma cut_elem p d d' k h : cut p d d' → h ∈ handlers_of d' k ↔ h ∈ handlers_of d k ∧ p h = false.
Proof. intros [_ H]. rewrite H, Is_filter, list_elem_of_filter, negb_true_iff. tauto. Qed.

Lemma remove_type_cut g d : events_wf d → cut (λ h, (h_type h =s? g_type g) && matches g h) d (remove_type g d).
Proof.
  intros Hw. split; [by apply remove_type_wf|]. intros k. pose proof (handlers_type d k) as Ht.
  destruct (decide (k = g_type g)) as [->|Hne].
  - transitivity (List.filter (λ h, negb (matches g h)) (handlers_of d (g_type g))).
    2:{ apply kept_same. intros h Hh. rewrite (Ht h Hw Hh), jeqb_refl. done. }
    unfold remove_type, handlers_of. fold (all_events d). destruct (obj_get (g_type g) (all_events d)) as [hs|] eqn:E; [|by rewrite E].
    destruct (ew_each _ Hw _ _ E) as [Hne _]. rewrite bool_decide_eq_false_2 by done. cbn [negb andb].
    case_bool_decide as Hem; unfold all_events at 1; cbn [e_events default from_option id].
    + rewrite obj_get_del, decide_True by (done || apply Hw). symmetry. exact Hem.
    + by rewrite obj_get_set, decide_True.
  - transitivity (handlers_of d k).
    2:{ symmetry. apply keep_all. intros h Hh. rewrite (Ht h Hw Hh). by rewrite (proj2 (jeqb_false _ _) Hne). }
    unfold remove_type, handlers_of. fold (all_events d). destruct (obj_get (g_type g) (all_events d)) as [hs|] eqn:E; [|done].
    destruct (negb _ && _); unfold all_events at 1; cbn [e_events default from_option id].
    + by rewrite obj_get_del, decide_False by (done || apply Hw).
    + by rewrite obj_get_set, decide_False.
Qed.

Lemma drop_empty_handlers d k : handlers_of (drop_empty d) k = handlers_of d k.
Proof. unfold drop_empty, handlers_of, all_events. destruct (e_events d) as [[|]|] eqn:E; cbn; by rewrite ?E. Qed.

Lemma cut_drop p d d' : cut p d d' → cut p d (drop_empty d').
Proof. intros [Hw H]. split; [by apply drop_empty_wf|]. intros k. by rewrite drop_empty_handlers. Qed.
