(* ===== verification/JqEventOff.v ===== *)
(** * Binding and unbinding events (jquery/src/event.js)

    Whatever is bound and unbound, the data of the elements stays well formed; unbinding removes the
    handlers that the call names and no other. *)

From S2P Require Import Prelude JsString JsObject DtUtil JsRegExp JqEvent JqEventNamespaces JqEventTheorems.

(** ** Texts with periods *)

Lemma split_dot_go s cur :
  ∃ p ps, split_go "."%js s 0 cur = (rev cur ++ p) :: ps ∧ no_period p ∧ Forall no_period ps ∧ s = dotted (p :: ps).
Proof.
  revert cur. induction s as [|u s IH]; intros cur.
  - exists [], []. split_and!; [by rewrite app_nil_r|by apply not_elem_of_nil|constructor|done].
  - cbn [split_go starts_with]. rewrite andb_true_r. case_bool_decide as Hu.
    + subst u. cbn [length Nat.sub]. destruct (IH []) as (p & ps & E & Hp & Hps & ->). cbn [rev app] in E.
      exists [], (p :: ps). rewrite E, app_nil_r. split_and!; [done|by apply not_elem_of_nil|by constructor|done].
    + destruct (IH (u :: cur)) as (p & ps & E & Hp & Hps & ->). exists (u :: p), ps. rewrite E. split_and!; [|by apply not_elem_of_cons|done|by destruct ps].
      cbn [rev]. by rewrite <- app_assoc.
Qed.

(** The parts of a text: there is one, none has a period, and they make up the text. *)
Lemma split_dot s : split "."%js s ≠ [] ∧ Forall no_period (split "."%js s) ∧ dotted (split "."%js s) = s.
Proof.
  destruct (split_dot_go s []) as (p & ps & E & Hp & Hps & Hs). change (split "."%js s) with (split_go "."%js s 0 []).
  rewrite E. cbn [rev app]. split_and!; [done|by constructor|done].
Qed.

Lemma dotted_Forall (P : N → Prop) l : P 46%N → Forall P (dotted l) ↔ Forall (Forall P) l.
Proof.
  intros Hp. induction l as [|s l IH]; [by split|]. destruct l as [|t l].
  - change (dotted [s]) with s. rewrite Forall_cons, Forall_nil. tauto.
  - rewrite dotted_cons, Forall_app, !Forall_cons, IH, Forall_cons. tauto.
Qed.

Lemma split_dot_no s : no_period s → split "."%js s = [s].
Proof. intros H. apply (split_join 46%N [] [s]); [done|by constructor]. Qed.

Lemma insert_str_perm s l : insert_str s l ≡ₚ s :: l.
Proof. induction l as [|t l IH]; [done|]. cbn [insert_str]. destruct (str_leb s t); [done|]. rewrite IH. by constructor. Qed.
Lemma sort_strs_perm l : sort_strs l ≡ₚ l.
Proof. induction l as [|s l IH]; [done|]. cbn [sort_strs]. by rewrite insert_str_perm, IH. Qed.

(** The first period. *)
Lemma index_of_dot t : match index_of "."%js t with
  | None => no_period t
  | Some i => no_period (take i t) ∧ t = take i t ++ 46%N :: drop (S i) t
  end.
Proof.
  induction t as [|u t IH]; [by apply not_elem_of_nil|]. cbn [index_of starts_with]. rewrite andb_true_r. case_bool_decide as Hu.
  - subst. split; [by apply not_elem_of_nil|done].
  - destruct (index_of "."%js t) as [i|]; cbn [fmap option_fmap option_map take drop].
    + destruct IH as [Hn IH]. split; [by apply not_elem_of_cons|]. cbn. by f_equal.
    + by apply not_elem_of_cons.
Qed.

Lemma index_of_dot_app k r : no_period k → index_of "."%js (k ++ 46%N :: r) = Some (length k).
Proof.
  induction k as [|u k IH]; [done|]. intros [Hu Hk]%not_elem_of_cons. cbn [app index_of starts_with length].
  rewrite bool_decide_eq_false_2 by done. cbn [andb]. by rewrite IH.
Qed.
Lemma index_of_dot_none k : no_period k → index_of "."%js k = None.
Proof.
  induction k as [|u k IH]; [done|]. intros [Hu Hk]%not_elem_of_cons. cbn [index_of starts_with]. rewrite bool_decide_eq_false_2 by done. cbn [andb]. by rewrite IH.
Qed.

(** A type, and the text of its namespaces. *)
Definition word_text (type : jstring) (rest : option jstring) : jstring :=
  match rest with None => type | Some r => type ++ 46%N :: r end.

Lemma rtypenamespace_text type rest :
  no_period type → match rest with Some r => r ≠ [] ∧ Forall (λ u, line_end u = false) r | None => True end →
  rtypenamespace (word_text type rest) = Some (type, rest).
Proof.
  intros Ht Hr. unfold rtypenamespace. destruct rest as [r|]; cbn [word_text].
  - destruct Hr as [Hne Hr]. rewrite index_of_dot_app by done.
    assert (drop (S (length type)) (type ++ 46%N :: r) = r) as ->.
    { change (46%N :: r) with ([46%N] ++ r). rewrite app_assoc. apply drop_app_length'. rewrite length_app. cbn. lia. }
    rewrite (proj2 (jeqb_false _ _) Hne). cbn [orb]. rewrite take_app_length.
    assert (existsb line_end r = false) as ->; [|done].
    induction Hr as [|u r Hu Hr IH]; [done|]. cbn [existsb]. rewrite Hu. destruct r; [done|by apply IH].
  - by rewrite index_of_dot_none.
Qed.

Lemma rtypenamespace_some t type rest :
  rtypenamespace t = Some (type, rest) →
  no_period type ∧ t = word_text type rest ∧ match rest with Some r => r ≠ [] ∧ Forall (λ u, line_end u = false) r | None => True end.
Proof.
  unfold rtypenamespace. pose proof (index_of_dot t) as Hd. destruct (index_of "."%js t) as [i|]; [|by intros [= <- <-]].
  destruct Hd as [Hn Ht]. destruct ((drop (S i) t =s? []) || existsb line_end (drop (S i) t)) eqn:E; [done|]. intros [= <- <-].
  apply orb_false_iff in E as [E1 E2]. apply jeqb_false in E1. split_and!; [done|done|done|].
  clear -E2. induction (drop (S i) t) as [|u r IH]; [constructor|]. cbn in E2. apply orb_false_iff in E2 as [? ?]. constructor; auto.
Qed.

(** ** What a call names *)

Fixpoint subseq (ns hs : list jstring) : bool :=
  match hs with
  | [] => bool_decide (ns = [])
  | h :: hs =>
      match ns with
      | [] => true
      | n :: ns' => if n =s? h then subseq ns' hs else subseq ns hs
      end
  end.

Lemma subseq_spec ns hs : subseq ns hs = true ↔ ns `sublist_of` hs.
Proof.
  revert ns. induction hs as [|h hs IH]; intros ns; cbn [subseq].
  - rewrite bool_decide_eq_true. split; [by intros ->|]. by intros ?%sublist_nil_r.
  - destruct ns as [|n ns]; [split; [intros _; apply sublist_nil_l|done]|]. destruct (n =s? h) eqn:E.
    + apply jeqb_true in E. subst. rewrite IH. split; [by constructor|]. intros Hs. apply sublist_cons_r in Hs as [Hs|(l & [= ->] & Hs)]; [|done].
      etransitivity; [|exact Hs]. by constructor.
    + apply jeqb_false in E. rewrite IH. split; [by constructor|]. intros Hs. apply sublist_cons_r in Hs as [Hs|(l & [= ->] & Hs)]; done.
Qed.

(** The types that events are bound with under other names: such a name is a type of its own. *)
Class SpecialTypes (special_type : bool → jstring → option jstring) := {
  special_plain b t t' : special_type b t = Some t' → t' ≠ [] → token t' ∧ no_period t';
  special_bound s t : bound_type special_type None (bound_type special_type s t) = bound_type special_type s t;
  special_delegated s s' t :
    bound_type special_type (Some s') (bound_type special_type (Some s) t) = bound_type special_type (Some s) t
}.

Abbreviation fixed_types := (["focusin"%js; "focusout"%js; "mouseover"%js; "mouseout"%js; "pointerover"%js; "pointerout"%js]).

Lemma jq_special_fixed b t t' : jq_special b t = Some t' → t' ∈ fixed_types.
Proof. unfold jq_special, mouse_types, obj_get. intros H. repeat case_match; simplify_eq; apply list_elem_of_In; cbn; tauto. Qed.

Lemma fixed_ok t : t ∈ fixed_types → token t ∧ no_period t ∧ jq_special true t = None ∧ jq_special false t = None.
Proof.
  revert t. apply Forall_forall.
  by apply (bool_decide_eq_true_1 (Forall (λ t, token t ∧ no_period t ∧ jq_special true t = None ∧ jq_special false t = None) _)).
Qed.

Lemma jq_special_none t : jq_special true t = None → jq_special false t = None.
Proof. unfold jq_special. destruct (t =s? "focus"%js), (t =s? "blur"%js); done. Qed.

#[export] Instance jq_special_types : SpecialTypes jq_special.
Proof.
  assert (∀ s t, t ∈ fixed_types → bound_type jq_special s t = t) as Hf.
  { intros s t (_ & _ & H1 & H2)%fixed_ok. unfold bound_type. case_bool_decide; by rewrite ?H1, ?H2. }
  assert (∀ s t, bound_type jq_special s t ∈ fixed_types ∨ jq_special (bool_decide (is_Some s)) t = None ∧ bound_type jq_special s t = t) as Hb.
  { intros s t. unfold bound_type. destruct (jq_special _ t) as [t'|] eqn:E; [|by right]. left. apply jq_special_fixed in E.
    by destruct (t' =s? []) eqn:E'; [apply jeqb_true in E'; subst; apply fixed_ok in E as [[? _] _]|]. }
  split.
  - intros b t t' H _. apply jq_special_fixed in H. apply fixed_ok in H as (? & ? & _). done.
  - intros s t. destruct (Hb s t) as [H|[Hn ->]]; [by apply Hf|]. unfold bound_type at 1. destruct s as [s|]; [|by rewrite Hn].
    cbn in Hn |- *. by rewrite (jq_special_none _ Hn).
  - intros s s' t. destruct (Hb (Some s) t) as [H|[Hn ->]]; [by apply Hf|]. unfold bound_type at 1. cbn in Hn |- *. by rewrite Hn.
Qed.

Section off.
Context {special_type : bool → jstring → option jstring} `{!SpecialTypes special_type}.
Abbreviation bound_type := (JqEvent.bound_type special_type).

(** The namespaces of a word of a call are among those of the handler. *)
Definition in_namespaces (rest : option jstring) (h : handleObj) : bool :=
  match rest with
  | None => true
  | Some r => subseq (sort_strs (split "."%js r)) (split "."%js (h_namespace h))
  end.
Definition same_guid (guid : option (option nat)) (h : handleObj) : bool :=
  match guid with Some n => bool_decide (n = Some (h_guid h)) | None => true end.
Definition same_selector (selector : option jstring) (h : handleObj) : bool :=
  match selector with
  | None => true
  | Some s => bool_decide (h_selector h = Some s) || ((s =s? "**"%js) && bool_decide (is_Some (h_selector h)))
  end.

(** The word [t] of a call names the handler: with its type, or with no type at all. *)
Definition names (selector : option jstring) (t : jstring) (h : handleObj) : bool :=
  match rtypenamespace t with
  | Some (type, rest) =>
      ((type =s? []) || (type =s? h_origType h) && (h_type h =s? bound_type selector type)) && in_namespaces rest h
  | None => false
  end.

(** The namespaces of a word are ordinary texts. *)
Definition plain_rest (rest : option jstring) : Prop :=
  match rest with Some r => Forall plain_part (split "."%js r) | None => True end.
Definition plain_word (t : jstring) : Prop :=
  match rtypenamespace t with Some (_, rest) => plain_rest rest | None => False end.

(** ** Well-formed handlers *)

Record handler_ok (h : handleObj) : Prop := {
  ho_type : h_type h = bound_type (h_selector h) (h_origType h);
  ho_token : token (h_type h);
  ho_period : no_period (h_type h);
  ho_line : Forall (λ u, line_end u = false) (h_namespace h)
}.

Record data_ok (d : elem_data) : Prop := {
  do_events : events_wf d;
  do_handlers k h : h ∈ handlers_of d k → handler_ok h
}.

Lemma cut_ok p d d' : data_ok d → cut p d d' → data_ok d'.
Proof.
  intros [Hw Hh] Hc. split; [apply Hc|]. intros k h Hin. apply (cut_elem p d d' k h Hc) in Hin as [Hin _]. by eapply Hh.
Qed.

Lemma events_key d k : data_ok d → k ∈ obj_keys (all_events d) → token k ∧ no_period k ∧ bound_type None k = k.
Proof.
  intros [Hw Hh] (h & Hin & <-)%key_handler; [|done]. destruct (Hh _ _ Hin) as [Ht ? ? _]. split_and!; [done|done|].
  rewrite Ht. apply special_bound.
Qed.

(** ** One word of a call *)

Definition removal (guid : option (option nat)) (selector : option jstring) (mapped : bool) (type : jstring) (rest : option jstring)
    (h : handleObj) : bool :=
  (h_type h =s? bound_type selector type) && (mapped || (type =s? h_origType h)) && same_guid guid h && in_namespaces rest h
  && same_selector selector h.

Lemma namespaces_plain r : Forall plain_part (split "."%js r) → ∃ n ns, namespaces_of (Some ([], Some r)) = n :: ns ∧ Forall plain_part (n :: ns).
Proof.
  intros Hp. change (namespaces_of (Some ([], Some r))) with (sort_strs (split "."%js r)).
  pose proof (sort_strs_perm (split "."%js r)) as Hs. destruct (sort_strs (split "."%js r)) as [|n ns].
  - apply Permutation_nil_l in Hs. by destruct (split_dot r) as [? _].
  - exists n, ns. split; [done|]. by rewrite Hs.
Qed.

Lemma in_namespaces_re type r :
  plain_rest (Some r) →
  ∃ e, namespace_re (namespaces_of (Some (type, Some r))) = Some e
    ∧ ∀ h, handler_ok h → re_test (λ u, u) e (h_namespace h) = in_namespaces (Some r) h.
Proof.
  intros Hr. change (namespaces_of (Some (type, Some r))) with (namespaces_of (Some ([], Some r))).
  destruct (namespaces_plain r Hr) as (n & ns & E & Hp).
  destruct (namespaces_match n ns [[]] Hp) as (e & He & _); [repeat constructor; by apply not_elem_of_nil|by repeat constructor|done|].
  exists e. rewrite E. split; [done|]. intros h Hh. destruct (split_dot (h_namespace h)) as (Hne & Hper & Hs).
  destruct (namespaces_match n ns (split "."%js (h_namespace h)) Hp Hper) as (e' & He' & Hiff); [|done|].
  { rewrite <- dotted_Forall by done. rewrite Hs. by apply Hh. }
  rewrite He in He'. injection He' as <-. rewrite Hs in Hiff. cbn [in_namespaces].
  change (sort_strs (split "."%js r)) with (namespaces_of (Some ([], Some r))). rewrite E.
  apply eq_true_iff_eq. by rewrite Hiff, subseq_spec.
Qed.

(** A word with a type, on an element. *)
Definition remove_named (guid : option (option nat)) (selector : option jstring) (mapped : bool) (type : jstring) (rest : option jstring)
    (d : elem_data) : option elem_data :=
  r ← (match rest with
       | Some _ => Some <$> namespace_re (namespaces_of (Some (type, rest)))
       | None => Some None
       end);
  Some (remove_type (Target (bound_type selector type) type mapped guid r selector) d).

Lemma remove_named_cut guid selector mapped type rest d :
  data_ok d → plain_rest rest →
  ∃ d', remove_named guid selector mapped type rest d = Some d' ∧ cut (removal guid selector mapped type rest) d d'.
Proof.
  intros [Hw Hh] Hr. unfold remove_named. destruct rest as [r|].
  - destruct (in_namespaces_re type r Hr) as (e & -> & He). eexists. split; [done|].
    eapply cut_ext; [|by apply remove_type_cut]. intros k h Hin. unfold matches, removal, same_guid, same_selector.
    cbn [g_type g_origType g_mapped g_guid g_namespaces g_selector].
    rewrite (He h) by (by eapply Hh). cbn [in_namespaces]. by rewrite !andb_assoc.
  - eexists. split; [done|]. eapply cut_ext; [|by apply remove_type_cut]. intros k h _. unfold matches, removal, same_guid, same_selector.
    cbn [g_type g_origType g_mapped g_guid g_namespaces g_selector].
    by rewrite !andb_assoc.
Qed.

(** ** A call *)

Definition remove_word (fuel : nat) (guid : option (option nat)) (selector : option jstring) (mapped : bool) (t : jstring)
    (d : elem_data) : option elem_data :=
  match rtypenamespace t with
  | Some ((_ :: _) as type, ns) => remove_named guid selector mapped type ns d
  | _ =>
      foldl (λ (d : option elem_data) (type : jstring), d ← d; event_remove special_type fuel (type ++ t) guid selector true d)
        (Some d) (for_in (all_events d))
  end.

Lemma event_remove_S fuel types guid selector mapped d :
  event_remove special_type (S fuel) types guid selector mapped d =
  match e_events d with
  | None => Some d
  | Some _ =>
      d ← foldr (λ t (d : option elem_data), d ← d; remove_word fuel guid selector mapped t d) (Some d) (event_types types);
      Some (drop_empty d)
  end.
Proof. reflexivity. Qed.

Lemma no_handlers d k : e_events d = None → handlers_of d k = [].
Proof. intros E. unfold handlers_of, all_events. by rewrite E. Qed.

Lemma word_text_token type rest : token type → (rest ≠ None → token (word_text [] rest)) → token (word_text type rest).
Proof.
  intros [Hne Hf] Hr. destruct rest as [r|]; [|done]. specialize (Hr ltac:(done)) as [_ Hr]. cbn in Hr |- *.
  split; [by destruct type|]. apply Forall_app. done.
Qed.

(** One type of a call for all types. *)
Lemma remove_key_cut guid selector type rest d :
  data_ok d → plain_rest rest → token type → no_period type → rtypenamespace (word_text type rest) = Some (type, rest) →
  token (word_text type rest) →
  ∃ d', event_remove special_type 1 (word_text type rest) guid selector true d = Some d'
    ∧ cut (removal guid selector true type rest) d d'.
Proof.
  intros Hd Hr Ht Hp Hw Htok. rewrite event_remove_S. destruct (e_events d) as [ev|] eqn:E.
  - unfold event_types. rewrite (words_token _ Htok). cbn [foldr mbind option_bind].
    unfold remove_word. rewrite Hw. destruct type as [|u type]; [by destruct Ht|].
    destruct (remove_named_cut guid selector true (u :: type) rest d Hd Hr) as (d' & -> & Hc). cbn [mbind option_bind].
    eexists. split; [done|]. by apply cut_drop.
  - eexists. split; [done|]. eapply cut_ext; [|apply cut_refl, Hd]. intros k h Hin. by rewrite no_handlers in Hin; [apply elem_of_nil in Hin|].
Qed.

Lemma remove_keys_cut guid selector rest ks d :
  data_ok d → plain_rest rest →
  Forall (λ k, token k ∧ no_period k ∧ rtypenamespace (word_text k rest) = Some (k, rest) ∧ token (word_text k rest)) ks →
  ∃ d', foldl (λ (d : option elem_data) (type : jstring), d ← d; event_remove special_type 1 (word_text type rest) guid selector true d) (Some d) ks
        = Some d'
    ∧ cut (λ h, existsb (λ k, removal guid selector true k rest h) ks) d d'.
Proof.
  intros Hd Hr Hks. revert d Hd. induction Hks as [|k ks (Ht & Hp & Hw & Htok) _ IH]; intros d Hd.
  - exists d. split; [done|]. by apply cut_refl, Hd.
  - cbn [foldl mbind option_bind]. destruct (remove_key_cut guid selector k rest d Hd Hr Ht Hp Hw Htok) as (d1 & -> & Hc1).
    destruct (IH d1 (cut_ok _ _ _ Hd Hc1)) as (d2 & -> & Hc2). exists d2. split; [done|]. by eapply cut_trans.
Qed.

(** What a word removes from the handlers of an element. *)
Definition word_removes (guid : option (option nat)) (selector : option jstring) (t : jstring) (h : handleObj) : bool :=
  names selector t h && same_guid guid h && same_selector selector h.

Lemma removal_all guid selector rest ks h :
  handler_ok h → h_type h ∈ ks →
  existsb (λ k, removal guid selector true k rest h) ks = in_namespaces rest h && same_guid guid h && same_selector selector h.
Proof.
  intros Hh Hin. apply eq_true_iff_eq. rewrite existsb_exists. unfold removal. cbn [orb]. split.
  - intros (k & _ & [[[_ Hg]%andb_true_iff Hi]%andb_true_iff Hs]%andb_true_iff). by rewrite Hg, Hi, Hs.
  - intros [[H1 H2]%andb_true_iff H3]%andb_true_iff. exists (h_type h). split; [by apply list_elem_of_In|].
    rewrite H1, H2, H3, !andb_true_r. apply jeqb_true. destruct Hh as [Ht _ _ _].
    destruct selector as [s|]; [|rewrite Ht; symmetry; apply special_bound].
    unfold same_selector in H3. assert (is_Some (h_selector h)) as [s' Es].
    { apply orb_true_iff in H3 as [H3%bool_decide_eq_true|[_ H3%bool_decide_eq_true]%andb_true_iff]; [by rewrite H3; eexists|done]. }
    rewrite Ht, Es. symmetry. apply special_delegated.
Qed.

Lemma remove_word_cut guid selector t d :
  data_ok d → plain_word t → token t ∨ t = [] →
  ∃ d', remove_word 1 guid selector false t d = Some d' ∧ cut (word_removes guid selector t) d d'.
Proof.
  intros Hd Hp Ht. unfold plain_word in Hp. unfold remove_word, word_removes, names.
  destruct (rtypenamespace t) as [[type rest]|] eqn:E; [|done]. destruct (rtypenamespace_some _ _ _ E) as (Hper & Htext & Hrest).
  destruct type as [|u type].
  - destruct (remove_keys_cut guid selector rest (for_in (all_events d)) d Hd Hp) as (d' & Hf & Hc).
    + apply Forall_forall. intros k Hk%elem_of_for_in. destruct (events_key d k Hd Hk) as (Hkt & Hkp & _). split_and!; [done|done|by apply rtypenamespace_text|].
      apply word_text_token; [done|]. intros Hr. rewrite <- Htext. destruct Ht as [Ht| ->]; [done|]. by destruct rest.
    + exists d'. split.
      * rewrite <- Hf. clear Hf Hc. generalize (Some d). induction (for_in (all_events d)) as [|k ks IH]; intros o; [done|]. cbn [foldl].
        rewrite IH. do 2 f_equal. rewrite Htext. destruct rest; [done|]. cbn. by rewrite app_nil_r.
      * eapply cut_ext; [|exact Hc]. intros k h Hin. cbv beta. rewrite removal_all; [done|by eapply Hd|].
        apply elem_of_for_in. rewrite (handlers_type d k h) by (done || apply Hd). by eapply handlers_key.
  - destruct (remove_named_cut guid selector false (u :: type) rest d Hd Hp) as (d' & Hf & Hc). exists d'. split; [done|].
    eapply cut_ext; [|exact Hc]. intros k h Hin. unfold removal. change (u :: type =s? []) with false. cbn [orb].
    destruct (h_type h =s? _), (u :: type =s? _), (same_guid guid h), (in_namespaces rest h); done.
Qed.

Lemma remove_words_cut guid selector ts d :
  data_ok d → Forall (λ t, plain_word t ∧ (token t ∨ t = [])) ts →
  ∃ d', foldr (λ t (d : option elem_data), d ← d; remove_word 1 guid selector false t d) (Some d) ts = Some d'
    ∧ cut (λ h, existsb (λ t, word_removes guid selector t h) ts) d d'.
Proof.
  intros Hd Hts. induction Hts as [|t ts [Hp Ht] _ (d1 & Hf & Hc1)].
  - exists d. split; [done|]. by apply cut_refl, Hd.
  - cbn [foldr]. rewrite Hf. cbn [mbind option_bind].
    destruct (remove_word_cut guid selector t d1 (cut_ok _ _ _ Hd Hc1) Hp Ht) as (d2 & -> & Hc2). exists d2. split; [done|].
    eapply cut_ext; [|by eapply cut_trans]. intros k h _. cbn. apply orb_comm.
Qed.

Lemma event_types_ok types : Forall (λ t, token t ∨ t = []) (event_types types).
Proof.
  unfold event_types. pose proof (words_all_tokens types) as H. destruct (words types); [by repeat constructor; right|].
  eapply Forall_impl; [exact H|]. by left.
Qed.

Lemma event_remove_cut types guid selector d :
  data_ok d → Forall plain_word (event_types types) →
  ∃ d', event_remove special_type remove_fuel types guid selector false d = Some d'
    ∧ cut (λ h, existsb (λ t, word_removes guid selector t h) (event_types types)) d d'.
Proof.
  intros Hd Hp. unfold remove_fuel. rewrite event_remove_S. destruct (e_events d) as [ev|] eqn:E.
  - destruct (remove_words_cut guid selector (event_types types) d Hd) as (d' & -> & Hc).
    { pose proof (event_types_ok types) as Ht. rewrite Forall_forall in *. eauto. }
    cbn [mbind option_bind]. eexists. split; [done|]. by apply cut_drop.
  - eexists. split; [done|]. eapply cut_ext; [|apply cut_refl, Hd]. intros k h Hin. by rewrite no_handlers in Hin; [apply elem_of_nil in Hin|].
Qed.
End off.
