(* ===== verification/JqEventCalls.v ===== *)
(** * Sequences of calls that bind and unbind events (jquery/src/event.js)

    The state of the library stays well formed whatever is bound and unbound, and unbinding removes
    exactly the handlers that the call names. *)

From S2P Require Import Prelude JsString JsObject DtUtil JsRegExp JqEvent JqEventNamespaces JqEventTheorems JqEventOff.

Section calls.
Context {special_type : bool → jstring → option jstring} `{!SpecialTypes special_type}.

Record lib_wf (l : lib) : Prop := {
  lw_data elem : data_ok (special_type:=special_type) (elem_of l elem);
  lw_bound elem k h : h ∈ handlers_of (elem_of l elem) k → l_guids l !! fn_of (h_handler h) = Some (h_guid h);
  lw_guids f g : l_guids l !! f = Some g → g < l_guid l;
  lw_distinct f f' g : l_guids l !! f = Some g → l_guids l !! f' = Some g → f = f'
}.

Inductive call :=
  | On (elem : nat) (types : jstring) (handler : callback) (data : nat) (selector : option jstring)
  | Off (elem : nat) (types : jstring) (handler : option callback) (selector : option jstring).

Definition run_call (c : call) (l : lib) : option lib :=
  match c with
  | On elem types handler data selector => Some (event_add special_type elem types handler data selector l)
  | Off elem types handler selector => event_off special_type elem types handler selector l
  end.
Definition run_calls (cs : list call) (l : lib) : option lib := foldl (λ l c, l ← l; run_call c l) (Some l) cs.

Definition new_lib : lib := Lib ∅ ∅ 1.

(** ** Binding *)

Lemma no_events_ok : data_ok (special_type:=special_type) no_events.
Proof. split; [apply no_events_wf|]. intros k h. by intros ?%elem_of_nil. Qed.

Lemma new_lib_wf : lib_wf new_lib.
Proof. split; [intros; apply no_events_ok|by intros ??? ?%elem_of_nil|done|done]. Qed.

Lemma elem_of_put elem e d l : elem_of (put_elem elem d l) e = if decide (e = elem) then d else elem_of l e.
Proof. unfold elem_of, put_elem. cbn. case_decide; [subst; by rewrite lookup_insert_eq|by rewrite lookup_insert_ne]. Qed.

Lemma give_guid_wf c l :
  lib_wf l → lib_wf (give_guid c l).2 ∧ guid_of (give_guid c l).2 c = Some (give_guid c l).1
    ∧ ∀ e, elem_of (give_guid c l).2 e = elem_of l e.
Proof.
  intros [Hd Hb Hg Hi]. unfold give_guid, guid_of. destruct (l_guids l !! fn_of c) as [g|] eqn:E; [done|]. cbn.
  split_and!; [|by rewrite lookup_insert_eq|done]. split; cbn.
  - exact Hd.
  - intros elem k h Hh. apply Hb in Hh. rewrite lookup_insert_ne; [done|]. intros Heq. rewrite Heq in E. congruence.
  - intros f g. rewrite lookup_insert. case_decide; [intros [= <-]; lia|]. intros ?%Hg. lia.
  - intros f f' g. rewrite !lookup_insert. repeat case_decide; subst; [done| | |apply Hi].
    + intros [= <-] Hlt%Hg. lia.
    + intros Hlt%Hg [= <-]. lia.
Qed.

Lemma insert_elem h hs h' : h' ∈ hs_list (insert_handler h hs) ↔ h' = h ∨ h' ∈ hs_list hs.
Proof.
  unfold insert_handler. case_match; cbn.
  - rewrite elem_of_app, elem_of_cons. rewrite <- (take_drop (delegateCount hs) (hs_list hs)) at 3. rewrite elem_of_app. tauto.
  - rewrite elem_of_app, list_elem_of_singleton. tauto.
Qed.

Lemma add_handler_elem h d k h' : h' ∈ handlers_of (add_handler h d) k → h' = h ∨ h' ∈ handlers_of d k.
Proof.
  unfold add_handler, handlers_of. fold (all_events d). destruct (obj_get (h_type h) (all_events d)) as [hs|] eqn:E;
    unfold all_events at 1; cbn [e_events default from_option id]; rewrite obj_get_set; case_decide as Hk; subst; auto; rewrite insert_elem; cbn.
  - by rewrite E.
  - intros [?|?%elem_of_nil]; [by left|done].
Qed.

Lemma new_handler_ok t handler guid data selector h :
  token t ∨ t = [] → new_handler special_type t handler guid data selector = Some h →
  handler_ok (special_type:=special_type) h ∧ h_handler h = handler ∧ h_guid h = guid.
Proof.
  intros Ht. unfold new_handler. destruct (rtypenamespace t) as [[type rest]|] eqn:E; [|done]. destruct type as [|u type]; [done|].
  intros [= <-]. split; [|done]. pose proof (rtypenamespace_some _ _ _ E) as (Hp & Htext & Hrest).
  assert (token (u :: type)) as Htt.
  { split; [done|]. destruct Ht as [[_ Ht]| ->]; [|by destruct rest]. rewrite Htext in Ht. destruct rest as [r|]; [|done].
    apply Forall_app in Ht. apply Ht. }
  assert (token (bound_type special_type selector (u :: type)) ∧ no_period (bound_type special_type selector (u :: type))) as [Hbt Hbp].
  { unfold bound_type. destruct (special_type _ _) as [t'|] eqn:Es; [|done]. destruct (t' =s? []) eqn:E'; [done|].
    apply jeqb_false in E'. by eapply special_plain. }
  split; cbn [h_type h_selector h_origType h_namespace]; [done|done|done|].
  unfold namespaces_of. cbn [mbind option_bind snd].
  assert (Forall (λ u, line_end u = false) (default [] rest)) as Hl by (destruct rest; [apply Hrest|constructor]).
  apply dotted_Forall; [done|]. rewrite sort_strs_perm. apply dotted_Forall; [done|].
  destruct (split_dot (default [] rest)) as (_ & _ & ->). exact Hl.
Qed.

Lemma event_add_wf elem types handler data selector l : lib_wf l → lib_wf (event_add special_type elem types handler data selector l).
Proof.
  intros Hl. unfold event_add. destruct (give_guid_wf handler l Hl) as (Hl' & Hg & _). destruct (give_guid handler l) as [guid l1].
  cbn [fst snd] in *. set (sel := s ← selector; _). clearbody sel. clear l Hl selector.
  assert (∀ ts, Forall (λ t, token t ∨ t = []) ts → ∀ d,
    data_ok (special_type:=special_type) d ∧ (∀ k h, h ∈ handlers_of d k → l_guids l1 !! fn_of (h_handler h) = Some (h_guid h)) →
    let d' := foldr (λ t d, match new_handler special_type t handler guid data sel with Some h => add_handler h d | None => d end) d ts in
    data_ok (special_type:=special_type) d' ∧ (∀ k h, h ∈ handlers_of d' k → l_guids l1 !! fn_of (h_handler h) = Some (h_guid h))) as Hf.
  { intros ts Hts d Hd. induction Hts as [|t ts Ht _ IH]; [done|]. cbn [foldr]. cbv zeta in IH |- *. destruct IH as [[Hw Hh] Hb].
    destruct (new_handler special_type t handler guid data sel) as [h|] eqn:E; [|done].
    destruct (new_handler_ok _ _ _ _ _ _ Ht E) as (Hok & <- & Hgu). split.
    - split; [by apply add_handler_wf|]. intros k h' [->|Hin]%add_handler_elem; [done|by eapply Hh].
    - intros k h' [->|Hin]%add_handler_elem; [|by eapply Hb]. by rewrite Hgu. }
  destruct Hl' as [Hd Hb Hgs Hi].
  specialize (Hf (event_types types) (event_types_ok types) (ElemData (Some (default [] (e_events (elem_of l1 elem)))) true (e_listeners (elem_of l1 elem)))).
  destruct Hf as [Hd' Hb'].
  { assert (∀ k, handlers_of (ElemData (Some (default [] (e_events (elem_of l1 elem)))) true (e_listeners (elem_of l1 elem))) k = handlers_of (elem_of l1 elem) k) as Hsame by done.
    split; [split|].
    - destruct (Hd elem) as [[H1 H2 H3] _]. by split.
    - intros k h. rewrite Hsame. apply (Hd elem).
    - intros k h. rewrite Hsame. apply Hb. }
  split; cbn [put_elem l_guids l_guid]; [| |exact Hgs|exact Hi].
  - intros e. rewrite elem_of_put. case_decide; [exact Hd'|apply Hd].
  - intros e k h. rewrite elem_of_put. case_decide; [apply Hb'|apply Hb].
Qed.

(** ** Unbinding *)

(** The data after a call that unbinds: well formed, without new handlers. *)
Definition shrinks (d d' : elem_data) : Prop :=
  data_ok (special_type:=special_type) d' ∧ ∀ k h, h ∈ handlers_of d' k → h ∈ handlers_of d k.

Lemma shrinks_trans d d1 d2 : shrinks d d1 → shrinks d1 d2 → shrinks d d2.
Proof. intros [_ H1] [Hd H2]. split; [done|]. auto. Qed.

Lemma fold_shrinks {A} (f : A → elem_data → option elem_data) (l : list A) d d' :
  data_ok (special_type:=special_type) d →
  (∀ x d d', data_ok (special_type:=special_type) d → f x d = Some d' → shrinks d d') →
  foldl (λ (d : option elem_data) x, d ← d; f x d) (Some d) l = Some d' → shrinks d d'.
Proof.
  intros Hd Hf. revert d Hd. induction l as [|x l IH]; intros d Hd; cbn [foldl mbind option_bind]; [by intros [= <-]|].
  destruct (f x d) as [d1|] eqn:E.
  - pose proof (Hf _ _ _ Hd E) as H1. intros H2. eapply shrinks_trans; [exact H1|]. apply IH; [apply H1|done].
  - clear. intros H. exfalso. induction l; [done|by apply IHl].
Qed.

Lemma cut_shrinks p d d' : data_ok (special_type:=special_type) d → cut p d d' → shrinks d d'.
Proof. intros Hd Hc. split; [by eapply cut_ok|]. intros k h Hin. by apply (cut_elem p d d' k h Hc) in Hin as [? _]. Qed.

Lemma drop_shrinks d d' : shrinks d d' → shrinks d (drop_empty d').
Proof.
  intros [[Hw Hh] Hs]. split; [split; [by apply drop_empty_wf|]|]; intros k h; rewrite drop_empty_handlers; eauto.
Qed.

Lemma foldr_foldl_rev {A B} (f : B → A → A) a l : foldr f a l = foldl (λ a b, f b a) a (reverse l).
Proof. rewrite <- (reverse_involutive l) at 1. generalize (reverse l). intros k. revert a. induction k as [|x k IH]; intros a; [done|]. rewrite reverse_cons, foldr_app. cbn. by rewrite IH. Qed.

Lemma event_remove_shrinks fuel types guid selector mapped d d' :
  data_ok (special_type:=special_type) d → event_remove special_type fuel types guid selector mapped d = Some d' → shrinks d d'.
Proof.
  revert types mapped d d'. induction fuel as [|fuel IH]; intros types mapped d d' Hd; [done|]. rewrite event_remove_S.
  destruct (e_events d) as [ev|]; [|intros [= <-]; by split].
  rewrite foldr_foldl_rev.
  destruct (foldl _ _ _) as [d1|] eqn:E; [|done]. cbn [mbind option_bind]. intros [= <-]. apply drop_shrinks.
  eapply (fold_shrinks (λ t d, remove_word fuel guid selector mapped t d)); [done| |exact E].
  clear d Hd d1 ev E. intros t d d1 Hd. unfold remove_word.
  assert (∀ o, o = foldl (λ (d : option elem_data) (type : jstring), d ← d; event_remove special_type fuel (type ++ t) guid selector true d)
      (Some d) (for_in (all_events d)) → o = Some d1 → shrinks d d1) as Hall.
  { intros o -> E. eapply (fold_shrinks (λ k d, event_remove special_type fuel (k ++ t) guid selector true d)); [done| |exact E].
    intros k d2 d3 Hd2. by apply IH. }
  destruct (rtypenamespace t) as [[[|u type] ns]|]; [by apply Hall| |by apply Hall].
  unfold remove_named. destruct (match ns with Some _ => _ | None => _ end) as [r|]; [|done]. cbn [mbind option_bind]. intros [= <-].
  eapply cut_shrinks; [done|]. apply remove_type_cut, Hd.
Qed.

Lemma event_off_wf elem types handler selector l l' :
  lib_wf l → event_off special_type elem types handler selector l = Some l' → lib_wf l'.
Proof.
  intros Hl. unfold event_off. destruct (event_remove _ _ _ _ _ _ _) as [d|] eqn:E; [|done]. cbn [mbind option_bind]. intros [= <-].
  destruct Hl as [Hd Hb Hg Hi]. apply event_remove_shrinks in E as [Hd' Hs]; [|apply Hd].
  split; cbn [put_elem l_guids l_guid]; [| |exact Hg|exact Hi].
  - intros e. rewrite elem_of_put. by case_decide.
  - intros e k h. rewrite elem_of_put. case_decide; [|apply Hb]. intros Hh%Hs. by eapply Hb.
Qed.

Lemma run_call_wf c l l' : lib_wf l → run_call c l = Some l' → lib_wf l'.
Proof. intros Hl. destruct c; cbn; [intros [= <-]; by apply event_add_wf|by apply event_off_wf]. Qed.

(** C29: whatever calls bind and unbind handlers, every element has one list of handlers for each
    type with a native listener and no empty list; a list starts with its delegated handlers, as many as
    [delegateCount] says; every handler is listed under its type and has the guid of its function, and
    two functions never share a guid. *)
Theorem calls_keep_events cs l elem :
  run_calls cs new_lib = Some l →
  let d := elem_of l elem in
  NoDup (e_listeners d) ∧ e_listeners d = obj_keys (all_events d)
  ∧ (∀ type hs, obj_get type (all_events d) = Some hs →
       hs_list hs ≠ [] ∧ delegateCount hs ≤ length (hs_list hs)
       ∧ Forall (λ h, is_Some (h_selector h)) (take (delegateCount hs) (hs_list hs))
       ∧ Forall (λ h, h_selector h = None) (drop (delegateCount hs) (hs_list hs))
       ∧ Forall (λ h, h_type h = type ∧ l_guids l !! fn_of (h_handler h) = Some (h_guid h)) (hs_list hs))
  ∧ ∀ f f' g, l_guids l !! f = Some g → l_guids l !! f' = Some g → f = f'.
Proof.
  intros Hrun. assert (lib_wf l) as [Hd Hb Hg Hi].
  { revert Hrun. unfold run_calls. generalize new_lib_wf. generalize new_lib. induction cs as [|c cs IH]; intros l0 Hl0; cbn [foldl mbind option_bind]; [by intros [= <-]|].
    destruct (run_call c l0) as [l1|] eqn:E; [apply IH; by eapply run_call_wf|]. clear. intros H. exfalso. induction cs; [done|by apply IHcs]. }
  cbv zeta. destruct (Hd elem) as [[Hk He Hl] Hh]. rewrite Hl. split_and!; [done|done| |exact Hi].
  intros type hs E. destruct (He _ _ E) as [Hne (Ht & ds & rest & El & Ec & Hds & Hrest)].
  rewrite Ec, El, length_app, take_app_length, drop_app_length. rewrite <- El. split_and!; [done|lia|done|done|].
  rewrite Forall_forall in Ht |- *. intros h Hin. split; [by apply Ht|]. apply (Hb elem type). unfold handlers_of. by rewrite E.
Qed.

(** ** Unbinding is exact *)

Definition nonempty_selector (selector : option jstring) : option jstring := s ← selector; if s =s? [] then None else Some s.

(** A call that unbinds names the handler: by type and namespaces, by function, by selector. *)
Definition unbound (types : jstring) (handler : option callback) (selector : option jstring) (h : handleObj) : bool :=
  let selector := nonempty_selector selector in
  existsb (λ t, names (special_type:=special_type) selector t h) (event_types types)
  && match handler with Some c => fn_of c =? fn_of (h_handler h) | None => true end
  && same_selector selector h.

Lemma existsb_andb {A} (f : A → bool) (b : bool) l : existsb (λ x, f x && b) l = existsb f l && b.
Proof. induction l as [|x l IH]; [done|]. cbn. rewrite IH. by destruct (f x), b, (existsb f l). Qed.

Lemma same_guid_fn l elem k h handler :
  lib_wf l → h ∈ handlers_of (elem_of l elem) k →
  same_guid (guid_of l <$> handler) h = match handler with Some c => fn_of c =? fn_of (h_handler h) | None => true end.
Proof.
  intros [_ Hb _ Hi] Hin. specialize (Hb _ _ _ Hin). destruct handler as [c|]; [|done]. cbn. unfold guid_of.
  apply eq_true_iff_eq. rewrite bool_decide_eq_true, Nat.eqb_eq. split; [intros Hg; by eapply Hi|by intros ->].
Qed.

(** C23: a call that unbinds, with words whose namespaces are not empty and are made of ordinary units (a word
    that ends in a period never returns), returns and keeps the handlers of the element in order except those it
    names: by one of its types, or any type when a word has only namespaces, with the namespaces of the word
    among those of the handler; with the function and the selector, if they are given. Other elements keep their
    handlers. *)
Theorem off_exact elem types handler selector l :
  lib_wf l → Forall plain_word (event_types types) →
  ∃ l', event_off special_type elem types handler selector l = Some l'
    ∧ (∀ k, handlers_of (elem_of l' elem) k = List.filter (λ h, negb (unbound types handler selector h)) (handlers_of (elem_of l elem) k))
    ∧ (∀ e, e ≠ elem → elem_of l' e = elem_of l e) ∧ l_guids l' = l_guids l.
Proof.
  intros Hl Hp. unfold event_off. fold (nonempty_selector selector). change ((λ c, guid_of l c) <$> handler) with (guid_of l <$> handler).
  destruct (event_remove_cut types (guid_of l <$> handler) (nonempty_selector selector) (elem_of l elem) (lw_data _ Hl elem) Hp) as (d' & -> & Hc).
  cbn [mbind option_bind]. eexists. split_and!; [done| | |done].
  - intros k. rewrite elem_of_put, decide_True by done. destruct Hc as [_ ->]. apply kept_same. intros h Hin. f_equal.
    unfold word_removes, unbound. rewrite <- (same_guid_fn l elem k h handler Hl Hin). by rewrite <- !existsb_andb.
  - intros e He. by rewrite elem_of_put, decide_False.
Qed.
End calls.

Lemma calls_keep_events_witness :
  match run_calls (special_type:=jq_special) [On 1 "click.b.a focus"%js (Fn 7) 0 (Some "td"%js); Off 1 "click"%js (Some (Fn 7)) None] new_lib with
  | Some l => NoDup (e_listeners (elem_of l 1))
  | None => False
  end.
Proof.
  destruct (run_calls _ _) as [l|] eqn:E; [|vm_compute in E; discriminate E].
  by destruct (calls_keep_events (special_type:=jq_special) _ l 1 E).
Defined.

Lemma off_exact_witness :
  let l := event_add jq_special 1 "click"%js (Fn 8) 0 (Some "td"%js) (event_add jq_special 1 "click.b.a mouseenter.b"%js (Fn 7) 0 None new_lib) in
  ∃ l', event_off jq_special 1 ".b"%js None None l = Some l' ∧ h_guid <$> handlers_of (elem_of l' 1) "click"%js = [2]
    ∧ handlers_of (elem_of l' 1) "mouseover"%js = [].
Proof.
  intros l. destruct (off_exact (special_type:=jq_special) 1 ".b"%js None None l) as (l' & He & Hk & _).
  - by apply event_add_wf, event_add_wf, new_lib_wf.
  - change (Forall plain_word [".b"%js]). constructor; [|constructor]. change (Forall plain_part ["b"%js]). constructor; [|constructor].
    by apply (bool_decide_eq_true_1 (_ ∧ Forall _ _ ∧ Forall _ _)).
  - exists l'. split; [exact He|]. rewrite !Hk. vm_compute. done.
Defined.
