(* ===== verification/JqEventDispatch.v ===== *)
(** * Dispatching an event (jquery/src/event.js)

    Which handlers a dispatch runs, in which order; and a call that unbinds and never returns. *)

From S2P Require Import Prelude JsString JsObject DtUtil JsRegExp JqEvent JqEventNamespaces JqEventTheorems JqEventOff JqEventCalls.

Section dispatch.
Context {W : Type} (special_type : bool → jstring → option jstring) (ancestors : nat → list nat)
  (sel_matches : nat → jstring → nat → bool) (disabled : nat → bool) (other_button : bool)
  (page_fn : nat → nat → event → lib * W → (lib * W) * answer).

Abbreviation call_handler := (JqEvent.call_handler special_type page_fn).
Abbreviation hook_calls := (JqEvent.hook_calls ancestors).
Abbreviation run_handlers := (JqEvent.run_handlers special_type ancestors page_fn).
Abbreviation run_queue := (JqEvent.run_queue special_type ancestors page_fn).
Abbreviation dispatch := (JqEvent.dispatch special_type ancestors sel_matches disabled other_button page_fn).
Abbreviation event_handlers := (JqEvent.event_handlers ancestors sel_matches disabled other_button).

(** A handler of the event: it has its namespaces; if it is for the pointer entering or leaving the element,
    the element is not the other node of the event nor around it. *)
Definition crossing (h : handleObj) : bool :=
  bool_decide (h_origType h ∈ ["mouseenter"; "mouseleave"; "pointerenter"; "pointerleave"]%js).
Definition concerned (e : event) (elem : nat) (h : handleObj) : bool :=
  match ev_namespaces e with Some r => re_test (λ u, u) r (h_namespace h) | None => true end
  && (negb (crossing h) || match ev_related e with Some other => bool_decide (elem ∉ other :: tail (ancestors other)) | None => true end).

Lemma crossing_spec h : crossing h = match obj_get (h_origType h) mouse_types with Some _ => true | None => false end.
Proof.
  unfold crossing. pose proof (obj_get_keys (h_origType h) mouse_types) as Hk.
  change (obj_keys mouse_types) with ["mouseenter"; "mouseleave"; "pointerenter"; "pointerleave"]%js in Hk.
  destruct (obj_get (h_origType h) mouse_types); [apply bool_decide_eq_true, Hk; by eexists|].
  apply bool_decide_eq_false. intros [? [=]]%Hk.
Qed.
Lemma concerned_spec e elem h : concerned e elem h = namespace_ok e h && hook_calls elem h e.
Proof.
  unfold concerned, namespace_ok, JqEvent.hook_calls, contains_node. rewrite crossing_spec. f_equal.
  destruct (obj_get (h_origType h) mouse_types); [|by destruct (ev_related e)]. destruct (ev_related e) as [other|]; [|done]. cbn [negb orb].
  destruct (Nat.eqb_spec other elem) as [->|Hne]; cbn [negb andb]; [apply bool_decide_eq_false; intros Hn; apply Hn; by left|].
  rewrite <- bool_decide_not. apply bool_decide_ext. rewrite not_elem_of_cons. naive_solver.
Qed.

(** The handlers of nodes in order that are concerned. *)
Definition pairs (e : event) (queue : list (nat * list handleObj)) : list (nat * handleObj) :=
  flat_map (λ q, pair q.1 <$> List.filter (concerned e q.1) q.2) queue.

(** An event whose immediate propagation is stopped is stopped. *)
Definition stops (e : event) : Prop := ev_immediate e = true → ev_stopped e = true.

(** What handlers leave of an event. *)
Definition later (e e' : event) : Prop :=
  ev_namespaces e' = ev_namespaces e ∧ ev_target e' = ev_target e ∧ ev_related e' = ev_related e
  ∧ (ev_stopped e = true → ev_stopped e' = true) ∧ (ev_immediate e = true → ev_immediate e' = true)
  ∧ (stops e → stops e').

#[local] Instance later_preorder : PreOrder later.
Proof. split; [by intros e; split_and!|]. unfold later. intros e1 e2 e3 H1 H2. naive_solver congruence. Qed.

Lemma later_after e a : later e (after e a).
Proof.
  unfold later, stops, after. cbn. split_and!; [done..| | |].
  - by intros ->.
  - by intros ->.
  - intros H. destruct (ev_immediate e); [intros _; by rewrite H|]. cbn. intros ->. by rewrite !orb_true_r.
Qed.

Lemma later_type t e : later e (set_type t e) ∧ later (set_type t e) e.
Proof. done. Qed.

Lemma call_later this elem h e w e' w' : call_handler this elem h e w = Some (e', w') → later e e'.
Proof.
  unfold JqEvent.call_handler. generalize (obj_get (h_origType h) mouse_types). intros fixed. destruct (match h_handler h with Fn _ => _ | Once _ => _ end) as [l|]; [|done]. cbn [mbind option_bind].
  destruct (page_fn _ _ _ _) as [w1 a]. intros [= <- <-]. destruct fixed; [|apply later_after].
  transitivity (after (set_type (h_origType h) e) a); [|apply later_type]. transitivity (set_type (h_origType h) e); [apply later_type|apply later_after].
Qed.

Lemma pairs_later e e' queue : later e e' → pairs e' queue = pairs e queue.
Proof.
  intros (Hn & _ & Hr & _). unfold pairs. apply flat_map_ext. intros q. f_equal.
  apply filter_ext. intros h. unfold concerned. by rewrite Hn, Hr.
Qed.

(** Handlers called one after the other, whatever they do to the event. *)
Fixpoint replay (this : nat) (l : list (nat * handleObj)) (e : event) (w : lib * W) : option (event * (lib * W)) :=
  match l with
  | [] => Some (e, w)
  | (elem, h) :: l => '(e, w) ← call_handler this elem h e w; replay this l e w
  end.

Lemma replay_app this l l' e w :
  replay this (l ++ l') e w = '(e, w) ← replay this l e w; replay this l' e w.
Proof.
  revert e w. induction l as [|[elem h] l IH]; intros e w; [done|]. cbn [app replay].
  destruct (call_handler this elem h e w) as [[e1 w1]|]; [|done]. cbn [mbind option_bind]. apply IH.
Qed.

(** What a handler answers when it is called, and whether that stops the event. *)
Definition reply (this elem : nat) (h : handleObj) (e : event) (w : lib * W) : option answer :=
  l ← (match h_handler h with Once _ => off_event special_type this h w.1 | Fn _ => Some w.1 end);
  Some (page_fn (fn_of (h_handler h)) elem (if crossing h then set_type (h_origType h) e else e) (l, w.2)).2.
Definition stopping (a : answer) : bool := a_stop a || a_immediate a || bool_decide (a_ret a = Some 0).

(** The answers of handlers called one after the other. *)
Fixpoint replies (this : nat) (l : list (nat * handleObj)) (e : event) (w : lib * W) : option (list answer) :=
  match l with
  | [] => Some []
  | (elem, h) :: l => a ← reply this elem h e w; '(e, w) ← call_handler this elem h e w; rs ← replies this l e w; Some (a :: rs)
  end.

Lemma call_reply this elem h e w e' w' : call_handler this elem h e w = Some (e', w') →
  ∃ a, reply this elem h e w = Some a ∧ ev_stopped e' = ev_stopped e || stopping a ∧ ev_immediate e' = ev_immediate e || a_immediate a.
Proof.
  unfold JqEvent.call_handler, reply. rewrite crossing_spec. destruct (match h_handler h with Fn _ => _ | Once _ => _ end) as [l|]; [|done].
  cbn [mbind option_bind]. destruct (obj_get (h_origType h) mouse_types) as [fix_type|];
    destruct (page_fn _ _ _ _) as [w1 a]; intros [= <- <-]; by exists a.
Qed.

Lemma replay_replies this l e w e1 w1 : replay this l e w = Some (e1, w1) →
  ∃ rs, replies this l e w = Some rs ∧ ev_stopped e1 = ev_stopped e || existsb stopping rs ∧ ev_immediate e1 = ev_immediate e || existsb a_immediate rs.
Proof.
  revert e w. induction l as [|[elem h] l IH]; intros e w; cbn [replay replies].
  { intros [= <- <-]. exists []. cbn. by rewrite !orb_false_r. }
  destruct (call_handler this elem h e w) as [[e2 w2]|] eqn:Ec; [|done]. cbn [mbind option_bind]. intros Hr.
  destruct (call_reply _ _ _ _ _ _ _ Ec) as (a & -> & Hs & Hi). destruct (IH _ _ Hr) as (rs & Er & Hs' & Hi').
  exists (a :: rs). cbn [mbind option_bind]. rewrite Er. cbn [mbind option_bind existsb]. by rewrite Hs', Hi', Hs, Hi, !orb_assoc.
Qed.

Lemma replies_take this l l' e w rs : replies this (l ++ l') e w = Some rs → replies this l e w = Some (take (length l) rs).
Proof.
  revert e w rs. induction l as [|[elem h] l IH]; intros e w rs; cbn [app replies length]; [by rewrite take_0|].
  destruct (reply this elem h e w) as [a|]; [|done]. cbn [mbind option_bind].
  destruct (call_handler this elem h e w) as [[e2 w2]|]; [|done]. cbn [mbind option_bind].
  destruct (replies this (l ++ l') e2 w2) as [rs'|] eqn:E; [|done]. cbn [mbind option_bind]. intros [= <-]. by rewrite (IH _ _ _ E).
Qed.

(** After the handlers [l], the event satisfies [P]. *)
Definition then_event (this : nat) (l : list (nat * handleObj)) (e : event) (w : lib * W) (P : event → Prop) : Prop :=
  ∃ e1 w1, replay this l e w = Some (e1, w1) ∧ P e1.

Lemma then_event_app this l l' e w e1 w1 P :
  replay this l e w = Some (e1, w1) → then_event this l' e1 w1 P → then_event this (l ++ l') e w P.
Proof. intros H (e2 & w2 & H2 & HP). exists e2, w2. by rewrite replay_app, H. Qed.

(** What the answers so far say of the flags of the event. *)
Lemma then_flags this t1 t2 e w rs P : replies this (t1 ++ t2) e w = Some rs → then_event this t1 e w P →
  ∃ e1, P e1 ∧ ev_stopped e1 = ev_stopped e || existsb stopping (take (length t1) rs)
    ∧ ev_immediate e1 = ev_immediate e || existsb a_immediate (take (length t1) rs).
Proof.
  intros Hr (e1 & w1 & Hp & HP). destruct (replay_replies _ _ _ _ _ _ Hp) as (rs1 & E & Hs & Hi).
  rewrite (replies_take _ _ _ _ _ _ Hr) in E. injection E as <-. by exists e1.
Qed.

(** Handlers [t] were called in that order, none after one that stopped the event at once. *)
Definition called (this : nat) (t : list (nat * handleObj)) (e : event) (w : lib * W) (e' : event) (w' : lib * W) : Prop :=
  replay this t e w = Some (e', w')
  ∧ ∀ t1 p t2, t = t1 ++ p :: t2 → then_event this t1 e w (λ e1, ev_immediate e1 = false).

Lemma called_app this t t' e w e1 w1 e2 w2 :
  called this t e w e1 w1 → called this t' e1 w1 e2 w2 → called this (t ++ t') e w e2 w2.
Proof.
  intros [H1 I1] [H2 I2]. split; [by rewrite replay_app, H1|]. intros l1 p l2 E.
  apply app_eq_inv in E as [(k & -> & E)|(k & -> & E)].
  - destruct k as [|q k]; cbn in E.
    + rewrite app_nil_r in *. rewrite <- (app_nil_r l1). eapply then_event_app; [exact H1|]. by apply (I2 [] p l2).
    + injection E as -> _. by eapply I1.
  - eapply then_event_app; [exact H1|]. by eapply I2.
Qed.

Lemma run_handlers_order this elem hs e w e' w' t :
  run_handlers this elem hs e w = Some (e', w', t) →
  later e e' ∧ called this t e w e' w' ∧ t `prefix_of` pairs e [(elem, hs)] ∧ (ev_immediate e' = false → t = pairs e [(elem, hs)]).
Proof.
  unfold pairs. cbn [flat_map fst snd]. rewrite app_nil_r. revert e w t. induction hs as [|h hs IH]; intros e w t; cbn [JqEvent.run_handlers].
  { intros [= <- <- <-]. split_and!; [done| |done|done]. split; [done|]. by intros [|??] ?? ?. }
  destruct (ev_immediate e) eqn:Ei.
  { intros [= <- <- <-]. split_and!; [done| |apply prefix_nil|by rewrite Ei]. split; [done|]. by intros [|??] ?? ?. }
  cbn [List.filter]. rewrite concerned_spec. destruct (namespace_ok e h && _) eqn:En; [|by apply IH].
  destruct (JqEvent.call_handler _ _ _ _ _ _ _) as [[e1 w1]|] eqn:Ec; [|done]. cbn [mbind option_bind]. pose proof (call_later _ _ _ _ _ _ _ Ec) as L1.
  destruct (JqEvent.run_handlers _ _ _ _ _ _ _ _) as [[[e2 w2] t2]|] eqn:Er; [|done]. cbn [mbind option_bind]. intros [= <- <- <-].
  destruct (IH _ _ _ Er) as (Hl & Hc & Hp & Ht).
  pose proof (pairs_later e e1 [(elem, hs)] L1) as Hns. unfold pairs in Hns. cbn [flat_map fst snd] in Hns. rewrite !app_nil_r in Hns.
  rewrite Hns in Hp, Ht. cbn [fmap list_fmap]. split_and!; [by transitivity e1| |by apply prefix_cons|intros H; by rewrite (Ht H)].
  apply (called_app this [(elem, h)] t2 e w e1 w1); [|done]. split; [cbn; by rewrite Ec|].
  intros [|q t1] p t3; [intros _; by exists e, w|]. intros E%(f_equal length). cbn in E. rewrite length_app in E. cbn in E. lia.
Qed.

(** No node's handlers are begun after the event was stopped. *)
Definition node_stops (this : nat) (queue : list (nat * list handleObj)) (t : list (nat * handleObj)) (e : event) (w : lib * W) : Prop :=
  ∀ n p t2, t = pairs e (take n queue) ++ p :: t2 → then_event this (pairs e (take n queue)) e w (λ e1, ev_stopped e1 = false).

Lemma run_queue_order this queue e w e' w' t :
  stops e → run_queue this queue e w = Some (e', w', t) →
  later e e' ∧ called this t e w e' w' ∧ node_stops this queue t e w
  ∧ t `prefix_of` pairs e queue ∧ (ev_stopped e' = false → t = pairs e queue)
  ∧ (ev_immediate e' = false → ∃ n, t = pairs e (take n queue)).
Proof.
  revert e w t. induction queue as [|[elem hs] queue IH]; intros e w t Hs; cbn [JqEvent.run_queue].
  { intros [= <- <- <-]. split_and!; [done| | |done|done|by exists 0].
    - split; [done|]. by intros [|??] ?? ?.
    - intros n p t2. by rewrite take_nil. }
  destruct (ev_stopped e) eqn:Es.
  { intros [= <- <- <-]. split_and!; [done| | |apply prefix_nil|by rewrite Es|by exists 0].
    - split; [done|]. by intros [|??] ?? ?.
    - intros n p t2. by destruct (pairs e (take n _)). }
  destruct (JqEvent.run_handlers _ _ _ _ _ _ _ _) as [[[e1 w1] t1]|] eqn:Er; [|done]. cbn [mbind option_bind].
  destruct (JqEvent.run_queue _ _ _ _ _ _ _) as [[[e2 w2] t2]|] eqn:Eq; [|done]. cbn [mbind option_bind]. intros [= <- <- <-].
  destruct (run_handlers_order _ _ _ _ _ _ _ _ Er) as (Hl1 & Hc1 & Hp1 & Ht1). assert (stops e1) as Hs1 by (by apply Hl1).
  destruct (IH _ _ _ Hs1 Eq) as (Hl2 & Hc2 & Hb2 & Hp2 & Ht2 & Hn2). rewrite !(pairs_later e e1) in Hp2, Ht2 by done.
  change ((elem, hs) :: queue) with ([(elem, hs)] ++ queue).
  assert (∀ q, pairs e ([(elem, hs)] ++ q) = pairs e [(elem, hs)] ++ pairs e q) as Hsplit by (intros q; apply flat_map_app).
  rewrite Hsplit. split; [by transitivity e1|]. split; [by eapply called_app|].
  destruct (ev_immediate e1) eqn:E1.
  - assert (t2 = [] ∧ e2 = e1) as [-> ->].
    { pose proof (Hs1 E1) as E2. destruct queue as [|[? ?] ?]; cbn [JqEvent.run_queue] in Eq; [by injection Eq as <- _ <-|].
      rewrite E2 in Eq. by injection Eq as <- _ <-. }
    rewrite app_nil_r. split_and!; [|by apply prefix_app_r|by rewrite (Hs1 E1)|by rewrite E1].
    intros [|n] p t3 E; [by exists e, w|]. exfalso. cbn [take app] in E.
    change ((elem, hs) :: take n queue) with ([(elem, hs)] ++ take n queue) in E. rewrite Hsplit, <- app_assoc in E.
    apply (f_equal length) in E. apply prefix_length in Hp1. rewrite !length_app in E. cbn [length] in E. lia.
  - pose proof (Ht1 eq_refl) as ->. split_and!; [|by apply prefix_app|intros H; by rewrite (Ht2 H)|].
    + intros [|n] p t3 E; [by exists e, w|]. cbn [take app] in E |- *.
      change ((elem, hs) :: take n queue) with ([(elem, hs)] ++ take n queue) in E |- *. rewrite Hsplit in E |- *.
      rewrite <- app_assoc in E. apply app_inv_head in E. destruct Hc1 as [Hr1 _].
      eapply then_event_app; [exact Hr1|]. specialize (Hb2 n p t3). rewrite (pairs_later e e1) in Hb2 by done. by apply Hb2.
    + intros H. destruct (Hn2 H) as [n ->]. exists (S n). cbn [app take]. change ((elem, hs) :: take n queue) with ([(elem, hs)] ++ take n queue).
      rewrite Hsplit. by rewrite (pairs_later e e1).
Qed.

(** The nodes on a path before the element. *)
Fixpoint inside (this : nat) (l : list nat) : list nat :=
  match l with node :: l => if decide (node = this) then [] else node :: inside this l | [] => [] end.
(** The handlers of an element for an event, by node: the delegated ones that match a node on the path
    from the target up to the element, node by node outwards, then those of the element itself. *)
Definition by_node (this : nat) (e : event) (hs : list handleObj) : list (nat * list handleObj) :=
  let clicked b := b && bool_decide (ev_type e = "click"%js) in
  ((λ cur : nat, (cur,
     if clicked other_button || clicked (disabled cur) then [] else
     List.filter (λ h, match h_selector h with Some s => sel_matches this s cur | None => false end) hs))
     <$> inside this (ancestors (ev_target e)))
  ++ [(this, List.filter (λ h, bool_decide (h_selector h = None)) hs)].

Lemma lfilter_none {A} (f : A → bool) l : (∀ x, x ∈ l → f x = false) → List.filter f l = [].
Proof.
  intros H. induction l as [|x l IH]; [done|]. cbn. rewrite (H x ltac:(by left)). apply IH. intros y Hy. apply H. by right.
Qed.

Definition nonempty (q : nat * list handleObj) : bool := match q.2 with [] => false | _ => true end.

Lemma omap_nodes (b : nat → bool) (g : nat → list handleObj) path :
  omap (λ cur : nat, if b cur then None else match g cur with [] => None | ms => Some (cur, ms) end) path
  = List.filter nonempty ((λ cur, (cur, if b cur then [] else g cur)) <$> path).
Proof.
  induction path as [|cur path IH]; [done|]. cbn [omap list_omap fmap list_fmap List.filter]. rewrite <- IH. by destruct (b cur), (g cur).
Qed.

Lemma inside_up_to this l : inside this l = up_to this l.
Proof. induction l as [|x l IH]; [done|]. cbn. rewrite IH. by case_decide; destruct (Nat.eqb_spec x this). Qed.

Lemma event_handlers_nodes this e k hs :
  handlers_wf k hs → event_handlers this e hs = List.filter nonempty (by_node this e (hs_list hs)).
Proof.
  intros (_ & ds & rest & El & Ec & Hds & Hrest). unfold JqEvent.event_handlers, by_node. rewrite inside_up_to. change (bool_decide (ev_type e = "click"%js)) with (is_click e). rewrite El, Ec, take_app_length, drop_app_length, length_app.
  rewrite Forall_forall in Hds. rewrite Forall_forall in Hrest.
  assert (∀ cur : nat, List.filter (λ h, match h_selector h with Some s => sel_matches this s cur | None => false end) (ds ++ rest)
           = List.filter (λ h, sel_matches this (default [] (h_selector h)) cur) ds) as Hdel.
  { intros cur. rewrite List.filter_app, (lfilter_none _ rest), app_nil_r.
    - apply kept_same. intros h Hin. by destruct (Hds h Hin) as [s ->].
    - intros h Hin. by rewrite (Hrest h Hin). }
  assert (List.filter (λ h, bool_decide (h_selector h = None)) (ds ++ rest) = rest) as ->.
  { rewrite List.filter_app, lfilter_none, keep_all; [done| |].
    - intros h Hin. by rewrite (Hrest h Hin).
    - intros h Hin. by destruct (Hds h Hin) as [s ->]. }
  rewrite List.filter_app. set (path := up_to this _).
  assert (∀ q, (if length ds <? length ds + length rest then q ++ [(this, rest)] else q) = q ++ List.filter nonempty [(this, rest)]) as ->.
  { intros q. destruct (Nat.ltb_spec (length ds) (length ds + length rest)); destruct rest; cbn in *; [lia|done|by rewrite app_nil_r|lia]. }
  f_equal. destruct ds as [|h ds].
  { symmetry. apply lfilter_none. intros p (cur & -> & _)%list_elem_of_fmap. rewrite Hdel. by destruct (_ || _). }
  change (negb (length (h :: ds) =? 0)) with true. cbn [andb]. destruct (other_button && is_click e); cbn [negb orb].
  { symmetry. apply lfilter_none. by intros p (cur & -> & _)%list_elem_of_fmap. }
  rewrite omap_nodes. f_equal. apply list_fmap_ext. intros _ cur _. by rewrite Hdel.
Qed.

Lemma take_nonempty e gs n : ∃ m, pairs e (take n (List.filter nonempty gs)) = pairs e (take m gs).
Proof.
  revert n. induction gs as [|[cur hs] gs IH]; intros n; [exists 0; cbn [List.filter]; by rewrite take_nil|]. cbn [List.filter]. destruct hs as [|h hs].
  - destruct (IH n) as [m Hm]. exists (S m). exact Hm.
  - destruct n as [|n]; [by exists 0|]. destruct (IH n) as [m Hm]. exists (S m). cbn [nonempty snd take].
    unfold pairs in *. cbn [flat_map]. by rewrite Hm.
Qed.

Lemma nonempty_take e gs n : ∃ m, pairs e (take n gs) = pairs e (take m (List.filter nonempty gs)).
Proof.
  revert n. induction gs as [|[cur hs] gs IH]; intros n; [exists 0; by rewrite take_nil|]. destruct n as [|n]; [by exists 0|].
  cbn [List.filter]. destruct (IH n) as [m Hm]. destruct hs as [|h hs].
  - exists m. exact Hm.
  - exists (S m). cbn [nonempty snd take]. unfold pairs in *. cbn [flat_map]. by rewrite Hm.
Qed.

Lemma pairs_nonempty e gs : pairs e (List.filter nonempty gs) = pairs e gs.
Proof.
  induction gs as [|[cur [|h l]] gs IH]; [done|exact IH|]. cbn [List.filter nonempty snd]. unfold pairs in *. cbn [flat_map]. by rewrite IH.
Qed.

Lemma dispatch_nodes this e (w : lib * W) e' w' t :
  data_ok (special_type:=special_type) (elem_of w.1 this) → stops e → dispatch this e w = Some (e', w', t) →
  let nodes := by_node this e (handlers_of (elem_of w.1 this) (ev_type e)) in
  called this t e w e' w' ∧ node_stops this nodes t e w
  ∧ t `prefix_of` pairs e nodes ∧ (ev_stopped e' = false → t = pairs e nodes)
  ∧ (ev_immediate e' = false → ∃ n, t = pairs e (take n nodes)).
Proof.
  intros [Hw _] Hs Hd. unfold JqEvent.dispatch in Hd. fold (all_events (elem_of w.1 this)) in Hd. cbv zeta in Hd |- *.
  set (hs := default (Handlers [] 0) (obj_get (ev_type e) (all_events (elem_of w.1 this)))) in *.
  assert (handlers_of (elem_of w.1 this) (ev_type e) = hs_list hs) as -> by (unfold handlers_of, hs; by destruct (obj_get _ _)).
  assert (handlers_wf (ev_type e) hs) as Hwf.
  { unfold hs. destruct (obj_get _ _) as [hs'|] eqn:E; [by apply (ew_each _ Hw _ _ E)|]. split; [constructor|]. by exists [], []. }
  rewrite (event_handlers_nodes this e _ _ Hwf) in Hd. apply run_queue_order in Hd as (_ & Hc & Hb & Hp & Hall & Hn); [|done].
  rewrite pairs_nonempty in Hp, Hall. split_and!; [done| |done|done|].
  - intros n p t2 E. destruct (nonempty_take e (by_node this e (hs_list hs)) n) as [m Hm]. rewrite Hm in E |- *. by eapply Hb.
  - intros Hi. destruct (Hn Hi) as [n ->]. apply take_nonempty.
Qed.

(** C24: a dispatch that returns has called the handlers of the element for the type and the namespaces
    of the event, node by node from the target outwards and in the order they were bound, leaving out
    those for the pointer entering or leaving an element whose other node is inside; it called exactly those
    up to where their answers stop the event: no handler after one that stopped it at once, no handler of
    a further node once one of a node had stopped it (or answered false), all handlers of each node it came to
    unless one stopped it at once, and all of them when none stopped it. *)
Theorem dispatch_order this e (w : lib * W) e' w' t :
  data_ok (special_type:=special_type) (elem_of w.1 this) → stops e → dispatch this e w = Some (e', w', t) →
  let nodes := by_node this e (handlers_of (elem_of w.1 this) (ev_type e)) in
  ∃ rs, replies this t e w = Some rs ∧ replay this t e w = Some (e', w')
    ∧ (∀ t1 p t2, t = t1 ++ p :: t2 → ev_immediate e = false ∧ existsb a_immediate (take (length t1) rs) = false)
    ∧ (∀ n p t2, t = pairs e (take n nodes) ++ p :: t2 →
         ev_stopped e = false ∧ existsb stopping (take (length (pairs e (take n nodes))) rs) = false)
    ∧ t `prefix_of` pairs e nodes
    ∧ (ev_stopped e = false → existsb stopping rs = false → t = pairs e nodes)
    ∧ (ev_immediate e = false → existsb a_immediate rs = false → ∃ n, t = pairs e (take n nodes)).
Proof.
  intros Hd Hs E nodes. destruct (dispatch_nodes this e w e' w' t Hd Hs E) as ([Hr Hi] & Hn & Hp & Hall & Htake).
  destruct (replay_replies _ _ _ _ _ _ Hr) as (rs & Ers & Fs & Fi). exists rs. split; [done|]. split; [done|]. split_and!.
  - intros t1 p t2 ->. destruct (then_flags _ _ _ _ _ _ _ Ers (Hi t1 p t2 eq_refl)) as (e1 & H1 & _ & H2).
    rewrite H1 in H2. by apply orb_false_iff.
  - intros n p t2 Et. rewrite Et in Ers. destruct (then_flags _ _ _ _ _ _ _ Ers (Hn n p t2 Et)) as (e1 & H1 & H2 & _).
    rewrite H1 in H2. by apply orb_false_iff.
  - done.
  - intros H1 H2. apply Hall. by rewrite Fs, H1, H2.
  - intros H1 H2. apply Htake. by rewrite Fi, H1, H2.
Qed.
End dispatch.

(** A page of three nodes, [1] around [2] around [3]; the handler [8] of the node [2] stops the
    propagation, the handler [9], when it runs, at once. *)
Definition three_nodes (n : nat) : list nat := if n =? 3 then [3; 2; 1] else if n =? 2 then [2; 1] else [1].
Definition stopping_fn (now : bool) (f elem : nat) (e : event) (w : lib * unit) : (lib * unit) * answer :=
  (w, Answer None (f =? 8) (now && (f =? 9)) false).
Definition three_handlers : lib :=
  event_add jq_special 1 "click"%js (Fn 8) 0 (Some "td"%js)
    (event_add jq_special 1 "click"%js (Fn 9) 0 (Some "td"%js) (event_add jq_special 1 "click.b.a"%js (Fn 7) 0 None new_lib)).
Abbreviation dispatch_three now := (dispatch jq_special three_nodes (λ _ _ n, n =? 2) (λ _, false) false (stopping_fn now) 1).
Abbreviation click_on_three := (Event "click"%js 3 None None false false false None).

Lemma dispatch_order_witness :
  let nodes := by_node three_nodes (λ _ _ n, n =? 2) (λ _, false) false 1 click_on_three (handlers_of (elem_of three_handlers 1) "click"%js) in
  let names := (λ p : nat * handleObj, fn_of (h_handler p.2)) in
  names <$> pairs three_nodes click_on_three nodes = [9; 8; 7]
  ∧ (∃ e' w' t rs, dispatch_three false click_on_three (three_handlers, ()) = Some (e', w', t)
     ∧ names <$> t = [9; 8] ∧ replies jq_special (stopping_fn false) 1 t click_on_three (three_handlers, ()) = Some rs)
  ∧ ∃ e' w' t rs, dispatch_three true click_on_three (three_handlers, ()) = Some (e', w', t)
     ∧ names <$> t = [9] ∧ replies jq_special (stopping_fn true) 1 t click_on_three (three_handlers, ()) = Some rs.
Proof.
  intros nodes names. assert (data_ok (special_type:=jq_special) (elem_of three_handlers 1)) as Hok.
  { apply (lw_data (special_type:=jq_special)). by do 3 apply event_add_wf; apply new_lib_wf. }
  split; [vm_compute; reflexivity|]. split.
  - destruct (dispatch_three false click_on_three (three_handlers, ())) as [[[e' w'] t]|] eqn:E; [|vm_compute in E; discriminate E].
    destruct (dispatch_order _ _ _ _ _ (stopping_fn false) 1 click_on_three (three_handlers, ()) e' w' t Hok ltac:(done) E) as (rs & Hr & _).
    exists e', w', t, rs. split; [done|]. split; [vm_compute in E; by injection E as _ _ <-|exact Hr].
  - destruct (dispatch_three true click_on_three (three_handlers, ())) as [[[e' w'] t]|] eqn:E; [|vm_compute in E; discriminate E].
    destruct (dispatch_order _ _ _ _ _ (stopping_fn true) 1 click_on_three (three_handlers, ()) e' w' t Hok ltac:(done) E) as (rs & Hr & _).
    exists e', w', t, rs. split; [done|]. split; [vm_compute in E; by injection E as _ _ <-|exact Hr].
Defined.

(** A handler for [mouseenter] is bound for [mouseover]; it is called when the pointer comes from
    outside of the element, not when it comes from a node inside. *)
Example mouseenter_from_outside :
  let l := event_add jq_special 2 "mouseenter"%js (Fn 7) 0 None new_lib in
  let run related := (λ r : event * (lib * unit) * list (nat * handleObj), (ev_type r.1.1, length r.2)) <$>
    dispatch jq_special three_nodes (λ _ _ _, false) (λ _, false) false (stopping_fn false) 2
      (Event "mouseover"%js 2 None None false false false related) (l, ()) in
  run (Some 1) = Some ("mouseover"%js, 1) ∧ run (Some 3) = Some ("mouseover"%js, 0) ∧ run None = Some ("mouseover"%js, 1).
Proof. vm_compute. done. Qed.

(** ** A call that never returns

    A word that ends with a period has no type for the regular expression: the call is repeated for every
    type of the element with a longer word of the same kind. *)
Lemma off_period_diverges special_type fuel t guid selector mapped d :
  token t → no_period t → all_events d ≠ [] → Forall (λ k, token k ∧ no_period k) (obj_keys (all_events d)) →
  event_remove special_type fuel (t ++ "."%js) guid selector mapped d = None.
Proof.
  intros Ht Hp Hne Hk. revert t mapped Ht Hp. induction fuel as [|fuel IH]; intros t mapped Ht Hp; [done|]. rewrite event_remove_S.
  destruct (e_events d) as [ev|] eqn:E; [|by unfold all_events in Hne; rewrite E in Hne].
  assert (token (t ++ "."%js)) as Htt.
  { split; [by destruct t|]. apply Forall_app. split; [apply Ht|by repeat constructor]. }
  unfold event_types. rewrite (words_token _ Htt). cbn [foldr mbind option_bind]. unfold remove_word, rtypenamespace.
  change (t ++ "."%js) with (t ++ 46%N :: []) at 1. rewrite index_of_dot_app by done.
  assert (drop (S (length t)) (t ++ "."%js) = []) as -> by (apply drop_ge; rewrite length_app; cbn; lia). cbn [orb jeqb].
  assert (∃ k, k ∈ for_in (all_events d)) as [k0 Hk0].
  { destruct (all_events d) as [|[k hs] o] eqn:Ee; [done|]. exists k. apply elem_of_for_in. by left. }
  destruct (for_in (all_events d)) as [|k ks] eqn:Ef; [by apply elem_of_nil in Hk0|].
  assert (k ∈ obj_keys (all_events d)) as [Hkt Hkp]%(proj1 (Forall_forall _ _) Hk) by (apply elem_of_for_in; rewrite Ef; by left).
  cbn [foldl mbind option_bind]. rewrite app_assoc, IH.
  - assert (∀ l : list jstring, foldl (λ (d : option elem_data) type, d ← d; event_remove special_type fuel (type ++ t ++ "."%js) guid selector true d) None l = None) as ->; [|done].
    by induction l.
  - split; [by destruct k, Hkt|]. apply Forall_app. split; [apply Hkt|apply Ht].
  - intros [?|?]%elem_of_app; [by apply Hkp|by apply Hp].
Qed.
