(* ===== verification/JqTrigger.v ===== *)
(** * Triggering events (jquery/src/event.js, [jQuery.event.trigger])

    An event that a page triggers goes along a path of nodes, runs the handlers and the native handler of
    each, and ends with the native action of the node, during which the handlers for the same type are
    not run again.  The tree, the native handlers and methods of nodes and what special events do on their
    own are parameters.  A native action is the list of the native events it fires. *)

From S2P Require Import Prelude JsString JsObject DtUtil JsRegExp JqEvent.

Section trigger.
Context {W : Type}.

(** The library, the type whose native action is under way ([jQuery.event.triggered]), and the rest. *)
Definition tstate : Type := lib * (option jstring * W).
Definition triggered (st : tstate) : option jstring := st.2.1.
Definition set_triggered (t : option jstring) (st : tstate) : tstate := (st.1, (t, st.2.2)).

Variable special_type : bool → jstring → option jstring.
Variable ancestors : nat → list nat.                       (* a node and its ancestors, outwards *)
Variable sel_matches : nat → jstring → nat → bool.
Variable disabled : nat → bool.
Variable page_fn : nat → nat → event → tstate → tstate * answer.

(** The nodes. *)
Variable is_text is_window acceptData : nat → bool.
Variable document_of window_of : nat → nat.                (* the document of a node; the window of a document *)
Variable native_on : nat → jstring → option nat.           (* the function in the property [on...] *)
Variable has_method : nat → jstring → bool.                (* a method with the name of the event *)
Variable native_events : nat → jstring → list (jstring * (nat * list nat)).   (* type, target, path of each *)

(** Special events: [noBubble]; [trigger], when it returns false; whether [_default] is absent or
    returns false. *)
Variable noBubble : jstring → bool.
Variable special_trigger : nat → jstring → tstate → option tstate.
Variable native_default : jstring → event → bool.

Abbreviation dispatch := (JqEvent.dispatch special_type ancestors sel_matches disabled false page_fn).
Abbreviation trace := (list (nat * handleObj)).

(** The function that the library adds as the listener of a node: nothing for the second event of a
    trigger. *)
Definition elem_handle (cur : nat) (e : event) (st : tstate) : option (event * tstate * trace) :=
  if bool_decide (triggered st = Some (ev_type e)) then Some (e, st, []) else dispatch cur e st.

(** The event after the native handler of a node; a result of false prevents the default only. *)
Definition after_native (e : event) (a : answer) : event :=
  Event (ev_type e) (ev_target e) (ev_namespaces e) (a_ret a) (ev_stopped e || a_stop a || a_immediate a) (ev_immediate e || a_immediate a)
    (ev_prevented e || a_prevent a || bool_decide (a_ret a = Some 0)) (ev_related e).

(** [/^(?:focusinfocus|focusoutblur)$/] *)
Definition rfocusMorph (s : jstring) : bool := (s =s? "focusinfocus"%js) || (s =s? "focusoutblur"%js).

Definition run_node (type : jstring) (ontype : option jstring) (cur : nat) (e : event) (st : tstate) : option (event * tstate * trace) :=
  let e := set_type type e in
  let d := elem_of st.1 cur in
  '(e, st, t) ← (if bool_decide (is_Some (obj_get type (default [] (e_events d)))) && e_handle d then elem_handle cur e st else Some (e, st, []));
  match f ← ontype; if acceptData cur then native_on cur f else None with
  | Some f => let '(st, a) := page_fn f cur e st in Some (after_native e a, st, t)
  | None => Some (e, st, t)
  end.

Fixpoint run_path (type bubbleType : jstring) (ontype : option jstring) (path : list nat) (e : event) (st : tstate)
    : option (event * tstate * trace) :=
  match path with
  | [] => Some (e, st, [])
  | cur :: path =>
      if ev_stopped e then Some (e, st, [])
      else
        '(e, st, t) ← run_node type ontype cur e st;
        '(e, st, t') ← run_path bubbleType bubbleType ontype path e st;
        Some (e, st, t ++ t')
  end.

(** The nodes above, and the window behind the document. *)
Definition event_path (elem : nat) (type bubbleType : jstring) : list nat :=
  let up := if rfocusMorph (bubbleType ++ type) then ancestors elem else tail (ancestors elem) in
  elem :: up ++ (if bool_decide (last (elem :: up) = Some (document_of elem)) then [window_of (document_of elem)] else []).

(** One native event of an action, along its path: the library makes an event of its own for each node. *)
Fixpoint native_path (path : list nat) (e : event) (st : tstate) : option (event * tstate * trace) :=
  match path with
  | [] => Some (e, st, [])
  | cur :: path =>
      if ev_stopped e then Some (e, st, [])
      else
        let e := Event (ev_type e) (ev_target e) None None false false (ev_prevented e) (ev_related e) in
        '(seen, st, t) ← (if bool_decide (ev_type e ∈ e_listeners (elem_of st.1 cur)) then elem_handle cur e st else Some (e, st, []));
        '(e, st, t') ← native_path path (set_type (ev_type e) seen) st;
        Some (e, st, t ++ t')
  end.

Fixpoint native_action (evs : list (jstring * (nat * list nat))) (st : tstate) : option (tstate * trace) :=
  match evs with
  | [] => Some (st, [])
  | (type, (target, path)) :: evs =>
      '(_, st, t) ← native_path path (Event type target None None false false false None) st;
      '(st, t') ← native_action evs st;
      Some (st, t ++ t')
  end.

(** The type and the sorted namespaces of [type]. *)
Definition trigger_type (type : jstring) : jstring * list jstring :=
  match index_of "."%js type with
  | Some _ => (default [] (head (split "."%js type)), sort_strs (tail (split "."%js type)))
  | None => (type, [])
  end.

(** What [jQuery.event.trigger] does for a type: the result, and the handlers that ran on the path and
    during the native action. *)
Definition event_trigger (types : jstring) (elem : nat) (onlyHandlers : bool) (st : tstate)
    : option (option nat * tstate * (trace * trace)) :=
  if is_text elem then Some (None, st, ([], []))
  else if rfocusMorph (types ++ default "undefined"%js (triggered st)) then Some (None, st, ([], []))
  else
    let '(type, namespaces) := trigger_type types in
    let ontype := match index_of ":"%js type with Some _ => None | None => Some ("on"%js ++ type) end in
    namespace_re ← (if join "."%js namespaces =s? [] then Some None else Some <$> namespace_re namespaces);
    match (if onlyHandlers then None else special_trigger elem type st) with
    | Some st => Some (None, st, ([], []))
    | None =>
        let bubbleType := bound_type special_type (Some []) type in
        let path := if onlyHandlers || noBubble type || is_window elem then [elem] else event_path elem type bubbleType in
        let e := Event type elem namespace_re None false false false None in
        '(e, st, t) ← run_path (bound_type special_type None type) bubbleType ontype path e st;
        let e := set_type type e in
        if negb onlyHandlers && negb (ev_prevented e) && native_default type e && acceptData elem
           && bool_decide (is_Some ontype) && has_method elem type && negb (is_window elem)
        then
          '(st, t') ← native_action (native_events elem type) (set_triggered (Some type) st);
          Some (ev_result e, set_triggered None st, (t, t'))
        else Some (ev_result e, st, (t, []))
    end.

(** ** The native action does not run the handlers again *)

Definition keeps_triggered : Prop := ∀ f elem e st, triggered (page_fn f elem e st).1 = triggered st.
Context (Hkeep : keeps_triggered).

Lemma call_keeps this elem h e st e' st' :
  call_handler special_type page_fn this elem h e st = Some (e', st') → triggered st' = triggered st.
Proof.
  unfold call_handler. generalize (obj_get (h_origType h) mouse_types). intros fixed.
  destruct (match h_handler h with Fn _ => _ | Once _ => _ end) as [l|]; [|done]. cbn [mbind option_bind].
  set (seen := match fixed with Some _ => _ | None => e end).
  pose proof (Hkeep (fn_of (h_handler h)) elem seen (l, st.2)) as H. destruct (page_fn _ _ _ _) as [st1 a]. by intros [= <- <-].
Qed.

Lemma handlers_keep this elem hs e st e' st' t :
  run_handlers special_type ancestors page_fn this elem hs e st = Some (e', st', t) → triggered st' = triggered st.
Proof.
  revert e st t. induction hs as [|h hs IH]; intros e st t; cbn [run_handlers]; [by intros [= <- <- <-]|].
  destruct (ev_immediate e); [by intros [= <- <- <-]|]. destruct (namespace_ok e h && _); [|by apply IH].
  destruct (call_handler _ _ _ _ _ _ _) as [[e1 st1]|] eqn:Ec; [|done]. cbn [mbind option_bind].
  destruct (run_handlers _ _ _ _ _ _ _ _) as [[[e2 st2] t2]|] eqn:Er; [|done]. cbn [mbind option_bind]. intros [= <- <- <-].
  apply call_keeps in Ec as <-. by apply IH in Er.
Qed.

Lemma queue_keeps this queue e st e' st' t :
  run_queue special_type ancestors page_fn this queue e st = Some (e', st', t) → triggered st' = triggered st.
Proof.
  revert e st t. induction queue as [|[elem hs] queue IH]; intros e st t; cbn [run_queue]; [by intros [= <- <- <-]|].
  destruct (ev_stopped e); [by intros [= <- <- <-]|].
  destruct (run_handlers _ _ _ _ _ _ _ _) as [[[e1 st1] t1]|] eqn:Eh; [|done]. cbn [mbind option_bind].
  destruct (run_queue _ _ _ _ _ _ _) as [[[e2 st2] t2]|] eqn:Er; [|done]. cbn [mbind option_bind]. intros [= <- <- <-].
  apply handlers_keep in Eh as <-. by apply IH in Er.
Qed.

Lemma handle_keeps cur e st e' st' t : elem_handle cur e st = Some (e', st', t) → triggered st' = triggered st.
Proof. unfold elem_handle. case_bool_decide; [by intros [= <- <- <-]|]. apply queue_keeps. Qed.

(** A native event leaves the type whose action is under way, and if it is of that type nothing runs. *)
Lemma native_path_keeps path e st e' st' t :
  native_path path e st = Some (e', st', t) →
  triggered st' = triggered st ∧ (triggered st = Some (ev_type e) → st' = st ∧ t = []).
Proof.
  revert e st t. induction path as [|cur path IH]; intros e st t; cbn [native_path]; [by intros [= <- <- <-]|].
  destruct (ev_stopped e); [by intros [= <- <- <-]|]. set (e0 := Event (ev_type e) _ _ _ _ _ _ _).
  destruct (if bool_decide _ then elem_handle cur e0 st else _) as [[[e1 st1] t1]|] eqn:E1; [|done]. cbn [mbind option_bind].
  destruct (native_path path _ st1) as [[[e2 st2] t2]|] eqn:E2; [|done]. cbn [mbind option_bind]. intros [= <- <- <-].
  apply IH in E2 as [H1 H2]. cbn [ev_type set_type e0] in H2.
  assert (triggered st1 = triggered st) as H3.
  { case_bool_decide; [by apply handle_keeps in E1|by injection E1 as <- <- <-]. }
  split; [congruence|]. intros Ht. assert (st1 = st ∧ t1 = []) as [-> ->].
  { case_bool_decide; [|by injection E1 as <- <- <-]. unfold elem_handle in E1. rewrite bool_decide_eq_true_2 in E1 by done. by injection E1 as <- <- <-. }
  by destruct (H2 Ht) as [-> ->].
Qed.

Lemma native_action_keeps evs st st' t : native_action evs st = Some (st', t) → triggered st' = triggered st.
Proof.
  revert st t. induction evs as [|[ty [target path]] evs IH]; intros st t; cbn [native_action]; [by intros [= <- <-]|].
  destruct (native_path _ _ _) as [[[e1 st1] t1]|] eqn:E1; [|done]. cbn [mbind option_bind].
  destruct (native_action evs st1) as [[st2 t2]|] eqn:E2; [|done]. cbn [mbind option_bind]. intros [= <- <-].
  apply native_path_keeps in E1 as [<- _]. by apply IH in E2.
Qed.

(** The events of the type under way do nothing. *)
Lemma native_action_skips type evs st st' t :
  triggered st = Some type → native_action evs st = Some (st', t) → native_action (filter (λ ev, ev.1 ≠ type) evs) st = Some (st', t).
Proof.
  revert st t. induction evs as [|[ty [target path]] evs IH]; intros st t Ht; [done|]. cbn [native_action].
  destruct (native_path _ _ _) as [[[e1 st1] t1]|] eqn:E1; [|done]. cbn [mbind option_bind].
  destruct (native_action evs st1) as [[st2 t2]|] eqn:E2; [|done]. cbn [mbind option_bind]. intros [= <- <-].
  pose proof (native_path_keeps _ _ _ _ _ _ E1) as [H1 H2]. rewrite <- H1 in Ht. apply IH in E2; [|done]. rewrite filter_cons. cbn [fst]. case_decide as Hd.
  - cbn [native_action]. rewrite E1. cbn [mbind option_bind]. rewrite E2. done.
  - subst ty. rewrite H1 in Ht. destruct (H2 Ht) as [-> ->]. done.
Qed.

Lemma run_path_keeps type bubbleType ontype path e st e' st' t :
  run_path type bubbleType ontype path e st = Some (e', st', t) → triggered st' = triggered st.
Proof.
  revert type e st t. induction path as [|cur path IH]; intros type e st t; cbn [run_path]; [by intros [= <- <- <-]|].
  destruct (ev_stopped e); [by intros [= <- <- <-]|].
  destruct (run_node type ontype cur e st) as [[[e1 st1] t1]|] eqn:En; [|done]. cbn [mbind option_bind].
  destruct (run_path bubbleType bubbleType ontype path e1 st1) as [[[e2 st2] t2]|] eqn:Er; [|done]. cbn [mbind option_bind]. intros [= <- <- <-].
  apply IH in Er. rewrite Er. unfold run_node in En. destruct (if _ && _ then _ else _) as [[[e3 st3] t3]|] eqn:E3; [|done]. cbn [mbind option_bind] in En.
  assert (triggered st3 = triggered st) as <- by (clear En; destruct (_ && e_handle _); [by apply (handle_keeps _ _ _ _ _ _ E3)|by injection E3 as <- <- <-]).
  destruct (f ← ontype; _) as [f|]; [|by injection En as <- <- <-]. pose proof (Hkeep f cur e3 st3) as H.
  destruct (page_fn f cur e3 st3) as [st4 a]. by injection En as <- <- <-.
Qed.

(** As long as the functions of the page leave the mark of the action under way, the native action at the end of a
    trigger runs no handler for the type of the trigger a second time: it does what it would do without the native events
    of that type.  The mark is gone afterwards; without a native action it is as before. *)
Theorem trigger_runs_once types elem onlyHandlers st r st' t t' :
  (∀ st st1, special_trigger elem (trigger_type types).1 st = Some st1 → triggered st1 = triggered st) →
  event_trigger types elem onlyHandlers st = Some (r, st', (t, t')) →
  (t' = [] ∧ triggered st' = triggered st)
  ∨ (onlyHandlers = false ∧ ∃ st1 st2,
       native_action (filter (λ ev, ev.1 ≠ (trigger_type types).1) (native_events elem (trigger_type types).1))
         (set_triggered (Some (trigger_type types).1) st1) = Some (st2, t')
       ∧ triggered st1 = triggered st ∧ st' = set_triggered None st2).
Proof.
  intros Hsp. unfold event_trigger. destruct (is_text elem); [intros [= <- <- <- <-]; by left|].
  destruct (rfocusMorph _); [intros [= <- <- <- <-]; by left|]. destruct (trigger_type types) as [type namespaces]. cbn [fst] in *.
  destruct (if _ =s? [] then _ else _) as [re|]; [|done]. cbn [mbind option_bind].
  destruct (if onlyHandlers then None else _) as [st0|] eqn:E0.
  { intros [= <- <- <- <-]. left. split; [done|]. destruct onlyHandlers; [done|]. by eapply Hsp. }
  destruct (run_path _ _ _ _ _ _) as [[[e1 st1] t1]|] eqn:E1; [|done]. cbn [mbind option_bind]. apply run_path_keeps in E1.
  destruct (_ && negb (is_window elem)) eqn:Eg; [|intros [= <- <- <- <-]; by left].
  destruct (native_action _ _) as [[st2 t2]|] eqn:E2; [|done]. cbn [mbind option_bind]. intros [= <- <- <- <-]. right.
  split; [by destruct onlyHandlers|]. exists st1, st2. split; [|done]. by apply native_action_skips.
Qed.
End trigger.

(** ** Examples *)

(** A handler for clicks on the node [2] in [1] (the document); the native action fires the click on both. *)
Definition one_click : lib := event_add no_special 1 "click"%js (Fn 7) 0 (Some "a"%js) (event_add no_special 2 "click"%js (Fn 8) 0 None (Lib ∅ ∅ 1)).
Definition simple_trigger (page_fn : nat → nat → event → tstate (W:=unit) → tstate (W:=unit) * answer) (st : tstate) :=
  event_trigger no_special (λ n, if n =? 2 then [2; 1] else [n]) (λ _ _ n, n =? 2) (λ _, false) page_fn
    (λ _, false) (λ n, n =? 0) (λ n, negb (n =? 0)) (λ _, 1) (λ _, 0) (λ _ _, None) (λ n _, n =? 2)
    (λ n type, [(type, (n, [2; 1]))]) (λ _, false) (λ _ _ _, None) (λ _ _, true) "click"%js 2 false st.
Definition no_answer : answer := Answer None false false false.

Lemma trigger_runs_once_witness :
  let page_fn (f elem : nat) (e : event) (st : tstate (W:=unit)) := (st, no_answer) in
  match simple_trigger page_fn (one_click, (None, ())) with
  | Some (_, _, (t, t')) => (λ p : nat * handleObj, h_guid p.2) <$> t = [1; 2] ∧ t' = []
  | None => False
  end.
Proof.
  intros page_fn. unfold simple_trigger. destruct (event_trigger _ _ _ _ _ _ _ _ _ _ _ _ _ _ _ _ _ _ _ _) as [[[r st'] [t t']]|] eqn:E; [|vm_compute in E; discriminate E].
  split; [vm_compute in E; by injection E as _ _ <- _|].
  eapply trigger_runs_once in E; [|by intros f elem e st|by intros st st1].
  destruct E as [[-> _]|(_ & st1 & st2 & E & _)]; [done|].
  change (filter _ _) with (@nil (jstring * (nat * list nat))) in E. by injection E as _ <-.
Defined.

(** A handler that triggers another event, itself with a native action, during the native action of the first one
    takes its mark away: the handlers for the first type run twice. *)
Definition trigger_with (page_fn : nat → nat → event → tstate (W:=unit) → tstate (W:=unit) * answer) (evs : list (jstring * (nat * list nat)))
    (type : jstring) (st : tstate) :=
  event_trigger no_special (λ n, [n]) (λ _ _ _, false) (λ _, false) page_fn
    (λ _, false) (λ n, n =? 0) (λ n, negb (n =? 0)) (λ _, 1) (λ _, 0) (λ _ _, None) (λ n _, n =? 2)
    (λ n _, evs) (λ _, false) (λ _ _ _, None) (λ _ _, true) type 2 false st.

Lemma nested_trigger_reruns :
  let quiet_fn (f elem : nat) (e : event) (st : tstate (W:=unit)) := (st, no_answer) in
  let page_fn (f elem : nat) (e : event) (st : tstate (W:=unit)) :=
    (if f =? 9 then match trigger_with quiet_fn [] "select"%js st with Some (_, st, _) => st | None => st end else st, no_answer) in
  let l := event_add no_special 2 "blur"%js (Fn 9) 0 None (event_add no_special 2 "focus"%js (Fn 8) 0 None (Lib ∅ ∅ 1)) in
  let evs := [("blur"%js, (2, [2])); ("focus"%js, (2, [2]))] in
  (λ r : option nat * tstate (W:=unit) * (list (nat * handleObj) * list (nat * handleObj)),
     (λ p : nat * handleObj, fn_of (h_handler p.2)) <$> (r.2.1 ++ r.2.2)) <$> trigger_with page_fn evs "focus"%js (l, (None, ()))
  = Some [8; 9; 8].
Proof. vm_compute. reflexivity. Qed.
