(* ===== verification/JqQueue.v ===== *)
(** * Queues of functions (jquery/src/queue.js)

    Every element has queues of functions by type; a queue is emptied one function after the other, each
    started when the one before calls [next].  The queue of effects starts by itself and marks with a
    sentinel that a function is under way.  A promise of a collection is resolved when the queues of its
    elements are empty.

    What the page's functions do is not modelled: a function that is started can make any further calls,
    at once or later.  Nothing happens in a call after the function was started, so a call made at once
    is one more step of the same sequence.  The hook [stop] is left out.

    Functions are started in the order they were queued, effects one at a time, and a promise is resolved
    exactly when every queue it waits for was emptied. *)

From S2P Require Import Prelude JsString.

(** ** State *)

Inductive entry := InProgress | Func (f : nat).
#[export] Instance entry_eq_dec : EqDecision entry.
Proof. solve_decision. Defined.

(** The data of one element for one type: the queue, and the hooks, that is the promises that wait for
    the queue to be empty. *)
Record qdata := QData { q_items : option (list entry); q_hooks : option (list nat) }.
Definition no_qdata : qdata := QData None None.

(** The data by element and type; what each promise still waits for, plus one while it is made. *)
Record queues := Queues { q_data : gmap (nat * jstring) qdata; q_counts : list Z }.

Definition data_at (k : nat * jstring) (s : queues) : qdata := default no_qdata (q_data s !! k).
Definition put_data (k : nat * jstring) (d : qdata) (s : queues) : queues := Queues (<[k := d]> (q_data s)) (q_counts s).

Inductive effect :=
  | Started (elem : nat) (type : jstring) (f : nat)     (* a function is called *)
  | Emptied (elem : nat) (type : jstring)               (* the callbacks of [hooks.empty] run *)
  | Settled (p : nat).                                  (* a promise is resolved *)

Definition queue_type (type : jstring) : jstring := if type =s? [] then "fx"%js else type.

(** ** [jQuery.queue] *)

(** A function, or an array of functions. *)
Inductive qvalue := QFn (f : nat) | QArr (fs : list nat).

Definition makeArray (v : qvalue) : list entry := match v with QFn f => [Func f] | QArr fs => Func <$> fs end.

(** [queue] of the source with a value: an array replaces the queue. *)
Definition queue_set (k : nat * jstring) (v : qvalue) (s : queues) : queues :=
  let d := data_at k s in
  match q_items d, v with
  | Some q, QFn f => put_data k (QData (Some (q ++ [Func f])) (q_hooks d)) s
  | _, _ => put_data k (QData (Some (makeArray v)) (q_hooks d)) s
  end.

(** [queue] of the source without a value. *)
Definition queue_get (k : nat * jstring) (s : queues) : list entry := default [] (q_items (data_at k s)).

(** ** [jQuery._queueHooks] *)

Definition _queueHooks (k : nat * jstring) (s : queues) : queues :=
  let d := data_at k s in
  match q_hooks d with Some _ => s | None => put_data k (QData (q_items d) (Some [])) s end.

(** The function that [promise] adds to the hooks. *)
Definition resolve_one (p : nat) (s : queues) : queues * list effect :=
  let n := (default 0 (q_counts s !! p) - 1)%Z in
  (Queues (q_data s) (<[p := n]> (q_counts s)), if bool_decide (n = 0%Z) then [Settled p] else []).

Fixpoint resolve_all (ps : list nat) (s : queues) : queues * list effect :=
  match ps with
  | [] => (s, [])
  | p :: ps => let '(s, t) := resolve_one p s in let '(s, t') := resolve_all ps s in (s, t ++ t')
  end.

(** [hooks.empty.fire()]: the data goes first. *)
Definition fire_empty (k : nat * jstring) (s : queues) : queues * list effect :=
  let waiting := default [] (q_hooks (data_at k s)) in
  let '(s, t) := resolve_all waiting (put_data k no_qdata s) in
  (s, Emptied k.1 k.2 :: t).

(** ** [jQuery.dequeue]

    The sentinel is only put in front of a queue that just lost its own, so that there is no second one to
    find behind it. *)

Definition set_items (k : nat * jstring) (q : list entry) (s : queues) : queues :=
  let d := data_at k s in
  match q_items d with Some _ => put_data k (QData (Some q) (q_hooks d)) s | None => s end.

Definition dequeue (k : nat * jstring) (s : queues) : queues * list effect :=
  let queue := queue_get k s in
  let startLength := length queue in
  let '(fn, queue) := match queue with [] => (None, []) | fn :: queue => (Some fn, queue) end in
  let '(fn, queue, startLength) :=
    match fn with
    | Some InProgress => (match queue with [] => (None, [], startLength - 1) | fn :: queue => (Some fn, queue, startLength - 1) end)
    | _ => (fn, queue, startLength)
    end in
  let s := _queueHooks k s in
  match fn with
  | Some (Func f) =>
      let queue := if k.2 =s? "fx"%js then InProgress :: queue else queue in
      (set_items k queue s, [Started k.1 k.2 f])
  | _ =>
      let s := set_items k queue s in
      if startLength =? 0 then fire_empty k s else (s, [])
  end.

(** ** The methods of a collection *)

(** [queue] with a value, on one element. *)
Definition fn_queue (elem : nat) (type : jstring) (v : qvalue) (s : queues) : queues * list effect :=
  let k := (elem, queue_type type) in
  let s := _queueHooks (elem, type) (queue_set k v s) in
  if (type =s? "fx"%js) && negb (bool_decide (head (queue_get k s) = Some InProgress)) then dequeue k s else (s, []).

Definition clearQueue (elem : nat) (type : jstring) (s : queues) : queues * list effect := fn_queue elem (queue_type type) (QArr []) s.

(** [promise]: from the last element to the first; then the count is lowered by one. *)
Fixpoint register_all (p : nat) (type : jstring) (els : list nat) (s : queues) : queues :=
  match els with
  | [] => s
  | e :: els =>
      let s := register_all p type els s in
      let d := data_at (e, type) s in
      match q_hooks d with
      | Some ps => Queues (<[(e, type) := QData (q_items d) (Some (ps ++ [p]))]> (q_data s))
                     (<[p := (default 0 (q_counts s !! p) + 1)%Z]> (q_counts s))
      | None => s
      end
  end.

Definition promise (els : list nat) (type : jstring) (s : queues) : nat * (queues * list effect) :=
  let p := length (q_counts s) in
  let s := Queues (q_data s) (q_counts s ++ [1%Z]) in
  (p, resolve_one p (register_all p (queue_type type) els s)).

(** ** Sequences of calls *)

Inductive qcall :=
  | Queue (elem : nat) (type : jstring) (f : nat)
  | Replace (elem : nat) (type : jstring) (fs : list nat)
  | Dequeue (elem : nat) (type : jstring)
  | Promise (els : list nat) (type : jstring).

Definition qstep (c : qcall) (s : queues) : queues * list effect :=
  match c with
  | Queue elem type f => fn_queue elem type (QFn f) s
  | Replace elem type fs => fn_queue elem type (QArr fs) s
  | Dequeue elem type => dequeue (elem, queue_type type) s
  | Promise els type => (promise els type s).2
  end.

Fixpoint qrun (cs : list qcall) (s : queues) : queues * list effect :=
  match cs with
  | [] => (s, [])
  | c :: cs => let '(s, t) := qstep c s in let '(s, t') := qrun cs s in (s, t ++ t')
  end.

Definition no_queues : queues := Queues ∅ [].

Example effects_in_turn :
  (qrun [Queue 1 "fx"%js 7; Queue 1 "fx"%js 8; Promise [1; 2] []; Dequeue 1 []; Dequeue 1 "fx"%js] no_queues).2
  = [Started 1 "fx"%js 7; Started 1 "fx"%js 8; Emptied 1 "fx"%js; Settled 0].
Proof. vm_compute. reflexivity. Qed.

(** ** The queue of one key *)

(** Whether a function is under way, and the functions that wait. *)
Definition state_at (k : nat * jstring) (s : queues) (b : bool) (fs : list nat) : Prop :=
  match q_items (data_at k s) with
  | None => b = false ∧ fs = []
  | Some q => q = (if b then [InProgress] else []) ++ (Func <$> fs) ∧ (b = true → k.2 = "fx"%js)
  end.

Lemma data_at_put k k' d s : data_at k' (put_data k d s) = if decide (k' = k) then d else data_at k' s.
Proof. unfold data_at, put_data. cbn. case_decide; [subst; by rewrite lookup_insert_eq|by rewrite lookup_insert_ne]. Qed.

Lemma items_hooks k k' s : q_items (data_at k' (_queueHooks k s)) = q_items (data_at k' s).
Proof. unfold _queueHooks. destruct (q_hooks _); [done|]. rewrite data_at_put. case_decide; by subst. Qed.

Lemma state_hooks k k' s b fs : state_at k' (_queueHooks k s) b fs ↔ state_at k' s b fs.
Proof. unfold state_at. by rewrite items_hooks. Qed.

Lemma resolve_data ps s : q_data (resolve_all ps s).1 = q_data s.
Proof. revert s. induction ps as [|p ps IH]; intros s; [done|]. cbn. specialize (IH (Queues (q_data s) (<[p:=(default 0 (q_counts s !! p) - 1)%Z]> (q_counts s)))). destruct (resolve_all ps _). exact IH. Qed.

Definition is_settled (e : effect) : Prop := match e with Settled _ => True | _ => False end.

Lemma resolve_effects ps s : Forall is_settled (resolve_all ps s).2.
Proof.
  revert s. induction ps as [|p ps IH]; intros s; [constructor|]. cbn. specialize (IH (Queues (q_data s) (<[p:=(default 0 (q_counts s !! p) - 1)%Z]> (q_counts s)))).
  destruct (resolve_all ps _) as [s' t']. apply Forall_app. split; [by case_bool_decide; repeat constructor|exact IH].
Qed.

Lemma data_fire k k' s : data_at k' (fire_empty k s).1 = if decide (k' = k) then no_qdata else data_at k' s.
Proof.
  unfold fire_empty. pose proof (resolve_data (default [] (q_hooks (data_at k s))) (put_data k no_qdata s)) as H.
  destruct (resolve_all _ _) as [s' t]. cbn in *. unfold data_at at 1. rewrite H. apply data_at_put.
Qed.

(** The functions of a key that effects start. *)
Definition starts (k : nat * jstring) (t : list effect) : list nat :=
  omap (λ e, match e with Started elem type f => if decide ((elem, type) = k) then Some f else None | _ => None end) t.

Lemma starts_app k t t' : starts k (t ++ t') = starts k t ++ starts k t'.
Proof. apply omap_app. Qed.

Lemma starts_settled k t : Forall is_settled t → starts k t = [].
Proof. induction 1 as [|e t He _ IH]; [done|]. unfold starts in *. cbn. rewrite IH. by destruct e. Qed.

Lemma fire_spec k s : ∃ t, (fire_empty k s).2 = Emptied k.1 k.2 :: t ∧ Forall is_settled t.
Proof.
  unfold fire_empty. pose proof (resolve_effects (default [] (q_hooks (data_at k s))) (put_data k no_qdata s)) as H.
  destruct (resolve_all _ _) as [s' t]. by exists t.
Qed.

(** [dequeue] starts the first function that waits, or empties the queue. *)
Lemma dequeue_spec k s b fs s' t :
  state_at k s b fs → dequeue k s = (s', t) →
  (∀ k', k' ≠ k → data_at k' s' = data_at k' s)
  ∧ match fs with
    | f :: fs => t = [Started k.1 k.2 f] ∧ state_at k s' (k.2 =s? "fx"%js) fs
    | [] => (∃ t', t = Emptied k.1 k.2 :: t' ∧ Forall is_settled t') ∧ state_at k s' false [] ∧ data_at k s' = no_qdata
    end.
Proof.
  assert (∀ s0, (∀ k', k' ≠ k → data_at k' s0 = data_at k' s) → fire_empty k s0 = (s', t) →
    (∀ k', k' ≠ k → data_at k' s' = data_at k' s)
    ∧ (∃ t', t = Emptied k.1 k.2 :: t' ∧ Forall is_settled t') ∧ state_at k s' false [] ∧ data_at k s' = no_qdata) as Hfire.
  { intros s0 H0 Hf. pose proof (data_fire k) as Hd. destruct (fire_spec k s0) as (t' & Ht & Hs). rewrite Hf in Ht. cbn in Ht.
    assert (∀ k', data_at k' s' = if decide (k' = k) then no_qdata else data_at k' s0) as Hd'.
    { intros k'. specialize (Hd k' s0). by rewrite Hf in Hd. }
    split; [intros k' Hk'; rewrite Hd', decide_False by done; by apply H0|]. split; [by exists t'|]. unfold state_at. by rewrite Hd', decide_True. }
  assert (∀ k' q s0, data_at k' (set_items k q s0) = match q_items (data_at k s0) with
    | Some _ => if decide (k' = k) then QData (Some q) (q_hooks (data_at k s0)) else data_at k' s0 | None => data_at k' s0 end) as Hset.
  { intros k' q s0. unfold set_items. destruct (q_items _); [|done]. apply data_at_put. }
  assert (∀ k', k' ≠ k → data_at k' (_queueHooks k s) = data_at k' s) as Hh.
  { intros k' Hk'. unfold _queueHooks. destruct (q_hooks _); [done|]. by rewrite data_at_put, decide_False. }
  unfold state_at, dequeue, queue_get. intros Hst.
  assert (∀ q, (∀ k', k' ≠ k → data_at k' (set_items k q (_queueHooks k s)) = data_at k' s)) as Hother.
  { intros q k' Hk'. rewrite Hset, decide_False by done. destruct (q_items (data_at k (_queueHooks k s))); by apply Hh. }
  assert (∀ q, is_Some (q_items (data_at k s)) → q_items (data_at k (set_items k q (_queueHooks k s))) = Some q) as Hown.
  { intros q [q0 Hq]. rewrite Hset, items_hooks, Hq, decide_True by done. done. }
  destruct (q_items (data_at k s)) as [q|] eqn:E; cbn [default from_option id].
  - destruct Hst as [-> Hb]. destruct b; cbn [app].
    + cbn [length]. destruct fs as [|f fs]; cbn [fmap list_fmap length Nat.sub Nat.eqb].
      * apply Hfire. apply Hother.
      * rewrite (Hb eq_refl). rewrite jeqb_refl. intros [= <- <-]. split; [apply Hother|]. split; [done|]. by rewrite Hown by done.
    + destruct fs as [|f fs]; cbn [fmap list_fmap length Nat.sub Nat.eqb].
      * apply Hfire. apply Hother.
      * intros [= <- <-]. split; [apply Hother|]. split; [done|]. rewrite Hown by done. destruct (k.2 =s? "fx"%js) eqn:Ek; [|done].
        by apply jeqb_true in Ek.
  - destruct Hst as [-> ->]. cbn [length Nat.eqb]. apply Hfire. apply Hother.
Qed.

(** ** Calls *)

(** What a call queues for a key, whether it asks for the next function, whether it replaces the queue. *)
Definition queued (k : nat * jstring) (c : qcall) : list nat :=
  match c with Queue elem type f => if decide ((elem, queue_type type) = k) then [f] else [] | _ => [] end.
Definition asks (k : nat * jstring) (c : qcall) : nat :=
  match c with Dequeue elem type => if decide ((elem, queue_type type) = k) then 1 else 0 | _ => 0 end.
Definition keeps (k : nat * jstring) (c : qcall) : Prop :=
  match c with Replace elem type _ => (elem, queue_type type) ≠ k | _ => True end.

Lemma state_same k s s' b fs : q_items (data_at k s') = q_items (data_at k s) → state_at k s b fs → state_at k s' b fs.
Proof. unfold state_at. by intros ->. Qed.

Lemma state_exists_dequeue k k' s b fs s' t :
  k' ≠ k → state_at k s b fs → (∃ b' fs', state_at k' s b' fs') → dequeue k' s = (s', t) → state_at k s' b fs ∧ starts k t = [].
Proof.
  intros Hne Hs (b' & fs' & Hs') Hd. destruct (dequeue_spec _ _ _ _ _ _ Hs' Hd) as [Ho Hc]. split.
  - eapply state_same; [|exact Hs]. by rewrite Ho.
  - destruct fs' as [|f fs'].
    + destruct Hc as [(t' & -> & Ht') _]. by apply (starts_settled k) in Ht'.
    + destruct Hc as [-> _]. cbn. by rewrite decide_False by (by destruct k').
Qed.

(** Every queue has a state. *)
Definition queues_ok (s : queues) : Prop := ∀ k, ∃ b fs, state_at k s b fs.

Lemma set_state k v s b fs :
  state_at k s b fs → match v with QFn f => state_at k (queue_set k v s) b (fs ++ [f]) | QArr l => state_at k (queue_set k v s) false l end.
Proof.
  unfold queue_set, state_at. intros Hs. destruct (q_items (data_at k s)) as [q|], v as [f|l]; rewrite data_at_put, decide_True by done; cbn.
  - destruct Hs as [-> Hb]. split; [|done]. by rewrite fmap_app, app_assoc.
  - done.
  - by destruct Hs as [-> ->].
  - done.
Qed.

Lemma set_other k k' v s : k' ≠ k → data_at k' (queue_set k v s) = data_at k' s.
Proof. intros Hk. unfold queue_set. destruct (q_items _), v; by rewrite data_at_put, decide_False. Qed.

Lemma state_head k s b fs : state_at k s b fs → bool_decide (head (queue_get k s) = Some InProgress) = b.
Proof.
  unfold state_at, queue_get. destruct (q_items (data_at k s)) as [q|]; cbn; [|by intros [-> _]]. intros [-> _]. destruct b; [done|]. by destruct fs.
Qed.

(** One call on its own key: what is started and what still waits is what waited and what is queued. *)
Lemma fn_queue_own elem type v s b fs s' t :
  let k := (elem, queue_type type) in
  state_at k s b fs → fn_queue elem type v s = (s', t) →
  let fs1 := match v with QFn f => fs ++ [f] | QArr l => l end in
  let b1 := match v with QFn _ => b | QArr _ => false end in
  (∀ k', k' ≠ k → q_items (data_at k' s') = q_items (data_at k' s))
  ∧ ∃ b' fs', state_at k s' b' fs' ∧ starts k t ++ fs' = fs1
      ∧ (b1 = true → b' = true ∧ starts k t = []) ∧ length (starts k t) ≤ (if b' then 1 else 0).
Proof.
  intros k Hs Hf fs1 b1. unfold fn_queue in Hf. fold k in Hf. set (s1 := _queueHooks (elem, type) (queue_set k v s)) in *.
  assert (state_at k s1 b1 fs1) as Hs1.
  { apply state_hooks. pose proof (set_state k v s b fs Hs). by destruct v. }
  assert (∀ k', k' ≠ k → q_items (data_at k' s1) = q_items (data_at k' s)) as Ho.
  { intros k' Hk. unfold s1. rewrite items_hooks. by rewrite set_other. }
  clearbody s1. rewrite (state_head _ _ _ _ Hs1) in Hf. destruct ((type =s? "fx"%js) && negb b1) eqn:E.
  - apply andb_true_iff in E as [->%jeqb_true Eb%negb_true_iff]. destruct (dequeue_spec _ _ _ _ _ _ Hs1 Hf) as [Ho' Hc].
    split; [intros k' Hk; rewrite Ho' by done; by apply Ho|]. rewrite Eb in *. destruct fs1 as [|f fs'].
    + destruct Hc as ((t' & -> & Ht') & Hst & _). exists false, []. split; [done|]. change (starts k (Emptied k.1 k.2 :: t')) with (starts k t').
      by rewrite (starts_settled k t' Ht').
    + destruct Hc as [-> Hst]. exists true, fs'. split; [exact Hst|]. unfold starts. cbn [omap list_omap]. rewrite decide_True by done. split_and!; done.
  - injection Hf as <- <-. split; [exact Ho|]. exists b1, fs1. split_and!; [done|done|done|]. cbn. lia.
Qed.

Lemma register_items p type els s k : q_items (data_at k (register_all p type els s)) = q_items (data_at k s).
Proof.
  induction els as [|e els IH]; [done|]. cbn [register_all]. set (s1 := register_all p type els s) in *.
  destruct (q_hooks (data_at (e, type) s1)) as [ps|]; [|done]. rewrite <- IH. unfold data_at at 1. cbn.
  destruct (decide (k = (e, type))) as [->|]; [by rewrite lookup_insert_eq|by rewrite lookup_insert_ne].
Qed.

Lemma promise_items els type s k : q_items (data_at k (promise els type s).2.1) = q_items (data_at k s).
Proof. unfold promise. cbn. exact (register_items _ _ _ (Queues (q_data s) (q_counts s ++ [1%Z])) k). Qed.

Lemma promise_starts els type s k : starts k (promise els type s).2.2 = [].
Proof. unfold promise. cbn. by case_bool_decide. Qed.

Lemma fn_queue_other elem type v s s' t k :
  queues_ok s → k ≠ (elem, queue_type type) → fn_queue elem type v s = (s', t) →
  q_items (data_at k s') = q_items (data_at k s) ∧ starts k t = [].
Proof.
  intros Hok Hk Hf. destruct (Hok (elem, queue_type type)) as (b & fs & Hs). destruct (fn_queue_own _ _ _ _ _ _ _ _ Hs Hf) as [Ho _].
  split; [by apply Ho|]. unfold fn_queue in Hf. set (s1 := _queueHooks _ _) in *.
  destruct ((type =s? "fx"%js) && _); [|by injection Hf as <- <-].
  pose proof (set_state _ v _ _ _ Hs) as Hs1.
  assert (∃ b' fs', state_at (elem, queue_type type) s1 b' fs') as (b' & fs' & Hs1').
  { unfold s1. destruct v; eexists _, _; by apply state_hooks. }
  destruct (dequeue_spec _ _ _ _ _ _ Hs1' Hf) as [_ Hc]. destruct fs' as [|f fs'].
  - destruct Hc as [(t' & -> & Ht') _]. by apply (starts_settled k) in Ht'.
  - destruct Hc as [-> _]. cbn. by rewrite decide_False.
Qed.

Lemma qstep_key c s s' t k b fs :
  queues_ok s → qstep c s = (s', t) → keeps k c → state_at k s b fs →
  ∃ b' fs', state_at k s' b' fs' ∧ starts k t ++ fs' = fs ++ queued k c
    ∧ length (starts k t) + (if b then 1 else 0) ≤ asks k c + (if b' then 1 else 0).
Proof.
  intros Hok Hq Hk Hs. destruct c as [elem type f|elem type l|elem type|els type]; cbn [qstep queued asks keeps] in *.
  - destruct (decide ((elem, queue_type type) = k)) as [<-|Hne].
    + destruct (fn_queue_own _ _ _ _ _ _ _ _ Hs Hq) as (_ & b' & fs' & Hs' & Hst & Hb & Hl). exists b', fs'. split_and!; [done|done|].
      destruct b; [|lia]. destruct (Hb eq_refl) as [-> ->]. done.
    + destruct (fn_queue_other _ _ _ _ _ _ k Hok (not_eq_sym Hne) Hq) as [Hi ->]. exists b, fs. split_and!; [by eapply state_same|by rewrite app_nil_r|done].
  - destruct (fn_queue_other _ _ _ _ _ _ k Hok (not_eq_sym Hk) Hq) as [Hi ->]. exists b, fs. split_and!; [by eapply state_same|by rewrite app_nil_r|done].
  - rewrite app_nil_r. destruct (decide ((elem, queue_type type) = k)) as [<-|Hne].
    + destruct (dequeue_spec _ _ _ _ _ _ Hs Hq) as [_ Hc]. destruct fs as [|f fs].
      * destruct Hc as ((t' & -> & Ht') & Hst & _). exists false, []. split; [done|]. change (starts ?k (Emptied ?a ?b :: t')) with (starts k t').
        rewrite (starts_settled _ t' Ht'). split; [done|]. cbn. destruct b; lia.
      * destruct Hc as [-> Hst]. eexists _, fs. split; [exact Hst|]. unfold starts. cbn [omap list_omap]. rewrite decide_True by done. split; [done|].
        cbn [length snd]. destruct b; [|destruct (queue_type type =s? _); lia]. assert (queue_type type = "fx"%js) as ->; [|rewrite jeqb_refl; lia].
        unfold state_at in Hs. destruct (q_items _); [by apply Hs|by destruct Hs].
    + destruct (state_exists_dequeue k _ s b fs s' t Hne Hs (Hok _) Hq) as [Hs' ->]. by exists b, fs.
  - exists b, fs. pose proof (promise_items els type s k) as Hi. pose proof (promise_starts els type s k) as Hst. rewrite Hq in Hi, Hst. cbn [fst snd] in Hi, Hst.
    rewrite Hst. split_and!; [by eapply state_same|by rewrite app_nil_r|done].
Qed.

#[local] Instance keeps_dec k c : Decision (keeps k c).
Proof. destruct c; apply _. Defined.

Lemma qstep_ok c s s' t : queues_ok s → qstep c s = (s', t) → queues_ok s'.
Proof.
  intros Hok Hq k. destruct (Hok k) as (b & fs & Hs). destruct (decide (keeps k c)) as [Hk|Hk].
  - destruct (qstep_key _ _ _ _ _ _ _ Hok Hq Hk Hs) as (b' & fs' & ? & _). by exists b', fs'.
  - destruct c as [| elem type l | |]; try by destruct Hk. cbn in Hk. apply dec_stable in Hk. subst k. cbn in Hq.
    destruct (fn_queue_own _ _ _ _ _ _ _ _ Hs Hq) as (_ & b' & fs' & ? & _). by exists b', fs'.
Qed.

Lemma qrun_key cs k s s' t b fs :
  queues_ok s → Forall (keeps k) cs → qrun cs s = (s', t) → state_at k s b fs →
  ∃ b' fs', state_at k s' b' fs' ∧ starts k t ++ fs' = fs ++ concat (queued k <$> cs)
    ∧ length (starts k t) + (if b then 1 else 0) ≤ sum_list_with (asks k) cs + (if b' then 1 else 0).
Proof.
  intros Hok Hk. revert s t b fs Hok. induction Hk as [|c cs Hc _ IH]; intros s t b fs Hok; cbn [qrun].
  - intros [= <- <-] Hs. exists b, fs. split_and!; [done|by rewrite app_nil_r|done].
  - destruct (qstep c s) as [s1 t1] eqn:E1. destruct (qrun cs s1) as [s2 t2] eqn:E2. intros [= <- <-] Hs.
    destruct (qstep_key _ _ _ _ _ _ _ Hok E1 Hc Hs) as (b1 & fs1 & Hs1 & Hf1 & Hl1).
    destruct (IH _ _ _ _ (qstep_ok _ _ _ _ Hok E1) E2 Hs1) as (b2 & fs2 & Hs2 & Hf2 & Hl2).
    exists b2, fs2. rewrite starts_app. split_and!; [done| |rewrite length_app; cbn; lia].
    cbn [fmap list_fmap concat]. by rewrite <- app_assoc, Hf2, app_assoc, Hf1, <- app_assoc.
Qed.

Lemma no_queues_ok : queues_ok no_queues.
Proof. intros k. exists false, []. done. Qed.

(** C35: unless a call replaces the queue, the functions queued for an element and a type are started in the order
    they were queued: those that were started and those that still wait are together all that were queued.
    At most one more is started than calls asked for the next one, so that one effect is under way at a time when every
    function asks once, at its end. *)
Theorem queue_order cs k s t :
  Forall (keeps k) cs → qrun cs no_queues = (s, t) →
  ∃ (b : bool) (waiting : list nat), queue_get k s = (if b then [InProgress] else []) ++ (Func <$> waiting)
    ∧ starts k t ++ waiting = concat (queued k <$> cs)
    ∧ length (starts k t) ≤ sum_list_with (asks k) cs + (if b then 1 else 0).
Proof.
  intros Hk Hq. destruct (qrun_key cs k no_queues s t false [] no_queues_ok Hk Hq ltac:(done)) as (b & fs & Hs & Hf & Hl).
  exists b, fs. split_and!; [|done|lia]. unfold queue_get. unfold state_at in Hs. destruct (q_items (data_at k s)); cbn; [apply Hs|].
  by destruct Hs as [-> ->].
Qed.

Lemma queue_order_witness :
  let cs := [Queue 1 "fx"%js 7; Queue 1 "fx"%js 8; Queue 2 "fx"%js 5; Queue 1 [] 9; Dequeue 1 []] in
  starts (1, "fx"%js) (qrun cs no_queues).2 ++ [9] = [7; 8; 9].
Proof.
  intros cs. destruct (queue_order cs (1, "fx"%js) (qrun cs no_queues).1 (qrun cs no_queues).2) as (b & waiting & Hw & Hs & _).
  - repeat constructor; done.
  - by destruct (qrun cs no_queues).
  - assert (queue_get (1, "fx"%js) (qrun cs no_queues).1 = [InProgress; Func 9]) as E by (vm_compute; reflexivity). rewrite E in Hw.
    destruct b, waiting as [|w1 [|w2 l]]; try discriminate Hw. injection Hw as <-. exact Hs.
Defined.

(** ** Promises *)

(** Clearing the queue of effects removes the sentinel: the promise is resolved and the next effect starts while
    the first one has not asked for it. *)
Lemma clear_forgets_running :
  (qrun [Queue 1 "fx"%js 7; Promise [1] []; Replace 1 "fx"%js []; Queue 1 "fx"%js 8] no_queues).2
  = [Started 1 "fx"%js 7; Emptied 1 "fx"%js; Settled 0; Started 1 "fx"%js 8].
Proof. vm_compute. reflexivity. Qed.

Definition waiting (k : nat * jstring) (s : queues) : list nat := default [] (q_hooks (data_at k s)).
Definition times (p : nat) (l : list nat) : nat := length (filter (.= p) l).
Definition settled_in (t : list effect) : list nat := omap (λ e, match e with Settled q => Some q | _ => None end) t.
Abbreviation settles p t := (times p (settled_in t)).

#[local] Instance effect_eq_dec : EqDecision effect.
Proof. solve_decision. Defined.

Lemma times_app p l l' : times p (l ++ l') = times p l + times p l'.
Proof. unfold times. by rewrite filter_app, length_app. Qed.
Lemma times_cons p q l : times p (q :: l) = (if decide (q = p) then 1 else 0) + times p l.
Proof. unfold times. rewrite filter_cons. by case_decide. Qed.
Lemma times_none p l : p ∉ l → times p l = 0.
Proof. induction l as [|q l IH]; [done|]. intros [Hq Hl]%not_elem_of_cons. rewrite times_cons, IH, decide_False by done. done. Qed.
Lemma settled_app t t' : settled_in (t ++ t') = settled_in t ++ settled_in t'.
Proof. apply omap_app. Qed.

Lemma times_drop e l : length l = times e l + length (filter (.≠ e) l).
Proof. induction l as [|x l IH]; [done|]. rewrite times_cons, filter_cons. repeat case_decide; cbn; lia. Qed.
Lemma times_filter e e' l : times e (filter (.≠ e') l) = if decide (e = e') then 0 else times e l.
Proof. induction l as [|x l IH]; [by case_decide|]. rewrite filter_cons. repeat case_decide; rewrite ?times_cons, ?IH; repeat case_decide; naive_solver. Qed.

Lemma resolve_one_count p q s n :
  q_counts s !! p = Some (Z.of_nat n) → (q = p → 0 < n) →
  q_counts (resolve_one q s).1 !! p = Some (Z.of_nat (n - if decide (q = p) then 1 else 0))
  ∧ settles p (resolve_one q s).2 = if decide (q = p ∧ n = 1) then 1 else 0.
Proof.
  intros Hn Hq. unfold resolve_one. cbn [fst snd q_counts]. destruct (decide (q = p)) as [->|Hne].
  - specialize (Hq eq_refl). rewrite Hn. cbn [default from_option id]. pose proof (lookup_lt_Some _ _ _ Hn). rewrite list_lookup_insert_eq by done.
    split; [f_equal; lia|]. case_bool_decide; case_decide as Hd; cbn [settled_in omap list_omap]; rewrite ?times_cons, ?decide_True by done; [done| | |done]; exfalso.
    + apply Hd. split; [done|lia].
    + destruct Hd as [_ ->]. lia.
  - rewrite list_lookup_insert_ne, Nat.sub_0_r by done. split; [done|]. rewrite decide_False by naive_solver.
    case_bool_decide; [|done]. cbn [settled_in omap list_omap]. by rewrite times_cons, decide_False.
Qed.

Lemma resolve_all_count p ps s n :
  q_counts s !! p = Some (Z.of_nat n) → times p ps ≤ n →
  q_counts (resolve_all ps s).1 !! p = Some (Z.of_nat (n - times p ps))
  ∧ settles p (resolve_all ps s).2 = if decide (0 < times p ps ∧ times p ps = n) then 1 else 0.
Proof.
  revert s n. induction ps as [|q ps IH]; intros s n Hn Hle.
  - cbn. rewrite Nat.sub_0_r, decide_False by lia. done.
  - rewrite times_cons in Hle |- *. destruct (resolve_one_count p q s n Hn) as [Hc Hs]; [intros ->; rewrite decide_True in Hle by done; lia|].
    cbn [resolve_all]. destruct (resolve_one q s) as [s1 t1]. cbn [fst snd] in Hc, Hs. destruct (IH s1 _ Hc) as [Hc2 Hs2]; [case_decide; lia|].
    destruct (resolve_all ps s1) as [s2 t2]. cbn [fst snd] in *. rewrite Hc2, settled_app, times_app, Hs, Hs2. split; [f_equal; case_decide; lia|].
    repeat case_decide; try lia; naive_solver lia.
Qed.

(** The promise [p] waits for the queues of type [type] of the elements [l], as often as they are in [l]. *)
Definition waits (p : nat) (type : jstring) (l : list nat) (s : queues) : Prop :=
  q_counts s !! p = Some (Z.of_nat (length l)) ∧ ∀ k, times p (waiting k s) = if decide (k.2 = type) then times k.1 l else 0.

(** The elements whose queue of a type was not emptied. *)
Definition rest (type : jstring) (t : list effect) (l : list nat) : list nat := filter (λ e, Emptied e type ∉ t) l.

Definition same_waits (s s' : queues) : Prop := (∀ k, waiting k s' = waiting k s) ∧ q_counts s' = q_counts s.
#[local] Instance same_waits_equiv : Equivalence same_waits.
Proof. split; [by split|intros ?? [H1 H2]; split; auto|intros ??? [H1 H2] [H3 H4]; split; [intros; by rewrite H3|congruence]]. Qed.

Lemma waits_same p type l s s' : same_waits s s' → waits p type l s → waits p type l s'.
Proof. intros [H1 H2] [H3 H4]. split; [by rewrite H2|]. intros k. by rewrite H1. Qed.

Lemma waiting_put k k' d s : waiting k' (put_data k d s) = if decide (k' = k) then default [] (q_hooks d) else waiting k' s.
Proof. unfold waiting. rewrite data_at_put. by case_decide. Qed.

Lemma same_hooks k s : same_waits s (_queueHooks k s).
Proof.
  unfold _queueHooks. destruct (q_hooks (data_at k s)) eqn:E; [done|]. split; [|done]. intros k'. rewrite waiting_put. case_decide; [|done]. subst.
  unfold waiting. by rewrite E.
Qed.
Lemma same_items k q s : same_waits s (set_items k q s).
Proof. unfold set_items. destruct (q_items _); [|done]. split; [|done]. intros k'. rewrite waiting_put. case_decide; by subst. Qed.
Lemma same_set k v s : same_waits s (queue_set k v s).
Proof. unfold queue_set. destruct (q_items _), v; (split; [|done]; intros k'; rewrite waiting_put; case_decide; by subst). Qed.

(** Nothing in an effect list concerns promises. *)
Definition quiet (t : list effect) : Prop := Forall (λ e, match e with Started _ _ _ => True | _ => False end) t.

Lemma dequeue_waits k s : ∃ s0, same_waits s s0 ∧ (dequeue k s = fire_empty k s0 ∨ ∃ t, dequeue k s = (s0, t) ∧ quiet t).
Proof.
  unfold dequeue. destruct (match queue_get k s with [] => _ | fn :: queue => _ end) as [fn queue].
  destruct (match fn with Some InProgress => _ | _ => _ end) as [[fn' queue'] n].
  assert (∀ q, same_waits s (set_items k q (_queueHooks k s))) as H.
  { intros q. etransitivity; [apply same_hooks|apply same_items]. }
  destruct fn' as [[|f]|].
  1, 3: eexists; split; [apply H|]; destruct (n =? 0); [by left|right; exists []; split; [done|constructor]].
  eexists. split; [apply H|]. right. eexists. split; [done|]. by repeat constructor.
Qed.

Lemma quiet_settles p t : quiet t → settles p t = 0.
Proof. induction 1 as [|e t He _ IH]; [done|]. by destruct e. Qed.
Lemma quiet_rest type t l : quiet t → rest type t l = l.
Proof.
  intros Hq. unfold rest. induction l as [|e l IH]; [done|]. rewrite filter_cons_True, IH; [done|]. intros Hin.
  unfold quiet in Hq. rewrite Forall_forall in Hq. by apply Hq in Hin.
Qed.

(** What a step does to a promise. *)
Definition served (p : nat) (type : jstring) (l : list nat) (t : list effect) (s' : queues) : Prop :=
  waits p type (rest type t l) s' ∧ settles p t = if decide (l ≠ [] ∧ rest type t l = []) then 1 else 0.

Lemma served_quiet p type l t s' : quiet t → waits p type l s' → served p type l t s'.
Proof. intros Hq Hw. unfold served. rewrite quiet_rest, quiet_settles by done. split; [done|]. rewrite decide_False; [done|]. by intros [? ?]. Qed.

Lemma fire_waiting k k' s : waiting k' (fire_empty k s).1 = if decide (k' = k) then [] else waiting k' s.
Proof. unfold waiting. rewrite data_fire. by case_decide. Qed.

Lemma fire_rest k type s l :
  rest type (fire_empty k s).2 l = if decide (k.2 = type) then filter (.≠ k.1) l else l.
Proof.
  destruct (fire_spec k s) as (t & -> & Ht). rewrite Forall_forall in Ht.
  assert (∀ e, Emptied e type ∉ Emptied k.1 k.2 :: t ↔ ¬ (e = k.1 ∧ k.2 = type)) as He.
  { intros e. rewrite elem_of_cons. split; [intros H [-> <-]; apply H; by left|]. intros H [[= -> ->]|Hin]; [naive_solver|by apply Ht in Hin]. }
  unfold rest. case_decide as Hd.
  - induction l as [|e l IH]; [done|]. rewrite !filter_cons, IH. pose proof (He e). repeat case_decide; naive_solver.
  - induction l as [|e l IH]; [done|]. rewrite !filter_cons, IH. pose proof (He e). repeat case_decide; naive_solver.
Qed.

Lemma fire_served p type l k s : waits p type l s → served p type l (fire_empty k s).2 (fire_empty k s).1.
Proof.
  intros [Hc Hw]. pose proof (Hw k) as Hk.
  assert (times p (waiting k s) ≤ length l) as Hle.
  { rewrite Hk. case_decide; [|lia]. rewrite (times_drop k.1 l). lia. }
  assert (q_counts (fire_empty k s).1 !! p = Some (Z.of_nat (length l - times p (waiting k s)))
    ∧ settles p (fire_empty k s).2 = if decide (0 < times p (waiting k s) ∧ times p (waiting k s) = length l) then 1 else 0) as [Hc' Hs'].
  { unfold fire_empty. fold (waiting k s). pose proof (resolve_all_count p (waiting k s) (put_data k no_qdata s) (length l) Hc Hle) as H.
    destruct (resolve_all _ _) as [s' t]. exact H. }
  assert (length (rest type (fire_empty k s).2 l) = length l - times p (waiting k s)) as Hlen.
  { rewrite fire_rest, Hk. pose proof (times_drop k.1 l) as Ht. repeat case_decide; try done; try lia. }
  split; [split|].
  - by rewrite Hc', Hlen.
  - intros k'. rewrite fire_waiting, fire_rest. destruct (decide (k' = k)) as [->|Hne].
    + repeat case_decide; try done; by rewrite times_filter, decide_True.
    + rewrite Hw. repeat case_decide; try done; rewrite times_filter, decide_False; try done; intros E; apply Hne; destruct k, k'; cbn in *; congruence.
  - rewrite Hs'. assert (rest type (fire_empty k s).2 l = [] ↔ times p (waiting k s) = length l) as Hr.
    { rewrite <- length_zero_iff_nil, Hlen. lia. }
    assert (l ≠ [] ↔ 0 < length l) as Hl by (destruct l; cbn; split; intros; [done|lia|lia|done]).
    repeat case_decide; try done; rewrite ?Hr, ?Hl in *; naive_solver lia.
Qed.

Lemma register_other p q type els s :
  p ≠ q → q_counts (register_all q type els s) !! p = q_counts s !! p
    ∧ ∀ k, times p (waiting k (register_all q type els s)) = times p (waiting k s).
Proof.
  intros Hne. induction els as [|e els [IH1 IH2]]; [done|]. cbn [register_all]. set (s1 := register_all q type els s) in *.
  destruct (q_hooks (data_at (e, type) s1)) as [ps|] eqn:E; [|done]. cbn [q_counts]. split; [by rewrite list_lookup_insert_ne|].
  intros k. rewrite <- IH2. pose proof (waiting_put (e, type) k (QData (q_items (data_at (e, type) s1)) (Some (ps ++ [q]))) s1) as Hp.
  unfold waiting, data_at, put_data in Hp |- *. cbn [q_data] in Hp |- *. rewrite Hp. case_decide; [|done]. subst k. cbn [default from_option id q_hooks].
  rewrite times_app, times_cons, decide_False by done. unfold data_at in E. rewrite E. cbn [default from_option id]. change (times p []) with 0. lia.
Qed.

Lemma promise_served p type l els ty s : waits p type l s → served p type l (promise els ty s).2.2 (promise els ty s).2.1.
Proof.
  intros [Hc Hw]. unfold promise. cbn [fst snd]. set (q := length (q_counts s)). pose proof (lookup_lt_Some _ _ _ Hc) as Hlt.
  assert (p ≠ q) as Hne by (unfold q; lia). set (s0 := Queues (q_data s) (q_counts s ++ [1%Z])).
  destruct (register_other p q (queue_type ty) els s0 Hne) as [H1 H2]. set (s1 := register_all q _ els s0) in *.
  assert (waits p type l s1) as Hw1.
  { split; [rewrite H1; cbn; by rewrite lookup_app_l|]. intros k. rewrite H2. exact (Hw k). }
  destruct (resolve_one_count p q s1 (length l)) as [H3 H4]; [apply Hw1|by intros ->|]. rewrite decide_False, Nat.sub_0_r in H3 by done.
  assert (rest type (resolve_one q s1).2 l = l) as Hr.
  { unfold rest. induction l as [|e l IH]; [done|]. clear. induction (e :: l) as [|x k IH]; [done|]. rewrite filter_cons_True, IH; [done|].
    unfold resolve_one. cbn [snd]. case_bool_decide; [intros [?|?%elem_of_nil]%elem_of_cons; done|by intros ?%elem_of_nil]. }
  split; [split|].
  - by rewrite Hr.
  - intros k. rewrite Hr. exact (proj2 Hw1 k).
  - rewrite H4, Hr, decide_False by naive_solver. rewrite decide_False; [done|]. by intros [? ?].
Qed.

Lemma fn_queue_served p type l elem ty v s s' t : waits p type l s → fn_queue elem ty v s = (s', t) → served p type l t s'.
Proof.
  intros Hw. unfold fn_queue. assert (same_waits s (_queueHooks (elem, ty) (queue_set (elem, queue_type ty) v s))) as Hs.
  { etransitivity; [apply same_set|apply same_hooks]. }
  set (s1 := _queueHooks _ _) in *. pose proof (waits_same _ _ _ _ _ Hs Hw) as Hw1. destruct (_ && _).
  - destruct (dequeue_waits (elem, queue_type ty) s1) as (s0 & Hs0 & [->|(t0 & -> & Hq)]); pose proof (waits_same _ _ _ _ _ Hs0 Hw1) as Hw0.
    + intros E. pose proof (fire_served p type l (elem, queue_type ty) s0 Hw0) as H. by rewrite E in H.
    + intros [= <- <-]. by apply served_quiet.
  - intros [= <- <-]. apply served_quiet; [constructor|done].
Qed.

Lemma qstep_served p type l c s s' t : waits p type l s → qstep c s = (s', t) → served p type l t s'.
Proof.
  intros Hw. destruct c as [elem ty f|elem ty fs|elem ty|els ty]; cbn [qstep].
  - by apply fn_queue_served.
  - by apply fn_queue_served.
  - destruct (dequeue_waits (elem, queue_type ty) s) as (s0 & Hs0 & [->|(t0 & -> & Hq)]); pose proof (waits_same _ _ _ _ _ Hs0 Hw) as Hw0.
    + intros E. pose proof (fire_served p type l (elem, queue_type ty) s0 Hw0) as H. by rewrite E in H.
    + intros [= <- <-]. by apply served_quiet.
  - intros E. pose proof (promise_served p type l els ty s Hw) as H. by rewrite E in H.
Qed.

Lemma rest_app type t t' l : rest type (t ++ t') l = rest type t' (rest type t l).
Proof.
  unfold rest. rewrite list_filter_filter. apply list_filter_iff. intros e. rewrite elem_of_app. tauto.
Qed.

Lemma qrun_served p type l cs s s' t : waits p type l s → qrun cs s = (s', t) → served p type l t s'.
Proof.
  revert l s t. induction cs as [|c cs IH]; intros l s t Hw; cbn [qrun]; [intros [= <- <-]; by apply served_quiet; [constructor|]|].
  destruct (qstep c s) as [s1 t1] eqn:E1. destruct (qrun cs s1) as [s2 t2] eqn:E2. intros [= <- <-].
  destruct (qstep_served _ _ _ _ _ _ _ Hw E1) as [Hw1 Hs1]. destruct (IH _ _ _ Hw1 E2) as [Hw2 Hs2]. split; [by rewrite rest_app|].
  rewrite settled_app, times_app, Hs1, Hs2, rest_app.
  assert (rest type t1 l = [] → rest type t2 (rest type t1 l) = []) as H by (by intros ->). repeat case_decide; naive_solver.
Qed.

(** ** A promise from its start *)

Definition fresh (s : queues) : Prop := ∀ k p, p ∈ waiting k s → p < length (q_counts s).

Lemma fresh_names s s' : same_waits s s' → fresh s → fresh s'.
Proof. intros [H1 H2] Hf k p. rewrite H1, H2. apply Hf. Qed.

Lemma resolve_length ps s : length (q_counts (resolve_all ps s).1) = length (q_counts s).
Proof.
  revert s. induction ps as [|p ps IH]; intros s; [done|]. cbn [resolve_all]. destruct (resolve_one p s) as [s1 t1] eqn:E.
  specialize (IH s1). destruct (resolve_all ps s1) as [s2 t2]. cbn [fst] in *. rewrite IH. unfold resolve_one in E. injection E as <- _. cbn. apply length_insert.
Qed.

Lemma fresh_fire k s : fresh s → fresh (fire_empty k s).1.
Proof.
  intros Hf k' p. rewrite fire_waiting. case_decide; [by intros ?%elem_of_nil|]. intros Hp. apply Hf in Hp.
  unfold fire_empty. pose proof (resolve_length (default [] (q_hooks (data_at k s))) (put_data k no_qdata s)) as Hlen.
  destruct (resolve_all _ _) as [s' t]. cbn in *. lia.
Qed.

(** What [promise] adds: the promise waits once for every element with hooks. *)
Lemma register_spec p type els s :
  p < length (q_counts s) →
  let s' := register_all p type els s in
  let found := filter (λ e, is_Some (q_hooks (data_at (e, type) s))) els in
  length (q_counts s') = length (q_counts s)
  ∧ q_counts s' !! p = Some (default 0 (q_counts s !! p) + Z.of_nat (length found))%Z
  ∧ (∀ k, is_Some (q_hooks (data_at k s')) ↔ is_Some (q_hooks (data_at k s)))
  ∧ (∀ k q, times q (waiting k s') = times q (waiting k s) + if decide (q = p ∧ k.2 = type) then times k.1 found else 0)
  ∧ ∀ k q, q ∈ waiting k s' → q = p ∨ q ∈ waiting k s.
Proof.
  intros Hp. induction els as [|e els IH]; cbv zeta in *.
  - cbn. destruct (lookup_lt_is_Some_2 (q_counts s) p Hp) as [z ->]. cbn. split_and!; [done|f_equal; lia|done| |by right].
    intros k q. case_decide; cbn; lia.
  - destruct IH as (Hl & Hc & Hh & Hw & Hin). cbn [register_all]. set (s1 := register_all p type els s) in *.
    rewrite filter_cons. destruct (q_hooks (data_at (e, type) s1)) as [ps|] eqn:E.
    + rewrite decide_True by (by rewrite <- Hh, E; eexists). set (d := QData _ _).
      assert (∀ k, data_at k (Queues (<[(e, type):=d]> (q_data s1)) (<[p:=(default 0 (q_counts s1 !! p) + 1)%Z]> (q_counts s1)))
        = if decide (k = (e, type)) then d else data_at k s1) as Hd by (intros k; exact (data_at_put (e, type) k d s1)).
      split_and!.
      * cbn. by rewrite length_insert.
      * cbn [q_counts]. rewrite list_lookup_insert_eq by (by rewrite Hl). rewrite Hc. cbn [default from_option id length]. f_equal. lia.
      * intros k. rewrite Hd. case_decide as Hk; [|apply Hh]. subst k. rewrite <- Hh, E. cbn. split; by eexists.
      * intros k q. unfold waiting at 1. rewrite Hd. case_decide as Hk.
        -- subst k. cbn [d q_hooks default from_option id fst snd]. rewrite times_app, times_cons. change (times q []) with 0.
           pose proof (Hw (e, type) q) as Hq. unfold waiting at 1 in Hq. rewrite E in Hq. cbn [default from_option id fst snd] in Hq. rewrite Hq, times_cons.
           repeat case_decide; naive_solver lia.
        -- fold (waiting k s1). rewrite Hw. case_decide as Hq; [|done]. rewrite times_cons, decide_False; [done|]. destruct k, Hq; cbn in *; congruence.
      * intros k q. unfold waiting at 1. rewrite Hd. case_decide as Hk; [|apply Hin]. subst k. cbn [d q_hooks default from_option id].
        intros [Hq|Hq]%elem_of_app; [|left; by apply list_elem_of_singleton in Hq]. apply Hin. unfold waiting. by rewrite E.
    + rewrite decide_False by (by rewrite <- Hh, E; intros [? ?]). done.
Qed.

Lemma qstep_fresh c s s' t : fresh s → qstep c s = (s', t) → fresh s'.
Proof.
  intros Hf.
  assert (∀ k s1, fresh s1 → ∀ s2 t2, dequeue k s1 = (s2, t2) → fresh s2) as Hd.
  { intros k s1 Hf1 s2 t2. destruct (dequeue_waits k s1) as (s0 & Hs0 & [->|(t0 & -> & _)]); pose proof (fresh_names _ _ Hs0 Hf1) as Hf0; intros E.
    - pose proof (fresh_fire k s0 Hf0) as H. by rewrite E in H.
    - by injection E as <- _. }
  assert (∀ elem ty v s2 t2, fn_queue elem ty v s = (s2, t2) → fresh s2) as Hn.
  { intros elem ty v s2 t2. unfold fn_queue. set (s1 := _queueHooks _ _). assert (fresh s1) as Hf1.
    { eapply fresh_names; [|exact Hf]. etransitivity; [apply same_set|apply same_hooks]. }
    destruct (_ && _); [by apply Hd|]. by intros [= <- _]. }
  destruct c as [elem ty f|elem ty fs|elem ty|els ty]; cbn [qstep]; [by apply Hn..|by apply Hd|].
  unfold promise. cbn [snd]. set (s0 := Queues (q_data s) (q_counts s ++ [1%Z])). intros [= <- _].
  destruct (register_spec (length (q_counts s)) (queue_type ty) els s0) as (Hl & _ & _ & _ & Hin); [cbn; rewrite length_app; cbn; lia|].
  intros k p Hp. cbn [q_counts]. rewrite length_insert, Hl. cbn. rewrite length_app. cbn. apply Hin in Hp as [->|Hp]; [lia|]. apply Hf in Hp. lia.
Qed.

Lemma qrun_fresh cs s s' t : fresh s → qrun cs s = (s', t) → fresh s'.
Proof.
  revert s t. induction cs as [|c cs IH]; intros s t Hf; cbn [qrun]; [by intros [= <- _]|].
  destruct (qstep c s) as [s1 t1] eqn:E1. destruct (qrun cs s1) as [s2 t2] eqn:E2. intros [= <- _]. eapply IH; [|exact E2]. by eapply qstep_fresh.
Qed.

Lemma promise_waits els type s p s' t :
  fresh s → promise els type s = (p, (s', t)) →
  let found := filter (λ e, is_Some (q_hooks (data_at (e, queue_type type) s))) els in
  waits p (queue_type type) found s' ∧ settles p t = if decide (found = []) then 1 else 0.
Proof.
  intros Hf. unfold promise. intros [= <- <- <-]. cbv zeta. set (p := length (q_counts s)) in *. set (s0 := Queues (q_data s) (q_counts s ++ [1%Z])) in *.
  destruct (register_spec p (queue_type type) els s0) as (Hl & Hc & Hh & Hw & _); [cbn; rewrite length_app; cbn; lia|].
  cbv zeta in *. change (λ e, is_Some (q_hooks (data_at (e, queue_type type) s0))) with (λ e, is_Some (q_hooks (data_at (e, queue_type type) s))) in *.
  set (found := filter _ els) in *. set (s1 := register_all p (queue_type type) els s0) in *.
  assert (q_counts s1 !! p = Some (Z.of_nat (S (length found)))) as Hc1.
  { rewrite Hc. cbn. rewrite lookup_app_r, Nat.sub_diag by done. cbn [lookup list_lookup default from_option id]. f_equal. lia. }
  destruct (resolve_one_count p p s1 (S (length found)) Hc1) as [H1 H2]; [lia|]. unfold resolve_one in H1, H2. cbn [fst snd q_counts] in H1, H2.
  split; [split|].
  - cbn [q_counts]. rewrite H1, decide_True by done. do 2 f_equal. lia.
  - intros k. change (times p (waiting k s1) = if decide (k.2 = queue_type type) then times k.1 found else 0). rewrite Hw, times_none.
    + repeat case_decide; naive_solver.
    + intros Hin. change (waiting k s0) with (waiting k s) in Hin. apply Hf in Hin. unfold p in Hin. lia.
  - rewrite H2. assert (found = [] ↔ length found = 0) as Hz by (symmetry; apply length_zero_iff_nil). repeat case_decide; try done; naive_solver lia.
Qed.

(** C34: a promise of a collection is resolved once, when each queue that an element had at the time was
    emptied, and at once if there was none; until then it is pending.  This holds whatever is queued, started or cleared. *)
Theorem promise_settles cs cs' els type s t p s1 t1 s2 t2 :
  qrun cs no_queues = (s, t) → promise els type s = (p, (s1, t1)) → qrun cs' s1 = (s2, t2) →
  let open := filter (λ e, is_Some (q_hooks (data_at (e, queue_type type) s)) ∧ Emptied e (queue_type type) ∉ t2) els in
  settles p (t1 ++ t2) = if decide (open = []) then 1 else 0.
Proof.
  intros Hq Hp Hq'. cbv zeta. assert (fresh s) as Hf.
  { eapply qrun_fresh; [|exact Hq]. by intros k q ?%elem_of_nil. }
  destruct (promise_waits _ _ _ _ _ _ Hf Hp) as [Hw H1]. destruct (qrun_served _ _ _ _ _ _ _ Hw Hq') as [_ H2].
  rewrite settled_app, times_app, H1, H2. set (found := filter (λ e, is_Some _) els) in *.
  assert (filter (λ e, is_Some (q_hooks (data_at (e, queue_type type) s)) ∧ Emptied e (queue_type type) ∉ t2) els = rest (queue_type type) t2 found) as ->.
  { unfold rest, found. rewrite list_filter_filter. apply list_filter_iff. naive_solver. }
  assert (found = [] → rest (queue_type type) t2 found = []) as H by (by intros ->). repeat case_decide; naive_solver.
Qed.

Lemma promise_settles_witness :
  let cs := [Queue 1 "fx"%js 7; Queue 2 "fx"%js 8] in
  let '(p, (s1, t1)) := promise [1; 2; 3] [] (qrun cs no_queues).1 in
  settles p (t1 ++ (qrun [Dequeue 2 []] s1).2) = 0.
Proof.
  intros cs. destruct (promise [1; 2; 3] [] (qrun cs no_queues).1) as [p [s1 t1]] eqn:E.
  rewrite (promise_settles cs [Dequeue 2 []] [1; 2; 3] [] (qrun cs no_queues).1 (qrun cs no_queues).2 p s1 t1 (qrun [Dequeue 2 []] s1).1 (qrun [Dequeue 2 []] s1).2).
  - vm_compute in E. injection E as <- <- <-. vm_compute. reflexivity.
  - by destruct (qrun cs no_queues).
  - exact E.
  - by destruct (qrun _ s1).
Defined.
