(* ===== verification/DtFilter.v ===== *)
(** * Searching a table (jquery.dataTables.js, "filter")

    The search texts of the rows, the regular expression of a search, the global, the column and
    the custom filters.  The decoding of HTML entities by the browser, the case folding of
    regular expressions and the filters of plug-ins are parameters. *)

From S2P Require Import Prelude JsString JsObject JsNumber JsValue JsInt JsRegExp DtUtil DtModel DtTypes.

(** ** The regular expression of a search *)

(** The text up to the next double quote, and what follows the quote. *)
Fixpoint break_quote (s : jstring) : option (jstring * jstring) :=
  match s with
  | [] => None
  | u :: t => if (u =? 34)%N then Some ([], t)
              else match break_quote t with Some (a, b) => Some (u :: a, b) | None => None end
  end.

(** The leading units that are not spaces, and the rest. *)
Fixpoint break_space (s : jstring) : jstring * jstring :=
  match s with
  | [] => ([], [])
  | u :: t => if (u =? 32)%N then ([], s) else let '(a, b) := break_space t in (u :: a, b)
  end.

(** The matches of the expression for words: a non-empty text between double quotes, or units
    that are not spaces.  The fuel is the length of [s]. *)
Fixpoint search_tokens (fuel : nat) (s : jstring) : list jstring :=
  match fuel, s with
  | O, _ | _, [] => []
  | S n, u :: t =>
      let word := let '(w, rest) := break_space s in w :: search_tokens n rest in
      if (u =? 32)%N then search_tokens n t
      else if (u =? 34)%N then
        match break_quote t with
        | Some ((_ :: _) as inner, rest) => (34%N :: inner ++ [34%N]) :: search_tokens n rest
        | _ => word
        end
      else word
  end.

(** What a word that starts and ends with a double quote has between them, on one line. *)
Definition between_quotes (word : jstring) : option jstring :=
  match word with
  | _ :: t =>
      match last t with
      | Some 34%N => let inner := removelast t in
                     if forallb (λ u, negb (line_end u)) inner then Some inner else None
      | _ => None
      end
  | [] => None
  end.

Definition unquote (word : jstring) : jstring :=
  let word := match word with
              | u :: _ => if (u =? 34)%N then default word (between_quotes word) else word
              | [] => word
              end in
  replace_first [34%N] [] word.

(** The words a smart search looks for. *)
Definition smart_words (search : jstring) : list jstring :=
  match search_tokens (length search) search with
  | [] => [[]]
  | a => unquote <$> a
  end.

Definition smart_pattern (a : list jstring) : jstring :=
  "^(?=.*?"%js ++ join ")(?=.*?"%js a ++ ").*$"%js.

Record regexp := RegExp { rx : re; rx_i : bool }.

(** [None]: the pattern is outside the syntax, or an error. *)
Definition _fnFilterCreateSearch (search : jstring) (regex smart caseInsensitive : bool) : option regexp :=
  let search := if regex then search else escapeRegex search in
  let search := if smart then smart_pattern (smart_words search) else search in
  r ← parse_re search; Some (RegExp r caseInsensitive).

Section filter.
Variable canon : N → N.                          (* case folding *)
Variable textContent : jstring → jstring.        (* innerHTML set, textContent read *)
Variable date_parse : jstring → num.
Variable decimals : list jstring.
(** [DataTable.ext.search]: settings, filter data, row index, row data, position. *)
Variable ext_search : list (settings → option (list jstring) → nat → val → nat → bool).

Definition rx_test (r : regexp) (s : jstring) : bool := re_test (if rx_i r then canon else id) (rx r) s.

(** ** The search texts of the rows *)

(** The text of one cell; [None]: undefined has no [toString]. *)
Definition filter_text (col : column) (cellData : val) : option jstring :=
  let cellData := match search_formatter decimals (default [] (sType col)) with
                  | Some f => f cellData | None => cellData end in
  match cellData with
  | VNull => Some []
  | VUndef => None
  | v => Some (to_string v)
  end.

Definition clean_text (s : jstring) : jstring :=
  let s := if contains "&"%js s then textContent s else s in
  replace_units newline_unit [] s.

Fixpoint filter_cells (i : nat) (cols : list (nat * column)) (s : settings) : option (list jstring * settings) :=
  match cols with
  | [] => Some ([], s)
  | (j, col) :: cols =>
      '(text, s) ← (if bSearchable col then
                      '(c, s) ← _fnGetCellData s i j (Some "filter"%js);
                      t ← filter_text col c; Some (t, s)
                    else Some ([], s));
      '(l, s) ← filter_cells i cols s;
      Some (clean_text text :: l, s)
  end.

Fixpoint filter_rows (ks : list nat) (was : bool) (s : settings) : option (bool * settings) :=
  match ks with
  | [] => Some (was, s)
  | i :: ks =>
      r ← aoData s !! i;
      match _aFilterData r with
      | Some _ => filter_rows ks was s
      | None =>
          '(l, s) ← filter_cells i (imap pair (aoColumns s)) s;
          filter_rows ks true
            (upd_row i (λ r, set_sFilterRow (join "  "%js l) (set_aFilterData (Some l) r)) s)
      end
  end.

Definition _fnFilterData (s : settings) : option (bool * settings) :=
  filter_rows (seq 0 (length (aoData s))) false s.

(** ** The filters *)

(** The rows of the display for which [test] holds; [None]: a row that does not exist. *)
Fixpoint keep_rows (test : row → bool) (data : list row) (display : list nat) : option (list nat) :=
  match display with
  | [] => Some []
  | i :: l => l ← keep_rows test data l; r ← data !! i; Some (if test r then i :: l else l)
  end.

Definition _fnFilter (input : jstring) (force regex smart caseInsensitive : bool) (s : settings) : option settings :=
  rpSearch ← _fnFilterCreateSearch input regex smart caseInsensitive;
  let prevSearch := sSearch (oPreviousSearch s) in
  let force := force || negb (bool_decide (length ext_search = 0)) in
  '(invalidated, s) ← _fnFilterData s;
  if bool_decide (input = []) then Some (set_aiDisplay (aiDisplayMaster s) s)
  else
    let s := if invalidated || force || bool_decide (length input < length prevSearch)
                || negb (starts_with prevSearch input) || bSorted s
             then set_aiDisplay (aiDisplayMaster s) s else s in
    l ← keep_rows (λ r, rx_test rpSearch (_sFilterRow r)) (aoData s) (aiDisplay s);
    Some (set_aiDisplay l s).

Definition column_text (colIdx : nat) (r : row) : jstring :=
  default "undefined"%js (default [] (_aFilterData r) !! colIdx).

Definition _fnFilterColumn (searchStr : jstring) (colIdx : nat) (regex smart caseInsensitive : bool) (s : settings)
    : option settings :=
  if bool_decide (searchStr = []) then Some s
  else
    rpSearch ← _fnFilterCreateSearch searchStr regex smart caseInsensitive;
    l ← keep_rows (λ r, rx_test rpSearch (column_text colIdx r)) (aoData s) (aiDisplay s);
    Some (set_aiDisplay l s).

(** One filter of a plug-in over the display from position [j] on. *)
Fixpoint custom_rows (f : settings → option (list jstring) → nat → val → nat → bool) (s : settings)
    (j : nat) (display : list nat) : option (list nat) :=
  match display with
  | [] => Some []
  | i :: l =>
      r ← aoData s !! i;
      l ← custom_rows f s (S j) l;
      Some (if f s (_aFilterData r) i (_aData r) j then i :: l else l)
  end.

Definition _fnFilterCustom (s : settings) : option settings :=
  foldl (λ s f, s ← s; l ← custom_rows f s 0 (aiDisplay s); Some (set_aiDisplay l s)) (Some s) ext_search.

Definition fnRegex (o : search) : bool :=
  match bEscapeRegex o with Some b => negb b | None => bRegex o end.

Definition fnSaveFilter (o : search) (s : settings) : settings :=
  set_oPreviousSearch
    (Search (sSearch o) (bRegex o) (bSmart o) (bCaseInsensitive o) (bEscapeRegex (oPreviousSearch s))) s.

Fixpoint filter_columns (l : list (nat * search)) (s : settings) : option settings :=
  match l with
  | [] => Some s
  | (i, o) :: l =>
      s ← _fnFilterColumn (sSearch o) i (fnRegex o) (bSmart o) (bCaseInsensitive o) s;
      filter_columns l s
  end.

Definition _fnFilterComplete (oInput : search) (iForce : bool) (s : settings) : option settings :=
  s ← _fnColumnTypes date_parse (default [] (head decimals)) s;
  s ← (if negb (is_ssp s) then
         s ← _fnFilter (sSearch oInput) iForce (fnRegex oInput) (bSmart oInput) (bCaseInsensitive oInput) s;
         let s := fnSaveFilter oInput s in
         s ← filter_columns (imap pair (aoPreSearchCols s)) s;
         _fnFilterCustom s
       else Some (fnSaveFilter oInput s));
  Some (fire "search"%js (set_bFiltered true s)).

(** Typing into the search element; [draw] is [_fnDraw]. *)
Definition searchFn (draw : settings → option settings) (value : jstring) (s : settings) : option settings :=
  let prev := oPreviousSearch s in
  if value =s? sSearch prev then Some s
  else
    s ← _fnFilterComplete (Search value (bRegex prev) (bSmart prev) (bCaseInsensitive prev) None) false s;
    draw (set_iDisplayStart (JInt 0) s).
End filter.

Example words_ex :
  smart_words (("say "%js ++ 34%N :: "a b"%js) ++ 34%N :: " c"%js)
  = ["say"%js; "a b"%js; "c"%js].
Proof. vm_compute. reflexivity. Qed.
