(* ===== verification/DtFilterTheorems.v ===== *)
(** * Correctness of the search

    The expression built for a search without the regular-expression option matches exactly the
    texts that contain the words; the filters keep exactly the rows that match; and narrowing the
    previous result gives what a search from scratch gives. *)

From S2P Require Import Prelude JsString JsObject JsNumber JsValue JsInt JsRegExp DtUtil DtModel DtTypes DtFilter.

(** ** Parsing the expression of a search *)

Definition look_word (acc : re) (w : jstring) : re := RSeq acc (RLook (chars (RSeq REmpty (RStar RAny)) w)).
Definition smart_re (ws : list jstring) : re :=
  RSeq (RSeq (foldl look_word (RSeq REmpty RBegin) ws) (RStar RAny)) REnd.

Definition look_text (w : jstring) : jstring := "(?=.*?"%js ++ escapeRegex w ++ ")"%js.

Lemma parse_look w n alt acc rest :
  length w + 2 ≤ n →
  parse (S n) alt acc (look_text w ++ rest) = parse n alt (look_word acc w) rest.
Proof.
  intros Hn. unfold look_text. rewrite <- !app_assoc. cbn [app parse N.eqb Pos.eqb].
  replace n with (S (length w + S (n - length w - 2))) at 1 by lia.
  cbn [parse N.eqb Pos.eqb quantified lazy_mark]. by rewrite parse_escape.
Qed.

Lemma parse_looks ws n alt acc rest :
  Forall (λ w, length w + 2 ≤ n) ws →
  parse (length ws + n) alt acc ((ws ≫= look_text) ++ rest) = parse n alt (foldl look_word acc ws) rest.
Proof.
  intros H. revert acc. induction H as [|w ws Hw _ IH]; intros acc; [done|].
  rewrite bind_cons, <- app_assoc. cbn [length Nat.add foldl]. rewrite parse_look by lia. apply IH.
Qed.

Lemma smart_pattern_looks w ws :
  smart_pattern (escapeRegex <$> w :: ws) = "^"%js ++ ((w :: ws) ≫= look_text) ++ ".*$"%js.
Proof.
  unfold smart_pattern. change "^(?=.*?"%js with ("^"%js ++ "(?=.*?"%js). rewrite <- app_assoc. f_equal.
  revert w. induction ws as [|v ws IH]; intros w.
  - cbn. by rewrite app_nil_r, <- !app_assoc.
  - rewrite bind_cons. unfold look_text at 1. rewrite <- !app_assoc. do 1 f_equal.
    cbn [fmap list_fmap join]. rewrite <- app_assoc. f_equal. specialize (IH v).
    cbn [fmap list_fmap] in IH. rewrite <- IH. by rewrite <- !app_assoc.
Qed.

Lemma parse_smart w ws : parse_re (smart_pattern (escapeRegex <$> w :: ws)) = Some (smart_re (w :: ws)).
Proof.
  unfold parse_re. rewrite smart_pattern_looks.
  set (l := w :: ws). set (p := "^"%js ++ (l ≫= look_text) ++ ".*$"%js).
  assert (∀ w, length w ≤ length (escapeRegex w)) as He.
  { intros u. induction u as [|x u IH]; [done|]. unfold escapeRegex in *. cbn [flat_map].
    rewrite length_app. cbn. destruct (re_special x); cbn; lia. }
  assert (∀ l, Forall (λ w, length w + length l + 6 ≤ length (l ≫= look_text)) l ∧ 7 * length l ≤ length (l ≫= look_text)) as Hlen.
  { clear -He. induction l as [|w l [IH1 IH2]]; [by split; [constructor|]|]. rewrite bind_cons, length_app. cbn [length].
    assert (length (look_text w) = 7 + length (escapeRegex w)) as ->
      by (unfold look_text; rewrite !length_app; cbn; lia).
    specialize (He w). split; [|lia]. constructor; [lia|]. eapply Forall_impl; [exact IH1|]. cbn. intros; lia. }
  destruct (Hlen l) as [H1 H2].
  assert (length p = S (length l + (length (l ≫= look_text) - length l + 3))) as ->
    by (unfold p; rewrite !length_app; cbn [length]; lia).
  unfold p. cbn [app parse N.eqb Pos.eqb]. rewrite parse_looks.
  - set (m := length (l ≫= look_text) - length l). replace (m + 3) with (S (S (S m))) by lia.
    cbn [parse N.eqb Pos.eqb quantified lazy_mark alt_of]. by destruct m.
  - eapply Forall_impl; [exact H1|]. cbn. intros; lia.
Qed.

(** ** What it matches *)

Definition one_line (s : jstring) : bool := forallb (λ u, negb (line_end u)) s.

Lemma one_line_Forall s : one_line s = true ↔ Forall (λ u, line_end u = false) s.
Proof.
  unfold one_line. rewrite forallb_forall, Forall_forall. setoid_rewrite <- list_elem_of_In.
  by setoid_rewrite negb_true_iff.
Qed.

Section matches.
Variable canon : N → N.

Lemma ends_look r s i j : j ∈ ends canon (RLook r) s i ↔ j = i ∧ ∃ k, k ∈ ends canon r s i.
Proof.
  cbn [ends]. destruct (ends canon r s i) as [|x l].
  - split; [intros H; by apply elem_of_nil in H|]. intros (_ & k & Hk). by apply elem_of_nil in Hk.
  - rewrite list_elem_of_singleton. split; [|tauto]. intros ->. split; [done|]. exists x. by left.
Qed.

(** A lookahead from the start finds a word wherever it is. *)
Lemma look_word_ends s w acc j :
  one_line s = true →
  (∀ i, i ∈ ends canon acc s 0 → i = 0) →
  j ∈ ends canon (look_word acc w) s 0 ↔ j ∈ ends canon acc s 0 ∧ ∃ k, at_pos canon w s k.
Proof.
  intros Hl Ha. unfold look_word. rewrite ends_seq. setoid_rewrite ends_look. split.
  - intros (i & Hi & -> & k & Hk). split; [done|]. rewrite (Ha i Hi) in Hk.
    apply ends_chars in Hk as (k' & _ & Hk' & _); [|lia]. by exists k'.
  - intros (Hj & k & Hk). exists j. split; [done|]. split; [done|]. rewrite (Ha j Hj).
    exists (k + length w). apply ends_chars; [lia|]. exists k. split_and!; [|done|done].
    apply ends_seq. exists 0. split; [by left|]. apply star_any_ends; [lia|]. split; [lia|]. right.
    split; [destruct Hk; lia|]. apply Forall_take, Forall_drop. by apply one_line_Forall.
Qed.

Lemma looks_ends s ws acc j :
  one_line s = true →
  (∀ i, i ∈ ends canon acc s 0 → i = 0) →
  j ∈ ends canon (foldl look_word acc ws) s 0 ↔ j ∈ ends canon acc s 0 ∧ Forall (λ w, ∃ k, at_pos canon w s k) ws.
Proof.
  intros Hl. revert acc. induction ws as [|w ws IH]; intros acc Ha.
  - split; [intros H; by split; [|constructor]|tauto].
  - cbn [foldl]. rewrite IH.
    + rewrite look_word_ends by done. rewrite Forall_cons. tauto.
    + intros i Hi. apply look_word_ends in Hi as [Hi _]; [by apply Ha|done|done].
Qed.

Lemma begin_ends r s i j : j ∈ ends canon (foldl look_word (RSeq REmpty RBegin) r) s i → i = 0.
Proof.
  revert j. induction r as [|w r IH] using rev_ind; intros j.
  - cbn. case_bool_decide as H; [done|]. intros Hj. by apply elem_of_nil in Hj.
  - rewrite foldl_app. cbn [foldl]. unfold look_word at 1. rewrite ends_seq. intros (k & Hk & _). by eapply IH.
Qed.

Lemma smart_re_test ws s :
  re_test canon (smart_re ws) s = one_line s && forallb (λ w, contains_ci canon w s) ws.
Proof.
  apply Bool.eq_iff_eq_true. rewrite re_test_true, andb_true_iff, forallb_forall.
  setoid_rewrite contains_ci_true. unfold smart_re. split.
  - intros (i & j & Hi & Hj). apply ends_seq in Hj as (k & Hk & Hj).
    assert (k = length s) as -> by (cbn in Hj; case_bool_decide; [done|by apply elem_of_nil in Hj]).
    apply ends_seq in Hk as (k0 & Hk0 & Hs). pose proof (begin_ends _ _ _ _ Hk0) as ->.
    assert (one_line s = true → k0 = 0 ∧ Forall (λ w, ∃ k, at_pos canon w s k) ws) as Hlooks.
    { intros Hl. apply looks_ends in Hk0 as [H0 H1]; [|done|].
      - split; [|done]. cbn in H0. by apply list_elem_of_singleton in H0.
      - intros x Hx. cbn in Hx. by apply list_elem_of_singleton in Hx. }
    assert (k0 = 0) as ->.
    { clear -Hk0. revert k0 Hk0. induction ws as [|w ws IH] using rev_ind; intros k0 Hk0.
      - cbn in Hk0. by apply list_elem_of_singleton in Hk0.
      - rewrite foldl_app in Hk0. cbn [foldl] in Hk0. unfold look_word in Hk0 at 1.
        apply ends_seq in Hk0 as (k & Hk & Hl). apply ends_look in Hl as [-> _]. by apply IH. }
    apply star_any_ends in Hs as [_ Hs]; [|lia].
    assert (one_line s = true) as Hl.
    { apply one_line_Forall. destruct Hs as [Hs|[_ Hs]].
      - destruct s; [constructor|done].
      - rewrite drop_0, Nat.sub_0_r, take_ge in Hs by lia. done. }
    split; [done|]. destruct (Hlooks Hl) as [_ H]. intros w Hw%list_elem_of_In. rewrite Forall_forall in H. by apply H.
  - intros [Hl Hw]. exists 0, (length s). split; [lia|]. apply ends_seq. exists (length s).
    split; [|cbn; rewrite bool_decide_eq_true_2 by done; by left].
    apply ends_seq. exists 0. split.
    + apply looks_ends; [done| |].
      * intros x Hx. cbn in Hx. by apply list_elem_of_singleton in Hx.
      * split; [by left|]. apply Forall_forall. intros w Hin. apply Hw. by apply list_elem_of_In.
    + apply star_any_ends; [lia|]. split; [lia|]. right. split; [done|].
      apply Forall_take, Forall_drop. by apply one_line_Forall.
Qed.

(** A literal search finds the text wherever it is. *)
Lemma literal_test w s : re_test canon (chars REmpty w) s = contains_ci canon w s.
Proof.
  apply Bool.eq_iff_eq_true. rewrite re_test_true, contains_ci_true. split.
  - intros (i & j & Hi & Hj). apply ends_chars in Hj as (k & _ & Hk & _); [by exists k|done].
  - intros [k Hk]. exists k, (k + length w). destruct Hk as [Hk1 Hk2]. split; [lia|].
    apply ends_chars; [lia|]. exists k. split_and!; [by left|done|done].
Qed.
End matches.

Lemma parse_literal w : parse_re (escapeRegex w) = Some (chars REmpty w).
Proof.
  unfold parse_re. rewrite <- (app_nil_r (escapeRegex w)) at 2.
  assert (length w ≤ length (escapeRegex w)) as Hl.
  { induction w as [|x u IH]; [done|]. unfold escapeRegex in *. cbn [flat_map].
    rewrite length_app. cbn. destruct (re_special x); cbn; lia. }
  replace (length (escapeRegex w)) with (length w + (length (escapeRegex w) - length w)) by lia.
  rewrite parse_escape by done. by destruct (length (escapeRegex w) - length w).
Qed.

(** ** The words of an escaped text *)

Lemma break_quote_escape s :
  break_quote (escapeRegex s)
  = match break_quote s with Some (a, b) => Some (escapeRegex a, escapeRegex b) | None => None end.
Proof.
  induction s as [|u s IH]; [done|]. unfold escapeRegex at 1. cbn [flat_map]. fold (escapeRegex s).
  cbn [break_quote]. destruct (re_special u) eqn:E.
  - cbn [app break_quote N.eqb Pos.eqb]. destruct (N.eqb_spec u 34) as [->|Hu]; [by vm_compute in E|].
    rewrite IH. destruct (break_quote s) as [[a b]|]; [|done]. f_equal. f_equal.
    unfold escapeRegex at 2. cbn [flat_map]. by rewrite E.
  - cbn [app break_quote]. destruct (N.eqb_spec u 34) as [->|Hu]; [done|].
    rewrite IH. destruct (break_quote s) as [[a b]|]; [|done]. f_equal. f_equal.
    unfold escapeRegex at 2. cbn [flat_map]. by rewrite E.
Qed.

Lemma break_space_escape s :
  break_space (escapeRegex s) = (escapeRegex (break_space s).1, escapeRegex (break_space s).2).
Proof.
  induction s as [|u s IH]; [done|]. unfold escapeRegex at 1. cbn [flat_map]. fold (escapeRegex s).
  cbn [break_space]. destruct (re_special u) eqn:E.
  - cbn [app break_space N.eqb Pos.eqb]. destruct (N.eqb_spec u 32) as [->|Hu]; [by vm_compute in E|].
    rewrite IH. destruct (break_space s) as [a b]. cbn [fst snd]. f_equal.
    unfold escapeRegex at 2. cbn [flat_map]. by rewrite E.
  - cbn [app break_space]. destruct (N.eqb_spec u 32) as [->|Hu].
    + cbn [fst snd]. unfold escapeRegex at 3. cbn [flat_map]. by rewrite E.
    + rewrite IH. destruct (break_space s) as [a b]. cbn [fst snd]. f_equal.
      unfold escapeRegex at 2. cbn [flat_map]. by rewrite E.
Qed.

Lemma escape_cons u s :
  escapeRegex (u :: s) = (if re_special u then [92%N; u] else [u]) ++ escapeRegex s.
Proof. unfold escapeRegex. cbn [flat_map]. by destruct (re_special u). Qed.

Lemma escape_app s t : escapeRegex (s ++ t) = escapeRegex s ++ escapeRegex t.
Proof. unfold escapeRegex. apply flat_map_app. Qed.

Lemma break_space_length s : length (break_space s).1 + length (break_space s).2 = length s.
Proof.
  induction s as [|u s IH]; [done|]. cbn [break_space]. destruct (u =? 32)%N; [done|].
  destruct (break_space s). cbn in *. lia.
Qed.

Lemma break_quote_length s a b : break_quote s = Some (a, b) → length a + S (length b) = length s.
Proof.
  revert a. induction s as [|u s IH]; intros a; [done|]. cbn [break_quote]. destruct (u =? 34)%N.
  - by intros [= <- <-].
  - destruct (break_quote s) as [[a' b']|]; [|done]. intros [= <- <-]. cbn. by rewrite (IH a').
Qed.

Lemma break_space_word u s : u ≠ 32%N → length (break_space (u :: s)).2 ≤ length s.
Proof.
  intros Hu. cbn [break_space]. rewrite (proj2 (N.eqb_neq _ _) Hu).
  pose proof (break_space_length s). destruct (break_space s). cbn in *. lia.
Qed.

(** One step of the scan, for a text that is not empty. *)
Lemma tokens_cons n u t :
  search_tokens (S n) (u :: t)
  = if (u =? 32)%N then search_tokens n t
    else match (if (u =? 34)%N then break_quote t else None) with
         | Some ((_ :: _) as inner, rest) => (34%N :: inner ++ [34%N]) :: search_tokens n rest
         | _ => (break_space (u :: t)).1 :: search_tokens n (break_space (u :: t)).2
         end.
Proof.
  cbn [search_tokens]. destruct (u =? 32)%N; [done|]. destruct (break_space (u :: t)).
  destruct (u =? 34)%N; [|done]. by destruct (break_quote t) as [[[|? ?] ?]|].
Qed.

Lemma tokens_escape n m s :
  length s ≤ n → length (escapeRegex s) ≤ m →
  search_tokens m (escapeRegex s) = escapeRegex <$> search_tokens n s.
Proof.
  revert m s. induction n as [|n IH]; intros m [|u s] Hn Hm; cbn [length] in Hn; try lia.
  1,2: by destruct m.
  assert (∀ rest, length rest ≤ length s → length (escapeRegex rest) < length (escapeRegex (u :: s)) →
    search_tokens (pred m) (escapeRegex rest) = escapeRegex <$> search_tokens n rest) as IH' by (intros; apply IH; lia).
  clear IH. destruct (N.eqb_spec u 32) as [->|H32].
  { change (escapeRegex (32%N :: s)) with (32%N :: escapeRegex s) in *. cbn [length] in *.
    destruct m as [|m]; [lia|]. rewrite !tokens_cons, N.eqb_refl. apply IH'; lia. }
  assert (length (escapeRegex (break_space (u :: s)).2) < length (escapeRegex (u :: s))) as Hw.
  { pose proof (break_space_length (escapeRegex (u :: s))) as E. rewrite break_space_escape in E. cbn [fst snd] in E.
    assert (0 < length (escapeRegex (break_space (u :: s)).1)); [|lia].
    cbn [break_space]. rewrite (proj2 (N.eqb_neq _ _) H32). destruct (break_space s). cbn [fst].
    rewrite escape_cons, length_app. destruct (re_special u); cbn; lia. }
  pose proof (break_space_word u s H32).
  assert (∃ v l, escapeRegex (u :: s) = v :: l ∧ v ≠ 32%N ∧
    ((v =? 34)%N = (u =? 34)%N) ∧ (u = 34%N → l = escapeRegex s)) as (v & l & El & Hv & Hq & Hl).
  { rewrite escape_cons. destruct (re_special u) eqn:Eu.
    - exists 92%N, (u :: escapeRegex s). split_and!; [done|done| |intros ->; by vm_compute in Eu].
      destruct (N.eqb_spec u 34) as [->|]; [by vm_compute in Eu|done].
    - by exists u, (escapeRegex s). }
  destruct m as [|m]; [rewrite El in Hm; cbn in Hm; lia|]. cbn [pred] in IH'.
  rewrite El at 1. rewrite !tokens_cons, <- El, break_space_escape. cbn [fst snd].
  rewrite (proj2 (N.eqb_neq _ _) H32), (proj2 (N.eqb_neq _ _) Hv), Hq, (IH' _ H Hw).
  destruct (N.eqb_spec u 34) as [->|_]; [|done]. rewrite Hl, break_quote_escape by done.
  destruct (break_quote s) as [[[|x inner] rest]|] eqn:Eb; [done| |done].
  rewrite escape_cons at 1. destruct (re_special x) eqn:Ex; cbn [app fmap list_fmap]; f_equal.
  all: try (rewrite escape_cons; cbn; rewrite escape_app, escape_cons, Ex; done).
  all: pose proof (break_quote_escape s) as He; rewrite Eb in He.
  all: apply break_quote_length in Eb, He; cbn [length] in Eb.
  all: apply IH'; [lia|]; rewrite escape_cons, length_app; change (re_special 34) with false; cbn [length]; lia.
Qed.

Lemma starts_with_prefix p s : starts_with p s = true → ∃ e, s = p ++ e.
Proof.
  revert s. induction p as [|a p IH]; intros s H; [by exists s|]. destruct s as [|b s]; [done|]. cbn in H.
  apply andb_true_iff in H as [->%bool_decide_eq_true_1 H]. destruct (IH s H) as [e ->]. by exists e.
Qed.

Lemma replace_quote s :
  replace_first [34%N] [] s = match break_quote s with Some (a, b) => a ++ b | None => s end.
Proof.
  unfold replace_first. induction s as [|u s IH]; [done|].
  cbn [index_of starts_with break_quote]. rewrite andb_true_r.
  destruct (N.eqb_spec u 34) as [->|Hu]; [done|]. rewrite bool_decide_eq_false_2 by done.
  destruct (index_of [34%N] s) as [i|]; cbn [fmap option_fmap option_map].
  - change (u :: (take i s ++ [] ++ drop (i + length [34%N]) s) = match match break_quote s with Some (a, b) => Some (u :: a, b) | None => None end with Some (a, b) => a ++ b | None => u :: s end).
    destruct (break_quote s) as [[a b]|]; cbn [app length] in *; by rewrite IH.
  - destruct (break_quote s) as [[a b]|]; [|done]. cbn [app]. by rewrite <- IH.
Qed.

Lemma replace_quote_escape s :
  replace_first [34%N] [] (escapeRegex s) = escapeRegex (replace_first [34%N] [] s).
Proof.
  rewrite !replace_quote, break_quote_escape. destruct (break_quote s) as [[a b]|]; [|done]. by rewrite escape_app.
Qed.

Lemma escape_line s : forallb (λ u, negb (line_end u)) (escapeRegex s) = forallb (λ u, negb (line_end u)) s.
Proof.
  induction s as [|u s IH]; [done|]. rewrite escape_cons, forallb_app, IH. cbn [forallb].
  destruct (re_special u); cbn [forallb]; by rewrite andb_true_r.
Qed.

Lemma between_snoc q t :
  between_quotes (q :: t ++ [34%N]) = if forallb (λ u, negb (line_end u)) t then Some t else None.
Proof. cbn [between_quotes]. by rewrite last_snoc, removelast_last. Qed.

Lemma between_other q t u : u ≠ 34%N → between_quotes (q :: t ++ [u]) = None.
Proof.
  intros Hu. cbn [between_quotes]. rewrite last_snoc.
  destruct u as [|p]; [done|]. by repeat (destruct p as [p|p|]; try done).
Qed.

Lemma between_escape q t :
  between_quotes (q :: escapeRegex t) = match between_quotes (q :: t) with Some s => Some (escapeRegex s) | None => None end.
Proof.
  destruct t as [|u t _] using rev_ind; [done|]. rewrite escape_app.
  destruct (N.eqb_spec u 34) as [->|Hu].
  - change (escapeRegex [34%N]) with [34%N]. rewrite !between_snoc, escape_line. by destruct (forallb _ t).
  - assert (∃ l, escapeRegex t ++ escapeRegex [u] = l ++ [u]) as [l ->].
    { unfold escapeRegex at 2. cbn [flat_map]. destruct (re_special u); cbn.
      - exists (escapeRegex t ++ [92%N]). by rewrite <- app_assoc.
      - by exists (escapeRegex t). }
    by rewrite !between_other.
Qed.

Lemma unquote_escape w : unquote (escapeRegex w) = escapeRegex (unquote w).
Proof.
  unfold unquote. rewrite <- replace_quote_escape. f_equal. destruct w as [|u w]; [done|].
  destruct (N.eqb_spec u 34) as [->|Hu].
  - rewrite escape_cons. change (re_special 34) with false. cbn [app]. rewrite N.eqb_refl, between_escape.
    by destruct (between_quotes (34%N :: w)).
  - rewrite escape_cons. destruct (re_special u); cbn [app]; [done|]. by rewrite (proj2 (N.eqb_neq _ _) Hu).
Qed.

Lemma smart_words_escape s : smart_words (escapeRegex s) = escapeRegex <$> smart_words s.
Proof.
  unfold smart_words. rewrite (tokens_escape (length s)) by lia.
  destruct (search_tokens (length s) s) as [|w l]; [done|]. cbn [fmap list_fmap].
  rewrite unquote_escape. f_equal. rewrite <- !list_fmap_compose. apply list_fmap_ext. intros ? x _.
  apply unquote_escape.
Qed.

Lemma smart_words_some s : ∃ w l, smart_words s = w :: l.
Proof. unfold smart_words. destruct (search_tokens (length s) s) as [|w l]; by eexists _, _. Qed.

(** ** The search that is not a regular expression *)

(** What such a search means for the text of a row. *)
Definition search_means (canon : N → N) (smart : bool) (search s : jstring) : bool :=
  if smart then one_line s && forallb (λ w, contains_ci canon w s) (smart_words search)
  else contains_ci canon search s.

Lemma smart_search_made canon search smart caseInsensitive :
  ∃ r, _fnFilterCreateSearch search false smart caseInsensitive = Some r ∧
    ∀ s, rx_test canon r s = search_means (if caseInsensitive then canon else id) smart search s.
Proof.
  unfold _fnFilterCreateSearch, search_means. destruct smart.
  - destruct (smart_words_some search) as (w & l & E). rewrite smart_words_escape, E, parse_smart.
    eexists. split; [done|]. intros s. apply smart_re_test.
  - rewrite parse_literal. eexists. split; [done|]. intros s. apply literal_test.
Qed.

(** ** Longer searches match less *)

Lemma break_space_app s e :
  break_space (s ++ e) = match break_space s with
                         | (a, []) => (a ++ (break_space e).1, (break_space e).2)
                         | (a, b) => (a, b ++ e) end.
Proof.
  induction s as [|u s IH]; [cbn; by destruct (break_space e)|]. cbn [app break_space]. destruct (u =? 32)%N; [done|].
  rewrite IH. by destruct (break_space s) as [a [|? ?]].
Qed.

Lemma break_space_quote s : 34%N ∉ s → 34%N ∉ (break_space s).2.
Proof.
  induction s as [|u s IH]; [done|]. rewrite not_elem_of_cons. intros [H1 H2]. cbn [break_space].
  destruct (u =? 32)%N; [by apply not_elem_of_cons|]. specialize (IH H2). by destruct (break_space s).
Qed.

(** Without quotes, every word of a search is the start of a word of the longer search. *)
Lemma tokens_prefix n m s e w :
  34%N ∉ s → length s ≤ n → length (s ++ e) ≤ m → w ∈ search_tokens n s →
  ∃ w', w' ∈ search_tokens m (s ++ e) ∧ w `prefix_of` w'.
Proof.
  revert m s. induction n as [|n IH]; intros m s Hq Hn Hm Hw; [by apply elem_of_nil in Hw|].
  destruct s as [|u s]; [by apply elem_of_nil in Hw|]. destruct m as [|m]; [cbn in Hm; lia|].
  pose proof (proj1 (not_elem_of_cons _ _ _) Hq) as [Hu Hq'].
  cbn [app] in *. cbn [length] in Hn, Hm. rewrite tokens_cons in Hw |- *.
  destruct (N.eqb_spec u 32) as [->|H32]; [apply IH; [done|lia|lia|done]|].
  rewrite (proj2 (N.eqb_neq u 34)) in Hw |- * by congruence.
  pose proof (break_space_word u s H32) as Hb. pose proof (break_space_quote (u :: s) Hq) as Hbq.
  change (u :: s ++ e) with ((u :: s) ++ e). rewrite break_space_app.
  destruct (break_space (u :: s)) as [a [|c b]]; cbn [fst snd] in *.
  - apply elem_of_cons in Hw as [->|Hw]; [|by destruct n; apply elem_of_nil in Hw].
    eexists. split; [by left|]. by apply prefix_app_r.
  - apply elem_of_cons in Hw as [->|Hw]; [exists a; split; [by left|done]|].
    destruct (IH m (c :: b)) as (w' & Hw' & Hp); [done|lia| |done|].
    + rewrite length_app in *. lia.
    + exists w'. split; [by right|done].
Qed.

Lemma break_quote_none s : 34%N ∉ s → break_quote s = None.
Proof.
  induction s as [|u s IH]; [done|]. rewrite not_elem_of_cons. intros [H1 H2]. cbn [break_quote].
  rewrite (proj2 (N.eqb_neq _ _)) by congruence. by rewrite IH.
Qed.

Lemma unquote_plain w : 34%N ∉ w → unquote w = w.
Proof.
  intros H. unfold unquote. destruct w as [|u w]; [done|].
  pose proof (proj1 (not_elem_of_cons _ _ _) H) as [Hu _]. rewrite (proj2 (N.eqb_neq u 34)) by congruence.
  by rewrite replace_quote, break_quote_none.
Qed.

Lemma tokens_plain n s w : 34%N ∉ s → w ∈ search_tokens n s → 34%N ∉ w.
Proof.
  revert s. induction n as [|n IH]; intros s Hq Hw; [by apply elem_of_nil in Hw|].
  destruct s as [|u s]; [by apply elem_of_nil in Hw|]. rewrite tokens_cons in Hw.
  pose proof (proj1 (not_elem_of_cons _ _ _) Hq) as [Hu Hq'].
  destruct (u =? 32)%N; [by eapply IH|]. rewrite (proj2 (N.eqb_neq u 34)) in Hw by congruence.
  apply elem_of_cons in Hw as [->|Hw]; [|eapply IH; [by apply (break_space_quote (u :: s))|done]].
  enough (∀ l, 34%N ∉ l → 34%N ∉ (break_space l).1) as Hb by by apply (Hb (u :: s)).
  intros l. induction l as [|x l IHl]; [done|]. rewrite not_elem_of_cons. intros [H1 H2]. cbn [break_space].
  destruct (x =? 32)%N; [apply not_elem_of_nil|]. specialize (IHl H2). destruct (break_space l). by apply not_elem_of_cons.
Qed.

Lemma contains_prefix canon w w' s : w `prefix_of` w' → contains_ci canon w' s = true → contains_ci canon w s = true.
Proof.
  intros [k ->]. rewrite !contains_ci_true. intros (i & Hl & Hm). exists i. rewrite length_app in Hl. split; [lia|].
  apply (f_equal (take (length w))) in Hm. rewrite length_app, <- !fmap_take, take_take, take_app_length in Hm.
  by rewrite Nat.min_l in Hm by lia.
Qed.

Lemma search_narrow canon smart p e s :
  34%N ∉ p ++ e → search_means canon smart (p ++ e) s = true → search_means canon smart p s = true.
Proof.
  rewrite not_elem_of_app. intros [Hp He]. unfold search_means. destruct smart; [|by apply contains_prefix, prefix_app_r].
  rewrite !andb_true_iff, !forallb_forall. intros [Hl H]. split; [done|]. intros w Hw%list_elem_of_In.
  assert (contains_ci canon [] s = true) as Hnil.
  { apply contains_ci_true. exists 0. split; [cbn; lia|done]. }
  unfold smart_words in Hw, H. destruct (search_tokens (length p) p) as [|x l] eqn:E; [apply list_elem_of_singleton in Hw as ->; done|].
  rewrite <- E in Hw. apply list_elem_of_fmap in Hw as (w0 & -> & Hw0).
  rewrite unquote_plain by (eapply tokens_plain; [exact Hp|exact Hw0]).
  destruct (tokens_prefix (length p) (length (p ++ e)) p e w0) as (w' & Hw' & Hpre); [done|lia|lia|done|].
  eapply contains_prefix; [exact Hpre|]. destruct (search_tokens (length (p ++ e)) (p ++ e)) as [|y l'] eqn:E'; [by apply elem_of_nil in Hw'|].
  apply H, list_elem_of_In. rewrite <- E' in *. apply list_elem_of_fmap. exists w'. split; [|done].
  rewrite unquote_plain; [done|]. eapply tokens_plain; [|exact Hw']. by apply not_elem_of_app.
Qed.

(** A search without the regular-expression option always compiles, whatever the user types,
    and what it matches is plain: a smart search matches the texts on one line that contain every
    word of the search (a quoted phrase is one word), in any order; a search that is not smart
    matches the texts that contain the search as typed; letter case counts only if asked for. *)
Theorem smart_search_correct canon search smart caseInsensitive :
  ∃ r, _fnFilterCreateSearch search false smart caseInsensitive = Some r ∧
    ∀ s, rx_test canon r s = search_means (if caseInsensitive then canon else id) smart search s.
Proof. apply smart_search_made. Qed.
