(* ===== verification/DtFilterRows.v ===== *)
(** * Correctness of the filters of a table

    A search keeps exactly the rows that match, in the order of the sort; narrowing the rows of
    the previous search gives what a search of all rows gives. *)

From S2P Require Import Prelude JsString JsObject JsNumber JsValue JsInt JsRegExp DtUtil DtModel DtTypes DtFilter DtFilterTheorems.

(** ** What the steps of a search change *)

(** Only warnings and the types of the columns. *)
Definition typed (s s' : settings) : Prop :=
  s' = set_iDrawError (iDrawError s') (set_fired (fired s') (set_aoColumns (aoColumns s') s))
  ∧ set_sType None <$> aoColumns s' = set_sType None <$> aoColumns s.

#[export] Instance typed_preorder : PreOrder typed.
Proof.
  split; [by intros []|]. intros s1 s2 s3 [H1 C1] [H2 C2]. split; [|congruence].
  rewrite H1 in H2. rewrite H2. by destruct s1, s3.
Qed.

Lemma quiet_typed s s' : quiet s s' → typed s s'.
Proof. intros H. split; [|by rewrite (quiet_columns _ _ H)]. rewrite H. by destruct s, s'. Qed.

Lemma set_sType_typed i t s : typed s (upd_column i (set_sType t) s).
Proof.
  split; [by destruct s|]. unfold upd_column. cbn [aoColumns set_aoColumns]. apply list_eq. intros j.
  rewrite !list_lookup_fmap. destruct (decide (j = i)) as [->|]; [rewrite list_lookup_alter_eq|by rewrite list_lookup_alter_ne].
  by destruct (aoColumns s !! i).
Qed.

Lemma column_type_typed date_parse d i s :
  i < length (aoColumns s) → ∃ s', column_type date_parse d i s = Some s' ∧ typed s s'.
Proof.
  intros [col Hc]%lookup_lt_is_Some_2. unfold column_type. rewrite Hc. cbn [mbind option_bind].
  destruct (falsy_str (sType col) && negb (falsy_str (_sManualType col))); [eexists; split; [done|apply set_sType_typed]|].
  destruct (falsy_str (sType col)); [|by exists s].
  destruct (detect_column_spec date_parse d i col s Hc) as (t & s1 & -> & Q & _). cbn.
  eexists. split; [done|]. transitivity s1; [by apply quiet_typed|apply set_sType_typed].
Qed.

Lemma typed_columns s s' : typed s s' → length (aoColumns s') = length (aoColumns s).
Proof. intros [_ H]. apply (f_equal length) in H. by rewrite !length_fmap in H. Qed.

Lemma column_types_typed date_parse d s : ∃ s', _fnColumnTypes date_parse d s = Some s' ∧ typed s s'.
Proof.
  unfold _fnColumnTypes. assert (Forall (λ k, k < length (aoColumns s)) (seq 0 (length (aoColumns s)))) as Hks
    by (apply Forall_forall; intros k Hk%list_elem_of_In%in_seq; lia).
  revert Hks. generalize (seq 0 (length (aoColumns s))). intros ks. revert s.
  induction ks as [|k ks IH]; intros s Hks; [by exists s|]. apply Forall_cons in Hks as [Hk Hks]. cbn [column_types].
  destruct (column_type_typed date_parse d k s Hk) as (s1 & -> & T1). cbn [mbind option_bind].
  destruct (IH s1) as (s2 & E & T2); [by rewrite (typed_columns _ _ T1)|]. exists s2. split; [done|]. by transitivity s1.
Qed.

Section filter.
Variable canon : N → N.
Variable textContent : jstring → jstring.
Variable date_parse : jstring → num.
Variable decimals : list jstring.

(** ** The search texts *)

(** No searchable cell is undefined: undefined has no text. *)
Definition readable (s : settings) : Prop :=
  Forall (λ r, Forall (λ col, bSearchable col = true → cell_value col r (Some "filter"%js) ≠ VUndef) (aoColumns s)) (aoData s).

Lemma formatter_defined t f v : search_formatter decimals t = Some f → v ≠ VUndef → f v ≠ VUndef.
Proof.
  unfold search_formatter. intros H Hv. assert (search_html v ≠ VUndef ∧ search_string v ≠ VUndef) as [H1 H2].
  { unfold search_html, search_string. destruct (_empty v); [done|]. by destruct v. }
  destruct (bool_decide _); [by injection H as <-|]. destruct (t =s? _); [by injection H as <-|].
  destruct (t =s? _); [by injection H as <-|done].
Qed.

(** The search text of a cell: the data of the cell for filtering, through the search formatter of
    the column's type, as a text, with its entities decoded and without its line ends; a cell of
    a column that is not searchable has none. *)
Definition cell_text (r : row) (col : column) : jstring :=
  if bSearchable col then
    let v := cell_value col r (Some "filter"%js) in
    let v := match search_formatter decimals (default [] (sType col)) with Some f => f v | None => v end in
    let t := match v with VNull | VUndef => [] | _ => to_string v end in
    List.filter (λ u, negb ((u =? 10) || (u =? 13))%N) (if bool_decide (38%N ∈ t) then textContent t else t)
  else [].

(** The search texts of a row, by column, and its text as a whole: those it has cached, or those
    of its cells. *)
Definition row_texts (cols : list column) (r : row) : list jstring * jstring :=
  match _aFilterData r with
  | Some l => (l, _sFilterRow r)
  | None => (cell_text r <$> cols, join "  "%js (cell_text r <$> cols))
  end.

Lemma contains_unit u s : contains [u] s = bool_decide (u ∈ s).
Proof.
  unfold contains. induction s as [|v s IH]; [done|]. cbn [index_of starts_with].
  destruct (decide (u = v)) as [->|Hne].
  - rewrite !bool_decide_eq_true_2; [done|by left|done].
  - rewrite (bool_decide_eq_false_2 (u = v)) by done. cbn [andb].
    transitivity (bool_decide (u ∈ s)); [rewrite <- IH; by destruct (index_of [u] s)|].
    apply bool_decide_ext. rewrite elem_of_cons. naive_solver.
Qed.

Lemma clean_text_spec t :
  clean_text textContent t
  = List.filter (λ u, negb ((u =? 10) || (u =? 13))%N) (if bool_decide (38%N ∈ t) then textContent t else t).
Proof.
  unfold clean_text. rewrite contains_unit. generalize (if bool_decide (38%N ∈ t) then textContent t else t). intros s.
  unfold replace_units. induction s as [|u s IH]; [done|]. cbn [flat_map List.filter]. rewrite IH. unfold newline_unit.
  by destruct ((u =? 10) || (u =? 13))%N.
Qed.

Lemma filter_text_some r col :
  cell_value col r (Some "filter"%js) ≠ VUndef → bSearchable col = true →
  ∃ t, filter_text decimals col (cell_value col r (Some "filter"%js)) = Some t ∧ clean_text textContent t = cell_text r col.
Proof.
  intros Hv Hb. unfold filter_text, cell_text. rewrite Hb. cbv zeta.
  assert (∀ v, v ≠ VUndef → ∃ t, match v with VNull => Some [] | VUndef => None | _ => Some (to_string v) end = Some t
    ∧ t = match v with VNull | VUndef => [] | _ => to_string v end) as Htext by (intros v Hn; destruct v; by eauto).
  destruct (search_formatter decimals _) as [f|] eqn:E.
  - destruct (Htext _ (formatter_defined _ _ _ E Hv)) as (t & Et & Ht). exists t. rewrite <- Ht. split; [done|apply clean_text_spec].
  - destruct (Htext _ Hv) as (t & Et & Ht). exists t. rewrite <- Ht. split; [done|apply clean_text_spec].
Qed.

Lemma filter_cells_some i r cols s :
  aoData s !! i = Some r →
  Forall (λ jc : nat * column, aoColumns s !! jc.1 = Some jc.2 ∧
    (bSearchable jc.2 = true → cell_value jc.2 r (Some "filter"%js) ≠ VUndef)) cols →
  ∃ s', filter_cells textContent decimals i cols s = Some (cell_text r <$> cols.*2, s') ∧ quiet s s'.
Proof.
  intros Hr H. revert s Hr H. induction cols as [|[j col] cols IH]; intros s Hr H; [by exists s|].
  apply Forall_cons in H as [[Hc Hv] H]. cbn [fst snd] in Hc, Hv. cbn [filter_cells].
  assert (∃ t s1, (if bSearchable col then '(c, s) ← _fnGetCellData s i j (Some "filter"%js);
                      t ← filter_text decimals col c; Some (t, s) else Some ([], s)) = Some (t, s1) ∧ quiet s s1
                  ∧ clean_text textContent t = cell_text r col)
    as (t & s1 & -> & Q & Ht).
  { destruct (bSearchable col) eqn:Eb; [|exists [], s; split_and!; [done|done|unfold cell_text; by rewrite Eb, clean_text_spec]].
    specialize (Hv eq_refl). destruct (get_cell_spec s i j (Some "filter"%js) col r Hc Hr) as (s1 & -> & Q). cbn [mbind option_bind].
    destruct (filter_text_some r col Hv Eb) as (t & -> & Ht). by exists t, s1. }
  cbn [mbind option_bind]. destruct (IH s1) as (s2 & -> & Q2).
  - by rewrite (quiet_data _ _ Q).
  - eapply Forall_impl; [exact H|]. cbn. by rewrite (quiet_columns _ _ Q).
  - cbn [mbind option_bind]. rewrite Ht. eexists. split; [done|]. by transitivity s1.
Qed.

(** A row but for its search texts. *)
Definition same_row (r r' : row) : Prop := set_sFilterRow [] (set_aFilterData None r) = set_sFilterRow [] (set_aFilterData None r').

(** What reading the texts changes. *)
Definition reading (s s' : settings) : Prop :=
  s' = set_iDrawError (iDrawError s') (set_fired (fired s') (set_aoData (aoData s') s))
  ∧ Forall2 same_row (aoData s) (aoData s').

#[export] Instance same_row_equiv : Equivalence same_row.
Proof. unfold same_row. split; [done|by intros ??|]. intros ???. congruence. Qed.

#[export] Instance reading_preorder : PreOrder reading.
Proof.
  split; [intros s; split; [by destruct s|reflexivity]|].
  intros s1 s2 s3 [H1 C1] [H2 C2]. split.
  - rewrite H1 in H2. rewrite H2. by destruct s1, s3.
  - by transitivity (aoData s2).
Qed.

Lemma quiet_reading s s' : quiet s s' → reading s s'.
Proof.
  intros H. split; [rewrite H; by destruct s, s'|]. by rewrite (quiet_data _ _ H).
Qed.

Lemma cache_reading i l t s : reading s (upd_row i (λ r, set_sFilterRow t (set_aFilterData l r)) s).
Proof.
  split; [by destruct s|]. unfold upd_row. cbn [aoData set_aoData]. apply Forall2_same_length_lookup. split.
  { by rewrite length_alter. }
  intros j x y Hx Hy. destruct (decide (j = i)) as [->|].
  - rewrite list_lookup_alter_eq, Hx in Hy. injection Hy as <-. by destruct x.
  - rewrite list_lookup_alter_ne, Hx in Hy by done. by injection Hy as <-.
Qed.

Lemma reading_columns s s' : reading s s' → aoColumns s' = aoColumns s.
Proof. intros [-> _]. by destruct s. Qed.

Lemma same_row_cell col r r' ty : same_row r r' → cell_value col r' ty = cell_value col r ty.
Proof. unfold same_row, cell_value. destruct r, r'. cbn. by intros [= -> -> -> ->]. Qed.

Lemma reading_readable s s' : reading s s' → readable s → readable s'.
Proof.
  intros R. unfold readable. rewrite (reading_columns _ _ R). destruct R as [_ R]. rewrite !Forall_lookup.
  intros H i r' Hr'. destruct (Forall2_lookup_r _ _ _ _ _ R Hr') as (r & Hr & Hs). specialize (H i r Hr).
  eapply Forall_impl; [exact H|]. cbn. intros col. by rewrite (same_row_cell _ _ _ _ Hs).
Qed.

Lemma snd_imap_pair {A} (l : list A) : (imap pair l).*2 = l.
Proof. apply list_eq. intros i. rewrite list_lookup_fmap, list_lookup_imap. by destruct (l !! i). Qed.

(** How row [k] is after its texts were read. *)
Definition texts_read (s s' : settings) (k : nat) : Prop :=
  ∀ r, aoData s !! k = Some r → ∃ r', aoData s' !! k = Some r' ∧ same_row r r'
    ∧ _aFilterData r' = Some (row_texts (aoColumns s) r).1 ∧ _sFilterRow r' = (row_texts (aoColumns s) r).2.

Lemma filter_rows_some ks was s :
  readable s → NoDup ks → Forall (λ k, k < length (aoData s)) ks →
  ∃ w s', filter_rows textContent decimals ks was s = Some (w, s') ∧ reading s s'
    ∧ (∀ k, (k ∈ ks → texts_read s s' k) ∧ (k ∉ ks → aoData s' !! k = aoData s !! k)) ∧ (w = false → was = false ∧ s' = s).
Proof.
  revert was s. induction ks as [|i ks IH]; intros was s Hs Hn Hks.
  { exists was, s. split_and!; [done|done| |done]. intros k. split; [by intros H%elem_of_nil|done]. }
  apply Forall_cons in Hks as [Hi Hks]. apply NoDup_cons in Hn as [Hni Hn]. cbn [filter_rows].
  destruct (lookup_lt_is_Some_2 _ _ Hi) as [r Hr]. rewrite Hr. cbn [mbind option_bind].
  destruct (_aFilterData r) as [l|] eqn:El.
  { destruct (IH was s Hs Hn Hks) as (w & s' & -> & R & C & W). exists w, s'. split_and!; [done|done| |done].
    intros k. destruct (C k) as [C1 C2]. split; [intros [->|H]%elem_of_cons|intros [_ H]%not_elem_of_cons]; auto.
    intros r0 Hr0. assert (r0 = r) as -> by congruence. exists r. rewrite C2 by done. unfold row_texts. by rewrite El. }
  pose proof Hs as Hs0. unfold readable in Hs. rewrite Forall_lookup in Hs.
  destruct (filter_cells_some i r (imap pair (aoColumns s)) s Hr) as (s1 & -> & Q).
  { apply Forall_lookup. intros j [j' col] Hj. rewrite list_lookup_imap in Hj.
    destruct (aoColumns s !! j) as [c|] eqn:Hc; [|done]. injection Hj as <- <-. split; [done|].
    intros Hb. specialize (Hs i r Hr). rewrite Forall_lookup in Hs. by eapply Hs. }
  cbn [mbind option_bind]. rewrite snd_imap_pair. set (s2 := upd_row i _ s1).
  assert (reading s s2) as R1 by (transitivity s1; [by apply quiet_reading|apply cache_reading]).
  assert (∀ k, aoData s2 !! k = if decide (k = i) then Some (set_sFilterRow (join "  "%js (cell_text r <$> aoColumns s))
      (set_aFilterData (Some (cell_text r <$> aoColumns s)) r)) else aoData s !! k) as D2.
  { intros k. unfold s2, upd_row. cbn [aoData set_aoData]. rewrite (quiet_data _ _ Q).
    case_decide; [subst; by rewrite list_lookup_alter_eq, Hr|by rewrite list_lookup_alter_ne]. }
  destruct (IH true s2) as (w & s' & -> & R & C & W); [by eapply reading_readable|done| |].
  { destruct R1 as [_ R1]. by rewrite <- (Forall2_length _ _ _ R1). }
  exists w, s'. split_and!; [done|by transitivity s2| |intros ->; destruct (W eq_refl); done].
  intros k. destruct (C k) as [C1 C2]. rewrite D2 in C2. destruct (decide (k = i)) as [->|Hne].
  - split; [intros _ r0 Hr0|by intros []%not_elem_of_cons]. assert (r0 = r) as -> by congruence.
    eexists. split; [by apply C2|]. unfold row_texts. rewrite El. by destruct r.
  - split; [intros [->|H]%elem_of_cons; [done|]|intros [_ H]%not_elem_of_cons; by apply C2].
    specialize (C1 H). unfold texts_read in C1 |- *. by rewrite D2, decide_False, (reading_columns _ _ R1) in C1.
Qed.

Lemma filter_data_some s :
  readable s →
  ∃ w s', _fnFilterData textContent decimals s = Some (w, s') ∧ reading s s'
    ∧ (∀ k, texts_read s s' k) ∧ (w = false → s' = s).
Proof.
  intros Hs. destruct (filter_rows_some (seq 0 (length (aoData s))) false s Hs) as (w & s' & E & R & C & W).
  - apply NoDup_seq.
  - apply Forall_forall. intros k Hk%list_elem_of_In%in_seq. lia.
  - exists w, s'. split_and!; [done|done| |intros ->; by apply W]. intros k r Hr. apply C; [|done].
    apply list_elem_of_In, in_seq. apply lookup_lt_Some in Hr. lia.
Qed.

(** ** The rows that are kept *)

Definition search_ok (o : search) (text : jstring) : bool :=
  bool_decide (sSearch o = [])
  || match _fnFilterCreateSearch (sSearch o) (fnRegex o) (bSmart o) (bCaseInsensitive o) with
     | Some r => rx_test canon r text | None => false end.

Definition columns_ok (l : list (nat * search)) (r : row) : bool :=
  forallb (λ io : nat * search, search_ok io.2 (column_text io.1 r)) l.

(** The row matches the search [o] and the searches of the columns. *)
Definition row_ok (s : settings) (o : search) (r : row) : bool :=
  search_ok o (_sFilterRow r) && columns_ok (imap pair (aoPreSearchCols s)) r.

Definition on_row (s : settings) (test : row → bool) (i : nat) : bool :=
  match aoData s !! i with Some r => test r | None => false end.

Definition compiles (o : search) : Prop :=
  is_Some (_fnFilterCreateSearch (sSearch o) (fnRegex o) (bSmart o) (bCaseInsensitive o)).

Definition in_data (s : settings) (l : list nat) : Prop := Forall (λ i, i < length (aoData s)) l.

Lemma plain_compiles o : fnRegex o = false → compiles o.
Proof.
  intros H. unfold compiles. rewrite H.
  destruct (smart_search_made id (sSearch o) (bSmart o) (bCaseInsensitive o)) as (r & Hr & _). by exists r.
Qed.

Lemma keep_rows_spec test s l : in_data s l → keep_rows test (aoData s) l = Some (List.filter (on_row s test) l).
Proof.
  induction 1 as [|i l [r Hr]%lookup_lt_is_Some_2 _ IH]; [done|]. cbn [keep_rows List.filter].
  rewrite IH, Hr. cbn [mbind option_bind]. assert (on_row s test i = test r) as -> by (unfold on_row; by rewrite Hr).
  by destruct (test r).
Qed.

Lemma in_data_filter s f l : in_data s l → in_data s (List.filter f l).
Proof. unfold in_data. rewrite !Forall_forall. intros H x Hx%list_elem_of_In%filter_In. apply H, list_elem_of_In, Hx. Qed.

Lemma filter_filter_andb {A} (f g : A → bool) l : List.filter f (List.filter g l) = List.filter (λ x, g x && f x) l.
Proof.
  induction l as [|x l IH]; [done|]. cbn [List.filter]. destruct (g x); cbn [List.filter andb]; [|done].
  by destruct (f x); rewrite IH.
Qed.

Lemma filter_sublist {A} (f : A → bool) l : List.filter f l `sublist_of` l.
Proof. induction l as [|x l IH]; [done|]. cbn [List.filter]. destruct (f x); by constructor. Qed.

Lemma filter_eq {A} (f g : A → bool) l : (∀ x, x ∈ l → f x = g x) → List.filter f l = List.filter g l.
Proof. intros H. apply filter_ext_in. intros x Hx%list_elem_of_In. by apply H. Qed.

Lemma filter_all {A} (f : A → bool) l : (∀ x, x ∈ l → f x = true) → List.filter f l = l.
Proof.
  induction l as [|x l IH]; intros H; [done|]. cbn [List.filter]. rewrite H by (by left). f_equal.
  apply IH. intros y Hy. apply H. by right.
Qed.

Lemma filter_columns_spec l s :
  in_data s (aiDisplay s) → Forall (λ io : nat * search, sSearch io.2 = [] ∨ compiles io.2) l →
  filter_columns canon l s = Some (set_aiDisplay (List.filter (on_row s (columns_ok l)) (aiDisplay s)) s).
Proof.
  revert s. induction l as [|[i o] l IH]; intros s Hd Hl.
  { cbn [filter_columns]. rewrite filter_all; [by destruct s|]. intros j Hj. unfold on_row.
    unfold in_data in Hd. rewrite Forall_forall in Hd.
    destruct (lookup_lt_is_Some_2 _ _ (Hd j Hj)) as [r ->]. done. }
  apply Forall_cons in Hl as [Ho Hl]. cbn [filter_columns fst snd] in *.
  set (s1 := set_aiDisplay (List.filter (on_row s (λ r, search_ok o (column_text i r))) (aiDisplay s)) s).
  assert (_fnFilterColumn canon (sSearch o) i (fnRegex o) (bSmart o) (bCaseInsensitive o) s = Some s1) as ->.
  { unfold _fnFilterColumn, s1, search_ok. destruct (decide (sSearch o = [])) as [E|E].
    - rewrite !bool_decide_eq_true_2 by done. cbn [orb]. rewrite filter_all; [by destruct s|].
      intros j Hj. unfold in_data in Hd. rewrite Forall_forall in Hd.
      unfold on_row. by destruct (lookup_lt_is_Some_2 _ _ (Hd j Hj)) as [r ->].
    - rewrite !bool_decide_eq_false_2 by done. destruct Ho as [|[r Hr]]; [done|]. rewrite Hr. cbn [mbind option_bind orb].
      by rewrite keep_rows_spec. }
  cbn [mbind option_bind]. rewrite IH; [|by apply in_data_filter|done].
  f_equal. unfold s1 at 2 3. cbn [aiDisplay set_aiDisplay aoData].
  transitivity (set_aiDisplay (List.filter (on_row s (columns_ok ((i, o) :: l))) (aiDisplay s)) s1); [|by destruct s].
  f_equal. rewrite filter_filter_andb. apply filter_eq. intros j _. unfold on_row, s1. cbn [aoData set_aiDisplay].
  by destruct (aoData s !! j).
Qed.

(** ** A whole search *)

(** The rows a search starts from. *)
Definition base_rows (o : search) (force invalidated : bool) (s : settings) : list nat :=
  if bool_decide (sSearch o = [])
     || (invalidated || force || bool_decide (length (sSearch o) < length (sSearch (oPreviousSearch s)))
         || negb (starts_with (sSearch (oPreviousSearch s)) (sSearch o)) || bSorted s)
  then aiDisplayMaster s else aiDisplay s.

Definition searched (o : search) (base : list nat) (s : settings) : settings :=
  fire "search"%js (set_bFiltered true (set_aiDisplay (List.filter (on_row s (row_ok s o)) base) (fnSaveFilter o s))).

Definition complete := _fnFilterComplete canon textContent date_parse decimals [].

Lemma complete_spec o force s s1 w s2 :
  _fnColumnTypes date_parse (default [] (head decimals)) s = Some s1 →
  _fnFilterData textContent decimals s1 = Some (w, s2) →
  bServerSide s = false → typed s s1 → compiles o →
  Forall (λ c, sSearch c = [] ∨ compiles c) (aoPreSearchCols s2) → in_data s2 (base_rows o force w s2) →
  oPreviousSearch s1 = oPreviousSearch s2 →
  complete o force s = Some (searched o (base_rows o force w s2) s2).
Proof.
  intros E1 E2 Hb [Ht _] [rx Hrx] Hc Hd Hp. unfold complete, _fnFilterComplete. rewrite E1. cbn [mbind option_bind].
  assert (is_ssp s1 = false) as -> by (rewrite is_ssp_bServerSide, Ht; by destruct s).
  cbn [negb]. unfold _fnFilter. rewrite Hrx. cbn [mbind option_bind]. rewrite E2. cbn [mbind option_bind].
  set (s3 := set_aiDisplay (List.filter (on_row s2 (λ r, search_ok o (_sFilterRow r))) (base_rows o force w s2)) s2).
  match goal with |- mbind _ (mbind _ ?x) = _ => assert (x = Some s3) as -> end.
  { unfold s3, base_rows, search_ok in *. rewrite Hp in *. destruct (decide (sSearch o = [])) as [E|E].
    - rewrite !bool_decide_eq_true_2 in * by done. cbn [orb] in *. rewrite filter_all; [done|]. intros j Hj.
      unfold in_data in Hd. rewrite Forall_forall in Hd. unfold on_row. by destruct (lookup_lt_is_Some_2 _ _ (Hd j Hj)) as [r ->].
    - rewrite !(bool_decide_eq_false_2 (sSearch o = [])) in * by done. cbn [orb length negb bool_decide decide decide_rel] in *.
      rewrite orb_false_r, Hrx. set (b := w || force || _ || _ || _) in *.
      assert (aiDisplay (if b then set_aiDisplay (aiDisplayMaster s2) s2 else s2) = if b then aiDisplayMaster s2 else aiDisplay s2) as ->
        by (by destruct b).
      assert (aoData (if b then set_aiDisplay (aiDisplayMaster s2) s2 else s2) = aoData s2) as -> by by destruct b.
      rewrite keep_rows_spec by done. cbn [mbind option_bind]. f_equal. by destruct b, s2. }
  cbn [mbind option_bind]. rewrite filter_columns_spec.
  - cbn [mbind option_bind]. unfold _fnFilterCustom. cbn [foldl].
    match goal with |- context [set_aiDisplay ?l (fnSaveFilter o s3)] =>
      assert (l = List.filter (on_row s2 (row_ok s2 o)) (base_rows o force w s2)) as -> end; [|by destruct s2].
    transitivity (List.filter (on_row s2 (columns_ok (imap pair (aoPreSearchCols s2)))) (aiDisplay s3)); [by destruct s2|].
    unfold s3. cbn [aiDisplay set_aiDisplay]. rewrite filter_filter_andb. apply filter_eq. intros j _. unfold on_row, row_ok. by destruct (aoData s2 !! j).
  - unfold s3. cbn. by apply in_data_filter.
  - unfold s3. apply Forall_lookup. intros j [j' c]. cbn. rewrite list_lookup_imap.
    destruct (aoPreSearchCols s2 !! j) eqn:E; [|done]. intros [= <- <-]. cbn. rewrite Forall_lookup in Hc. by eapply Hc.
Qed.

Lemma typed_readable s s' : typed s s' → readable s → readable s'.
Proof.
  intros [Ht Hc] H. unfold readable in *. assert (aoData s' = aoData s) as -> by (rewrite Ht; by destruct s).
  eapply Forall_impl; [exact H|]. cbn. intros r Hr. apply Forall_lookup. intros i col' Hi.
  apply (f_equal (λ l : list column, l !! i)) in Hc. rewrite !list_lookup_fmap, Hi in Hc.
  destruct (aoColumns s !! i) as [col|] eqn:E; [|done]. rewrite Forall_lookup in Hr. specialize (Hr i col E).
  destruct col, col'. cbn in *. injection Hc. intros. subst. auto.
Qed.

Lemma searched_shown o base s : aiDisplay (searched o base s) = List.filter (on_row (searched o base s) (row_ok (searched o base s) o)) base.
Proof. by destruct s. Qed.

(** What a search needs: rows that exist, texts that can be read, expressions that compile. *)
Record searchable (o : search) (s : settings) : Prop := {
  on_client : bServerSide s = false;
  texts : readable s;
  master_rows : in_data s (aiDisplayMaster s);
  input_compiles : compiles o;
  columns_compile : Forall (λ c, sSearch c = [] ∨ compiles c) (aoPreSearchCols s)
}.

(** The rows on display are the rows of the table, in the order of the sort, that match the
    search [o] and the searches of the columns. *)
Definition filtered (o : search) (s : settings) : Prop :=
  aiDisplay s = List.filter (on_row s (row_ok s o)) (aiDisplayMaster s).

Lemma search_steps o s :
  searchable o s → in_data s (aiDisplay s) →
  ∃ s1 w s2,
    typed s s1 ∧ reading s1 s2 ∧ (∀ k, texts_read s1 s2 k) ∧ (w = false → s2 = s1)
    ∧ ∀ force, complete o force s = Some (searched o (base_rows o force w s2) s2).
Proof.
  intros [Hb Hr Hm Hi Hc] Hd.
  destruct (column_types_typed date_parse (default [] (head decimals)) s) as (s1 & E1 & T).
  destruct (filter_data_some s1) as (w & s2 & E2 & R & C & W); [by eapply typed_readable|].
  exists s1, w, s2. split_and!; [done|done|done|done|]. intros force'.
  assert (length (aoData s2) = length (aoData s)) as Hl.
  { destruct R as [_ R]. rewrite <- (Forall2_length _ _ _ R). destruct T as [-> _]. by destruct s. }
  assert (aiDisplay s2 = aiDisplay s ∧ aiDisplayMaster s2 = aiDisplayMaster s ∧ aoPreSearchCols s2 = aoPreSearchCols s
    ∧ oPreviousSearch s1 = oPreviousSearch s2) as (D1 & D2 & D3 & D4).
  { destruct R as [-> _]. destruct T as [-> _]. by destruct s. }
  eapply complete_spec; try done; [by rewrite D3|].
  unfold in_data, base_rows in *. rewrite D1, D2, Hl. by case_match.
Qed.

Lemma search_ok_means o text :
  fnRegex o = false → sSearch o ≠ [] →
  search_ok o text = search_means (if bCaseInsensitive o then canon else id) (bSmart o) (sSearch o) text.
Proof.
  intros Hr Hn. unfold search_ok. rewrite bool_decide_eq_false_2, Hr by done. cbn [orb].
  destruct (smart_search_made canon (sSearch o) (bSmart o) (bCaseInsensitive o)) as (r & -> & H). apply H.
Qed.

(** What the search [o] asks of a text: nothing when it is empty; that the text match its regular
    expression; or that it contain the words or the text the user typed. *)
Definition matches (o : search) (text : jstring) : bool :=
  bool_decide (sSearch o = [])
  || if fnRegex o
     then match _fnFilterCreateSearch (sSearch o) true (bSmart o) (bCaseInsensitive o) with
          | Some r => rx_test canon r text | None => false end
     else search_means (if bCaseInsensitive o then canon else id) (bSmart o) (sSearch o) text.

Lemma search_ok_matches o text : search_ok o text = matches o text.
Proof.
  unfold matches. destruct (fnRegex o) eqn:Er; [unfold search_ok; by rewrite Er|].
  destruct (decide (sSearch o = [])) as [E|E]; [unfold search_ok; by rewrite !bool_decide_eq_true_2|].
  rewrite bool_decide_eq_false_2 by done. by apply search_ok_means.
Qed.

(** The row with these texts is wanted by the search [o] and by the search of each column. *)
Definition wanted (o : search) (columns : list search) (texts : list jstring * jstring) : Prop :=
  matches o texts.2 = true
  ∧ ∀ k c, columns !! k = Some c → matches c (default "undefined"%js (texts.1 !! k)) = true.

Lemma row_ok_wanted s o r l :
  _aFilterData r = Some l → row_ok s o r = true ↔ wanted o (aoPreSearchCols s) (l, _sFilterRow r).
Proof.
  intros Hl. unfold row_ok, wanted, columns_ok. cbn [fst snd]. rewrite andb_true_iff, search_ok_matches.
  rewrite forallb_forall. setoid_rewrite <- list_elem_of_In. unfold column_text. rewrite Hl. cbn [default]. split.
  - intros [H1 H2]. split; [done|]. intros k c Hc. rewrite <- search_ok_matches. apply (H2 (k, c)).
    apply list_elem_of_lookup. exists k. by rewrite list_lookup_imap, Hc.
  - intros [H1 H2]. split; [done|]. intros [k c] (j & c' & [= -> ->] & Hc)%elem_of_lookup_imap.
    rewrite search_ok_matches. by apply H2.
Qed.

(** C10: A search of all rows always succeeds on a searchable table and shows exactly the rows that
    it and the searches of the columns want, in the order the rows are sorted in; what they look
    at are the texts of the cells of the row, joined by two spaces, or the texts it had cached,
    which every row keeps from then on; the search is recorded. *)
Theorem filter_complete_correct o s :
  searchable o s → in_data s (aiDisplay s) →
  ∃ s', complete o true s = Some s' ∧ aiDisplayMaster s' = aiDisplayMaster s
    ∧ (∀ i, i ∈ aiDisplay s' ↔ i ∈ aiDisplayMaster s ∧ ∃ r, aoData s !! i = Some r
         ∧ wanted o (aoPreSearchCols s) (row_texts (aoColumns s') r))
    ∧ aiDisplay s' `sublist_of` aiDisplayMaster s
    ∧ filtered o s'
    ∧ (∀ i r, aoData s !! i = Some r → ∃ r', aoData s' !! i = Some r'
         ∧ (_aFilterData r', _sFilterRow r') = (Some (row_texts (aoColumns s') r).1, (row_texts (aoColumns s') r).2))
    ∧ sSearch (oPreviousSearch s') = sSearch o ∧ bFiltered s' = true.
Proof.
  intros Hs Hd. destruct (search_steps o s Hs Hd) as (s1 & w & s2 & T & R & C & _ & E). eexists. split; [apply E|].
  assert (base_rows o true w s2 = aiDisplayMaster s2) as ->.
  { unfold base_rows. by rewrite orb_true_r, !orb_true_l, orb_true_r. }
  assert (aiDisplayMaster s2 = aiDisplayMaster s ∧ aoPreSearchCols s2 = aoPreSearchCols s ∧ aoColumns s2 = aoColumns s1
    ∧ aoData s1 = aoData s) as (M2 & P2 & C2 & D1) by (destruct R as [-> _]; destruct T as [-> _]; by destruct s).
  assert (∀ i r, aoData s !! i = Some r → ∃ r', aoData s2 !! i = Some r'
    ∧ _aFilterData r' = Some (row_texts (aoColumns s2) r).1 ∧ _sFilterRow r' = (row_texts (aoColumns s2) r).2) as Htexts.
  { intros i r Hr. rewrite <- D1 in Hr. destruct (C i r Hr) as (r' & H1 & _ & H). exists r'. by rewrite C2. }
  split_and!; [exact M2| | |apply searched_shown| |by destruct s2|by destruct s2].
  - intros i. change (aiDisplay (searched o (aiDisplayMaster s2) s2))
      with (List.filter (on_row s2 (row_ok s2 o)) (aiDisplayMaster s2)).
    change (aoColumns (searched o (aiDisplayMaster s2) s2)) with (aoColumns s2). rewrite M2.
    rewrite list_elem_of_In, filter_In, <- list_elem_of_In. cbv beta. split.
    all: intros [Hi H]; split; [done|]; revert H.
    all: pose proof (master_rows o s Hs) as Hin; unfold in_data in Hin; rewrite Forall_forall in Hin;
      apply Hin, lookup_lt_is_Some_2 in Hi as [r Hr];
      destruct (Htexts i r Hr) as (r' & Hr' & Hl & Ht); unfold on_row; rewrite Hr';
      rewrite (row_ok_wanted s2 o r' _ Hl), Ht, P2, <- surjective_pairing.
    + intros H. by exists r.
    + intros (r0 & Hr0 & H). by simplify_eq.
  - change (aiDisplay (searched o (aiDisplayMaster s2) s2))
      with (List.filter (on_row s2 (row_ok s2 o)) (aiDisplayMaster s2)). rewrite M2. apply filter_sublist.
  - intros i r Hr. destruct (Htexts i r Hr) as (r' & Hr' & Hl & Ht). exists r'. split; [exact Hr'|]. by rewrite Hl, Ht.
Qed.

(** A longer search, without quotes, finds nothing that the shorter one does not. *)
Lemma search_ok_narrow p o text :
  fnRegex p = false → fnRegex o = false → bSmart p = bSmart o → bCaseInsensitive p = bCaseInsensitive o →
  starts_with (sSearch p) (sSearch o) = true → 34%N ∉ sSearch o →
  search_ok o text = true → search_ok p text = true.
Proof.
  intros Hp Ho Hs Hc Hw Hq H. apply starts_with_prefix in Hw as [e He].
  destruct (decide (sSearch p = [])) as [E|E]; [unfold search_ok; by rewrite bool_decide_eq_true_2|].
  assert (sSearch o ≠ []) as Eo by (rewrite He; by destruct (sSearch p)).
  rewrite search_ok_means in H |- * by done. rewrite Hs, Hc. rewrite He in *. by eapply search_narrow.
Qed.

(** C30: Searching the rows of the previous search is an optimisation that cannot be seen: when the
    rows on display are those of the previous search, a new search without quotes, with the same
    options and not a regular expression, gives the same state as a search of all rows. *)
Theorem incremental_search_equiv o s :
  let p := oPreviousSearch s in
  searchable o s → in_data s (aiDisplay s) → filtered p s →
  fnRegex p = false → fnRegex o = false → bSmart p = bSmart o → bCaseInsensitive p = bCaseInsensitive o →
  34%N ∉ sSearch o →
  complete o false s = complete o true s.
Proof.
  intros p Hs Hd Hf Hp Ho Hsm Hci Hq. destruct (search_steps o s Hs Hd) as (s1 & w & s2 & T & R & C & W & E).
  rewrite !E. f_equal. unfold base_rows. replace (w || true) with true by (by rewrite orb_true_r). cbn [orb]. rewrite orb_true_r.
  destruct (bool_decide (sSearch o = []) || _) eqn:Eb; [done|].
  rewrite !orb_false_iff in Eb. destruct Eb as (_ & (((-> & _) & _) & Hw%negb_false_iff) & _).
  specialize (W eq_refl). subst s2. unfold searched. do 2 f_equal.
  assert (aiDisplay s1 = List.filter (on_row s1 (row_ok s1 p)) (aiDisplayMaster s1)) as -> by (destruct T as [-> _]; by destruct s).
  assert (oPreviousSearch s1 = p) as Hp1 by (destruct T as [-> _]; by destruct s). rewrite Hp1 in Hw. f_equal.
  rewrite filter_filter_andb. apply filter_eq. intros i _. unfold on_row. destruct (aoData s1 !! i) as [r|]; [|done].
  unfold row_ok. destruct (columns_ok _ r); [|by rewrite !andb_false_r]. rewrite !andb_true_r.
  destruct (search_ok o (_sFilterRow r)) eqn:Er; [|by rewrite andb_false_r].
  by rewrite (search_ok_narrow p o) by done.
Qed.
End filter.

(** ** At concrete tables *)

Definition sample_names : settings := sample_table [VStr "tab"%js; VStr "b"%js; VStr "cab"%js].
Definition plain_search (s : jstring) : search := Search s false true true None.

(** [complete] with ASCII case folding, no decoding of entities and no dates. *)
#[local] Abbreviation complete_ascii := (complete lower_ascii id (λ _, nan) []).

Lemma sample_searchable o :
  compiles o → searchable o sample_names ∧ in_data sample_names (aiDisplay sample_names).
Proof.
  intros H. assert (in_data sample_names (aiDisplay sample_names)) as Hd
    by (apply (bool_decide_eq_true_1 (Forall _ _)); vm_compute; reflexivity).
  split; [|done]. split; [done| |done|done|by repeat constructor].
  repeat (apply Forall_cons; split); repeat constructor; cbn; discriminate.
Qed.

(** Two columns, the second with a search of its own: of the rows with both [a] and [b] somewhere in
    their texts, those with an [x] in the second column. *)
Definition sample_cell (k : nat) : val → option jstring → val :=
  λ v _, match v with VArr l => default VUndef (l !! k) | _ => VUndef end.
Definition sample_pairs : settings :=
  set_aoPreSearchCols [oSearch; plain_search "X"%js]
    (set_aoColumns (sample_column ∘ sample_cell <$> [0; 1])
      (sample_table ((λ p, VArr [VStr p.1; VStr p.2]) <$>
        [("tab", "xy"); ("b", "ax"); ("cab", "c"); ("x", "c"); ("a", "x b")]%js))).

Example filter_complete_correct_witness :
  let o := plain_search "B a"%js in
  ∃ s', complete_ascii o true sample_pairs = Some s' ∧ aiDisplay s' = [0; 1; 4]
    ∧ (∀ i, i ∈ [0; 1; 4] ↔ i ∈ [0; 1; 2; 3; 4] ∧ ∃ r, aoData sample_pairs !! i = Some r
         ∧ wanted lower_ascii o [oSearch; plain_search "X"%js] (row_texts id [] (aoColumns s') r)).
Proof.
  intros o. destruct (filter_complete_correct lower_ascii id (λ _, nan) [] o sample_pairs) as (s' & E & _ & F & _).
  - split; [done| |apply (bool_decide_eq_true_1 (Forall _ _)); vm_compute; reflexivity|by apply plain_compiles|].
    + repeat (apply Forall_cons; split); repeat constructor; cbn; discriminate.
    + apply Forall_cons; split; [by left|]. apply Forall_cons; split; [right; by apply plain_compiles|constructor].
  - apply (bool_decide_eq_true_1 (Forall _ _)). vm_compute. reflexivity.
  - exists s'. split; [exact E|].
    assert (aiDisplay s' = [0; 1; 4]) as Hd.
    { enough (aiDisplay <$> complete_ascii o true sample_pairs = Some [0; 1; 4]) as H; [rewrite E in H; by injection H|].
      vm_compute. reflexivity. }
    split; [exact Hd|]. rewrite Hd in F. exact F.
Defined.

(** The table after a search for [a]. *)
Definition sample_searched : settings :=
  set_aoData ((λ t, Row (VStr t) None (Some [t]) t false []) <$> ["tab"%js; "b"%js; "cab"%js])
    (set_oPreviousSearch (plain_search "a"%js) (set_aiDisplay [0; 2] sample_names)).

Lemma sample_searched_ok : searchable (plain_search "ab c"%js) sample_searched ∧ in_data sample_searched (aiDisplay sample_searched).
Proof.
  split; [|apply (bool_decide_eq_true_1 (Forall _ _)); vm_compute; reflexivity].
  split; [done| |apply (bool_decide_eq_true_1 (Forall _ _)); vm_compute; reflexivity| |by repeat constructor].
  - repeat (apply Forall_cons; split); repeat constructor; cbn; discriminate.
  - by apply plain_compiles.
Qed.

Example incremental_search_equiv_witness :
  complete_ascii (plain_search "ab c"%js) false sample_searched
  = complete_ascii (plain_search "ab c"%js) true sample_searched.
Proof.
  destruct sample_searched_ok as [H1 H2].
  refine (incremental_search_equiv lower_ascii id (λ _, nan) [] (plain_search "ab c"%js) sample_searched H1 H2 _ eq_refl eq_refl eq_refl eq_refl _).
  - vm_compute. reflexivity.
  - apply (bool_decide_eq_true_1 (34%N ∉ ("ab c"%js : jstring))). vm_compute. reflexivity.
Defined.

(** A regular expression that gets longer may match more: after [a], the expression [a|b] is tried
    on the rows that matched [a] only, and the row [b] stays hidden. *)
Example regex_narrowing :
  let re s := Search s true false true None in
  (λ force, s ← complete_ascii (re "a"%js) true sample_names; s ← complete_ascii (re "a|b"%js) force s; Some (aiDisplay s))
    <$> [false; true]
  = [Some [0; 2]; Some [0; 1; 2]].
Proof. vm_compute. reflexivity. Qed.

(** A search can also match more when a quote closes a phrase. *)
Example quote_narrowing :
  let q s := plain_search (34%N :: 34%N :: s) in
  (λ force, s ← complete_ascii (q "a"%js) true sample_names; s ← complete_ascii (q ("a"%js ++ [34%N])) force s; Some (aiDisplay s))
    <$> [false; true]
  = [Some []; Some [0; 2]].
Proof. vm_compute. reflexivity. Qed.

(** A row whose text has a line separator is found by no smart search. *)
Example line_separator_hides :
  let s := sample_table [VStr ("a"%js ++ [0x2028%N])] in
  (λ o, aiDisplay <$> complete_ascii o true s) <$> [plain_search "a"%js; Search "a"%js false false true None]
  = [Some []; Some [0]].
Proof. vm_compute. reflexivity. Qed.
