(* ===== verification/DtPage.v ===== *)
(** * Paging of a table (jquery.dataTables.js, "paging", "length", "info")

    Changing the page and the page length, the text of the information element and the page
    numbers of the pager. *)

From Stdlib Require Import Sorting.Sorted.
From S2P Require Import Prelude JsString JsObject JsNumber JsValue JsInt DtUtil DtModel.
#[local] Open Scope Z_scope.

(** ** The start of the window *)

Definition _fnLengthOverflow (s : settings) : settings :=
  let start := _iDisplayStart s in
  let end_ := fnDisplayEnd s in
  let len := _iDisplayLength s in
  let start := if jle end_ start then jsub end_ len else start in
  let start := jsub start (jrem start len) in
  let start := if jeq len (JInt (-1)) || jlt start (JInt 0) then JInt 0 else start in
  set_iDisplayStart start s.

(** [parseInt] gives integral numbers. *)
Definition parse_jint (v : val) : jint := default JNaN (jint_of_num (parse_int (to_string v))).

Definition _fnLengthChange (v : val) (s : settings) : settings :=
  fire "length"%js (_fnLengthOverflow (set_iDisplayLength (parse_jint v) s)).

Inductive page_action := ToPage (n : Z) | Action (name : jstring).

Definition page_start (s : settings) (action : page_action) : jint * bool :=
  let start := _iDisplayStart s in
  let len := _iDisplayLength s in
  let records := fnRecordsDisplay s in
  if jeq records (JInt 0) || jeq len (JInt (-1)) then (JInt 0, true)
  else match action with
  | ToPage n =>
      let start := jmul (JInt n) len in
      (if jlt records start then JInt 0 else start, true)
  | Action a =>
      if a =s? "first"%js then (JInt 0, true)
      else if a =s? "previous"%js then
        let start := if jle (JInt 0) len then jsub start len else JInt 0 in
        (if jlt start (JInt 0) then JInt 0 else start, true)
      else if a =s? "next"%js then
        (if jlt (jadd start len) records then jadd start len else start, true)
      else if a =s? "last"%js then
        (jmul (jfloor_div (jsub records (JInt 1)) len) len, true)
      else (start, false)
  end.

(** [draw] is [_fnDraw]; the boolean is the result of the function. *)
Definition _fnPageChange (draw : settings → settings) (s : settings) (action : page_action) (redraw : bool)
    : settings * bool :=
  let '(start, known) := page_start s action in
  let s := if known then s else fire "error"%js s in
  let changed := negb (jeq (_iDisplayStart s) start) in
  let s := set_iDisplayStart start s in
  (if changed then
     let s := fire "page"%js s in
     if redraw then draw s else s
   else s, changed).

(** ** The pager *)

Inductive page_button := PNum (n : Z) | PEllipsis.

Definition _numbers (numbers_length page pages : Z) : list page_button :=
  let buttons := numbers_length in
  let half := buttons / 2 in
  if pages <=? buttons then PNum <$> _range 0 (Some pages)
  else if page <=? half then (PNum <$> _range 0 (Some (buttons - 2))) ++ [PEllipsis; PNum (pages - 1)]
  else if pages - 1 - half <=? page then
    [PNum 0; PEllipsis] ++ (PNum <$> _range (pages - (buttons - 2)) (Some pages))
  else
    [PNum 0; PEllipsis] ++ (PNum <$> _range (page - half + 2) (Some (page + half - 1)))
      ++ [PEllipsis; PNum (pages - 1)].

Inductive pager_item := Button (name : jstring) | Numbers (l : list page_button).

Definition simple : list pager_item := [Button "previous"%js; Button "next"%js].
Definition full : list pager_item :=
  [Button "first"%js; Button "previous"%js; Button "next"%js; Button "last"%js].
Definition numbers (n page pages : Z) : list pager_item := [Numbers (_numbers n page pages)].
Definition simple_numbers (n page pages : Z) : list pager_item :=
  [Button "previous"%js; Numbers (_numbers n page pages); Button "next"%js].
Definition full_numbers (n page pages : Z) : list pager_item :=
  [Button "first"%js; Button "previous"%js; Numbers (_numbers n page pages); Button "next"%js;
   Button "last"%js].

Example numbers_ex :
  _numbers 7 10 20 = [PNum 0; PEllipsis; PNum 9; PNum 10; PNum 11; PEllipsis; PNum 19].
Proof. reflexivity. Qed.

(** The page shown and the number of pages, as the draw callback of the pager computes them. *)
Definition pager_pages (s : settings) : jint * jint :=
  let all := jeq (_iDisplayLength s) (JInt (-1)) in
  (if all then JInt 0 else jceil_div (_iDisplayStart s) (_iDisplayLength s),
   if all then JInt 1 else jceil_div (fnRecordsDisplay s) (_iDisplayLength s)).

(** ** The information text *)

Record language := Language {
  sInfo : jstring; sInfoEmpty : jstring; sInfoFiltered : jstring; sInfoPostFix : jstring;
  fnInfoCallback : option (jint → jint → jint → jint → jstring → jstring)
}.

(** [format] is [fnFormatNumber] of the settings; the texts it gives have no dollar signs. *)
Definition _fnInfoMacros (format : jint → jstring) (s : settings) (str : jstring) : jstring :=
  let start := jadd (_iDisplayStart s) (JInt 1) in
  let len := _iDisplayLength s in
  let vis := fnRecordsDisplay s in
  let all := jeq len (JInt (-1)) in
  let str := replace_all "_START_"%js (format start) str in
  let str := replace_all "_END_"%js (format (fnDisplayEnd s)) str in
  let str := replace_all "_MAX_"%js (format (fnRecordsTotal s)) str in
  let str := replace_all "_TOTAL_"%js (format vis) str in
  let str := replace_all "_PAGE_"%js (format (if all then JInt 1 else jceil_div start len)) str in
  replace_all "_PAGES_"%js (format (if all then JInt 1 else jceil_div vis len)) str.

(** The text put into the information elements. *)
Definition _fnUpdateInfo (format : jint → jstring) (lang : language) (s : settings) : jstring :=
  let start := jadd (_iDisplayStart s) (JInt 1) in
  let end_ := fnDisplayEnd s in
  let max := fnRecordsTotal s in
  let total := fnRecordsDisplay s in
  let out := match total with JInt 0 | JNaN => sInfoEmpty lang | _ => sInfo lang end in
  let out := if negb (jeq total max) then out ++ " "%js ++ sInfoFiltered lang else out in
  let out := out ++ sInfoPostFix lang in
  let out := _fnInfoMacros format s out in
  match fnInfoCallback lang with Some f => f start end_ max total out | None => out end.

(** ** [page.info()] *)

Record page_info := PageInfo {
  pi_page : jint; pi_pages : jint; pi_start : jint; pi_end : jint; pi_length : jint;
  pi_recordsTotal : jint; pi_recordsDisplay : jint; pi_serverSide : bool
}.

Definition page_info_of (s : settings) : page_info :=
  let len := if bPaginate s then _iDisplayLength s else JInt (-1) in
  let all := jeq len (JInt (-1)) in
  PageInfo (if all then JInt 0 else jfloor_div (_iDisplayStart s) len)
    (if all then JInt 1 else jceil_div (fnRecordsDisplay s) len)
    (_iDisplayStart s) (fnDisplayEnd s) len (fnRecordsTotal s) (fnRecordsDisplay s) (is_ssp s).

(** ** The buttons of the pager *)

Record pager_classes := PagerClasses {
  sPageButton : jstring; sPageButtonActive : jstring; sPageButtonDisabled : jstring;
  sFirst : jstring; sPrevious : jstring; sNext : jstring; sLast : jstring (* of the language *)
}.

(** A link with its text, its class and the action it is bound to; the dots; or the span around
    the numbers. *)
#[warnings="-register-all"]
Inductive pager_node :=
  | PLink (text cls : jstring) (dt_idx : nat) (action : page_action)
  | PDots
  | PSpan (l : list pager_node).

Section pageButton.
Variable c : pager_classes.
Variables page pages : Z.

Definition disabled_unless (b : bool) : jstring := if b then [] else " "%js ++ sPageButtonDisabled c.

Definition link (text cls : jstring) (a : page_action) (counter : nat) : pager_node * nat :=
  (PLink text (sPageButton c ++ " "%js ++ cls) counter a, S counter).

Definition number_node (b : page_button) (counter : nat) : pager_node * nat :=
  match b with
  | PEllipsis => (PDots, counter)
  | PNum n => link (str_of_Z (n + 1)) (if page =? n then sPageButtonActive c else []) (ToPage n) counter
  end.

Fixpoint number_nodes (l : list page_button) (counter : nat) : list pager_node * nat :=
  match l with
  | [] => ([], counter)
  | b :: l =>
      let '(n, counter) := number_node b counter in
      let '(ns, counter) := number_nodes l counter in (n :: ns, counter)
  end.

Definition item_node (i : pager_item) (counter : nat) : pager_node * nat :=
  match i with
  | Numbers l => let '(ns, counter) := number_nodes l counter in (PSpan ns, counter)
  | Button b =>
      if b =s? "first"%js then link (sFirst c) (b ++ disabled_unless (0 <? page)) (Action b) counter
      else if b =s? "previous"%js then link (sPrevious c) (b ++ disabled_unless (0 <? page)) (Action b) counter
      else if b =s? "next"%js then link (sNext c) (b ++ disabled_unless (page <? pages - 1)) (Action b) counter
      else if b =s? "last"%js then link (sLast c) (b ++ disabled_unless (page <? pages - 1)) (Action b) counter
      else link (b ++ "1"%js) [] (Action b) counter
  end.

Fixpoint attach (l : list pager_item) (counter : nat) : list pager_node :=
  match l with
  | [] => []
  | i :: l => let '(n, counter) := item_node i counter in n :: attach l counter
  end.
Definition pageButton (buttons : list pager_item) : list pager_node := attach buttons 0.
End pageButton.

(** ** The window stays on a page *)

(** [R] records are shown in pages of [len], or on one page when [len] is -1; the window starts
    at [st], a multiple of [len] before the end of the records. *)
Definition window_ok (R len st : Z) : Prop :=
  0 ≤ R ∧ (len = -1 ∧ st = 0 ∨ 0 < len ∧ 0 ≤ st ∧ (len | st) ∧ (st < R ∨ st = 0)).

(** The actions of the pager: the four names, and the numbers of the pages. *)
Definition pager_action (R len : Z) (a : page_action) : Prop :=
  match a with
  | ToPage n => 0 ≤ n ∧ n * len < R
  | Action name => name ∈ ["first"%js; "previous"%js; "next"%js; "last"%js]
  end.

Lemma floor_page R len : 0 < len → 0 < R → 0 ≤ (R - 1) / len * len < R.
Proof.
  intros H1 H2. pose proof (Z.mul_div_le (R - 1) len H1). pose proof (Z.div_pos (R - 1) len). nia.
Qed.

Lemma window_first R len st : window_ok R len st → window_ok R len 0.
Proof.
  intros [H0 [[H1 _]|(H1 & H2 & H3 & H4)]]; (split; [done|]); [by left|right].
  split_and!; [done|done|apply Z.divide_0_r|by right].
Qed.

Lemma window_page R len st : 0 ≤ R → 0 < len → 0 ≤ st → (len | st) → st < R ∨ st = 0 → window_ok R len st.
Proof. intros. split; [done|by right]. Qed.

(** The four named actions with a positive length. *)
Lemma page_start_named s R len st a :
  fnRecordsDisplay s = JInt R → _iDisplayLength s = JInt len → _iDisplayStart s = JInt st →
  R ≠ 0 → len ≠ -1 →
  page_start s (Action a) =
    if a =s? "first"%js then (JInt 0, true)
    else if a =s? "previous"%js then
      (JInt (if 0 <=? len then Z.max 0 (st - len) else 0), true)
    else if a =s? "next"%js then (JInt (if st + len <? R then st + len else st), true)
    else if a =s? "last"%js then (jmul (jfloor_div (JInt (R - 1)) (JInt len)) (JInt len), true)
    else (JInt st, false).
Proof.
  intros HR Hl Hs H1 H2. unfold page_start. rewrite HR, Hl, Hs. cbn [jeq].
  destruct (Z.eqb_spec R 0); [done|]. destruct (Z.eqb_spec len (-1)); [done|]. cbn [orb].
  destruct (a =s? "first"%js); [done|]. destruct (a =s? "previous"%js).
  - unfold jle. cbn [jlt jeq jsub jadd jneg].
    replace ((0 <? len) || (0 =? len)) with (0 <=? len) by lia.
    destruct (0 <=? len); cbn [jlt]; [|done].
    destruct (Z.ltb_spec (st + - len) 0); do 2 f_equal; lia.
  - destruct (a =s? "next"%js); [|done]. cbn [jadd jlt]. by destruct (st + len <? R).
Qed.

Lemma page_start_window s R len st a :
  fnRecordsDisplay s = JInt R → _iDisplayLength s = JInt len → _iDisplayStart s = JInt st →
  window_ok R len st → pager_action R len a →
  ∃ st', page_start s a = (JInt st', true) ∧ window_ok R len st'.
Proof.
  intros HR Hl Hs Hw Ha. pose proof (window_first _ _ _ Hw) as W0.
  destruct (Z.eq_dec R 0) as [HR0|HR0];
    [exists 0; split; [unfold page_start; rewrite HR, Hl; cbn [jeq]; by rewrite HR0|done]|].
  destruct (Z.eq_dec len (-1)) as [Hl0|Hl0];
    [exists 0; split; [unfold page_start; rewrite HR, Hl; cbn [jeq]; rewrite Hl0; by rewrite orb_true_r|done]|].
  destruct Hw as [H0 [[? _]|(H1 & H2 & H3 & H4)]]; [done|].
  destruct a as [n|name]; cbn [pager_action] in Ha.
  - exists (n * len). split; [|apply window_page; [done|done|nia|by apply Z.divide_factor_r|lia]].
    unfold page_start. rewrite HR, Hl. cbn [jeq jmul jlt]. destruct (Z.eqb_spec R 0), (Z.eqb_spec len (-1)); try done.
    cbn [orb]. destruct (Z.ltb_spec R (n * len)); [lia|done].
  - rewrite (page_start_named s R len st name HR Hl Hs HR0 Hl0).
    apply elem_of_cons in Ha as [->|Ha]; [by exists 0|].
    apply elem_of_cons in Ha as [->|Ha]; [|apply elem_of_cons in Ha as [->|Ha]; [|apply list_elem_of_singleton in Ha as ->]].
    + destruct (Z.leb_spec 0 len); [|lia]. eexists. split; [reflexivity|].
      destruct (Z.leb_spec 0 (st - len)); [|by replace (Z.max 0 (st - len)) with 0 by lia].
      replace (Z.max 0 (st - len)) with (st - len) by lia.
      apply window_page; try lia. by apply Z.divide_sub_r; [|apply Z.divide_refl].
    + eexists. split; [reflexivity|]. destruct (Z.ltb_spec (st + len) R); apply window_page; try lia; try done.
      by apply Z.divide_add_r; [|apply Z.divide_refl].
    + cbn [jfloor_div]. destruct (Z.eqb_spec len 0); [lia|]. eexists. split; [reflexivity|].
      pose proof (floor_page R len). apply window_page; try lia. apply Z.divide_factor_r.
Qed.

Lemma records_of_start x s : fnRecordsDisplay (set_iDisplayStart x s) = fnRecordsDisplay s.
Proof. reflexivity. Qed.

(** The end of the window for a table that pages. *)
Lemma display_end_page s R len st :
  fnRecordsDisplay s = JInt R → _iDisplayLength s = JInt len → _iDisplayStart s = JInt st →
  bPaginate s = true → len ≠ -1 → fnDisplayEnd s = JInt (Z.min (st + len) R).
Proof.
  intros HR Hl Hs Hp Hn. unfold fnDisplayEnd. unfold fnRecordsDisplay in HR. rewrite is_ssp_bServerSide in HR.
  rewrite Hl, Hs, Hp. cbn [negb orb jeq]. destruct (Z.eqb_spec len (-1)); [done|].
  destruct (bServerSide s).
  - rewrite HR. cbn [jadd jmin jlt]. destruct (Z.ltb_spec (st + len) R); f_equal; lia.
  - injection HR as <-. cbn [jadd jlt orb]. rewrite orb_false_r.
    destruct (Z.ltb_spec (Z.of_nat (length (aiDisplay s))) (st + len)); f_equal; lia.
Qed.

Lemma overflow_window s R len st :
  fnRecordsDisplay s = JInt R → _iDisplayLength s = JInt len → _iDisplayStart s = JInt st →
  bPaginate s = true → 0 ≤ R → 0 ≤ st → 0 < len ∨ len = -1 →
  ∃ st', _iDisplayStart (_fnLengthOverflow s) = JInt st' ∧ window_ok R len st' ∧ st' ≤ st.
Proof.
  intros HR Hl Hs Hp H0 Hst [Hlen| ->].
  - unfold _fnLengthOverflow. rewrite (display_end_page s R len st HR Hl Hs Hp ltac:(lia)), Hl, Hs.
    set (a := if jle _ _ then _ else _).
    assert (∃ x, a = JInt x ∧ x ≤ st ∧ (x < R ∨ x ≤ 0) ) as (x & -> & Hx & HxR).
    { unfold a, jle. cbn [jlt jeq jsub jadd jneg].
      destruct (Z.ltb_spec (Z.min (st + len) R) st), (Z.eqb_spec (Z.min (st + len) R) st); cbn [orb];
        eexists; (split; [reflexivity|]); lia. }
    cbn [jrem jsub jadd jneg jeq jlt]. destruct (Z.eqb_spec len 0); [lia|]. destruct (Z.eqb_spec len (-1)); [lia|].
    cbn [orb jsub jadd jneg jlt _iDisplayStart set_iDisplayStart].
    destruct (Z.ltb_spec (x + - Z.rem x len) 0) as [Hneg|Hpos].
    + exists 0. split_and!; [done|apply window_page; try lia; apply Z.divide_0_r|done].
    + exists (x + - Z.rem x len). pose proof (Z.quot_rem' x len) as Hq.
      assert (0 ≤ Z.rem x len ∨ x ≤ 0) as Hrem.
      { destruct (Z.le_gt_cases x 0); [by right|left]. apply Z.rem_nonneg; lia. }
      assert (x + - Z.rem x len = len * Z.quot x len) as Hm by lia.
      split_and!; [done| |].
      * apply window_page; [done|done|done|rewrite Hm; apply Z.divide_factor_l|].
        destruct Hrem as [Hr|Hr]; [lia|]. right.
        pose proof (Z.rem_nonpos x len ltac:(lia) Hr). pose proof (Z.rem_bound_abs x len ltac:(lia)).
        assert (Z.quot x len = 0 ∨ Z.quot x len ≤ -1 ∨ 1 ≤ Z.quot x len) as [E|[?|?]] by lia; nia.
      * destruct Hrem as [Hr|Hr]; [lia|]. pose proof (Z.rem_bound_abs x len ltac:(lia)).
        assert (Z.quot x len ≤ 0) by (apply Z.quot_le_upper_bound; lia). nia.
  - exists 0. unfold _fnLengthOverflow. rewrite Hl. cbn [jeq]. rewrite Z.eqb_refl. cbn [orb].
    split_and!; [done|split; [done|by left]|done].
Qed.

(** The window of a paged table starts at the beginning of a page that shows a record, or at
    0: every action of the pager and every change of the page length to a positive number or -1
    keeps this, and a page change redraws and reports a change exactly when the start moved. *)
Theorem window_kept (draw : settings → settings) s R len st :
  fnRecordsDisplay s = JInt R → _iDisplayLength s = JInt len → _iDisplayStart s = JInt st →
  window_ok R len st →
  (∀ a, pager_action R len a →
     ∃ st', window_ok R len st' ∧
       (st' = st ∧ _fnPageChange draw s a true = (set_iDisplayStart (JInt st) s, false)
        ∨ st' ≠ st ∧ _fnPageChange draw s a true = (draw (fire "page"%js (set_iDisplayStart (JInt st') s)), true)))
  ∧ (∀ v len', parse_jint v = JInt len' → 0 < len' ∨ len' = -1 → bPaginate s = true →
       ∃ st', _iDisplayStart (_fnLengthChange v s) = JInt st' ∧ window_ok R len' st' ∧ st' ≤ st).
Proof.
  intros HR Hl Hs Hw. split.
  - intros a Ha. destruct (page_start_window s R len st a HR Hl Hs Hw Ha) as (st' & Hp & Hw').
    exists st'. split; [done|]. unfold _fnPageChange. rewrite Hp. cbn [fst snd].
    rewrite Hs. cbn [jeq]. destruct (Z.eqb_spec st st') as [->|]; [by left|by right].
  - intros v len' Hv Hlen Hp. unfold _fnLengthChange. rewrite Hv.
    change (_iDisplayStart (fire _ ?x)) with (_iDisplayStart x).
    destruct Hw as [H0 Hw]. apply (overflow_window _ R len' st); try done.
    destruct Hw as [[_ ->]|(_ & H & _)]; lia.
Qed.

Definition sample_settings (len st : Z) (n : nat) : settings :=
  Settings false true true true true true false false VNull VNull []
    [] [] (seq 0 n) (seq 0 n) (Many []) NoFixed [] oSearch [] (JInt st) (JInt len) None (JInt 0) (JInt 0)
    (JInt 0) (JInt (-1)) false false false true false false true [] [] 0 [] [] [] false [] VNull VNull.

Example window_kept_witness :
  let s := sample_settings 10 20 25 in
  fnRecordsDisplay s = JInt 25 ∧ _iDisplayLength s = JInt 10 ∧ _iDisplayStart s = JInt 20
  ∧ window_ok 25 10 20
  ∧ ∃ st', _iDisplayStart (_fnLengthChange (VStr "20"%js) s) = JInt st' ∧ window_ok 25 20 st' ∧ st' ≤ 20.
Proof.
  intros s. assert (window_ok 25 10 20) as Hw.
  { split; [lia|right]. split_and!; [lia|lia|by exists 2|lia]. }
  split_and!; [done|done|done|exact Hw|].
  apply (proj2 (window_kept (λ s, s) s 25 10 20 eq_refl eq_refl eq_refl Hw) (VStr "20"%js) 20);
    [vm_compute; reflexivity|lia|reflexivity].
Defined.

(** The number of the first page that does not exist is accepted when the records fill the last
    page: the window is then empty. *)
Example page_past_end :
  let s := fst (_fnPageChange (λ s, s) (sample_settings 10 0 20) (ToPage 2) true) in
  _iDisplayStart s = JInt 20 ∧ fnDisplayEnd s = JInt 20 ∧ fnRecordsDisplay s = JInt 20.
Proof. vm_compute. done. Qed.

(** ** The numbers of the pager *)

Definition nums (l : list page_button) : list Z :=
  omap (λ b, match b with PNum n => Some n | PEllipsis => None end) l.

Lemma nums_app l l' : nums (l ++ l') = nums l ++ nums l'.
Proof. apply omap_app. Qed.
Lemma nums_fmap l : nums (PNum <$> l) = l.
Proof. induction l as [|n l IH]; [done|]. cbn. by rewrite <- IH at 2. Qed.

Lemma seqZ_sorted a n : StronglySorted Z.lt (seqZ a n).
Proof.
  destruct (Z.le_gt_cases n 0) as [H|H]; [rewrite seqZ_nil by done; constructor|].
  revert a. pattern n. apply Zlt_0_ind; [|lia]. clear n H. intros n IH Hn a.
  destruct (Z.eq_dec n 0) as [->|]; [constructor|]. rewrite seqZ_cons by lia. constructor.
  - apply IH. lia.
  - apply Forall_forall. intros x Hx%elem_of_seqZ. lia.
Qed.

Lemma sorted_app l l' :
  StronglySorted Z.lt l → StronglySorted Z.lt l' → (∀ x y, x ∈ l → y ∈ l' → x < y) →
  StronglySorted Z.lt (l ++ l').
Proof.
  induction 1 as [|x l Hl IH Hx]; intros Hl' H; [done|]. cbn. constructor.
  - apply IH; [done|]. intros; apply H; [by right|done].
  - apply Forall_app. split; [done|]. apply Forall_forall. intros y Hy. apply H; [by left|done].
Qed.

(** With an odd number of buttons, at least five, the pager lists the first, the last and
    the current page, in increasing order and only pages that exist, and takes exactly
    [numbers_length] places when there are more pages than that, one per page otherwise. *)
Theorem numbers_correct n page pages :
  Z.odd n = true → 5 ≤ n → 0 ≤ page < pages →
  let l := _numbers n page pages in
  0 ∈ nums l ∧ page ∈ nums l ∧ pages - 1 ∈ nums l
  ∧ StronglySorted Z.lt (nums l) ∧ (∀ p, p ∈ nums l → 0 ≤ p < pages)
  ∧ Z.of_nat (length l) = Z.min n pages.
Proof.
  intros Ho Hn Hp. rewrite Zodd_mod in Ho. apply Z.eqb_eq in Ho.
  assert (n = 2 * (n / 2) + 1) as Hh by (pose proof (Z.div_mod n 2); lia).
  set (h := n / 2) in *. unfold _numbers. fold h.
  destruct (Z.leb_spec pages n); [|destruct (Z.leb_spec page h); [|destruct (Z.leb_spec (pages - 1 - h) page)]];
    cbn zeta; unfold _range; rewrite ?nums_app, ?length_app, ?length_fmap, ?nums_fmap, ?length_seqZ;
    cbn [length nums omap list_omap]; rewrite ?app_nil_r.
  - split_and!; try (apply elem_of_seqZ; lia); [apply seqZ_sorted|intros p Hq%elem_of_seqZ; lia|lia].
  - split_and!; try (apply elem_of_app; left; apply elem_of_seqZ; lia); [set_solver| | |lia].
    + apply sorted_app; [apply seqZ_sorted|repeat constructor|].
      intros x y Hx%elem_of_seqZ ->%list_elem_of_singleton. lia.
    + intros p [Hq%elem_of_seqZ| ->%list_elem_of_singleton]%elem_of_app; lia.
  - split_and!; try (apply elem_of_app; right; apply elem_of_seqZ; lia); [set_solver| | |lia].
    + apply (sorted_app [0]); [repeat constructor|apply seqZ_sorted|].
      intros x y ->%list_elem_of_singleton Hx%elem_of_seqZ. lia.
    + intros p [ ->%list_elem_of_singleton|Hq%elem_of_seqZ]%elem_of_app; lia.
  - split_and!; [set_solver|apply elem_of_app; right; apply elem_of_app; left; apply elem_of_seqZ; lia|set_solver| | |lia].
    + apply (sorted_app [0]); [repeat constructor| |].
      * apply sorted_app; [apply seqZ_sorted|repeat constructor|].
        intros x y Hx%elem_of_seqZ ->%list_elem_of_singleton. lia.
      * intros x y ->%list_elem_of_singleton [Hy%elem_of_seqZ| ->%list_elem_of_singleton]%elem_of_app; lia.
    + intros p [ ->%list_elem_of_singleton|[Hq%elem_of_seqZ| ->%list_elem_of_singleton]%elem_of_app]%elem_of_app; lia.
Qed.

Example numbers_correct_witness :
  0 ∈ nums (_numbers 7 10 20) ∧ Z.of_nat (length (_numbers 7 10 20)) = 7.
Proof.
  destruct (numbers_correct 7 10 20 eq_refl) as (H & _ & _ & _ & _ & H'); [lia|lia|]. by split.
Defined.

(** ** The links of the pager do what they show *)

Fixpoint links (n : pager_node) : list (jstring * page_action) :=
  match n with
  | PLink _ cls _ a => [(cls, a)]
  | PDots => []
  | PSpan l => flat_map links l
  end.

(** The class of a link that moves the window, and of one that leaves it where it is. *)
Definition link_class (c : pager_classes) (moves : bool) (a : page_action) : jstring :=
  sPageButton c ++ " "%js ++
  match a with
  | Action b => b ++ if moves then [] else " "%js ++ sPageButtonDisabled c
  | ToPage _ => if moves then [] else sPageButtonActive c
  end.

Section pager_links.
Variable c : pager_classes.
Variables (s : settings) (R len st : Z).
Hypotheses (HR : fnRecordsDisplay s = JInt R) (Hl : _iDisplayLength s = JInt len)
  (Hs : _iDisplayStart s = JInt st).
Hypotheses (Hw : window_ok R len st) (Hlen : 0 < len) (HR0 : 0 < R).

Definition page : Z := st / len.
Definition pages : Z := - (- R / len).

Lemma start_page : st = page * len ∧ 0 ≤ page < pages ∧ (pages - 1) * len < R ≤ pages * len.
Proof.
  destruct Hw as [H0 [[? _]|(H1 & H2 & [k Hk] & H4)]]; [lia|]. unfold page, pages.
  assert (st / len = k) as -> by (rewrite Hk; apply Z.div_mul; lia).
  pose proof (Z.div_mod (- R) len ltac:(lia)) as Hd. pose proof (Z.mod_pos_bound (- R) len Hlen).
  split; [lia|]. split; nia.
Qed.

Lemma pager_pages_eq : pager_pages s = (JInt page, JInt pages).
Proof.
  destruct start_page as (H1 & _ & _). unfold pager_pages. rewrite HR, Hl, Hs. cbn [jeq jceil_div].
  destruct (Z.eqb_spec len (-1)); [lia|]. destruct (Z.eqb_spec len 0); [lia|]. do 2 f_equal.
  rewrite H1 at 1. rewrite <- Z.mul_opp_l, Z.div_mul by lia. lia.
Qed.

(** Whether an action moves the window. *)
Definition moves (a : page_action) : bool := bool_decide (page_start s a ≠ (JInt st, true)).

Lemma moves_number n : 0 ≤ n < pages → pager_action R len (ToPage n) ∧ moves (ToPage n) = negb (page =? n).
Proof.
  destruct start_page as (H1 & H2 & H3). intros Hn. assert (n * len < R) by nia. split; [cbn; lia|].
  unfold moves, page_start. rewrite HR, Hl. cbn [jeq jmul jlt].
  destruct (Z.eqb_spec R 0); [lia|]. destruct (Z.eqb_spec len (-1)); [lia|]. cbn [orb].
  destruct (Z.ltb_spec R (n * len)); [lia|].
  destruct (Z.eqb_spec page n) as [<-|Hne]; cbn [negb].
  - apply bool_decide_eq_false_2. intros H'. apply H'. by rewrite <- H1.
  - apply bool_decide_eq_true_2. intros [= H']. nia.
Qed.

Lemma start_named :
  page_start s (Action "first"%js) = (JInt 0, true)
  ∧ page_start s (Action "previous"%js) = (JInt (Z.max 0 (st - len)), true)
  ∧ page_start s (Action "next"%js) = (JInt (if st + len <? R then st + len else st), true)
  ∧ page_start s (Action "last"%js) = (JInt ((pages - 1) * len), true).
Proof.
  destruct start_page as (H1 & H2 & H3).
  assert (∀ b, page_start s (Action b) = _) as Hn by (intros b; apply (page_start_named s R len st b HR Hl Hs); lia).
  rewrite !Hn. assert ((0 <=? len) = true) as Hle by lia. assert ((len =? 0) = false) as Hz by lia.
  assert ((R - 1) / len = pages - 1) as Hlast.
  { symmetry. apply (Z.div_unique _ _ _ (R - 1 - (pages - 1) * len)); [left; nia|lia]. }
  split_and!; [reflexivity| |reflexivity|].
  - transitivity (JInt (if 0 <=? len then Z.max 0 (st - len) else 0), true); [reflexivity|by rewrite Hle].
  - transitivity (jmul (jfloor_div (JInt (R - 1)) (JInt len)) (JInt len), true); [reflexivity|].
    cbn [jfloor_div]. by rewrite Hz, Hlast.
Qed.

Lemma moves_iff a st' : page_start s a = (JInt st', true) → moves a = negb (st' =? st).
Proof.
  intros H. unfold moves. rewrite H. destruct (Z.eqb_spec st' st) as [->|Hne]; cbn [negb].
  - by apply bool_decide_eq_false_2; intros [].
  - apply bool_decide_eq_true_2. congruence.
Qed.

Lemma moves_back b : b = "first"%js ∨ b = "previous"%js → moves (Action b) = (0 <? page).
Proof.
  destruct start_page as (H1 & H2 & H3), start_named as (N1 & N2 & _ & _).
  intros [-> | ->]; erewrite moves_iff by eassumption; destruct (Z.ltb_spec 0 page);
    match goal with |- negb ?b = _ => destruct b eqn:E end; cbn [negb]; (done || (exfalso; nia)).
Qed.

Lemma moves_on b : b = "next"%js ∨ b = "last"%js → moves (Action b) = (page <? pages - 1).
Proof.
  destruct start_page as (H1 & H2 & H3), start_named as (_ & _ & N3 & N4).
  intros [-> | ->]; erewrite moves_iff by eassumption; [destruct (Z.ltb_spec (st + len) R)|];
    destruct (Z.ltb_spec page (pages - 1));
    match goal with |- negb ?b = _ => destruct b eqn:E end; cbn [negb]; (done || (exfalso; nia)).
Qed.

Definition live (l : jstring * page_action) : Prop :=
  pager_action R len l.2 ∧ l.1 = link_class c (moves l.2) l.2.

Lemma number_nodes_live l k :
  (∀ n, n ∈ nums l → 0 ≤ n < pages) → Forall live (flat_map links (number_nodes c page l k).1).
Proof.
  revert k. induction l as [|[n|] l IH]; intros k H; [constructor| |].
  - cbn [number_nodes number_node link]. specialize (IH (S k)).
    destruct (number_nodes c page l (S k)) as [ns k']. cbn [fst flat_map links app] in *. constructor.
    + destruct (moves_number n) as [H1 H2]; [apply H; by left|]. split; [done|]. cbn [fst snd].
      unfold link_class. rewrite H2. by destruct (page =? n).
    + apply IH. intros m Hm. apply H. by right.
  - cbn [number_nodes number_node]. specialize (IH k). destruct (number_nodes c page l k) as [ns k'].
    cbn [fst flat_map links app] in *. by apply IH.
Qed.
End pager_links.

Lemma attach_Forall (P : jstring * page_action → Prop) c p q l k :
  (∀ i k, i ∈ l → Forall P (links (item_node c p q i k).1)) → Forall P (flat_map links (attach c p q l k)).
Proof.
  revert k. induction l as [|i l IH]; intros k H; [constructor|]. cbn [attach].
  pose proof (H i k ltac:(by left)) as Hi. destruct (item_node c p q i k) as [n k']. cbn [flat_map].
  apply Forall_app. split; [exact Hi|]. apply IH. intros j k2 Hj. apply H. by right.
Qed.

(** In the pager with the names and the numbers, every link is bound to an action that keeps
    the window on a page, and it has the class of a disabled or of the active button exactly when
    its action would leave the window where it is. *)
Theorem pager_links_live c s R len st n :
  fnRecordsDisplay s = JInt R → _iDisplayLength s = JInt len → _iDisplayStart s = JInt st →
  window_ok R len st → 0 < len → 0 < R → Z.odd n = true → 5 ≤ n →
  ∃ page pages, pager_pages s = (JInt page, JInt pages)
    ∧ Forall (λ l, pager_action R len l.2 ∧ l.1 = link_class c (moves s st l.2) l.2)
        (flat_map links (pageButton c page pages (full_numbers n page pages))).
Proof.
  intros HR Hl Hs Hw Hlen HR0 Ho Hn. exists (page len st), (pages R len).
  split; [by apply pager_pages_eq|].
  destruct (start_page R len st Hw Hlen HR0) as (_ & Hp & _).
  destruct (numbers_correct n (page len st) (pages R len) Ho Hn Hp) as (_ & _ & _ & _ & Hr & _).
  pose proof (number_nodes_live c s R len st HR Hl Hw Hlen HR0) as Hnum.
  pose proof (moves_back s R len st HR Hl Hs Hw Hlen HR0) as Hback.
  pose proof (moves_on s R len st HR Hl Hs Hw Hlen HR0) as Hon.
  set (p := page len st) in *. set (q := pages R len) in *.
  assert (∀ b x, b ∈ ["first"%js; "previous"%js; "next"%js; "last"%js] → moves s st (Action b) = x →
    Forall (λ l, pager_action R len l.2 ∧ l.1 = link_class c (moves s st l.2) l.2)
      [(sPageButton c ++ " "%js ++ (b ++ disabled_unless c x), Action b)]) as Hlink.
  { intros b x Hin <-. constructor; [|constructor]. split; [done|]. cbn [fst snd link_class]. by destruct (moves _ _ _). }
  apply attach_Forall. intros i k Hi.
  repeat (apply elem_of_cons in Hi as [->|Hi]); [| | | | |by apply elem_of_nil in Hi].
  - apply (Hlink "first"%js); [set_solver|apply Hback; by left].
  - apply (Hlink "previous"%js); [set_solver|apply Hback; by right].
  - cbn [item_node]. specialize (Hnum _ k Hr). by destruct (number_nodes c p _ k).
  - apply (Hlink "next"%js); [set_solver|apply Hon; by left].
  - apply (Hlink "last"%js); [set_solver|apply Hon; by right].
Qed.

Example pager_links_live_witness :
  let c := PagerClasses "pb"%js "on"%js "off"%js [] [] [] [] in
  let s := sample_settings 10 20 95 in
  ∃ page pages, pager_pages s = (JInt page, JInt pages)
    ∧ Forall (λ l, pager_action 95 10 l.2 ∧ l.1 = link_class c (moves s 20 l.2) l.2)
        (flat_map links (pageButton c page pages (full_numbers 7 page pages))).
Proof.
  intros c s. apply (pager_links_live c s 95 10 20 7 eq_refl eq_refl eq_refl);
    [|lia|lia|reflexivity|lia]. split; [lia|right]. split_and!; [lia|lia|by exists 2|lia].
Defined.
