(* ===== verification/DtPath.v ===== *)
(** * Data sources of columns (jquery.dataTables.js, "data")

    The notation for nested data: a path of properties separated by periods, array notation that
    collects a property of every element, and objects with a source per kind of request.  A getter
    reads the data of a row, a setter gives the data after the assignment.  [None] stands for an
    exception. *)

From S2P Require Import Prelude JsString JsObject JsNumber JsValue DtUtil.

(** ** Properties of values *)

Definition prop (v : val) (k : jstring) : option val :=
  if nullish v then None else Some (get_prop v k).

(** [v[k] = x], in strict mode: a primitive throws.  Arrays take indices only here. *)
Definition set_prop (v : val) (k : jstring) (x : val) : option val :=
  match v with
  | VObj o => Some (VObj (obj_set k x o))
  | VArr l =>
      match array_index k with
      | Some i =>
          let i := N.to_nat i in
          Some (VArr (if bool_decide (i < length l) then <[i := x]> l
                      else l ++ replicate (i - length l) VUndef ++ [x]))
      | None => None
      end
  | _ => None
  end.

(** ** The notation *)

(** [str.match(/(\\.|[^\.])+/g)]: the pieces between periods that no backslash escapes. *)
Fixpoint path_pieces (s cur : jstring) : list jstring :=
  let done_ := match cur with [] => [] | _ => [rev cur] end in
  match s with
  | [] => done_
  | u :: t =>
      if (u =? 92)%N then
        match t with
        | c :: t' => if line_end c then path_pieces t (u :: cur) else path_pieces t' (c :: u :: cur)
        | [] => path_pieces t (u :: cur)
        end
      else if (u =? 46)%N then done_ ++ path_pieces t []
      else path_pieces t (u :: cur)
  end.

(** [s.replace(/\\./g, '.')] *)
Fixpoint unescape_dots (s : jstring) : jstring :=
  match s with
  | [] => []
  | u :: t =>
      if (u =? 92)%N then
        match t with
        | c :: t' => if line_end c then u :: unescape_dots t else 46%N :: unescape_dots t'
        | [] => [u]
        end
      else u :: unescape_dots t
  end.

Definition _fnSplitObjNotation (str : jstring) : list jstring :=
  match path_pieces str [] with [] => [[]] | l => unescape_dots <$> l end.

(** [__reArray]: brackets at the end on one line; what is before them and between them. *)
Fixpoint __reArray (s : jstring) : option (jstring * jstring) :=
  match s with
  | [] => None
  | u :: t =>
      if (u =? 91)%N && bool_decide (last t = Some 93%N) && forallb (λ u, negb (line_end u)) (removelast t)
      then Some ([], removelast t)
      else match __reArray t with Some (a, j) => Some (u :: a, j) | None => None end
  end.

(** [__reFn]: parentheses at the end; what is before them. *)
Definition __reFn (s : jstring) : option jstring :=
  if bool_decide (drop (length s - 2) s = "()"%js) then Some (take (length s - 2) s) else None.

Example notation_ex :
  _fnSplitObjNotation "a.b\.c..d"%js = ["a"%js; "b.c"%js; "d"%js]
  ∧ __reArray "a[, ]"%js = Some ("a"%js, ", "%js) ∧ __reFn "get()"%js = Some "get"%js.
Proof. vm_compute. auto. Qed.

Definition nested (src : jstring) : bool := contains "."%js src || contains "["%js src || contains "("%js src.

(** ** Getters *)

(** A data source.  A falsy one in an object of sources is skipped. *)
#[warnings="-register-all"]
Inductive msource :=
  | MNull
  | MFun (get : val → option jstring → option val) (set : val → val → option val)
  | MStr (s : jstring)
  | MVal (v : val)                             (* any other value, a property name *)
  | MObj (o : list (jstring * msource)).

Definition msource_truthy (m : msource) : bool :=
  match m with MNull => false | MFun _ _ | MObj _ => true | MStr s => negb (s =s? []) | MVal v => truthy v end.

Section path.
(** Methods of the data: [data[name]()] and, for setters, the data after the rest of the path from
    a call on. *)
Variable call_method : val → jstring → option val.
Variable call_set : val → list jstring → val → option val.

Definition join_vals (sep : jstring) (l : list val) : jstring :=
  join sep ((λ v, if nullish v then [] else to_string v) <$> l).

Fixpoint fetch_steps (inner : val → jstring → option val) (a : list jstring) (data : val) : option val :=
  match a with
  | [] => Some data
  | p :: rest =>
      match __reArray p, __reFn p with
      | Some (name, jn), _ =>
          data ← (if name =s? [] then Some data else prop data name);
          out ← match data with VArr l => mapM (λ v, inner v (join "."%js rest)) l | _ => Some [] end;
          Some (if jn =s? [] then VArr out else VStr (join_vals jn out))
      | None, Some name => data ← call_method data name; fetch_steps inner rest data
      | None, None =>
          match data with
          | VNull => Some VUndef
          | _ => v ← prop data p; if is_undef v then Some VUndef else fetch_steps inner rest v
          end
      end
  end.

(** The fuel is more than the length of [src]. *)
Fixpoint fetchData (fuel : nat) (data : val) (src : jstring) : option val :=
  match fuel with
  | O => None
  | S n => if src =s? [] then Some data else fetch_steps (fetchData n) (_fnSplitObjNotation src) data
  end.

Fixpoint _fnGetObjectDataFn (mSource : msource) : val → option jstring → option val :=
  match mSource with
  | MObj o =>
      let o := flat_map (λ km : jstring * msource,
                           if msource_truthy km.2 then [(km.1, _fnGetObjectDataFn km.2)] else []) o in
      λ data type,
        match obj_get (default "undefined"%js type) o, obj_get "_"%js o with
        | Some t, _ | None, Some t => t data type
        | None, None => Some data
        end
  | MNull => λ data _, Some data
  | MFun get _ => get
  | MStr s => if nested s then λ data _, fetchData (S (length s)) data s else λ data _, prop data s
  | MVal v => λ data _, prop data (to_string v)
  end.

(** ** Setters *)

Definition strip_array (p : jstring) : jstring := match __reArray p with Some (name, _) => name | None => p end.

Fixpoint set_steps (inner : val → val → jstring → option val) (a : list jstring) (data v : val) : option val :=
  match a with
  | [] => None
  | [aLast] =>
      match __reFn aLast with
      | Some _ => call_set data a v
      | None => set_prop data (strip_array aLast) v
      end
  | p :: rest =>
      match __reArray p, __reFn p with
      | Some (name, _), _ =>
          match v with
          | VArr l => objs ← mapM (λ x, inner (VObj []) x (join "."%js rest)) l; set_prop data name (VArr objs)
          | _ => set_prop data name v
          end
      | None, Some _ => call_set data a v
      | None, None =>
          cur ← prop data p;
          child ← set_steps inner rest (if nullish cur then VObj [] else cur) v;
          set_prop data p child
      end
  end.

Fixpoint setData (fuel : nat) (data v : val) (src : jstring) : option val :=
  match fuel with
  | O => None
  | S n => set_steps (setData n) (_fnSplitObjNotation src) data v
  end.

Fixpoint _fnSetObjectDataFn (mSource : msource) : val → val → option val :=
  match mSource with
  | MObj o =>
      (fix find (o : list (jstring * msource)) : val → val → option val :=
         match o with
         | [] => λ data v, set_prop data "undefined"%js v
         | (k, m) :: o => if k =s? "_"%js then _fnSetObjectDataFn m else find o
         end) o
  | MNull => λ data _, Some data
  | MFun _ set => set
  | MStr s => if nested s then λ data v, setData (S (length s)) data v s else λ data v, set_prop data s v
  | MVal k => λ data v, set_prop data (to_string k) v
  end.
End path.

(** ** What can be set and read back *)

Definition is_fn (p : jstring) : bool := match __reFn p with Some _ => true | None => false end.

(** The rest of a path is the same after it is joined and split again: no property has a period. *)
Definition resplits (rest : list jstring) : bool :=
  negb (join "."%js rest =s? []) && bool_decide (_fnSplitObjNotation (join "."%js rest) = rest).

(** The value has an array wherever the path has array notation; no method is called. *)
Fixpoint fits (a : list jstring) (v : val) : bool :=
  match a with
  | [] => true
  | p :: rest =>
      negb (is_fn p)
      && match __reArray p with
         | Some (name, jn) =>
             (jn =s? []) && negb (name =s? []) && (bool_decide (rest = []) || resplits rest)
             && match v with VArr l => forallb (fits rest) l | _ => false end
         | None => fits rest v
         end
  end.

Definition assignable (data : val) (k : jstring) : bool :=
  match data with
  | VObj _ => true
  | VArr l => match array_index k with Some i => bool_decide (N.to_nat i < length l) | None => false end
  | _ => false
  end.

(** Every value on the path is an object, an array with the element, or missing. *)
Fixpoint settable (a : list jstring) (data : val) : bool :=
  match a with
  | [] => false
  | [p] => assignable data (strip_array p)
  | p :: rest =>
      match __reArray p with
      | Some (name, _) => assignable data name
      | None => assignable data p
                && (let cur := get_prop data p in settable rest (if nullish cur then VObj [] else cur))
      end
  end.

(** ** Theorems *)

Lemma set_get_prop data k v :
  assignable data k = true →
  ∃ data', set_prop data k v = Some data' ∧ prop data' k = Some v ∧ nullish data' = false.
Proof.
  destruct data as [| | | | |l|o]; try done; cbn [assignable set_prop]; intros H.
  - destruct (array_index k) as [i|] eqn:Ei; [|done]. apply bool_decide_eq_true_1 in H as Hl. rewrite H.
    eexists. split_and!; [reflexivity| |done]. unfold prop. cbn [nullish get_prop].
    destruct (jeqb k "length"%js) eqn:Ek; [apply jeqb_true in Ek as ->; by vm_compute in Ei|].
    rewrite Ei. by rewrite list_lookup_insert_eq.
  - eexists. split_and!; [reflexivity| |done]. unfold prop. cbn [nullish get_prop].
    by rewrite obj_get_set, decide_True.
Qed.

Lemma assignable_prop data k : assignable data k = true → prop data k = Some (get_prop data k).
Proof. by destruct data. Qed.

Lemma settable_fresh a : a ≠ [] → settable a (VObj []) = true.
Proof.
  induction a as [|p [|q a] IH]; [done|done|]. intros _. cbn [settable].
  destruct (__reArray p) as [[name jn]|]; [done|]. cbn [get_prop obj_get default nullish assignable andb].
  by apply IH.
Qed.

Lemma unescape_length s : length (unescape_dots s) ≤ length s.
Proof.
  induction s as [s IH] using (induction_ltof1 _ length). unfold ltof in IH.
  destruct s as [|u [|c t]]; [done|cbn; by destruct (u =? 92)%N|].
  assert (unescape_dots (u :: c :: t) = if (u =? 92)%N then if line_end c then u :: unescape_dots (c :: t) else 46%N :: unescape_dots t
    else u :: unescape_dots (c :: t)) as -> by done.
  pose proof (IH (c :: t) ltac:(cbn; lia)). pose proof (IH t ltac:(cbn; lia)).
  destruct (u =? 92)%N; [destruct (line_end c)|]; cbn [length] in *; lia.
Qed.

Lemma join_cons sep x l : join sep (x :: l) = match l with [] => x | _ => x ++ sep ++ join sep l end.
Proof. by destruct l. Qed.

Lemma pieces_length s cur :
  length (join "."%js (unescape_dots <$> path_pieces s cur)) ≤ length cur + length s.
Proof.
  revert cur. induction s as [s IH] using (induction_ltof1 _ length). unfold ltof in IH. intros cur.
  assert (length (unescape_dots (rev cur)) ≤ length cur) as Hc by (rewrite <- (length_rev cur); apply unescape_length).
  destruct s as [|u t]; cbn [path_pieces].
  { destruct cur; cbn [fmap list_fmap join length] in *; lia. }
  destruct (u =? 92)%N.
  { destruct t as [|c t']; [pose proof (IH [] ltac:(cbn; lia) (u :: cur)); cbn [length] in *; lia|].
    destruct (line_end c).
    - pose proof (IH (c :: t') ltac:(cbn; lia) (u :: cur)). cbn [length] in *. lia.
    - pose proof (IH t' ltac:(cbn; lia) (c :: u :: cur)). cbn [length] in *. lia. }
  destruct (u =? 46)%N; [|pose proof (IH t ltac:(cbn; lia) (u :: cur)); cbn [length] in *; lia].
  pose proof (IH t ltac:(cbn; lia) []) as Ht. rewrite fmap_app. destruct cur as [|x cur]; [cbn [fmap list_fmap app length] in *; lia|].
  cbn [fmap list_fmap app]. rewrite join_cons. destruct (unescape_dots <$> path_pieces t []) eqn:E; cbn [fmap list_fmap] in *; rewrite ?E.
  all: rewrite ?length_app; cbn [length] in *; lia.
Qed.

Lemma split_length src : length (join "."%js (_fnSplitObjNotation src)) ≤ length src.
Proof.
  unfold _fnSplitObjNotation. pose proof (pieces_length src []) as H. destruct (path_pieces src []); [cbn; lia|exact H].
Qed.

Section round_trip.
Variable call_method : val → jstring → option val.
Variable call_set : val → list jstring → val → option val.
#[local] Abbreviation fetch := (fetchData call_method).
#[local] Abbreviation set_ := (setData call_set).

Lemma set_steps_cons inner p q rest data v :
  set_steps call_set inner (p :: q :: rest) data v
  = match __reArray p, __reFn p with
    | Some (name, _), _ =>
        match v with
        | VArr l => objs ← mapM (λ x, inner (VObj []) x (join "."%js (q :: rest))) l; set_prop data name (VArr objs)
        | _ => set_prop data name v
        end
    | None, Some _ => call_set data (p :: q :: rest) v
    | None, None =>
        cur ← prop data p;
        child ← set_steps call_set inner (q :: rest) (if nullish cur then VObj [] else cur) v;
        set_prop data p child
    end.
Proof. done. Qed.

(** What a path set with fuel [n] reads back. *)
Definition sets (n : nat) : Prop := ∀ src data v,
  length src < n → src ≠ [] → fits (_fnSplitObjNotation src) v = true → settable (_fnSplitObjNotation src) data = true →
  ∃ data', set_ n data v src = Some data' ∧ ∀ m, length src < m → fetch m data' src = Some v.

(** An array of values, set element by element. *)
Lemma set_elements n src l :
  sets n → length src < n → src ≠ [] →
  forallb (fits (_fnSplitObjNotation src)) l = true → settable (_fnSplitObjNotation src) (VObj []) = true →
  ∃ objs, mapM (λ x, set_ n (VObj []) x src) l = Some objs
    ∧ ∀ m, length src < m → mapM (λ o, fetch m o src) objs = Some l.
Proof.
  intros Hn Hl Hne Hf Hs. induction l as [|x l IH]; [by exists []|].
  cbn [forallb] in Hf. apply andb_true_iff in Hf as [Hx Hf]. destruct (IH Hf) as (objs & E & G).
  destruct (Hn src (VObj []) x Hl Hne Hx Hs) as (o & Eo & Go). exists (o :: objs). split.
  - cbn [mapM]. rewrite Eo. cbn [mbind option_bind]. by rewrite E.
  - intros m Hm. cbn [mapM]. rewrite Go by done. cbn [mbind option_bind]. by rewrite G.
Qed.

Lemma fetch_all m l : mapM (λ v, fetch (S m) v []) l = Some l.
Proof. induction l as [|v l IH]; [done|]. cbn [mapM fetchData]. cbn [jeqb bool_decide]. by cbn in *; rewrite IH. Qed.

Lemma array_nonempty p x : __reArray p = Some x → 0 < length p.
Proof. destruct p; [done|cbn; lia]. Qed.

Lemma set_steps_get n a data v :
  sets n → length (join "."%js a) ≤ n → a ≠ [] → fits a v = true → settable a data = true →
  ∃ data', set_steps call_set (set_ n) a data v = Some data' ∧ nullish data' = false
    ∧ (∀ m, length (join "."%js a) ≤ m → fetch_steps call_method (fetch m) a data' = Some v).
Proof.
  intros Hn. revert data v. induction a as [|p rest IH]; intros data v Hl Hne Hf Hs; [done|].
  cbn [fits] in Hf. apply andb_true_iff in Hf as [Hp Hf]. unfold is_fn in Hp. destruct (__reFn p) as [|] eqn:Ep; [done|]. clear Hp.
  destruct rest as [|q rest].
  - cbn [settable] in Hs. cbn [set_steps]. rewrite Ep.
    destruct (set_get_prop data (strip_array p) v Hs) as (d & E & G & Hd). exists d. split_and!; [done|done|].
    intros m Hm. cbn [fetch_steps]. rewrite Ep. unfold strip_array in *. destruct (__reArray p) as [[name jn]|] eqn:Ea.
    + destruct v as [| | | | |l|]; try (by rewrite andb_false_r in Hf).
      rewrite !andb_true_iff in Hf. destruct Hf as [[[->%jeqb_true Hname%negb_true_iff] _] _].
      rewrite Hname, G. cbn [mbind option_bind]. cbn [join] in *. apply array_nonempty in Ea.
      destruct m as [|m]; [lia|]. by rewrite fetch_all.
    + destruct d; try done; rewrite G; cbn [mbind option_bind]; by destruct v.
  - rewrite join_cons, !length_app in Hl. cbn [length] in Hl. cbn [settable] in Hs. rewrite set_steps_cons, Ep.
    destruct (__reArray p) as [[name jn]|] eqn:Ea.
    + destruct v as [| | | | |l|]; try (by rewrite andb_false_r in Hf).
      rewrite !andb_true_iff, orb_true_iff in Hf. destruct Hf as [[[->%jeqb_true Hname%negb_true_iff] [Hr|Hr]] Hf].
      { by apply bool_decide_eq_true_1 in Hr. }
      unfold resplits in Hr. apply andb_true_iff in Hr as [Hj%negb_true_iff%jeqb_false Hr%bool_decide_eq_true_1].
      rewrite <- Hr in Hf at 1.
      destruct (set_elements n (join "."%js (q :: rest)) l Hn) as (objs & E & G); [lia|done|done| |].
      { rewrite Hr. by apply settable_fresh. }
      rewrite E. cbn [mbind option_bind].
      destruct (set_get_prop data name (VArr objs) Hs) as (d & Ed & Gd & Hd). exists d. split_and!; [done|done|].
      intros m Hm. rewrite join_cons, !length_app in Hm. cbn [length] in Hm. cbn [fetch_steps]. rewrite Ea, Hname, Gd. cbn [mbind option_bind].
      rewrite G by lia. done.
    + apply andb_true_iff in Hs as [Ha Hs]. rewrite (assignable_prop _ _ Ha). cbn [mbind option_bind].
      destruct (IH (if nullish (get_prop data p) then VObj [] else get_prop data p) v) as (c & E & Hc & G); [lia|done|done|done|].
      rewrite E. cbn [mbind option_bind]. destruct (set_get_prop data p c Ha) as (d & Ed & Gd & Hd). exists d. split_and!; [done|done|].
      intros m Hm. rewrite join_cons, !length_app in Hm. cbn [length] in Hm. cbn [fetch_steps]. rewrite Ea, Ep.
      destruct d; try done; rewrite Gd; cbn [mbind option_bind]; destruct c; try done; apply G; lia.
Qed.

Lemma sets_all n : sets n.
Proof.
  induction n as [|n IH]; intros src data v Hl Hne Hf Hs; [lia|].
  pose proof (split_length src) as Hlen. assert (_fnSplitObjNotation src ≠ []) as Ha.
  { unfold _fnSplitObjNotation. destruct (path_pieces src []) eqn:E; [done|]. done. }
  destruct (set_steps_get n (_fnSplitObjNotation src) data v IH) as (d & E & _ & G); [lia|done|done|done|].
  exists d. split; [done|]. intros m Hm. destruct m as [|m]; [lia|]. cbn [fetchData].
  apply jeqb_false in Hne. rewrite Hne. apply G. lia.
Qed.
End round_trip.

Definition source_fits (m : msource) (v : val) : bool :=
  match m with MStr s => negb (nested s) || fits (_fnSplitObjNotation s) v | MVal _ => true | _ => false end.
Definition source_settable (m : msource) (data : val) : bool :=
  match m with
  | MStr s => if nested s then settable (_fnSplitObjNotation s) data else assignable data s
  | MVal k => assignable data (to_string k)
  | _ => false
  end.

(** C33: A value written through a data source of a column is read back through it, when every value on the path
    is an object, an array with that element, or missing (a primitive on the way is an exception), the path
    calls no methods and has no text for joining, and the value has an array wherever the path has array
    notation: for flat properties and array positions, for paths of nested properties with missing objects on
    the way, and for arrays of objects written element by element. *)
Theorem source_set_get call_method call_set m data v type :
  source_settable m data = true → source_fits m v = true →
  ∃ data', _fnSetObjectDataFn call_set m data v = Some data'
    ∧ _fnGetObjectDataFn call_method m data' type = Some v.
Proof.
  intros Hs Hf. destruct m as [| |s|k|]; try done; cbn [source_settable source_fits _fnSetObjectDataFn _fnGetObjectDataFn] in *.
  - destruct (nested s) eqn:En; cbn [negb orb] in Hf; [|destruct (set_get_prop data s v Hs) as (d & -> & G & _); by exists d].
    destruct (sets_all call_method call_set (S (length s)) s data v) as (d & E & G); [lia|by intros ->|done|done|].
    exists d. split; [done|]. apply G. lia.
  - destruct (set_get_prop data (to_string k) v Hs) as (d & -> & G & _). by exists d.
Qed.

Example source_set_get_witness :
  let v := VArr [VStr "a"%js; VNull] in
  ∃ d, _fnSetObjectDataFn (λ _ _ _, None) (MStr "host.ports[].name"%js) (VObj [("id"%js, VStr "7"%js)]) v = Some d
    ∧ _fnGetObjectDataFn (λ _ _, None) (MStr "host.ports[].name"%js) d None = Some v.
Proof. intros v. apply source_set_get; vm_compute; reflexivity. Defined.

(** Escaped periods are lost behind array notation: the rest of the path is joined and split again. *)
Example array_escape_lost :
  _fnGetObjectDataFn (λ _ _, None) (MStr "rows[].a\.b"%js)
    (VObj [("rows"%js, VArr [VObj [("a.b"%js, VStr "x"%js)]])]) None = Some (VArr [VUndef]).
Proof. vm_compute. reflexivity. Qed.
