(* ===== verification/DtData.v ===== *)
(** * The rows of a table (jquery.dataTables.js, "data" and the API of rows)

    Adding, removing and invalidating rows, with the arrays of row indices that the sort and the
    search keep.  Rows come from data; rows read from the page are not modelled. *)

From S2P Require Import Prelude JsString JsObject JsNumber JsValue JsInt DtUtil DtModel DtTypes DtPage.

(** ** Index arrays *)

(** The last position of a value. *)
Fixpoint last_index (iTarget : nat) (a : list nat) : option nat :=
  match a with
  | [] => None
  | x :: a => match last_index iTarget a with
              | Some i => Some (S i)
              | None => if bool_decide (x = iTarget) then Some 0 else None
              end
  end.

(** [_fnDeleteIndex(a, iTarget, splice)]; [splice]: the argument is given, the target stays. *)
Definition _fnDeleteIndex (a : list nat) (iTarget : nat) (splice : bool) : list nat :=
  let iTargetIndex := last_index iTarget a in
  let a := (λ x, if bool_decide (x = iTarget) then x else if bool_decide (iTarget < x) then x - 1 else x) <$> a in
  match iTargetIndex with
  | Some i => if splice then a else delete i a
  | None => a
  end.

Definition _fnClearTable (s : settings) : settings :=
  set_aIds [] (set_aiDisplay [] (set_aiDisplayMaster [] (set_aoData [] s))).

Section rows.
Variable rowIdFn : val → option jstring.       (* the id of a row's data *)

(** ** Nodes *)

(** The content of the cells of a new node is read for each column, unless the column takes it
    from the node. *)
Fixpoint create_cells (rowIdx : nat) (cols : list (nat * column)) (s : settings) : option settings :=
  match cols with
  | [] => Some s
  | (i, col) :: cols =>
      s ← (match mData col with
           | VObj o => match obj_get "_"%js o with
                       | Some (VStr t) => if t =s? str_of_nat i ++ ".display"%js then Some s
                                          else '(_, s) ← _fnGetCellData s rowIdx i (Some "display"%js); Some s
                       | _ => '(_, s) ← _fnGetCellData s rowIdx i (Some "display"%js); Some s
                       end
           | _ => '(_, s) ← _fnGetCellData s rowIdx i (Some "display"%js); Some s
           end);
      create_cells rowIdx cols s
  end.

Definition _fnCreateTr (iRow : nat) (s : settings) : option settings :=
  r ← aoData s !! iRow;
  if nTr r then Some s
  else create_cells iRow (imap pair (aoColumns s)) (upd_row iRow (set_nTr true) s).

(** ** Adding rows *)

Definition oRow (aData : val) : row := Row aData None None [] false [].

Definition _fnAddData (aDataIn : val) (s : settings) : option (nat * settings) :=
  let iRow := length (aoData s) in
  let s := set_aoData (aoData s ++ [oRow aDataIn]) s in
  let s := set_aoColumns (set_sType None <$> aoColumns s) s in
  let s := set_aiDisplayMaster (aiDisplayMaster s ++ [iRow]) s in
  let s := match rowIdFn aDataIn with Some id => set_aIds (obj_set id (Some iRow) (aIds s)) s | None => s end in
  s ← (if negb (bDeferRender s) then _fnCreateTr iRow s else Some s);
  Some (iRow, s).

(** [rows.add()] with data *)
Fixpoint rows_add (rows : list val) (s : settings) : option (list nat * settings) :=
  match rows with
  | [] => Some ([], s)
  | d :: rows => '(i, s) ← _fnAddData d s; '(out, s) ← rows_add rows s; Some (i :: out, s)
  end.

(** ** Removing rows *)

(** What the objects behind [aIds] are after the row [i] is removed: its entry refers to no row of
    the table any more. *)
Definition drop_row_id (i : nat) (e : jstring * option nat) : jstring * option nat :=
  match e with
  | (id, Some k) => (id, if bool_decide (k = i) then None else Some (if bool_decide (i < k) then k - 1 else k))
  | (id, None) => (id, None)
  end.

(** The body of the loop of [rows().remove()] for one row. *)
Definition remove_row (row : nat) (s : settings) : option settings :=
  rowData ← aoData s !! row;
  let s := set_aoData (delete row (aoData s)) s in
  let s := set_aiDisplayMaster (_fnDeleteIndex (aiDisplayMaster s) row false) s in
  let s := set_aiDisplay (_fnDeleteIndex (aiDisplay s) row false) s in
  let s := _fnLengthOverflow s in
  let ids := drop_row_id row <$> aIds s in
  Some (set_aIds (match rowIdFn (_aData rowData) with Some id => filter (λ e, e.1 ≠ id) ids | None => ids end) s).

(** [rows().remove()]: the selected rows in turn; the indices still to come are kept up to date in
    the selection itself. *)
Fixpoint rows_remove (j n : nat) (items : list nat) (s : settings) : option settings :=
  match n with
  | O => Some s
  | S n =>
      row ← items !! j;
      s ← remove_row row s;
      rows_remove (S j) n (_fnDeleteIndex items row true) s
  end.

(** ** Changed rows *)

(** [_fnInvalidate] for a row whose source is data; [cells]: the contents that are written. *)
Fixpoint write_cells (rowIdx : nat) (cols : list nat) (s : settings) : option settings :=
  match cols with
  | [] => Some s
  | i :: cols => '(_, s) ← _fnGetCellData s rowIdx i (Some "display"%js); write_cells rowIdx cols s
  end.

Definition _fnInvalidate (rowIdx : nat) (colIdx : option nat) (s : settings) : option settings :=
  r ← aoData s !! rowIdx;
  s ← (if nTr r then
         write_cells rowIdx (match colIdx with Some c => [c] | None => seq 0 (length (aoColumns s)) end) s
       else Some s);
  let s := upd_row rowIdx (λ r, set_aFilterData None (set_aSortData None r)) s in
  match colIdx with
  | Some c => col ← aoColumns s !! c; Some (upd_column c (set_sType None) s)
  | None => Some (set_aoColumns (set_sType None <$> aoColumns s) s)
  end.

(** [row().data(data)] *)
Definition row_data_set (rowIdx : nat) (data : val) (s : settings) : option settings :=
  r ← aoData s !! rowIdx;
  let s := upd_row rowIdx (λ r, Row data (_aSortData r) (_aFilterData r) (_sFilterRow r) (nTr r) (_sRowStripe r)) s in
  _fnInvalidate rowIdx None s.
End rows.

(** ** Removing keeps the other rows, in order *)

Lemma filter_keep {A} (P : A → Prop) `{∀ x, Decision (P x)} (l : list A) : (∀ x, x ∈ l → P x) → filter P l = l.
Proof.
  induction l as [|x l IH]; intros Hl; [done|]. rewrite filter_cons_True by (apply Hl; by left).
  f_equal. apply IH. intros y Hy. apply Hl. by right.
Qed.

(** Where an index goes when the row [r] is removed. *)
Definition shift (r x : nat) : nat := if bool_decide (r < x) then x - 1 else x.

Lemma shift_inj r x y : x ≠ r → y ≠ r → shift r x = shift r y → x = y.
Proof. unfold shift. repeat case_bool_decide; lia. Qed.

Lemma shift_lookup {A} (data : list A) r x : x ≠ r → r < length data → delete r data !! shift r x = data !! x.
Proof.
  intros Hx Hr. unfold shift. case_bool_decide.
  - rewrite list_lookup_delete_ge by lia. by replace (S (x - 1)) with x by lia.
  - by rewrite list_lookup_delete_lt by lia.
Qed.

Lemma last_index_none r l : r ∉ l → last_index r l = None.
Proof.
  induction l as [|x l IH]; [done|]. rewrite not_elem_of_cons. intros [Hx H]. cbn [last_index].
  rewrite IH by done. by rewrite bool_decide_eq_false_2.
Qed.

Lemma last_index_middle r l1 l2 : r ∉ l2 → last_index r (l1 ++ r :: l2) = Some (length l1).
Proof.
  intros H. induction l1 as [|x l1 IH]; cbn [app last_index].
  - rewrite last_index_none by done. by rewrite bool_decide_eq_true_2.
  - by rewrite IH.
Qed.

Definition shifted (r x : nat) : nat := if bool_decide (x = r) then x else shift r x.

Lemma shifted_others r (l : list nat) : r ∉ l → shifted r <$> l = shift r <$> filter (.≠ r) l.
Proof.
  induction l as [|x l IH]; [done|]. rewrite not_elem_of_cons. intros [Hx H].
  rewrite filter_cons_True by done. cbn [fmap list_fmap]. rewrite <- IH by done. f_equal.
  unfold shifted. by rewrite bool_decide_eq_false_2.
Qed.

Lemma delete_index_spec a r : NoDup a → _fnDeleteIndex a r false = shift r <$> filter (.≠ r) a.
Proof.
  intros Hn. unfold _fnDeleteIndex. change (λ x : nat, if bool_decide (x = r) then x else if bool_decide (r < x) then x - 1 else x) with (shifted r). destruct (decide (r ∈ a)) as [Hin|Hin].
  - apply list_elem_of_split in Hin as (l1 & l2 & ->). apply NoDup_app in Hn as (_ & H1 & Hn2).
    apply NoDup_cons in Hn2 as [H2 _]. assert (r ∉ l1) as H1' by (intros H; apply (H1 r H); by left).
    rewrite last_index_middle by done. rewrite filter_app, filter_cons_False by naive_solver.
    rewrite !fmap_app, fmap_cons, <- (length_fmap (shifted r) l1), delete_middle.
    f_equal; by apply shifted_others.
  - rewrite last_index_none by done. by apply shifted_others.
Qed.

Lemma delete_index_kept a r : _fnDeleteIndex a r true = shifted r <$> a.
Proof. unfold _fnDeleteIndex. by destruct (last_index r a). Qed.

(** The display arrays of a table: the master array has every row once, the other array some of
    the rows once. *)
Record table_wf (s : settings) : Prop := {
  wf_master : aiDisplayMaster s ≡ₚ seq 0 (length (aoData s));
  wf_display : NoDup (aiDisplay s);
  wf_shown : Forall (λ i, i < length (aoData s)) (aiDisplay s)
}.

Lemma wf_master_NoDup s : table_wf s → NoDup (aiDisplayMaster s).
Proof. intros [H _ _]. rewrite H. apply NoDup_ListNoDup, seq_NoDup. Qed.

(** The rows that an array of indices stands for. *)
Definition rows_of (data : list row) (l : list nat) : list (option row) := (λ i, data !! i) <$> l.

Lemma rows_of_seq data : rows_of data (seq 0 (length data)) = Some <$> data.
Proof.
  apply list_eq. intros i. unfold rows_of. rewrite !list_lookup_fmap.
  destruct (decide (i < length data)) as [H|H].
  - rewrite lookup_seq_lt by done. cbn. by destruct (lookup_lt_is_Some_2 data i H) as [r ->].
  - rewrite lookup_seq_ge by lia. cbn. by rewrite lookup_ge_None_2 by lia.
Qed.

Lemma rows_of_step data r rest l :
  r < length data → r ∉ rest →
  rows_of (delete r data) (filter (.∉ shift r <$> rest) (shift r <$> filter (.≠ r) l))
  = rows_of data (filter (.∉ r :: rest) l).
Proof.
  intros Hr Hrest. induction l as [|x l IH]; [done|]. destruct (decide (x = r)) as [->|Hx].
  - rewrite filter_cons_False by naive_solver. rewrite (filter_cons_False _ r) by (intros H; apply H; by left). done.
  - rewrite (filter_cons_True (.≠ r)) by done. cbn [fmap list_fmap].
    assert (shift r x ∈ shift r <$> rest ↔ x ∈ rest) as Hs.
    { rewrite list_elem_of_fmap. split; [|intros H; by exists x]. intros (y & E & Hy).
      apply shift_inj in E; [by subst|done|by intros ->]. }
    destruct (decide (x ∈ rest)) as [Hin|Hin].
    + rewrite filter_cons_False by tauto. rewrite (filter_cons_False _ x) by (intros H; apply H; by right). done.
    + rewrite filter_cons_True by tauto. rewrite (filter_cons_True _ x) by (rewrite elem_of_cons; naive_solver).
      unfold rows_of in *. cbn [fmap list_fmap]. rewrite shift_lookup by done. f_equal. exact IH.
Qed.

Lemma shift_seq r n : r < n → shift r <$> filter (.≠ r) (seq 0 n) = seq 0 (n - 1).
Proof.
  intros Hr. replace n with (r + (1 + (n - 1 - r))) at 1 by lia. rewrite !seq_app. cbn [seq app Nat.add].
  rewrite filter_app, filter_cons_False by naive_solver.
  assert (∀ l : list nat, r ∉ l → filter (.≠ r) l = l) as Hf.
  { intros l Hl. apply filter_keep. intros x Hx ->. done. }
  rewrite !Hf by (rewrite elem_of_seq; lia). rewrite fmap_app.
  replace (n - 1) with (r + (n - 1 - r)) at 2 by lia. rewrite seq_app. f_equal.
  - apply list_eq. intros i. rewrite list_lookup_fmap. destruct (decide (i < r)).
    + rewrite !lookup_seq_lt by done. cbn. unfold shift. by rewrite bool_decide_eq_false_2 by lia.
    + by rewrite !lookup_seq_ge by lia.
  - apply list_eq. intros i. rewrite list_lookup_fmap. destruct (decide (i < n - 1 - r)).
    + rewrite !lookup_seq_lt by done. cbn. unfold shift. rewrite bool_decide_eq_true_2 by lia. f_equal. lia.
    + by rewrite !lookup_seq_ge by lia.
Qed.

Lemma shift_NoDup r (l : list nat) : NoDup l → NoDup (shift r <$> filter (.≠ r) l).
Proof.
  intros H. apply NoDup_fmap_2_strong; [|by apply NoDup_filter].
  intros x y [Hx _]%list_elem_of_filter [Hy _]%list_elem_of_filter. by apply shift_inj.
Qed.

Section remove.
Variable rowIdFn : val → option jstring.

Lemma remove_row_spec row s :
  table_wf s → row < length (aoData s) →
  ∃ s', remove_row rowIdFn row s = Some s' ∧ table_wf s' ∧ aoData s' = delete row (aoData s)
    ∧ aiDisplayMaster s' = shift row <$> filter (.≠ row) (aiDisplayMaster s)
    ∧ aiDisplay s' = shift row <$> filter (.≠ row) (aiDisplay s).
Proof.
  intros Hwf Hr. pose proof (wf_master_NoDup s Hwf) as Hm. destruct Hwf as [H1 H2 H3].
  destruct (lookup_lt_is_Some_2 _ _ Hr) as [r E]. unfold remove_row. rewrite E. cbn [mbind option_bind].
  rewrite !delete_index_spec by done. eexists. split; [done|].
  match goal with |- table_wf (set_aIds ?x ?s1) ∧ _ => set (s2 := s1); set (ids := x) end.
  assert (aoData s2 = delete row (aoData s) ∧ aiDisplayMaster s2 = shift row <$> filter (.≠ row) (aiDisplayMaster s)
    ∧ aiDisplay s2 = shift row <$> filter (.≠ row) (aiDisplay s)) as (D1 & D2 & D3).
  { unfold s2, _fnLengthOverflow. destruct s. by repeat case_match. }
  split; [|by split_and!]. split; cbn [set_aIds aoData aiDisplay aiDisplayMaster].
  - rewrite D1, D2, (length_delete _ _ (ex_intro _ r E)), H1. by rewrite (shift_seq row).
  - rewrite D3. by apply shift_NoDup.
  - rewrite D1, D3, (length_delete _ _ (ex_intro _ r E)). apply Forall_fmap, Forall_forall. intros x [Hx Hin]%list_elem_of_filter.
    rewrite Forall_forall in H3. specialize (H3 x Hin). cbn. unfold shift. case_bool_decide; lia.
Qed.

Lemma rows_remove_spec n j items s :
  table_wf s → length items = j + n → NoDup (drop j items) → Forall (λ i, i < length (aoData s)) (drop j items) →
  ∃ s', rows_remove rowIdFn j n items s = Some s' ∧ table_wf s'
    ∧ ∀ rest, rest = drop j items →
      Some <$> aoData s' = rows_of (aoData s) (filter (.∉ rest) (seq 0 (length (aoData s))))
      ∧ rows_of (aoData s') (aiDisplayMaster s') = rows_of (aoData s) (filter (.∉ rest) (aiDisplayMaster s))
      ∧ rows_of (aoData s') (aiDisplay s') = rows_of (aoData s) (filter (.∉ rest) (aiDisplay s)).
Proof.
  revert j items s. induction n as [|n IH]; intros j items s Hwf Hl Hn Hf.
  - exists s. split_and!; [done|done|]. rewrite drop_ge by lia. intros rest ->.
    assert (∀ l : list nat, filter (.∉ []) l = l) as Ha by (intros l; apply filter_keep; intros; apply not_elem_of_nil).
    rewrite !Ha. split_and!; [by rewrite rows_of_seq|done|done].
  - destruct (lookup_lt_is_Some_2 items j) as [row Hrow]; [lia|]. rewrite (drop_S _ row) in Hn, Hf |- * by done.
    apply NoDup_cons in Hn as [Hnr Hn]. apply Forall_cons in Hf as [Hr Hf].
    cbn [rows_remove]. rewrite Hrow. cbn [mbind option_bind].
    destruct (remove_row_spec row s Hwf Hr) as (s1 & -> & Hwf1 & D & M & L). cbn [mbind option_bind].
    rewrite delete_index_kept.
    assert (drop (S j) (shifted row <$> items) = shift row <$> drop (S j) items) as Hd.
    { rewrite <- fmap_drop. rewrite shifted_others by done. f_equal. apply filter_keep.
      intros x Hx ->. done. }
    assert (length (aoData s1) = length (aoData s) - 1) as Hlen by (rewrite D; apply length_delete; by apply lookup_lt_is_Some_2).
    destruct (IH (S j) (shifted row <$> items) s1) as (s' & E & Hwf' & H); [done|rewrite length_fmap; lia| | |].
    + rewrite Hd. apply NoDup_fmap_2_strong; [|done]. intros x y Hx Hy. apply shift_inj; by intros ->.
    + rewrite Hd, Hlen. apply Forall_fmap, Forall_forall. intros x Hx. rewrite Forall_forall in Hf. specialize (Hf x Hx).
      cbn. unfold shift. assert (x ≠ row) by (by intros ->). case_bool_decide; lia.
    + exists s'. split_and!; [done|done|]. intros rest ->. destruct (H _ (eq_sym Hd)) as (A & B & C).
      rewrite A, B, C, D, M, L, length_delete by (by apply lookup_lt_is_Some_2). rewrite <- (shift_seq row) by done.
      by rewrite !rows_of_step by done.
Qed.

(** C21: Removing a selection of rows, one after the other with all indices moving each time, removes
    exactly these rows: the other rows stay, in their order in the data, in the sorted order and on
    the display, and the display arrays stay well-formed. *)
Theorem rows_remove_correct items s :
  table_wf s → NoDup items → Forall (λ i, i < length (aoData s)) items →
  ∃ s', rows_remove rowIdFn 0 (length items) items s = Some s' ∧ table_wf s'
    ∧ Some <$> aoData s' = rows_of (aoData s) (filter (.∉ items) (seq 0 (length (aoData s))))
    ∧ rows_of (aoData s') (aiDisplayMaster s') = rows_of (aoData s) (filter (.∉ items) (aiDisplayMaster s))
    ∧ rows_of (aoData s') (aiDisplay s') = rows_of (aoData s) (filter (.∉ items) (aiDisplay s)).
Proof.
  intros Hwf Hn Hf. destruct (rows_remove_spec (length items) 0 items s Hwf) as (s' & E & W & H); [done|done|done|].
  exists s'. split; [done|]. split; [done|]. by apply H.
Qed.
End remove.

Example rows_remove_correct_witness :
  let s := set_aiDisplay [3; 1] (set_aiDisplayMaster [3; 0; 2; 1] (sample_table [VStr "a"%js; VStr "b"%js; VStr "c"%js; VStr "d"%js])) in
  ∃ s', rows_remove (λ _, None) 0 2 [2; 0] s = Some s' ∧ table_wf s'
    ∧ rows_of (aoData s') (aiDisplayMaster s') = [aoData s !! 3; aoData s !! 1].
Proof.
  intros s. destruct (rows_remove_correct (λ _, None) [2; 0] s) as (s' & E & W & _ & M & _).
  - split; [|apply (bool_decide_eq_true_1 _); vm_compute; reflexivity|apply (bool_decide_eq_true_1 (Forall _ _)); vm_compute; reflexivity].
    change ([3; 0; 2; 1] ≡ₚ [0; 1; 2; 3]). apply NoDup_Permutation; [| |intros x; split; intros H].
    1,2: apply (bool_decide_eq_true_1 _); vm_compute; reflexivity.
    all: repeat (apply elem_of_cons in H as [->|H]; [apply (bool_decide_eq_true_1 _); vm_compute; reflexivity|]); by apply elem_of_nil in H.
  - apply (bool_decide_eq_true_1 _); vm_compute; reflexivity.
  - apply (bool_decide_eq_true_1 (Forall _ _)); vm_compute; reflexivity.
  - exists s'. split; [exact E|]. split; [exact W|]. exact M.
Defined.

(** ** Adding rows *)

(** What adding rows leaves alone: all but the rows, the types of the columns, the ids, the master array and
    warnings. *)
Definition core_with (cols : list column) (s : settings) : settings :=
  set_iDrawError (JInt 0) (set_fired [] (set_aoData [] (set_aoColumns cols (set_aiDisplayMaster [] (set_aIds [] s))))).
Definition core (s : settings) : settings := core_with (set_sType None <$> aoColumns s) s.
Definition grown (s s' : settings) : Prop := core s' = core s.

#[export] Instance grown_equiv : Equivalence grown.
Proof. unfold grown. split; [done|by intros ??|]. intros ???. congruence. Qed.

Lemma quiet_grown s s' : quiet s s' → grown s s'.
Proof. intros H. unfold grown, core. rewrite (quiet_columns _ _ H). rewrite H. reflexivity. Qed.

Lemma create_cells_some rowIdx cols s :
  rowIdx < length (aoData s) → Forall (λ ic : nat * column, aoColumns s !! ic.1 = Some ic.2) cols →
  ∃ s', create_cells rowIdx cols s = Some s' ∧ quiet s s'.
Proof.
  intros Hr Hc. revert s Hr Hc. induction cols as [|[i col] cols IH]; intros s Hr Hc; [by exists s|].
  apply Forall_cons in Hc as [Hi Hc]. cbn [fst snd] in Hi. destruct (lookup_lt_is_Some_2 _ _ Hr) as [r E].
  destruct (get_cell_spec s rowIdx i (Some "display"%js) col r Hi E) as (s1 & G & Q).
  assert (∀ s2, quiet s s2 → ∃ s', create_cells rowIdx cols s2 = Some s' ∧ quiet s s') as Hrest.
  { intros s2 Q2. destruct (IH s2) as (s3 & E3 & Q3).
    - by rewrite (quiet_data _ _ Q2).
    - eapply Forall_impl; [exact Hc|]. cbn. by rewrite (quiet_columns _ _ Q2).
    - exists s3. split; [done|]. by transitivity s2. }
  cbn [create_cells]. rewrite G. cbn [mbind option_bind].
  destruct (mData col) as [| | | | | |o]; try by apply Hrest.
  destruct (obj_get "_"%js o) as [[]|]; try by apply Hrest.
  destruct (_ =s? _); by apply Hrest.
Qed.

(** What creating nodes and striping rows may change: the nodes, the stripes and warnings. *)
Definition bare_row (r : row) : row := set_nTr false (set_sRowStripe [] r).
Definition painted (s s' : settings) : Prop :=
  set_iDrawError (JInt 0) (set_fired [] (set_aoData (bare_row <$> aoData s') s'))
  = set_iDrawError (JInt 0) (set_fired [] (set_aoData (bare_row <$> aoData s) s)).

#[export] Instance painted_equiv : Equivalence painted.
Proof. unfold painted. split; [done|by intros ??|]. intros ???. congruence. Qed.

Lemma quiet_painted s s' : quiet s s' → painted s s'.
Proof. intros H. rewrite H. reflexivity. Qed.

Lemma upd_row_painted i f s : (∀ r, bare_row (f r) = bare_row r) → painted s (upd_row i f s).
Proof.
  intros Hf. assert (bare_row <$> aoData (upd_row i f s) = bare_row <$> aoData s) as E.
  { apply list_eq. intros j. unfold upd_row. cbn [aoData set_aoData]. rewrite !list_lookup_fmap.
    destruct (decide (j = i)) as [->|]; [rewrite list_lookup_alter_eq|by rewrite list_lookup_alter_ne].
    destruct (aoData s !! i); [|done]. cbn. by rewrite Hf. }
  unfold painted. rewrite E. reflexivity.
Qed.

Lemma painted_rows s s' : painted s s' → bare_row <$> aoData s' = bare_row <$> aoData s.
Proof. intros H. exact (f_equal aoData H). Qed.

Lemma painted_data s s' : painted s s' → _aData <$> aoData s' = _aData <$> aoData s.
Proof.
  intros H%painted_rows. apply (f_equal (fmap _aData)) in H. rewrite <- !list_fmap_compose in H. exact H.
Qed.

Lemma painted_length s s' : painted s s' → length (aoData s') = length (aoData s).
Proof. intros H%painted_rows. apply (f_equal length) in H. by rewrite !length_fmap in H. Qed.

(** Any other part of the state is the same. *)
Lemma painted_part {A} (f : settings → A) s s' :
  (∀ e l d s, f (set_iDrawError e (set_fired l (set_aoData d s))) = f s) → painted s s' → f s' = f s.
Proof. intros Hf H. apply (f_equal f) in H. by rewrite !Hf in H. Qed.

Lemma painted_grown s s' : painted s s' → grown s s'.
Proof.
  intros H. unfold grown, core. rewrite (painted_part aoColumns _ _ ltac:(done) H).
  apply (painted_part (core_with (set_sType None <$> aoColumns s)) s s'); [reflexivity|done].
Qed.

Lemma create_tr_some iRow s : iRow < length (aoData s) → ∃ s', _fnCreateTr iRow s = Some s' ∧ painted s s'.
Proof.
  intros Hi. destruct (lookup_lt_is_Some_2 _ _ Hi) as [r E]. unfold _fnCreateTr. rewrite E. cbn [mbind option_bind].
  destruct (nTr r); [by exists s|]. set (s1 := upd_row iRow (set_nTr true) s).
  assert (painted s s1) as P1 by by apply upd_row_painted.
  destruct (create_cells_some iRow (imap pair (aoColumns s)) s1) as (s2 & -> & Q).
  - by rewrite (painted_length _ _ P1).
  - apply Forall_lookup. intros j [j' c]. rewrite list_lookup_imap. destruct (aoColumns s !! j) eqn:Ej; [|done].
    by intros [= <- <-].
  - exists s2. split; [done|]. transitivity s1; [done|by apply quiet_painted].
Qed.

Section add.
Variable rowIdFn : val → option jstring.

Lemma add_data_some d s :
  ∃ s', _fnAddData rowIdFn d s = Some (length (aoData s), s') ∧ grown s s'
    ∧ aiDisplayMaster s' = aiDisplayMaster s ++ [length (aoData s)]
    ∧ _aData <$> aoData s' = (_aData <$> aoData s) ++ [d]
    ∧ aIds s' = match rowIdFn d with Some id => obj_set id (Some (length (aoData s))) (aIds s) | None => aIds s end.
Proof.
  unfold _fnAddData. match goal with |- context [if negb (bDeferRender ?x) then _ else _] => set (s1 := x) end.
  assert (grown s s1 ∧ aiDisplayMaster s1 = aiDisplayMaster s ++ [length (aoData s)] ∧ aoData s1 = aoData s ++ [oRow d]) as (G & M & D)
    by (assert (set_sType None <$> (set_sType None <$> aoColumns s) = set_sType None <$> aoColumns s) as Hc
      by (by rewrite <- list_fmap_compose); unfold s1, grown, core; destruct (rowIdFn d); cbn [aoColumns set_aoColumns set_aoData set_aiDisplayMaster set_aIds]; rewrite Hc; split_and!; reflexivity).
  assert (_aData <$> aoData s1 = (_aData <$> aoData s) ++ [d]) as D' by (rewrite D, fmap_app; done).
  assert (aIds s1 = match rowIdFn d with Some id => obj_set id (Some (length (aoData s))) (aIds s) | None => aIds s end) as I
    by (unfold s1; by destruct (rowIdFn d)).
  destruct (negb (bDeferRender s1)); cbn [mbind option_bind]; [|exists s1; by split_and!].
  destruct (create_tr_some (length (aoData s)) s1) as (s2 & -> & P); [rewrite D, length_app; cbn; lia|].
  cbn [mbind option_bind]. exists s2. split_and!; [done| | | |].
  - transitivity s1; [done|by apply painted_grown].
  - by rewrite (painted_part aiDisplayMaster _ _ ltac:(done) P).
  - by rewrite (painted_data _ _ P).
  - by rewrite (painted_part aIds _ _ ltac:(done) P).
Qed.

(** Adding rows appends them to the data and to the master array. *)
Lemma rows_add_some rows s :
  ∃ s', rows_add rowIdFn rows s = Some (seq (length (aoData s)) (length rows), s') ∧ grown s s'
    ∧ aiDisplayMaster s' = aiDisplayMaster s ++ seq (length (aoData s)) (length rows)
    ∧ _aData <$> aoData s' = (_aData <$> aoData s) ++ rows.
Proof.
  revert s. induction rows as [|d rows IH]; intros s; cbn [rows_add length seq].
  { exists s. by rewrite !app_nil_r. }
  destruct (add_data_some d s) as (s1 & -> & G & M & D & _). cbn [mbind option_bind].
  assert (length (aoData s1) = S (length (aoData s))) as Hl.
  { apply (f_equal length) in D. rewrite length_app, !length_fmap in D. cbn in D. lia. }
  destruct (IH s1) as (s2 & -> & G2 & M2 & D2). rewrite Hl in *. cbn [mbind option_bind]. exists s2. split_and!; [done| | |].
  - by transitivity s1.
  - by rewrite M2, M, <- app_assoc.
  - by rewrite D2, D, <- app_assoc.
Qed.
End add.
