(* ===== verification/DtDraw.v ===== *)
(** * Drawing a table and loading its rows from a server (jquery.dataTables.js, "draw" and "ajax")

    The draw of the window of rows, the redraw after a sort and a search, the parameters of a
    request and the handling of its answer.  [None] stands for an exception.  The texts and the
    classes of the page, the hooks of plug-ins and functions given as options are parameters or,
    like the callbacks of the page, left out. *)

From S2P Require Import Prelude JsString JsObject JsNumber JsValue JsInt JqExtend DtUtil DtModel DtTypes DtSort DtFilter DtPage DtPath DtData.

Definition _fnProcessingDisplay (show : bool) (s : settings) : settings :=
  fire "processing"%js (set_processing show s).

Definition _fnVisbleColumns (s : settings) : nat :=
  length (filter (λ col, bVisible col = true ∧ th_hidden col = false) (aoColumns s)).

(** ** The parameters of a request *)

Definition vint (z : Z) : val := VNum (num_of_Z z).
Definition vnat (n : nat) : val := vint (Z.of_nat n).
Definition vjint (j : jint) : val := VNum (num_of_jint j).

(** [param(name, value)] *)
Definition ajax_param (name : jstring) (value : val) : val := VObj [("name"%js, VStr name); ("value"%js, value)].

Definition column_params (s : settings) (i : nat) (column : column) (columnSearch : search) : val * list val :=
  let dataProp := mData column in
  let sfx := str_of_nat i in
  (VObj [("data"%js, dataProp); ("name"%js, VStr (sName column)); ("searchable"%js, VBool (bSearchable column));
         ("orderable"%js, VBool (bSortable column));
         ("search"%js, VObj [("value"%js, VStr (sSearch columnSearch)); ("regex"%js, VBool (bRegex columnSearch))])],
   [ajax_param ("mDataProp_"%js ++ sfx) dataProp]
   ++ (if bFilter s then [ajax_param ("sSearch_"%js ++ sfx) (VStr (sSearch columnSearch));
                          ajax_param ("bRegex_"%js ++ sfx) (VBool (bRegex columnSearch));
                          ajax_param ("bSearchable_"%js ++ sfx) (VBool (bSearchable column))] else [])
   ++ (if bSort s then [ajax_param ("bSortable_"%js ++ sfx) (VBool (bSortable column))] else [])).

Fixpoint columns_params (s : settings) (cols : list (nat * column)) : option (list val * list val) :=
  match cols with
  | [] => Some ([], [])
  | (i, c) :: cols =>
      cs ← aoPreSearchCols s !! i;
      '(ds, ps) ← columns_params s cols;
      let '(d, p) := column_params s i c cs in
      Some (d :: ds, p ++ ps)
  end.

(** [legacy]: [DataTable.ext.legacy.ajax], [None] for null. *)
Definition _fnAjaxParameters (legacy : option bool) (s : settings) : option (val * settings) :=
  let columns := aoColumns s in
  let preSearch := oPreviousSearch s in
  '(sort, s) ← _fnSortFlatten s;
  let displayStart := _iDisplayStart s in
  let displayLength := if bPaginate s then _iDisplayLength s else JInt (-1) in
  '(ds, ps) ← columns_params s (imap pair columns);
  let data :=
    [ajax_param "sEcho"%js (vjint (iDraw s)); ajax_param "iColumns"%js (vnat (length columns));
     ajax_param "sColumns"%js (VStr (join ","%js (sName <$> columns)));
     ajax_param "iDisplayStart"%js (vjint displayStart); ajax_param "iDisplayLength"%js (vjint displayLength)]
    ++ ps
    ++ (if bFilter s then [ajax_param "sSearch"%js (VStr (sSearch preSearch)); ajax_param "bRegex"%js (VBool (bRegex preSearch))] else [])
    ++ (if bSort s then
          concat (imap (λ i v, [ajax_param ("iSortCol_"%js ++ str_of_nat i) (vnat (f_col v));
                                ajax_param ("sSortDir_"%js ++ str_of_nat i) (VStr (f_dir v))]) sort)
          ++ [ajax_param "iSortingCols"%js (vnat (length sort))]
        else []) in
  let order := if bSort s then (λ v, VObj [("column"%js, vnat (f_col v)); ("dir"%js, VStr (f_dir v))]) <$> sort else [] in
  let d := VObj [("draw"%js, vjint (iDraw s)); ("columns"%js, VArr ds); ("order"%js, VArr order);
                 ("start"%js, vjint displayStart); ("length"%js, vjint displayLength);
                 ("search"%js, VObj [("value"%js, VStr (sSearch preSearch)); ("regex"%js, VBool (bRegex preSearch))])] in
  Some (if default (truthy (sAjaxSource s)) legacy then VArr data else d, s).

(** ** Sending a request *)

(** The object of the name and value pairs of the old format: an array for a name that ends in
    brackets, whose key keeps the brackets. *)
Definition add_pair (tmp : jsobj val) (name : jstring) (value : val) : jsobj val :=
  if bool_decide (drop (length name - 2) name = "[]"%js) then
    match obj_get name tmp with
    | Some (VArr l) => obj_set name (VArr (l ++ [value])) tmp
    | _ => obj_set name (VArr [value]) tmp
    end
  else obj_set name value tmp.

Definition pairs_object (data : val) : val :=
  match data with
  | VArr l => VObj (foldl (λ tmp p, add_pair tmp (to_string (get_prop p "name"%js)) (get_prop p "value"%js)) [] l)
  | _ => data
  end.

(** The data of the request: [ajax.data] is merged in, or takes its place when it is falsy. *)
Definition request_data (s : settings) (data : val) : val :=
  let data := pairs_object data in
  match ajax s with
  | VObj o =>
      match obj_get "data"%js o with
      | Some v => if truthy v then match v with VObj o => extend_value data o | _ => data end
                  else if is_undef v || truthy (sAjaxSource s) then data else v
      | None => data
      end
  | _ => data
  end.

Definition _fnBuildAjax (data : val) (s : settings) : settings :=
  let s := fire "preXhr"%js (fire "serverParams"%js s) in
  set_requests (requests s ++ [request_data s data]) s.

Section draw.
Variable rowIdFn : val → option jstring.
Variable legacy : option bool.
(** The texts of the empty table. *)
Variables (sZeroRecords sLoadingRecords sEmptyTable : jstring).

(** The result says whether to draw now. *)
Definition _fnAjaxUpdate (s : settings) : option (bool * settings) :=
  if bAjaxDataGet s then
    let s := _fnProcessingDisplay true (set_iDraw (jadd (iDraw s) (JInt 1)) s) in
    '(data, s) ← _fnAjaxParameters legacy s;
    Some (false, _fnBuildAjax data s)
  else Some (true, s).

(** ** The draw *)

(** The rows at the given positions of the display. *)
Fixpoint draw_rows (js : list nat) (iRowCount : nat) (s : settings) : option (list drawn * settings) :=
  match js with
  | [] => Some ([], s)
  | j :: js =>
      iDataIndex ← aiDisplay s !! j;
      r ← aoData s !! iDataIndex;
      s ← (if nTr r then Some s else _fnCreateTr iDataIndex s);
      let iStripes := length (asStripeClasses s) in
      let s := if bool_decide (iStripes = 0) then s
               else upd_row iDataIndex (set_sRowStripe (default [] (asStripeClasses s !! (iRowCount mod iStripes)))) s in
      r ← aoData s !! iDataIndex;
      '(l, s) ← draw_rows js (S iRowCount) s;
      Some (DRow iDataIndex (_sRowStripe r) :: l, s)
  end.

(** [for ( j=iStart ; j<iEnd ; j++ )]; a negative position has no row. *)
Definition positions (iStart iEnd : jint) : option (list nat) :=
  match iStart, iEnd with
  | JInt a, JInt b => if (b <=? a)%Z then Some [] else if (a <? 0)%Z then None else Some (seq (Z.to_nat a) (Z.to_nat (b - a)))
  | _, _ => if jlt iStart iEnd then None else Some []
  end.

Definition empty_text (s : settings) : jstring :=
  if jeq (iDraw s) (JInt 1) && bool_decide (_fnDataSource s = Ajax) then sLoadingRecords
  else if negb (sEmptyTable =s? []) && jeq (fnRecordsTotal s) (JInt 0) then sEmptyTable
  else sZeroRecords.

Definition initial_start (s : settings) : settings :=
  match iInitDisplayStart s with
  | Some i =>
      if jeq i (JInt (-1)) then s
      else
        let start := if is_ssp s then i else if jle (fnRecordsDisplay s) i then JInt 0 else i in
        set_iInitDisplayStart (Some (JInt (-1))) (set_iDisplayStart start s)
  | None => s
  end.

(** The end of a draw: the body is in the page. *)
Definition drawn_state (rows : list drawn) (s : settings) : settings :=
  let s := set_nTBody rows (fire "footer"%js (fire "header"%js s)) in
  set_bDrawing false (set_bFiltered false (set_bSorted false (fire "draw"%js s))).

Definition _fnDraw (s : settings) : option settings :=
  let s := fire "preDraw"%js s in
  if bool_decide (false ∈ preDraw s) then Some (_fnProcessingDisplay false s)
  else
    let s := initial_start (set_bDrawing true s) in
    let iDisplayStart := _iDisplayStart s in
    let iDisplayEnd := fnDisplayEnd s in
    '(go, s) ← (if bDeferLoading s then
                  Some (true, _fnProcessingDisplay false (set_iDraw (jadd (iDraw s) (JInt 1)) (set_bDeferLoading false s)))
                else if negb (is_ssp s) then Some (true, set_iDraw (jadd (iDraw s) (JInt 1)) s)
                else if bDestroying s then Some (true, s)
                else _fnAjaxUpdate s);
    if negb go then Some s
    else if bool_decide (length (aiDisplay s) = 0) then
      let stripe := default [] (head (asStripeClasses s)) in
      Some (drawn_state [DMessage (empty_text s) (_fnVisbleColumns s)] s)
    else
      js ← (if is_ssp s then positions (JInt 0) (JInt (Z.of_nat (length (aoData s)))) else positions iDisplayStart iDisplayEnd);
      '(rows, s) ← draw_rows js 0 s;
      Some (drawn_state rows s).

(** ** The answer of the server *)

Fixpoint source_of (v : val) : msource :=
  match v with
  | VNull => MNull
  | VStr s => MStr s
  | VObj o => MObj (map (λ kv, (kv.1, source_of kv.2)) o)
  | v => MVal v
  end.

Definition ajax_data_src (s : settings) : val :=
  match ajax s with
  | VObj o => match obj_get "dataSrc"%js o with
              | Some VUndef | None => VStr (sAjaxDataProp s)
              | Some v => v
              end
  | _ => VStr (sAjaxDataProp s)
  end.

Definition _fnAjaxDataSrc (s : settings) (json : val) : option val :=
  match ajax_data_src s with
  | VStr t =>
      if t =s? "data"%js then
        aaData ← prop json "aaData"%js;
        if truthy aaData then Some aaData else prop json "data"%js
      else if t =s? [] then Some json
      else _fnGetObjectDataFn (λ _ _, None) (MStr t) json None
  | v => _fnGetObjectDataFn (λ _ _, None) (source_of v) json None
  end.

(** The elements a loop over [data.length] visits; [None]: no length, or an object with one. *)
Definition data_rows (data : val) : option (list val) :=
  match data with
  | VArr l => Some l
  | VStr t => Some ((λ u, VStr [u]) <$> t)
  | VUndef | VNull => None
  | VObj o => match obj_get "length"%js o with None => Some [] | Some _ => None end
  | _ => Some []
  end.

Definition _fnInitComplete (s : settings) : settings :=
  fire "init"%js (fire "plugin-init"%js (set_bInitComplete true s)).

(** The number of the draw that the answer is for: [Some None] when it has none. *)
Definition answer_draw (draw : val) : option (option jint) :=
  if truthy draw then d ← jint_of_num (to_number draw); Some (Some d) else Some None.

(** The rows of the answer take the place of those of the table, and are drawn. *)
Definition take_rows (recordsTotal recordsFiltered data : val) (s : settings) : option settings :=
  let s := _fnClearTable s in
  let s := set_iRecordsDisplay (parse_jint recordsFiltered) (set_iRecordsTotal (parse_jint recordsTotal) s) in
  rows ← data_rows data;
  '(_, s) ← rows_add rowIdFn rows s;
  let s := set_bAjaxDataGet false (set_aiDisplay (aiDisplayMaster s) s) in
  s ← _fnDraw s;
  let s := if _bInitComplete s then s else _fnInitComplete s in
  Some (_fnProcessingDisplay false (set_bAjaxDataGet true s)).

Definition _fnAjaxUpdateDraw (json : val) (s : settings) : option settings :=
  let compat old modern := (v ← prop json old; if is_undef v then prop json modern else Some v) in
  data ← _fnAjaxDataSrc s json;
  draw ← compat "sEcho"%js "draw"%js;
  recordsTotal ← compat "iTotalRecords"%js "recordsTotal"%js;
  recordsFiltered ← compat "iTotalDisplayRecords"%js "recordsFiltered"%js;
  draw ← answer_draw draw;
  match draw with
  | Some d => if jlt d (iDraw s) then Some s else take_rows recordsTotal recordsFiltered data (set_iDraw d s)
  | None => take_rows recordsTotal recordsFiltered data s
  end.

(** The callbacks of a request: [fn] is what to do with the data. *)
Definition ajax_success (fn : val → settings → option settings) (json : val) (s : settings) : option settings :=
  e ← prop json "error"%js;
  e ← (if truthy e then Some e else prop json "sError"%js);
  let s := if truthy e then fire "error"%js s else s in
  fn json (fire "xhr"%js s).

Inductive ajax_failure := ParserError | ServerError | Unanswered.   (* [xhr.readyState] 4 or not *)

(** [ret]: a listener of the event has dealt with the error. *)
Definition ajax_error (ret : bool) (error : ajax_failure) (s : settings) : settings :=
  let s := fire "xhr"%js s in
  let s := if ret then s else match error with Unanswered => s | _ => fire "error"%js s end in
  _fnProcessingDisplay false s.
End draw.

(** ** Redraws *)

Section redraw.
Variable toLowerCase : jstring → jstring.
Variable date_parse : jstring → num.
Variable decimals : list jstring.
Variable ext_order : jstring → option (settings → nat → list val).
Variable ext_sort : jstring → option (val → val → Z).
Variable canon : N → N.
Variable textContent : jstring → jstring.
Variable ext_search : list (settings → option (list jstring) → nat → val → nat → bool).
Variable rowIdFn : val → option jstring.
Variable draw : settings → option settings.              (* [_fnDraw] *)

Definition _fnReDraw (holdPosition : bool) (s : settings) : option settings :=
  s ← (if bSort s then _fnSort toLowerCase date_parse decimals ext_order ext_sort s else Some s);
  s ← (if bFilter s
       then _fnFilterComplete canon textContent date_parse decimals ext_search (oPreviousSearch s) false s
       else Some (set_aiDisplay (aiDisplayMaster s) s));
  draw (if holdPosition then s else set_iDisplayStart (JInt 0) s).

(** [draw(paging)]: [page], [full-hold], another text, or a boolean. *)
Definition api_draw (paging : val) (s : settings) : option settings :=
  match paging with
  | VStr t => if t =s? "page"%js then draw s else _fnReDraw (t =s? "full-hold"%js) s
  | VBool b => _fnReDraw (negb b) s
  | _ => _fnReDraw false s
  end.

(** [__reload]: what is done with the answer, for a table that loads all its rows. *)
Definition reload_answer (holdPosition : bool) (json : val) (s : settings) : option settings :=
  let s := _fnClearTable s in
  data ← _fnAjaxDataSrc s json;
  rows ← data_rows data;
  '(_, s) ← rows_add rowIdFn rows s;
  s ← _fnReDraw holdPosition s;
  Some (_fnProcessingDisplay false s).

Definition __reload (holdPosition : bool) (s : settings) : option settings :=
  if is_ssp s then _fnReDraw holdPosition s
  else Some (_fnBuildAjax (VArr []) (_fnProcessingDisplay true s)).

(** An option of [search()]: not given, it stays as it was; null stands for a default. *)
Inductive flag := Unset | Null | Given (b : bool).
Definition flag_value (f : flag) (null prev : bool) : bool :=
  match f with Unset => prev | Null => null | Given b => b end.
Definition new_search (o : search) (input : val) (regex smart caseInsen : flag) : search :=
  Search (to_string input) (flag_value regex false (bRegex o)) (flag_value smart true (bSmart o))
    (flag_value caseInsen true (bCaseInsensitive o)) (bEscapeRegex o).

(** [search(input, regex, smart, caseInsen)] *)
Definition api_search (input : val) (regex smart caseInsen : flag) (s : settings) : option settings :=
  if negb (bFilter s) then Some s
  else _fnFilterComplete canon textContent date_parse decimals ext_search
         (new_search (oPreviousSearch s) input regex smart caseInsen) true s.

(** [column().search(input, regex, smart, caseInsen)] *)
Definition api_column_search (column : nat) (input : val) (regex smart caseInsen : flag) (s : settings)
    : option settings :=
  if negb (bFilter s) then Some s
  else
    o ← aoPreSearchCols s !! column;
    _fnFilterComplete canon textContent date_parse decimals ext_search (oPreviousSearch s) true
      (set_aoPreSearchCols (<[column := new_search o input regex smart caseInsen]> (aoPreSearchCols s)) s).
End redraw.
