(* ===== verification/DtDrawTheorems.v ===== *)
(** * Correctness of drawing and of server-side answers

    A draw puts exactly the window of the display into the page; of the answers of a server, in
    whatever order they arrive, the one for the latest request is the one that stays. *)

From S2P Require Import Prelude JsString JsObject JsNumber JsValue JsInt DtUtil DtModel DtTypes DtSort DtFilter DtPage DtPath DtData DtDraw.

(** ** The rows of a draw *)

Definition stripe (s : settings) (n : nat) : jstring :=
  default [] (asStripeClasses s !! (n mod length (asStripeClasses s))).

Definition row_shown_at (s : settings) (j : nat) : Prop := ∃ i, aiDisplay s !! j = Some i ∧ i < length (aoData s).

Lemma painted_shown s s' j : painted s s' → row_shown_at s j → row_shown_at s' j.
Proof.
  intros P (i & Hj & Hi). exists i. rewrite (painted_part aiDisplay _ _ ltac:(done) P), (painted_length _ _ P). done.
Qed.

Lemma draw_rows_spec js n s :
  asStripeClasses s ≠ [] → Forall (row_shown_at s) js →
  ∃ s', draw_rows js n s
    = Some (imap (λ k j, DRow (default 0 (aiDisplay s !! j)) (stripe s (n + k))) js, s') ∧ painted s s'.
Proof.
  intros Ha. revert n s Ha. induction js as [|j js IH]; intros n s Ha Hjs; [by exists s|].
  apply Forall_cons in Hjs as [(i & Hj & Hi) Hjs]. cbn [draw_rows]. rewrite Hj. cbn [mbind option_bind].
  destruct (lookup_lt_is_Some_2 _ _ Hi) as [r Hr]. rewrite Hr. cbn [mbind option_bind].
  assert (∃ s1, (if nTr r then Some s else _fnCreateTr i s) = Some s1 ∧ painted s s1) as (s1 & -> & P1).
  { destruct (nTr r); [by exists s|by apply create_tr_some]. }
  cbn [mbind option_bind].
  assert (asStripeClasses s1 = asStripeClasses s) as Ha1 by apply (painted_part asStripeClasses _ _ ltac:(done) P1).
  rewrite Ha1, bool_decide_eq_false_2 by (by intros H%nil_length_inv). fold (stripe s n).
  set (s2 := upd_row i _ s1). assert (painted s s2) as P2 by (transitivity s1; [done|by apply upd_row_painted]).
  assert (∃ r', aoData s2 !! i = Some r' ∧ _sRowStripe r' = stripe s n) as (r' & Hr' & Hs').
  { unfold s2, upd_row. cbn [aoData set_aoData]. rewrite list_lookup_alter_eq.
    destruct (lookup_lt_is_Some_2 (aoData s1) i) as [r1 ->]; [by rewrite (painted_length _ _ P1)|]. by eexists. }
  rewrite Hr'. cbn [mbind option_bind].
  assert (asStripeClasses s2 = asStripeClasses s) as Ha2 by apply (painted_part asStripeClasses _ _ ltac:(done) P2).
  destruct (IH (S n) s2) as (s3 & -> & P3); [by rewrite Ha2| |].
  { eapply Forall_impl; [exact Hjs|]. intros j'. by apply painted_shown. }
  cbn [mbind option_bind]. exists s3. split; [|by transitivity s2]. rewrite imap_cons, Hj, Nat.add_0_r, Hs'.
  do 3 f_equal. apply imap_ext. intros k j' _. unfold compose, stripe.
  rewrite Ha2, (painted_part aiDisplay _ _ ltac:(done) P2). by rewrite Nat.add_succ_comm.
Qed.

Lemma imap_window {A} (f : nat → nat → A) (l : list nat) a n :
  a + n ≤ length l → imap (λ k j, f k (default 0 (l !! j))) (seq a n) = imap f (take n (drop a l)).
Proof.
  intros H. apply list_eq. intros k. rewrite !list_lookup_imap. destruct (decide (k < n)) as [Hk|Hk].
  - rewrite lookup_seq_lt, lookup_take, lookup_drop by done. cbn. rewrite decide_True by done.
    by destruct (lookup_lt_is_Some_2 l (a + k)) as [i ->]; [lia|].
  - rewrite lookup_seq_ge by lia. cbn. by rewrite lookup_take_ge by lia.
Qed.

(** ** A draw of a table that has all its rows *)

(** The rows of the window that starts at [st]. *)
Definition window_rows (s : settings) (st : nat) : list nat :=
  let l := drop st (aiDisplay s) in
  match _iDisplayLength s with
  | JInt len => if bPaginate s && (0 <? len)%Z then take (Z.to_nat len) l else l
  | _ => l
  end.

(** The rows are there, and so are the lengths: all rows at once, or pages of [len] rows. *)
Record drawable (s : settings) (st : nat) : Prop := {
  d_client : bServerSide s = false;
  d_stripes : asStripeClasses s ≠ [];
  d_rows : Forall (λ i, i < length (aoData s)) (aiDisplay s);
  d_start : _iDisplayStart s = JInt (Z.of_nat st);
  d_initial : iInitDisplayStart s = None ∨ iInitDisplayStart s = Some (JInt (-1));
  d_length : ∃ len, _iDisplayLength s = JInt len ∧ (0 < len ∨ len = -1)%Z
}.

Lemma positions_window s st :
  drawable s st →
  ∃ n, positions (JInt (Z.of_nat st)) (fnDisplayEnd s) = Some (seq st n) ∧ window_rows s st = take n (drop st (aiDisplay s))
    ∧ (n = 0 ∨ st + n ≤ length (aiDisplay s)).
Proof.
  intros [Hb _ _ Hst _ (len & Hlen & Hpos)]. unfold fnDisplayEnd, window_rows. rewrite Hb, Hst, Hlen.
  set (R := length (aiDisplay s)). cbn [jadd jlt jeq].
  assert (∀ e, (e <= Z.of_nat R)%Z → ∃ n, positions (JInt (Z.of_nat st)) (JInt e) = Some (seq st n) ∧ n = Z.to_nat (e - Z.of_nat st)
    ∧ (n = 0 ∨ st + n ≤ R)) as Hp.
  { intros e He. unfold positions. destruct (Z.leb_spec e (Z.of_nat st)).
    - exists 0. split_and!; [done|lia|by left].
    - destruct (Z.ltb_spec (Z.of_nat st) 0); [lia|]. rewrite Nat2Z.id. eexists. split_and!; [done|done|right; lia]. }
  destruct (negb (bPaginate s) || (Z.of_nat R <? Z.of_nat st + len)%Z || (len =? -1)%Z) eqn:E.
  - destruct (Hp (Z.of_nat R)) as (n & -> & Hn & Hb'); [lia|]. exists n. split_and!; [done| |done].
    assert (∀ l : list nat, length l = R - st → take n l = l) as Ht by (intros l Hl; apply take_ge; lia).
    rewrite Ht by (by rewrite length_drop). destruct (bPaginate s && (0 <? len)%Z) eqn:E2; [|done].
    apply andb_true_iff in E2 as [E2 E3%Z.ltb_lt]. rewrite E2 in E. cbn [negb orb] in E.
    apply orb_true_iff in E as [E%Z.ltb_lt|E%Z.eqb_eq]; [|lia]. apply take_ge. rewrite length_drop. fold R. lia.
  - rewrite !orb_false_iff in E. destruct E as [[E1%negb_false_iff E2%Z.ltb_ge] E3%Z.eqb_neq].
    destruct (Hp (Z.of_nat st + len)%Z) as (n & -> & Hn & Hb'); [lia|]. exists n. split_and!; [done| |done].
    rewrite E1. destruct (Z.ltb_spec 0 len); [|lia]. cbn [andb]. f_equal. lia.
Qed.

Section draw.
Variable rowIdFn : val → option jstring.
Variable legacy : option bool.
Variables (sZeroRecords sLoadingRecords sEmptyTable : jstring).
#[local] Abbreviation draw := (_fnDraw legacy sZeroRecords sLoadingRecords sEmptyTable).
#[local] Abbreviation message := (empty_text sZeroRecords sLoadingRecords sEmptyTable).

(** What a draw leaves alone. *)
Definition undrawn_with (d : list row) (s : settings) : settings :=
  set_iDraw (JInt 0) (set_iDrawError (JInt 0) (set_fired [] (set_processing false (set_nTBody []
    (set_bDrawing false (set_bSorted false (set_bFiltered false (set_bDeferLoading false
      (set_iInitDisplayStart None (set_iDisplayStart (JInt 0) (set_aoData d s))))))))))).
Definition undrawn (s : settings) : settings := undrawn_with (bare_row <$> aoData s) s.

Lemma painted_undrawn s s' : painted s s' → undrawn s' = undrawn s.
Proof.
  intros H. unfold undrawn. rewrite (painted_rows _ _ H).
  apply (painted_part (undrawn_with (bare_row <$> aoData s)) s s'); [reflexivity|done].
Qed.

Lemma no_initial_start s : iInitDisplayStart s = None ∨ iInitDisplayStart s = Some (JInt (-1)) → initial_start s = s.
Proof. unfold initial_start. by intros [-> | ->]. Qed.

(** C22: A draw of a table that has all its rows never fails, and puts into the page exactly the rows
    of the window of the display, in its order and with their stripes, or the message of an empty
    table; it counts the draw, marks sorting and searching as done and keeps the data. *)
Theorem draw_correct s st :
  drawable s st → false ∉ preDraw s →
  ∃ s', draw s = Some s'
    ∧ nTBody s' = (if bool_decide (aiDisplay s = [])
                   then [DMessage (message (set_iDraw (jadd (iDraw s) (JInt 1)) s)) (_fnVisbleColumns s)]
                   else imap (λ k i, DRow i (stripe s k)) (window_rows s st))
    ∧ iDraw s' = jadd (iDraw s) (JInt 1) ∧ bSorted s' = false ∧ bFiltered s' = false ∧ bDrawing s' = false
    ∧ undrawn s' = undrawn s.
Proof.
  intros Hd Hpre. unfold _fnDraw. cbn [fire preDraw set_fired]. rewrite bool_decide_eq_false_2 by done.
  rewrite no_initial_start by (by destruct Hd).
  set (s1 := set_bDrawing true (fire "preDraw"%js s)).
  assert (is_ssp s1 = false) as Hssp by (rewrite is_ssp_bServerSide; by destruct Hd). rewrite Hssp. cbn [negb].
  assert (∃ s2, (if bDeferLoading s1 then Some (true, _fnProcessingDisplay false (set_iDraw (jadd (iDraw s1) (JInt 1)) (set_bDeferLoading false s1)))
    else Some (true, set_iDraw (jadd (iDraw s1) (JInt 1)) s1)) = Some (true, s2)
    ∧ iDraw s2 = jadd (iDraw s) (JInt 1) ∧ undrawn s2 = undrawn s ∧ drawable s2 st ∧ aiDisplay s2 = aiDisplay s
    ∧ message s2 = message (set_iDraw (jadd (iDraw s) (JInt 1)) s) ∧ fnDisplayEnd s1 = fnDisplayEnd s2 ∧ is_ssp s2 = false) as (s2 & -> & I2 & U2 & D2 & L2 & M2 & F2 & S2).
  { destruct (bDeferLoading s1); eexists; (split; [reflexivity|]); split_and!; try reflexivity; try done.
    all: by destruct Hd; split. }
  cbn [mbind option_bind negb]. rewrite F2, S2. change (_iDisplayStart s1) with (_iDisplayStart s).
  destruct (decide (aiDisplay s = [])) as [E|E].
  - rewrite L2, E. cbn [length]. rewrite !bool_decide_eq_true_2 by done. eexists. split; [reflexivity|].
    split_and!; try reflexivity; [|exact I2|exact U2]. cbn. do 2 f_equal; [exact M2|].
    exact (f_equal (λ x, _fnVisbleColumns x) U2).
  - rewrite L2, !bool_decide_eq_false_2 by (by rewrite ?L2; try intros ?%nil_length_inv).
    destruct (positions_window s2 st D2) as (n & Hp & Hw & Hn).
    rewrite (d_start s st Hd), Hp. cbn [mbind option_bind].
    destruct (draw_rows_spec (seq st n) 0 s2) as (s3 & -> & P3); [by destruct D2| |].
    { apply Forall_forall. intros j Hj%elem_of_seq. destruct Hn as [->|Hn]; [lia|].
      destruct (lookup_lt_is_Some_2 (aiDisplay s2) j) as [i Hi]; [lia|]. exists i. split; [done|].
      destruct D2 as [_ _ Hr _ _ _]. rewrite Forall_lookup in Hr. by eapply Hr. }
    cbn [mbind option_bind]. eexists. split; [reflexivity|]. split_and!; try reflexivity.
    + cbn [drawn_state]. change (imap (λ k j, DRow (default 0 (aiDisplay s2 !! j)) (stripe s2 (0 + k))) (seq st n)
        = imap (λ k i, DRow i (stripe s k)) (window_rows s st)).
      assert (window_rows s st = window_rows s2 st) as ->.
      { unfold window_rows. rewrite L2. pose proof (f_equal _iDisplayLength U2) as E1. pose proof (f_equal bPaginate U2) as E2.
        cbn in E1, E2. by rewrite E1, E2. }
      rewrite Hw. assert (∀ k, stripe s2 k = stripe s k) as Hs by (intros k; exact (f_equal (λ x, stripe x k) U2)).
      destruct Hn as [->|Hn]; [done|]. rewrite (imap_window (λ k i, DRow i (stripe s2 (0 + k)))) by done.
      apply imap_ext. intros. cbn. by rewrite Hs.
    + transitivity (iDraw s3); [done|]. by rewrite (painted_part iDraw _ _ ltac:(done) P3).
    + transitivity (undrawn s3); [done|]. by rewrite (painted_undrawn _ _ P3).
Qed.

(** ** Server-side tables *)

(** The sorted columns exist, with the columns they sort by. *)
Definition sorts_exist (keys : list (list nat)) (cols : list nat) : Prop :=
  Forall (λ c, ∃ ks, keys !! c = Some ks ∧ Forall (λ k, k < length keys) ks) cols.

Lemma flatten_data_some cols src dir ks idx :
  Forall (λ k, k < length cols) ks → is_Some (flatten_data cols src dir idx ks).
Proof.
  intros H. revert idx. induction H as [|k ks [c Hc]%lookup_lt_is_Some_2 _ IH]; intros idx; [by eexists|].
  cbn [flatten_data]. rewrite Hc. cbn [mbind option_bind].
  match goal with |- context [flatten_data _ _ _ ?i ks] => destruct (IH i) as [[l j] ->] end. by eexists.
Qed.

Lemma flatten_entries_some cols l :
  sorts_exist (aDataSort <$> cols) (s_col <$> l) →
  ∃ fs l', flatten_entries cols l = Some (fs, l') ∧ s_col <$> l' = s_col <$> l.
Proof.
  induction l as [|e l IH]; intros H; [by exists [], []|]. apply Forall_cons in H as [(ks & Hk & Hks) H].
  rewrite list_lookup_fmap in Hk. destruct (cols !! s_col e) as [c|] eqn:Hc; [|done]. injection Hk as <-.
  rewrite length_fmap in Hks. cbn [flatten_entries]. rewrite Hc. cbn [mbind option_bind].
  destruct (flatten_data_some cols (s_col e) (s_dir e) (aDataSort c) (s_idx e) Hks) as [[fs idx] ->]. cbn [mbind option_bind].
  destruct (IH H) as (fs' & l' & -> & E). cbn [mbind option_bind]. eexists _, _. split; [done|]. cbn [fmap list_fmap]. f_equal. exact E.
Qed.

Lemma columns_params_some s cols :
  Forall (λ ic : nat * column, ic.1 < length (aoPreSearchCols s)) cols → is_Some (columns_params s cols).
Proof.
  induction 1 as [|[i c] cols [cs Hc]%lookup_lt_is_Some_2 _ [[ds ps] IH]]; [by eexists|].
  cbn [columns_params]. cbn [fst] in Hc. rewrite Hc. cbn [mbind option_bind]. rewrite IH. cbn [mbind option_bind].
  by destruct (column_params s i c cs) as [d p]; eexists.
Qed.

(** A table whose server has the rows: [n] requests are out or answered, the table shows [rows],
    and [pending] says whether it waits. *)
Record server_table (n : Z) (rows : list val) (pending : bool) (s : settings) : Prop := {
  t_server : bServerSide s = true;
  t_get : bAjaxDataGet s = true;
  t_defer : bDeferLoading s = false;
  t_destroying : bDestroying s = false;
  t_draws : false ∉ preDraw s;
  t_stripes : asStripeClasses s ≠ [];
  t_source : ajax_data_src s = VStr "data"%js;
  t_fixed : aaSortingFixed s = NoFixed;
  t_sorts : sorts_exist (aDataSort <$> aoColumns s) (s_col <$> entries (aaSorting s));
  t_searches : length (aoColumns s) ≤ length (aoPreSearchCols s);
  t_count : iDraw s = JInt n;
  t_rows : _aData <$> aoData s = rows;
  t_display : aiDisplay s = seq 0 (length rows) ∧ aiDisplayMaster s = seq 0 (length rows);
  t_body : if bool_decide (rows = []) then ∃ m c, nTBody s = [DMessage m c]
           else nTBody s = imap (λ k i, DRow i (stripe s k)) (seq 0 (length rows));
  t_pending : processing s = pending
}.

Lemma initial_start_form s : ∃ st i, initial_start s = set_iInitDisplayStart i (set_iDisplayStart st s).
Proof.
  unfold initial_start. destruct (iInitDisplayStart s) as [i|] eqn:E; [destruct (jeq i (JInt (-1)))|].
  2: by eexists _, _.
  all: exists (_iDisplayStart s), (iInitDisplayStart s); by destruct s.
Qed.

(** The user redraws, or the number of a draw comes back with rows. *)
Inductive table_event := Redraw | Answer (json : val) (k : Z) (rows : list val).

(** An answer in the current format. *)
Definition is_answer (json : val) (k : Z) (rows : list val) : Prop :=
  ∃ o d, json = VObj o ∧ obj_get "aaData"%js o = None ∧ obj_get "data"%js o = Some (VArr rows)
    ∧ obj_get "sEcho"%js o = None ∧ obj_get "draw"%js o = Some d ∧ answer_draw d = Some (Some (JInt k)).

Definition table_step (e : table_event) (s : settings) : option settings :=
  match e with
  | Redraw => draw s
  | Answer json _ _ => _fnAjaxUpdateDraw rowIdFn legacy sZeroRecords sLoadingRecords sEmptyTable json s
  end.

Lemma redraw_step n rows p s :
  server_table n rows p s →
  ∃ s', draw s = Some s' ∧ server_table (n + 1) rows true s' ∧ length (requests s') = S (length (requests s)).
Proof.
  intros [Hserver Hget Hdefer Hdes Hdraws Hstr Hsrc Hfix Hsorts Hsearch Hcount Hrows Hdisp Hbody Hpend].
  unfold _fnDraw. cbn [fire preDraw set_fired]. rewrite bool_decide_eq_false_2 by done.
  destruct (initial_start_form (set_bDrawing true (fire "preDraw"%js s))) as (st & i & ->).
  set (s1 := set_iInitDisplayStart i _).
  assert (is_ssp s1 = true) as Hssp by (rewrite is_ssp_bServerSide; exact Hserver). rewrite Hssp. cbn [negb].
  change (bDeferLoading s1) with (bDeferLoading s). change (bDestroying s1) with (bDestroying s). rewrite Hdefer, Hdes.
  unfold _fnAjaxUpdate. change (bAjaxDataGet s1) with (bAjaxDataGet s). rewrite Hget.
  set (s2 := _fnProcessingDisplay true _). unfold _fnAjaxParameters, _fnSortFlatten.
  change (aaSortingFixed s2) with (aaSortingFixed s). rewrite Hfix. unfold flatten_opt.
  change (aoColumns s2) with (aoColumns s). change (aaSorting s2) with (aaSorting s).
  destruct (flatten_entries_some (aoColumns s) (entries (aaSorting s)) Hsorts) as (fs & l' & -> & El). cbn [mbind option_bind].
  set (s3 := set_aaSorting _ s2).
  destruct (columns_params_some s3 (imap pair (aoColumns s))) as [[ds ps] E].
  { apply Forall_lookup. intros j [j' c]. rewrite list_lookup_imap. destruct (aoColumns s !! j) eqn:Ej; [|done].
    intros [= <- <-]. apply lookup_lt_Some in Ej. cbn. change (aoPreSearchCols s3) with (aoPreSearchCols s). lia. }
  rewrite E. cbn [mbind option_bind negb]. eexists. split; [reflexivity|]. split.
  - split; try done.
    + change (sorts_exist (aDataSort <$> aoColumns s) (s_col <$> entries (like (aaSorting s) l'))).
      assert (entries (like (aaSorting s) l') = l') as ->; [|by rewrite El].
      destruct (aaSorting s), l' as [|? [|]]; done.
    + change (jadd (iDraw s) (JInt 1) = JInt (n + 1)). by rewrite Hcount.
  - cbn. rewrite length_app. cbn. lia.
Qed.

(** The body of a table that shows all of [n] rows. *)
Definition body_ok (s : settings) (n : nat) : Prop :=
  if bool_decide (n = 0) then ∃ m c, nTBody s = [DMessage m c]
  else nTBody s = imap (λ k i, DRow i (stripe s k)) (seq 0 n).

(** The draw of the rows that an answer brought: no request is sent. *)
Lemma draw_answer s :
  bServerSide s = true → bAjaxDataGet s = false → bDeferLoading s = false → false ∉ preDraw s →
  asStripeClasses s ≠ [] → aiDisplay s = seq 0 (length (aoData s)) →
  ∃ s', draw s = Some s' ∧ undrawn s' = undrawn s ∧ iDraw s' = iDraw s ∧ bDeferLoading s' = false
    ∧ body_ok s' (length (aoData s)).
Proof.
  intros Hserver Hget Hdefer Hdraws Hstr Hdisp. unfold _fnDraw. cbn [fire preDraw set_fired]. rewrite bool_decide_eq_false_2 by done.
  destruct (initial_start_form (set_bDrawing true (fire "preDraw"%js s))) as (st & i & ->).
  set (s1 := set_iInitDisplayStart i _). assert (undrawn s1 = undrawn s) as U1 by reflexivity.
  assert (is_ssp s1 = true) as Hssp by (rewrite is_ssp_bServerSide; exact Hserver). rewrite Hssp. cbn [negb].
  change (bDeferLoading s1) with (bDeferLoading s). rewrite Hdefer. unfold _fnAjaxUpdate.
  change (bAjaxDataGet s1) with (bAjaxDataGet s). rewrite Hget.
  assert ((if bDestroying s1 then Some (true, s1) else Some (true, s1)) = Some (true, s1)) as -> by by destruct (bDestroying s1).
  cbn [mbind option_bind negb]. rewrite Hssp. change (aiDisplay s1) with (aiDisplay s). change (aoData s1) with (aoData s).
  rewrite Hdisp, length_seq. unfold body_ok. destruct (decide (length (aoData s) = 0)) as [E|E].
  - rewrite !bool_decide_eq_true_2 by done. eexists. split; [reflexivity|]. split_and!; try done. by eexists _, _.
  - rewrite !bool_decide_eq_false_2 by done.
    assert (positions (JInt 0) (JInt (Z.of_nat (length (aoData s)))) = Some (seq 0 (length (aoData s)))) as ->.
    { unfold positions. destruct (Z.leb_spec (Z.of_nat (length (aoData s))) 0); [lia|]. cbn. do 2 f_equal. lia. }
    cbn [mbind option_bind]. destruct (draw_rows_spec (seq 0 (length (aoData s))) 0 s1) as (s2 & -> & P2); [done| |].
    { apply Forall_forall. intros j Hj%elem_of_seq. exists j. change (aiDisplay s1) with (aiDisplay s). change (aoData s1) with (aoData s).
      rewrite Hdisp. split; [by rewrite lookup_seq_lt by lia|lia]. }
    cbn [mbind option_bind]. eexists. split; [reflexivity|]. split_and!.
    + transitivity (undrawn s2); [done|]. by rewrite (painted_undrawn _ _ P2).
    + transitivity (iDraw s2); [done|]. by rewrite (painted_part iDraw _ _ ltac:(done) P2).
    + transitivity (bDeferLoading s2); [done|]. by rewrite (painted_part bDeferLoading _ _ ltac:(done) P2).
    + transitivity (imap (λ k j, DRow (default 0 (aiDisplay s1 !! j)) (stripe s1 (0 + k))) (seq 0 (length (aoData s)))); [done|].
      change (aiDisplay s1) with (aiDisplay s). rewrite Hdisp.
      rewrite (imap_window (λ k i, DRow i (stripe s1 (0 + k)))) by (by rewrite length_seq).
      rewrite drop_0, take_ge by (by rewrite length_seq). apply imap_ext. intros k j _. cbn. f_equal.
      symmetry. transitivity (stripe s2 k); [done|]. exact (f_equal (λ x, stripe x k) (painted_undrawn _ _ P2)).
Qed.

Lemma prop_compat o old modern :
  ∃ v, (v ← prop (VObj o) old; if is_undef v then prop (VObj o) modern else Some v) = Some v.
Proof. unfold prop. cbn. destruct (is_undef _); by eexists. Qed.

Lemma answer_parsed json k rows s :
  is_answer json k rows → ajax_data_src s = VStr "data"%js →
  ∃ t f, table_step (Answer json k rows) s
    = if jlt (JInt k) (iDraw s) then Some s
      else take_rows rowIdFn legacy sZeroRecords sLoadingRecords sEmptyTable t f (VArr rows) (set_iDraw (JInt k) s).
Proof.
  intros (o & d & -> & Haa & Hdata & Hecho & Hdraw & Hd) Hsrc. cbn [table_step]. unfold _fnAjaxUpdateDraw.
  destruct (prop_compat o "iTotalRecords"%js "recordsTotal"%js) as [t Ht].
  destruct (prop_compat o "iTotalDisplayRecords"%js "recordsFiltered"%js) as [f Hf]. exists t, f.
  assert (_fnAjaxDataSrc s (VObj o) = Some (VArr rows)) as ->.
  { unfold _fnAjaxDataSrc. rewrite Hsrc. unfold prop. cbn [nullish get_prop mbind option_bind]. by rewrite Haa, Hdata. }
  assert ((v ← prop (VObj o) "sEcho"%js; if is_undef v then prop (VObj o) "draw"%js else Some v) = Some d) as ->.
  { unfold prop. cbn [nullish get_prop mbind option_bind]. by rewrite Hecho, Hdraw. }
  rewrite Ht, Hf. cbn [mbind option_bind]. by rewrite Hd.
Qed.

(** The same with the end of the initialisation: what is drawn, and what is as before. *)
Lemma answer_drawn s :
  bServerSide s = true → bAjaxDataGet s = false → bDeferLoading s = false → false ∉ preDraw s →
  asStripeClasses s ≠ [] → aiDisplay s = seq 0 (length (aoData s)) →
  ∃ s4, draw s = Some s4
    ∧ let s5 := if _bInitComplete s4 then s4 else _fnInitComplete s4 in
      (∀ A (g : settings → A), (∀ x, g (undrawn x) = g x) → (∀ b x, g (set_bInitComplete b x) = g x) → g s5 = g s)
      ∧ iDraw s5 = iDraw s ∧ bDeferLoading s5 = false ∧ _aData <$> aoData s5 = _aData <$> aoData s ∧ body_ok s5 (length (aoData s)).
Proof.
  intros H1 H2 H3 H4 H5 H6. destruct (draw_answer s H1 H2 H3 H4 H5 H6) as (s4 & E & U & I & F & B). exists s4. split; [exact E|]. intros s5.
  assert (aoData s5 = aoData s4 ∧ iDraw s5 = iDraw s4 ∧ bDeferLoading s5 = bDeferLoading s4 ∧ nTBody s5 = nTBody s4
    ∧ undrawn (set_bInitComplete true s5) = undrawn (set_bInitComplete true s4))
    as (E1 & E2 & E3 & E4 & E5) by (unfold s5; by destruct (_bInitComplete s4)).
  assert (∀ A (g : settings → A), (∀ x, g (undrawn x) = g x) → (∀ b x, g (set_bInitComplete b x) = g x) → g s5 = g s) as Hs5.
  { intros A g Hu Hi. rewrite <- (Hi true s5), <- (Hi true s), <- (Hu (set_bInitComplete true s5)), E5, (Hu (set_bInitComplete true s4)), !Hi.
    rewrite <- (Hu s4), <- (Hu s). f_equal. exact U. }
  split_and!; [exact Hs5|congruence|congruence| |].
  - rewrite E1. pose proof (f_equal (fmap _aData) (f_equal aoData U)) as Hb.
    change (_aData <$> (bare_row <$> aoData s4) = _aData <$> (bare_row <$> aoData s)) in Hb. by rewrite <- !list_fmap_compose in Hb.
  - assert (∀ k, stripe s5 k = stripe s4 k) as Hst
      by (intros k; transitivity (stripe s k); [exact (Hs5 _ (λ x, stripe x k) (λ _, eq_refl) (λ _ _, eq_refl))
            |symmetry; exact (f_equal (λ x, stripe x k) U)]).
    unfold body_ok in *. rewrite E4. destruct (bool_decide (length (aoData s) = 0)); [exact B|]. rewrite B. apply imap_ext. intros. by rewrite Hst.
Qed.

Lemma take_rows_spec n rows rows' p t f s :
  server_table n rows p s →
  ∃ s', take_rows rowIdFn legacy sZeroRecords sLoadingRecords sEmptyTable t f (VArr rows') s = Some s'
    ∧ server_table n rows' false s' ∧ requests s' = requests s.
Proof.
  intros [Hserver Hget Hdefer Hdes Hdraws Hstr Hsrc Hfix Hsorts Hsearch Hcount Hrows Hdisp Hbody Hpend].
  unfold take_rows. cbn [data_rows mbind option_bind]. set (s1 := set_iRecordsDisplay _ _).
  destruct (rows_add_some rowIdFn rows' s1) as (s2 & -> & G & M & D). cbn [mbind option_bind].
  cbn in M, D. set (s3 := set_bAjaxDataGet false _).
  assert (length (aoData s2) = length rows') as Hl by (apply (f_equal length) in D; by rewrite length_fmap in D).
  assert (∀ A (g : settings → A), (∀ x, g (core x) = g x) → g s2 = g s1) as Hg.
  { intros A g Hc. rewrite <- (Hc s2), <- (Hc s1). f_equal. exact G. }
  assert (∀ A (g : settings → A), (∀ x, g (core x) = g x) → g s1 = g s → (∀ b l x, g (set_bAjaxDataGet b (set_aiDisplay l x)) = g x) → g s3 = g s) as Hg3.
  { intros A g Hc H1 H3. unfold s3. by rewrite H3, (Hg _ g Hc). }
  destruct (answer_drawn s3) as (s4 & -> & Hs5 & E2 & E3 & Hd5 & B); [..|cbn [mbind option_bind]].
  1: by rewrite (Hg3 _ bServerSide).
  1: done.
  1: by rewrite (Hg3 _ bDeferLoading).
  1: by rewrite (Hg3 _ preDraw).
  1: by rewrite (Hg3 _ asStripeClasses).
  1: by change (aiDisplayMaster s2 = seq 0 (length (aoData s2))); rewrite M, Hl.
  set (s5 := if _bInitComplete s4 then s4 else _fnInitComplete s4) in *.
  set (keys := λ x, aDataSort <$> aoColumns x). set (n1 := λ x, length (aoColumns x)).
  assert (∀ x, keys (core x) = keys x) as Hk by (intros x; unfold keys; cbn; by rewrite <- list_fmap_compose).
  assert (∀ x, n1 (core x) = n1 x) as Hn1 by (intros x; unfold n1; cbn; by rewrite length_fmap).
  eexists. split; [reflexivity|]. split; [split|].
  - change (bServerSide s5 = true). by rewrite (Hs5 _ bServerSide), (Hg3 _ bServerSide).
  - done.
  - change (bDeferLoading s5 = false). exact E3.
  - change (bDestroying s5 = false). by rewrite (Hs5 _ bDestroying), (Hg3 _ bDestroying).
  - change (false ∉ preDraw s5). by rewrite (Hs5 _ preDraw), (Hg3 _ preDraw).
  - change (asStripeClasses s5 ≠ []). by rewrite (Hs5 _ asStripeClasses), (Hg3 _ asStripeClasses).
  - change (ajax_data_src s5 = VStr "data"%js). by rewrite (Hs5 _ ajax_data_src), (Hg3 _ ajax_data_src).
  - change (aaSortingFixed s5 = NoFixed). by rewrite (Hs5 _ aaSortingFixed), (Hg3 _ aaSortingFixed).
  - change (sorts_exist (keys s5) (s_col <$> entries (aaSorting s5))).
    rewrite (Hs5 _ keys), (Hg3 _ keys), (Hs5 _ aaSorting), (Hg3 _ aaSorting) by done. exact Hsorts.
  - change (n1 s5 ≤ length (aoPreSearchCols s5)).
    rewrite (Hs5 _ n1), (Hg3 _ n1), (Hs5 _ aoPreSearchCols), (Hg3 _ aoPreSearchCols) by done. exact Hsearch.
  - change (iDraw s5 = JInt n). by rewrite E2, (Hg3 _ iDraw).
  - change (_aData <$> aoData s5 = rows'). rewrite Hd5. exact D.
  - change (aiDisplay s5 = seq 0 (length rows') ∧ aiDisplayMaster s5 = seq 0 (length rows')).
    rewrite (Hs5 _ aiDisplay), (Hs5 _ aiDisplayMaster) by done. split; exact M.
  - change (if bool_decide (rows' = []) then ∃ m c, nTBody s5 = [DMessage m c]
      else nTBody s5 = imap (λ k i, DRow i (stripe s5 k)) (seq 0 (length rows'))).
    change (length (aoData s3)) with (length (aoData s2)) in B. rewrite Hl in B. unfold body_ok in B.
    destruct (decide (rows' = [])) as [->|Hne]; [by rewrite bool_decide_eq_true_2 in B |- * by done|].
    rewrite bool_decide_eq_false_2 in B |- * by (done || (by intros ?%nil_length_inv)). exact B.
  - done.
  - change (requests s5 = requests s). by rewrite (Hs5 _ requests), (Hg3 _ requests).
Qed.

(** ** The abstract table

    What the user is meant to see: the number of the latest draw, the rows on display, and whether
    an answer is still awaited. *)
Record abstract := Abstract { a_draw : Z; a_rows : list val; a_pending : bool }.

Definition abstract_step (a : abstract) (e : table_event) : abstract :=
  match e with
  | Redraw => Abstract (a_draw a + 1) (a_rows a) true
  | Answer _ k rows => if (k <? a_draw a)%Z then a else Abstract (a_draw a) rows false
  end.

(** The server answers draws that were sent. *)
Fixpoint valid_events (a : abstract) (es : list table_event) : Prop :=
  match es with
  | [] => True
  | e :: es =>
      match e with Redraw => True | Answer json k rows => is_answer json k rows ∧ (k ≤ a_draw a)%Z end
      ∧ valid_events (abstract_step a e) es
  end.

Fixpoint table_run (es : list table_event) (s : settings) : option settings :=
  match es with [] => Some s | e :: es => s ← table_step e s; table_run es s end.

Definition implements (a : abstract) (s : settings) : Prop := server_table (a_draw a) (a_rows a) (a_pending a) s.

Definition is_redraw (e : table_event) : bool := match e with Redraw => true | Answer _ _ _ => false end.
Definition redraws (es : list table_event) : nat := length (List.filter is_redraw es).

Lemma step_implements a e s :
  implements a s → match e with Redraw => True | Answer json k rows => is_answer json k rows ∧ (k ≤ a_draw a)%Z end →
  ∃ s', table_step e s = Some s' ∧ implements (abstract_step a e) s'
    ∧ length (requests s') = length (requests s) + (if is_redraw e then 1 else 0).
Proof.
  intros Hs He. destruct e as [|json k rows].
  - destruct (redraw_step _ _ _ _ Hs) as (s' & E & I & R). exists s'. split_and!; [done|done|]. cbn. lia.
  - destruct He as [Ha Hk]. destruct (answer_parsed json k rows s Ha (t_source _ _ _ _ Hs)) as (t & f & ->).
    rewrite (t_count _ _ _ _ Hs). cbn [jlt abstract_step is_redraw].
    destruct (Z.ltb_spec k (a_draw a)); [exists s; split_and!; [done|done|lia]|].
    assert (k = a_draw a) as -> by lia.
    assert (set_iDraw (JInt (a_draw a)) s = s) as -> by (rewrite <- (t_count _ _ _ _ Hs); by destruct s).
    destruct (take_rows_spec _ _ rows _ t f s Hs) as (s' & E & I & R). exists s'. split_and!; [done|done|]. rewrite R. lia.
Qed.

(** C4: A table with a server refines the abstract table, for every interleaving of redraws and
    answers in any order: it never fails, each redraw sends one request and an answer sends none,
    answers for earlier draws change nothing, and the rows in the page are always those of the last
    accepted answer, in order and all of them, with the waiting indicator on exactly while the
    answer of the latest draw is awaited. *)
Theorem server_table_refines a s es :
  implements a s → valid_events a es →
  ∃ s', table_run es s = Some s' ∧ implements (foldl abstract_step a es) s'
    ∧ length (requests s') = length (requests s) + redraws es.
Proof.
  revert a s. induction es as [|e es IH]; intros a s Hs Hv; [exists s; split_and!; [done|done|cbn; lia]|].
  destruct Hv as [He Hv]. destruct (step_implements a e s Hs He) as (s1 & E & H1 & R1).
  destruct (IH _ s1 H1 Hv) as (s' & E' & H' & R'). exists s'. cbn [table_run]. rewrite E. cbn [mbind option_bind].
  split_and!; [done|done|]. rewrite R', R1. unfold redraws. cbn [List.filter]. destruct (is_redraw e); cbn [length]; lia.
Qed.

End draw.

(** ** At concrete tables *)

Definition client_table : settings :=
  Settings false true true true true true false false VNull VNull "data"%js
    [sample_column (λ v _, v)] (sample_row <$> [VStr "a"%js; VStr "b"%js; VStr "c"%js; VStr "d"%js]) [3; 1; 0; 2] [3; 1; 0; 2]
    (Many []) NoFixed [] oSearch [oSearch]
    (JInt 2) (JInt 2) None (JInt 0) (JInt 0)
    (JInt 0) (JInt (-1)) true true false true false false true ["odd"%js; "even"%js] [] 0 [] [] [] false [] VNull VNull.

Example draw_correct_witness :
  ∃ s', _fnDraw None "none"%js "loading"%js "empty"%js client_table = Some s'
    ∧ nTBody s' = [DRow 0 "odd"%js; DRow 2 "even"%js] ∧ iDraw s' = JInt 1.
Proof.
  destruct (draw_correct None "none"%js "loading"%js "empty"%js client_table 2) as (s' & E & B & I & _).
  - split; try done; [|by left|by exists 2%Z; split; [|left]].
    apply (bool_decide_eq_true_1 (Forall _ _)). vm_compute. reflexivity.
  - apply (bool_decide_eq_true_1 (false ∉ ([] : list bool))). vm_compute. reflexivity.
  - exists s'. split; [exact E|]. split; [exact B|exact I].
Defined.

Definition remote_table : settings :=
  Settings true true true true true true false false (VStr "/rows"%js) VNull "data"%js
    [sample_column (λ v _, v)] [] [] [] (Many [Sorting 0 "asc"%js None]) NoFixed [] oSearch [oSearch]
    (JInt 0) (JInt 10) None (JInt 0) (JInt 0)
    (JInt 0) (JInt (-1)) false false false true false false true ["odd"%js; "even"%js] [] 0 [] [DMessage [] 1] [] false [] VNull VNull.

Definition sample_answer (k : Z) (rows : list val) : val :=
  VObj [("draw"%js, vint k); ("recordsTotal"%js, vint 2); ("recordsFiltered"%js, vint 2); ("data"%js, VArr rows)].

(** Two redraws, whose answers arrive in the wrong order. *)
Example server_table_refines_witness :
  let es := [Redraw; Redraw; Answer (sample_answer 2 [VStr "new"%js]) 2 [VStr "new"%js];
             Answer (sample_answer 1 [VStr "old"%js; VStr "x"%js]) 1 [VStr "old"%js; VStr "x"%js]] in
  ∃ s', table_run (λ _, None) None "none"%js "loading"%js "empty"%js es remote_table = Some s'
    ∧ _aData <$> aoData s' = [VStr "new"%js] ∧ nTBody s' = [DRow 0 (stripe s' 0)] ∧ processing s' = false
    ∧ length (requests s') = 2.
Proof.
  intros es. destruct (server_table_refines (λ _, None) None "none"%js "loading"%js "empty"%js (Abstract 0 [] false) remote_table es)
    as (s' & E & H & R).
  - split; try done; [apply (bool_decide_eq_true_1 (false ∉ ([] : list bool))); vm_compute; reflexivity| |by eexists _, _].
    constructor; [|constructor]. exists [0]. split; [done|]. constructor; [cbn; lia|constructor].
  - assert (∀ k rows, answer_draw (vint k) = Some (Some (JInt k)) → is_answer (sample_answer k rows) k rows) as Ha
      by (intros k rows Hk; eexists _, _; split_and!; try reflexivity; exact Hk).
    split; [done|]. split; [done|].
    split; [split; [apply Ha; vm_compute; reflexivity|vm_compute; discriminate]|].
    split; [split; [apply Ha; vm_compute; reflexivity|vm_compute; discriminate]|done].
  - exists s'. split_and!; [exact E|exact (t_rows _ _ _ _ H)|exact (t_body _ _ _ _ H)|exact (t_pending _ _ _ _ H)|exact R].
Defined.
