(* ===== verification/DtState.v ===== *)
(** * Saved state of a table (jquery.dataTables.js, "state")

    Saving the state of a table in the storage of the browser and loading it when the table is
    made again.  The clock, the name of the table and the address of the page are parameters;
    hooks of the page that change the state are left out.  [None] stands for an exception, or for
    a stored value of a type that the settings do not have. *)

From S2P Require Import Prelude JsString JsObject JsNumber JsValue JsJson JsInt JqExtend DtUtil DtModel DtTypes DtSort DtSortTheorems DtPath DtDraw.

(** The storages of the browser. *)
Record storages := Storages { sessionStorage : jsobj jstring; localStorage : jsobj jstring }.

Section state.
Variable sInstance : jstring.
Variable pathname : jstring.

Definition state_key : jstring := "DataTables_"%js ++ sInstance ++ "_"%js ++ pathname.

(** [fnStateSaveCallback]; a value without a text is not stored. *)
Definition fnStateSaveCallback (s : settings) (data : val) (w : storages) : storages :=
  match json_stringify data with
  | Some t => if (iStateDuration s =? -1)%Z
              then Storages (obj_set state_key t (sessionStorage w)) (localStorage w)
              else Storages (sessionStorage w) (obj_set state_key t (localStorage w))
  | None => w
  end.

(** [fnStateLoadCallback]: [undefined] when the text does not parse; the text of no item is null. *)
Definition fnStateLoadCallback (s : settings) (w : storages) : val :=
  match obj_get state_key (if (iStateDuration s =? -1)%Z then sessionStorage w else localStorage w) with
  | Some t => default VUndef (json_parse t)
  | None => VNull
  end.

(** ** Saving *)

Definition _fnSearchToCamel (obj : search) : val :=
  VObj [("search"%js, VStr (sSearch obj)); ("smart"%js, VBool (bSmart obj)); ("regex"%js, VBool (bRegex obj));
        ("caseInsensitive"%js, VBool (bCaseInsensitive obj))].

(** The indices of directions, kept as properties of the arrays, have no text. *)
Definition entry_val (e : sorting) : val := VArr [vnat (s_col e); VStr (s_dir e)].
Definition order_val (a : sorting_opt) : val :=
  match a with One e => entry_val e | Many l => VArr (entry_val <$> l) end.

Fixpoint column_states (cols : list column) (searches : list search) : option (list val) :=
  match cols, searches with
  | [], _ => Some []
  | c :: cols, o :: searches =>
      l ← column_states cols searches;
      Some (VObj [("visible"%js, VBool (bVisible c)); ("search"%js, _fnSearchToCamel o)] :: l)
  | _ :: _, [] => None
  end.

Definition state_val (now : Z) (s : settings) : option val :=
  cols ← column_states (aoColumns s) (aoPreSearchCols s);
  Some (VObj [("time"%js, vint now); ("start"%js, vjint (_iDisplayStart s)); ("length"%js, vjint (_iDisplayLength s));
              ("order"%js, order_val (aaSorting s)); ("search"%js, _fnSearchToCamel (oPreviousSearch s));
              ("columns"%js, VArr cols)]).

Definition _fnSaveState (now : Z) (s : settings) (w : storages) : option (settings * storages) :=
  if negb (bStateSave s) || bDestroying s then Some (s, w)
  else state ← state_val now s; Some (set_oSavedState state (fire "stateSaveParams"%js s), fnStateSaveCallback s state w).

(** [state.clear()] *)
Definition state_clear (s : settings) (w : storages) : storages := fnStateSaveCallback s (VObj []) w.

(** ** Loading *)

Definition as_jint (v : val) : option jint := match v with VNum x => jint_of_num x | _ => None end.
Definition as_nat (v : val) : option nat :=
  match as_jint v with Some (JInt z) => if (0 <=? z)%Z then Some (Z.to_nat z) else None | _ => None end.
Definition as_bool (v : val) : option bool := match v with VBool b => Some b | _ => None end.
Definition as_str (v : val) : option jstring := match v with VStr s => Some s | _ => None end.

(** [$.extend(o, { p: v })]: an undefined value changes nothing. *)
Definition extend_with {A} (read : val → option A) (v : val) (old : A) : option A :=
  if is_undef v then Some old else read v.

(** [$.extend(o, _fnSearchToHung(v))] *)
Definition load_search (v : val) (o : search) : option search :=
  search ← prop v "search"%js; smart ← prop v "smart"%js;
  regex ← prop v "regex"%js; ci ← prop v "caseInsensitive"%js;
  search ← extend_with as_str search (sSearch o); smart ← extend_with as_bool smart (bSmart o);
  regex ← extend_with as_bool regex (bRegex o); ci ← extend_with as_bool ci (bCaseInsensitive o);
  Some (Search search regex smart ci (bEscapeRegex o)).

(** A sorted column that does not exist becomes the first one. *)
Definition load_entry (n : nat) (v : val) : option sorting :=
  match v with
  | VArr (c :: VStr d :: _) =>
      c ← as_nat c; Some (if bool_decide (n ≤ c) then Sorting 0 d None else Sorting c d None)
  | _ => None
  end.

Definition load_order (n : nat) (v : val) : option sorting_opt :=
  match v with
  | VArr [VNum c; VStr d] => c ← as_nat (VNum c); Some (One (Sorting c d None))
  | VArr l => l ← mapM (load_entry n) l; Some (Many l)
  | _ => None
  end.

Fixpoint load_columns (l : list val) (cols : list column) (searches : list search)
    : option (list column * list search) :=
  match l, cols, searches with
  | [], _, _ => Some (cols, searches)
  | v :: l, c :: cols, o :: searches =>
      visible ← prop v "visible"%js;
      visible ← extend_with as_bool visible (bVisible c);
      sv ← prop v "search"%js;
      o ← (if is_undef sv then Some o else load_search sv o);
      '(cols, searches) ← load_columns l cols searches;
      Some (set_bVisible visible c :: cols, o :: searches)
  | _, _, _ => None
  end.

(** What a state that is not rejected changes. *)
Definition restore (state : val) (columns : list val) (s : settings) : option settings :=
  start ← prop state "start"%js;
  s ← (if is_undef start then Some s
       else start ← as_jint start; Some (set_iInitDisplayStart (Some start) (set_iDisplayStart start s)));
  len ← prop state "length"%js;
  len ← extend_with as_jint len (_iDisplayLength s);
  order ← prop state "order"%js;
  order ← extend_with (load_order (length (aoColumns s))) order (aaSorting s);
  sv ← prop state "search"%js;
  o ← (if is_undef sv then Some (oPreviousSearch s) else load_search sv (oPreviousSearch s));
  '(cols, searches) ← load_columns columns (aoColumns s) (aoPreSearchCols s);
  Some (set_aoPreSearchCols searches (set_aoColumns cols (set_oPreviousSearch o
         (set_aaSorting order (set_iDisplayLength len s))))).

(** [refuse]: a hook of the page returns false. *)
Definition _fnLoadState (now : Z) (refuse : bool) (w : storages) (s : settings) : option settings :=
  if negb (bStateSave s) then Some s
  else
    let state := fnStateLoadCallback s w in
    if negb (truthy state) then Some s
    else
      time ← prop state "time"%js;
      if negb (truthy time) then Some s
      else
        let s := fire "stateLoadParams"%js s in
        if refuse then Some s
        else
          let duration := iStateDuration s in
          if (0 <? duration)%Z && flt (to_number time) (num_of_Z (now - duration * 1000)) then Some s
          else
            columns ← prop state "columns"%js;
            len ← prop columns "length"%js;
            if negb (bool_decide (len = vnat (length (aoColumns s)))) then Some s
            else
              columns ← match columns with VArr l => Some l | _ => None end;
              s ← restore state columns (set_oLoadedState (match state with VObj o => extend_value (VObj []) o | _ => state end) s);
              Some (fire "stateLoaded"%js s).
End state.

(** ** Round trip *)

(** Integers that numbers and their texts represent exactly. *)
Definition exact_int (z : Z) : bool :=
  num_json (num_of_Z z) && bool_decide (jint_of_num (num_of_Z z) = Some (JInt z)).

Definition exact_jint (j : jint) : bool := match j with JInt z => exact_int z | _ => false end.
Definition plain_text (s : jstring) : bool := forallb (λ u, (u <? 65536)%N) s.

Definition entry_storable (n : nat) (e : sorting) : bool :=
  exact_int (Z.of_nat (s_col e)) && plain_text (s_dir e) && bool_decide (s_col e < n).

(** What can be saved without loss. *)
Definition storable (now : Z) (s : settings) : bool :=
  exact_int now && truthy (vint now)
  && exact_jint (_iDisplayStart s) && exact_jint (_iDisplayLength s)
  && forallb (entry_storable (length (aoColumns s))) (entries (aaSorting s))
  && plain_text (sSearch (oPreviousSearch s))
  && forallb (λ o, plain_text (sSearch o)) (aoPreSearchCols s)
  && bool_decide (length (aoPreSearchCols s) = length (aoColumns s)).

Lemma plain_text_units s : plain_text s = true → Forall unit16_ s.
Proof. unfold plain_text. rewrite forallb_forall. intros H. apply Forall_forall. intros u Hu%list_elem_of_In. by apply N.ltb_lt, H. Qed.

Lemma json_obj (o : jsobj val) :
  bool_decide (NoDup (obj_keys o)) && bool_decide (for_in o = obj_keys o) && forallb plain_text (obj_keys o) = true →
  Forall (λ kv, json_val kv.2) o → json_val (VObj o).
Proof.
  rewrite !andb_true_iff, !bool_decide_eq_true. intros [[H1 H2] H3] H. cbn [json_val]. split_and!; [done|done|].
  clear H1 H2. induction H as [|kv o Hv _ IH]; [done|]. unfold obj_keys in *. cbn [fmap list_fmap forallb] in H3.
  apply andb_true_iff in H3 as [Hk H3]. split_and!; [by apply plain_text_units|done|by apply IH].
Qed.

Lemma json_arr l : Forall json_val l → json_val (VArr l).
Proof. cbn [json_val]. induction 1; [done|]. by split. Qed.

Lemma json_exact z : exact_int z = true → json_val (vint z).
Proof. unfold exact_int. rewrite andb_true_iff. by intros [H _]. Qed.

Lemma json_search o : plain_text (sSearch o) = true → json_val (_fnSearchToCamel o).
Proof.
  intros H. apply json_obj; [by vm_compute|]. apply Forall_cons; split; [by apply plain_text_units|]. by repeat (apply Forall_cons; split).
Qed.

Lemma json_order n a : forallb (entry_storable n) (entries a) = true → json_val (order_val a).
Proof.
  assert (∀ e, entry_storable n e = true → json_val (entry_val e)) as He.
  { intros e. unfold entry_storable. rewrite !andb_true_iff. intros [[H1 H2] _].
    apply json_arr. apply Forall_cons; split; [by apply json_exact|]. apply Forall_cons; split; [by apply plain_text_units|done]. }
  destruct a as [e|l]; cbn [entries order_val]; intros H.
  - apply He. cbn in H. by rewrite andb_true_r in H.
  - apply json_arr, Forall_fmap, Forall_forall. intros e Hin. apply He. rewrite forallb_forall in H. by apply H, list_elem_of_In.
Qed.

Lemma column_states_some cols searches :
  length searches = length cols → forallb (λ o, plain_text (sSearch o)) searches = true →
  ∃ l, column_states cols searches = Some l ∧ Forall json_val l ∧ length l = length cols.
Proof.
  revert searches. induction cols as [|c cols IH]; intros [|o searches] Hl H; try done; [by exists []|].
  cbn [forallb] in H. apply andb_true_iff in H as [Ho H]. destruct (IH searches) as (l & E & J & L); [by injection Hl|done|].
  cbn [column_states]. rewrite E. eexists. split; [reflexivity|]. split; [|cbn; by rewrite L]. constructor; [|done].
  apply json_obj; [by vm_compute|]. apply Forall_cons; split; [exact I|]. apply Forall_cons; split; [by apply json_search|done].
Qed.

Lemma load_search_camel o o0 :
  load_search (_fnSearchToCamel o) o0 = Some (Search (sSearch o) (bRegex o) (bSmart o) (bCaseInsensitive o) (bEscapeRegex o0)).
Proof. done. Qed.

Lemma load_columns_states cols searches l cols0 searches0 :
  column_states cols searches = Some l → length cols0 = length cols → length searches0 = length cols → length searches = length cols →
  load_columns l cols0 searches0
  = Some (zip_with (λ c c0, set_bVisible (bVisible c) c0) cols cols0,
          zip_with (λ o o0, Search (sSearch o) (bRegex o) (bSmart o) (bCaseInsensitive o) (bEscapeRegex o0)) searches searches0).
Proof.
  revert searches l cols0 searches0. induction cols as [|c cols IH]; intros [|o searches] l [|c0 cols0] [|o0 searches0] H H1 H2 H3; try done.
  { by injection H as <-. }
  cbn [column_states] in H. destruct (column_states cols searches) as [l'|] eqn:E; [|done]. injection H as <-.
  cbn [load_columns]. set (v := VObj _).
  change (prop v "visible"%js) with (Some (VBool (bVisible c))). change (prop v "search"%js) with (Some (_fnSearchToCamel o)).
  cbn [mbind option_bind extend_with is_undef as_bool]. rewrite load_search_camel.
  change (is_undef (_fnSearchToCamel o)) with false. cbn [mbind option_bind].
  rewrite (IH searches l' cols0 searches0) by (done || (cbn in *; lia)). done.
Qed.

Lemma as_jint_exact z : exact_int z = true → as_jint (vint z) = Some (JInt z).
Proof. unfold exact_int. rewrite andb_true_iff, bool_decide_eq_true. by intros [_ H]. Qed.

Lemma as_nat_exact n : exact_int (Z.of_nat n) = true → as_nat (vnat n) = Some n.
Proof.
  intros H. unfold as_nat, vnat. rewrite as_jint_exact by done. rewrite (proj2 (Z.leb_le _ _)) by lia. by rewrite Nat2Z.id.
Qed.

Definition plain_entry (e : sorting) : sorting := Sorting (s_col e) (s_dir e) None.
Definition plain_order (a : sorting_opt) : sorting_opt :=
  match a with One e => One (plain_entry e) | Many l => Many (plain_entry <$> l) end.

Lemma load_entry_val n e : entry_storable n e = true → load_entry n (entry_val e) = Some (plain_entry e).
Proof.
  unfold entry_storable. rewrite !andb_true_iff, bool_decide_eq_true. intros [[H1 _] H3]. cbn [entry_val load_entry].
  rewrite as_nat_exact by done. cbn [mbind option_bind]. by rewrite bool_decide_eq_false_2 by lia.
Qed.

Lemma load_order_val n a :
  forallb (entry_storable n) (entries a) = true → load_order n (order_val a) = Some (plain_order a).
Proof.
  destruct a as [e|l]; cbn [entries order_val].
  - cbn [forallb]. rewrite andb_true_r. unfold entry_storable. rewrite !andb_true_iff. intros [[H1 _] _].
    transitivity (c ← as_nat (vnat (s_col e)); Some (One (Sorting c (s_dir e) None))); [done|]. by rewrite as_nat_exact.
  - intros H. assert (mapM (load_entry n) (entry_val <$> l) = Some (plain_entry <$> l)) as E.
    { induction l as [|e l IH]; [done|]. cbn [forallb] in H. apply andb_true_iff in H as [He H].
      cbn [fmap list_fmap mapM]. rewrite load_entry_val by done. cbn [mbind option_bind]. by rewrite IH. }
    unfold load_order. destruct l as [|e1 [|e2 [|]]]; by rewrite ?E.
Qed.

Definition keep_escape (o o0 : search) : search :=
  Search (sSearch o) (bRegex o) (bSmart o) (bCaseInsensitive o) (bEscapeRegex o0).

(** The state [s'] has the saved features of [s]; the rest is that of [s0]. *)
Definition restored (s s0 s' : settings) : Prop :=
  _iDisplayStart s' = _iDisplayStart s ∧ iInitDisplayStart s' = Some (_iDisplayStart s)
  ∧ _iDisplayLength s' = _iDisplayLength s ∧ aaSorting s' = plain_order (aaSorting s)
  ∧ oPreviousSearch s' = keep_escape (oPreviousSearch s) (oPreviousSearch s0)
  ∧ aoPreSearchCols s' = zip_with keep_escape (aoPreSearchCols s) (aoPreSearchCols s0)
  ∧ aoColumns s' = zip_with (λ c c0, set_bVisible (bVisible c) c0) (aoColumns s) (aoColumns s0)
  ∧ aoData s' = aoData s0 ∧ aiDisplayMaster s' = aiDisplayMaster s0.

Lemma restore_state now s s0 l :
  storable now s = true → column_states (aoColumns s) (aoPreSearchCols s) = Some l →
  length (aoColumns s0) = length (aoColumns s) → length (aoPreSearchCols s0) = length (aoColumns s) →
  ∃ state s', state_val now s = Some state ∧ restore state l s0 = Some s' ∧ restored s s0 s'.
Proof.
  unfold storable. rewrite !andb_true_iff, bool_decide_eq_true. intros [[[[[[[H1 H2] H3] H4] H5] H6] H7] H8] E Hc Hs.
  unfold state_val. rewrite E. cbn [mbind option_bind]. set (state := VObj _). exists state.
  destruct (_iDisplayStart s) as [a| |] eqn:Ea; try done. destruct (_iDisplayLength s) as [b| |] eqn:Eb; try done.
  cbn [exact_jint] in H3, H4. unfold restore.
  change (prop state "start"%js) with (Some (vint a)). change (prop state "length"%js) with (Some (vint b)).
  change (prop state "order"%js) with (Some (order_val (aaSorting s))).
  change (prop state "search"%js) with (Some (_fnSearchToCamel (oPreviousSearch s))).
  cbn [mbind option_bind]. change (is_undef (vint a)) with false. rewrite as_jint_exact by done. cbn [mbind option_bind].
  change (extend_with as_jint (vint b) _) with (as_jint (vint b)). rewrite as_jint_exact by done. cbn [mbind option_bind].
  set (s1 := set_iInitDisplayStart _ _).
  assert (extend_with (load_order (length (aoColumns s1))) (order_val (aaSorting s)) (aaSorting s1) = Some (plain_order (aaSorting s))) as ->.
  { unfold extend_with. assert (is_undef (order_val (aaSorting s)) = false) as -> by (by destruct (aaSorting s)).
    change (length (aoColumns s1)) with (length (aoColumns s0)). rewrite Hc. by apply load_order_val. }
  cbn [mbind option_bind]. change (is_undef (_fnSearchToCamel (oPreviousSearch s))) with false. rewrite load_search_camel. cbn [mbind option_bind].
  change (aoColumns s1) with (aoColumns s0). change (aoPreSearchCols s1) with (aoPreSearchCols s0).
  rewrite (load_columns_states _ _ _ _ _ E Hc Hs H8). cbn [mbind option_bind].
  eexists. split; [done|]. split; [reflexivity|]. unfold restored. rewrite Ea, Eb. by split_and!.
Qed.

Section round_trip.
Variable sInstance pathname : jstring.

(** C20: What is saved is loaded: a table that is made again with the same number of columns, while
    the saved state is not too old, gets back the page, the page length, the sorted columns, the
    searches and the visible columns it had, through the text in the storage of the browser; only
    the remembered indices of directions are lost. *)
Theorem state_roundtrip now now' s s0 w :
  storable now s = true → bStateSave s = true → bDestroying s = false →
  bStateSave s0 = true → iStateDuration s0 = iStateDuration s →
  (iStateDuration s ≤ 0)%Z ∨ flt (num_of_Z now) (num_of_Z (now' - iStateDuration s * 1000)) = false →
  length (aoColumns s0) = length (aoColumns s) → length (aoPreSearchCols s0) = length (aoColumns s) →
  ∃ s1 w' s', _fnSaveState sInstance pathname now s w = Some (s1, w')
    ∧ _fnLoadState sInstance pathname now' false w' s0 = Some s' ∧ restored s s0 s'.
Proof.
  intros Hst Hsave Hdes Hsave0 Hdur Hage Hc Hs. pose proof Hst as Hst'. unfold storable in Hst'.
  rewrite !andb_true_iff, bool_decide_eq_true in Hst'. destruct Hst' as [[[[[[[H1 H2] H3] H4] H5] H6] H7] H8].
  destruct (column_states_some (aoColumns s) (aoPreSearchCols s) H8 H7) as (l & E & J & L).
  destruct (state_val now s) as [state|] eqn:Ev; [|unfold state_val in Ev; by rewrite E in Ev].
  destruct (restore_state now s (set_oLoadedState (match state with VObj o => extend_value (VObj []) o | _ => state end) (fire "stateLoadParams"%js s0)) l Hst E Hc Hs)
    as (? & s' & Ev' & Er & R). rewrite Ev in Ev'. injection Ev' as <-.
  unfold _fnSaveState. rewrite Hsave, Hdes. cbn [negb orb]. rewrite Ev. cbn [mbind option_bind].
  unfold state_val in Ev. rewrite E in Ev. cbn [mbind option_bind] in Ev. injection Ev as <-. set (state := VObj (_ :: _)) in *.
  assert (json_val state) as Hj.
  { apply json_obj; [by vm_compute|].
    destruct (_iDisplayStart s) as [a| |]; try done. destruct (_iDisplayLength s) as [b| |]; try done.
    repeat (apply Forall_cons; split); cbn [snd]; [by apply json_exact..|by eapply json_order|by apply json_search|by apply json_arr|constructor]. }
  destruct (json_text state Hj) as (text & Et & _). pose proof (json_parse_stringify state text Hj Et) as Hp.
  eexists _, _, (fire "stateLoaded"%js s'). split; [reflexivity|]. split; [|exact R].
  unfold _fnLoadState. rewrite Hsave0. cbn [negb].
  assert (fnStateLoadCallback sInstance pathname s0 (fnStateSaveCallback sInstance pathname s state w) = state) as ->.
  { unfold fnStateLoadCallback, fnStateSaveCallback. rewrite Et, Hdur.
    destruct (iStateDuration s =? -1)%Z; cbn [sessionStorage localStorage];
      rewrite obj_get_set, decide_True by done; by rewrite Hp. }
  change (truthy state) with true. change (prop state "time"%js) with (Some (vint now)). cbn [negb mbind option_bind].
  rewrite H2. cbn [negb]. change (iStateDuration (fire "stateLoadParams"%js s0)) with (iStateDuration s0). rewrite Hdur.
  change (to_number (vint now)) with (num_of_Z now).
  assert ((0 <? iStateDuration s)%Z && flt (num_of_Z now) (num_of_Z (now' - iStateDuration s * 1000)) = false) as ->.
  { destruct Hage as [Hage | ->]; [|by rewrite andb_false_r]. by apply Z.ltb_ge in Hage as ->. }
  change (prop state "columns"%js) with (Some (VArr l)). cbn [mbind option_bind].
  change (prop (VArr l) "length"%js) with (Some (vnat (length l))). cbn [mbind option_bind].
  change (aoColumns (fire "stateLoadParams"%js s0)) with (aoColumns s0). rewrite L, <- Hc, bool_decide_eq_true_2 by done.
  cbn [negb]. unfold state in Er |- *. by rewrite Er.
Qed.
End round_trip.

Definition sample_saved : settings :=
  set_oPreviousSearch (Search "tab"%js false true true None)
    (set_aaSorting (Many [Sorting 0 "desc"%js (Some 1%Z)]) (set_iDisplayStart (JInt 20)
      (Settings false true true true true true true false VNull VNull []
        [sample_column (λ v _, v)] [] [] [] (Many []) NoFixed [] oSearch [oSearch]
        (JInt 0) (JInt 10) None (JInt 0) (JInt 0)
        (JInt 0) (JInt (-1)) false false false true false false true [] [] 7200 [] [] [] false [] VNull VNull))).

Example state_roundtrip_witness :
  let s0 := set_iDisplayStart (JInt 0) (set_oPreviousSearch oSearch sample_saved) in
  ∃ s1 w' s', _fnSaveState "t"%js "/"%js 1700000000000 sample_saved (Storages [] []) = Some (s1, w')
    ∧ _fnLoadState "t"%js "/"%js 1700000060000 false w' s0 = Some s'
    ∧ _iDisplayStart s' = JInt 20 ∧ oPreviousSearch s' = Search "tab"%js false true true None
    ∧ aaSorting s' = Many [Sorting 0 "desc"%js None].
Proof.
  intros s0. destruct (state_roundtrip "t"%js "/"%js 1700000000000 1700000060000 sample_saved s0 (Storages [] [])
    ltac:(vm_compute; reflexivity) eq_refl eq_refl eq_refl eq_refl ltac:(right; vm_compute; reflexivity) eq_refl eq_refl)
    as (s1 & w' & s' & E1 & E2 & R).
  exists s1, w', s'. destruct R as (R1 & _ & _ & R2 & R3 & _). split_and!; [exact E1|exact E2|exact R1|exact R3|exact R2].
Defined.
