(* ===== verification/DtHeader.v ===== *)
(** * The grid of a header (jquery.dataTables.js, "draw": headers)

    The grid of rows and columns that a header's cells cover with their spans, the cells that
    stand for the columns, and the drawing of the header without the hidden columns.  Cells and
    rows of the page are numbers; the attributes of spans are integers, 0 when they are missing.
    [None] stands for an exception. *)

From S2P Require Import Prelude JsString JsObject JsNumber JsValue JsInt DtUtil DtModel.

(** A cell in a row of the header: the node with its [colspan] and [rowspan]. *)
Record head_cell := HeadCell { h_node : nat; h_colspan : Z; h_rowspan : Z }.

(** A place of the grid, and a row of it with the row of the page it belongs to. *)
Record lcell := LCell { cell : nat; unique : bool }.
Record lrow := LRow { places : list (option lcell); lnTr : option nat }.

(** [!span || span === 0 || span === 1 ? 1 : span] *)
Definition span_of (z : Z) : Z := if (z =? 0)%Z then 1%Z else z.

(** [fnShiftCol]: the first free place. *)
Fixpoint fnShiftCol (l : list (option lcell)) : nat :=
  match l with Some _ :: l => S (fnShiftCol l) | _ => 0 end.

(** [a[j] = v], which extends the row. *)
Definition place (j : nat) (v : lcell) (l : list (option lcell)) : list (option lcell) :=
  if bool_decide (j < length l) then <[j := Some v]> l else l ++ replicate (j - length l) None ++ [Some v].

(** The cell at one place; there must be a row. *)
Definition put (tr i j : nat) (v : lcell) (a : list lrow) : option (list lrow) :=
  r ← a !! i; Some (<[i := LRow (place j v (places r)) (Some tr)]> a).

Fixpoint put_all (tr : nat) (v : lcell) (ps : list (nat * nat)) (a : list lrow) : option (list lrow) :=
  match ps with
  | [] => Some a
  | (i, j) :: ps => a ← put tr i j v a; put_all tr v ps a
  end.

(** The places of a cell at row [i]: column by column. *)
Definition cell_places (i j : nat) (colspan rowspan : nat) : list (nat * nat) :=
  flat_map (λ l, (λ k, (i + k, j + l)) <$> seq 0 rowspan) (seq 0 colspan).

Fixpoint detect_cells (i : nat) (cells : list head_cell) (a : list lrow) : option (list lrow) :=
  match cells with
  | [] => Some a
  | c :: cells =>
      let iColspan := span_of (h_colspan c) in
      let iRowspan := span_of (h_rowspan c) in
      r ← a !! i;
      let iColShifted := fnShiftCol (places r) in
      let bUnique := (iColspan =? 1)%Z in
      a ← put_all i (LCell (h_node c) bUnique) (cell_places i iColShifted (Z.to_nat iColspan) (Z.to_nat iRowspan)) a;
      detect_cells i cells a
  end.

Fixpoint detect_rows (i : nat) (trs : list (list head_cell)) (a : list lrow) : option (list lrow) :=
  match trs with
  | [] => Some a
  | cells :: trs => a ← detect_cells i cells a; detect_rows (S i) trs a
  end.

Definition _fnDetectHeader (trs : list (list head_cell)) : option (list lrow) :=
  detect_rows 0 trs (replicate (length trs) (LRow [] None)).

(** ** The cells that stand for the columns *)

Definition set_unique (bSortCellsTop : bool) (j : nat) (p : lcell) (ret : gmap nat nat) : gmap nat nat :=
  if unique p && (negb (bool_decide (is_Some (ret !! j))) || negb bSortCellsTop) then <[j := cell p]> ret else ret.

(** [None]: a place without a cell. *)
Fixpoint unique_row (top : bool) (j : nat) (l : list (option lcell)) (ret : gmap nat nat) : option (gmap nat nat) :=
  match l with
  | [] => Some ret
  | None :: _ => None
  | Some p :: l => unique_row top (S j) l (set_unique top j p ret)
  end.

Definition _fnGetUniqueThs (bSortCellsTop : bool) (aLayout : list lrow) : option (gmap nat nat) :=
  foldl (λ ret r, ret ← ret; unique_row bSortCellsTop 0 (places r) ret) (Some ∅) aLayout.

(** ** Drawing the header *)

(** The header in the page: the cells of each row, the spans of the cells. *)
Record head_page := HeadPage { head_rows : gmap nat (list nat); spans : gmap nat (nat * nat) }.

Definition empty_row (tr : option nat) (h : head_page) : head_page :=
  match tr with Some t => HeadPage (<[t := []]> (head_rows h)) (spans h) | None => h end.

(** [tr.appendChild(cell)]: the cell leaves the row it was in. *)
Definition append_cell (tr c : nat) (h : head_page) : head_page :=
  let rows := filter (.≠ c) <$> head_rows h in
  HeadPage (<[tr := default [] (rows !! tr) ++ [c]]> rows) (spans h).

Definition hidden_out (vis : list bool) (l : list (option lcell)) : list (option lcell) :=
  foldl (λ l j, if default false (vis !! j) then l else delete j l) l (rev (seq 0 (length vis))).

(** The rows below that have the same cell in column [j]; [None]: a row below is shorter. *)
Fixpoint row_run (c j : nat) (below : list lrow) : option nat :=
  match below with
  | [] => Some 0
  | r :: below =>
      p ← places r !! j; p ← (p : option lcell);
      if bool_decide (cell p = c) then n ← row_run c j below; Some (S n) else Some 0
  end.

(** The places to the right with the same cell. *)
Fixpoint col_run (c : nat) (beside : list (option lcell)) : nat :=
  match beside with
  | Some p :: beside => if bool_decide (cell p = c) then S (col_run c beside) else 0
  | _ => 0
  end.

(** One place of the grid. *)
Definition draw_place (aoLocal : list lrow) (i j : nat) (st : gset (nat * nat) * head_page)
    : option (gset (nat * nat) * head_page) :=
  let '(aApplied, h) := st in
  if bool_decide ((i, j) ∈ aApplied) then Some st
  else
    r ← aoLocal !! i; p ← places r !! j; p ← (p : option lcell); tr ← lnTr r;
    down ← row_run (cell p) j (drop (S i) aoLocal);
    let across := col_run (cell p) (drop (S j) (places r)) in
    let covered := flat_map (λ k, (λ l, (i + k, j + l)) <$> seq 0 (S across)) (seq 0 (S down)) in
    let h := append_cell tr (cell p) h in
    Some (aApplied ∪ list_to_set covered, HeadPage (head_rows h) (<[cell p := (S down, S across)]> (spans h))).

Fixpoint draw_places (aoLocal : list lrow) (i : nat) (js : list nat) (st : gset (nat * nat) * head_page)
    : option (gset (nat * nat) * head_page) :=
  match js with
  | [] => Some st
  | j :: js => st ← draw_place aoLocal i j st; draw_places aoLocal i js st
  end.

Fixpoint draw_head_rows (aoLocal : list lrow) (is_ : list nat) (st : gset (nat * nat) * head_page)
    : option (gset (nat * nat) * head_page) :=
  match is_ with
  | [] => Some st
  | i :: is_ =>
      r ← aoLocal !! i;
      st ← draw_places aoLocal i (seq 0 (length (places r))) (st.1, empty_row (lnTr r) st.2);
      draw_head_rows aoLocal is_ st
  end.

Definition _fnDrawHead (vis : list bool) (aoSource : list lrow) (bIncludeHidden : bool) (h : head_page) : option head_page :=
  let aoLocal := (λ r, LRow (if bIncludeHidden then places r else hidden_out vis (places r)) (lnTr r)) <$> aoSource in
  '(_, h) ← draw_head_rows aoLocal (seq 0 (length aoLocal)) (∅, h);
  Some h.

(** A header of two rows: a group over two columns next to a cell over both rows. *)
Definition group_header : list (list head_cell) :=
  [[HeadCell 10 0 2; HeadCell 11 2 0]; [HeadCell 12 0 0; HeadCell 13 0 0]].

Example header_ex :
  (λ vis, a ← _fnDetectHeader group_header; h ← _fnDrawHead vis a false (HeadPage ∅ ∅);
          Some (head_rows h !! 0, head_rows h !! 1, spans h !! 10, spans h !! 11))
    <$> [[true; true; true]; [true; false; true]; [false; true; true]; [true; false; false]]
  = [Some (Some [10; 11], Some [12; 13], Some (2, 1), Some (1, 2)); Some (Some [10; 11], Some [13], Some (2, 1), Some (1, 1));
     Some (Some [11], Some [12; 13], None, Some (1, 2)); Some (Some [10], Some [], Some (2, 1), None)].
Proof. vm_compute. reflexivity. Qed.

Example unique_ex :
  (λ top, a ← _fnDetectHeader group_header; m ← _fnGetUniqueThs top a; Some (map_to_list m)) <$> [true; false]
  = [Some [(2, 13); (1, 12); (0, 10)]; Some [(2, 13); (1, 12); (0, 10)]].
Proof. vm_compute. reflexivity. Qed.

(** A row without cells of its own keeps the row above as its row of the page: drawing the header
    empties that row again, after its cells were put in. *)
Example header_lost :
  (a ← _fnDetectHeader [[HeadCell 10 0 2; HeadCell 11 0 2]; []];
   h ← _fnDrawHead [true; true] a false (HeadPage {[0 := [10; 11]; 1 := []]} ∅); Some (map_to_list (head_rows h)))
  = Some [(1, []); (0, [])].
Proof. vm_compute. reflexivity. Qed.
