(* ===== verification/DtHeaderTheorems.v ===== *)
(** * Drawing a header, verified (jquery.dataTables.js, "draw": headers)

    The drawing of a header whose cells are blocks of the grid puts every cell that covers a
    visible column into the row where it starts, in the order of the columns, with the spans it
    has among the visible columns. *)

From S2P Require Import Prelude JsString JsObject JsNumber JsValue JsInt DtUtil DtModel DtHeader.

(** ** Grids *)

(** The cell at a place of the grid. *)
Definition at_ (a : list lrow) (i j : nat) : option nat :=
  r ← a !! i; p ← places r !! j; p ← (p : option lcell); Some (cell p).

(** The cell [c] covers exactly the block of [R] rows and [C] columns from [(p, q)]. *)
Definition block (a : list lrow) (c p q R C : nat) : Prop :=
  0 < R ∧ 0 < C ∧ ∀ i j, at_ a i j = Some c ↔ p ≤ i < p + R ∧ q ≤ j < q + C.

(** Every place of an [n] columns wide grid is covered, by blocks, and the rows are different. *)
Record grid_ok (n : nat) (a : list lrow) : Prop := {
  grid_full : ∀ i r, a !! i = Some r → length (places r) = n ∧ is_Some (lnTr r) ∧ ∀ j, j < n → is_Some (at_ a i j);
  grid_blocks : ∀ c i j, at_ a i j = Some c → ∃ p q R C, block a c p q R C;
  grid_rows : NoDup (lnTr <$> a)
}.

(** A cell starts at a place: the places above and to the left have another cell. *)
Definition starts_at (a : list lrow) (i j : nat) : bool :=
  match i with O => true | S i' => bool_decide (at_ a i' j ≠ at_ a i j) end
  && match j with O => true | S j' => bool_decide (at_ a i j' ≠ at_ a i j) end.

(** The cells that start in a row, in the order of the columns. *)
Definition starting (a : list lrow) (i : nat) (js : list nat) : list nat :=
  omap (λ j, if starts_at a i j then at_ a i j else None) js.

(** The page shows the grid. *)
Definition header_shown (n : nat) (a : list lrow) (h : head_page) : Prop :=
  (∀ i r t, a !! i = Some r → lnTr r = Some t → head_rows h !! t = Some (starting a i (seq 0 n)))
  ∧ ∀ c p q R C, block a c p q R C → spans h !! c = Some (R, C).

Lemma block_at a c p q R C : block a c p q R C → at_ a p q = Some c.
Proof. intros (HR & HC & H). apply H. lia. Qed.

Lemma block_starts a c p q R C i j :
  block a c p q R C → at_ a i j = Some c → starts_at a i j = true ↔ (i, j) = (p, q).
Proof.
  intros (HR & HC & H) Hc. pose proof (proj1 (H i j) Hc). unfold starts_at. rewrite andb_true_iff, Hc. split.
  - intros [Hi Hj].
    assert (i = p) as ->.
    { destruct i as [|i]; [lia|]. apply bool_decide_eq_true in Hi. destruct (decide (p = S i)) as [|Hne]; [done|].
      exfalso. apply Hi, H. lia. }
    destruct j as [|j]; [f_equal; lia|]. apply bool_decide_eq_true in Hj. destruct (decide (q = S j)) as [|Hne]; [by subst|].
    exfalso. apply Hj, H. lia.
  - intros [= -> ->]. split.
    + destruct p as [|p]; [done|]. apply bool_decide_eq_true. intros E%H. lia.
    + destruct q as [|q]; [done|]. apply bool_decide_eq_true. intros E%H. lia.
Qed.

Lemma block_unique a c p q R C p' q' R' C' :
  block a c p q R C → block a c p' q' R' C' → (p, q, R, C) = (p', q', R', C').
Proof.
  intros B B'. pose proof (block_at _ _ _ _ _ _ B) as E1. pose proof (block_at _ _ _ _ _ _ B') as E2.
  destruct B as (HR & HC & H), B' as (HR' & HC' & H').
  apply H' in E1. apply H in E2. assert (p = p') as <- by lia. assert (q = q') as <- by lia.
  assert (∀ i j, (p ≤ i < p + R ∧ q ≤ j < q + C) ↔ (p ≤ i < p + R' ∧ q ≤ j < q + C')) as HI by (intros i j; by rewrite <- H, H').
  pose proof (proj1 (HI (p + R - 1) q) ltac:(lia)). pose proof (proj2 (HI (p + R' - 1) q) ltac:(lia)).
  pose proof (proj1 (HI p (q + C - 1)) ltac:(lia)). pose proof (proj2 (HI p (q + C' - 1)) ltac:(lia)).
  assert (R = R') as <- by lia. assert (C = C') as <- by lia. done.
Qed.

(** ** The runs of a cell *)

Lemma at_row a i r j : a !! i = Some r → at_ a i j = (p ← places r !! j; p ← (p : option lcell); Some (cell p)).
Proof. unfold at_. by intros ->. Qed.

Lemma row_run_block a c j i k :
  (∀ i', i ≤ i' < length a → is_Some (at_ a i' j)) →
  (∀ i', i ≤ i' → at_ a i' j = Some c ↔ i' < i + k) →
  row_run c j (drop i a) = Some k.
Proof.
  revert i. induction k as [|k IH]; intros i Hf H.
  - destruct (drop i a) as [|r t] eqn:E; [done|]. assert (a !! i = Some r) as Hr.
    { rewrite <- (Nat.add_0_r i), <- lookup_drop, E. done. }
    destruct (Hf i) as [x Hx]; [apply lookup_lt_Some in Hr; lia|]. pose proof (H i ltac:(lia)) as Hi.
    rewrite (at_row _ _ _ _ Hr) in Hx, Hi. cbn [row_run].
    destruct (places r !! j) as [[p|]|]; try done. cbn [mbind option_bind] in *. rewrite bool_decide_eq_false_2; [done|].
    intros Hc. rewrite Hc in Hi. pose proof (proj1 Hi eq_refl). lia.
  - assert (at_ a i j = Some c) as Hi by (apply H; lia).
    destruct (a !! i) as [r|] eqn:Hr; [|unfold at_ in Hi; by rewrite Hr in Hi].
    rewrite (drop_S _ r) by done. cbn [row_run]. rewrite (at_row _ _ _ _ Hr) in Hi.
    destruct (places r !! j) as [[p|]|]; try done. cbn [mbind option_bind] in *. injection Hi as Hi.
    rewrite bool_decide_eq_true_2 by done. rewrite IH; [done| |].
    + intros i' Hi'. apply Hf. lia.
    + intros i' Hi'. rewrite H by lia. lia.
Qed.

Lemma col_run_block a r c i j k :
  a !! i = Some r → (∀ j', j ≤ j' → at_ a i j' = Some c ↔ j' < j + k) → col_run c (drop j (places r)) = k.
Proof.
  intros Hr. revert j. induction k as [|k IH]; intros j H.
  - pose proof (H j ltac:(lia)) as Hj. rewrite (at_row _ _ _ _ Hr) in Hj.
    destruct (drop j (places r)) as [|p t] eqn:E; [done|]. assert (places r !! j = Some p) as Hp.
    { rewrite <- (Nat.add_0_r j), <- lookup_drop, E. done. }
    rewrite Hp in Hj. cbn [mbind option_bind] in Hj. destruct p as [p|]; [|done]. cbn [col_run].
    rewrite bool_decide_eq_false_2; [done|]. intros Hc. cbn in Hj. rewrite Hc in Hj. pose proof (proj1 Hj eq_refl). lia.
  - assert (at_ a i j = Some c) as Hj by (apply H; lia). rewrite (at_row _ _ _ _ Hr) in Hj.
    destruct (places r !! j) as [p|] eqn:Hp; [|done]. rewrite (drop_S _ p) by done. cbn [mbind option_bind] in Hj.
    destruct p as [p|]; [|done]. cbn [mbind option_bind] in Hj. injection Hj as Hj. cbn [col_run].
    rewrite bool_decide_eq_true_2 by done. f_equal. apply IH. intros j' Hj'. rewrite H by lia. lia.
Qed.

(** ** The drawing *)

Section draw.
Context (n : nat) (a : list lrow) (Hok : grid_ok n a).

(** [(p, q)] comes before [(i, j)]. *)
Definition before (p q i j : nat) : Prop := p < i ∨ (p = i ∧ q < j).

(** The drawing has passed the places before [(i, j)]. *)
Definition passed (i j : nat) (st : gset (nat * nat) * head_page) : Prop :=
  (∀ x, x ∈ st.1 ↔ ∃ c p q R C, at_ a x.1 x.2 = Some c ∧ block a c p q R C ∧ before p q i j)
  ∧ (∀ i' r t, i' < i → a !! i' = Some r → lnTr r = Some t → head_rows st.2 !! t = Some (starting a i' (seq 0 n)))
  ∧ ∀ c p q R C, block a c p q R C → before p q i j → spans st.2 !! c = Some (R, C).

(** ... and row [i] has the cells before column [j]. *)
Definition row_passed (i j : nat) (st : gset (nat * nat) * head_page) : Prop :=
  passed i j st ∧ ∀ r t, a !! i = Some r → lnTr r = Some t → head_rows st.2 !! t = Some (starting a i (seq 0 j)).

Lemma in_grid i j : is_Some (at_ a i j) ↔ i < length a ∧ j < n.
Proof.
  split.
  - intros [c Hc]. unfold at_ in Hc. destruct (a !! i) as [r|] eqn:Hr; [|done]. cbn in Hc.
    destruct (grid_full _ _ Hok i r Hr) as (L & _). destruct (places r !! j) as [p|] eqn:Hp; [|done].
    apply lookup_lt_Some in Hr. apply lookup_lt_Some in Hp. lia.
  - intros [[r Hr]%lookup_lt_is_Some_2 Hj]. destruct (grid_full _ _ Hok i r Hr) as (_ & _ & H). by apply H.
Qed.

Lemma starting_S i j : starting a i (seq 0 (S j)) = starting a i (seq 0 j) ++ (if starts_at a i j then from_option (λ c, [c]) [] (at_ a i j) else []).
Proof.
  unfold starting. rewrite seq_S, omap_app. cbn [Nat.add omap list_omap]. f_equal.
  destruct (starts_at a i j); [|done]. by destruct (at_ a i j).
Qed.

(** A cell that starts in a row elsewhere is another cell. *)
Lemma starting_other c p q R C i j :
  block a c p q R C → ¬ before p q i j → filter (.≠ c) (starting a i (seq 0 j)) = starting a i (seq 0 j).
Proof.
  intros B Hb. induction j as [|j IH]; [done|]. rewrite starting_S, filter_app, IH by (unfold before in *; lia). f_equal.
  destruct (starts_at a i j) eqn:Hs; [|done]. destruct (at_ a i j) as [c'|] eqn:Hc; [|done]. cbn [from_option].
  rewrite filter_cons_True; [done|]. intros ->. apply (block_starts _ _ _ _ _ _ _ _ B Hc) in Hs as [= -> ->].
  apply Hb. unfold before. lia.
Qed.

(** A place that is applied changes nothing. *)
Lemma pass_applied i j st :
  row_passed i j st → (i, j) ∈ st.1 → row_passed i (S j) st.
Proof.
  intros [(HX & HR & HS) Hr] (c & p & q & R & C & Hc & B & Hb)%HX. cbn [fst snd] in Hc.
  assert (∀ p' q', before p' q' i (S j) ↔ before p' q' i j ∨ (p', q') = (i, j)) as Hbe.
  { intros p' q'. unfold before. split; [|intros [?|[= -> ->]]; lia].
    intros [?|[-> ?]]; [by left; left|]. destruct (decide (q' = j)) as [->|]; [by right|left; right; lia]. }
  assert (∀ c' p' q' R' C', block a c' p' q' R' C' → (p', q') ≠ (i, j)) as Hne.
  { intros c' p' q' R' C' B' [= -> ->]. pose proof (block_at _ _ _ _ _ _ B') as E. rewrite Hc in E. injection E as <-.
    pose proof (block_unique _ _ _ _ _ _ _ _ _ _ B B') as [= -> -> _ _]. unfold before in Hb. lia. }
  split; [split_and!|].
  - intros x. rewrite HX. split; intros (c' & p' & q' & R' & C' & Hc' & B' & Hb'); exists c', p', q', R', C'; (split_and!; [done|done|]).
    + apply Hbe. by left.
    + apply Hbe in Hb' as [?|?]; [done|]. by destruct (Hne _ _ _ _ _ B').
  - exact HR.
  - intros c' p' q' R' C' B' [Hb'|Hb']%Hbe; [by eapply HS|by destruct (Hne _ _ _ _ _ B')].
  - intros r t Ha Ht. rewrite starting_S, (Hr r t Ha Ht). destruct (starts_at a i j) eqn:E; [|by rewrite app_nil_r].
    apply (block_starts _ _ _ _ _ _ _ _ B Hc) in E. by destruct (Hne _ _ _ _ _ B).
Qed.

Lemma covered_places i j down across x :
  x ∈ (flat_map (λ k, (λ l, (i + k, j + l)) <$> seq 0 across) (seq 0 down) : list (nat * nat))
  ↔ i ≤ x.1 < i + down ∧ j ≤ x.2 < j + across.
Proof.
  rewrite list_elem_of_In, in_flat_map. split.
  - intros (k & Hk%in_seq & (l & -> & Hl%elem_of_seq)%list_elem_of_In%list_elem_of_fmap). cbn. lia.
  - intros [H1 H2]. exists (x.1 - i). split; [apply in_seq; lia|]. apply list_elem_of_In, list_elem_of_fmap.
    exists (x.2 - j). split; [|apply elem_of_seq; lia]. destruct x as [x y]. cbn in *. f_equal; lia.
Qed.

(** A cell that is not applied starts here. *)
Lemma not_applied i j st :
  row_passed i j st → i < length a → j < n → (i, j) ∉ st.1 → ∃ c R C, block a c i j R C.
Proof.
  intros [(HX & _) _] Hi Hj Hx. destruct (proj2 (in_grid i j) (conj Hi Hj)) as [c Hc].
  destruct (grid_blocks _ _ Hok c i j Hc) as (p & q & R & C & B). exists c, R, C.
  pose proof B as (HR & HC & H). apply H in Hc as Hb.
  destruct (decide (before p q i j)) as [Hbe|Hbe].
  - exfalso. apply Hx, HX. by exists c, p, q, R, C.
  - unfold before in Hbe. assert (p = i) as -> by lia. assert (q = j) as -> by lia. done.
Qed.

Lemma block_runs i j c R C r :
  block a c i j R C → a !! i = Some r →
  row_run c j (drop (S i) a) = Some (R - 1) ∧ col_run c (drop (S j) (places r)) = C - 1.
Proof.
  intros (HR & HC & H) Hr. split.
  - apply row_run_block.
    + intros i' [_ Hi']. apply in_grid. split; [done|]. eapply in_grid. exists c. apply (H i j). lia.
    + intros i' Hi'. rewrite H. lia.
  - apply (col_run_block a r c i); [done|]. intros j' Hj'. rewrite H. lia.
Qed.

Lemma append_row_keeps tr c h t l :
  head_rows h !! t = Some l → filter (.≠ c) l = l → head_rows (append_cell tr c h) !! t = Some (if decide (t = tr) then l ++ [c] else l).
Proof.
  intros Hl Hf. unfold append_cell. cbn [head_rows]. destruct (decide (t = tr)) as [->|Hne].
  - rewrite lookup_insert_eq, lookup_fmap, Hl. cbn. by rewrite Hf.
  - rewrite lookup_insert_ne, lookup_fmap, Hl by done. cbn. by rewrite Hf.
Qed.

Lemma row_nodes_differ i i' r r' t : i ≠ i' → a !! i = Some r → a !! i' = Some r' → lnTr r = Some t → lnTr r' ≠ Some t.
Proof.
  intros Hne Hr Hr' Ht Ht'. apply Hne. apply (NoDup_lookup (lnTr <$> a) i i' (Some t) (grid_rows _ _ Hok));
    by rewrite list_lookup_fmap, ?Hr, ?Hr'; cbn; f_equal.
Qed.

(** A place that is not applied gets its cell. *)
Lemma pass_new i j st r :
  row_passed i j st → a !! i = Some r → j < n → (i, j) ∉ st.1 →
  ∃ st', draw_place a i j st = Some st' ∧ row_passed i (S j) st'.
Proof.
  intros Hp Hr Hj Hx. pose proof (lookup_lt_Some _ _ _ Hr) as Hi.
  destruct (not_applied i j st Hp Hi Hj Hx) as (c & R & C & B). pose proof (block_at _ _ _ _ _ _ B) as Hc.
  destruct (block_runs i j c R C r B Hr) as [Hdown Hacross]. destruct (grid_full _ _ Hok i r Hr) as (_ & [tr Ht] & _).
  destruct st as [X h]. cbn [fst] in Hx. unfold draw_place. rewrite bool_decide_eq_false_2 by done. rewrite Hr. cbn [mbind option_bind].
  rewrite (at_row _ _ _ _ Hr) in Hc. destruct (places r !! j) as [[p|]|] eqn:Hpl; try done. cbn [mbind option_bind] in *.
  injection Hc as Hc. rewrite Hc, Ht. cbn [mbind option_bind]. rewrite Hdown. cbn [mbind option_bind]. rewrite Hacross.
  pose proof B as (HR & HC & H).
  replace (S (R - 1)) with R by lia. replace (S (C - 1)) with C by lia.
  assert (∀ p' q', before p' q' i (S j) ↔ before p' q' i j ∨ (p', q') = (i, j)) as Hbe.
  { intros p' q'. unfold before. split; [|intros [?|[= -> ->]]; lia].
    intros [?|[-> ?]]; [by left; left|]. destruct (decide (q' = j)) as [->|]; [by right|left; right; lia]. }
  eexists. split; [reflexivity|]. destruct Hp as [(HX & HRr & HS) Hrow]. cbn [fst snd] in *. split; [split_and!|]; cbn [fst snd head_rows spans].
  - intros x. rewrite elem_of_union, HX, elem_of_list_to_set, covered_places, <- H. split.
    + intros [(c' & p' & q' & R' & C' & Hc' & B' & Hb')|Hcov].
      * exists c', p', q', R', C'. split_and!; [done|done|]. apply Hbe. by left.
      * exists c, i, j, R, C. split_and!; [done|done|]. apply Hbe. by right.
    + intros (c' & p' & q' & R' & C' & Hc' & B' & [Hb'|[= -> ->]]%Hbe).
      * left. by exists c', p', q', R', C'.
      * right. apply block_at in B' as E. pose proof (proj2 (H i j) ltac:(lia)) as E'. by rewrite E in E'; injection E' as ->.
  - intros i' r' t Hlt Hr' Ht'. rewrite (append_row_keeps tr c h t (starting a i' (seq 0 n))).
    + rewrite decide_False; [done|]. intros ->. by apply (row_nodes_differ i i' r r' tr ltac:(lia) Hr Hr' Ht).
    + by eapply HRr.
    + apply (starting_other c i j R C i' n B). unfold before. lia.
  - intros c' p' q' R' C' B' [Hb'|[= -> ->]]%Hbe.
    + rewrite lookup_insert_ne; [by eapply HS|]. intros <-. pose proof (block_unique _ _ _ _ _ _ _ _ _ _ B B') as [= <- <- _ _].
      unfold before in Hb'. lia.
    + pose proof (block_at _ _ _ _ _ _ B') as E. pose proof (block_at _ _ _ _ _ _ B) as E'. rewrite E in E'. injection E' as ->.
      pose proof (block_unique _ _ _ _ _ _ _ _ _ _ B B') as [= -> ->]. apply lookup_insert_eq.
  - intros r' t Hr' Ht'. rewrite Hr in Hr'. injection Hr' as <-. rewrite Ht in Ht'. injection Ht' as <-.
    rewrite (append_row_keeps tr c h tr (starting a i (seq 0 j))).
    + rewrite decide_True, starting_S by done. rewrite (block_at _ _ _ _ _ _ B).
      by rewrite (proj2 (block_starts _ _ _ _ _ _ i j B (block_at _ _ _ _ _ _ B)) eq_refl).
    + by apply (Hrow r).
    + apply (starting_other c i j R C i j B). unfold before. lia.
Qed.

Lemma draw_places_passed i r j m st :
  a !! i = Some r → j + m = n → row_passed i j st →
  ∃ st', draw_places a i (seq j m) st = Some st' ∧ row_passed i n st'.
Proof.
  intros Hr. revert j st. induction m as [|m IH]; intros j st Hn Hp.
  { exists st. split; [done|]. by replace n with j by lia. }
  cbn [seq draw_places]. destruct (decide ((i, j) ∈ st.1)) as [Hx|Hx].
  - assert (draw_place a i j st = Some st) as ->.
    { destruct st as [X h]. unfold draw_place. by rewrite bool_decide_eq_true_2. }
    cbn [mbind option_bind]. apply IH; [lia|]. by apply pass_applied.
  - destruct (pass_new i j st r Hp Hr ltac:(lia) Hx) as (st' & -> & Hp'). cbn [mbind option_bind]. apply IH; [lia|done].
Qed.

Lemma draw_row_passed i r st :
  a !! i = Some r → passed i 0 st →
  ∃ st', draw_places a i (seq 0 (length (places r))) (st.1, empty_row (lnTr r) st.2) = Some st' ∧ passed (S i) 0 st'.
Proof.
  intros Hr (HX & HR & HS). destruct (grid_full _ _ Hok i r Hr) as (L & [tr Ht] & _). rewrite L, Ht. cbn [empty_row].
  destruct (draw_places_passed i r 0 n (st.1, HeadPage (<[tr := []]> (head_rows st.2)) (spans st.2))) as (st' & E & Hp); [done|lia| |].
  - split; [split_and!|]; cbn [fst snd head_rows spans].
    + exact HX.
    + intros i' r' t Hlt Hr' Ht'. rewrite lookup_insert_ne; [by eapply HR|].
      intros <-. by apply (row_nodes_differ i i' r r' tr ltac:(lia) Hr Hr' Ht).
    + exact HS.
    + intros r' t Hr' Ht'. rewrite Hr in Hr'. injection Hr' as <-. rewrite Ht in Ht'. injection Ht' as <-. apply lookup_insert_eq.
  - exists st'. split; [exact E|]. destruct Hp as [(HX' & HR' & HS') Hrow].
    assert (∀ p q c R C, block a c p q R C → before p q (S i) 0 ↔ before p q i n) as Hbe.
    { intros p q c R C B%block_at. pose proof (proj1 (in_grid p q) (ex_intro _ c B)). unfold before. lia. }
    split_and!.
    + intros x. rewrite HX'. split; intros (c & p & q & R & C & Hc & B & Hb); exists c, p, q, R, C; (split_and!; [done|done|]); by apply (Hbe p q _ _ _ B).
    + intros i' r' t Hlt Hr' Ht'. destruct (decide (i' = i)) as [->|]; [by eapply Hrow|eapply HR'; [lia|done|done]].
    + intros c p q R C B Hb. apply (HS' c p q); [done|]. by apply (Hbe p q _ _ _ B).
Qed.

Lemma draw_rows_passed i m st :
  i + m = length a → passed i 0 st → ∃ st', draw_head_rows a (seq i m) st = Some st' ∧ passed (length a) 0 st'.
Proof.
  revert i st. induction m as [|m IH]; intros i st Hn Hp.
  { exists st. split; [done|]. by replace (length a) with i by lia. }
  cbn [seq draw_head_rows]. destruct (lookup_lt_is_Some_2 a i) as [r Hr]; [lia|]. rewrite Hr. cbn [mbind option_bind].
  destruct (draw_row_passed i r st Hr Hp) as (st' & -> & Hp'). cbn [mbind option_bind]. apply IH; [lia|done].
Qed.

Lemma grid_drawn h : ∃ X h', draw_head_rows a (seq 0 (length a)) (∅, h) = Some (X, h') ∧ header_shown n a h'.
Proof.
  destruct (draw_rows_passed 0 (length a) (∅, h)) as ([X h'] & E & _ & HR & HS); [lia| |].
  - split_and!; [|intros; lia|intros c p q R C _ [?|[_ ?]]; lia]. intros x. cbn [fst]. rewrite elem_of_empty.
    split; [done|]. intros (c & p & q & R & C & _ & _ & [?|[_ ?]]); lia.
  - exists X, h'. split; [exact E|]. split.
    + intros i r t Hr Ht. by apply (HR i r t (lookup_lt_Some _ _ _ Hr) Hr Ht).
    + intros c p q R C B. apply (HS _ _ _ _ _ B). pose proof (proj1 (in_grid p q) (ex_intro _ c (block_at _ _ _ _ _ _ B))).
      left. lia.
Qed.
End draw.

(** ** The visible columns *)

(** The visible columns among the first [n], in order. *)
Definition visible_among (vis : list bool) (n : nat) : list nat := filter (λ i, vis !! i = Some true) (seq 0 n).
Definition visible_columns (vis : list bool) : list nat := visible_among vis (length vis).

(** The grid without the hidden columns. *)
Definition shown_grid (vis : list bool) (a : list lrow) : list lrow :=
  (λ r, LRow (hidden_out vis (places r)) (lnTr r)) <$> a.

Lemma visible_among_S vis n :
  visible_among vis (S n) = visible_among vis n ++ (if decide (vis !! n = Some true) then [n] else []).
Proof. unfold visible_among. by rewrite seq_S, filter_app. Qed.

Lemma visible_among_lt vis n j : j ∈ visible_among vis n → j < n.
Proof. intros [_ H%elem_of_seq]%list_elem_of_filter. lia. Qed.

Lemma visible_among_mono vis m n : m ≤ n → length (visible_among vis m) ≤ length (visible_among vis n).
Proof. induction 1 as [|n _ IH]; [done|]. rewrite visible_among_S, length_app. lia. Qed.

Lemma omap_same {A B} (f g : A → option B) (l : list A) : (∀ x, x ∈ l → f x = g x) → omap f l = omap g l.
Proof.
  induction l as [|x l IH]; intros H; [done|]. cbn. rewrite (H x) by (by left). rewrite IH; [done|]. intros y Hy. apply H. by right.
Qed.

Lemma hidden_out_prefix vis (l : list (option lcell)) m :
  m ≤ length l → m ≤ length vis →
  foldl (λ l j, if default false (vis !! j) then l else delete j l) l (rev (seq 0 m))
  = omap (λ j, l !! j) (visible_among vis m) ++ drop m l.
Proof.
  revert l. induction m as [|m IH]; intros l Hl Hv; [by rewrite drop_0|].
  rewrite seq_S, rev_app_distr. cbn [Nat.add rev app foldl]. rewrite visible_among_S, omap_app.
  destruct (lookup_lt_is_Some_2 l m) as [x Hx]; [lia|]. destruct (lookup_lt_is_Some_2 vis m) as [b Hb]; [lia|]. rewrite Hb. cbn [from_option id].
  destruct b.
  - rewrite IH by lia. rewrite decide_True by done. cbn [omap list_omap]. rewrite Hx, (drop_S l x) by done. by rewrite <- app_assoc.
  - assert (m ≤ length (delete m l)) as Hd by (rewrite length_delete by done; lia).
    rewrite IH by lia. rewrite decide_False by done. cbn [omap list_omap]. rewrite app_nil_r. f_equal.
    + apply omap_same. intros j Hj%visible_among_lt. by rewrite list_lookup_delete_lt.
    + rewrite delete_take_drop, drop_app_ge by (rewrite length_take; lia). rewrite length_take, Nat.min_l, Nat.sub_diag by lia. done.
Qed.

Lemma hidden_out_visible vis (l : list (option lcell)) : length l = length vis → hidden_out vis l = omap (λ j, l !! j) (visible_columns vis).
Proof.
  intros Hl. unfold hidden_out. rewrite hidden_out_prefix, drop_ge, app_nil_r by lia. done.
Qed.

Lemma omap_lookup {A} (l : list A) (js : list nat) k :
  (∀ j, j ∈ js → j < length l) → omap (λ j, l !! j) js !! k = (j ← js !! k; l !! j).
Proof.
  revert k. induction js as [|j js IH]; intros k H; [done|]. destruct (lookup_lt_is_Some_2 l j) as [x Hx]; [apply H; by left|].
  cbn [omap list_omap]. rewrite Hx. destruct k as [|k]; cbn; [done|]. apply IH. intros j' Hj'. apply H. by right.
Qed.

Section visible.
Context (n : nat) (a : list lrow) (vis : list bool) (Hok : grid_ok n a) (Hvis : length vis = n).

Lemma shown_row i : shown_grid vis a !! i = (λ r, LRow (omap (λ j, places r !! j) (visible_columns vis)) (lnTr r)) <$> a !! i.
Proof.
  unfold shown_grid. rewrite list_lookup_fmap. destruct (a !! i) as [r|] eqn:Hr; [|done]. cbn. do 2 f_equal.
  apply hidden_out_visible. destruct (grid_full _ _ Hok i r Hr) as [L _]. congruence.
Qed.

Lemma at_shown i k : at_ (shown_grid vis a) i k = (j ← visible_columns vis !! k; at_ a i j).
Proof.
  unfold at_ at 1. rewrite shown_row. destruct (a !! i) as [r|] eqn:Hr; cbn [fmap option_fmap option_map mbind option_bind places].
  - rewrite omap_lookup.
    + destruct (visible_columns vis !! k) as [j|]; [|done]. cbn [mbind option_bind]. by rewrite (at_row _ _ _ _ Hr).
    + intros j Hj%visible_among_lt. destruct (grid_full _ _ Hok i r Hr) as [L _]. congruence.
  - destruct (visible_columns vis !! k) as [j|]; [|done]. cbn [mbind option_bind]. unfold at_. by rewrite Hr.
Qed.

(** The visible columns before a column are the first ones. *)
Lemma visible_below k j m : visible_columns vis !! k = Some j → j < m ↔ k < length (visible_among vis m).
Proof.
  intros Hk. assert (visible_columns vis = visible_among vis (m `min` length vis) ++ filter (λ i, vis !! i = Some true) (seq (m `min` length vis) (length vis - m))) as E.
  { unfold visible_columns, visible_among. rewrite <- filter_app. f_equal.
    change (seq (m `min` length vis)) with (seq (0 + m `min` length vis)). rewrite <- seq_app. f_equal. lia. }
  assert (length (visible_among vis m) = length (visible_among vis (m `min` length vis))) as ->.
  { destruct (decide (m ≤ length vis)); [by rewrite Nat.min_l|]. rewrite Nat.min_r by lia. unfold visible_among.
    replace m with (length vis + (m - length vis)) by lia. rewrite seq_app, filter_app, length_app. cbn [Nat.add].
    assert (filter (λ i, vis !! i = Some true) (seq (length vis) (m - length vis)) = []) as ->; [|cbn; lia].
    apply elem_of_nil_inv. intros x [Hx Hs%elem_of_seq]%list_elem_of_filter. apply lookup_lt_Some in Hx. lia. }
  rewrite E in Hk. split; intros H.
  - destruct (decide (k < length (visible_among vis (m `min` length vis)))) as [|Hge]; [done|].
    rewrite lookup_app_r in Hk by lia. apply list_elem_of_lookup_2, list_elem_of_filter in Hk as [Hv Hs%elem_of_seq].
    apply lookup_lt_Some in Hv. lia.
  - rewrite lookup_app_l in Hk by done. apply list_elem_of_lookup_2, visible_among_lt in Hk. lia.
Qed.

Lemma shown_block c p q R C :
  block a c p q R C → (∃ i k, at_ (shown_grid vis a) i k = Some c) →
  block (shown_grid vis a) c p (length (visible_among vis q)) R
    (length (visible_among vis (q + C)) - length (visible_among vis q)).
Proof.
  intros (HR & HC & H) (i & k & Hik). set (lo := length (visible_among vis q)). set (hi := length (visible_among vis (q + C))).
  assert (∀ i k, at_ (shown_grid vis a) i k = Some c ↔ p ≤ i < p + R ∧ lo ≤ k < hi) as HB.
  { clear i k Hik. intros i k. rewrite at_shown. destruct (visible_columns vis !! k) as [j|] eqn:Hk; cbn [mbind option_bind].
    - pose proof (visible_below k j q Hk). pose proof (visible_below k j (q + C) Hk). subst lo hi. rewrite H. lia.
    - split; [done|]. intros [_ Hlo]. exfalso.
      assert (hi ≤ length (visible_columns vis)); [|apply lookup_ge_None in Hk; lia]. subst hi. unfold visible_columns.
      destruct (decide (q + C ≤ length vis)) as [Hle|Hgt].
      + by apply visible_among_mono.
      + exfalso. pose proof (in_grid n a Hok p (q + C - 1)) as [Hin _]. destruct Hin as [_ Hin]; [exists c; apply H; lia|lia]. }
  pose proof (proj1 (HB i k) Hik). split; [lia|split; [lia|]]. intros i' k'. rewrite HB. lia.
Qed.

Lemma shown_grid_ok : grid_ok (length (visible_columns vis)) (shown_grid vis a).
Proof.
  split.
  - intros i r. rewrite shown_row. destruct (a !! i) as [r0|] eqn:Hr; [|done]. cbn [fmap option_fmap option_map]. intros [= <-].
    destruct (grid_full _ _ Hok i r0 Hr) as (L & Ht & Hf). cbn [places lnTr].
    assert (∀ k, k < length (visible_columns vis) → is_Some (at_ (shown_grid vis a) i k)) as Hs.
    { intros k [j Hk]%lookup_lt_is_Some_2. rewrite at_shown, Hk. cbn [mbind option_bind]. apply Hf. rewrite <- Hvis.
      by eapply visible_among_lt, list_elem_of_lookup_2. }
    split_and!; [|done|done].
    assert (∀ js, (∀ j, j ∈ js → j < length (places r0)) → length (omap (λ j, places r0 !! j) js) = length js) as HL.
    { induction js as [|j js IH]; intros Hj; [done|]. cbn. destruct (lookup_lt_is_Some_2 (places r0) j) as [x ->]; [apply Hj; by left|].
      cbn. rewrite IH; [done|]. intros y Hy. apply Hj. by right. }
    apply HL. intros j Hj%visible_among_lt. congruence.
  - intros c i k Hc. pose proof Hc as Hc'. rewrite at_shown in Hc'. destruct (visible_columns vis !! k) as [j|]; [|done].
    destruct (grid_blocks _ _ Hok c i j Hc') as (p & q & R & C & B). eexists _, _, _, _. apply (shown_block c p q R C B). by exists i, k.
  - unfold shown_grid. rewrite <- list_fmap_compose. apply (grid_rows _ _ Hok).
Qed.
End visible.

(** Drawing the header shows the grid of the visible columns. *)
Lemma draw_head_shown n a vis h :
  grid_ok n a → length vis = n →
  ∃ h', _fnDrawHead vis a false h = Some h' ∧ header_shown (length (visible_columns vis)) (shown_grid vis a) h'.
Proof.
  intros Hok Hv. destruct (grid_drawn _ _ (shown_grid_ok n a vis Hok Hv) h) as (X & h' & E & Hs).
  exists h'. split; [|exact Hs]. unfold _fnDrawHead. fold (shown_grid vis a). by rewrite E.
Qed.

Lemma grid_ok_nil n : grid_ok n [].
Proof. split; [done|done|constructor]. Qed.

(** The grid of the header with a group. *)
Definition group_grid : list lrow :=
  [LRow [Some (LCell 10 true); Some (LCell 11 false); Some (LCell 11 false)] (Some 0);
   LRow [Some (LCell 10 true); Some (LCell 12 true); Some (LCell 13 true)] (Some 1)].

Example group_grid_detected : _fnDetectHeader group_header = Some group_grid.
Proof. vm_compute. reflexivity. Qed.

Lemma group_block c p q R C :
  (c, p, q, R, C) ∈ [(10, 0, 0, 2, 1); (11, 0, 1, 1, 2); (12, 1, 1, 1, 1); (13, 1, 2, 1, 1)] → block group_grid c p q R C.
Proof.
  intros H. repeat (apply elem_of_cons in H as [[= -> -> -> -> ->]|H]); [..|by apply elem_of_nil in H];
    (split; [lia|split; [lia|]]); intros i j; destruct i as [|[|i]], j as [|[|[|j]]]; (split; [intros E; (discriminate E || lia)|intros ?; (lia || done)]).
Qed.

Lemma group_grid_ok : grid_ok 3 group_grid.
Proof.
  split.
  - intros i r Hr. destruct i as [|[|i]]; [injection Hr as <-..|done];
      (split; [done|split; [by eexists|]]); intros j Hj; destruct j as [|[|[|j]]]; (lia || by eexists).
  - intros c i j Hc. assert (∃ p q R C, (c, p, q, R, C) ∈ [(10, 0, 0, 2, 1); (11, 0, 1, 1, 2); (12, 1, 1, 1, 1); (13, 1, 2, 1, 1)])
      as (p & q & R & C & H); [|by exists p, q, R, C; apply group_block].
    destruct i as [|[|i]], j as [|[|[|j]]]; try discriminate Hc; injection Hc as <-; do 4 eexists; repeat (first [constructor 1 | constructor 2]).
  - apply (bool_decide_eq_true_1 (NoDup _)). vm_compute. reflexivity.
Qed.
