(* ===== verification/DtColumns.v ===== *)
(** * Columns (jquery.dataTables.js, "columns")

    The maps between columns and visible columns, the assignment of definitions to columns, and
    showing and hiding columns, with the cells of the rows, the header and the footer.  The cells
    of a row are the numbers of their columns; the measuring of the widths that follows is left
    to the browser. *)

From S2P Require Import Prelude JsString JsObject JsNumber JsValue JsInt DtUtil DtModel DtTypes DtSort DtPath DtDraw DtState DtHeader DtHeaderTheorems.

(** ** Visible columns *)

Definition _fnGetColumns (s : settings) (p : column → bool) : list nat :=
  omap (λ ic : nat * column, if p ic.2 then Some ic.1 else None) (imap pair (aoColumns s)).

Definition _fnVisibleToColumnIndex (s : settings) (iMatch : nat) : option nat := _fnGetColumns s bVisible !! iMatch.

Definition _fnColumnIndexToVisible (s : settings) (iMatch : nat) : option nat :=
  let iPos := inArray iMatch (_fnGetColumns s bVisible) in
  if bool_decide (iPos ≠ (-1)%Z) then Some (Z.to_nat iPos) else None.

(** ** Definitions of columns *)

(** A target of a definition: a column from the left, one from the right, a class or all. *)
Inductive target := FromLeft (n : nat) | FromRight (n : positive) | OfClass (c : jstring).

Section defs.
Context {D : Type}.
(** The classes of the header cells; a column made for a target has none. *)
Variable hasClass : nat → jstring → bool.

(** The columns that get the definition for one target, with the number of columns then; a target
    to the left of the first column names none that exists. *)
Definition target_columns (n : nat) (t : target) : nat * list Z :=
  match t with
  | FromLeft k => (Nat.max n (S k), [Z.of_nat k])
  | FromRight k => (n, [(Z.of_nat n - Zpos k)%Z])
  | OfClass c => (n, Z.of_nat <$> List.filter (λ k, (c =s? "_all"%js) || hasClass k c) (seq 0 n))
  end.

Fixpoint apply_targets (n : nat) (ts : list target) (def : D) : nat * list (Z * D) :=
  match ts with
  | [] => (n, [])
  | t :: ts =>
      let '(n, ks) := target_columns n t in
      let '(n, calls) := apply_targets n ts def in
      (n, ((., def) <$> ks) ++ calls)
  end.

(** The definitions, the last one first, then those of the static array: the calls of [fn]. *)
Definition _fnApplyColumnDefs (n : nat) (aoColDefs : list (list target * D)) (aoCols : list D) : nat * list (Z * D) :=
  let '(n, calls) := foldl (λ '(n, calls) '(ts, def), let '(n, c) := apply_targets n ts def in (n, calls ++ c))
                       (n, []) (rev aoColDefs) in
  (n, calls ++ imap (λ i d, (Z.of_nat i, d)) aoCols).
End defs.

Example defs_ex :
  _fnApplyColumnDefs (λ k c, bool_decide (k = 1) && (c =s? "num"%js)) 3
    [([OfClass "num"%js; FromRight 1], 1); ([OfClass "_all"%js], 2)] [7]
  = (3, [(0%Z, 2); (1%Z, 2); (2%Z, 2); (1%Z, 1); (2%Z, 1); (0%Z, 7)]).
Proof. vm_compute. reflexivity. Qed.

(** ** Showing and hiding a column *)

(** [tr.insertBefore(cell, ref)]: a cell that is in the row moves; [None]: [ref] is not in the row. *)
Definition insertBefore (cell : nat) (ref : option nat) (tr : list nat) : option (list nat) :=
  let tr := filter (.≠ cell) tr in
  match ref with
  | None => Some (tr ++ [cell])
  | Some r => match list_find (.= r) tr with
              | Some (i, _) => Some (take i tr ++ cell :: drop i tr)
              | None => None
              end
  end.

(** [$.inArray(true, visible, from)] *)
Definition next_visible (vis : list bool) (from : nat) : option nat :=
  match list_find (.= true) (drop from vis) with Some (i, _) => Some (from + i) | None => None end.

(** A table with the nodes of its rows, for a row with a node the columns of its cells; the grids
    of its header and footer with the page they are drawn in; and the storages. *)
Record table_page := TablePage {
  t_settings : settings;
  t_trs : list (option (list nat));
  aoHeader : list lrow; t_thead : head_page;
  aoFooter : list lrow; t_tfoot : head_page;
  t_storages : storages
}.

Section visibility.
Variable sInstance pathname : jstring.
(** The clock, which stands still during one call. *)
Variable now : Z.

Definition on_cells (f : list nat → option (list nat)) (tr : option (list nat)) : option (option (list nat)) :=
  match tr with Some l => l ← f l; Some (Some l) | None => Some None end.

Definition __setColumnVis (column : nat) (vis : bool) (p : table_page) : option table_page :=
  let s := t_settings p in
  col ← aoColumns s !! column;
  if Bool.eqb (bVisible col) vis then Some p
  else
    trs ← (if vis then
             let ref := next_visible (bVisible <$> aoColumns s) (S column) in
             mapM (on_cells (insertBefore column ref)) (t_trs p)
           else mapM (on_cells (λ l, Some (filter (.≠ column) l))) (t_trs p));
    let s := set_aoColumns (<[column := set_bVisible vis col]> (aoColumns s)) s in
    thead ← _fnDrawHead (bVisible <$> aoColumns s) (aoHeader p) false (t_thead p);
    tfoot ← _fnDrawHead (bVisible <$> aoColumns s) (aoFooter p) false (t_tfoot p);
    '(s, w) ← _fnSaveState sInstance pathname now s (t_storages p);
    Some (TablePage s trs (aoHeader p) thead (aoFooter p) tfoot w).

Fixpoint set_each (l : list nat) (vis : bool) (p : table_page) : option table_page :=
  match l with
  | [] => Some p
  | c :: l => p ← __setColumnVis c vis p; set_each l vis p
  end.

(** [columns().visible(vis)] for the columns of a table. *)
Definition set_columns_vis (l : list nat) (vis : bool) (p : table_page) : option table_page :=
  p ← set_each l vis p;
  let s := foldl (λ s _, fire "column-visibility"%js s) (t_settings p) l in
  Some (TablePage s (t_trs p) (aoHeader p) (t_thead p) (aoFooter p) (t_tfoot p) (t_storages p)).
End visibility.

(** ** What is visible *)

Lemma filter_same {A} (P Q : A → Prop) `{∀ x, Decision (P x)} `{∀ x, Decision (Q x)} (l : list A) :
  (∀ x, x ∈ l → P x ↔ Q x) → filter P l = filter Q l.
Proof.
  induction l as [|x l IH]; intros Hl; [done|]. rewrite !filter_cons, IH by (intros y Hy; apply Hl; by right).
  specialize (Hl x ltac:(by left)). repeat case_decide; naive_solver.
Qed.

Lemma visible_insert_false vis c :
  c < length vis → visible_columns (<[c := false]> vis) = filter (.≠ c) (visible_columns vis).
Proof.
  intros Hc. unfold visible_columns, visible_among. rewrite length_insert, list_filter_filter.
  apply list_filter_iff. intros i. destruct (decide (i = c)) as [->|Hne].
  - rewrite list_lookup_insert_eq by done. naive_solver.
  - rewrite list_lookup_insert_ne by done. naive_solver.
Qed.

(** The visible columns before and after a column. *)
Lemma visible_split vis c :
  c < length vis →
  visible_columns vis
  = visible_among vis c ++ (if decide (vis !! c = Some true) then [c] else [])
    ++ filter (λ i, vis !! i = Some true) (seq (S c) (length vis - S c)).
Proof.
  intros Hc. unfold visible_columns, visible_among. replace (length vis) with (c + (1 + (length vis - S c))) at 1 by lia.
  rewrite seq_app, filter_app. f_equal. cbn [seq Nat.add]. rewrite filter_cons. by case_decide.
Qed.

(** Changing the visibility of a column keeps the others. *)
Lemma visible_insert_true vis c :
  c < length vis →
  visible_columns (<[c := true]> vis)
  = visible_among vis c ++ c :: filter (λ i, vis !! i = Some true) (seq (S c) (length vis - S c)).
Proof.
  intros Hc. rewrite (visible_split _ c) by (by rewrite length_insert). rewrite length_insert.
  rewrite decide_True by (by apply list_lookup_insert_eq). unfold visible_among. cbn [app].
  f_equal; [|f_equal]; apply filter_same; intros i Hi%elem_of_seq; rewrite list_lookup_insert_ne by lia; done.
Qed.

Lemma next_visible_head vis a n :
  n = length vis - a → next_visible vis a = head (filter (λ i, vis !! i = Some true) (seq a n)).
Proof.
  revert a. induction n as [|n IH]; intros a Hn; unfold next_visible.
  - by rewrite drop_ge by lia.
  - destruct (lookup_lt_is_Some_2 vis a) as [b Hb]; [lia|]. rewrite (drop_S _ b) by done. cbn [seq list_find].
    rewrite filter_cons. destruct b.
    + rewrite !decide_True by done. cbn. f_equal. lia.
    + rewrite !decide_False by (rewrite ?Hb; done). rewrite <- IH by lia. unfold next_visible.
      destruct (list_find (.= true) (drop (S a) vis)) as [[i x]|]; cbn; [f_equal; lia|done].
Qed.

Lemma insert_cell vis c :
  vis !! c = Some false →
  insertBefore c (next_visible vis (S c)) (visible_columns vis) = Some (visible_columns (<[c := true]> vis)).
Proof.
  intros Hc. pose proof (lookup_lt_Some _ _ _ Hc) as Hl.
  rewrite visible_insert_true, (next_visible_head vis (S c) (length vis - S c)), (visible_split vis c) by done.
  rewrite decide_False by (rewrite Hc; done). cbn [app].
  set (A := visible_among vis c). set (B := filter _ (seq (S c) _)).
  assert (∀ x, x ∈ A → x < c) as HA by (intros x [_ Hx%elem_of_seq]%list_elem_of_filter; lia).
  assert (∀ x, x ∈ B → c < x) as HB by (intros x [_ Hx%elem_of_seq]%list_elem_of_filter; lia).
  unfold insertBefore. assert (filter (.≠ c) (A ++ B) = A ++ B) as ->.
  { transitivity (filter (λ _ : nat, True) (A ++ B)).
    - apply filter_same. intros x [Hx%HA|Hx%HB]%elem_of_app; split; [done|lia|done|lia].
    - induction (A ++ B) as [|x l IH]; [done|]. rewrite filter_cons_True by done. by rewrite IH. }
  destruct B as [|b B]; [cbn; by rewrite app_nil_r|]. cbn [head].
  assert (list_find (.= b) (A ++ b :: B) = Some (length A, b)) as ->.
  { apply list_find_Some. rewrite list_lookup_middle by done. split_and!; [done|done|].
    intros j y Hj Hlt ->. rewrite lookup_app_l in Hj by done. apply list_elem_of_lookup_2 in Hj. apply HA in Hj.
    specialize (HB b ltac:(by left)). lia. }
  by rewrite take_app_length, drop_app_length.
Qed.

(** Every row with a node has the cells [cells]. *)
Definition rows_have (cells : list nat) (trs : list (option (list nat))) : Prop :=
  Forall (λ tr, match tr with Some tr => tr = cells | None => True end) trs.

Lemma on_cells_rows f cells cells' trs :
  rows_have cells trs → f cells = Some cells' →
  ∃ trs', mapM (on_cells f) trs = Some trs' ∧ rows_have cells' trs' ∧ length trs' = length trs.
Proof.
  intros H Hf. induction H as [|tr trs Ht _ (trs' & IH & H & L)]; [by exists []; repeat split; constructor|]. cbn [mapM].
  destruct tr as [tr|]; cbn [on_cells]; [subst tr; rewrite Hf|]; cbn [mbind option_bind]; rewrite IH; cbn [mbind option_bind];
    (eexists; split; [reflexivity|]); (split; [by constructor|]); cbn; by rewrite L.
Qed.

(** The visible columns are in the page: in the rows, in the header and in the footer. *)
Record columns_shown (p : table_page) : Prop := {
  cs_rows : rows_have (visible_columns (bVisible <$> aoColumns (t_settings p))) (t_trs p);
  cs_searches : length (aoPreSearchCols (t_settings p)) = length (aoColumns (t_settings p));
  cs_header : grid_ok (length (aoColumns (t_settings p))) (aoHeader p);
  cs_footer : grid_ok (length (aoColumns (t_settings p))) (aoFooter p);
  cs_thead : header_shown (length (visible_columns (bVisible <$> aoColumns (t_settings p))))
               (shown_grid (bVisible <$> aoColumns (t_settings p)) (aoHeader p)) (t_thead p);
  cs_tfoot : header_shown (length (visible_columns (bVisible <$> aoColumns (t_settings p))))
               (shown_grid (bVisible <$> aoColumns (t_settings p)) (aoFooter p)) (t_tfoot p)
}.

(** The rows of the page and the grids stay. *)
Definition same_frame (p p' : table_page) : Prop :=
  length (t_trs p') = length (t_trs p) ∧ aoHeader p' = aoHeader p ∧ aoFooter p' = aoFooter p.

Lemma column_states_total cols searches :
  length searches = length cols → ∃ l, column_states cols searches = Some l.
Proof.
  revert searches. induction cols as [|c cols IH]; intros [|o searches] H; try done; [by exists []|].
  destruct (IH searches) as [l E]; [by injection H|]. eexists. cbn [column_states]. by rewrite E.
Qed.

Section visibility_facts.
Context (sInstance pathname : jstring) (now : Z).

Lemma save_total s w :
  length (aoPreSearchCols s) = length (aoColumns s) →
  ∃ s' w', _fnSaveState sInstance pathname now s w = Some (s', w')
    ∧ aoColumns s' = aoColumns s ∧ aoPreSearchCols s' = aoPreSearchCols s.
Proof.
  intros H. unfold _fnSaveState. destruct (negb (bStateSave s) || bDestroying s); [by eexists _, _|].
  unfold state_val. destruct (column_states_total _ _ H) as [l ->]. by eexists _, _.
Qed.

Lemma set_vis_shown c vis p :
  columns_shown p → c < length (aoColumns (t_settings p)) →
  ∃ p', __setColumnVis sInstance pathname now c vis p = Some p' ∧ columns_shown p' ∧ same_frame p p'
    ∧ bVisible <$> aoColumns (t_settings p') = <[c := vis]> (bVisible <$> aoColumns (t_settings p)).
Proof.
  intros [Hr Hs Hh Hf Hth Htf] [col Hc]%lookup_lt_is_Some_2. unfold __setColumnVis. rewrite Hc. cbn [mbind option_bind].
  assert ((bVisible <$> aoColumns (t_settings p)) !! c = Some (bVisible col)) as Hv by (by rewrite list_lookup_fmap, Hc).
  destruct (Bool.eqb (bVisible col) vis) eqn:E.
  { apply Bool.eqb_prop in E as <-. exists p. split_and!; [done|done|done..|]. by rewrite list_insert_id. }
  set (cols := aoColumns (t_settings p)) in *. set (cols' := <[c := set_bVisible vis col]> cols).
  assert (bVisible <$> cols' = <[c := vis]> (bVisible <$> cols)) as Ei by apply list_fmap_insert.
  assert (length cols' = length cols) as Hl by apply length_insert.
  assert (∃ trs', (if vis then mapM (on_cells (insertBefore c (next_visible (bVisible <$> cols) (S c)))) (t_trs p)
                   else mapM (on_cells (λ l, Some (filter (.≠ c) l))) (t_trs p)) = Some trs'
            ∧ rows_have (visible_columns (bVisible <$> cols')) trs' ∧ length trs' = length (t_trs p)) as (trs' & -> & Hr' & L).
  { rewrite Ei. destruct vis, (bVisible col); try done.
    - apply on_cells_rows with (visible_columns (bVisible <$> cols)); [done|]. by apply insert_cell.
    - apply on_cells_rows with (visible_columns (bVisible <$> cols)); [done|]. f_equal. symmetry. apply visible_insert_false.
      by eapply lookup_lt_Some. }
  cbn [mbind option_bind]. set (s1 := set_aoColumns cols' (t_settings p)). change (aoColumns s1) with cols'.
  destruct (draw_head_shown (length cols) (aoHeader p) (bVisible <$> cols') (t_thead p) Hh) as (thead & -> & Ht1); [by rewrite length_fmap|].
  destruct (draw_head_shown (length cols) (aoFooter p) (bVisible <$> cols') (t_tfoot p) Hf) as (tfoot & -> & Ht2); [by rewrite length_fmap|].
  cbn [mbind option_bind]. destruct (save_total s1 (t_storages p)) as (s' & w' & -> & Ec & Es); [by rewrite <- Hs in Hl|].
  cbn [mbind option_bind]. eexists. split; [reflexivity|]. change (aoColumns s1) with cols' in Ec. cbn [t_settings t_trs].
  split; [|split; [done|by rewrite Ec]]. split; cbn [t_settings t_trs aoHeader aoFooter t_thead t_tfoot]; rewrite ?Ec, ?Es, ?Hl; done.
Qed.

Lemma set_each_shown l vis p :
  columns_shown p → Forall (λ c, c < length (aoColumns (t_settings p))) l →
  ∃ p', set_each sInstance pathname now l vis p = Some p' ∧ columns_shown p' ∧ same_frame p p'
    ∧ length (aoColumns (t_settings p')) = length (aoColumns (t_settings p))
    ∧ ∀ c, (bVisible <$> aoColumns (t_settings p')) !! c
           = if decide (c ∈ l ∧ c < length (aoColumns (t_settings p))) then Some vis else (bVisible <$> aoColumns (t_settings p)) !! c.
Proof.
  revert p. induction l as [|c l IH]; intros p Hp Hl.
  { exists p. split_and!; [done..|]. intros c. rewrite decide_False; [done|]. by intros [?%elem_of_nil _]. }
  apply Forall_cons in Hl as [Hc Hl]. destruct (set_vis_shown c vis p Hp Hc) as (p1 & E & H1 & L1 & V1).
  assert (length (aoColumns (t_settings p1)) = length (aoColumns (t_settings p))) as N1
    by (apply (f_equal length) in V1; by rewrite length_insert, !length_fmap in V1).
  destruct (IH p1 H1) as (p' & E' & H' & L' & N' & V'); [by rewrite N1|].
  cbn [set_each]. rewrite E. cbn [mbind option_bind]. exists p'. split_and!; [done|done| |congruence|].
  { destruct L1 as (? & ? & ?), L' as (? & ? & ?). split_and!; congruence. }
  intros c'. rewrite V', N1, V1. destruct (decide (c' = c)) as [->|Hne].
  - rewrite list_lookup_insert_eq by (by rewrite length_fmap). rewrite (decide_True (P := c ∈ c :: l ∧ _)) by (split; [by left|done]). by case_decide.
  - rewrite list_lookup_insert_ne by done. repeat case_decide; rewrite ?elem_of_cons in *; naive_solver.
Qed.

Lemma fire_all (l : list nat) s : ∃ f, foldl (λ s _, fire "column-visibility"%js s) s l = set_fired f s.
Proof. revert s. induction l as [|c l IH]; intros s; [by exists (fired s); destruct s|]. destruct (IH (fire "column-visibility"%js s)) as [f E]. by exists f. Qed.

(** After any columns of a table are shown or hidden, in any order and repeatedly, every row that
    has a node has exactly the cells of the visible columns, in the order of the columns; the header
    and the footer have exactly the cells that cover a visible column, each in the row where it
    starts, in the order of the columns and with the spans it has among the visible columns; and
    the columns that were set, and no others, have the visibility they were given. *)
Theorem set_columns_vis_correct l vis p :
  columns_shown p → Forall (λ c, c < length (aoColumns (t_settings p))) l →
  ∃ p', set_columns_vis sInstance pathname now l vis p = Some p' ∧ columns_shown p' ∧ same_frame p p'
    ∧ length (aoColumns (t_settings p')) = length (aoColumns (t_settings p))
    ∧ ∀ c, (bVisible <$> aoColumns (t_settings p')) !! c
           = if decide (c ∈ l ∧ c < length (aoColumns (t_settings p))) then Some vis else (bVisible <$> aoColumns (t_settings p)) !! c.
Proof.
  intros Hp Hl. destruct (set_each_shown l vis p Hp Hl) as (p1 & E & H1 & L1 & N1 & V1). unfold set_columns_vis. rewrite E.
  cbn [mbind option_bind]. destruct (fire_all l (t_settings p1)) as [f ->]. eexists. split; [reflexivity|].
  split; [|by split_and!]. by destruct H1; split.
Qed.
End visibility_facts.

(** ** At a concrete table *)

(** Three columns, the second hidden, under the header with a group and no footer. *)
Definition sample_vis_table : settings :=
  set_aoPreSearchCols (replicate 3 oSearch) (set_aoColumns
    ((λ b, set_bVisible b (sample_column (λ v _, v))) <$> [true; false; true]) sample_saved).

Example set_columns_vis_correct_witness :
  ∃ h p', columns_shown (TablePage sample_vis_table [Some [0; 2]; None] group_grid h [] (HeadPage ∅ ∅) (Storages [] []))
    ∧ set_columns_vis "t"%js "/"%js 1700000000000 [1; 0] true
        (TablePage sample_vis_table [Some [0; 2]; None] group_grid h [] (HeadPage ∅ ∅) (Storages [] [])) = Some p'
    ∧ rows_have [0; 1; 2] (t_trs p') ∧ head_rows (t_thead p') !! 1 = Some [12; 13]
    ∧ spans (t_thead p') !! 11 = Some (1, 2).
Proof.
  destruct (draw_head_shown 3 group_grid [true; false; true] (HeadPage ∅ ∅) group_grid_ok eq_refl) as (h & _ & Hh).
  exists h. set (p := TablePage _ _ _ _ _ _ _).
  assert (columns_shown p) as Hp.
  { split; [constructor; [vm_compute; reflexivity|by constructor]|reflexivity|exact group_grid_ok|apply grid_ok_nil|exact Hh|].
    split; [done|]. intros c q r R C B%block_at. discriminate B. }
  destruct (set_columns_vis_correct "t"%js "/"%js 1700000000000 [1; 0] true p Hp) as (p' & E & [Hr _ _ _ Ht _] & (_ & L & _) & _ & V).
  { repeat (apply Forall_cons; split); [vm_compute; lia..|constructor]. }
  exists p'. split; [exact Hp|]. split; [exact E|].
  assert (bVisible <$> aoColumns (t_settings p') = [true; true; true]) as Ev.
  { apply list_eq. intros c. rewrite V. by destruct c as [|[|[|c]]]. }
  rewrite Ev in Hr, Ht. rewrite L in Ht. split; [exact Hr|]. destruct Ht as [Ht1 Ht2]. split.
  - exact (Ht1 1 _ 1 eq_refl eq_refl).
  - apply (Ht2 11 0 1). by apply group_block; repeat (first [constructor 1 | constructor 2]).
Defined.
