(* ===== verification/DtSelect.v ===== *)
(** * Selecting rows and columns (jquery.dataTables.js, selectors of the API)

    A selector is an item or a list of items; a string item is a list of strings separated by
    commas.  Each kind of selection runs a function on every item and collects what it finds.
    Nodes of the page are described by the properties that the table reads from them; the
    selector engine of the page and the selectors of extensions are parameters, and so is what
    the functions of the page return.  [None] stands for an exception. *)

From S2P Require Import Prelude JsString JsObject JsNumber JsValue JsInt DtUtil DtModel DtTypes DtSort DtPage DtData DtDraw DtHeader DtHeaderTheorems DtColumns.

(** ** Selectors *)

(** What a selection finds: an index, or the value of an entry that is missing. *)
Inductive found := Idx (z : Z) | FNull | FUndef.
#[export] Instance found_eq_dec : EqDecision found.
Proof. solve_decision. Defined.
Abbreviation row_found k := (Idx (Z.of_nat k)).
Definition found_rows (l : list nat) : list found := (λ k, row_found k) <$> l.

(** A node: [_DT_RowIndex] and [_DT_CellIndex] if the table made it a row or a cell, and the data
    of the closest ancestors that are marked with a row or a column. *)
Record node := Node {
  _DT_RowIndex : option nat;
  _DT_CellIndex : option (nat * nat);
  host_row : option found;
  host_column : option found
}.

Inductive item (F : Type) := IVal (v : val) | IFun (f : F) | INode (n : node).
Arguments IVal {F} v.
Arguments IFun {F} f.
Arguments INode {F} n.

Inductive selector (F : Type) := One (i : item F) | Several (l : list (item F)).
Arguments One {F} i.
Arguments Several {F} l.

Definition falsy_item {F} (i : item F) : bool := match i with IVal v => negb (truthy v) | _ => false end.

Definition item_intVal {F} (i : item F) : option Z :=
  match i with
  | IVal v => x ← _intVal v; match jint_of_num x with Some (JInt z) => Some z | _ => None end
  | _ => None
  end.

(** The items a part of the selector stands for. *)
Definition split_item {F} (i : item F) : list (item F) :=
  match i with
  | IVal (VStr t) => if t =s? [] then [i] else (λ p, IVal (VStr (trim p))) <$> split ","%js t
  | _ => [i]
  end.
Definition selector_items {F} (sel : selector F) : list (item F) :=
  match sel with
  | One (IVal (VArr l)) => l ≫= (λ v, split_item (IVal v))
  | One i => split_item i
  | Several l => l ≫= split_item
  end.

Section run.
Context {F : Type}.
Variable selectFn : item F → settings → option (list found * settings).
Variable ext : list (settings → list found → option (list found)).   (* _ext.selector[type], with the options *)

Fixpoint select_items (a : list (item F)) (s : settings) : option (list found * settings) :=
  match a with
  | [] => Some ([], s)
  | i :: a => '(res, s) ← selectFn i s; '(out, s) ← select_items a s; Some (res ++ out, s)
  end.

Definition strict_found (a b : found) : bool := bool_decide (a = b).

Definition _selector_run (sel : selector F) (s : settings) : option (list found * settings) :=
  '(out, s) ← select_items (selector_items sel) s;
  out ← fold_left (λ out e, out ← out; e s out) ext (Some out);
  Some (_unique strict_found out, s).
End run.

(** ** Options *)

(** [_selector_opts] on the object of the call; the first assignment also changes the object. *)
Definition _selector_opts (opts : option (jsobj val)) : jsobj val :=
  let opts := default [] opts in
  let get k := default VUndef (obj_get k opts) in
  let opts := if truthy (get "filter"%js) && is_undef (get "search"%js)
              then obj_set "search"%js (get "filter"%js) opts else opts in
  fold_left (λ o (e : jstring * val), if is_undef e.2 then o else obj_set e.1 e.2 o) opts
    [("search"%js, VStr "none"%js); ("order"%js, VStr "current"%js); ("page"%js, VStr "all"%js)].

(** [v == t] for a string [t] that is not a number *)
Definition loosely (v : val) (t : jstring) : bool :=
  match v with VStr u => u =s? t | VArr _ | VObj _ => to_string v =s? t | _ => false end.

(** ** The rows that the options leave *)

Definition at_index (l : list nat) (z : Z) : found :=
  if (z <? 0)%Z then FUndef else match l !! Z.to_nat z with Some k => row_found k | None => FUndef end.

Definition _selector_row_indexes (s : settings) (opts : jsobj val) : option (list found) :=
  let displayFiltered := aiDisplay s in
  let displayMaster := aiDisplayMaster s in
  let opt k := default VUndef (obj_get k opts) in
  let search := opt "search"%js in
  let order := opt "order"%js in
  let page := opt "page"%js in
  if is_ssp s then
    if bool_decide (search = VStr "removed"%js) then Some []
    else Some (Idx <$> _range 0 (Some (Z.of_nat (length displayMaster))))
  else if loosely page "current"%js then
    match _iDisplayStart s, fnDisplayEnd s with
    | JInt a, JInt b => Some (at_index displayFiltered <$> seqZ a (b - a))
    | JNaN, _ | _, JNaN => Some []
    | a, b => if jlt a b then None else Some []
    end
  else if loosely order "current"%js || loosely order "applied"%js then
    if loosely search "none"%js then Some (found_rows displayMaster)
    else if loosely search "applied"%js then Some (found_rows displayFiltered)
    else Some (found_rows (filter (λ el, el ∉ displayFiltered) displayMaster))
  else if loosely order "index"%js || loosely order "original"%js then
    Some (found_rows (List.filter (λ i, loosely search "none"%js
                       || (loosely search "removed"%js && bool_decide (i ∉ displayFiltered))
                       || (loosely search "applied"%js && bool_decide (i ∈ displayFiltered)))
            (seq 0 (length (aoData s)))))
  else Some [].

(** ** Rows *)

(** A function of the page gets the index, the data and whether there is a node. *)
Abbreviation row_fn := (nat → val → bool → bool).

Definition row_at (s : settings) (k : found) : option (nat * row) :=
  match k with
  | Idx z => if (z <? 0)%Z then None else r ← aoData s !! Z.to_nat z; Some (Z.to_nat z, r)
  | _ => None
  end.

Section row_selector.
(** The nodes, given by their rows, that the selector engine keeps for an item. *)
Variable filter_nodes : item row_fn → list nat → option (list nat).
Variable ext_row : jsobj val → list (settings → list found → option (list found)).
Variable stale : jstring → found.          (* the index that the object of a removed row still has *)

(** The nodes of the rows, without those that have none. *)
Definition row_nodes (rs : list (nat * row)) : list nat :=
  omap (λ kr : nat * row, if nTr kr.2 then Some kr.1 else None) rs.

Definition filtered_nodes (sel : item row_fn) (rs : list (nat * row)) : option (list found) :=
  l ← filter_nodes sel (row_nodes rs); Some (found_rows l).

(** A selector that is neither an index nor empty. *)
Definition row_pick (sel : item row_fn) (rs : list (nat * row)) (s : settings) : option (list found) :=
  match sel with
  | IFun f => Some (omap (λ kr : nat * row, if f kr.1 (_aData kr.2) (nTr kr.2) then Some (row_found kr.1) else None) rs)
  | INode n =>
      match _DT_RowIndex n, _DT_CellIndex n with
      | Some i, _ => Some [row_found i]
      | None, Some (r, _) => Some [row_found r]
      | None, None => Some (match host_row n with Some r => [r] | None => [] end)
      end
  | IVal (VStr (c :: id)) =>
      match (if (c =? 35)%N then obj_get id (aIds s) else None) with
      | Some (Some k) => Some [row_found k]
      | Some None => Some [stale id]
      | None => filtered_nodes sel rs
      end
  | IVal _ => filtered_nodes sel rs
  end.

Definition row_run (opts : option (jsobj val)) (sel : item row_fn) (s : settings) : option (list found) :=
  match item_intVal sel, opts with
  | Some z, None => Some [Idx z]
  | selInt, _ =>
      rows ← _selector_row_indexes s (default [] opts);
      match selInt with
      | Some z =>
          if bool_decide (Idx z ∈ rows) then Some [Idx z]
          else if falsy_item sel then Some rows
          else rs ← mapM (row_at s) rows; row_pick sel rs s
      | None => if falsy_item sel then Some rows else rs ← mapM (row_at s) rows; row_pick sel rs s
      end
  end.

Definition __row_selector (sel : selector row_fn) (opts : jsobj val) (s : settings) : option (list found) :=
  '(out, _) ← _selector_run (λ i s, l ← row_run (Some opts) i s; Some (l, s)) (ext_row opts) sel s;
  Some out.

(** [rows(selector, opts)]: a result per table.  The argument can be the options alone. *)
Inductive row_argument := NoSelector | PlainObject (o : jsobj val) | Selector (sel : selector row_fn).

Definition shift_arguments (a : row_argument) (opts : option (jsobj val)) : selector row_fn * option (jsobj val) :=
  match a with
  | NoSelector => (One (IVal (VStr [])), opts)
  | PlainObject o => (One (IVal (VStr [])), Some o)
  | Selector sel => (sel, opts)
  end.

Definition rows (context : list settings) (a : row_argument) (opts : option (jsobj val)) : option (list (list found)) :=
  let '(sel, opts) := shift_arguments a opts in
  mapM (__row_selector sel (_selector_opts opts)) context.
End row_selector.

(** [_selector_first]: the table and its only item, or nothing. *)
Fixpoint first_from {C A} (inst : list (C * list A)) : list (C * list A) :=
  match inst with
  | [] => []
  | (c, x :: _) :: _ => [(c, [x])]
  | (_, []) :: inst => first_from inst
  end.
Definition _selector_first {C A} (context : list C) (inst : list (list A)) : list (C * list A) :=
  first_from (zip context inst).

(** ** Columns *)

Inductive column_kind := ByName | ByVisible.

(** [__re_column_selector]: what is before the last colon, and what kind of selector follows it. *)
Definition before_suffix (suf t : jstring) : option jstring :=
  let n := length t - length suf in
  if (length suf <=? length t) && bool_decide (drop n t = suf) then Some (take n t) else None.
Definition __re_column_selector (t : jstring) : option (jstring * column_kind) :=
  let part suf k := m ← before_suffix suf t;
    if negb (m =s? []) && negb (existsb line_end m) then Some (m, k) else None in
  match part ":name"%js ByName with
  | Some r => Some r
  | None => match part ":visIdx"%js ByVisible with
            | Some r => Some r
            | None => part ":visible"%js ByVisible
            end
  end.

(** A function of the page gets the index, the data of the column and the header cell. *)
Abbreviation column_fn := (nat → list val → bool).

Fixpoint __columnData (column : nat) (rows : list found) (s : settings) : option (list val * settings) :=
  match rows with
  | [] => Some ([], s)
  | k :: rows =>
      '(k, _) ← row_at s k;
      '(v, s) ← _fnGetCellData s k column None;
      '(a, s) ← __columnData column rows s;
      Some (v :: a, s)
  end.

Fixpoint columns_with (f : column_fn) (rows : list found) (cols : list nat) (s : settings) : option (list found * settings) :=
  match cols with
  | [] => Some ([], s)
  | idx :: cols =>
      '(a, s) ← __columnData idx rows s;
      '(out, s) ← columns_with f rows cols s;
      Some (if f idx a then row_found idx :: out else out, s)
  end.

Definition or_null (k : option nat) : found := match k with Some k => row_found k | None => FNull end.

(** The column of a visible index from the left, or of a negative one from the right. *)
Definition visible_found (s : settings) (idx : jint) : found :=
  if jlt idx (JInt 0) then
    let visColumns := _fnGetColumns s bVisible in
    match jadd (JInt (Z.of_nat (length visColumns))) idx with
    | JInt z => at_index visColumns z
    | _ => FUndef
    end
  else match idx with
       | JInt z => or_null (_fnVisibleToColumnIndex s (Z.to_nat z))
       | _ => FNull
       end.

Definition named_columns (s : settings) (m : jstring) : list nat :=
  omap (λ ic : nat * column, if sName ic.2 =s? m then Some ic.1 else None) (imap pair (aoColumns s)).

Section column_selector.
(** The header cells, given by their columns, that the selector engine keeps for an item. *)
Variable filter_heads : item column_fn → list nat → option (list nat).
Variable ext_column : jsobj val → list (settings → list found → option (list found)).

Definition column_match (sel : item column_fn) : option (jstring * column_kind) :=
  match sel with IVal (VStr t) => __re_column_selector t | _ => None end.

(** [None] where a property of undefined or null is read. *)
Definition node_of (sel : item column_fn) : option (option node) :=
  match sel with
  | INode n => Some (Some n)
  | IVal v => if nullish v then None else Some None
  | IFun _ => Some None
  end.

Definition column_nodes (sel : item column_fn) (s : settings) : option (list found) :=
  n ← node_of sel;
  let jqResult : option (list found) := l ← filter_heads sel (seq 0 (length (aoColumns s))); Some (found_rows l) in
  match n with
  | Some n =>
      match _DT_CellIndex n with
      | Some (_, c) => Some [row_found c]
      | None => r ← jqResult;
                Some (match r, host_column n with [], Some c => [c] | _, _ => r end)
      end
  | None => jqResult
  end.

Definition column_run (opts : jsobj val) (sel : item column_fn) (s : settings) : option (list found * settings) :=
  let n := Z.of_nat (length (aoColumns s)) in
  let pure (l : option (list found)) : option (list found * settings) := out ← l; Some (out, s) in
  if match sel with IVal (VStr []) => true | _ => false end then Some (Idx <$> _range n None, s)
  else match item_intVal sel with
  | Some z => Some ([Idx (if (0 <=? z)%Z then z else (n + z)%Z)], s)
  | None =>
      match sel with
      | IFun f => rows ← _selector_row_indexes s opts; columns_with f rows (seq 0 (length (aoColumns s))) s
      | _ =>
          match column_match sel with
          | Some (m, ByVisible) => Some ([visible_found s (parse_jint (VStr m))], s)
          | Some (m, ByName) => Some (found_rows (named_columns s m), s)
          | None => pure (column_nodes sel s)
          end
      end
  end.

Definition __column_selector (sel : selector column_fn) (opts : jsobj val) (s : settings)
    : option (list found * settings) :=
  _selector_run (column_run opts) (ext_column opts) sel s.
End column_selector.

(** ** Operations on selected rows *)

(** [rows().data()]: the data of the rows of one table. *)
Definition rows_data (s : settings) (l : list found) : option (list val) :=
  rs ← mapM (row_at s) l; Some ((λ kr : nat * row, _aData kr.2) <$> rs).

(** [rows().ids(hash)] for one table *)
Definition rows_ids (rowIdFn : val → option jstring) (hash : bool) (s : settings) (l : list found) : option (list jstring) :=
  rs ← mapM (row_at s) l;
  Some ((λ kr : nat * row, (if hash then "#"%js else []) ++ default "undefined"%js (rowIdFn (_aData kr.2))) <$> rs).

(** The indices of a selection all of whose rows exist. *)
Definition found_indexes (l : list found) : option (list nat) :=
  mapM (λ k, match k with Idx z => if (z <? 0)%Z then None else Some (Z.to_nat z) | _ => None end) l.

(** [rows(selector, opts).remove()] on one table *)
Definition select_remove filter_nodes ext_row stale (rowIdFn : val → option jstring) (sel : selector row_fn)
    (opts : jsobj val) (s : settings) : option settings :=
  out ← __row_selector filter_nodes ext_row stale sel opts s;
  items ← found_indexes out;
  rows_remove rowIdFn 0 (length items) items s.

(** ** Examples *)

Example column_selector_parts :
  __re_column_selector "price:name"%js = Some ("price"%js, ByName)
  ∧ __re_column_selector "-1:visible"%js = Some ("-1"%js, ByVisible)
  ∧ __re_column_selector "a:b:visIdx"%js = Some ("a:b"%js, ByVisible)
  ∧ __re_column_selector ":name"%js = None.
Proof. vm_compute. split_and!; reflexivity. Qed.

Example options_of_filter :
  _selector_opts (Some [("filter"%js, VStr "applied"%js)])
  = [("search"%js, VStr "applied"%js); ("order"%js, VStr "current"%js); ("page"%js, VStr "all"%js); ("filter"%js, VStr "applied"%js)].
Proof. vm_compute. reflexivity. Qed.
