(* ===== verification/DtSelectTheorems.v ===== *)
(** * Correctness of the selection of rows (jquery.dataTables.js, selectors of the API)

    The options leave the rows of the display, of the search or of the page; a selection followed
    by a removal removes exactly the selected rows; the ids of rows select them again. *)

From S2P Require Import Prelude JsString JsObject JsNumber JsValue JsInt DtUtil DtModel DtTypes DtSort DtPage DtData DtDraw DtDrawTheorems DtHeader DtColumns DtSelect.

(** ** The rows that the options leave *)

Lemma found_rows_In (k : nat) l : row_found k ∈ found_rows l ↔ k ∈ l.
Proof.
  unfold found_rows. rewrite list_elem_of_fmap. split; [|by exists k].
  intros (j & [= ->%Nat2Z.inj] & Hj). done.
Qed.

Lemma filter_sig {A} (f : A → bool) (P : A → Prop) `{∀ x, Decision (P x)} (l : list A) :
  (∀ x, x ∈ l → f x = true ↔ P x) → List.filter f l = filter P l.
Proof.
  induction l as [|x l IH]; intros Hf; [done|]. cbn [List.filter].
  rewrite filter_cons, IH by (intros y Hy; apply Hf; by right).
  pose proof (Hf x ltac:(by left)) as Hx. case_decide; destruct (f x); naive_solver.
Qed.

Lemma at_index_window (l : list nat) st n :
  st + n ≤ length l ∨ n = 0 → at_index l <$> (Z.of_nat <$> seq st n) = found_rows (take n (drop st l)).
Proof.
  intros H. apply list_eq. intros i. unfold found_rows. rewrite !list_lookup_fmap.
  destruct (decide (i < n)) as [Hi|Hi].
  - rewrite lookup_seq_lt, lookup_take, lookup_drop by done. rewrite decide_True by done. cbn.
    unfold at_index. destruct (Z.ltb_spec (Z.of_nat (st + i)) 0); [lia|]. rewrite Nat2Z.id.
    by destruct (lookup_lt_is_Some_2 l (st + i)) as [k ->]; [lia|].
  - by rewrite lookup_seq_ge, lookup_take_ge by lia.
Qed.

Lemma seqZ_of_nat st n : seqZ (Z.of_nat st) (Z.of_nat n) = Z.of_nat <$> seq st n.
Proof.
  apply list_eq. intros i. rewrite list_lookup_fmap. destruct (decide (i < n)) as [Hi|Hi].
  - rewrite lookup_seq_lt by done. rewrite lookup_seqZ_lt by lia. cbn. f_equal. lia.
  - rewrite lookup_seq_ge by lia. rewrite lookup_seqZ_ge by lia. done.
Qed.

Lemma page_rows s st :
  drawable s st →
  match _iDisplayStart s, fnDisplayEnd s with
  | JInt a, JInt b => Some (at_index (aiDisplay s) <$> seqZ a (b - a))
  | JNaN, _ | _, JNaN => Some []
  | a, b => if jlt a b then None else Some []
  end = Some (found_rows (window_rows s st)).
Proof.
  intros Hd. pose proof (positions_window s st Hd) as (n & Hp & -> & Hn). destruct Hd as [_ _ _ -> _ _].
  unfold positions in Hp. destruct (fnDisplayEnd s) as [b| |neg]; [| |destruct neg; [|done]].
  - f_equal. destruct (Z.leb_spec b (Z.of_nat st)) as [Hb|Hb].
    + injection Hp as Hp. destruct n; [|done]. rewrite take_0.
      replace (seqZ _ _) with (@nil Z); [done|]. symmetry. apply seqZ_nil. lia.
    + destruct (Z.ltb_spec (Z.of_nat st) 0); [lia|]. injection Hp as Hp.
      assert (n = Z.to_nat (b - Z.of_nat st)) as Hl by (apply (f_equal length) in Hp; rewrite !length_seq in Hp; lia).
      replace (b - Z.of_nat st)%Z with (Z.of_nat n) by lia. rewrite seqZ_of_nat. apply at_index_window. tauto.
  - cbn in Hp. injection Hp as Hp. destruct n; [|done]. done.
  - cbn in Hp. injection Hp as Hp. destruct n; [|done]. done.
Qed.

(** The page is a window of the display, when the rows of the page are asked for. *)
Definition pageable (s : settings) (opts : jsobj val) : Prop :=
  loosely (default VUndef (obj_get "page"%js opts)) "current"%js = true → ∃ st, drawable s st.

Lemma filter_wf (P : nat → Prop) `{∀ x, Decision (P x)} n (l : list nat) :
  NoDup l → Forall (λ i, i < n) l → NoDup (filter P l) ∧ Forall (λ i, i < n) (filter P l).
Proof.
  intros Hn Hf. split; [by apply NoDup_filter|]. rewrite Forall_forall in Hf |- *.
  intros i [_ Hi]%list_elem_of_filter. by apply Hf.
Qed.

Lemma seq_wf n : NoDup (seq 0 n) ∧ Forall (λ i, i < n) (seq 0 n).
Proof. split; [apply NoDup_seq|]. apply Forall_forall. intros i Hi%elem_of_seq. lia. Qed.

Lemma master_wf s : table_wf s → NoDup (aiDisplayMaster s) ∧ Forall (λ i, i < length (aoData s)) (aiDisplayMaster s).
Proof.
  intros Hwf. split; [by apply wf_master_NoDup|]. apply Forall_forall. intros i.
  rewrite (wf_master s Hwf), elem_of_seq. lia.
Qed.

Lemma window_wf s st : table_wf s → NoDup (window_rows s st) ∧ Forall (λ i, i < length (aoData s)) (window_rows s st).
Proof.
  intros [_ Hn Hf]. assert (window_rows s st `sublist_of` aiDisplay s) as Hs.
  { unfold window_rows. destruct (_iDisplayLength s); [|apply sublist_drop..]. case_match; [|apply sublist_drop].
    etransitivity; [apply sublist_take|apply sublist_drop]. }
  split; [by eapply sublist_NoDup|]. rewrite Forall_forall in Hf |- *. intros i Hi. by eapply Hf, elem_of_sublist.
Qed.

(** The options never leave a row twice, nor one that is not there. *)
Lemma row_indexes_wf s opts :
  table_wf s → is_ssp s = false → pageable s opts →
  ∃ l, _selector_row_indexes s opts = Some (found_rows l) ∧ NoDup l ∧ Forall (λ i, i < length (aoData s)) l.
Proof.
  intros Hwf Hssp Hp. unfold _selector_row_indexes. rewrite Hssp. unfold pageable in Hp.
  pose proof (master_wf s Hwf) as [Hm1 Hm2]. destruct (loosely _ "current"%js) eqn:Hpage in |- *.
  - destruct (Hp Hpage) as [st Hd]. exists (window_rows s st). split; [by apply page_rows|by apply window_wf].
  - case_match; [case_match; [|case_match]|case_match].
    + by eexists.
    + eexists. split; [done|]. by destruct Hwf.
    + eexists. split; [done|]. by apply filter_wf.
    + destruct (seq_wf (length (aoData s))). eexists. split; [done|].
      erewrite (filter_sig _ (λ i, Is_true _)) by (intros x _; symmetry; apply Is_true_true). by apply filter_wf.
    + exists []. split_and!; [done|constructor|constructor].
Qed.

(** The options of a call, with values for the three properties. *)
Definition modifiers (search order page : jstring) : jsobj val :=
  _selector_opts (Some [("search"%js, VStr search); ("order"%js, VStr order); ("page"%js, VStr page)]).

Lemma modifiers_get search order page :
  obj_get "search"%js (modifiers search order page) = Some (VStr search)
  ∧ obj_get "order"%js (modifiers search order page) = Some (VStr order)
  ∧ obj_get "page"%js (modifiers search order page) = Some (VStr page).
Proof. split_and!; reflexivity. Qed.

Lemma partition_display s :
  table_wf s → aiDisplayMaster s ≡ₚ aiDisplay s ++ filter (.∉ aiDisplay s) (aiDisplayMaster s).
Proof.
  intros Hwf. pose proof (master_wf s Hwf) as [Hm1 Hm2]. pose proof Hwf as [Hm Hn Hf].
  apply NoDup_Permutation; [done| |].
  - apply NoDup_app. split_and!; [done| |by apply NoDup_filter]. intros i Hi [H _]%list_elem_of_filter. done.
  - intros i. rewrite elem_of_app, list_elem_of_filter. split; [destruct (decide (i ∈ aiDisplay s)); naive_solver|].
    intros [Hi|[_ Hi]]; [|done]. rewrite Hm, elem_of_seq. rewrite Forall_forall in Hf. specialize (Hf i Hi). cbn in Hf. lia.
Qed.

(** Comparisons of literals. *)
Ltac test_loosely :=
  repeat match goal with
  | |- context [loosely ?a ?b] => let v := eval vm_compute in (loosely a b) in change (loosely a b) with v
  end; cbn [orb andb].

(** The options of a row selector: with the search applied or removed they leave the rows the
    search shows and the others, which are disjoint and together are all rows; asked for in the
    order of the data they leave the same rows, by index; and for the current page they leave the
    rows of the window, whatever the other options say. *)
Theorem row_modifiers s :
  table_wf s → is_ssp s = false →
  let rows search order := _selector_row_indexes s (modifiers search order "all"%js) in
  let removed := filter (.∉ aiDisplay s) (aiDisplayMaster s) in
  let kinds := [("none"%js, aiDisplayMaster s); ("applied"%js, aiDisplay s); ("removed"%js, removed)] in
  aiDisplayMaster s ≡ₚ aiDisplay s ++ removed
  ∧ (∀ search l, (search, l) ∈ kinds →
      rows search "current"%js = Some (found_rows l) ∧ rows search "applied"%js = Some (found_rows l)
      ∧ rows search "index"%js = Some (found_rows (filter (.∈ l) (seq 0 (length (aoData s)))))
      ∧ rows search "original"%js = rows search "index"%js)
  ∧ (∀ st, drawable s st → ∀ search order,
      _selector_row_indexes s (modifiers search order "current"%js) = Some (found_rows (window_rows s st))).
Proof.
  intros Hwf Hssp rows removed kinds. split; [by apply partition_display|]. split.
  - intros search l Hl. unfold rows, _selector_row_indexes. rewrite Hssp.
    destruct (modifiers_get search "current"%js "all"%js) as (-> & -> & ->).
    destruct (modifiers_get search "applied"%js "all"%js) as (-> & -> & ->).
    destruct (modifiers_get search "index"%js "all"%js) as (-> & -> & ->).
    destruct (modifiers_get search "original"%js "all"%js) as (-> & -> & ->).
    assert (∀ x, x ∈ seq 0 (length (aoData s)) ↔ x ∈ aiDisplayMaster s) as Hin by (intros x; by rewrite (wf_master s Hwf)).
    repeat (apply elem_of_cons in Hl as [[= -> ->]|Hl]; [split_and!; [done|done| |done];
      cbn [loosely]; apply (f_equal Some), (f_equal found_rows)|]); [| | |by apply elem_of_nil in Hl].
    all: apply filter_sig; intros x Hx%Hin; unfold removed; rewrite ?list_elem_of_filter; test_loosely.
    all: repeat case_bool_decide; naive_solver.
  - intros st Hd search order. unfold _selector_row_indexes. rewrite Hssp.
    destruct (modifiers_get search order "current"%js) as (-> & -> & ->). by apply page_rows.
Qed.

(** ** What a selector finds *)

Lemma unique_NoDup {A} (eqb : A → A → bool) (src out : list A) :
  (∀ x y, eqb x y = true → x = y) → NoDup (out ++ src) → unique_go eqb src out = out ++ src.
Proof.
  intros He. revert out. induction src as [|x src IH]; intros out Hn; [by rewrite app_nil_r|]. cbn [unique_go].
  destruct (existsb _ out) eqn:E.
  - apply existsb_exists in E as (y & Hy & <-%He). apply NoDup_app in Hn as (_ & Hd & _).
    exfalso. apply (Hd y); [by apply list_elem_of_In|by left].
  - rewrite IH by (by rewrite <- app_assoc). by rewrite <- app_assoc.
Qed.

Lemma found_NoDup l : NoDup l → NoDup (found_rows l).
Proof. intros H. apply NoDup_fmap_2; [|done]. by intros x y [= ->%Nat2Z.inj]. Qed.

Lemma unique_found l : NoDup l → _unique strict_found (found_rows l) = found_rows l.
Proof.
  intros H. unfold _unique. rewrite unique_NoDup; [done| |by apply found_NoDup].
  intros x y. apply bool_decide_eq_true.
Qed.

Lemma found_indexes_rows l : found_indexes (found_rows l) = Some l.
Proof.
  apply mapM_Some. induction l as [|k l IH]; [constructor|]. constructor; [|done].
  destruct (Z.ltb_spec (Z.of_nat k) 0); [lia|]. by rewrite Nat2Z.id.
Qed.

Lemma row_at_nat s k : row_at s (row_found k) = r ← aoData s !! k; Some (k, r).
Proof. unfold row_at. destruct (Z.ltb_spec (Z.of_nat k) 0); [lia|]. by rewrite Nat2Z.id. Qed.

(** The rows of indices that exist. *)
Lemma rows_at s l :
  Forall (λ i, i < length (aoData s)) l →
  ∃ rs, mapM (row_at s) (found_rows l) = Some rs ∧ Forall2 (λ k kr, kr.1 = k ∧ aoData s !! k = Some kr.2) l rs.
Proof.
  induction 1 as [|k l Hk Hl (rs & E & F)]; [by exists []|]. destruct (lookup_lt_is_Some_2 _ _ Hk) as [r Hr].
  exists ((k, r) :: rs). split; [|by constructor]. unfold found_rows in *. cbn [fmap list_fmap mapM].
  rewrite row_at_nat, Hr. cbn [mbind option_bind]. rewrite E. done.
Qed.

(** The rows for which a function of the page answers yes. *)
Definition picked (f : row_fn) (s : settings) (k : nat) : bool :=
  match aoData s !! k with Some r => f k (_aData r) (nTr r) | None => false end.

Section select.
Variable filter_nodes : item row_fn → list nat → option (list nat).
Variable stale : jstring → found.

Lemma omap_cons_option {A B} (g : A → option B) (x : A) (l : list A) :
  omap g (x :: l) = match g x with Some y => y :: omap g l | None => omap g l end.
Proof. done. Qed.

Lemma pick_function f s l rs :
  Forall2 (λ k kr, kr.1 = k ∧ aoData s !! k = Some kr.2) l rs →
  row_pick filter_nodes stale (IFun f) rs s = Some (found_rows (filter (λ k, picked f s k = true) l)).
Proof.
  intros H. cbn [row_pick]. f_equal. induction H as [|k [k' r] l rs [E Hr] _ IH]; [done|]. cbn in E. subst k'.
  rewrite omap_cons_option.
  rewrite IH, filter_cons. cbn [fst snd] in Hr |- *.
  assert (picked f s k = f k (_aData r) (nTr r)) as Hp by (unfold picked; by rewrite Hr).
  rewrite Hp. by destruct (f k (_aData r) (nTr r)).
Qed.

(** A selection by a function finds exactly the rows left by the options for which it answers yes. *)
Lemma select_function f opts s l :
  _selector_row_indexes s opts = Some (found_rows l) → NoDup l → Forall (λ i, i < length (aoData s)) l →
  __row_selector filter_nodes (λ _, []) stale (One (IFun f)) opts s
  = Some (found_rows (filter (λ k, picked f s k = true) l)).
Proof.
  intros Hl Hn Hf. unfold __row_selector, _selector_run. cbn [selector_items split_item select_items].
  unfold row_run. cbn [item_intVal default from_option id]. rewrite Hl. cbn [mbind option_bind falsy_item].
  destruct (rows_at s l Hf) as (rs & -> & F). cbn [mbind option_bind]. rewrite (pick_function f s l rs F).
  cbn [mbind option_bind fold_left]. rewrite app_nil_r, unique_found by (by apply NoDup_filter). done.
Qed.

(** Removing what a function selects, [rows(f, opts).remove()], never fails, keeps the table
    well-formed and removes exactly the rows that the options leave and for which the function
    answers yes; the data and both displays keep the others in their order. *)
Theorem select_remove_correct rowIdFn f opts s :
  table_wf s → is_ssp s = false → pageable s opts →
  ∃ l s', _selector_row_indexes s opts = Some (found_rows l)
    ∧ select_remove filter_nodes (λ _, []) stale rowIdFn (One (IFun f)) opts s = Some s' ∧ table_wf s'
    ∧ let kept := filter (λ k, ¬ (k ∈ l ∧ picked f s k = true)) in
      Some <$> aoData s' = rows_of (aoData s) (kept (seq 0 (length (aoData s))))
      ∧ rows_of (aoData s') (aiDisplayMaster s') = rows_of (aoData s) (kept (aiDisplayMaster s))
      ∧ rows_of (aoData s') (aiDisplay s') = rows_of (aoData s) (kept (aiDisplay s)).
Proof.
  intros Hwf Hssp Hp. destruct (row_indexes_wf s opts Hwf Hssp Hp) as (l & Hl & Hn & Hf).
  set (sel := filter (λ k, picked f s k = true) l).
  destruct (filter_wf (λ k, picked f s k = true) _ l Hn Hf) as [Hn' Hf'].
  destruct (rows_remove_spec rowIdFn (length sel) 0 sel s Hwf eq_refl Hn' Hf') as (s' & E & W & H).
  exists l, s'. split; [done|]. split.
  { unfold select_remove. rewrite (select_function f opts s l) by done. cbn [mbind option_bind].
    rewrite found_indexes_rows. done. }
  split; [done|]. cbn zeta. specialize (H sel eq_refl).
  assert (∀ k : list nat, filter (.∉ sel) k = filter (λ k, ¬ (k ∈ l ∧ picked f s k = true)) k) as Hs.
  { intros k. apply list_filter_iff. intros i. unfold sel. rewrite list_elem_of_filter. tauto. }
  by rewrite !Hs in H.
Qed.
End select.

(** ** Examples *)

Definition select_table : settings :=
  set_aiDisplay [3; 1] (set_aiDisplayMaster [3; 0; 2; 1] (sample_table [VStr "a"%js; VStr "b"%js; VStr "c"%js; VStr "d"%js])).

Lemma select_table_wf : table_wf select_table.
Proof.
  split.
  - change ([3; 0; 2; 1] ≡ₚ [0; 1; 2; 3]). apply NoDup_Permutation; [| |intros x; split; intros H].
    1,2: apply (bool_decide_eq_true_1 _); vm_compute; reflexivity.
    all: repeat (apply elem_of_cons in H as [->|H]; [apply (bool_decide_eq_true_1 _); vm_compute; reflexivity|]); by apply elem_of_nil in H.
  - apply (bool_decide_eq_true_1 _); vm_compute; reflexivity.
  - apply (bool_decide_eq_true_1 (Forall _ _)); vm_compute; reflexivity.
Qed.

(** The selector of the first row, when the search does not show it, is the number 0, which counts
    as no selector at all: it selects every row that the search shows. *)
Lemma zero_selects_all :
  __row_selector (λ _ _, Some []) (λ _, []) (λ _, FUndef) (One (IVal (VNum (num_of_Z 0)))) (modifiers "applied"%js "current"%js "all"%js) select_table
  = Some (found_rows [3; 1])
  ∧ __row_selector (λ _ _, Some []) (λ _, []) (λ _, FUndef) (One (IVal (VNum (num_of_Z 2)))) (modifiers "applied"%js "current"%js "all"%js) select_table
  = Some [].
Proof. split; vm_compute; reflexivity. Qed.

Lemma row_modifiers_witness :
  _selector_row_indexes select_table (modifiers "removed"%js "index"%js "all"%js) = Some (found_rows [0; 2]).
Proof.
  destruct (row_modifiers select_table select_table_wf eq_refl) as (_ & H & _).
  destruct (H "removed"%js [0; 2]) as (_ & _ & -> & _); [apply list_elem_of_In; cbn; tauto|]. vm_compute. reflexivity.
Defined.

Lemma select_remove_witness :
  ∃ s', select_remove (λ _ _, Some []) (λ _, []) (λ _, FUndef) (λ _, None) (One (IFun (λ k _ _, k =? 1)))
          (modifiers "applied"%js "current"%js "all"%js) select_table = Some s'
    ∧ rows_of (aoData s') (aiDisplayMaster s') = rows_of (aoData select_table) [3; 0; 2].
Proof.
  destruct (select_remove_correct (λ _ _, Some []) (λ _, FUndef) (λ _, None) (λ k _ _, k =? 1) (modifiers "applied"%js "current"%js "all"%js)
    select_table select_table_wf eq_refl) as (l & s' & Hl & E & _ & _ & M & _).
  - intros H. vm_compute in H. discriminate.
  - exists s'. split; [exact E|]. apply (f_equal (λ o : option (list found), o ≫= found_indexes)) in Hl.
    cbn [mbind option_bind] in Hl. rewrite found_indexes_rows in Hl. vm_compute in Hl. injection Hl as <-. rewrite M.
    vm_compute. reflexivity.
Defined.
