(* ===== verification/DtIds.v ===== *)
(** * The ids of rows (jquery.dataTables.js, "data" and selectors of the API)

    Adding and removing rows keeps the map from ids to rows exact, so that the selectors by id
    find the rows again. *)

From S2P Require Import Prelude JsString JsObject JsNumber JsValue JsInt DtUtil DtModel DtTypes DtSort DtPage DtData DtDraw DtDrawTheorems DtHeader DtColumns DtSelect DtSelectTheorems.

Section ids.
Variable rowIdFn : val → option jstring.

(** The map has exactly the ids of the rows; in particular no two rows have the same id. *)
Definition ids_exact (s : settings) : Prop :=
  ∀ id k, obj_get id (aIds s) = Some (Some k) ↔ ∃ d, (_aData <$> aoData s) !! k = Some d ∧ rowIdFn d = Some id.

Lemma obj_get_mapped {A B} (g : A → B) id (o : jsobj A) : obj_get id ((λ e : jstring * A, (e.1, g e.2)) <$> o) = g <$> obj_get id o.
Proof. induction o as [|[k v] o IH]; [done|]. cbn [fmap list_fmap obj_get fst snd]. by case_decide. Qed.

Lemma obj_get_without {A} id x (o : jsobj A) :
  obj_get id (filter (λ e : jstring * A, e.1 ≠ x) o) = if decide (id = x) then None else obj_get id o.
Proof.
  induction o as [|[k v] o IH]; [by case_decide|]. rewrite filter_cons. cbn [fst]. destruct (decide (k ≠ x)) as [Hk|Hk].
  - cbn [obj_get]. rewrite IH. repeat case_decide; naive_solver.
  - rewrite IH. cbn [obj_get]. repeat case_decide; naive_solver.
Qed.

(** What an entry refers to after the row [i] is removed. *)
Definition dropped (i : nat) (e : option nat) : option nat :=
  k ← e; if decide (k = i) then None else Some (shift i k).

Lemma drop_row_id_dropped i (o : jsobj (option nat)) : drop_row_id i <$> o = (λ e, (e.1, dropped i e.2)) <$> o.
Proof.
  apply list_fmap_ext. intros _ [id [k|]] _; [|done]. cbn. unfold shift. repeat case_bool_decide; case_decide; naive_solver.
Qed.

Lemma unshift r k : ∃ j, j ≠ r ∧ shift r j = k.
Proof. unfold shift. exists (if bool_decide (k < r) then k else S k). repeat case_bool_decide; lia. Qed.

Lemma remove_ids row s :
  row < length (aoData s) → ids_exact s →
  ∃ s', remove_row rowIdFn row s = Some s' ∧ ids_exact s' ∧ _aData <$> aoData s' = delete row (_aData <$> aoData s).
Proof.
  intros Hr Hids. destruct (lookup_lt_is_Some_2 _ _ Hr) as [r E]. unfold remove_row. rewrite E. cbn [mbind option_bind].
  eexists. split; [done|]. match goal with |- ids_exact (set_aIds _ ?s1) ∧ _ => set (s2 := s1) end.
  match goal with |- ids_exact (set_aIds ?x _) ∧ _ => set (ids := x) end.
  assert (aoData s2 = delete row (aoData s) ∧ aIds s2 = aIds s) as [D I].
  { unfold s2, _fnLengthOverflow. destruct s. by repeat case_match. }
  assert (_aData <$> aoData s2 = delete row (_aData <$> aoData s)) as D' by (by rewrite D, list_fmap_delete).
  split; [|exact D']. intros id k. cbn [aIds aoData set_aIds]. rewrite D'.
  assert (obj_get id ids = Some (Some k) ↔ ∃ j, obj_get id (aIds s) = Some (Some j) ∧ j ≠ row ∧ shift row j = k) as ->.
  { assert (obj_get id (drop_row_id row <$> aIds s) = Some (Some k)
      ↔ ∃ j, obj_get id (aIds s) = Some (Some j) ∧ j ≠ row ∧ shift row j = k) as Hg.
    { rewrite drop_row_id_dropped, obj_get_mapped. destruct (obj_get id (aIds s)) as [[j|]|]; cbn; [case_decide|..]; naive_solver. }
    rewrite <- Hg. unfold ids. rewrite I. destruct (rowIdFn (_aData r)) as [x|] eqn:Hx; [|done].
    rewrite obj_get_without. case_decide; [subst x|done]. split; [done|]. rewrite Hg. intros (j & Hj & Hne & _). exfalso.
    assert (obj_get id (aIds s) = Some (Some row)) as Hj' by (apply Hids; exists (_aData r); by rewrite list_lookup_fmap, E).
    congruence. }
  split.
  - intros (j & (d & Hd & Hid)%Hids & Hne & <-). exists d. by rewrite shift_lookup by (rewrite ?length_fmap; done).
  - intros (d & Hd & Hid). destruct (unshift row k) as (j & Hne & <-). exists j. split_and!; [|done|done].
    apply Hids. exists d. by rewrite shift_lookup in Hd by (rewrite ?length_fmap; done).
Qed.

Lemma add_ids d s :
  (∀ id, rowIdFn d = Some id → id ∉ omap rowIdFn (_aData <$> aoData s)) → ids_exact s →
  ∃ s', _fnAddData rowIdFn d s = Some (length (aoData s), s') ∧ ids_exact s' ∧ _aData <$> aoData s' = (_aData <$> aoData s) ++ [d].
Proof.
  intros Hfresh Hids. destruct (add_data_some rowIdFn d s) as (s' & E & _ & _ & D & I). exists s'. split_and!; [done| |done].
  intros id k. rewrite D, I. set (data := _aData <$> aoData s) in *.
  assert (length data = length (aoData s)) as Hl by (unfold data; by rewrite length_fmap).
  assert (∀ j e, data !! j = Some e → j < length (aoData s)) as Hlt by (intros j e He; apply lookup_lt_Some in He; lia).
  trans (obj_get id (aIds s) = Some (Some k) ∧ rowIdFn d ≠ Some id ∨ k = length (aoData s) ∧ rowIdFn d = Some id).
  - destruct (rowIdFn d) as [x|] eqn:Hx; [|naive_solver]. rewrite obj_get_set. case_decide; naive_solver.
  - rewrite (Hids id k). split.
    + intros [[(e & He & Hid) _]|[-> Hd]].
      * exists e. by rewrite lookup_app_l by (rewrite Hl; by eapply Hlt).
      * exists d. by rewrite lookup_app_r, Hl, Nat.sub_diag by lia.
    + intros (e & He & Hid). apply lookup_app_Some in He as [He|[Hk He]].
      * left. split; [by exists e|]. intros Hd. apply (Hfresh id Hd), list_elem_of_omap. exists e.
        split; [by eapply list_elem_of_lookup_2|done].
      * right. apply list_lookup_singleton_Some in He as [Hk0 <-]. split; [lia|done].
Qed.

(** ** Changes of the rows *)

Inductive change := AddRow (d : val) | RemoveRow (k : nat).

Definition apply_change (c : change) (s : settings) : option settings :=
  match c with
  | AddRow d => '(_, s) ← _fnAddData rowIdFn d s; Some s
  | RemoveRow k => remove_row rowIdFn k s
  end.
Fixpoint apply_changes (l : list change) (s : settings) : option settings :=
  match l with [] => Some s | c :: l => s ← apply_change c s; apply_changes l s end.

(** The changes on the list of data; [None]: a row that is not there is removed, or a row is added
    that has the id of another. *)
Definition change_data (c : change) (data : list val) : option (list val) :=
  match c with
  | AddRow d =>
      if match rowIdFn d with Some id => bool_decide (id ∈ omap rowIdFn data) | None => false end then None
      else Some (data ++ [d])
  | RemoveRow k => if k <? length data then Some (delete k data) else None
  end.
Fixpoint changes_data (l : list change) (data : list val) : option (list val) :=
  match l with [] => Some data | c :: l => data ← change_data c data; changes_data l data end.

Lemma change_ids c s data :
  ids_exact s → change_data c (_aData <$> aoData s) = Some data →
  ∃ s', apply_change c s = Some s' ∧ ids_exact s' ∧ _aData <$> aoData s' = data.
Proof.
  intros Hids Hc. destruct c as [d|k]; cbn [change_data apply_change] in *.
  - case_match eqn:E; [done|]. injection Hc as <-. destruct (add_ids d s) as (s' & -> & H1 & H2); [|done|by exists s'].
    intros id Hd. rewrite Hd in E. by bools.
  - case_match eqn:E; [|done]. injection Hc as <-. apply Nat.ltb_lt in E. rewrite length_fmap in E.
    by apply remove_ids.
Qed.

(** C28: through any sequence of additions and removals of rows in which no two rows have the same
    id at a time, the table has the data of the rows in order, and its map from ids has exactly
    the ids of the rows, each with the index of its row. *)
Theorem ids_index_correct l s data :
  ids_exact s → changes_data l (_aData <$> aoData s) = Some data →
  ∃ s', apply_changes l s = Some s' ∧ ids_exact s' ∧ _aData <$> aoData s' = data.
Proof.
  revert s. induction l as [|c l IH]; intros s Hids Hl; cbn [changes_data apply_changes] in *.
  { injection Hl as <-. by exists s. }
  destruct (change_data c _) as [data1|] eqn:E; [|done]. cbn [mbind option_bind] in Hl.
  destruct (change_ids c s data1 Hids E) as (s1 & -> & H1 & <-). cbn [mbind option_bind]. by apply IH.
Qed.

(** ** Ids as selectors *)

(** An id that survives the splitting and the trimming of a selector. *)
Definition plain_id (id : jstring) : Prop := (44%N ∉ id) ∧ trim ("#"%js ++ id) = "#"%js ++ id.

Lemma split_no_comma t : 44%N ∉ t → split ","%js t = [t].
Proof. intros H. by apply (split_join 44%N [] [t]); [|constructor]. Qed.

Lemma hash_item id : plain_id id → @split_item row_fn (IVal (VStr ("#"%js ++ id))) = [IVal (VStr ("#"%js ++ id))].
Proof.
  intros [Hc Ht]. cbn [split_item]. replace ("#"%js ++ id =s? []) with false by (symmetry; by apply jeqb_false).
  rewrite split_no_comma; [|by apply not_elem_of_cons]. cbn [fmap list_fmap]. by rewrite Ht.
Qed.

Lemma hash_no_number id : @item_intVal row_fn (IVal (VStr ("#"%js ++ id))) = None.
Proof. done. Qed.

Lemma hash_run filter_nodes stale opts s l id k :
  ids_exact s → _selector_row_indexes s opts = Some (found_rows l) → Forall (λ i, i < length (aoData s)) l →
  (∃ d, (_aData <$> aoData s) !! k = Some d ∧ rowIdFn d = Some id) →
  row_run filter_nodes stale (Some opts) (IVal (VStr ("#"%js ++ id))) s = Some [row_found k].
Proof.
  intros Hids Hl Hf Hk%Hids. unfold row_run. rewrite hash_no_number. change (default [] (Some opts)) with opts. rewrite Hl.
  cbn [mbind option_bind]. destruct (rows_at s l Hf) as (rs & -> & _). cbn. by rewrite Hk.
Qed.

(** The ids of the rows of a selection, as [rows().ids(true)] gives them, select the same rows
    in the same order, as long as no id has a comma or white space at its end. *)
Theorem ids_select_again filter_nodes stale opts s l :
  table_wf s → is_ssp s = false → pageable s opts → ids_exact s → NoDup l →
  Forall (λ k, ∃ d id, (_aData <$> aoData s) !! k = Some d ∧ rowIdFn d = Some id ∧ plain_id id) l →
  ∃ ids, rows_ids rowIdFn true s (found_rows l) = Some ids
    ∧ __row_selector filter_nodes (λ _, []) stale (Several ((λ t, IVal (VStr t)) <$> ids)) opts s = Some (found_rows l).
Proof.
  intros Hwf Hssp Hp Hids Hn Hl. destruct (row_indexes_wf s opts Hwf Hssp Hp) as (rows & Hrows & _ & Hf).
  assert (∃ ids, rows_ids rowIdFn true s (found_rows l) = Some ids
    ∧ select_items (λ i s, l ← row_run filter_nodes stale (Some opts) i s; Some (l, s))
        (selector_items (Several ((λ t, IVal (VStr t)) <$> ids))) s = Some (found_rows l, s)) as (ids & E & R).
  { clear Hn. unfold rows_ids. induction Hl as [|k l (d & id & Hd & Hid & Hplain) _ (ids & E & R)]; [by exists []|].
    pose proof Hd as Hr. rewrite list_lookup_fmap in Hr. apply fmap_Some in Hr as (r & Hr & ->).
    exists (("#"%js ++ id) :: ids). cbn [found_rows fmap list_fmap mapM]. rewrite row_at_nat, Hr. cbn [mbind option_bind].
    destruct (mapM (row_at s) (found_rows l)) as [rs|] eqn:Ers; [|done]. unfold found_rows in Ers. rewrite Ers.
    cbn [mbind option_bind mret option_ret fmap list_fmap fst snd] in E |- *. rewrite Hid. cbn [default from_option].
    injection E as <-. split; [done|]. unfold selector_items in R |- *. cbn [mbind list_bind]. rewrite hash_item by done.
    match goal with |- select_items ?f ([?i] ++ ?m) s = _ => change ([i] ++ m) with (i :: m) end. cbn [select_items].
    erewrite hash_run by naive_solver. cbn [mbind option_bind]. rewrite R. done. }
  exists ids. split; [done|]. unfold __row_selector, _selector_run. rewrite R. cbn [mbind option_bind fold_left].
  by rewrite unique_found.
Qed.
End ids.

(** ** Examples *)

(** The id of a row is its data, when that is a string. *)
Definition own_id (d : val) : option jstring := match d with VStr t => Some t | _ => None end.

Lemma empty_ids_exact : ids_exact own_id (sample_table []).
Proof.
  intros id k. split; [intros H; vm_compute in H; discriminate|]. intros (d & Hd & _). vm_compute in Hd. discriminate.
Qed.

Example ids_index_witness :
  ∃ s', apply_changes own_id [AddRow (VStr "a"%js); AddRow (VStr "b"%js); RemoveRow 0; AddRow (VStr "a"%js)] (sample_table []) = Some s'
    ∧ obj_get "a"%js (aIds s') = Some (Some 1) ∧ obj_get "b"%js (aIds s') = Some (Some 0).
Proof.
  destruct (ids_index_correct own_id [AddRow (VStr "a"%js); AddRow (VStr "b"%js); RemoveRow 0; AddRow (VStr "a"%js)] (sample_table [])
    [VStr "b"%js; VStr "a"%js] empty_ids_exact) as (s' & E & H & D).
  - vm_compute. reflexivity.
  - exists s'. split; [exact E|]. split; apply H; rewrite D; by eexists.
Defined.

Definition ids_table : settings :=
  set_aIds [("a"%js, Some 0); ("b"%js, Some 1)] (sample_table [VStr "a"%js; VStr "b"%js]).

Lemma ids_table_exact : ids_exact own_id ids_table.
Proof.
  intros id k. unfold ids_table. cbn [aIds set_aIds obj_get aoData]. change (_aData <$> _) with [VStr "a"%js; VStr "b"%js].
  split.
  - intros H. repeat (case_decide; [injection H as <-; subst id; by eexists|]). done.
  - intros (d & Hd & Hid). destruct k as [|[|k]]; [| |done]; injection Hd as <-; injection Hid as <-; vm_compute; reflexivity.
Qed.

Lemma ids_table_wf : table_wf ids_table.
Proof.
  split; [done| |]; apply (bool_decide_eq_true_1 _) || apply (bool_decide_eq_true_1 (Forall _ _)); vm_compute; reflexivity.
Qed.

Example ids_select_again_witness :
  __row_selector (λ _ _, Some []) (λ _, []) (λ _, FUndef) (Several [IVal (VStr "#b"%js); IVal (VStr "#a"%js)])
    (modifiers "none"%js "current"%js "all"%js) ids_table = Some (found_rows [1; 0]).
Proof.
  destruct (ids_select_again own_id (λ _ _, Some []) (λ _, FUndef) (modifiers "none"%js "current"%js "all"%js) ids_table [1; 0]
    ids_table_wf eq_refl) as (ids & E & R).
  - intros H. vm_compute in H. discriminate.
  - exact ids_table_exact.
  - apply (bool_decide_eq_true_1 _); vm_compute; reflexivity.
  - repeat apply Forall_cons_2; [| |apply Forall_nil_2]; eexists _, _; split_and!; try reflexivity.
    all: split; [apply (bool_decide_eq_true_1 _)|]; vm_compute; reflexivity.
  - vm_compute in E. injection E as <-. exact R.
Defined.

(** An id with a comma is split and selects nothing. *)
Lemma comma_id_lost :
  rows_ids own_id true (set_aIds [("a,b"%js, Some 0)] (sample_table [VStr "a,b"%js])) (found_rows [0]) = Some ["#a,b"%js]
  ∧ __row_selector (λ _ _, Some []) (λ _, []) (λ _, FUndef) (One (IVal (VStr "#a,b"%js))) (modifiers "none"%js "current"%js "all"%js)
      (set_aIds [("a,b"%js, Some 0)] (sample_table [VStr "a,b"%js])) = Some [].
Proof. split; vm_compute; reflexivity. Qed.
