(* ===== verification/DtCells.v ===== *)
(** * Selecting cells (jquery.dataTables.js, cells of the API)

    A cell is named by a row and a column.  [cells()] takes a selector of cells, or a selector of
    rows and one of columns, whose product it gives.  Objects that name cells are distinct
    objects, so that nothing is dropped as a duplicate. *)

From S2P Require Import Prelude JsString JsObject JsNumber JsValue JsInt DtUtil DtModel DtTypes DtSort DtPage DtData DtDraw DtHeader DtColumns DtSelect.

Abbreviation cell := (found * found)%type.

(** What the objects behind [_selector_run] can be for cells: nothing (null or undefined), a
    function of the page on the index, the data and whether there is a node, an object with a row
    and a column, or what the selector engine understands. *)
Inductive cell_item :=
  | EveryCell
  | CellFun (f : nat → nat → val → bool → bool)
  | CellIndex (c : cell)
  | CellQuery (q : item unit).

Section cells.
(** The cells that the selector engine keeps among those that have nodes; the cell that a node
    outside of the table is marked with. *)
Variable filter_cells : item unit → list (nat * nat) → option (list (nat * nat)).
Variable host_cell : node → option cell.
Variable ext_cell : jsobj val → list (settings → list cell → option (list cell)).

Definition found_cells (l : list (nat * nat)) : list cell := (λ c, (row_found c.1, row_found c.2)) <$> l.

(** The cells of the rows that a function keeps. *)
Fixpoint cells_of_row (f : nat → nat → val → bool → bool) (row : nat) (columns : list nat) (s : settings)
    : option (list (nat * nat) * settings) :=
  match columns with
  | [] => Some ([], s)
  | j :: columns =>
      host ← aoData s !! row;
      '(v, s) ← _fnGetCellData s row j None;
      '(a, s) ← cells_of_row f row columns s;
      Some (if f row j v (nTr host) then (row, j) :: a else a, s)
  end.
Fixpoint cells_with (f : nat → nat → val → bool → bool) (rows columns : list nat) (s : settings)
    : option (list (nat * nat) * settings) :=
  match rows with
  | [] => Some ([], s)
  | row :: rows =>
      '(a, s) ← cells_of_row f row columns s;
      '(b, s) ← cells_with f rows columns s;
      Some (a ++ b, s)
  end.

Definition cell_run (opts : jsobj val) (i : cell_item) (s : settings) : option (list cell * settings) :=
  rows ← _selector_row_indexes s opts;
  rs ← mapM (row_at s) rows;
  let columns := seq 0 (length (aoColumns s)) in
  let allCells := rs ≫= (λ kr, if nTr kr.2 then pair kr.1 <$> columns else []) in
  match i with
  | EveryCell => Some (found_cells (rs ≫= (λ kr, pair kr.1 <$> columns)), s)
  | CellFun f => '(a, s) ← cells_with f (rs.*1) columns s; Some (found_cells a, s)
  | CellIndex c => Some ([c], s)
  | CellQuery q =>
      l ← filter_cells q allCells;
      Some (match l, q with
            | [], INode n => option_list (host_cell n)
            | _, _ => found_cells l
            end, s)
  end.

Fixpoint cell_items (opts : jsobj val) (l : list cell_item) (s : settings) : option (list cell * settings) :=
  match l with
  | [] => Some ([], s)
  | i :: l => '(res, s) ← cell_run opts i s; '(out, s) ← cell_items opts l s; Some (res ++ out, s)
  end.

Definition __cell_selector (l : list cell_item) (opts : jsobj val) (s : settings) : option (list cell * settings) :=
  '(out, s) ← cell_items opts l s;
  out ← fold_left (λ out e, out ← out; e s out) (ext_cell opts) (Some out);
  Some (out, s).

(** [cells(rowSelector, columnSelector)] from the rows and the columns that the two selectors find. *)
Definition cells_product (rows columns : list found) : list cell := rows ≫= (λ r, pair r <$> columns).
End cells.

(** [cells().indexes()] for cells whose columns exist: the column among the visible ones,
    null for a hidden one. *)
Definition cell_indexes (s : settings) (l : list (nat * nat)) : list (nat * nat * option nat) :=
  (λ c : nat * nat, (c, _fnColumnIndexToVisible s c.2)) <$> l.

(** [cells().nodes()]: whether each cell has a node; undefined values are dropped. *)
Definition cells_nodes (s : settings) (l : list (nat * nat)) : list (nat * nat) :=
  List.filter (λ c, match aoData s !! c.1 with Some r => nTr r | None => false end) l.

(** [cells().data()] and, with a type, [cells().render(type)] *)
Fixpoint cells_data (type : option jstring) (l : list (nat * nat)) (s : settings) : option (list val * settings) :=
  match l with
  | [] => Some ([], s)
  | (r, c) :: l =>
      '(v, s) ← _fnGetCellData s r c type;
      '(out, s) ← cells_data type l s;
      Some (if is_undef v then out else v :: out, s)
  end.

(** [cells().invalidate()] for rows whose source is data *)
Fixpoint cells_invalidate (l : list (nat * nat)) (s : settings) : option settings :=
  match l with
  | [] => Some s
  | (r, c) :: l => s ← _fnInvalidate r (Some c) s; cells_invalidate l s
  end.
