(* ===== verification/DtSelection.v ===== *)
(** * Selected rows, columns and cells (Select-1.2.0/js/dataTables.select.js)

    The extension keeps flags on the row objects, on the columns and, per row, for the cells, and
    shows them as a class on the nodes.  A [select_state] is a table with these flags and classes
    and the configuration of the extension; every method is a function on it, [None] stands for
    an exception.  The classes of nodes are whether they have the class of the configuration.
    Flags of cells are only modelled for columns that are natural numbers; for others the methods
    give [None]. *)

From S2P Require Import Prelude JsString JsObject JsNumber JsValue JsInt DtUtil DtModel DtTypes DtSort DtPage DtData DtDraw DtHeader DtColumns DtSelect DtCells.

(** ** The state *)

(** What the extension adds to a row: its flags ([None]: undefined; the array of the cells can have
    holes) and the classes of its node and of the nodes of its cells. *)
Record row_marks := RowMarks {
  r_selected : option bool;                (* _select_selected *)
  r_cells : option (gmap nat bool);        (* _selected_cells *)
  tr_class : bool;
  td_class : list bool
}.

(** The same for a column; [tf_class] is [None] without a footer. *)
Record column_marks := ColumnMarks {
  c_selected : option bool;
  th_class : bool;
  tf_class : option bool
}.

Inductive item_type := Rows | Columns | Cells.
#[export] Instance item_type_eq_dec : EqDecision item_type.
Proof. solve_decision. Defined.

Record select_config := SelectConfig {
  sc_items : item_type;
  sc_style : jstring;
  sc_blurable : bool;
  sc_info : val;
  sc_selector : jstring;
  sc_className : jstring
}.

(** The events that the extension triggers, with the type and the items. *)
Inductive select_event :=
  | ESelect (t : item_type) (n : nat)
  | EDeselect (t : item_type) (n : nat)
  | ESelectItems (t : item_type)
  | ESelectStyle (style : jstring).

(** [row_callbacks]: how often [init] put its function among the callbacks of created rows;
    [mouse]: the listeners of the mouse are bound. *)
Record select_state := SelectState {
  ctx : settings;
  rows_of_select : list row_marks;
  columns_of_select : list column_marks;
  _select : select_config;
  _select_lastCell : option (nat * nat);
  row_callbacks : nat;
  mouse : bool;
  triggered : list select_event
}.

Definition set_ctx (s : settings) (st : select_state) : select_state :=
  SelectState s (rows_of_select st) (columns_of_select st) (_select st) (_select_lastCell st)
    (row_callbacks st) (mouse st) (triggered st).
Definition set_rows (l : list row_marks) (st : select_state) : select_state :=
  SelectState (ctx st) l (columns_of_select st) (_select st) (_select_lastCell st)
    (row_callbacks st) (mouse st) (triggered st).
Definition set_columns (l : list column_marks) (st : select_state) : select_state :=
  SelectState (ctx st) (rows_of_select st) l (_select st) (_select_lastCell st)
    (row_callbacks st) (mouse st) (triggered st).
Definition set_config (c : select_config) (st : select_state) : select_state :=
  SelectState (ctx st) (rows_of_select st) (columns_of_select st) c (_select_lastCell st)
    (row_callbacks st) (mouse st) (triggered st).
Definition set_lastCell (c : option (nat * nat)) (st : select_state) : select_state :=
  SelectState (ctx st) (rows_of_select st) (columns_of_select st) (_select st) c
    (row_callbacks st) (mouse st) (triggered st).
Definition set_bound (n : nat) (b : bool) (st : select_state) : select_state :=
  SelectState (ctx st) (rows_of_select st) (columns_of_select st) (_select st) (_select_lastCell st)
    n b (triggered st).
Definition add_event (e : select_event) (st : select_state) : select_state :=
  SelectState (ctx st) (rows_of_select st) (columns_of_select st) (_select st) (_select_lastCell st)
    (row_callbacks st) (mouse st) (triggered st ++ [e]).

Definition upd_marks (k : nat) (f : row_marks → row_marks) (st : select_state) : select_state :=
  set_rows (alter f k (rows_of_select st)) st.
Definition upd_column_marks (j : nat) (f : column_marks → column_marks) (st : select_state) : select_state :=
  set_columns (alter f j (columns_of_select st)) st.

Definition set_r_selected (b tr : bool) (m : row_marks) : row_marks :=
  RowMarks (Some b) (r_cells m) tr (td_class m).
Definition set_r_cells (c : gmap nat bool) (m : row_marks) : row_marks :=
  RowMarks (r_selected m) (Some c) (tr_class m) (td_class m).
Definition set_td (j : nat) (b : bool) (m : row_marks) : row_marks :=
  RowMarks (r_selected m) (r_cells m) (tr_class m) (<[j := b]> (td_class m)).
Definition set_c_selected (b : bool) (m : column_marks) : column_marks :=
  ColumnMarks (Some b) b ((λ _, b) <$> tf_class m).

(** Whether something is selected: [true], not just defined. *)
Definition row_sel (st : select_state) (k : nat) : bool :=
  match rows_of_select st !! k with Some m => default false (r_selected m) | None => false end.
Definition col_sel (st : select_state) (j : nat) : bool :=
  match columns_of_select st !! j with Some m => default false (c_selected m) | None => false end.
Definition cell_flag (m : row_marks) (j : nat) : bool :=
  match r_cells m with Some c => default false (c !! j) | None => false end.
Definition cell_sel (st : select_state) (k j : nat) : bool :=
  match rows_of_select st !! k with Some m => cell_flag m j | None => false end.

(** ** The selector extensions *)

Definition index_of (i : found) : option nat :=
  match i with Idx z => if (z <? 0)%Z then None else Some (Z.to_nat z) | _ => None end.

(** What [opts.selected] leaves of items with their flags. *)
Definition flag_kept (selected : val) (flag : bool) : bool :=
  match selected with VBool true => flag | VBool false => negb flag | _ => false end.
Definition by_flag {A} (flag : A → option bool) (opts : jsobj val) (l : list A) : option (list A) :=
  let selected := default VUndef (obj_get "selected"%js opts) in
  if is_undef selected then Some l
  else fs ← mapM (λ i, f ← flag i; Some (i, f)) l;
       Some (fst <$> List.filter (λ e : A * bool, flag_kept selected e.2) fs).

Definition row_flag (st : select_state) (i : found) : option bool :=
  k ← index_of i; _ ← rows_of_select st !! k; Some (row_sel st k).
Definition column_flag (st : select_state) (i : found) : option bool :=
  j ← index_of i; _ ← columns_of_select st !! j; Some (col_sel st j).
Definition cell_flagged (st : select_state) (c : cell) : option bool :=
  k ← index_of c.1; m ← rows_of_select st !! k;
  Some (match index_of c.2 with Some j => cell_flag m j | None => false end).

Definition selected_opts (b : bool) : jsobj val := _selector_opts (Some [("selected"%js, VBool b)]).
Definition applied_opts : jsobj val := _selector_opts (Some [("search"%js, VStr "applied"%js)]).
Definition no_opts : jsobj val := _selector_opts None.

Section select.
(** The selector engine, and what the objects of removed rows and marked nodes refer to. *)
Variable filter_nodes : item row_fn → list nat → option (list nat).
Variable stale : jstring → found.
Variable filter_heads : item column_fn → list nat → option (list nat).
Variable filter_cells : item unit → list (nat * nat) → option (list (nat * nat)).
Variable host_cell : node → option cell.

Definition rows_get (sel : selector row_fn) (opts : jsobj val) (st : select_state) : option (list found) :=
  __row_selector filter_nodes (λ opts, [λ _ l, by_flag (row_flag st) opts l]) stale sel opts (ctx st).
Definition columns_get (sel : selector column_fn) (opts : jsobj val) (st : select_state) : option (list found) :=
  '(l, _) ← __column_selector filter_heads (λ opts, [λ _ l, by_flag (column_flag st) opts l]) sel opts (ctx st);
  Some l.
Definition cells_get (l : list cell_item) (opts : jsobj val) (st : select_state) : option (list cell) :=
  '(l, _) ← __cell_selector filter_cells host_cell (λ opts, [λ _ l, by_flag (cell_flagged st) opts l]) l opts (ctx st);
  Some l.

Definition all_rows : selector row_fn := DtSelect.One (IVal (VStr [])).
Definition all_columns : selector column_fn := DtSelect.One (IVal (VStr [])).
Definition selected_rows (st : select_state) : option (list found) := rows_get all_rows (selected_opts true) st.
Definition selected_columns (st : select_state) : option (list found) := columns_get all_columns (selected_opts true) st.
Definition selected_cells (st : select_state) : option (list cell) := cells_get [EveryCell] (selected_opts true) st.

(** [eventTrigger(api, type, [item, api[i]], true)]: only for items. *)
Definition event_trigger (e : nat → select_event) {A} (l : list A) (st : select_state) : select_state :=
  match l with [] => st | _ => add_event (e (length l)) st end.

(** The loop of [iterator]. *)
Fixpoint each {A} (f : A → select_state → option select_state) (l : list A) (st : select_state) : option select_state :=
  match l with [] => Some st | x :: l => st ← f x st; each f l st end.

(** ** Deselecting *)

Definition deselect_row (i : found) (st : select_state) : option select_state :=
  k ← index_of i;
  r ← aoData (ctx st) !! k;
  Some (upd_marks k (λ m, set_r_selected false (if nTr r then false else tr_class m) m) st).

Definition rows_deselect (l : list found) (st : select_state) : option select_state :=
  st ← each deselect_row l st; Some (event_trigger (EDeselect Rows) l st).

(** The cells of a deselected column lose the class unless they are selected themselves. *)
Definition unmark_cell (j : nat) (i : found) (st : select_state) : option select_state :=
  k ← index_of i;
  r ← aoData (ctx st) !! k;
  Some (if nTr r && negb (cell_sel st k j) then upd_marks k (set_td j false) st else st).

Definition deselect_column (i : found) (st : select_state) : option select_state :=
  j ← index_of i;
  _ ← aoColumns (ctx st) !! j;
  let st := upd_column_marks j (set_c_selected false) st in
  rows ← rows_get (DtSelect.One (IVal VNull)) no_opts st;
  each (unmark_cell j) rows st.

Definition columns_deselect (l : list found) (st : select_state) : option select_state :=
  st ← each deselect_column l st; Some (event_trigger (EDeselect Columns) l st).

Definition deselect_cell (c : cell) (st : select_state) : option select_state :=
  k ← index_of c.1;
  r ← aoData (ctx st) !! k;
  m ← rows_of_select st !! k;
  flags ← r_cells m;                       (* an exception when no cell of the row was ever selected *)
  match index_of c.2 with
  | Some j =>
      let st := upd_marks k (set_r_cells (<[j := false]> flags)) st in
      if nTr r then
        _ ← aoColumns (ctx st) !! j;
        Some (if col_sel st j then st else upd_marks k (set_td j false) st)
      else Some st
  | None => None
  end.

Definition cells_deselect (l : list cell) (st : select_state) : option select_state :=
  st ← each deselect_cell l st; Some (event_trigger (EDeselect Cells) l st).

(** [clear(ctx, force)] *)
Definition clear (force : bool) (st : select_state) : option select_state :=
  if force || (sc_style (_select st) =s? "single"%js) then
    l ← selected_rows st; st ← rows_deselect l st;
    l ← selected_columns st; st ← columns_deselect l st;
    l ← selected_cells st; cells_deselect l st
  else Some st.

(** ** Selecting *)

Definition select_row (i : found) (st : select_state) : option select_state :=
  st ← clear false st;
  k ← index_of i;
  r ← aoData (ctx st) !! k;
  Some (upd_marks k (λ m, set_r_selected true (if nTr r then true else tr_class m) m) st).

(** [rows(l).select(select)]; [None] for the argument is undefined. *)
Definition rows_select (select : option bool) (l : list found) (st : select_state) : option select_state :=
  match select with
  | Some false => rows_deselect l st
  | _ => st ← each select_row l st; Some (event_trigger (ESelect Rows) l st)
  end.

Definition mark_cell (j : nat) (i : found) (st : select_state) : option select_state :=
  k ← index_of i;
  r ← aoData (ctx st) !! k;
  Some (if nTr r then upd_marks k (set_td j true) st else st).

Definition select_column (i : found) (st : select_state) : option select_state :=
  st ← clear false st;
  j ← index_of i;
  _ ← aoColumns (ctx st) !! j;
  let st := upd_column_marks j (set_c_selected true) st in
  rows ← _selector_row_indexes (ctx st) no_opts;
  each (mark_cell j) rows st.

Definition columns_select (select : option bool) (l : list found) (st : select_state) : option select_state :=
  match select with
  | Some false => columns_deselect l st
  | _ => st ← each select_column l st; Some (event_trigger (ESelect Columns) l st)
  end.

Definition select_cell (c : cell) (st : select_state) : option select_state :=
  st ← clear false st;
  k ← index_of c.1;
  r ← aoData (ctx st) !! k;
  m ← rows_of_select st !! k;
  match index_of c.2 with
  | Some j =>
      let st := upd_marks k (set_r_cells (<[j := true]> (default ∅ (r_cells m)))) st in
      Some (if nTr r then upd_marks k (set_td j true) st else st)
  | None => None
  end.

Definition cells_select (select : option bool) (l : list cell) (st : select_state) : option select_state :=
  match select with
  | Some false => cells_deselect l st
  | _ => st ← each select_cell l st; Some (event_trigger (ESelect Cells) l st)
  end.
End select.
