(* ===== verification/DtSelectMouse.v ===== *)
(** * Selecting with the mouse, and the life of a selection (dataTables.select.js)

    The click handler with the three styles of selection, ranges, the settings of the extension,
    the marks of nodes that are made later, and the selection that survives a reload. *)

From S2P Require Import Prelude JsString JsObject JsNumber JsValue JsInt DtUtil DtModel DtTypes DtSort DtPage DtData DtDraw DtHeader DtColumns DtSelect DtCells DtSelection.

(** ** Arrays of indices *)

(** [$.inArray(x, l)] *)
Definition inArray (x : found) (l : list found) : Z :=
  match list_find (x =.) l with Some (i, _) => Z.of_nat i | None => -1 end%Z.

(** [l.splice(start, count)] without insertions: what is left in [l]. *)
Definition js_splice {A} (start count : Z) (l : list A) : list A :=
  let n := Z.of_nat (length l) in
  let a := (if start <? 0 then Z.max (n + start) 0 else Z.min start n)%Z in
  let c := Z.min (Z.max count 0) (n - a)%Z in
  take (Z.to_nat a) l ++ drop (Z.to_nat (a + c)) l.

(** The value of an index, and the selectors that are made of indices. *)
Definition index_value (i : found) : val :=
  match i with Idx z => VNum (num_of_Z z) | FNull => VNull | FUndef => VUndef end.
Definition one_index {F} (k : nat) : selector F := DtSelect.One (IVal (index_value (row_found k))).
Definition by_indexes {F} (l : list found) : selector F := Several ((λ i, IVal (index_value i)) <$> l).

(** The indices between two places of the list, for a shift click. *)
Definition range_between (idx1 idx2 : Z) (indexes : list found) : list found :=
  let '(idx1, idx2) := if (idx2 <? idx1)%Z then (idx2, idx1) else (idx1, idx2) in
  js_splice 0 idx1 (js_splice (idx2 + 1) (Z.of_nat (length indexes)) indexes).
Definition range_of (indexes : list found) (idx last : found) (any : bool) : list found :=
  let idx1 := inArray last indexes in
  let idx2 := inArray idx indexes in
  if negb any && (idx1 =? -1)%Z then js_splice (inArray idx indexes + 1) (Z.of_nat (length indexes)) indexes
  else range_between idx1 idx2 indexes.

(** [indexes.filter] of [cellRange]: from the one end to the other, with the state [record]. *)
Fixpoint recorded (record : bool) (start stop : found) (l : list found) : list found :=
  match l with
  | [] => []
  | i :: l =>
      let record := record || bool_decide (i = start) in
      if bool_decide (i = stop) then i :: recorded false start stop l
      else if record then i :: recorded true start stop l else recorded false start stop l
  end.

(** ** Events of the mouse *)

Record mouse_event := MouseEvent { ctrlKey : bool; metaKey : bool; shiftKey : bool }.

Section select.
Variable filter_nodes : item row_fn → list nat → option (list nat).
Variable stale : jstring → found.
Variable filter_heads : item column_fn → list nat → option (list nat).
Variable filter_cells : item unit → list (nat * nat) → option (list (nat * nat)).
Variable host_cell : node → option cell.
Abbreviation rows_get := (rows_get filter_nodes stale).
Abbreviation columns_get := (columns_get filter_heads).
Abbreviation cells_get := (cells_get filter_cells host_cell).
Abbreviation rows_select := (rows_select filter_nodes stale filter_heads filter_cells host_cell).
Abbreviation columns_select := (columns_select filter_nodes stale filter_heads filter_cells host_cell).
Abbreviation cells_select := (cells_select filter_nodes stale filter_heads filter_cells host_cell).
Abbreviation columns_deselect := (columns_deselect filter_nodes stale).
Abbreviation selected_rows := (selected_rows filter_nodes stale).
Abbreviation selected_columns := (selected_columns filter_heads).
Abbreviation selected_cells := (selected_cells filter_cells host_cell).

(** [_selector_first] on the result of one table. *)
Definition the_first {A} (l : list A) : list A := take 1 l.

Definition first_row (k : nat) (opts : jsobj val) (st : select_state) : option (list found) :=
  l ← rows_get (one_index k) opts st; Some (the_first l).
Definition first_column (j : nat) (opts : jsobj val) (st : select_state) : option (list found) :=
  l ← columns_get (one_index j) opts st; Some (the_first l).
Definition first_cell (c : nat * nat) (opts : jsobj val) (st : select_state) : option (list cell) :=
  l ← cells_get [CellIndex (row_found c.1, row_found c.2)] opts st; Some (the_first l).

Definition any {A} (l : list A) : bool := match l with [] => false | _ => true end.

(** [rowColumnRange(dt, 'row', idx, last)] *)
Definition row_range (idx : nat) (last : option nat) (st : select_state) : option select_state :=
  indexes ← rows_get all_rows applied_opts st;
  sel ← selected_rows st;
  let indexes := range_of indexes (row_found idx) (or_null last) (any sel) in
  this ← first_row idx (selected_opts true) st;
  if negb (any this) then l ← rows_get (by_indexes indexes) no_opts st; rows_select None l st
  else
    let indexes := js_splice (inArray (row_found idx) indexes) 1 indexes in
    l ← rows_get (by_indexes indexes) no_opts st; rows_deselect l st.

(** [rowColumnRange(dt, 'column', idx, last)] *)
Definition column_range (idx : nat) (last : option nat) (st : select_state) : option select_state :=
  indexes ← columns_get all_columns applied_opts st;
  sel ← selected_columns st;
  let indexes := range_of indexes (row_found idx) (or_null last) (any sel) in
  this ← first_column idx (selected_opts true) st;
  if negb (any this) then l ← columns_get (by_indexes indexes) no_opts st; columns_select None l st
  else
    let indexes := js_splice (inArray (row_found idx) indexes) 1 indexes in
    l ← columns_get (by_indexes indexes) no_opts st; columns_deselect l st.

(** [selectColumns] and [selectRows] of [cellRange]; [shown] is what the selector [':visible'] gives. *)
Definition range_columns (shown : list found) (start stop : nat) : list found :=
  if stop <? start then recorded false (row_found stop) (row_found start) shown
  else recorded false (row_found start) (row_found stop) shown.
Definition range_rows (indexes : list found) (start stop : nat) : list found :=
  if (inArray (row_found stop) indexes <? inArray (row_found start) indexes)%Z
  then recorded false (row_found stop) (row_found start) indexes
  else recorded false (row_found start) (row_found stop) indexes.

(** [cellRange(dt, idx, last)]: an exception when cells are selected and there is no last cell. *)
Definition cell_range (idx : nat * nat) (last : option (nat * nat)) (st : select_state) : option select_state :=
  sel ← selected_cells st;
  shown ← columns_get (DtSelect.One (IVal (VStr ":visible"%js))) no_opts st;
  applied ← rows_get all_rows applied_opts st;
  '(from_row, from_col) ← (match last with
                           | Some c => Some c
                           | None => if any sel then None else Some (0, 0)
                           end);
  let columnIndexes := range_columns shown from_col idx.2 in
  let rowIndexes := range_rows applied from_row idx.1 in
  columns ← columns_get (by_indexes columnIndexes) no_opts st;
  rows ← rows_get (by_indexes rowIndexes) no_opts st;
  this ← first_cell idx (selected_opts true) st;
  indexes ← cells_get (CellIndex <$> cells_product rows columns) no_opts st;
  if negb (any this) then cells_select None indexes st else cells_deselect indexes st.

(** ** [typeSelect] *)

(** The methods of one kind of items that [typeSelect] picks by the name of the kind. *)
Record kind_methods := KindMethods {
  km_item : Type;
  this_one : jsobj val → select_state → option (list km_item);
  all_selected : select_state → option (list km_item);
  do_select : option bool → list km_item → select_state → option select_state;
  do_deselect : list km_item → select_state → option select_state;
  do_range : select_state → option select_state
}.

Definition methods_of (t : item_type) (idx : nat * nat) (last : option (nat * nat)) : kind_methods :=
  match t with
  | Rows => KindMethods found (first_row idx.1) selected_rows rows_select rows_deselect (row_range idx.1 (fst <$> last))
  | Columns => KindMethods found (first_column idx.2) selected_columns columns_select columns_deselect
                 (column_range idx.2 (snd <$> last))
  | Cells => KindMethods cell (first_cell idx) selected_cells cells_select cells_deselect (cell_range idx last)
  end.

Definition toggle_this (m : kind_methods) (isSelected : bool) (st : select_state) : option select_state :=
  this ← this_one m no_opts st; do_select m (Some (negb isSelected)) this st.

Definition typeSelect (e : mouse_event) (t : item_type) (idx : nat * nat) (st : select_state) : option select_state :=
  let m := methods_of t idx (_select_lastCell st) in
  let style := sc_style (_select st) in
  sel ← this_one m (selected_opts true) st;
  let isSelected := any sel in
  if style =s? "os"%js then
    if ctrlKey e || metaKey e then toggle_this m isSelected st
    else if shiftKey e then do_range m st
    else
      selected ← all_selected m st;
      this ← this_one m no_opts st;
      if isSelected && (length selected =? 1) then do_deselect m this st
      else st ← do_deselect m selected st; do_select m None this st
  else if style =s? "multi+shift"%js then
    if shiftKey e then do_range m st else toggle_this m isSelected st
  else toggle_this m isSelected st.

(** The click on the table's body: [text]: text is selected; [inside]: the closest wrapper is the
    one of the table; [hit]: the cell that was hit; [prevented]: what the page made of the event
    [user-select]. *)
Definition on_click (text inside : bool) (hit : option (nat * nat)) (prevented : bool) (e : mouse_event)
    (st : select_state) : option select_state :=
  if text || negb inside then Some st
  else match hit with
  | None => Some st
  | Some c =>
      if prevented then Some st
      else st ← typeSelect e (sc_items (_select st)) c st; Some (set_lastCell (Some c) st)
  end.

(** The click on the body of the document. *)
Definition on_blur (within editor : bool) (st : select_state) : option select_state :=
  if sc_blurable (_select st) && negb within && negb editor
  then clear filter_nodes stale filter_heads filter_cells host_cell true st else Some st.

(** ** Reloading *)

Variable rowIdFn : val → option jstring.

(** What the listener of [preXhr] keeps: the ids of the selected rows, and the selected cells by the
    ids of their rows. *)
Definition keep_cell (st : select_state) (c : cell) : option (jstring * found) :=
  k ← index_of c.1; ids ← rows_ids rowIdFn true (ctx st) [row_found k]; id ← head ids; Some (id, c.2).
Definition pre_xhr (st : select_state) : option (list jstring * list (jstring * found)) :=
  l ← selected_rows st;
  ids ← rows_ids rowIdFn true (ctx st) l;
  cells ← selected_cells st;
  kept ← mapM (keep_cell st) cells;
  Some (ids, kept).

(** What it does when the table is drawn next. *)
Definition reselect_cell (c : jstring * found) (st : select_state) : option select_state :=
  columns ← columns_get (DtSelect.One (IVal (index_value c.2))) no_opts st;
  rows ← rows_get (DtSelect.One (IVal (VStr c.1))) no_opts st;
  cells_select None (cells_product rows columns) st.
Definition reselect (kept : list jstring * list (jstring * found)) (st : select_state) : option select_state :=
  l ← rows_get (Several ((λ t, IVal (VStr t)) <$> kept.1)) no_opts st;
  st ← rows_select None l st;
  each reselect_cell kept.2 st.

(** The rows of an answer replace those of the table; their flags are new. *)
Definition fresh_marks (s : settings) : row_marks := RowMarks None None false (replicate (length (aoColumns s)) false).

(** The callback of a created row puts the class on the nodes of what is selected. *)
Definition mark_created (st : select_state) (k : nat) (m : row_marks) : row_marks :=
  RowMarks (r_selected m) (r_cells m)
    (tr_class m || default false (r_selected m))
    (imap (λ j b, b || col_sel st j || cell_flag m j) (td_class m)).

(** The table is drawn, or a node is made, by a function of the table: the callback runs for the
    rows whose node is new. *)
Definition note_node (s : settings) (st : select_state) (k : nat) (m : row_marks) : row_marks :=
  match aoData (ctx st) !! k, aoData s !! k with
  | Some r, Some r' =>
      if negb (nTr r) && nTr r' then
        let m := RowMarks (r_selected m) (r_cells m) false (replicate (length (aoColumns s)) false) in
        if row_callbacks st =? 0 then m else mark_created st k m
      else m
  | _, _ => m
  end.
Definition note_nodes (s : settings) (st : select_state) : select_state :=
  set_rows (imap (note_node s st) (rows_of_select st)) (set_ctx s st).

Definition create_tr (iRow : nat) (st : select_state) : option select_state :=
  s ← _fnCreateTr iRow (ctx st); Some (note_nodes s st).

(** Adding one row of data; its node is made at once unless that is deferred. *)
Definition add_row (d : val) (st : select_state) : option select_state :=
  '(i, s) ← _fnAddData rowIdFn d (ctx st);
  let st := set_rows (rows_of_select st ++ [fresh_marks s]) (set_ctx s st) in
  Some (if bDeferRender s || (row_callbacks st =? 0) then st else upd_marks i (mark_created st i) st).

(** Removing one row. *)
Definition remove_row_select (k : nat) (st : select_state) : option select_state :=
  s ← remove_row rowIdFn k (ctx st);
  Some (set_rows (delete k (rows_of_select st)) (set_ctx s st)).

Definition clear_table (st : select_state) : select_state := set_rows [] (set_ctx (_fnClearTable (ctx st)) st).

(** [ajax.reload()] with an answer: what is selected before the request is selected again when the
    table is drawn; [redraw] is the sort, the search and the draw. *)
Definition reload (redraw : settings → option settings) (data : list val) (st : select_state) : option select_state :=
  kept ← pre_xhr st;
  st ← each add_row data (clear_table st);
  s ← redraw (ctx st);
  reselect kept (note_nodes s st).

(** ** Settings *)

Definition with_items (t : item_type) (c : select_config) : select_config :=
  SelectConfig t (sc_style c) (sc_blurable c) (sc_info c) (sc_selector c) (sc_className c).
Definition with_style (x : jstring) (c : select_config) : select_config :=
  SelectConfig (sc_items c) x (sc_blurable c) (sc_info c) (sc_selector c) (sc_className c).
Definition with_blurable (b : bool) (c : select_config) : select_config :=
  SelectConfig (sc_items c) (sc_style c) b (sc_info c) (sc_selector c) (sc_className c).
Definition with_info (v : val) (c : select_config) : select_config :=
  SelectConfig (sc_items c) (sc_style c) (sc_blurable c) v (sc_selector c) (sc_className c).
Definition with_selector (x : jstring) (c : select_config) : select_config :=
  SelectConfig (sc_items c) (sc_style c) (sc_blurable c) (sc_info c) x (sc_className c).
Definition upd_config (f : select_config → select_config) (st : select_state) : select_state :=
  set_config (f (_select st)) st.

Definition select_items_set (t : item_type) (st : select_state) : select_state :=
  add_event (ESelectItems t) (upd_config (with_items t) st).
Definition select_blurable_set (b : bool) (st : select_state) : select_state := upd_config (with_blurable b) st.

(** [select.info(flag)]: the test is about the function of the same name, never undefined, so that
    the call without a flag sets the option to undefined instead of reading it. *)
Definition select_info (flag : val) (st : select_state) : select_state := upd_config (with_info flag) st.

(** [init] runs on every call, since nothing sets [_select_init]. *)
Definition select_style_set (x : jstring) (st : select_state) : select_state :=
  let st := upd_config (with_style x) st in
  let st := set_bound (S (row_callbacks st)) (mouse st) st in
  let st := set_bound (row_callbacks st) (negb (x =s? "api"%js)) st in
  add_event (ESelectStyle x) st.
Definition select_selector_set (x : jstring) (st : select_state) : select_state :=
  let st := upd_config (with_selector x) st in
  set_bound (row_callbacks st) (negb (sc_style (_select st) =s? "api"%js)) st.

(** [DataTable.select.init]: the options are a flag, a style, or an object; [None] when a member of
    the object has another type than the one it is used with. *)
Definition str_opt (k d : jstring) (o : jsobj val) : option jstring :=
  match obj_get k o with Some VUndef | None => Some d | Some (VStr t) => Some t | _ => None end.
Definition item_of_name (t : jstring) : option item_type :=
  if t =s? "row"%js then Some Rows else if t =s? "column"%js then Some Columns
  else if t =s? "cell"%js then Some Cells else None.
Definition default_config (style : jstring) : select_config :=
  SelectConfig Rows style false (VBool true) "td, th"%js "selected"%js.
Definition read_options (opts : val) : option select_config :=
  match opts with
  | VBool true => Some (default_config "os"%js)
  | VStr t => Some (default_config t)
  | VObj o =>
      items ← str_opt "items"%js "row"%js o;
      items ← item_of_name items;
      style ← str_opt "style"%js "api"%js o;
      selector ← str_opt "selector"%js "td, th"%js o;
      className ← str_opt "className"%js "selected"%js o;
      let blurable := match obj_get "blurable"%js o with Some v => truthy v | None => false end in
      let info := match obj_get "info"%js o with Some VUndef | None => VBool true | Some v => v end in
      Some (SelectConfig items style blurable info selector className)
  | _ => Some (default_config "api"%js)
  end.

(** The calls that set a configuration, from an empty one; [selectable]: the table has the class
    that selects by itself. *)
Definition with_className (x : jstring) (c : select_config) : select_config :=
  SelectConfig (sc_items c) (sc_style c) (sc_blurable c) (sc_info c) (sc_selector c) x.
Definition empty_config : select_config := SelectConfig Rows [] false VUndef [] [].
Definition put_config (c : select_config) (selectable : bool) (st : select_state) : select_state :=
  let st := set_config empty_config st in
  let st := select_selector_set (sc_selector c) st in
  let st := select_items_set (sc_items c) st in
  let st := select_style_set (sc_style c) st in
  let st := select_blurable_set (sc_blurable c) st in
  let st := select_info (sc_info c) st in
  let st := upd_config (with_className (sc_className c)) st in
  if selectable then select_style_set "os"%js st else st.
Definition select_init (opts : val) (selectable : bool) (st : select_state) : option select_state :=
  c ← read_options opts; Some (put_config c selectable st).
End select.

(** A table whose nodes were all made before the extension saw it; the configuration is empty. *)
Definition new_select (s : settings) : select_state :=
  SelectState s ((λ _, RowMarks None None false (replicate (length (aoColumns s)) false)) <$> aoData s)
    ((λ _, ColumnMarks None false (Some false)) <$> aoColumns s)
    empty_config None 0 false [].
