(* ===== verification/DtSelectionTheorems.v ===== *)
(** * What selecting does (dataTables.select.js)

    The flags of the selection under every operation, the classes of the nodes that follow them, and
    the style that selects one item at a time. *)

From S2P Require Import Prelude JsString JsObject JsNumber JsValue JsInt DtUtil DtModel DtTypes DtSort DtPage DtData DtDraw DtDrawTheorems DtHeader DtColumns DtSelect DtSelectTheorems DtCells DtSelection DtSelectMouse.

(** ** The selection as a set of items *)

Inductive sel_item := SRow (k : nat) | SCol (j : nat) | SCell (k j : nat).
#[export] Instance sel_item_eq_dec : EqDecision sel_item.
Proof. solve_decision. Defined.

Definition item_sel (st : select_state) (a : sel_item) : bool :=
  match a with SRow k => row_sel st k | SCol j => col_sel st j | SCell k j => cell_sel st k j end.

(** The table and the marks fit. *)
Record select_wf (st : select_state) : Prop := {
  sw_table : table_wf (ctx st);
  sw_local : is_ssp (ctx st) = false;
  sw_rows : length (rows_of_select st) = length (aoData (ctx st));
  sw_columns : length (columns_of_select st) = length (aoColumns (ctx st))
}.

(** The nodes have the class exactly when their items are selected; the node of a cell also when its
    column is. *)
Definition row_shows (st : select_state) (k : nat) (m : row_marks) : Prop :=
  tr_class m = default false (r_selected m)
  ∧ td_class m = (λ j, col_sel st j || cell_flag m j) <$> seq 0 (length (aoColumns (ctx st))).
Definition column_shows (c : column_marks) : Prop :=
  th_class c = default false (c_selected c) ∧ (tf_class c = None ∨ tf_class c = Some (default false (c_selected c))).
Record marks_ok (st : select_state) : Prop := {
  mo_rows : ∀ k r m, aoData (ctx st) !! k = Some r → rows_of_select st !! k = Some m → nTr r = true → row_shows st k m;
  mo_columns : ∀ j c, columns_of_select st !! j = Some c → column_shows c
}.

(** What an operation on the selection does: the items selected afterwards are [f]. *)
Record becomes (st st' : select_state) (f : sel_item → bool) : Prop := {
  bc_ctx : ctx st' = ctx st;
  bc_config : _select st' = _select st;
  bc_last : _select_lastCell st' = _select_lastCell st;
  bc_wf : select_wf st → select_wf st';
  bc_marks : select_wf st → marks_ok st → marks_ok st';
  bc_items : ∀ a, item_sel st' a = f a;
  bc_cells : ∀ k m, rows_of_select st !! k = Some m → is_Some (r_cells m) →
    ∃ m', rows_of_select st' !! k = Some m' ∧ is_Some (r_cells m');
  bc_callbacks : row_callbacks st' = row_callbacks st
}.

Lemma becomes_same st : becomes st st (item_sel st).
Proof. split; try done. intros k m H1 H2. by exists m. Qed.

Lemma becomes_trans st1 st2 st3 f g : becomes st1 st2 f → becomes st2 st3 g → becomes st1 st3 g.
Proof.
  intros [A1 A2 A3 A4 A5 A6 A7 A8] [B1 B2 B3 B4 B5 B6 B7 B8]. split; try congruence; eauto.
  intros k m H1 H2. destruct (A7 k m H1 H2) as (m' & H3 & H4). eauto.
Qed.

Lemma becomes_ext st st' f g : (∀ a, f a = g a) → becomes st st' f → becomes st st' g.
Proof. intros E [A1 A2 A3 A4 A5 A6 A7 A8]. split; try done. intros a. by rewrite A6. Qed.

Lemma becomes_event st st' f e : becomes st st' f → becomes st (add_event e st') f.
Proof. intros [A1 A2 A3 A4 A5 A6 A7 A8]. split; try done; intros; [destruct A4|destruct A5]; done. Qed.

Lemma becomes_trigger {A} st st' f (e : nat → select_event) (l : list A) :
  becomes st st' f → becomes st (event_trigger e l st') f.
Proof. intros H. unfold event_trigger. case_match; [done|by apply becomes_event]. Qed.

(** ** Changing marks *)

Lemma upd_marks_lookup st k f i :
  rows_of_select (upd_marks k f st) !! i = if decide (i = k) then f <$> rows_of_select st !! i else rows_of_select st !! i.
Proof.
  unfold upd_marks. cbn. case_decide as H; [subst i; by rewrite list_lookup_alter_eq|by rewrite list_lookup_alter_ne by done].
Qed.

Lemma upd_column_marks_lookup st k f i :
  columns_of_select (upd_column_marks k f st) !! i
  = if decide (i = k) then f <$> columns_of_select st !! i else columns_of_select st !! i.
Proof.
  unfold upd_column_marks. cbn. case_decide as H; [subst i; by rewrite list_lookup_alter_eq|by rewrite list_lookup_alter_ne by done].
Qed.

Lemma wf_rows_is_Some st k : select_wf st → k < length (aoData (ctx st)) → is_Some (rows_of_select st !! k).
Proof. intros [_ _ H _] Hk. apply lookup_lt_is_Some. lia. Qed.

Lemma select_wf_upd st k f : select_wf st → select_wf (upd_marks k f st).
Proof. intros [A B C D]. split; try done. unfold upd_marks. cbn. by rewrite length_alter. Qed.

Lemma select_wf_upd_column st k f : select_wf st → select_wf (upd_column_marks k f st).
Proof. intros [A B C D]. split; try done. unfold upd_column_marks. cbn. by rewrite length_alter. Qed.

(** A change of the marks of one row. *)
Lemma becomes_row st k m f :
  rows_of_select st !! k = Some m →
  (∀ r, aoData (ctx st) !! k = Some r → nTr r = true → row_shows st k m → row_shows st k (f m)) →
  (is_Some (r_cells m) → is_Some (r_cells (f m))) →
  becomes st (upd_marks k f st) (λ a, match a with
    | SRow i => if decide (i = k) then default false (r_selected (f m)) else row_sel st i
    | SCell i j => if decide (i = k) then cell_flag (f m) j else cell_sel st i j
    | SCol _ => item_sel st a end).
Proof.
  intros Hm Hs Hc. split; try done.
  - apply select_wf_upd.
  - intros _ [Hr Hcol]. split; [|done]. intros i r m' Hi Hm' Hn. rewrite upd_marks_lookup in Hm'.
    case_decide as E; [|by eapply Hr]. subst i. rewrite Hm in Hm'. injection Hm' as <-. by eapply Hs, Hr.
  - intros [i|j|i j]; [| done|]; cbn; unfold row_sel, cell_sel; rewrite upd_marks_lookup; case_decide as E; try done; subst i; by rewrite Hm.
  - intros i m' Hm' Hi. rewrite upd_marks_lookup. case_decide as E; [|by exists m']. subst i. rewrite Hm in Hm' |- *.
    injection Hm' as <-. exists (f m). split; [done|auto].
Qed.

Lemma index_of_nat k : index_of (row_found k) = Some k.
Proof. unfold index_of. destruct (Z.ltb_spec (Z.of_nat k) 0); [lia|]. by rewrite Nat2Z.id. Qed.

Lemma index_of_Some i k : index_of i = Some k → i = row_found k.
Proof.
  destruct i as [z| |]; [|done|done]. cbn. destruct (Z.ltb_spec z 0); [done|]. intros [= <-]. f_equal. lia.
Qed.

(** ** Loops over items *)

(** Which item an index stands for. *)
Definition as_row (i : found) : option sel_item := SRow <$> index_of i.
Definition as_column (i : found) : option sel_item := SCol <$> index_of i.
Definition as_cell (c : cell) : option sel_item := k ← index_of c.1; j ← index_of c.2; Some (SCell k j).

Definition without (items : list sel_item) (f : sel_item → bool) (a : sel_item) : bool := f a && bool_decide (a ∉ items).

(** Flags of cells beyond the columns, which only a call of the page can set; nothing clears them. *)
Definition beyond (st : select_state) (a : sel_item) : bool :=
  match a with SCell _ j => negb (j <? length (aoColumns (ctx st))) | _ => false end.

(** The items that stay selected when another one is selected. *)
Definition kept (st : select_state) (a : sel_item) : bool := beyond st a || negb (sc_style (_select st) =s? "single"%js).

Lemma becomes_kept st st' f a : becomes st st' f → kept st' a = kept st a.
Proof. intros B. unfold kept, beyond. by rewrite (bc_ctx _ _ _ B), (bc_config _ _ _ B). Qed.

(** Items selected one after the other; each leaves of what was selected what [keep] says. *)
Definition with_items (keep : sel_item → bool) (items : list sel_item) (f : sel_item → bool) : sel_item → bool :=
  fold_left (λ f x a, f a && keep a || bool_decide (a = x)) items f.

Lemma with_items_ext keep keep' items f g :
  (∀ a, keep a = keep' a) → (∀ a, f a = g a) → ∀ a, with_items keep items f a = with_items keep' items g a.
Proof.
  intros Hk. revert f g. induction items as [|x items IH]; intros f g Hf a; [done|]. apply IH. intros c. by rewrite Hf, Hk.
Qed.

Section loop.
Context {A : Type} (one : A → select_state → option select_state) (it : A → option sel_item).

Lemma each_without :
  (∀ x st st', select_wf st → one x st = Some st' → ∃ a, it x = Some a ∧ becomes st st' (without [a] (item_sel st))) →
  ∀ l st st', select_wf st → each one l st = Some st' →
  ∃ items, mapM it l = Some items ∧ becomes st st' (without items (item_sel st)).
Proof.
  intros H l. induction l as [|x l IH]; intros st st' Hw E; cbn [each mapM] in *.
  - injection E as <-. exists []. split; [done|]. eapply becomes_ext, becomes_same. intros a. unfold without.
    by rewrite bool_decide_eq_true_2, andb_true_r by apply not_elem_of_nil.
  - destruct (one x st) as [st1|] eqn:E1; [|done]. cbn [mbind option_bind] in E.
    destruct (H x st st1 Hw E1) as (a & Ha & B1). destruct (IH st1 st' (bc_wf _ _ _ B1 Hw) E) as (items & Hi & B2).
    exists (a :: items). rewrite Ha, Hi. split; [done|]. eapply becomes_ext; [|by eapply becomes_trans].
    intros b. unfold without. rewrite (bc_items _ _ _ B1). unfold without. rewrite <- andb_assoc. f_equal.
    repeat case_bool_decide; set_solver.
Qed.

Lemma each_with :
  (∀ x st st', select_wf st → one x st = Some st' →
    ∃ a, it x = Some a ∧ becomes st st' (with_items (kept st) [a] (item_sel st))) →
  ∀ l st st', select_wf st → each one l st = Some st' →
  ∃ items, mapM it l = Some items ∧ becomes st st' (with_items (kept st) items (item_sel st)).
Proof.
  intros H l. induction l as [|x l IH]; intros st st' Hw E; cbn [each mapM] in *.
  - injection E as <-. exists []. split; [done|apply becomes_same].
  - destruct (one x st) as [st1|] eqn:E1; [|done]. cbn [mbind option_bind] in E.
    destruct (H x st st1 Hw E1) as (a & Ha & B1).
    destruct (IH st1 st' (bc_wf _ _ _ B1 Hw) E) as (items & Hi & B2).
    exists (a :: items). rewrite Ha, Hi. split; [done|]. eapply becomes_ext; [|by eapply becomes_trans]. intros b.
    change (with_items (kept st) (a :: items) (item_sel st)) with (with_items (kept st) items (with_items (kept st) [a] (item_sel st))).
    apply with_items_ext; [|exact (bc_items _ _ _ B1)]. intros c. by eapply becomes_kept.
Qed.

(** A loop that every step of which is defined. *)
Lemma each_some (P : A → select_state → Prop) (B : select_state → select_state → Prop) :
  (∀ x st, select_wf st → P x st → ∃ st', one x st = Some st' ∧ B st st') →
  (∀ st st', B st st' → select_wf st → select_wf st') →
  (∀ x st st', B st st' → P x st → P x st') →
  ∀ l st, select_wf st → Forall (λ x, P x st) l → is_Some (each one l st).
Proof.
  intros H Hb Hp l. induction l as [|x l IH]; intros st Hw Hl; [by eexists|]. cbn [each].
  apply Forall_cons in Hl as [Hx Hl]. destruct (H x st Hw Hx) as (st1 & -> & B1). cbn [mbind option_bind].
  apply IH; [by eapply Hb|]. eapply Forall_impl; [exact Hl|]. intros y. by apply Hp.
Qed.
End loop.

(** The classes of the cells of a row after one of them changes. *)
Lemma td_insert (f g : nat → bool) n j b :
  g j = b → (∀ y, y ≠ j → g y = f y) → <[j := b]> (f <$> seq 0 n) = g <$> seq 0 n.
Proof.
  intros Hj Hg. apply list_eq. intros y. destruct (decide (y < n)) as [Hy|Hy].
  - destruct (decide (y = j)) as [->|Hne].
    + rewrite list_lookup_insert_eq by (by rewrite length_fmap, length_seq). by rewrite list_lookup_fmap, lookup_seq_lt, <- Hj.
    + rewrite list_lookup_insert_ne by done. rewrite !list_lookup_fmap, lookup_seq_lt by done. cbn. by rewrite Hg.
  - rewrite !lookup_ge_None_2; [done| |]; rewrite ?length_insert, length_fmap, length_seq; lia.
Qed.

Lemma td_same (f g : nat → bool) n : (∀ y, g y = f y) → f <$> seq 0 n = g <$> seq 0 n.
Proof. intros H. apply list_fmap_ext. intros _ x _. by rewrite H. Qed.

(** ** Deselecting *)

Lemma deselect_row_becomes i st st' :
  select_wf st → deselect_row i st = Some st' →
  ∃ a, as_row i = Some a ∧ becomes st st' (without [a] (item_sel st)).
Proof.
  intros Hw E. unfold deselect_row in E. destruct (index_of i) as [k|] eqn:Hi; [|done]. cbn [mbind option_bind] in E.
  destruct (aoData (ctx st) !! k) as [r|] eqn:Hr; [|done]. injection E as <-. exists (SRow k). unfold as_row. rewrite Hi.
  split; [done|]. destruct (wf_rows_is_Some st k Hw) as [m Hm]; [by eapply lookup_lt_Some|].
  eapply becomes_ext; [|apply (becomes_row st k m); [done| |done]].
  - intros a. unfold without. destruct a as [x|x|x y]; cbn [item_sel].
    + case_decide as E; [subst x|]; cbn; [|by rewrite bool_decide_eq_true_2, andb_true_r by set_solver].
      by rewrite bool_decide_eq_false_2, andb_false_r by set_solver.
    + by rewrite bool_decide_eq_true_2, andb_true_r by set_solver.
    + rewrite bool_decide_eq_true_2, andb_true_r by set_solver. case_decide as E; [subst x|done]. cbn. unfold cell_sel. by rewrite Hm.
  - intros r' Hr' Hn [H1 H2]. rewrite Hr in Hr'. injection Hr' as <-. rewrite Hn. by split.
Qed.

Lemma rows_deselect_becomes l st st' :
  select_wf st → rows_deselect l st = Some st' →
  ∃ items, mapM as_row l = Some items ∧ becomes st st' (without items (item_sel st)).
Proof.
  intros Hw E. unfold rows_deselect in E. destruct (each deselect_row l st) as [st1|] eqn:E1; [|done]. injection E as <-.
  destruct (each_without deselect_row as_row deselect_row_becomes l st st1 Hw E1) as (items & H1 & H2).
  exists items. split; [done|by apply becomes_trigger].
Qed.

Lemma deselect_cell_becomes c st st' :
  select_wf st → deselect_cell c st = Some st' →
  ∃ a, as_cell c = Some a ∧ becomes st st' (without [a] (item_sel st)).
Proof.
  intros Hw E. unfold deselect_cell in E. destruct (index_of c.1) as [k|] eqn:Hk; [|done]. cbn [mbind option_bind] in E.
  destruct (aoData (ctx st) !! k) as [r|] eqn:Hr; [|done]. cbn [mbind option_bind] in E.
  destruct (rows_of_select st !! k) as [m|] eqn:Hm; [|done]. cbn [mbind option_bind] in E.
  destruct (r_cells m) as [flags|] eqn:Hc; [|done]. cbn [mbind option_bind] in E.
  destruct (index_of c.2) as [j|] eqn:Hj; [|done]. exists (SCell k j). unfold as_cell. rewrite Hk, Hj. split; [done|].
  set (st1 := upd_marks k (set_r_cells (<[j := false]> flags)) st) in E.
  assert (st' = upd_marks k (λ m, let m := set_r_cells (<[j := false]> flags) m in if nTr r && negb (col_sel st j) then set_td j false m else m) st) as ->.
  { destruct (nTr r); [|by injection E as <-]. destruct (aoColumns (ctx st1) !! j); [|done]. cbn [mbind option_bind] in E.
    change (col_sel st1 j) with (col_sel st j) in E. destruct (col_sel st j); injection E as <-; [done|].
    unfold st1, upd_marks, set_rows. cbn. by rewrite list_alter_alter_eq. }
  eapply becomes_ext; [|apply (becomes_row st k m); [done| |]].
  - intros a. unfold without. destruct a as [x|x|x y]; cbn [item_sel].
    + rewrite bool_decide_eq_true_2, andb_true_r by set_solver. case_decide as E1; [subst x|done]. unfold row_sel. rewrite Hm.
      by destruct (nTr r && negb (col_sel st j)).
    + by rewrite bool_decide_eq_true_2, andb_true_r by set_solver.
    + assert (cell_flag (if nTr r && negb (col_sel st j) then set_td j false (set_r_cells (<[j:=false]> flags) m) else set_r_cells (<[j:=false]> flags) m) y
        = default false (<[j:=false]> flags !! y)) as Hf by (by destruct (nTr r && negb (col_sel st j))). cbn zeta. rewrite Hf.
      case_decide as E1; [subst x|by rewrite bool_decide_eq_true_2, andb_true_r by set_solver].
      unfold cell_sel, cell_flag. rewrite Hm, Hc. destruct (decide (y = j)) as [->|Hne].
      * rewrite lookup_insert_eq, bool_decide_eq_false_2 by set_solver. by rewrite andb_false_r.
      * rewrite lookup_insert_ne by done. by rewrite bool_decide_eq_true_2, andb_true_r by set_solver.
  - intros r' Hr' Hn [H1 H2]. rewrite Hr in Hr'. injection Hr' as <-. rewrite Hn. cbn zeta. split; [by destruct (true && _)|].
    assert (∀ y, y ≠ j → cell_flag (set_r_cells (<[j:=false]> flags) m) y = cell_flag m y) as Hy
      by (intros y Hne; unfold cell_flag; rewrite Hc; cbn; by rewrite lookup_insert_ne by done).
    assert (cell_flag (set_r_cells (<[j:=false]> flags) m) j = false) as Hf by (unfold cell_flag; cbn; by rewrite lookup_insert_eq).
    destruct (col_sel st j) eqn:Hcol; cbn [andb negb td_class set_td set_r_cells]; rewrite H2.
    + apply td_same. intros y. destruct (decide (y = j)) as [->|Hne]; [by rewrite Hcol|]. by rewrite Hy.
    + apply td_insert; [|intros y Hne; by rewrite <- Hy]. change (col_sel st j || cell_flag (set_r_cells (<[j:=false]> flags) m) j = false).
      by rewrite Hcol, Hf.
  - intros _. cbn zeta. destruct (nTr r && negb (col_sel st j)); by eexists.
Qed.

(** ** What the selectors give *)

(** The items that [opts.selected] keeps, for a map [h] to items with the flags [g]. *)
Lemma by_flag_map {A B} (flag : B → option bool) (h : A → B) (g : A → bool) (b : bool) opts l :
  Forall (λ k, flag (h k) = Some (g k)) l → obj_get "selected"%js opts = Some (VBool b) →
  by_flag flag opts (h <$> l) = Some (h <$> List.filter (λ k, Bool.eqb (g k) b) l).
Proof.
  intros H Hb. unfold by_flag. rewrite Hb. cbn [default from_option id is_undef].
  assert (mapM (λ i, f ← flag i; Some (i, f)) (h <$> l) = Some ((λ k, (h k, g k)) <$> l)) as ->.
  { induction H as [|k l Hk _ IH]; [done|]. rewrite fmap_cons. cbn [mapM]. rewrite Hk. cbn [mbind option_bind].
    by rewrite IH. }
  cbn [mbind option_bind]. f_equal. clear H. induction l as [|k l IH]; [done|].
  rewrite fmap_cons. cbn [List.filter snd]. replace (flag_kept (VBool b) (g k)) with (Bool.eqb (g k) b) by (by destruct b, (g k)).
  destruct (Bool.eqb (g k) b); rewrite ?fmap_cons; by rewrite IH.
Qed.

Lemma by_flag_rows (flag : found → option bool) (g : nat → bool) (b : bool) opts l :
  Forall (λ k, flag (row_found k) = Some (g k)) l → obj_get "selected"%js opts = Some (VBool b) →
  by_flag flag opts (found_rows l) = Some (found_rows (List.filter (λ k, Bool.eqb (g k) b) l)).
Proof. apply by_flag_map. Qed.

Lemma by_flag_none {A} (flag : A → option bool) opts l : obj_get "selected"%js opts = None → by_flag flag opts l = Some l.
Proof. intros H. unfold by_flag. by rewrite H. Qed.

Lemma filter_eqb_true {A} (g : A → bool) l : List.filter (λ k, Bool.eqb (g k) true) l = List.filter g l.
Proof. induction l as [|x l IH]; [done|]. cbn [List.filter]. rewrite IH. by destruct (g x). Qed.

Section selectors.
Variable filter_nodes : item row_fn → list nat → option (list nat).
Variable stale : jstring → found.
Variable filter_heads : item column_fn → list nat → option (list nat).
Variable filter_cells : item unit → list (nat * nat) → option (list (nat * nat)).
Variable host_cell : node → option cell.
Abbreviation rows_get := (rows_get filter_nodes stale).
Abbreviation columns_get := (columns_get filter_heads).
Abbreviation cells_get := (cells_get filter_cells host_cell).
Abbreviation selected_rows := (selected_rows filter_nodes stale).
Abbreviation selected_columns := (selected_columns filter_heads).
Abbreviation selected_cells := (selected_cells filter_cells host_cell).

Lemma select_run_one {F} (run : item F → settings → option (list found * settings)) ext i s :
  split_item i = [i] → match i with IVal (VArr _) => False | _ => True end →
  _selector_run run ext (DtSelect.One i) s
  = match run i s with
    | Some (out, s) => match fold_left (λ out e, out ← out; e s out) ext (Some out) with
                       | Some out => Some (_unique strict_found out, s)
                       | None => None
                       end
    | None => None
    end.
Proof.
  intros Hi Ha. unfold _selector_run. replace (selector_items (DtSelect.One i)) with [i] by (destruct i as [[]| |]; done).
  cbn [select_items]. destruct (run i s) as [[out s1]|]; [|done]. cbn [mbind option_bind]. rewrite app_nil_r.
  by destruct (fold_left _ ext (Some out)).
Qed.

(** A selector that is empty leaves the rows of the options. *)
Lemma rows_get_falsy (v : val) opts st l :
  v = VNull ∨ v = VStr [] → _selector_row_indexes (ctx st) opts = Some (found_rows l) →
  rows_get (DtSelect.One (IVal v)) opts st
  = match by_flag (row_flag st) opts (found_rows l) with Some out => Some (_unique strict_found out) | None => None end.
Proof.
  intros Hv Hl. unfold DtSelection.rows_get, __row_selector. rewrite select_run_one by (destruct Hv; by subst v).
  unfold row_run. assert (@item_intVal row_fn (IVal v) = None ∧ @falsy_item row_fn (IVal v) = true) as [-> ->]
    by (destruct Hv; subst v; done).
  change (default [] (Some opts)) with opts. rewrite Hl. cbn [mbind option_bind fold_left].
  by destruct (by_flag _ _ _).
Qed.

Lemma indexes_default st opts :
  is_ssp (ctx st) = false → opts = no_opts ∨ opts = selected_opts true →
  _selector_row_indexes (ctx st) opts = Some (found_rows (aiDisplayMaster (ctx st))).
Proof. intros Hssp [-> | ->]; unfold _selector_row_indexes; rewrite Hssp; reflexivity. Qed.

Lemma in_master st k : select_wf st → k ∈ aiDisplayMaster (ctx st) ↔ k < length (aoData (ctx st)).
Proof. intros [Hw _ _ _]. rewrite (wf_master _ Hw), elem_of_seq. lia. Qed.

Lemma master_found st : select_wf st → NoDup (aiDisplayMaster (ctx st)) ∧ Forall (λ k, k < length (aoData (ctx st))) (aiDisplayMaster (ctx st)).
Proof. intros [Hw _ _ _]. by apply master_wf. Qed.

Lemma row_flag_at st k : select_wf st → k < length (aoData (ctx st)) → row_flag st (row_found k) = Some (row_sel st k).
Proof.
  intros Hw Hk. unfold row_flag. rewrite index_of_nat. cbn [mbind option_bind].
  by destruct (wf_rows_is_Some st k Hw Hk) as [m ->].
Qed.

Lemma lfilter_NoDup {A} (g : A → bool) l : NoDup l → NoDup (List.filter g l).
Proof.
  induction 1 as [|x l Hx _ IH]; cbn; [constructor|]. destruct (g x); [|done]. constructor; [|done].
  intros [H _]%list_elem_of_In%filter_In. by apply Hx, list_elem_of_In.
Qed.

Lemma all_rows_get st : select_wf st → rows_get (DtSelect.One (IVal VNull)) no_opts st = Some (found_rows (aiDisplayMaster (ctx st))).
Proof.
  intros Hw. rewrite (rows_get_falsy VNull no_opts st (aiDisplayMaster (ctx st))); [|by left|by apply indexes_default; [apply Hw|left]].
  rewrite by_flag_none by reflexivity. f_equal. by apply unique_found, master_found.
Qed.

Lemma selected_rows_get st :
  select_wf st → selected_rows st = Some (found_rows (List.filter (row_sel st) (aiDisplayMaster (ctx st)))).
Proof.
  intros Hw. unfold DtSelection.selected_rows, all_rows.
  rewrite (rows_get_falsy (VStr []) _ st (aiDisplayMaster (ctx st))); [|by right|by apply indexes_default; [apply Hw|right]].
  rewrite (by_flag_rows (row_flag st) (row_sel st) true); [|eapply Forall_impl; [by apply master_found|]; intros k Hk; by apply row_flag_at|done].
  rewrite filter_eqb_true. f_equal. by apply unique_found, lfilter_NoDup, master_found.
Qed.

Lemma row_sel_lt st k : select_wf st → row_sel st k = true → k < length (aoData (ctx st)).
Proof.
  intros [_ _ H _] Hk. unfold row_sel in Hk. destruct (_ !! k) eqn:E; [|done]. apply lookup_lt_Some in E. lia.
Qed.

Lemma col_sel_lt st j : select_wf st → col_sel st j = true → j < length (aoColumns (ctx st)).
Proof.
  intros [_ _ _ H] Hj. unfold col_sel in Hj. destruct (_ !! j) eqn:E; [|done]. apply lookup_lt_Some in E. lia.
Qed.

Lemma range_found n : Idx <$> _range (Z.of_nat n) None = found_rows (seq 0 n).
Proof.
  unfold _range, found_rows. change 0%Z with (Z.of_nat 0). rewrite seqZ_of_nat. by rewrite <- list_fmap_compose.
Qed.

Lemma column_flag_at st j : select_wf st → j < length (aoColumns (ctx st)) → column_flag st (row_found j) = Some (col_sel st j).
Proof.
  intros [_ _ _ H] Hj. unfold column_flag. rewrite index_of_nat. cbn [mbind option_bind].
  by destruct (lookup_lt_is_Some_2 (columns_of_select st) j) as [c ->]; [lia|].
Qed.

Lemma seq_below n : Forall (λ j, j < n) (seq 0 n).
Proof. apply Forall_forall. intros j Hj%elem_of_seq. lia. Qed.

Lemma selected_columns_get st :
  select_wf st → selected_columns st = Some (found_rows (List.filter (col_sel st) (seq 0 (length (aoColumns (ctx st)))))).
Proof.
  intros Hw. unfold DtSelection.selected_columns, DtSelection.columns_get, __column_selector, all_columns.
  rewrite select_run_one by done. unfold column_run. rewrite range_found. cbn [fold_left mbind option_bind].
  rewrite (by_flag_rows (column_flag st) (col_sel st) true); [|eapply Forall_impl; [apply seq_below|]; intros j Hj; by apply column_flag_at|done].
  cbn [mbind option_bind]. rewrite filter_eqb_true. f_equal. by apply unique_found, lfilter_NoDup, NoDup_seq.
Qed.

(** Every cell of the table. *)
Definition table_cells (s : settings) : list (nat * nat) :=
  aiDisplayMaster s ≫= (λ k, pair k <$> seq 0 (length (aoColumns s))).

Lemma table_cells_rows st :
  select_wf st → Forall (λ c : nat * nat, c.1 < length (aoData (ctx st))) (table_cells (ctx st)).
Proof.
  intros Hw. apply Forall_forall. intros [k j] (k' & H & Hk)%list_elem_of_bind.
  apply list_elem_of_fmap in H as (j' & [= <- <-] & _). cbn. by apply in_master in Hk.
Qed.

Lemma cell_flag_at st c :
  select_wf st → c.1 < length (aoData (ctx st)) →
  cell_flagged st (row_found c.1, row_found c.2) = Some (cell_sel st c.1 c.2).
Proof.
  intros Hw Hk. unfold cell_flagged. cbn [fst snd]. rewrite !index_of_nat. cbn [mbind option_bind]. unfold cell_sel.
  by destruct (wf_rows_is_Some st c.1 Hw Hk) as [m ->].
Qed.

Lemma by_flag_cells st l :
  select_wf st → Forall (λ c : nat * nat, c.1 < length (aoData (ctx st))) l →
  by_flag (cell_flagged st) (selected_opts true) (found_cells l)
  = Some (found_cells (List.filter (λ c, cell_sel st c.1 c.2) l)).
Proof.
  intros Hw Hl. unfold found_cells.
  rewrite (by_flag_map _ _ (λ c : nat * nat, cell_sel st c.1 c.2) true); [by rewrite filter_eqb_true| |done].
  eapply Forall_impl; [exact Hl|]. intros c Hc. by apply cell_flag_at.
Qed.

Lemma every_cell st rs :
  Forall2 (λ k kr, kr.1 = k ∧ aoData (ctx st) !! k = Some kr.2) (aiDisplayMaster (ctx st)) rs →
  rs ≫= (λ kr : nat * row, pair kr.1 <$> seq 0 (length (aoColumns (ctx st)))) = table_cells (ctx st).
Proof.
  unfold table_cells. induction 1 as [|k kr l rs [<- _] _ IH]; [done|]. cbn [mbind list_bind]. by rewrite IH.
Qed.

Lemma selected_cells_get st :
  select_wf st → selected_cells st = Some (found_cells (List.filter (λ c, cell_sel st c.1 c.2) (table_cells (ctx st)))).
Proof.
  intros Hw. unfold DtSelection.selected_cells, DtSelection.cells_get, __cell_selector. cbn [cell_items cell_run].
  unfold cell_run. rewrite indexes_default by (try apply Hw; by right). cbn [mbind option_bind].
  destruct (rows_at (ctx st) (aiDisplayMaster (ctx st))) as (rs & -> & F); [by apply master_found|]. cbn [mbind option_bind].
  rewrite (every_cell st rs F), app_nil_r. cbn [fold_left mbind option_bind].
  by rewrite by_flag_cells by (done || by apply table_cells_rows).
Qed.

(** ** Columns: the classes of the cells below *)

Definition has_node (s : settings) (k : nat) : bool := match aoData s !! k with Some r => nTr r | None => false end.

(** What a loop over rows leaves that puts the class on the cells of a column, or takes it away. *)
Definition painted_td (b : bool) (c : row_marks → bool) (j : nat) (l : list nat) (st st' : select_state) : Prop :=
  ∃ ms, st' = set_rows ms st ∧ length ms = length (rows_of_select st)
    ∧ ∀ k m, rows_of_select st !! k = Some m →
      ms !! k = Some (if bool_decide (k ∈ l) && has_node (ctx st) k && c m then set_td j b m else m).

Lemma set_td_twice j b m : set_td j b (set_td j b m) = set_td j b m.
Proof. unfold set_td. cbn. by rewrite list_insert_insert_eq. Qed.

Lemma each_paint b c j (one : found → select_state → option select_state) :
  (∀ m, c (set_td j b m) = c m) →
  (∀ k m st, select_wf st → rows_of_select st !! k = Some m →
    one (row_found k) st = Some (if has_node (ctx st) k && c m then upd_marks k (set_td j b) st else st)) →
  ∀ l st, select_wf st → Forall (λ k, k < length (aoData (ctx st))) l →
  ∃ st', each one (found_rows l) st = Some st' ∧ painted_td b c j l st st'.
Proof.
  intros Hc Hone l. induction l as [|x l IH]; intros st Hw Hl.
  - exists st. split; [done|]. exists (rows_of_select st). split_and!; [by destruct st|done|].
    intros k m Hm. rewrite bool_decide_eq_false_2 by apply not_elem_of_nil. done.
  - apply Forall_cons in Hl as [Hx Hl]. destruct (wf_rows_is_Some st x Hw Hx) as [mx Hmx].
    unfold found_rows in *. rewrite fmap_cons. cbn [each]. rewrite (Hone x mx st Hw Hmx). cbn [mbind option_bind].
    set (st1 := if has_node (ctx st) x && c mx then upd_marks x (set_td j b) st else st).
    assert (select_wf st1 ∧ ctx st1 = ctx st ∧ (∀ ms, set_rows ms st1 = set_rows ms st)
      ∧ length (rows_of_select st1) = length (rows_of_select st)) as (Hw1 & C1 & S1 & L1).
    { unfold st1. destruct (has_node _ _ && _); [|done]. split_and!; [by apply select_wf_upd|done..|]. unfold upd_marks. cbn. by rewrite length_alter. }
    destruct (IH st1 Hw1) as (st' & E & ms & -> & L & H); [by rewrite C1|]. exists (set_rows ms st1). split; [done|].
    exists ms. split_and!; [apply S1|by rewrite L|]. intros k m Hm.
    assert (rows_of_select st1 !! k = Some (if bool_decide (k = x) && has_node (ctx st) k && c m then set_td j b m else m)) as Hm1.
    { unfold st1. destruct (decide (k = x)) as [->|Hne].
      - rewrite Hmx in Hm. injection Hm as ->. rewrite bool_decide_eq_true_2 by done. cbn [andb].
        destruct (has_node _ _ && _); [|done]. rewrite upd_marks_lookup, decide_True by done. by rewrite Hmx.
      - rewrite bool_decide_eq_false_2 by done. cbn [andb]. destruct (has_node _ _ && c mx); [|done].
        by rewrite upd_marks_lookup, decide_False by done. }
    rewrite (H k _ Hm1), C1. f_equal. destruct (decide (k = x)) as [->|Hne].
    + rewrite (bool_decide_eq_true_2 (x = x)) by done. rewrite (bool_decide_eq_true_2 (x ∈ x :: l)) by by left.
      destruct (has_node (ctx st) x), (c m) eqn:Ec, (bool_decide (x ∈ l)); cbn [andb]; rewrite ?Hc, ?Ec; try done. apply set_td_twice.
    + rewrite (bool_decide_eq_false_2 (k = x)) by done. cbn [andb].
      by replace (bool_decide (k ∈ x :: l)) with (bool_decide (k ∈ l)) by (apply bool_decide_ext; set_solver).
Qed.

Lemma becomes_column st j c b (cnd : row_marks → bool) st' :
  select_wf st → columns_of_select st !! j = Some c →
  (∀ m, cnd m = b || negb (cell_flag m j)) →
  painted_td b cnd j (aiDisplayMaster (ctx st)) (upd_column_marks j (set_c_selected b) st) st' →
  becomes st st' (λ a, match a with SCol i => if decide (i = j) then b else col_sel st i | _ => item_sel st a end).
Proof.
  intros Hw Hc Hcnd (ms & -> & L & H). set (st1 := upd_column_marks j (set_c_selected b) st) in *.
  assert (∀ i, col_sel (set_rows ms st1) i = if decide (i = j) then b else col_sel st i) as Hcol.
  { intros i. unfold col_sel. change (columns_of_select (set_rows ms st1)) with (columns_of_select st1). unfold st1.
    rewrite upd_column_marks_lookup. case_decide as E; [subst i; by rewrite Hc|done]. }
  assert (∀ k m, rows_of_select st !! k = Some m → ∃ m', ms !! k = Some m' ∧ r_selected m' = r_selected m ∧ r_cells m' = r_cells m) as Hm.
  { intros k m Hk. rewrite (H k m Hk). eexists. split; [done|]. by case_match. }
  assert (∀ k, rows_of_select st !! k = None → ms !! k = None) as Hnone.
  { intros k Hk%lookup_ge_None. apply lookup_ge_None. by rewrite L. }
  split; [done..| | | | |done].
  - intros _. destruct (select_wf_upd_column st j (set_c_selected b) Hw) as [A B C D]. split; [done|done| |done]. cbn. rewrite L. apply (sw_rows st Hw).
  - intros _ [Hr Hcs]. split.
    + intros k r m' Hk Hm' Hn. cbn in Hm'. destruct (wf_rows_is_Some st k Hw) as [m Hkm]; [by eapply lookup_lt_Some|].
      destruct (Hr k r m Hk Hkm Hn) as [H1 H2]. rewrite (H k m Hkm) in Hm'. injection Hm' as <-.
      rewrite bool_decide_eq_true_2 by (apply (in_master st k Hw); by eapply lookup_lt_Some).
      assert (has_node (ctx st) k = true) as Hnode by (change (aoData (ctx st) !! k = Some r) in Hk; unfold has_node; by rewrite Hk, Hn).
      change (has_node (ctx st1) k) with (has_node (ctx st) k). rewrite Hnode. cbn [andb].
      split; [by case_match|]. rewrite Hcnd. change (aoColumns (ctx (set_rows ms st1))) with (aoColumns (ctx st)).
      assert (∀ y, col_sel (set_rows ms st1) y || cell_flag (if b || negb (cell_flag m j) then set_td j b m else m) y
        = (if decide (y = j) then b else col_sel st y) || cell_flag m y) as Hg by (intros y; rewrite Hcol; by destruct (b || _)).
      erewrite (list_fmap_ext (λ y, col_sel (set_rows ms st1) y || _)) by (intros ? y _; apply Hg).
      destruct (b || negb (cell_flag m j)) eqn:Eb; cbn [td_class set_td]; rewrite H2.
      * apply td_insert; [rewrite decide_True by done; by destruct b, (cell_flag m j) eqn:?|]. intros y Hy. by rewrite decide_False.
      * apply td_same. intros y. case_decide as E; [subst y|done]. by destruct b, (cell_flag m j), (col_sel st j).
    + intros i c' Hi. change (columns_of_select st1 !! i = Some c') in Hi. unfold st1 in Hi. rewrite upd_column_marks_lookup in Hi.
      case_decide as E; [subst i; rewrite Hc in Hi; injection Hi as <-|by apply (Hcs i)].
      split; [done|]. cbn. destruct (tf_class c); [by right|by left].
  - intros [k|i|k i]; cbn [item_sel]; [|apply Hcol|]; unfold row_sel, cell_sel; cbn.
    + destruct (rows_of_select st !! k) as [m|] eqn:Hk; [|by rewrite Hnone]. destruct (Hm k m Hk) as (m' & -> & -> & _). done.
    + destruct (rows_of_select st !! k) as [m|] eqn:Hk; [|by rewrite Hnone]. destruct (Hm k m Hk) as (m' & -> & _ & E).
      unfold cell_flag. by rewrite E.
  - intros k m Hk Hs. destruct (Hm k m Hk) as (m' & E & _ & Hc'). exists m'. split; [done|]. by rewrite Hc'.
Qed.

Lemma column_at i st :
  select_wf st → ∀ j, index_of i = Some j → is_Some (aoColumns (ctx st) !! j) → ∃ c, columns_of_select st !! j = Some c.
Proof. intros [_ _ _ H] j _ Hj. apply lookup_lt_is_Some in Hj. apply lookup_lt_is_Some. lia. Qed.

Lemma deselect_column_spec i st :
  select_wf st →
  match index_of i with
  | Some j => j < length (aoColumns (ctx st)) →
      ∃ st', deselect_column filter_nodes stale i st = Some st' ∧ becomes st st' (without [SCol j] (item_sel st))
  | None => deselect_column filter_nodes stale i st = None
  end.
Proof.
  intros Hw. unfold deselect_column. destruct (index_of i) as [j|] eqn:Hi; [|done]. intros Hj. cbn [mbind option_bind].
  destruct (lookup_lt_is_Some_2 _ _ Hj) as [col Hcol]. rewrite Hcol. cbn [mbind option_bind].
  destruct (column_at i st Hw j Hi (ex_intro _ col Hcol)) as [c Hc]. set (st1 := upd_column_marks j (set_c_selected false) st).
  assert (select_wf st1) as Hw1 by by apply select_wf_upd_column. rewrite all_rows_get by done. cbn [mbind option_bind].
  destruct (each_paint false (λ m, negb (cell_flag m j)) j (unmark_cell j)) with (l := aiDisplayMaster (ctx st)) (st := st1) as (st' & E & P);
    [done| |done|exact (proj2 (master_found st Hw))|].
  - intros k m st2 Hw2 Hm. unfold unmark_cell. rewrite index_of_nat. cbn [mbind option_bind]. unfold has_node, cell_sel. rewrite Hm.
    destruct (aoData (ctx st2) !! k) as [r|] eqn:Hr; [done|]. apply lookup_lt_Some in Hm. rewrite (sw_rows _ Hw2) in Hm.
    apply lookup_lt_is_Some in Hm as [r Hr']. congruence.
  - exists st'. split; [exact E|]. eapply becomes_ext; [|by eapply (becomes_column st j c false)].
    intros [k|y|k y]; unfold without; cbn [item_sel]; try (by rewrite bool_decide_eq_true_2, andb_true_r by set_solver).
    case_decide as Ey; [subst y; rewrite bool_decide_eq_false_2 by set_solver; by rewrite andb_false_r|].
    by rewrite bool_decide_eq_true_2, andb_true_r by set_solver.
Qed.

Lemma deselect_column_becomes i st st' :
  select_wf st → deselect_column filter_nodes stale i st = Some st' →
  ∃ a, as_column i = Some a ∧ becomes st st' (without [a] (item_sel st)).
Proof.
  intros Hw E. pose proof (deselect_column_spec i st Hw) as H. unfold as_column.
  destruct (index_of i) as [j|] eqn:Hi; [|by rewrite E in H]. exists (SCol j). split; [done|].
  destruct H as (st1 & E1 & B); [|by rewrite E in E1; injection E1 as ->].
  unfold deselect_column in E. rewrite Hi in E. cbn [mbind option_bind] in E.
  destruct (aoColumns (ctx st) !! j) eqn:Ej; [by eapply lookup_lt_Some|done].
Qed.

Lemma columns_deselect_becomes l st st' :
  select_wf st → columns_deselect filter_nodes stale l st = Some st' →
  ∃ items, mapM as_column l = Some items ∧ becomes st st' (without items (item_sel st)).
Proof.
  intros Hw E. unfold columns_deselect in E. destruct (each _ l st) as [st1|] eqn:E1; [|done]. injection E as <-.
  destruct (each_without _ as_column deselect_column_becomes l st st1 Hw E1) as (items & H1 & H2).
  exists items. split; [done|by apply becomes_trigger].
Qed.

Lemma cells_deselect_becomes l st st' :
  select_wf st → cells_deselect l st = Some st' →
  ∃ items, mapM as_cell l = Some items ∧ becomes st st' (without items (item_sel st)).
Proof.
  intros Hw E. unfold cells_deselect in E. destruct (each _ l st) as [st1|] eqn:E1; [|done]. injection E as <-.
  destruct (each_without _ as_cell deselect_cell_becomes l st st1 Hw E1) as (items & H1 & H2).
  exists items. split; [done|by apply becomes_trigger].
Qed.

(** ** Clearing *)

Definition changes (st st' : select_state) : Prop := ∃ f, becomes st st' f.

Lemma changes_wf st st' : changes st st' → select_wf st → select_wf st'.
Proof. intros [f B]. by apply (bc_wf _ _ _ B). Qed.

Lemma mapM_as {A B C} (h : A → B) (g : A → C) (it : B → option C) l :
  (∀ x, it (h x) = Some (g x)) → mapM it (h <$> l) = Some (g <$> l).
Proof.
  intros H. induction l as [|x l IH]; [done|]. rewrite !fmap_cons. cbn [mapM]. rewrite H. cbn [mbind option_bind]. by rewrite IH.
Qed.

Lemma mapM_as_row l : mapM as_row (found_rows l) = Some (SRow <$> l).
Proof. apply mapM_as. intros k. unfold as_row. by rewrite index_of_nat. Qed.

Lemma mapM_as_column l : mapM as_column (found_rows l) = Some (SCol <$> l).
Proof. apply mapM_as. intros k. unfold as_column. by rewrite index_of_nat. Qed.

Lemma mapM_as_cell l : mapM as_cell (found_cells l) = Some ((λ c : nat * nat, SCell c.1 c.2) <$> l).
Proof. apply mapM_as. intros c. unfold as_cell. cbn [fst snd]. by rewrite !index_of_nat. Qed.

Lemma deselect_row_some k st : k < length (aoData (ctx st)) → is_Some (deselect_row (row_found k) st).
Proof.
  intros Hk. unfold deselect_row. rewrite index_of_nat. cbn [mbind option_bind].
  destruct (lookup_lt_is_Some_2 _ _ Hk) as [r ->]. by eexists.
Qed.

Lemma rows_deselect_spec l st :
  select_wf st → Forall (λ k, k < length (aoData (ctx st))) l →
  ∃ st', rows_deselect (found_rows l) st = Some st' ∧ becomes st st' (without (SRow <$> l) (item_sel st)).
Proof.
  intros Hw Hl. assert (is_Some (rows_deselect (found_rows l) st)) as [st' E].
  { unfold rows_deselect. destruct (each_some deselect_row (λ i st, ∃ k, i = row_found k ∧ k < length (aoData (ctx st))) changes) with (l := found_rows l) (st := st) as [st1 ->].
    - intros i s1 Hw1 (k & -> & Hk). destruct (deselect_row_some k s1 Hk) as [s2 E2]. exists s2. split; [done|].
      destruct (deselect_row_becomes _ s1 s2 Hw1 E2) as (a & _ & B). by eexists.
    - apply changes_wf.
    - intros i s1 s2 [f B] (k & -> & Hk). exists k. split; [done|]. by rewrite (bc_ctx _ _ _ B).
    - done.
    - unfold found_rows. apply Forall_fmap. eapply Forall_impl; [exact Hl|]. intros k Hk. by exists k.
    - by eexists. }
  exists st'. split; [done|]. destruct (rows_deselect_becomes _ st st' Hw E) as (items & Hi & B).
  rewrite mapM_as_row in Hi. by injection Hi as <-.
Qed.

Lemma columns_deselect_spec l st :
  select_wf st → Forall (λ j, j < length (aoColumns (ctx st))) l →
  ∃ st', columns_deselect filter_nodes stale (found_rows l) st = Some st' ∧ becomes st st' (without (SCol <$> l) (item_sel st)).
Proof.
  intros Hw Hl. assert (is_Some (columns_deselect filter_nodes stale (found_rows l) st)) as [st' E].
  { unfold columns_deselect. destruct (each_some (deselect_column filter_nodes stale) (λ i st, ∃ j, i = row_found j ∧ j < length (aoColumns (ctx st))) changes)
      with (l := found_rows l) (st := st) as [st1 ->].
    - intros i s1 Hw1 (j & -> & Hj). pose proof (deselect_column_spec (row_found j) s1 Hw1) as H. rewrite index_of_nat in H.
      destruct (H Hj) as (s2 & E2 & B). exists s2. split; [done|]. by eexists.
    - apply changes_wf.
    - intros i s1 s2 [f B] (k & -> & Hk). exists k. split; [done|]. by rewrite (bc_ctx _ _ _ B).
    - done.
    - unfold found_rows. apply Forall_fmap. eapply Forall_impl; [exact Hl|]. intros k Hk. by exists k.
    - by eexists. }
  exists st'. split; [done|]. destruct (columns_deselect_becomes _ st st' Hw E) as (items & Hi & B).
  rewrite mapM_as_column in Hi. by injection Hi as <-.
Qed.

(** A cell can be deselected when its row has flags of cells and its column exists. *)
Definition cell_ready (c : nat * nat) (st : select_state) : Prop :=
  c.1 < length (aoData (ctx st)) ∧ c.2 < length (aoColumns (ctx st))
  ∧ ∃ m, rows_of_select st !! c.1 = Some m ∧ is_Some (r_cells m).

Lemma deselect_cell_some c st : cell_ready c st → is_Some (deselect_cell (row_found c.1, row_found c.2) st).
Proof.
  intros (Hk & Hj & m & Hm & [flags Hc]). unfold deselect_cell. cbn [fst snd]. rewrite !index_of_nat. cbn [mbind option_bind].
  destruct (lookup_lt_is_Some_2 _ _ Hk) as [r ->]. cbn [mbind option_bind]. rewrite Hm. cbn [mbind option_bind]. rewrite Hc.
  cbn [mbind option_bind]. case_match; [|by eexists]. cbn. destruct (lookup_lt_is_Some_2 _ _ Hj) as [col ->]. by eexists.
Qed.

Lemma cells_deselect_spec l st :
  select_wf st → Forall (λ c, cell_ready c st) l →
  ∃ st', cells_deselect (found_cells l) st = Some st' ∧ becomes st st' (without ((λ c, SCell c.1 c.2) <$> l) (item_sel st)).
Proof.
  intros Hw Hl. assert (is_Some (cells_deselect (found_cells l) st)) as [st' E].
  { unfold cells_deselect. destruct (each_some deselect_cell (λ i st, ∃ c, i = (row_found c.1, row_found c.2) ∧ cell_ready c st) changes)
      with (l := found_cells l) (st := st) as [st1 ->].
    - intros i s1 Hw1 (c & -> & Hc). destruct (deselect_cell_some c s1 Hc) as [s2 E2]. exists s2. split; [done|].
      destruct (deselect_cell_becomes _ s1 s2 Hw1 E2) as (a & _ & B). by eexists.
    - apply changes_wf.
    - intros i s1 s2 [f B] (c & -> & H1 & H2 & m & H3 & H4). exists c. split; [done|]. unfold cell_ready.
      rewrite (bc_ctx _ _ _ B). split_and!; [done|done|]. by apply (bc_cells _ _ _ B c.1 m).
    - done.
    - unfold found_cells. apply Forall_fmap. eapply Forall_impl; [exact Hl|]. intros k Hk. by exists k.
    - by eexists. }
  exists st'. split; [done|]. destruct (cells_deselect_becomes _ st st' Hw E) as (items & Hi & B).
  rewrite mapM_as_cell in Hi. by injection Hi as <-.
Qed.

Abbreviation clear := (clear filter_nodes stale filter_heads filter_cells host_cell).

Lemma in_table_cells st k j :
  select_wf st → (k, j) ∈ table_cells (ctx st) ↔ k < length (aoData (ctx st)) ∧ j < length (aoColumns (ctx st)).
Proof.
  intros Hw. unfold table_cells. rewrite list_elem_of_bind. split.
  - intros (k' & (j' & [= <- <-] & Hj%elem_of_seq)%list_elem_of_fmap & Hk%in_master); [|done]. lia.
  - intros [Hk Hj]. exists k. split; [|by apply in_master]. apply list_elem_of_fmap. exists j. split; [done|]. apply elem_of_seq. lia.
Qed.

Lemma clear_spec force st :
  select_wf st →
  ∃ st', clear force st = Some st' ∧
    becomes st st' (λ a, item_sel st a && (beyond st a || negb (force || (sc_style (_select st) =s? "single"%js)))).
Proof.
  intros Hw. unfold DtSelection.clear. destruct (force || _); cbn [negb].
  2:{ exists st. split; [done|]. eapply becomes_ext, becomes_same. intros a. by rewrite orb_true_r, andb_true_r. }
  rewrite selected_rows_get by done. cbn [mbind option_bind].
  destruct (rows_deselect_spec (List.filter (row_sel st) (aiDisplayMaster (ctx st))) st Hw) as (st1 & -> & B1).
  { apply Forall_forall. intros k [_ Hk]%list_elem_of_In%filter_In. by apply row_sel_lt. }
  cbn [mbind option_bind]. pose proof (bc_wf _ _ _ B1 Hw) as Hw1. rewrite selected_columns_get by done. cbn [mbind option_bind].
  destruct (columns_deselect_spec (List.filter (col_sel st1) (seq 0 (length (aoColumns (ctx st1))))) st1 Hw1) as (st2 & -> & B2).
  { apply Forall_forall. intros k [_ Hk]%list_elem_of_In%filter_In. by apply col_sel_lt. }
  cbn [mbind option_bind]. pose proof (bc_wf _ _ _ B2 Hw1) as Hw2. rewrite selected_cells_get by done. cbn [mbind option_bind].
  destruct (cells_deselect_spec (List.filter (λ c, cell_sel st2 c.1 c.2) (table_cells (ctx st2))) st2 Hw2) as (st3 & -> & B3).
  { apply Forall_forall. intros [k j] [Hin Hc]%list_elem_of_In%filter_In. apply list_elem_of_In, in_table_cells in Hin as [H1 H2]; [|done].
    split_and!; [done|done|]. unfold cell_sel in Hc. cbn [fst snd] in Hc |- *. destruct (_ !! k) as [m|]; [|done]. exists m. split; [done|].
    unfold cell_flag in Hc. destruct (r_cells m); [by eexists|done]. }
  exists st3. split; [done|]. eapply becomes_ext; [|eapply becomes_trans; [exact B1|eapply becomes_trans; [exact B2|exact B3]]].
  intros a. unfold without at 1. rewrite (bc_items _ _ _ B2). unfold without at 1. rewrite (bc_items _ _ _ B1). unfold without.
  rewrite orb_false_r, <- !andb_assoc. destruct (item_sel st a) eqn:Ha; [|done]. cbn [andb].
  assert (∀ x (l : list sel_item), bool_decide (x ∉ l) = negb (bool_decide (x ∈ l))) as Hneg by (intros; repeat case_bool_decide; tauto).
  rewrite !Hneg. destruct a as [k|j|k j]; cbn [beyond item_sel] in Ha |- *.
  - rewrite (bool_decide_eq_true_2 (SRow k ∈ _)); [done|]. apply list_elem_of_fmap. exists k. split; [done|].
    apply list_elem_of_In, filter_In. split; [|done]. apply list_elem_of_In, in_master; [done|]. by apply row_sel_lt.
  - rewrite (bool_decide_eq_true_2 (SCol j ∈ SCol <$> _)); [by rewrite andb_false_r|]. apply list_elem_of_fmap. exists j. split; [done|].
    assert (col_sel st1 j = true) as Hj.
    { change (item_sel st1 (SCol j) = true). rewrite (bc_items _ _ _ B1). unfold without. cbn [item_sel]. rewrite Ha. cbn [andb].
      apply bool_decide_eq_true_2. intros (? & ? & _)%list_elem_of_fmap. done. }
    apply list_elem_of_In, filter_In. split; [|done]. apply list_elem_of_In, elem_of_seq. apply col_sel_lt in Hj; [lia|done].
  - rewrite (bool_decide_eq_false_2 (SCell k j ∈ SRow <$> _)) by (intros (? & ? & _)%list_elem_of_fmap; done).
    rewrite (bool_decide_eq_false_2 (SCell k j ∈ SCol <$> _)) by (intros (? & ? & _)%list_elem_of_fmap; done). cbn [negb andb].
    assert (cell_sel st2 k j = true) as Hc.
    { change (item_sel st2 (SCell k j) = true). rewrite (bc_items _ _ _ B2). unfold without. rewrite (bc_items _ _ _ B1). unfold without.
      cbn [item_sel]. rewrite Ha, !bool_decide_eq_true_2; [done|intros (? & ? & _)%list_elem_of_fmap; done..]. }
    assert (k < length (aoData (ctx st2))) as Hk.
    { unfold cell_sel in Hc. destruct (rows_of_select st2 !! k) eqn:E; [|done]. apply lookup_lt_Some in E. by rewrite <- (sw_rows _ Hw2). }
    rewrite <- (bc_ctx _ _ _ B1), <- (bc_ctx _ _ _ B2). f_equal. apply eq_bool_prop_intro. rewrite bool_decide_spec, Is_true_true, Nat.ltb_lt.
    rewrite list_elem_of_fmap. split.
    + intros ([k' j'] & [= <- <-] & [H _]%list_elem_of_In%filter_In). apply list_elem_of_In, in_table_cells in H as [_ H]; done.
    + intros Hj. exists (k, j). split; [done|]. apply list_elem_of_In, filter_In. split; [|done]. apply list_elem_of_In, in_table_cells; done.
Qed.

(** ** Selecting *)

Abbreviation select_row := (select_row filter_nodes stale filter_heads filter_cells host_cell).
Abbreviation select_column := (select_column filter_nodes stale filter_heads filter_cells host_cell).
Abbreviation select_cell := (select_cell filter_nodes stale filter_heads filter_cells host_cell).
Abbreviation rows_select := (rows_select filter_nodes stale filter_heads filter_cells host_cell).
Abbreviation columns_select := (columns_select filter_nodes stale filter_heads filter_cells host_cell).
Abbreviation cells_select := (cells_select filter_nodes stale filter_heads filter_cells host_cell).

Lemma clear_false st :
  select_wf st → ∃ st', clear false st = Some st' ∧ becomes st st' (λ a, item_sel st a && kept st a).
Proof. exact (clear_spec false st). Qed.

Lemma select_row_becomes i st st' :
  select_wf st → select_row i st = Some st' →
  ∃ a, as_row i = Some a ∧ becomes st st' (with_items (kept st) [a] (item_sel st)).
Proof.
  intros Hw E. unfold DtSelection.select_row in E. destruct (clear_false st Hw) as (st1 & E1 & B1). rewrite E1 in E.
  cbn [mbind option_bind] in E. pose proof (bc_wf _ _ _ B1 Hw) as Hw1. destruct (index_of i) as [k|] eqn:Hi; [|done].
  cbn [mbind option_bind] in E. destruct (aoData (ctx st1) !! k) as [r|] eqn:Hr; [|done]. injection E as <-.
  exists (SRow k). unfold as_row. rewrite Hi. split; [done|].
  destruct (wf_rows_is_Some st1 k Hw1) as [m Hm]; [by eapply lookup_lt_Some|].
  eapply becomes_ext; [|eapply becomes_trans; [exact B1|apply (becomes_row st1 k m); [done| |done]]].
  - intros a. cbn [with_items fold_left]. rewrite <- (bc_items _ _ _ B1). destruct a as [x|x|x y]; cbn [item_sel].
    + case_decide as Ex; [subst x; rewrite bool_decide_eq_true_2 by done; by rewrite orb_true_r|].
      by rewrite bool_decide_eq_false_2, orb_false_r by congruence.
    + by rewrite bool_decide_eq_false_2, orb_false_r by done.
    + rewrite bool_decide_eq_false_2, orb_false_r by done. case_decide as Ex; [subst x|done]. cbn. unfold cell_sel. by rewrite Hm.
  - intros r' Hr' Hn [H1 H2]. rewrite Hr in Hr'. injection Hr' as <-. rewrite Hn. by split.
Qed.

Lemma rows_select_becomes l st st' :
  select_wf st → rows_select None l st = Some st' →
  ∃ items, mapM as_row l = Some items ∧ becomes st st' (with_items (kept st) items (item_sel st)).
Proof.
  intros Hw E. cbn [DtSelection.rows_select] in E. destruct (each _ l st) as [st1|] eqn:E1; [|done]. injection E as <-.
  destruct (each_with _ as_row select_row_becomes l st st1 Hw E1) as (items & H1 & H2).
  exists items. split; [done|by apply becomes_trigger].
Qed.

Lemma select_column_spec i st :
  select_wf st →
  match index_of i with
  | Some j => j < length (aoColumns (ctx st)) →
      ∃ st', select_column i st = Some st' ∧ becomes st st' (with_items (kept st) [SCol j] (item_sel st))
  | None => select_column i st = None
  end.
Proof.
  intros Hw. unfold DtSelection.select_column. destruct (clear_false st Hw) as (st0 & E0 & B0). rewrite E0. cbn [mbind option_bind].
  pose proof (bc_wf _ _ _ B0 Hw) as Hw0. rewrite <- (bc_ctx _ _ _ B0).
  destruct (index_of i) as [j|] eqn:Hi; [|done]. intros Hj. cbn [mbind option_bind].
  destruct (lookup_lt_is_Some_2 _ _ Hj) as [col Hcol]. rewrite Hcol. cbn [mbind option_bind].
  destruct (column_at i st0 Hw0 j Hi (ex_intro _ col Hcol)) as [c Hc]. set (st1 := upd_column_marks j (set_c_selected true) st0).
  assert (select_wf st1) as Hw1 by by apply select_wf_upd_column. rewrite indexes_default by (try apply Hw1; by left). cbn [mbind option_bind].
  change (ctx st1) with (ctx st0).
  destruct (each_paint true (λ _, true) j (mark_cell j)) with (l := aiDisplayMaster (ctx st0)) (st := st1) as (st' & E & P);
    [done| |done|exact (proj2 (master_found st0 Hw0))|].
  - intros k m st2 Hw2 Hm. unfold mark_cell. rewrite index_of_nat. cbn [mbind option_bind]. unfold has_node.
    destruct (aoData (ctx st2) !! k) as [r|] eqn:Hr; [by rewrite andb_true_r|]. apply lookup_lt_Some in Hm. rewrite (sw_rows _ Hw2) in Hm.
    apply lookup_lt_is_Some in Hm as [r Hr']. congruence.
  - exists st'. split; [exact E|]. eapply becomes_ext; [|eapply becomes_trans; [exact B0|by eapply (becomes_column st0 j c true)]].
    intros a. cbn [with_items fold_left]. rewrite <- (bc_items _ _ _ B0). destruct a as [k|y|k y]; cbn [item_sel];
      try (by rewrite bool_decide_eq_false_2, orb_false_r by done).
    case_decide as Ey; [subst y; rewrite bool_decide_eq_true_2 by done; by rewrite orb_true_r|].
    by rewrite bool_decide_eq_false_2, orb_false_r by congruence.
Qed.

Lemma select_column_becomes i st st' :
  select_wf st → select_column i st = Some st' →
  ∃ a, as_column i = Some a ∧ becomes st st' (with_items (kept st) [a] (item_sel st)).
Proof.
  intros Hw E. pose proof (select_column_spec i st Hw) as H. unfold as_column.
  destruct (index_of i) as [j|] eqn:Hi; [|by rewrite E in H]. exists (SCol j). split; [done|].
  destruct H as (st1 & E1 & B); [|by rewrite E in E1; injection E1 as ->].
  unfold DtSelection.select_column in E. destruct (clear_false st Hw) as (st0 & E0 & B0). rewrite E0, Hi in E. cbn [mbind option_bind] in E.
  rewrite (bc_ctx _ _ _ B0) in E. destruct (aoColumns (ctx st) !! j) eqn:Ej; [by eapply lookup_lt_Some|done].
Qed.

Lemma columns_select_becomes l st st' :
  select_wf st → columns_select None l st = Some st' →
  ∃ items, mapM as_column l = Some items ∧ becomes st st' (with_items (kept st) items (item_sel st)).
Proof.
  intros Hw E. cbn [DtSelection.columns_select] in E. destruct (each _ l st) as [st1|] eqn:E1; [|done]. injection E as <-.
  destruct (each_with _ as_column select_column_becomes l st st1 Hw E1) as (items & H1 & H2).
  exists items. split; [done|by apply becomes_trigger].
Qed.

Lemma select_cell_becomes c st st' :
  select_wf st → select_cell c st = Some st' →
  ∃ a, as_cell c = Some a ∧ becomes st st' (with_items (kept st) [a] (item_sel st)).
Proof.
  intros Hw E. unfold DtSelection.select_cell in E. destruct (clear_false st Hw) as (st0 & E0 & B0). rewrite E0 in E.
  cbn [mbind option_bind] in E. pose proof (bc_wf _ _ _ B0 Hw) as Hw0. destruct (index_of c.1) as [k|] eqn:Hk; [|done].
  cbn [mbind option_bind] in E. destruct (aoData (ctx st0) !! k) as [r|] eqn:Hr; [|done]. cbn [mbind option_bind] in E.
  destruct (rows_of_select st0 !! k) as [m|] eqn:Hm; [|done]. cbn [mbind option_bind] in E.
  destruct (index_of c.2) as [j|] eqn:Hj; [|done]. exists (SCell k j). unfold as_cell. rewrite Hk, Hj. split; [done|].
  set (flags := default ∅ (r_cells m)) in E.
  assert (st' = upd_marks k (λ m, let m := set_r_cells (<[j := true]> flags) m in if nTr r then set_td j true m else m) st0) as ->.
  { destruct (nTr r); injection E as <-; [|done]. unfold upd_marks, set_rows. cbn. by rewrite list_alter_alter_eq. }
  assert (∀ y, cell_flag m y = default false (flags !! y)) as Hflags by (intros y; unfold cell_flag, flags; by destruct (r_cells m)).
  eapply becomes_ext; [|eapply becomes_trans; [exact B0|apply (becomes_row st0 k m); [done| |]]].
  - intros a. cbn [with_items fold_left]. rewrite <- (bc_items _ _ _ B0). destruct a as [x|x|x y]; cbn [item_sel].
    + rewrite bool_decide_eq_false_2, orb_false_r by done. case_decide as E1; [subst x|done]. unfold row_sel. rewrite Hm. by destruct (nTr r).
    + by rewrite bool_decide_eq_false_2, orb_false_r by done.
    + assert (cell_flag (if nTr r then set_td j true (set_r_cells (<[j:=true]> flags) m) else set_r_cells (<[j:=true]> flags) m) y
        = default false (<[j:=true]> flags !! y)) as Hf by (by destruct (nTr r)). cbn zeta. rewrite Hf.
      case_decide as E1; [subst x|by rewrite bool_decide_eq_false_2, orb_false_r by congruence].
      unfold cell_sel. rewrite Hm, Hflags. destruct (decide (y = j)) as [->|Hne].
      * rewrite lookup_insert_eq, bool_decide_eq_true_2 by done. by rewrite orb_true_r.
      * rewrite lookup_insert_ne by done. by rewrite bool_decide_eq_false_2, orb_false_r by congruence.
  - intros r' Hr' Hn [H1 H2]. rewrite Hr in Hr'. injection Hr' as <-. rewrite Hn. cbn zeta. split; [done|].
    cbn [td_class set_td set_r_cells]. rewrite H2. apply td_insert.
    + unfold cell_flag. cbn. rewrite lookup_insert_eq. by rewrite orb_true_r.
    + intros y Hne. rewrite Hflags. unfold cell_flag. cbn. by rewrite lookup_insert_ne by done.
  - intros _. cbn zeta. destruct (nTr r); by eexists.
Qed.

Lemma cells_select_becomes l st st' :
  select_wf st → cells_select None l st = Some st' →
  ∃ items, mapM as_cell l = Some items ∧ becomes st st' (with_items (kept st) items (item_sel st)).
Proof.
  intros Hw E. cbn [DtSelection.cells_select] in E. destruct (each _ l st) as [st1|] eqn:E1; [|done]. injection E as <-.
  destruct (each_with _ as_cell select_cell_becomes l st st1 Hw E1) as (items & H1 & H2).
  exists items. split; [done|by apply becomes_trigger].
Qed.

Lemma rows_select_spec l st :
  select_wf st → Forall (λ k, k < length (aoData (ctx st))) l →
  ∃ st', rows_select None (found_rows l) st = Some st' ∧ becomes st st' (with_items (kept st) (SRow <$> l) (item_sel st)).
Proof.
  intros Hw Hl. assert (is_Some (rows_select None (found_rows l) st)) as [st' E].
  { cbn [DtSelection.rows_select]. destruct (each_some select_row (λ i st, ∃ k, i = row_found k ∧ k < length (aoData (ctx st))) changes) with (l := found_rows l) (st := st) as [st1 ->].
    - intros i s1 Hw1 (k & -> & Hk). assert (is_Some (select_row (row_found k) s1)) as [s2 E2].
      { unfold DtSelection.select_row. destruct (clear_false s1 Hw1) as (s0 & -> & B0). cbn [mbind option_bind]. rewrite index_of_nat.
        cbn [mbind option_bind]. rewrite (bc_ctx _ _ _ B0). destruct (lookup_lt_is_Some_2 _ _ Hk) as [r ->]. by eexists. }
      exists s2. split; [done|]. destruct (select_row_becomes _ s1 s2 Hw1 E2) as (a & _ & B). by eexists.
    - apply changes_wf.
    - intros i s1 s2 [f B] (k & -> & Hk). exists k. split; [done|]. by rewrite (bc_ctx _ _ _ B).
    - done.
    - unfold found_rows. apply Forall_fmap. eapply Forall_impl; [exact Hl|]. intros k Hk. by exists k.
    - by eexists. }
  exists st'. split; [done|]. destruct (rows_select_becomes _ st st' Hw E) as (items & Hi & B).
  rewrite mapM_as_row in Hi. by injection Hi as <-.
Qed.
End selectors.
