(* ===== verification/DtSelectMarks.v ===== *)
(** * The marks follow the selection (dataTables.select.js)

    Whatever the page and the user do, the nodes of rows, of cells and of headers have the class of
    the selection exactly when they are selected; and the style that allows one item keeps it to
    one. *)

From S2P Require Import Prelude JsString JsObject JsNumber JsValue JsInt DtUtil DtModel DtTypes DtSort DtPage DtData DtDraw DtDrawTheorems DtHeader DtColumns DtSelect DtSelectTheorems DtIds DtCells DtSelection DtSelectMouse DtSelectionTheorems.

(** ** Operations *)

(** What the page and the user do with a table that has the extension. *)
Inductive select_op :=
  | ORows (select : option bool) (l : list found)
  | OColumns (select : option bool) (l : list found)
  | OCells (select : option bool) (l : list cell)
  | OClear
  | OClick (text inside : bool) (hit : option (nat * nat)) (prevented : bool) (e : mouse_event)
  | OBlur (within editor : bool)
  | OAdd (d : val)
  | ORemove (k : nat)
  | OCreate (k : nat)                      (* a node made later *)
  | OItems (t : item_type)
  | OStyle (x : jstring).

(** The parts of a table that selections depend on, and how a change of the table keeps them. *)
Definition shape (s : settings) : nat * bool := (length (aoColumns s), is_ssp s).

Lemma add_data_shape rowIdFn d s i s' : _fnAddData rowIdFn d s = Some (i, s') → shape s' = shape s.
Proof.
  intros E. destruct (add_data_some rowIdFn d s) as (s1 & E1 & G & _). rewrite E in E1. injection E1 as -> ->.
  unfold grown, core in G. pose proof (f_equal aoColumns G) as Hc. apply (f_equal length) in Hc. cbn in Hc. rewrite !length_fmap in Hc.
  unfold shape. f_equal; [done|]. exact (f_equal is_ssp G).
Qed.

Lemma create_tr_quiet i s s' :
  _fnCreateTr i s = Some s' → ∃ r, aoData s !! i = Some r ∧ quiet (if nTr r then s else upd_row i (set_nTr true) s) s'.
Proof.
  intros E. unfold _fnCreateTr in E. destruct (aoData s !! i) as [r|] eqn:Hr; [|done]. cbn [mbind option_bind] in E.
  exists r. split; [done|]. destruct (nTr r); [injection E as <-; reflexivity|].
  destruct (create_cells_some i (imap pair (aoColumns s)) (upd_row i (set_nTr true) s)) as (s2 & E2 & Q).
  - unfold upd_row. cbn. rewrite length_alter. by eapply lookup_lt_Some.
  - apply Forall_lookup. intros j [j' c]. rewrite list_lookup_imap. destruct (aoColumns s !! j) eqn:Ej; [|done]. by intros [= <- <-].
  - rewrite E in E2. by injection E2 as ->.
Qed.

(** The nodes after a row is added: the old ones, and one for the new row unless it is deferred. *)
Lemma add_data_nodes rowIdFn d s i s' :
  _fnAddData rowIdFn d s = Some (i, s') →
  i = length (aoData s) ∧ bDeferRender s' = bDeferRender s ∧ nTr <$> aoData s' = (nTr <$> aoData s) ++ [negb (bDeferRender s)].
Proof.
  intros E. unfold _fnAddData in E. match type of E with context [if negb (bDeferRender ?x) then _ else _] => set (s1 := x) in E end.
  assert (aoData s1 = aoData s ++ [oRow d] ∧ bDeferRender s1 = bDeferRender s) as [D1 B1] by (unfold s1; by destruct (rowIdFn d)).
  rewrite B1 in E. destruct (bDeferRender s) eqn:Hb; cbn [negb mbind option_bind] in E.
  - injection E as <- <-. split_and!; [done|by rewrite B1|]. by rewrite D1, fmap_app.
  - destruct (_fnCreateTr (length (aoData s)) s1) as [s2|] eqn:E2; [|done]. injection E as <- <-.
    destruct (create_tr_quiet _ _ _ E2) as (r & Hr & Q). rewrite D1 in Hr. rewrite lookup_app_r, Nat.sub_diag in Hr by lia.
    injection Hr as <-. cbn [oRow nTr] in Q. split_and!; [done|by rewrite Q|]. rewrite (quiet_data _ _ Q). unfold upd_row. cbn.
    rewrite D1. rewrite alter_app_r_alt by lia. rewrite Nat.sub_diag, fmap_app. done.
Qed.

Lemma remove_row_shape rowIdFn k s s' : remove_row rowIdFn k s = Some s' → shape s' = shape s.
Proof.
  unfold remove_row. destruct (aoData s !! k); [|done]. intros [= <-]. unfold _fnLengthOverflow, shape, is_ssp, _fnDataSource.
  destruct s. cbn. by repeat case_match.
Qed.

Section ops.
Variable filter_nodes : item row_fn → list nat → option (list nat).
Variable stale : jstring → found.
Variable filter_heads : item column_fn → list nat → option (list nat).
Variable filter_cells : item unit → list (nat * nat) → option (list (nat * nat)).
Variable host_cell : node → option cell.
Variable rowIdFn : val → option jstring.
Abbreviation rows_select := (rows_select filter_nodes stale filter_heads filter_cells host_cell).
Abbreviation columns_select := (columns_select filter_nodes stale filter_heads filter_cells host_cell).
Abbreviation cells_select := (cells_select filter_nodes stale filter_heads filter_cells host_cell).
Abbreviation typeSelect := (typeSelect filter_nodes stale filter_heads filter_cells host_cell).

Definition apply_op (o : select_op) (st : select_state) : option select_state :=
  match o with
  | ORows b l => rows_select b l st
  | OColumns b l => columns_select b l st
  | OCells b l => cells_select b l st
  | OClear => clear filter_nodes stale filter_heads filter_cells host_cell true st
  | OClick text inside hit prevented e =>
      on_click filter_nodes stale filter_heads filter_cells host_cell text inside hit prevented e st
  | OBlur within editor => on_blur filter_nodes stale filter_heads filter_cells host_cell within editor st
  | OAdd d => add_row rowIdFn d st
  | ORemove k => remove_row_select rowIdFn k st
  | OCreate k => create_tr k st
  | OItems t => Some (select_items_set t st)
  | OStyle x => Some (select_style_set x st)
  end.
Fixpoint apply_ops (l : list select_op) (st : select_state) : option select_state :=
  match l with [] => Some st | o :: l => st ← apply_op o st; apply_ops l st end.

(** ** Selecting and deselecting *)

Lemma changes_refl st : changes st st.
Proof. eexists. apply becomes_same. Qed.
Lemma changes_trans st1 st2 st3 : changes st1 st2 → changes st2 st3 → changes st1 st3.
Proof. intros [f A] [g B]. eexists. by eapply becomes_trans. Qed.

Lemma rows_change b l st st' : select_wf st → rows_select b l st = Some st' → changes st st'.
Proof.
  intros Hw E. destruct b as [[]|].
  1,3: destruct (rows_select_becomes filter_nodes stale filter_heads filter_cells host_cell l st st' Hw E) as (? & _ & ?); by eexists.
  destruct (rows_deselect_becomes l st st' Hw E) as (? & _ & ?). by eexists.
Qed.
Lemma columns_change b l st st' : select_wf st → columns_select b l st = Some st' → changes st st'.
Proof.
  intros Hw E. destruct b as [[]|].
  1,3: destruct (columns_select_becomes filter_nodes stale filter_heads filter_cells host_cell l st st' Hw E) as (? & _ & ?); by eexists.
  destruct (columns_deselect_becomes filter_nodes stale l st st' Hw E) as (? & _ & ?). by eexists.
Qed.
Lemma cells_change b l st st' : select_wf st → cells_select b l st = Some st' → changes st st'.
Proof.
  intros Hw E. destruct b as [[]|].
  1,3: destruct (cells_select_becomes filter_nodes stale filter_heads filter_cells host_cell l st st' Hw E) as (? & _ & ?); by eexists.
  destruct (cells_deselect_becomes l st st' Hw E) as (? & _ & ?). by eexists.
Qed.

Lemma clear_change force st st' :
  select_wf st → clear filter_nodes stale filter_heads filter_cells host_cell force st = Some st' → changes st st'.
Proof.
  intros Hw E. destruct (clear_spec filter_nodes stale filter_heads filter_cells host_cell force st Hw) as (st1 & E1 & B).
  rewrite E in E1. injection E1 as ->. by eexists.
Qed.

(** The methods of a kind only change the selection. *)
Definition methods_change (m : kind_methods) : Prop :=
  (∀ b l st st', select_wf st → do_select m b l st = Some st' → changes st st')
  ∧ (∀ l st st', select_wf st → do_deselect m l st = Some st' → changes st st')
  ∧ (∀ st st', select_wf st → do_range m st = Some st' → changes st st').

(** Undo the binds of a hypothesis. *)
Ltac unbind E :=
  repeat match type of E with
  | (_ ≫= _) = Some _ => apply bind_Some in E; destruct E as (? & ? & E)
  | (let '(_, _) := ?x in _) = Some _ => destruct x
  end.

Lemma methods_all_change t idx last :
  methods_change (methods_of filter_nodes stale filter_heads filter_cells host_cell t idx last).
Proof.
  destruct t; cbn [methods_of]; split_and!; cbn [do_select do_deselect do_range]; intros *.
  - apply rows_change.
  - apply (rows_change (Some false)).
  - intros Hw E. unfold row_range in E. unbind E. destruct (negb _); unbind E; [by eapply rows_change|by eapply (rows_change (Some false))].
  - apply columns_change.
  - apply (columns_change (Some false)).
  - intros Hw E. unfold column_range in E. unbind E. destruct (negb _); unbind E; [by eapply columns_change|by eapply (columns_change (Some false))].
  - apply cells_change.
  - apply (cells_change (Some false)).
  - intros Hw E. unfold cell_range in E. unbind E. destruct (negb _); [by eapply cells_change|by eapply (cells_change (Some false))].
Qed.

Lemma typeSelect_change e t idx st st' : select_wf st → typeSelect e t idx st = Some st' → changes st st'.
Proof.
  intros Hw E. unfold DtSelectMouse.typeSelect in E.
  destruct (methods_all_change t idx (_select_lastCell st)) as (H1 & H2 & H3).
  set (m := methods_of _ _ _ _ _ _ _ _) in *. unbind E.
  assert (∀ b, toggle_this m b st = Some st' → changes st st') as H4 by (intros b E1; unfold toggle_this in E1; unbind E1; by eapply H1).
  destruct (_ =s? "os"%js).
  - destruct (_ || _); [by eapply H4|]. destruct (shiftKey e); [by eapply H3|]. unbind E.
    destruct (_ && _); [by eapply H2|]. unbind E. eapply changes_trans; [by eapply H2|]. eapply H1; [|done].
    eapply changes_wf; [by eapply H2|done].
  - destruct (_ =s? _); [destruct (shiftKey e); [by eapply H3|by eapply H4]|by eapply H4].
Qed.

(** ** Changes of the table *)

Definition select_ok (st : select_state) : Prop := select_wf st ∧ marks_ok st ∧ row_callbacks st ≠ 0.

Lemma changes_ok st st' : changes st st' → select_ok st → select_ok st'.
Proof.
  intros [f B] (Hw & Hm & Hc). split_and!; [by apply (bc_wf _ _ _ B)|by apply (bc_marks _ _ _ B)|by rewrite (bc_callbacks _ _ _ B)].
Qed.

(** The selection of the columns decides what the cells of a row show. *)
Lemma row_shows_same st st' k m :
  columns_of_select st' = columns_of_select st → length (aoColumns (ctx st')) = length (aoColumns (ctx st)) →
  row_shows st k m → row_shows st' k m.
Proof.
  intros Hc Hl [H1 H2]. split; [done|]. rewrite Hl, H2. unfold col_sel. by rewrite Hc.
Qed.

(** A node that was just made, after the callback. *)
Lemma mark_created_shows st k m :
  tr_class m = false → td_class m = replicate (length (aoColumns (ctx st))) false → row_shows st k (mark_created st k m).
Proof.
  intros H1 H2. split; [cbn; by rewrite H1|]. cbn. rewrite H2. apply list_eq. intros j. rewrite list_lookup_imap, list_lookup_fmap.
  destruct (decide (j < length (aoColumns (ctx st)))) as [Hj|Hj].
  - rewrite lookup_replicate_2, lookup_seq_lt by done. done.
  - rewrite (lookup_ge_None_2 (replicate _ _)), (lookup_ge_None_2 (seq _ _)) by (rewrite ?length_replicate, ?length_seq; lia). done.
Qed.

Lemma add_row_ok d st st' : select_ok st → add_row rowIdFn d st = Some st' → select_ok st'.
Proof.
  intros (Hw & Hm & Hcb) E. unfold add_row in E. destruct (_fnAddData rowIdFn d (ctx st)) as [[i s]|] eqn:Ea; [|done].
  cbn [mbind option_bind] in E. destruct (add_data_nodes _ _ _ _ _ Ea) as (-> & Hdef & Hn). pose proof (add_data_shape _ _ _ _ _ Ea) as [= Hlen Hssp].
  destruct (add_data_some rowIdFn d (ctx st)) as (s1 & E1 & G & M & D & _). rewrite Ea in E1. injection E1 as <-.
  set (st1 := set_rows (rows_of_select st ++ [fresh_marks s]) (set_ctx s st)) in *.
  assert (length (aoData s) = S (length (aoData (ctx st)))) as Hl.
  { apply (f_equal length) in D. rewrite length_app, !length_fmap in D. cbn in D. lia. }
  destruct Hw as [Ht Hs Hr Hc].
  assert (select_wf st1) as Hw1.
  { split; cbn; [|by rewrite Hssp|rewrite length_app; cbn; lia|by rewrite Hlen]. destruct Ht as [H1 H2 H3].
    pose proof (f_equal aiDisplay G) as Hd. change (aiDisplay s = aiDisplay (ctx st)) in Hd. split.
    - rewrite M, Hl, seq_S, H1. done.
    - by rewrite Hd.
    - rewrite Hd, Hl. eapply Forall_impl; [exact H3|]. cbn. lia. }
  assert (∀ k, k < length (aoData (ctx st)) → ∀ r, aoData s !! k = Some r → ∃ r0, aoData (ctx st) !! k = Some r0 ∧ nTr r = nTr r0) as Hold.
  { intros k Hk r Hkr. assert ((nTr <$> aoData s) !! k = Some (nTr r)) as H by (by rewrite list_lookup_fmap, Hkr).
    rewrite Hn, lookup_app_l, list_lookup_fmap in H by (by rewrite length_fmap). apply fmap_Some in H as (r0 & H1 & H2). by exists r0. }
  assert (∀ k r m, k < length (aoData (ctx st)) → aoData s !! k = Some r → rows_of_select st1 !! k = Some m → nTr r = true → row_shows st1 k m) as Hshow.
  { intros k r m Hk Hkr Hkm Hnr. destruct (Hold k Hk r Hkr) as (r0 & Hr0 & Hn0). cbn in Hkm. rewrite lookup_app_l in Hkm by lia.
    apply (row_shows_same st); [done|done|]. eapply (mo_rows st Hm); [done|done|congruence]. }
  assert ((row_callbacks st1 =? 0) = false) as Hcb1 by (by apply Nat.eqb_neq). rewrite Hcb1, orb_false_r in E. injection E as <-.
  split_and!; [|split|].
  - destruct (bDeferRender s); [done|by apply select_wf_upd].
  - intros k r m Hkr Hkm Hnr. destruct (decide (k < length (aoData (ctx st)))) as [Hk|Hk].
    + destruct (bDeferRender s); [by eapply Hshow|]. rewrite upd_marks_lookup, decide_False in Hkm by lia. by eapply Hshow.
    + assert (k = length (aoData (ctx st))) as ->.
      { assert (aoData s !! k = Some r) as Hk' by (by destruct (bDeferRender s)). apply lookup_lt_Some in Hk'. lia. }
      assert (rows_of_select st1 !! length (aoData (ctx st)) = Some (fresh_marks s)) as Hfresh.
      { cbn. rewrite lookup_app_r, Hr, Nat.sub_diag by lia. done. }
      destruct (bDeferRender s) eqn:Hb.
      * exfalso. assert ((nTr <$> aoData s) !! length (aoData (ctx st)) = Some (nTr r)) as H
          by (rewrite list_lookup_fmap; change (aoData s) with (aoData (ctx st1)); by rewrite Hkr).
        rewrite Hn, lookup_app_r, length_fmap, Nat.sub_diag, <- Hdef in H by (rewrite length_fmap; lia). cbn in H. congruence.
      * rewrite upd_marks_lookup, decide_True, Hfresh in Hkm by done. injection Hkm as <-.
        apply (row_shows_same st1); [done|done|]. by apply mark_created_shows.
  - intros j c Hj. apply (mo_columns st Hm j). by destruct (bDeferRender s).
  - by destruct (bDeferRender s).
Qed.

Lemma remove_row_ok k st st' : select_ok st → remove_row_select rowIdFn k st = Some st' → select_ok st'.
Proof.
  intros (Hw & Hm & Hcb) E. unfold remove_row_select in E. destruct (remove_row rowIdFn k (ctx st)) as [s|] eqn:Er; [|done].
  injection E as <-. pose proof (remove_row_shape _ _ _ _ Er) as [= Hlen Hssp]. destruct Hw as [Ht Hs Hr Hc].
  assert (k < length (aoData (ctx st))) as Hk by (unfold remove_row in Er; destruct (aoData (ctx st) !! k) eqn:E; [by eapply lookup_lt_Some|done]).
  destruct (remove_row_spec rowIdFn k (ctx st) Ht Hk) as (s1 & E1 & Ht1 & D & _). rewrite Er in E1. injection E1 as <-.
  split_and!; [split|split|done]; cbn.
  - done.
  - by rewrite Hssp.
  - rewrite D, !length_delete by (apply lookup_lt_is_Some; lia). lia.
  - by rewrite Hlen.
  - intros i r m Hi Him Hnr. rewrite D in Hi. destruct (unshift k i) as (i0 & Hne & <-).
    cbn in Him. rewrite shift_lookup in Hi by (done || lia). rewrite shift_lookup in Him by (done || lia). apply (row_shows_same st); [done|exact Hlen|]. exact (mo_rows st Hm _ r m Hi Him Hnr).
  - exact (mo_columns st Hm).
Qed.

Lemma note_node_flags s st k m : r_selected (note_node s st k m) = r_selected m ∧ r_cells (note_node s st k m) = r_cells m.
Proof.
  unfold note_node. destruct (aoData (ctx st) !! k) as [r|]; [|done]. destruct (aoData s !! k) as [r'|]; [|done].
  destruct (_ && _); [|done]. by destruct (_ =? _).
Qed.

Lemma note_nodes_ok s st :
  select_ok st → table_wf s → shape s = shape (ctx st) → length (aoData s) = length (aoData (ctx st)) →
  select_ok (note_nodes s st).
Proof.
  intros (Hw & Hm & Hcb) Ht' [= Hlen Hssp] Hld. destruct Hw as [Ht Hs Hr Hc].
  split_and!; [split|split|done]; unfold note_nodes; cbn; rewrite ?length_imap; [done|by rewrite Hssp|lia|by rewrite Hlen| |exact (mo_columns st Hm)].
  assert ((row_callbacks st =? 0) = false) as Hcb1 by (by apply Nat.eqb_neq).
  intros i r' m' Hi Him Hnr. rewrite list_lookup_imap in Him. apply fmap_Some in Him as (m & Him & ->).
  destruct (lookup_lt_is_Some_2 (aoData (ctx st)) i) as [ri Hri]; [apply lookup_lt_Some in Him; lia|].
  assert (note_node s st i m = if nTr ri then m else mark_created st i
    (RowMarks (r_selected m) (r_cells m) false (replicate (length (aoColumns s)) false))) as ->
    by (unfold note_node; rewrite Hri, Hi, Hnr, Hcb1, andb_true_r; by destruct (nTr ri)).
  destruct (nTr ri) eqn:Eni.
  - apply (row_shows_same st); [done|by rewrite <- Hlen|]. by eapply (mo_rows st Hm).
  - match goal with |- row_shows ?x _ _ => apply (row_shows_same (set_ctx s st) x); [done|done|] end.
    by apply (mark_created_shows (set_ctx s st) i).
Qed.

Lemma create_tr_ok k st st' : select_ok st → create_tr k st = Some st' → select_ok st'.
Proof.
  intros Hok E. unfold create_tr in E. destruct (_fnCreateTr k (ctx st)) as [s|] eqn:Er; [|done].
  injection E as <-. destruct (create_tr_quiet _ _ _ Er) as (r & _ & Q).
  set (s0 := if nTr r then ctx st else upd_row k (set_nTr true) (ctx st)) in *.
  assert (length (aoData s0) = length (aoData (ctx st))) as H0 by (unfold s0, upd_row; destruct (nTr r); cbn; by rewrite ?length_alter).
  assert (aoData s = aoData s0) as Hd by exact (quiet_data _ _ Q).
  assert (aiDisplayMaster s = aiDisplayMaster (ctx st) ∧ aiDisplay s = aiDisplay (ctx st) ∧ shape s = shape (ctx st)) as (Hdm & Hdi & Hsh)
    by (rewrite Q; unfold s0; by destruct (nTr r)).
  apply note_nodes_ok; [done| |done|by rewrite Hd]. destruct Hok as ([[H1 H2 H3] _ _ _] & _).
  split; [by rewrite Hdm, Hd, H0|by rewrite Hdi|by rewrite Hdi, Hd, H0].
Qed.

Lemma settings_ok (f : select_state → select_state) st :
  ctx (f st) = ctx st → rows_of_select (f st) = rows_of_select st → columns_of_select (f st) = columns_of_select st →
  row_callbacks st ≤ row_callbacks (f st) → select_ok st → select_ok (f st).
Proof.
  intros H1 H2 H3 H4 ([A B C D] & [M N] & Hc). split_and!; [split|split|lia]; rewrite ?H1, ?H2, ?H3; try done.
  intros k r m Hk Hm Hn. eapply (row_shows_same st); [done|by rewrite H1|by eapply M].
Qed.

Lemma apply_op_ok o st st' : select_ok st → apply_op o st = Some st' → select_ok st'.
Proof.
  intros Hok E. pose proof Hok as (Hw & _). destruct o; cbn [apply_op] in E.
  - eapply changes_ok; [by eapply rows_change|done].
  - eapply changes_ok; [by eapply columns_change|done].
  - eapply changes_ok; [by eapply cells_change|done].
  - eapply changes_ok; [by eapply clear_change|done].
  - unfold on_click in E. destruct (_ || _); [by injection E as <-|]. destruct hit as [c|]; [|by injection E as <-].
    destruct prevented; [by injection E as <-|]. unbind E. injection E as <-.
    apply (settings_ok (set_lastCell (Some c))); [done..|]. eapply changes_ok; [by eapply typeSelect_change|done].
  - unfold on_blur in E. destruct (_ && _); [|by injection E as <-]. eapply changes_ok; [by eapply clear_change|done].
  - by eapply add_row_ok.
  - by eapply remove_row_ok.
  - by eapply create_tr_ok.
  - injection E as <-. by apply (settings_ok (select_items_set t)).
  - injection E as <-. apply (settings_ok (select_style_set x)); [done..| |done]. cbn. lia.
Qed.

(** C7: whatever the page and the user do, in whatever order, while rows come, go and get their
    nodes: the node of a row has the class of the selection exactly when the row is selected, the
    node of a cell exactly when the cell or its column is, and header and footer cells exactly
    when their columns are. *)
Theorem marks_follow_selection l st st' :
  select_ok st → apply_ops l st = Some st' → select_ok st'.
Proof.
  revert st. induction l as [|o l IH]; intros st Hok E; cbn [apply_ops] in E; [by injection E as <-|].
  destruct (apply_op o st) as [st1|] eqn:E1; [|done]. eapply IH; [|exact E]. by eapply apply_op_ok.
Qed.

(** ** One item at a time *)

Definition at_most_one (f : sel_item → bool) : Prop := ∀ a b, f a = true → f b = true → a = b.

(** The style of single selections holds, one item at most is selected, and it is in the table. *)
Record single_ok (st : select_state) : Prop := {
  so_style : sc_style (_select st) = "single"%js;
  so_one : at_most_one (item_sel st);
  so_within : ∀ a, item_sel st a = true → beyond st a = false
}.

(** The cells an operation selects are cells of the table; the style stays. *)
Definition op_within (n : nat) (o : select_op) : Prop :=
  match o with
  | OCells _ l => Forall (λ c : cell, match index_of c.2 with Some j => j < n | None => True end) l
  | OClick _ _ (Some c) _ _ => c.2 < n
  | OStyle x => x = "single"%js
  | _ => True
  end.

Lemma with_items_one keep items f :
  (∀ a, f a = true → keep a = false) → Forall (λ a, keep a = false) items → at_most_one f →
  at_most_one (with_items keep items f) ∧ ∀ a, with_items keep items f a = true → keep a = false.
Proof.
  intros Hf Hi. revert f Hf. induction Hi as [|x items Hx _ IH]; intros f Hf H1; [done|].
  assert (∀ a, f a && keep a || bool_decide (a = x) = true → a = x) as He.
  { intros a [[H2 H3]%andb_true_iff|H2]%orb_true_iff; [by rewrite Hf in H3|by apply bool_decide_eq_true in H2]. }
  apply IH.
  - by intros a ->%He.
  - by intros a b ->%He ->%He.
Qed.

Lemma kept_single st a : sc_style (_select st) = "single"%js → kept st a = beyond st a.
Proof. intros H. unfold kept. rewrite H, jeqb_refl. by rewrite orb_false_r. Qed.

Lemma single_selects st st' items :
  single_ok st → Forall (λ a, beyond st a = false) items →
  becomes st st' (with_items (kept st) items (item_sel st)) → single_ok st'.
Proof.
  intros [H1 H2 H3] Hi B. assert (∀ a, beyond st' a = beyond st a) as Hb by (intros a; unfold beyond; by rewrite (bc_ctx _ _ _ B)).
  destruct (with_items_one (kept st) items (item_sel st)) as [H4 H5]; [| |done|].
  - intros a Ha. rewrite kept_single by done. by apply H3.
  - eapply Forall_impl; [exact Hi|]. intros a Ha. cbn in Ha |- *. by rewrite kept_single.
  - split; [by rewrite (bc_config _ _ _ B)| |].
    + intros a b. rewrite !(bc_items _ _ _ B). apply H4.
    + intros a. rewrite (bc_items _ _ _ B), Hb. intros Ha%H5. by rewrite kept_single in Ha.
Qed.

Lemma single_drops st st' f : single_ok st → becomes st st' f → (∀ a, f a = true → item_sel st a = true) → single_ok st'.
Proof.
  intros [H1 H2 H3] B Hf. split; [by rewrite (bc_config _ _ _ B)| |].
  - intros a b. rewrite !(bc_items _ _ _ B). intros Ha%Hf Hb%Hf. by apply H2.
  - intros a. rewrite (bc_items _ _ _ B). unfold beyond. rewrite (bc_ctx _ _ _ B). intros Ha%Hf. by apply H3.
Qed.

Lemma without_drops items f a : without items f a = true → f a = true.
Proof. unfold without. by intros [? _]%andb_true_iff. Qed.

Lemma mapM_Forall {A B} (g : A → option B) (P : B → Prop) l l' :
  mapM g l = Some l' → (∀ x y, x ∈ l → g x = Some y → P y) → Forall P l'.
Proof.
  intros E%mapM_Some. induction E as [|x y l l' Hx _ IH]; intros H; constructor; [apply (H x y); [by left|done]|].
  apply IH. intros x' y' Hx'. apply H. by right.
Qed.

Lemma single_rows b l st st' : select_wf st → single_ok st → rows_select b l st = Some st' → single_ok st'.
Proof.
  intros Hw Hs E. destruct b as [[]|].
  1,3: destruct (rows_select_becomes filter_nodes stale filter_heads filter_cells host_cell l st st' Hw E) as (items & Hi & B);
    eapply single_selects; [done| |exact B]; apply (mapM_Forall _ _ _ _ Hi); intros x y _; unfold as_row; by destruct (index_of x); intros [= <-].
  destruct (rows_deselect_becomes l st st' Hw E) as (items & _ & B). eapply single_drops; [done|exact B|]. by intros a Ha%without_drops.
Qed.
Lemma single_columns b l st st' : select_wf st → single_ok st → columns_select b l st = Some st' → single_ok st'.
Proof.
  intros Hw Hs E. destruct b as [[]|].
  1,3: destruct (columns_select_becomes filter_nodes stale filter_heads filter_cells host_cell l st st' Hw E) as (items & Hi & B);
    eapply single_selects; [done| |exact B]; apply (mapM_Forall _ _ _ _ Hi); intros x y _; unfold as_column; by destruct (index_of x); intros [= <-].
  destruct (columns_deselect_becomes filter_nodes stale l st st' Hw E) as (items & _ & B). eapply single_drops; [done|exact B|]. by intros a Ha%without_drops.
Qed.
Lemma single_cells b l st st' :
  select_wf st → single_ok st →
  Forall (λ c : cell, match index_of c.2 with Some j => j < length (aoColumns (ctx st)) | None => True end) l →
  cells_select b l st = Some st' → single_ok st'.
Proof.
  intros Hw Hs Hl E. destruct b as [[]|].
  1,3: destruct (cells_select_becomes filter_nodes stale filter_heads filter_cells host_cell l st st' Hw E) as (items & Hi & B);
    eapply single_selects; [done| |exact B]; apply (mapM_Forall _ _ _ _ Hi); intros x y Hx Hy; rewrite Forall_forall in Hl; specialize (Hl x Hx);
    unfold as_cell in Hy; destruct (index_of x.1); [|done]; cbn [mbind option_bind] in Hy; destruct (index_of x.2) as [j|]; [|done]; injection Hy as <-; cbn;
    apply negb_false_iff; by apply Nat.ltb_lt.
  destruct (cells_deselect_becomes l st st' Hw E) as (items & _ & B). eapply single_drops; [done|exact B|]. by intros a Ha%without_drops.
Qed.

(** A cell that is named by an object is that cell. *)
Lemma index_cell st (c : cell) : select_wf st → cells_get filter_cells host_cell [CellIndex c] no_opts st = Some [c].
Proof.
  intros Hw. unfold cells_get, __cell_selector. cbn [cell_items]. unfold cell_run.
  rewrite indexes_default by (try apply Hw; by left). cbn [mbind option_bind].
  destruct (rows_at (ctx st) (aiDisplayMaster (ctx st))) as (rs & -> & _); [by apply master_found|]. cbn [mbind option_bind app fold_left].
  by rewrite by_flag_none.
Qed.

Lemma single_click e t idx st st' :
  select_wf st → single_ok st → idx.2 < length (aoColumns (ctx st)) → typeSelect e t idx st = Some st' → single_ok st'.
Proof.
  intros Hw Hs Hi E. unfold DtSelectMouse.typeSelect in E. rewrite (so_style st Hs) in E. unbind E.
  change ("single"%js =s? "os"%js) with false in E. change ("single"%js =s? "multi+shift"%js) with false in E. unfold toggle_this in E.
  unbind E. destruct t; cbn [methods_of do_select this_one] in *.
  - by eapply single_rows.
  - by eapply single_columns.
  - eapply single_cells; [done|done| |exact E]. unfold first_cell in *.
    match goal with H : _ = Some ?l |- Forall _ ?l => rename H into Hc end.
    rewrite index_cell in Hc by done. cbn in Hc. injection Hc as <-. constructor; [|constructor]. cbn [snd]. by rewrite index_of_nat.
Qed.

(** The items of a changed table are selected when those they were before are. *)
Lemma single_moved (g : sel_item → sel_item) st st' :
  _select st' = _select st → length (aoColumns (ctx st')) = length (aoColumns (ctx st)) →
  (∀ a, item_sel st' a = true → item_sel st (g a) = true) → (∀ a b, g a = g b → a = b) →
  (∀ a, beyond st a = beyond st (g a)) → single_ok st → single_ok st'.
Proof.
  intros Hc Hl Hf Hg Hb [H1 H2 H3]. split; [by rewrite Hc| |].
  - intros a b Ha%Hf Hb'%Hf. by apply Hg, H2.
  - intros a Ha%Hf. apply H3 in Ha. rewrite <- Hb in Ha. by unfold beyond in *; rewrite Hl.
Qed.

(** Where an item was before the row [k] was removed. *)
Definition unshifted (k i : nat) : nat := if i <? k then i else S i.
Definition item_before (k : nat) (a : sel_item) : sel_item :=
  match a with SRow i => SRow (unshifted k i) | SCell i j => SCell (unshifted k i) j | SCol j => SCol j end.

Lemma delete_unshifted {A} (l : list A) k i : delete k l !! i = l !! unshifted k i.
Proof.
  unfold unshifted. destruct (Nat.ltb_spec i k).
  - by rewrite list_lookup_delete_lt by lia.
  - by rewrite list_lookup_delete_ge by lia.
Qed.

Lemma unshifted_inj k i j : unshifted k i = unshifted k j → i = j.
Proof. unfold unshifted. destruct (Nat.ltb_spec i k), (Nat.ltb_spec j k); lia. Qed.

Lemma single_op o st st' :
  select_ok st → single_ok st → op_within (length (aoColumns (ctx st))) o → apply_op o st = Some st' → single_ok st'.
Proof.
  intros (Hw & Hm & Hcb) Hs Ho E. destruct o; cbn [apply_op op_within] in *.
  - by eapply single_rows.
  - by eapply single_columns.
  - by eapply single_cells.
  - destruct (clear_spec filter_nodes stale filter_heads filter_cells host_cell true st Hw) as (st1 & E1 & B). rewrite E in E1.
    injection E1 as <-. eapply single_drops; [done|exact B|]. by intros a [? _]%andb_true_iff.
  - unfold on_click in E. destruct (_ || _); [by injection E as <-|]. destruct hit as [c|]; [|by injection E as <-].
    destruct prevented; [by injection E as <-|]. unbind E. injection E as <-.
    match goal with H : typeSelect _ _ _ st = Some ?x |- _ => assert (single_ok x) as [H1 H2 H3] by by eapply single_click end. by split.
  - unfold on_blur in E. destruct (_ && _); [|by injection E as <-].
    destruct (clear_spec filter_nodes stale filter_heads filter_cells host_cell true st Hw) as (st1 & E1 & B). rewrite E in E1.
    injection E1 as <-. eapply single_drops; [done|exact B|]. by intros a [? _]%andb_true_iff.
  - unfold add_row in E. destruct (_fnAddData rowIdFn d (ctx st)) as [[i s]|] eqn:Ea; [|done]. injection E as <-.
    pose proof (add_data_shape _ _ _ _ _ Ea) as [= Hlen _]. destruct (add_data_nodes _ _ _ _ _ Ea) as (-> & _ & _).
    set (st1 := set_rows (rows_of_select st ++ [fresh_marks s]) (set_ctx s st)).
    assert (∀ a, item_sel st1 a = true → item_sel st a = true) as Hi.
    { intros [k|j|k j]; cbn; unfold row_sel, cell_sel; cbn; [|done|]; destruct (decide (k < length (rows_of_select st))) as [Hk|Hk].
      1,3: by rewrite lookup_app_l.
      all: rewrite lookup_app_r by lia; destruct (k - length (rows_of_select st)) as [|[|?]]; done. }
    destruct (_ || _); apply (single_moved id st); try done.
    intros a Ha. apply Hi. destruct a as [k|j|k j]; cbn in Ha |- *; unfold row_sel, cell_sel in *; [|done|]; rewrite upd_marks_lookup in Ha;
      case_decide as Ek; try done; by destruct (_ !! k).
  - unfold remove_row_select in E. destruct (remove_row rowIdFn k (ctx st)) as [s|] eqn:Er; [|done]. injection E as <-.
    pose proof (remove_row_shape _ _ _ _ Er) as [= Hlen _]. apply (single_moved (item_before k) st); [done|done| | |by intros []|done].
    + intros [i|j|i j]; cbn; unfold row_sel, cell_sel; cbn; by rewrite ?delete_unshifted.
    + intros [i|j|i j] [i'|j'|i' j']; cbn; intros [=]; subst; f_equal; try done; by eapply unshifted_inj.
  - unfold create_tr in E. destruct (_fnCreateTr k (ctx st)) as [s|] eqn:Er; [|done]. injection E as <-.
    destruct (create_tr_quiet _ _ _ Er) as (r & _ & Q).
    apply (single_moved id st); [done|by rewrite Q; unfold note_nodes; cbn; destruct (nTr r)| |done..].
    intros [i|j|i j]; cbn; unfold row_sel, cell_sel; cbn; [|done|]; rewrite list_lookup_imap; destruct (rows_of_select st !! i) as [m|]; cbn; try done;
      destruct (note_node_flags s st i m) as [Hf1 Hf2]; unfold cell_flag; by rewrite ?Hf1, ?Hf2.
  - injection E as <-. destruct Hs as [H1 H2 H3]. by split.
  - injection E as <-. destruct Hs as [H1 H2 H3]. by split.
Qed.

Lemma op_columns o st st' : select_ok st → apply_op o st = Some st' → length (aoColumns (ctx st')) = length (aoColumns (ctx st)).
Proof.
  intros Hok E. pose proof Hok as (Hw & _). assert (changes st st' → length (aoColumns (ctx st')) = length (aoColumns (ctx st))) as Hc
    by (intros [f B]; by rewrite (bc_ctx _ _ _ B)).
  destruct o; cbn [apply_op] in E.
  - apply Hc. by eapply rows_change.
  - apply Hc. by eapply columns_change.
  - apply Hc. by eapply cells_change.
  - apply Hc. by eapply clear_change.
  - unfold on_click in E. destruct (_ || _); [by injection E as <-|]. destruct hit as [c|]; [|by injection E as <-].
    destruct prevented; [by injection E as <-|]. unbind E. injection E as <-.
    match goal with H : typeSelect _ _ _ st = Some ?x |- _ => apply typeSelect_change in H as [f B]; [|done]; cbn; by rewrite (bc_ctx _ _ _ B) end.
  - unfold on_blur in E. destruct (_ && _); [|by injection E as <-]. apply Hc. by eapply clear_change.
  - unfold add_row in E. destruct (_fnAddData rowIdFn d (ctx st)) as [[i s]|] eqn:Ea; [|done]. injection E as <-.
    pose proof (add_data_shape _ _ _ _ _ Ea) as [= Hlen _]. by destruct (_ || _).
  - unfold remove_row_select in E. destruct (remove_row rowIdFn k (ctx st)) as [s|] eqn:Er; [|done]. injection E as <-.
    by pose proof (remove_row_shape _ _ _ _ Er) as [= Hlen _].
  - unfold create_tr in E. destruct (_fnCreateTr k (ctx st)) as [s|] eqn:Er; [|done]. injection E as <-.
    destruct (create_tr_quiet _ _ _ Er) as (r & _ & Q). rewrite Q. unfold note_nodes. cbn. by destruct (nTr r).
  - by injection E as <-.
  - by injection E as <-.
Qed.

(** In the style for single selections, whatever the page and the user do, at most one item is
    selected at any time, among rows, columns and cells together. *)
Theorem single_selection l st st' :
  select_ok st → single_ok st → Forall (op_within (length (aoColumns (ctx st)))) l → apply_ops l st = Some st' → single_ok st'.
Proof.
  revert st. induction l as [|o l IH]; intros st Hok Hs Hl E; cbn [apply_ops] in E; [by injection E as <-|].
  apply Forall_cons in Hl as [Ho Hl]. destruct (apply_op o st) as [st1|] eqn:E1; [|done].
  assert (length (aoColumns (ctx st1)) = length (aoColumns (ctx st))) as Hn by by eapply op_columns.
  eapply IH; [by eapply apply_op_ok|by eapply single_op|by rewrite Hn|exact E].
Qed.
End ops.

(** ** A table with the extension *)

Lemma put_config_frame c selectable st :
  let st' := put_config c selectable st in
  ctx st' = ctx st ∧ rows_of_select st' = rows_of_select st ∧ columns_of_select st' = columns_of_select st
  ∧ _select_lastCell st' = _select_lastCell st ∧ row_callbacks st < row_callbacks st'.
Proof. cbn zeta. unfold put_config. destruct selectable; cbn; split_and!; lia || done. Qed.

Lemma new_select_none s a : item_sel (new_select s) a = false.
Proof.
  destruct a as [k|j|k j]; cbn; unfold row_sel, col_sel, cell_sel; cbn; rewrite list_lookup_fmap;
    by destruct (_ !! _).
Qed.

Lemma new_select_ok cfg selectable s :
  table_wf s → is_ssp s = false →
  select_ok (put_config cfg selectable (new_select s)) ∧ ∀ a, item_sel (put_config cfg selectable (new_select s)) a = false.
Proof.
  intros Hw Hssp. destruct (put_config_frame cfg selectable (new_select s)) as (H1 & H2 & H3 & _ & H5). split.
  - split_and!; [split|split|lia]; rewrite ?H1, ?H2, ?H3; cbn; rewrite ?length_fmap; try done.
    + intros k r m Hk Hm _. rewrite list_lookup_fmap in Hm. apply fmap_Some in Hm as (? & _ & ->). split; [done|].
      rewrite H1. cbn. apply list_eq. intros j. rewrite list_lookup_fmap.
      destruct (decide (j < length (aoColumns s))) as [Hj|Hj].
      * rewrite lookup_replicate_2, lookup_seq_lt by done. cbn. unfold col_sel. rewrite H3. cbn. rewrite list_lookup_fmap.
        by destruct (_ !! j).
      * rewrite !lookup_ge_None_2 by (rewrite ?length_replicate, ?length_seq; lia). done.
    + intros j c Hj. rewrite list_lookup_fmap in Hj. apply fmap_Some in Hj as (? & _ & ->). split; [done|by right].
  - intros a. rewrite <- (new_select_none s a). destruct a; cbn; unfold row_sel, col_sel, cell_sel; by rewrite ?H2, ?H3.
Qed.

Definition shown_table : settings := set_aoData (set_nTr true <$> aoData select_table) select_table.

Lemma shown_table_wf : table_wf shown_table.
Proof. destruct select_table_wf as [H1 H2 H3]. by split. Qed.

Definition sample_select (style : jstring) : select_state := put_config (default_config style) false (new_select shown_table).

Abbreviation run_ops := (apply_ops (λ _ _, Some []) (λ _, FUndef) (λ _ _, Some []) (λ _ _, Some []) (λ _, None) (λ _, None)).
Definition plain_click : mouse_event := MouseEvent false false false.
Definition ctrl_click : mouse_event := MouseEvent true false false.
Definition shift_click : mouse_event := MouseEvent false false true.

(** Two rows, a column and a cell are selected, a row is added and one is removed. *)
Definition sample_ops : list select_op :=
  [OClick false true (Some (1, 0)) false plain_click; OClick false true (Some (3, 0)) false ctrl_click;
   OColumns None [row_found 0]; OAdd (VStr "e"%js); ORemove 0; OItems Cells;
   OClick false true (Some (0, 0)) false ctrl_click; OColumns (Some false) [row_found 0]].

Example marks_follow_selection_witness :
  match run_ops sample_ops (sample_select "os"%js) with
  | Some st => select_ok st ∧ tr_class <$> rows_of_select st = [true; false; true; false]
      ∧ td_class <$> rows_of_select st = [[true]; [false]; [false]; [false]]
  | None => False
  end.
Proof.
  destruct (run_ops sample_ops (sample_select "os"%js)) as [st|] eqn:E; [|vm_compute in E; discriminate E].
  split.
  - apply (marks_follow_selection (λ _ _, Some []) (λ _, FUndef) (λ _ _, Some []) (λ _ _, Some []) (λ _, None) (λ _, None)
      sample_ops (sample_select "os"%js)); [|exact E].
    exact (proj1 (new_select_ok (default_config "os"%js) false shown_table shown_table_wf eq_refl)).
  - revert E. vm_compute. intros [= <-]. split; reflexivity.
Defined.

Example single_selection_witness :
  match run_ops sample_ops (sample_select "single"%js) with
  | Some st => single_ok st ∧ item_sel st (SCell 0 0) = true
  | None => False
  end.
Proof.
  destruct (run_ops sample_ops (sample_select "single"%js)) as [st|] eqn:E; [|vm_compute in E; discriminate E].
  split.
  - destruct (new_select_ok (default_config "single"%js) false shown_table shown_table_wf eq_refl) as [Hok Hnone].
    apply (single_selection (λ _ _, Some []) (λ _, FUndef) (λ _ _, Some []) (λ _ _, Some []) (λ _, None) (λ _, None)
      sample_ops (sample_select "single"%js)); [exact Hok| | |exact E].
    + split; [reflexivity|intros a b Ha; unfold sample_select in Ha; by rewrite Hnone in Ha|].
      intros a Ha. unfold sample_select in Ha. by rewrite Hnone in Ha.
    + repeat constructor.
  - revert E. vm_compute. intros [= <-]. reflexivity.
Defined.
