(* ===== verification/DtSelectClicks.v ===== *)
(** * What clicks select, and what a reload keeps (dataTables.select.js)

    The three kinds of clicks of the style of operating systems on rows, with the range of a shift
    click in the order of the display; and the rows that a reload selects again by their ids. *)

From S2P Require Import Prelude JsString JsObject JsNumber JsValue JsInt DtUtil DtModel DtTypes DtSort DtPage DtData DtDraw DtDrawTheorems DtHeader DtColumns DtSelect DtSelectTheorems DtIds DtCells DtSelection DtSelectMouse DtSelectionTheorems DtSelectMarks.

(** ** Ranges of indices *)

(** The places of the display from [a] to [b], in whatever order. *)
Definition segment {A} (a b : nat) (l : list A) : list A := take (S (a `max` b) - a `min` b) (drop (a `min` b) l).

Lemma js_splice_suffix {A} n (l : list A) : js_splice (Z.of_nat n) (Z.of_nat (length l)) l = take n l.
Proof.
  unfold js_splice. destruct (Z.ltb_spec (Z.of_nat n) 0); [lia|].
  rewrite (drop_ge l) by lia. rewrite app_nil_r. destruct (decide (n ≤ length l)).
  - by replace (Z.to_nat (Z.min (Z.of_nat n) (Z.of_nat (length l)))) with n by lia.
  - rewrite !take_ge by lia. done.
Qed.

Lemma js_splice_prefix {A} (z : Z) (l : list A) : (z ≤ Z.of_nat (length l))%Z → js_splice 0 z l = drop (Z.to_nat z) l.
Proof.
  intros Hz. unfold js_splice. change (0 <? 0)%Z with false. cbn iota. rewrite Z.min_l by lia. cbn [Z.to_nat take app].
  by replace (Z.to_nat (0 + Z.min (Z.max z 0) (Z.of_nat (length l) - 0))) with (Z.to_nat z) by lia.
Qed.

Lemma js_splice_one {A} n (l : list A) : n < length l → js_splice (Z.of_nat n) 1 l = delete n l.
Proof.
  intros Hn. unfold js_splice. destruct (Z.ltb_spec (Z.of_nat n) 0); [lia|]. rewrite delete_take_drop.
  rewrite (Z.min_l (Z.of_nat n)) by lia. rewrite Nat2Z.id. f_equal.
  by replace (Z.to_nat (Z.of_nat n + Z.min (Z.max 1 0) (Z.of_nat (length l) - Z.of_nat n))) with (S n) by lia.
Qed.

Lemma inArray_found (l : list nat) p k : NoDup l → l !! p = Some k → inArray (row_found k) (found_rows l) = Z.of_nat p.
Proof.
  intros Hn Hp. unfold inArray. destruct (list_find _ _) as [[i x]|] eqn:E.
  - apply list_find_Some in E as (H1 & H2 & _). subst x. unfold found_rows in H1. rewrite list_lookup_fmap in H1.
    apply fmap_Some in H1 as (y & Hy & [= <-%Nat2Z.inj]). f_equal. by eapply NoDup_lookup.
  - exfalso. eapply list_find_None in E. rewrite Forall_forall in E. apply (E (row_found k)); [|done].
    apply found_rows_In. by eapply list_elem_of_lookup_2.
Qed.

Lemma inArray_absent (l : list nat) x : x ∉ found_rows l → inArray x (found_rows l) = (-1)%Z.
Proof.
  intros H. unfold inArray. destruct (list_find _ _) as [[i y]|] eqn:E; [|done]. apply list_find_Some in E as (H1 & H2 & _).
  subst y. exfalso. apply H. by eapply list_elem_of_lookup_2.
Qed.

(** The place a shift click counts from: that of the last row, if it is on the display, or the top. *)
Definition place (l : list nat) (k : nat) : option nat := fst <$> list_find (k =.) l.
Definition start_place (l : list nat) (last : option nat) : nat := default 0 (last ≫= place l).

Lemma place_Some l k p : place l k = Some p → l !! p = Some k.
Proof. unfold place. intros ([i x] & (H & -> & _)%list_find_Some & ->)%fmap_Some. done. Qed.

Lemma place_In l k : k ∈ l → ∃ p, place l k = Some p.
Proof.
  intros H. unfold place. destruct (list_find _ l) as [[i x]|] eqn:E; [by eexists|].
  apply list_find_None in E. rewrite Forall_forall in E. by destruct (E k H).
Qed.

Lemma range_between_segment l (a b : nat) :
  a < length l → b < length l → range_between (Z.of_nat a) (Z.of_nat b) (found_rows l) = found_rows (segment a b l).
Proof.
  intros Ha Hb. unfold range_between, segment, found_rows.
  assert (∀ x y : nat, x ≤ y → y < length l →
    js_splice 0 (Z.of_nat x) (js_splice (Z.of_nat y + 1) (Z.of_nat (length ((λ k, row_found k) <$> l))) ((λ k, row_found k) <$> l))
    = (λ k, row_found k) <$> take (S y - x) (drop x l)) as H.
  { intros x y Hxy Hy. replace (Z.of_nat y + 1)%Z with (Z.of_nat (S y)) by lia. rewrite js_splice_suffix.
    rewrite js_splice_prefix by (rewrite length_take, length_fmap; lia). rewrite Nat2Z.id, fmap_take, fmap_drop.
    by rewrite skipn_firstn_comm. }
  destruct (Z.ltb_spec (Z.of_nat b) (Z.of_nat a)); rewrite H by lia.
  - by rewrite (Nat.max_l a b), (Nat.min_r a b) by lia.
  - by rewrite (Nat.max_r a b), (Nat.min_l a b) by lia.
Qed.

(** The range of a click is a segment of the display, whether something is selected or not. *)
Lemma range_of_segment l k p last any :
  NoDup l → l !! p = Some k →
  range_of (found_rows l) (row_found k) (or_null last) any = found_rows (segment (start_place l last) p l).
Proof.
  intros Hn Hp. unfold range_of. rewrite (inArray_found l p k Hn Hp). pose proof (lookup_lt_Some _ _ _ Hp) as Hlt.
  destruct (last ≫= place l) as [a|] eqn:Ea.
  - destruct last as [x|]; [|done]. cbn [mbind option_bind] in Ea. apply place_Some in Ea as Hx.
    cbn [or_null]. rewrite (inArray_found l a x Hn Hx). pose proof (lookup_lt_Some _ _ _ Hx).
    replace (start_place l (Some x)) with a by (unfold start_place; cbn [mbind option_bind]; by rewrite Ea).
    destruct (Z.eqb_spec (Z.of_nat a) (-1)); [lia|]. rewrite andb_false_r. by apply range_between_segment.
  - assert (or_null last ∉ found_rows l) as Hx.
    { destruct last as [x|]; cbn [or_null].
      - rewrite found_rows_In. intros (q & Hq)%place_In. cbn [mbind option_bind] in Ea. congruence.
      - unfold found_rows. by intros (? & ? & _)%list_elem_of_fmap. }
    rewrite (inArray_absent l _ Hx). replace (start_place l last) with 0 by (unfold start_place; by rewrite Ea).
    assert (found_rows (segment 0 p l) = take (S p) (found_rows l)) as ->.
    { unfold segment, found_rows. rewrite Nat.min_0_l, Nat.max_0_l, drop_0, Nat.sub_0_r. by rewrite fmap_take. }
    replace (Z.of_nat p + 1)%Z with (Z.of_nat (S p)) by lia. cbn [Z.eqb]. destruct any; cbn [negb andb].
    + unfold range_between. destruct (Z.ltb_spec (Z.of_nat p) (-1)); [lia|]. replace (Z.of_nat p + 1)%Z with (Z.of_nat (S p)) by lia.
      rewrite js_splice_suffix, js_splice_prefix by lia. done.
    + by rewrite js_splice_suffix.
Qed.

Lemma segment_sublist {A} a b (l : list A) : segment a b l `sublist_of` l.
Proof. unfold segment. etransitivity; [apply sublist_take|apply sublist_drop]. Qed.

Lemma segment_end {A} a b (l : list A) x : l !! b = Some x → x ∈ segment a b l.
Proof.
  intros Hx. unfold segment. apply list_elem_of_lookup. exists (b - a `min` b). rewrite lookup_take, lookup_drop.
  rewrite decide_True by lia. by replace (a `min` b + (b - a `min` b)) with b by lia.
Qed.

Lemma delete_filter q k (l : list nat) : NoDup l → l !! q = Some k → delete q l = filter (.≠ k) l.
Proof.
  intros Hn Hq. rewrite delete_take_drop. rewrite <- (take_drop_middle l q k Hq) in Hn. rewrite <- (take_drop_middle l q k Hq) at 3.
  apply NoDup_app in Hn as (_ & H1 & H2). apply NoDup_cons in H2 as [H2 _].
  rewrite filter_app, filter_cons_False by naive_solver. rewrite !filter_keep; [done| |].
  - by intros x Hx ->.
  - intros x Hx ->. apply (H1 k Hx). by left.
Qed.

(** ** Selectors made of indices *)

(** The number of a row is read back from its text; this is computed for the rows of a table. *)
Definition exact_index (k : nat) : bool :=
  bool_decide (@item_intVal row_fn (IVal (index_value (row_found k))) = Some (Z.of_nat k)).
Definition indices_exact (s : settings) : bool := forallb exact_index (seq 0 (length (aoData s))).

Lemma exact_at s k : indices_exact s = true → k < length (aoData s) → @item_intVal row_fn (IVal (index_value (row_found k))) = Some (Z.of_nat k).
Proof.
  intros H Hk. unfold indices_exact in H. rewrite forallb_forall in H. apply (bool_decide_eq_true_1 _), H.
  apply list_elem_of_In, elem_of_seq. lia.
Qed.

Section clicks.
Variable filter_nodes : item row_fn → list nat → option (list nat).
Variable stale : jstring → found.
Variable filter_heads : item column_fn → list nat → option (list nat).
Variable filter_cells : item unit → list (nat * nat) → option (list (nat * nat)).
Variable host_cell : node → option cell.
Abbreviation rows_get := (rows_get filter_nodes stale).
Abbreviation rows_select := (rows_select filter_nodes stale filter_heads filter_cells host_cell).
Abbreviation on_click := (on_click filter_nodes stale filter_heads filter_cells host_cell).

Lemma run_index st opts k l :
  indices_exact (ctx st) = true → k < length (aoData (ctx st)) →
  _selector_row_indexes (ctx st) opts = Some (found_rows l) → k ∈ l →
  row_run filter_nodes stale (Some opts) (IVal (index_value (row_found k))) (ctx st) = Some [row_found k].
Proof.
  intros He Hk Hl Hin. unfold row_run. rewrite (exact_at _ _ He Hk). change (default [] (Some opts)) with opts.
  rewrite Hl. cbn [mbind option_bind]. by rewrite bool_decide_eq_true_2 by by apply found_rows_In.
Qed.

Lemma one_index_get st opts k :
  select_wf st → indices_exact (ctx st) = true → k < length (aoData (ctx st)) →
  opts = no_opts ∨ opts = selected_opts true →
  rows_get (one_index k) opts st = Some (if bool_decide (opts = no_opts) || row_sel st k then [row_found k] else []).
Proof.
  intros Hw He Hk Ho. unfold DtSelection.rows_get, __row_selector, one_index. rewrite select_run_one by done.
  rewrite (run_index st opts k (aiDisplayMaster (ctx st))); [|done|done|by apply indexes_default; [apply Hw|]|by apply in_master].
  cbn [mbind option_bind fold_left]. destruct Ho as [-> | ->].
  - rewrite by_flag_none by done. by rewrite bool_decide_eq_true_2.
  - change [row_found k] with (found_rows [k]). rewrite (by_flag_rows _ (row_sel st) true); [|constructor; [by apply row_flag_at|constructor]|done].
    rewrite filter_eqb_true. replace (bool_decide (selected_opts true = no_opts)) with false by (vm_compute; reflexivity).
    cbn [List.filter orb]. by destruct (row_sel st k).
Qed.

Lemma by_indexes_get st l :
  select_wf st → indices_exact (ctx st) = true → NoDup l → Forall (λ k, k < length (aoData (ctx st))) l →
  rows_get (by_indexes (found_rows l)) no_opts st = Some (found_rows l).
Proof.
  intros Hw He Hn Hl. unfold DtSelection.rows_get, __row_selector, _selector_run, by_indexes.
  set (run := λ i s, l ← row_run filter_nodes stale (Some no_opts) i s; Some (l, s)).
  assert (select_items run (selector_items (Several ((λ i, IVal (index_value i)) <$> found_rows l))) (ctx st) = Some (found_rows l, ctx st)) as ->.
  { clear Hn. unfold selector_items, found_rows. induction Hl as [|k l Hk Hl IH]; [done|]. rewrite !fmap_cons. cbn [mbind list_bind].
    change (split_item (IVal (index_value (row_found k)))) with [@IVal row_fn (index_value (row_found k))]. cbn [app select_items].
    assert (run (IVal (index_value (row_found k))) (ctx st) = Some ([row_found k], ctx st)) as ->.
    { unfold run. by rewrite (run_index st no_opts k (aiDisplayMaster (ctx st))); [|done|done|by apply indexes_default; [apply Hw|left]|by apply in_master]. }
    cbn [mbind option_bind]. rewrite IH. done. }
  cbn [mbind option_bind fold_left]. rewrite by_flag_none by done. cbn [mbind option_bind]. by rewrite unique_found.
Qed.

Lemma applied_rows st : select_wf st → rows_get all_rows applied_opts st = Some (found_rows (aiDisplay (ctx st))).
Proof.
  intros Hw. unfold all_rows. rewrite (rows_get_falsy filter_nodes stale (VStr []) _ st (aiDisplay (ctx st))); [|by right|].
  - rewrite by_flag_none by done. f_equal. by apply unique_found, (wf_display _ (sw_table _ Hw)).
  - unfold _selector_row_indexes. rewrite (sw_local _ Hw). reflexivity.
Qed.

(** ** Clicks *)

(** The rows selected after a click on the row [k], in the style of operating systems: with the key for
    adding, the row changes; with the key for ranges, the rows of the display from the last one
    that was clicked are selected, or, if the row is selected, all others among them are not any
    more; without a key, the row alone is selected, or nothing if it was. *)
Definition clicked (st : select_state) (e : mouse_event) (k p : nat) (i : nat) : bool :=
  let display := aiDisplay (ctx st) in
  let range := segment (start_place display (fst <$> _select_lastCell st)) p display in
  let alone := bool_decide (List.filter (row_sel st) (aiDisplayMaster (ctx st)) = [k]) in
  if ctrlKey e || metaKey e then if bool_decide (i = k) then negb (row_sel st k) else row_sel st i
  else if shiftKey e then
    if row_sel st k then row_sel st i && (bool_decide (i = k) || bool_decide (i ∉ range))
    else row_sel st i || bool_decide (i ∈ range)
  else if alone then false else bool_decide (i = k).

Definition with_rows (f : nat → bool) (g : sel_item → bool) (a : sel_item) : bool :=
  match a with SRow i => f i | _ => g a end.

Lemma with_items_keep keep items f a :
  (∀ a, keep a = true) → with_items keep items f a = f a || bool_decide (a ∈ items).
Proof.
  intros Hk. revert f. induction items as [|x items IH]; intros f; cbn.
  - by rewrite bool_decide_eq_false_2, orb_false_r by apply not_elem_of_nil.
  - change (with_items keep items (λ a, f a && keep a || bool_decide (a = x)) a = f a || bool_decide (a ∈ x :: items)).
    rewrite IH, Hk, andb_true_r, <- orb_assoc. f_equal. repeat case_bool_decide; set_solver.
Qed.

Lemma row_in_fmap i (l : list nat) : SRow i ∈ SRow <$> l ↔ i ∈ l.
Proof. rewrite list_elem_of_fmap. split; [by intros (j & [= <-] & H)|intros H; by exists i]. Qed.

Lemma kept_os st a : sc_style (_select st) = "os"%js → kept st a = true.
Proof. intros H. unfold kept. rewrite H. by rewrite orb_true_r. Qed.

Lemma os_select st l :
  select_wf st → (∀ a, kept st a = true) → Forall (λ k, k < length (aoData (ctx st))) l →
  ∃ st', rows_select None (found_rows l) st = Some st' ∧
    becomes st st' (with_rows (λ i, row_sel st i || bool_decide (i ∈ l)) (item_sel st)).
Proof.
  intros Hw Ho Hl. destruct (rows_select_spec filter_nodes stale filter_heads filter_cells host_cell l st Hw Hl) as (st' & E & B).
  exists st'. split; [done|]. eapply becomes_ext; [|exact B]. intros a. rewrite with_items_keep by done.
  destruct a as [i|j|i j]; cbn; [by rewrite (bool_decide_ext _ _ (row_in_fmap i l))|..];
    by rewrite bool_decide_eq_false_2, orb_false_r by (intros (? & ? & _)%list_elem_of_fmap; done).
Qed.

Lemma os_deselect st l :
  select_wf st → Forall (λ k, k < length (aoData (ctx st))) l →
  ∃ st', rows_deselect (found_rows l) st = Some st' ∧
    becomes st st' (with_rows (λ i, row_sel st i && bool_decide (i ∉ l)) (item_sel st)).
Proof.
  intros Hw Hl. destruct (rows_deselect_spec l st Hw Hl) as (st' & E & B).
  exists st'. split; [done|]. eapply becomes_ext; [|exact B]. unfold without.
  intros [i|j|i j]; cbn; [f_equal; apply bool_decide_ext; by rewrite row_in_fmap|..];
    by rewrite bool_decide_eq_true_2, andb_true_r by (intros (? & ? & _)%list_elem_of_fmap; done).
Qed.

Lemma selected_row_In st i : select_wf st → i ∈ List.filter (row_sel st) (aiDisplayMaster (ctx st)) ↔ row_sel st i = true.
Proof.
  intros Hw. rewrite list_elem_of_In, filter_In, <- list_elem_of_In. split; [tauto|]. intros H. split; [|done].
  apply in_master; [done|]. by eapply row_sel_lt.
Qed.

Lemma displayed_lt st k p : select_wf st → aiDisplay (ctx st) !! p = Some k → k < length (aoData (ctx st)).
Proof.
  intros Hw Hp. pose proof (wf_shown _ (sw_table _ Hw)) as H. rewrite Forall_forall in H. apply H. by eapply list_elem_of_lookup_2.
Qed.

Lemma first_row_get st opts k :
  select_wf st → indices_exact (ctx st) = true → k < length (aoData (ctx st)) →
  opts = no_opts ∨ opts = selected_opts true →
  first_row filter_nodes stale k opts st = Some (if bool_decide (opts = no_opts) || row_sel st k then [row_found k] else []).
Proof.
  intros Hw He Hk Ho. unfold first_row. rewrite one_index_get by done. cbn [mbind option_bind].
  by destruct (_ || _).
Qed.

(** The range of a shift click on the row at place [p] of the display. *)
Lemma row_range_spec st k p last :
  select_wf st → sc_style (_select st) = "os"%js → indices_exact (ctx st) = true → aiDisplay (ctx st) !! p = Some k →
  let range := segment (start_place (aiDisplay (ctx st)) last) p (aiDisplay (ctx st)) in
  ∃ st', row_range filter_nodes stale filter_heads filter_cells host_cell k last st = Some st' ∧
    becomes st st' (with_rows (λ i, if row_sel st k then row_sel st i && (bool_decide (i = k) || bool_decide (i ∉ range))
                                    else row_sel st i || bool_decide (i ∈ range)) (item_sel st)).
Proof.
  intros Hw Ho He Hp range. pose proof (displayed_lt st k p Hw Hp) as Hk. pose proof (wf_display _ (sw_table _ Hw)) as Hnd.
  assert (NoDup range ∧ Forall (λ k, k < length (aoData (ctx st))) range) as [Hrn Hrl].
  { pose proof (segment_sublist (start_place (aiDisplay (ctx st)) last) p (aiDisplay (ctx st))) as Hs. split; [by eapply sublist_NoDup|].
    pose proof (wf_shown _ (sw_table _ Hw)) as H. rewrite Forall_forall in H |- *. intros i Hi. by eapply H, elem_of_sublist. }
  unfold row_range. rewrite applied_rows by done. cbn [mbind option_bind]. rewrite selected_rows_get by done. cbn [mbind option_bind].
  rewrite first_row_get by (done || by right). cbn [mbind option_bind].
  replace (bool_decide (selected_opts true = no_opts)) with false by (vm_compute; reflexivity). cbn [orb].
  rewrite (range_of_segment _ k p last _ Hnd Hp). fold range. destruct (row_sel st k) eqn:Hsel; cbn [any negb].
  - pose proof (segment_end (start_place (aiDisplay (ctx st)) last) p _ _ Hp) as Hin. fold range in Hin.
    apply list_elem_of_lookup in Hin as (q & Hq). rewrite (inArray_found range q k Hrn Hq).
    rewrite js_splice_one by (unfold found_rows; rewrite length_fmap; by eapply lookup_lt_Some).
    assert (delete q (found_rows range) = found_rows (filter (.≠ k) range)) as ->.
    { unfold found_rows. rewrite <- list_fmap_delete. f_equal. by apply delete_filter. }
    rewrite by_indexes_get; [|done|done|by apply NoDup_filter|]; [cbn [mbind option_bind]|].
    + destruct (os_deselect st (filter (.≠ k) range) Hw) as (st' & E & B).
      { apply Forall_forall. intros i [_ Hi]%list_elem_of_filter. rewrite Forall_forall in Hrl. by apply Hrl. }
      exists st'. split; [exact E|]. eapply becomes_ext; [|exact B]. intros [i|j|i j]; [|done..]. cbn. f_equal.
      rewrite <- bool_decide_or. apply bool_decide_ext. rewrite list_elem_of_filter. destruct (decide (i = k)); tauto.
    + apply Forall_forall. intros i [_ Hi]%list_elem_of_filter. rewrite Forall_forall in Hrl. by apply Hrl.
  - rewrite by_indexes_get by done. cbn [mbind option_bind]. apply os_select; [done|intros; by apply kept_os|done].
Qed.

(** The row that is clicked, and only it. *)
Lemma toggle_row_spec st k j last :
  select_wf st → sc_style (_select st) = "os"%js → indices_exact (ctx st) = true → k < length (aoData (ctx st)) →
  ∃ st', toggle_this (methods_of filter_nodes stale filter_heads filter_cells host_cell Rows (k, j) last) (row_sel st k) st = Some st' ∧
    becomes st st' (with_rows (λ i, if decide (i = k) then negb (row_sel st k) else row_sel st i) (item_sel st)).
Proof.
  intros Hw Ho He Hk. assert (Forall (λ k, k < length (aoData (ctx st))) [k]) as Hk1 by by constructor.
  unfold toggle_this. cbn [methods_of this_one do_select fst snd]. rewrite first_row_get by (done || by left).
  rewrite bool_decide_eq_true_2 by done. cbn [orb mbind option_bind]. change [row_found k] with (found_rows [k]).
  destruct (row_sel st k) eqn:Hsel; cbn [negb].
  - destruct (os_deselect st [k] Hw Hk1) as (st' & E & B). exists st'. split; [exact E|]. eapply becomes_ext; [|exact B].
    intros [i|y|i y]; [|done..]. cbn. destruct (decide (i = k)) as [->|Hne].
    + by rewrite bool_decide_eq_false_2, andb_false_r by set_solver.
    + by rewrite bool_decide_eq_true_2, andb_true_r by set_solver.
  - destruct (os_select st [k] Hw (λ a, kept_os st a Ho) Hk1) as (st' & E & B). exists st'. split; [exact E|]. eapply becomes_ext; [|exact B].
    intros [i|y|i y]; [|done..]. cbn. destruct (decide (i = k)) as [->|Hne].
    + by rewrite bool_decide_eq_true_2, orb_true_r by set_solver.
    + by rewrite bool_decide_eq_false_2, orb_false_r by set_solver.
Qed.

(** The rows of a list are deselected and one row is selected. *)
Lemma select_only_spec st k :
  select_wf st → sc_style (_select st) = "os"%js → k < length (aoData (ctx st)) →
  let sel := List.filter (row_sel st) (aiDisplayMaster (ctx st)) in
  ∃ st1 st', rows_deselect (found_rows sel) st = Some st1 ∧ rows_select None (found_rows [k]) st1 = Some st'
    ∧ becomes st st' (with_rows (λ i, bool_decide (i = k)) (item_sel st)).
Proof.
  intros Hw Ho Hk sel. destruct (os_deselect st sel Hw) as (st1 & E1 & B1).
  { apply Forall_forall. intros i Hi%(selected_row_In st i Hw). by apply row_sel_lt. }
  destruct (os_select st1 [k]) as (st' & E & B);
    [by apply (bc_wf _ _ _ B1)|intros; apply kept_os; by rewrite (bc_config _ _ _ B1)|rewrite (bc_ctx _ _ _ B1); by constructor|].
  exists st1, st'. split_and!; [exact E1|exact E|]. eapply becomes_ext; [|by eapply becomes_trans]. intros [i|y|i y]; cbn [with_rows].
  - change (row_sel st1 i) with (item_sel st1 (SRow i)). rewrite (bc_items _ _ _ B1). cbn [with_rows].
    assert (row_sel st i && bool_decide (i ∉ sel) = false) as ->.
    { destruct (row_sel st i) eqn:Hi; [|done]. apply (selected_row_In st i Hw) in Hi. cbn. by rewrite bool_decide_eq_false_2 by tauto. }
    cbn. apply bool_decide_ext. by rewrite list_elem_of_singleton.
  - exact (bc_items _ _ _ B1 (SCol y)).
  - exact (bc_items _ _ _ B1 (SCell i y)).
Qed.

(** The whole of [typeSelect] for a row. *)
Lemma type_select_row st e k j p :
  select_wf st → sc_style (_select st) = "os"%js → indices_exact (ctx st) = true → aiDisplay (ctx st) !! p = Some k →
  ∃ st', typeSelect filter_nodes stale filter_heads filter_cells host_cell e Rows (k, j) st = Some st' ∧
    becomes st st' (with_rows (clicked st e k p) (item_sel st)).
Proof.
  intros Hw Ho He Hp. pose proof (displayed_lt st k p Hw Hp) as Hk.
  unfold typeSelect. rewrite Ho. change ("os"%js =s? "os"%js) with true.
  set (m := methods_of _ _ _ _ _ _ _ _).
  assert (this_one m (selected_opts true) st = Some (if row_sel st k then [row_found k] else [])) as ->.
  { cbn [methods_of this_one fst snd m]. rewrite first_row_get by (done || by right).
    by replace (bool_decide (selected_opts true = no_opts)) with false by (vm_compute; reflexivity). }
  cbn [mbind option_bind]. change (km_item m) with found. assert (any (if row_sel st k then [row_found k] else []) = row_sel st k) as -> by by destruct (row_sel st k).
  unfold clicked. destruct (ctrlKey e || metaKey e).
  { destruct (toggle_row_spec st k j (_select_lastCell st) Hw Ho He Hk) as (st' & E & B). exists st'. split; [exact E|].
    eapply becomes_ext; [|exact B]. intros [i|y|i y]; [|done..]. cbn. by case_decide; case_bool_decide. }
  destruct (shiftKey e); [by apply row_range_spec|]. cbn [m methods_of this_one all_selected do_deselect do_select fst snd].
  rewrite selected_rows_get by done. cbn [mbind option_bind]. rewrite first_row_get by (done || by left).
  rewrite bool_decide_eq_true_2 by done. cbn [orb mbind option_bind].
  change [row_found k] with (found_rows [k]). set (sel := List.filter (row_sel st) (aiDisplayMaster (ctx st))).
  assert (row_sel st k && (length (found_rows sel) =? 1) = bool_decide (sel = [k])) as ->.
  { unfold found_rows. rewrite length_fmap. apply eq_bool_prop_intro. rewrite bool_decide_spec, Is_true_true, andb_true_iff, Nat.eqb_eq.
    rewrite <- (selected_row_In st k Hw). fold sel. split; [|by intros ->; split; [left|]].
    intros [H1 H2]. destruct sel as [|x [|y l]]; try done. by apply list_elem_of_singleton in H1 as ->. }
  case_bool_decide as Hal.
  - destruct (os_deselect st [k] Hw ltac:(by constructor)) as (st' & E & B). exists st'. split; [exact E|]. eapply becomes_ext; [|exact B].
    intros [i|y|i y]; [|done..]. cbn. destruct (row_sel st i) eqn:Hi; [|done]. apply (selected_row_In st i Hw) in Hi. fold sel in Hi.
    rewrite Hal in Hi. by rewrite bool_decide_eq_false_2 by tauto.
  - destruct (select_only_spec st k Hw Ho Hk) as (st1 & st' & E1 & E & B). fold sel in E1. rewrite E1. by exists st'.
Qed.

(** C8: a click on a displayed row, with the keys that are held, selects exactly the rows that the
    style of operating systems says, never fails, leaves columns and cells alone and remembers
    the cell for the next range. *)
Theorem click_rows_correct st e k j p :
  select_wf st → sc_style (_select st) = "os"%js → sc_items (_select st) = Rows → indices_exact (ctx st) = true →
  aiDisplay (ctx st) !! p = Some k →
  ∃ st', on_click false true (Some (k, j)) false e st = Some st'
    ∧ (∀ i, row_sel st' i = clicked st e k p i)
    ∧ (∀ i, col_sel st' i = col_sel st i) ∧ (∀ i i', cell_sel st' i i' = cell_sel st i i')
    ∧ _select_lastCell st' = Some (k, j).
Proof.
  intros Hw Ho Hr He Hp. destruct (type_select_row st e k j p Hw Ho He Hp) as (st' & E & B).
  exists (set_lastCell (Some (k, j)) st'). unfold DtSelectMouse.on_click. cbn [orb negb]. rewrite Hr, E. cbn [mbind option_bind].
  pose proof (bc_items _ _ _ B) as H. split_and!; [done| | | |done]; intros.
  - exact (H (SRow i)).
  - exact (H (SCol i)).
  - exact (H (SCell i i')).
Qed.
End clicks.

Lemma lastCell_wf c st : select_wf st → select_wf (set_lastCell c st).
Proof. intros []. by split. Qed.

Example click_rows_correct_witness :
  let st := set_lastCell (Some (3, 0)) (sample_select "os"%js) in
  match DtSelectMouse.on_click (λ _ _, Some []) (λ _, FUndef) (λ _ _, Some []) (λ _ _, Some []) (λ _, None)
          false true (Some (1, 0)) false shift_click st with
  | Some st' => row_sel st' <$> [0; 1; 2; 3] = [false; true; false; true]
  | None => False
  end.
Proof.
  intros st. destruct (new_select_ok (default_config "os"%js) false shown_table shown_table_wf eq_refl) as [(Hw & _ & _) Hn].
  destruct (click_rows_correct (λ _ _, Some []) (λ _, FUndef) (λ _ _, Some []) (λ _ _, Some []) (λ _, None) st shift_click 1 0 1)
    as (st' & E & Hr & _).
  - by apply lastCell_wf.
  - reflexivity.
  - reflexivity.
  - vm_compute. reflexivity.
  - reflexivity.
  - rewrite E. assert (∀ l, row_sel st' <$> l = clicked st shift_click 1 1 <$> l) as H by (intros l; apply list_fmap_ext; intros _ x _; apply Hr).
    rewrite H. vm_compute. reflexivity.
Defined.
