(* ===== verification/DtSelectReload.v ===== *)
(** * What a reload keeps of a selection (dataTables.select.js)

    Before a request of the table the extension keeps the ids of the selected rows, and when the
    answer is drawn it selects the rows with these ids: the selection follows the ids. *)

From S2P Require Import Prelude JsString JsObject JsNumber JsValue JsInt DtUtil DtModel DtTypes DtSort DtPage DtData DtDraw DtDrawTheorems DtHeader DtColumns DtSelect DtSelectTheorems DtIds DtCells DtSelection DtSelectMouse DtSelectionTheorems DtSelectMarks DtSelectClicks.

Section reload.
Variable filter_nodes : item row_fn → list nat → option (list nat).
Variable stale : jstring → found.
Variable filter_heads : item column_fn → list nat → option (list nat).
Variable filter_cells : item unit → list (nat * nat) → option (list (nat * nat)).
Variable host_cell : node → option cell.
Variable rowIdFn : val → option jstring.
Abbreviation rows_get := (rows_get filter_nodes stale).
Abbreviation reload := (reload filter_nodes stale filter_heads filter_cells host_cell rowIdFn).

(** ** Adding the rows of the answer *)

(** No entry of the index refers to a row that is gone. *)
Definition ids_live (s : settings) : Prop := ∀ id, obj_get id (aIds s) ≠ Some None.

(** New rows come unselected, and the selection of the columns stays. *)
Definition unselected (st : select_state) : Prop := ∀ k, row_sel st k = false ∧ ∀ j, cell_sel st k j = false.

Lemma add_row_spec d st :
  select_ok st → ids_exact rowIdFn (ctx st) → ids_live (ctx st) → unselected st →
  (∀ id, rowIdFn d = Some id → id ∉ omap rowIdFn (_aData <$> aoData (ctx st))) →
  ∃ st' i s', add_row rowIdFn d st = Some st' ∧ _fnAddData rowIdFn d (ctx st) = Some (i, s') ∧ ctx st' = s'
    ∧ select_ok st' ∧ ids_exact rowIdFn s' ∧ ids_live s' ∧ unselected st'
    ∧ _aData <$> aoData s' = (_aData <$> aoData (ctx st)) ++ [d]
    ∧ (∀ j, col_sel st' j = col_sel st j) ∧ _select st' = _select st.
Proof.
  intros Hok Hids Hlive Hun Hfresh. destruct (add_ids rowIdFn d (ctx st) Hfresh Hids) as (s' & E & Hids' & D).
  assert (ids_live s') as Hlive'.
  { destruct (add_data_some rowIdFn d (ctx st)) as (s1 & E1 & _ & _ & _ & I). rewrite E in E1. injection E1 as <-.
    intros id. rewrite I. destruct (rowIdFn d); [rewrite obj_get_set; by case_decide|done]. }
  destruct (add_row rowIdFn d st) as [st'|] eqn:E'; [|unfold add_row in E'; by rewrite E in E'].
  exists st', (length (aoData (ctx st))), s'. pose proof (add_row_ok rowIdFn d st st' Hok E') as Hok'.
  unfold add_row in E'. rewrite E in E'. injection E' as <-. set (st1 := set_rows _ (set_ctx s' st)).
  assert (unselected st1) as Hun1.
  { intros k. destruct (Hun k) as [H1 H2]. unfold st1, row_sel, cell_sel in *. cbn. destruct (decide (k < length (rows_of_select st))) as [Hk|Hk].
    - by rewrite lookup_app_l.
    - rewrite lookup_app_r by lia. destruct (k - _) as [|[|?]]; done. }
  split_and!; try done; try (by destruct (_ || _)).
  destruct (_ || _); [done|]. intros k. destruct (Hun1 k) as [H1 H2]. unfold row_sel, cell_sel in *. rewrite upd_marks_lookup.
  case_decide; [|done]. by destruct (rows_of_select st1 !! k).
Qed.

Lemma add_rows_spec data st :
  select_ok st → ids_exact rowIdFn (ctx st) → ids_live (ctx st) → unselected st →
  NoDup (omap rowIdFn ((_aData <$> aoData (ctx st)) ++ data)) →
  ∃ st' il s', each (add_row rowIdFn) data st = Some st' ∧ rows_add rowIdFn data (ctx st) = Some (il, s') ∧ ctx st' = s'
    ∧ select_ok st' ∧ ids_exact rowIdFn s' ∧ ids_live s' ∧ unselected st'
    ∧ _aData <$> aoData s' = (_aData <$> aoData (ctx st)) ++ data
    ∧ (∀ j, col_sel st' j = col_sel st j) ∧ _select st' = _select st.
Proof.
  revert st. induction data as [|d data IH]; intros st Hok Hids Hlive Hun Hn.
  - exists st, [], (ctx st). rewrite app_nil_r. by split_and!.
  - destruct (add_row_spec d st) as (st1 & i & s1 & E1 & F1 & C1 & Hok1 & Hids1 & Hlive1 & Hun1 & D1 & Hc1 & Hs1); [done..| |].
    { intros id Hid Hin. rewrite omap_app in Hn. apply NoDup_app in Hn as (_ & Hd & _). apply (Hd id Hin).
      apply list_elem_of_omap. exists d. split; [by left|done]. }
    destruct (IH st1) as (st' & il & s' & E & F & C & H); [done|by rewrite C1|by rewrite C1|done|rewrite C1, D1; by rewrite <- app_assoc|].
    rewrite C1 in F. exists st', (i :: il), s'. cbn [each rows_add]. rewrite E1, F1. cbn [mbind option_bind]. rewrite E, F.
    destruct H as (H1 & H2 & H3 & H4 & H5 & H6 & H7). split_and!; try done.
    + rewrite H5, C1, D1. by rewrite <- app_assoc.
    + intros j. by rewrite H6, Hc1.
    + by rewrite H7, Hs1.
Qed.

Lemma clear_table_spec st :
  select_ok st → select_ok (clear_table st) ∧ ids_exact rowIdFn (ctx (clear_table st)) ∧ ids_live (ctx (clear_table st))
    ∧ unselected (clear_table st).
Proof.
  intros ([Ht Hs Hr Hc] & [Hm1 Hm2] & Hcb). split_and!; [split_and!; [split|split|]|..]; cbn; try done.
  - split; cbn; [done|constructor|constructor].
  - intros id k. cbn. split; [done|]. by intros (d & H & _).
Qed.

(** ** Selecting by ids *)

Lemma sublist_fmap_inv {A B} (f : A → B) l k : k `sublist_of` f <$> l → ∃ k', k = f <$> k' ∧ k' `sublist_of` l.
Proof.
  revert k. induction l as [|x l IH]; intros k H.
  - apply sublist_nil_r in H as ->. by exists [].
  - rewrite fmap_cons in H. apply sublist_cons_r in H as [H|(k2 & -> & H)].
    + destruct (IH k H) as (k' & -> & Hk). exists k'. split; [done|by apply sublist_cons].
    + destruct (IH k2 H) as (k' & -> & Hk). exists (x :: k'). split; [done|by apply sublist_skip].
Qed.

Definition hash_items (ids : list jstring) : selector row_fn := Several ((λ t, IVal (VStr ("#"%js ++ t))) <$> ids).

(** The rows of a table that have one of the ids. *)
Lemma hash_get st ids :
  select_wf st → ids_exact rowIdFn (ctx st) → ids_live (ctx st) → Forall plain_id ids →
  (∀ id, id ∈ ids → id ∉ omap rowIdFn (_aData <$> aoData (ctx st)) → ∀ l, filter_nodes (IVal (VStr ("#"%js ++ id))) l = Some []) →
  ∃ l, rows_get (hash_items ids) no_opts st = Some (found_rows l) ∧ Forall (λ k, k < length (aoData (ctx st))) l
    ∧ ∀ k, k ∈ l ↔ ∃ id d, id ∈ ids ∧ (_aData <$> aoData (ctx st)) !! k = Some d ∧ rowIdFn d = Some id.
Proof.
  intros Hw Hids Hlive Hplain Hengine.
  set (run := λ i s, l ← row_run filter_nodes stale (Some no_opts) i s; Some (l, s)).
  assert (∃ l, select_items run (selector_items (hash_items ids)) (ctx st) = Some (found_rows l, ctx st)
    ∧ ∀ k, k ∈ l ↔ ∃ id d, id ∈ ids ∧ (_aData <$> aoData (ctx st)) !! k = Some d ∧ rowIdFn d = Some id) as (l & E & Hl).
  { unfold selector_items, hash_items. induction Hplain as [|id ids Hp Hplain IH]; [exists []; split; [done|set_solver]|].
    destruct IH as (l & E & Hl); [intros id' Hin; apply Hengine; by right|]. rewrite fmap_cons. cbn [mbind list_bind].
    rewrite hash_item by done. match goal with |- context [select_items run ([?i] ++ ?m)] => change ([i] ++ m) with (i :: m) end. cbn [select_items].
    assert (∃ l0, run (IVal (VStr ("#"%js ++ id))) (ctx st) = Some (found_rows l0, ctx st)
      ∧ ∀ k, k ∈ l0 ↔ ∃ d, (_aData <$> aoData (ctx st)) !! k = Some d ∧ rowIdFn d = Some id) as (l0 & E0 & Hl0).
    { unfold run. destruct (obj_get id (aIds (ctx st))) as [[k|]|] eqn:Hid; [| by destruct (Hlive id)|].
      - pose proof (proj1 (Hids id k) Hid) as Hk. exists [k]. split.
        + by erewrite hash_run by (done || (by apply indexes_default; [apply Hw|left]) || by apply master_found).
        + intros i. rewrite list_elem_of_singleton. split; [by intros ->|]. intros Hi. apply Hids in Hi. congruence.
      - exists []. split.
        + unfold row_run. rewrite hash_no_number. change (default [] (Some no_opts)) with no_opts.
          rewrite indexes_default by (try apply Hw; by left). cbn [mbind option_bind].
          destruct (rows_at (ctx st) (aiDisplayMaster (ctx st))) as (rs & -> & _); [by apply master_found|]. cbn [mbind option_bind].
          change (falsy_item _) with false. cbn [row_pick app]. change ((35 =? 35)%N) with true. cbn iota. rewrite Hid.
          unfold filtered_nodes. change (35%N :: id) with ("#"%js ++ id). rewrite Hengine; [done|by left|].
          intros (d & Hd & Hdi)%list_elem_of_omap. apply list_elem_of_lookup in Hd as (k & Hk).
          assert (obj_get id (aIds (ctx st)) = Some (Some k)) as H by (apply Hids; by exists d). congruence.
        + intros k. split; [by intros ?%not_elem_of_nil|]. intros Hk. apply Hids in Hk. congruence. }
    exists (l0 ++ l). rewrite E0. cbn [mbind option_bind]. rewrite E. cbn [mbind option_bind]. split.
    - unfold found_rows. by rewrite fmap_app.
    - intros k. rewrite elem_of_app, Hl0, Hl. split.
      + intros [(d & H1 & H2)|(id' & d & H1 & H2 & H3)]; [exists id, d; split; [by left|done]|exists id', d; split; [by right|done]].
      + intros (id' & d & [->|H1]%elem_of_cons & H2 & H3); [left; by exists d|right; by exists id', d]. }
  assert (Forall (λ k, k < length (aoData (ctx st))) l) as Hlt.
  { apply Forall_forall. intros k Hk. apply Hl in Hk as (_ & d & _ & Hd & _). apply lookup_lt_Some in Hd. by rewrite length_fmap in Hd. }
  destruct (unique_spec (found_rows l)) as (H1 & H2 & H3).
  assert (∃ l', _unique strict_found (found_rows l) = found_rows l' ∧ ∀ k, k ∈ l' ↔ k ∈ l) as (l' & Hu & Hl').
  { apply sublist_fmap_inv in H3 as (l' & E' & Hs). exists l'. split; [done|]. intros k. rewrite <- !found_rows_In.
    unfold found_rows at 1. rewrite <- E'. apply H2. }
  exists l'. split_and!.
  - unfold DtSelection.rows_get, __row_selector, _selector_run. fold run. rewrite E. cbn [mbind option_bind fold_left].
    rewrite by_flag_none by done. cbn [mbind option_bind]. by rewrite Hu.
  - apply Forall_forall. intros k Hk%Hl'. rewrite Forall_forall in Hlt. by apply Hlt.
  - intros k. by rewrite Hl', Hl.
Qed.

(** ** The reload *)

Lemma none_kept {A} (g : A → bool) l : (∀ x, g x = false) → List.filter g l = [].
Proof. intros H. induction l as [|x l IH]; [done|]. cbn. by rewrite H. Qed.

(** What a redraw keeps: the data, the ids, the columns, and the displays stay well-formed. *)
Record redrawn (s s' : settings) : Prop := {
  rd_wf : table_wf s';
  rd_shape : shape s' = shape s;
  rd_data : _aData <$> aoData s' = _aData <$> aoData s;
  rd_ids : aIds s' = aIds s
}.

(** The ids of the selected rows, as the listener of [preXhr] keeps them. *)
Lemma kept_ids st l :
  (∀ k, k ∈ l → ∃ d id, (_aData <$> aoData (ctx st)) !! k = Some d ∧ rowIdFn d = Some id ∧ plain_id id) →
  ∃ ids, rows_ids rowIdFn true (ctx st) (found_rows l) = Some ((λ t, "#"%js ++ t) <$> ids) ∧ Forall plain_id ids
    ∧ ∀ id, id ∈ ids ↔ ∃ k d, k ∈ l ∧ (_aData <$> aoData (ctx st)) !! k = Some d ∧ rowIdFn d = Some id.
Proof.
  induction l as [|k l IH]; intros H; [exists []; split_and!; [done|constructor|set_solver]|].
  destruct IH as (ids & E & Hp & Hin); [intros i Hi; apply H; by right|].
  destruct (H k ltac:(by left)) as (d & id & Hd & Hid & Hplain). pose proof Hd as Hr. rewrite list_lookup_fmap in Hr.
  apply fmap_Some in Hr as (r & Hr & ->). exists (id :: ids). split_and!; [|by constructor|].
  - unfold rows_ids, found_rows in *. rewrite !fmap_cons. cbn [mapM]. rewrite row_at_nat, Hr. cbn [mbind option_bind].
    destruct (mapM (row_at (ctx st)) _) as [rs|]; [|done]. cbn [mbind option_bind] in E |- *. apply (inj Some) in E.
    cbn [mret option_ret mbind option_bind]. rewrite fmap_cons, E. cbn [snd]. by rewrite Hid.
  - intros id'. rewrite elem_of_cons, Hin. split.
    + intros [->|(i & d' & H1 & H2)]; [exists k, (_aData r); split; [by left|done]|exists i, d'; split; [by right|done]].
    + intros (i & d' & [->|H1]%elem_of_cons & H2 & H3); [left; congruence|right; by exists i, d'].
Qed.

(** C26: a reload of a table with row ids that need no escapes, in a style other than single and without
    selected cells, selects exactly the rows of the answer that have the id of a row that was selected before,
    wherever they are now; it never fails, keeps the selected columns and leaves the marks of all nodes right.
    *)
Theorem reload_keeps_selection redraw data st il s1 s2 :
  select_ok st → (sc_style (_select st) =s? "single"%js) = false → (∀ k j, cell_sel st k j = false) →
  (∀ k, row_sel st k = true → ∃ d id, (_aData <$> aoData (ctx st)) !! k = Some d ∧ rowIdFn d = Some id ∧ plain_id id) →
  NoDup (omap rowIdFn data) → rows_add rowIdFn data (_fnClearTable (ctx st)) = Some (il, s1) →
  redraw s1 = Some s2 → redrawn s1 s2 →
  (∀ id, id ∉ omap rowIdFn data → ∀ l, filter_nodes (IVal (VStr ("#"%js ++ id))) l = Some []) →
  ∃ st', reload redraw data st = Some st' ∧ select_ok st'
    ∧ (∀ k, row_sel st' k = true ↔ ∃ id d i d', data !! k = Some d ∧ rowIdFn d = Some id
        ∧ row_sel st i = true ∧ (_aData <$> aoData (ctx st)) !! i = Some d' ∧ rowIdFn d' = Some id)
    ∧ ∀ j, col_sel st' j = col_sel st j.
Proof.
  intros Hok Hstyle Hcells Hrows Hnd Hadd Hdraw [Rw Rs Rd Ri] Hengine. pose proof Hok as (Hw & _).
  unfold DtSelectMouse.reload, pre_xhr. rewrite selected_rows_get by done. cbn [mbind option_bind].
  set (sel := List.filter (row_sel st) (aiDisplayMaster (ctx st))).
  assert (∀ k, k ∈ sel ↔ row_sel st k = true) as Hsel by (intros k; by apply selected_row_In).
  destruct (kept_ids st sel) as (ids & Eids & Hplain & Hids); [by intros k Hk%Hsel; apply Hrows|]. rewrite Eids. cbn [mbind option_bind].
  rewrite selected_cells_get by done. rewrite (none_kept (λ c : nat * nat, cell_sel st c.1 c.2)) by (intros; apply Hcells).
  cbn [mbind option_bind mapM found_cells fmap list_fmap mret option_ret].
  destruct (clear_table_spec st Hok) as (Hok0 & Hids0 & Hlive0 & Hun0).
  destruct (add_rows_spec data (clear_table st) Hok0 Hids0 Hlive0 Hun0 Hnd) as (st1 & il' & s1' & -> & F & C1 & Hok1 & Hids1 & Hlive1 & Hun1 & D1 & Hcol1 & Hsel1).
  change (ctx (clear_table st)) with (_fnClearTable (ctx st)) in F. rewrite Hadd in F. injection F as <- <-.
  cbn [mbind option_bind]. rewrite C1, Hdraw. cbn [mbind option_bind]. change (_aData <$> aoData (ctx (clear_table st))) with (@nil val) in D1. cbn [app] in D1.
  set (st2 := note_nodes s2 st1). assert (select_ok st2) as Hok2.
  { apply note_nodes_ok; [done|done|by rewrite C1|]. apply (f_equal length) in Rd. rewrite !length_fmap in Rd. by rewrite C1. }
  assert (∀ k, row_sel st2 k = false) as Hnone.
  { intros k. destruct (Hun1 k) as [H _]. unfold row_sel in *. unfold st2, note_nodes. cbn. rewrite list_lookup_imap.
    destruct (rows_of_select st1 !! k) as [m|]; [|done]. cbn. by destruct (note_node_flags s2 st1 k m) as [-> _]. }
  assert (_aData <$> aoData (ctx st2) = data) as D2 by (change (ctx st2) with s2; by rewrite Rd).
  destruct (hash_get st2 ids) as (l & El & Hlt & Hl); [by destruct Hok2|by intros id k; change (ctx st2) with s2; rewrite Rd, Ri; apply Hids1| |done| |].
  { intros id. change (ctx st2) with s2. rewrite Ri. apply Hlive1. }
  { intros id _. rewrite D2. by apply Hengine. }
  destruct (os_select filter_nodes stale filter_heads filter_cells host_cell st2 l) as (st' & E' & B'); [by destruct Hok2| |done|].
  { intros a. unfold kept. change (_select st2) with (_select st1). rewrite Hsel1. change (_select (clear_table st)) with (_select st).
    by rewrite Hstyle, orb_true_r. }
  exists st'. unfold reselect. cbn [fst snd each]. rewrite <- list_fmap_compose. fold (hash_items ids).
  change (Several ((λ t, IVal (VStr t)) ∘ (λ t, "#"%js ++ t) <$> ids)) with (hash_items ids). rewrite El. cbn [mbind option_bind].
  rewrite E'. cbn [mbind option_bind]. split; [done|]. split; [eapply changes_ok; [by eexists|done]|]. split.
  - intros k. change (row_sel st' k) with (item_sel st' (SRow k)). rewrite (bc_items _ _ _ B'). cbn. rewrite Hnone. cbn [orb].
    rewrite bool_decide_eq_true, Hl, D2. split.
    + intros (id & d & (i & d' & Hi & Hd' & Hid')%Hids & Hd & Hid). apply Hsel in Hi. by exists id, d, i, d'.
    + intros (id & d & i & d' & Hd & Hid & Hi & Hd' & Hid'). exists id, d. split_and!; [|done|done]. apply Hids. exists i, d'.
      split; [by apply Hsel|done].
  - intros j. change (col_sel st' j) with (item_sel st' (SCol j)). rewrite (bc_items _ _ _ B'). exact (Hcol1 j).
Qed.
End reload.

(** A table with the rows "a" and "b", the second of which is selected, gets "b" and "z". *)
Definition reload_before : select_state := put_config (default_config "os"%js) false (new_select ids_table).
Definition reload_sample : select_state :=
  add_event (ESelect Rows 1) (upd_marks 1 (λ m, set_r_selected true (tr_class m) m) reload_before).
Definition redraw_all (s : settings) : option settings := Some (set_aiDisplay (aiDisplayMaster s) s).

Lemma reload_sample_ok : select_ok reload_sample.
Proof.
  destruct (new_select_ok (default_config "os"%js) false ids_table ids_table_wf eq_refl) as [H _].
  apply (apply_op_ok (λ _ _, Some []) (λ _, FUndef) (λ _ _, Some []) (λ _ _, Some []) (λ _, None) own_id
    (ORows None [row_found 1]) reload_before); [exact H|vm_compute; reflexivity].
Qed.

Example reload_keeps_selection_witness :
  ∃ st', DtSelectMouse.reload (λ _ _, Some []) (λ _, FUndef) (λ _ _, Some []) (λ _ _, Some []) (λ _, None) own_id redraw_all
           [VStr "b"%js; VStr "z"%js] reload_sample = Some st' ∧ row_sel st' 0 = true.
Proof.
  destruct (rows_add own_id [VStr "b"%js; VStr "z"%js] (_fnClearTable (ctx reload_sample))) as [[il s1]|] eqn:E; [|vm_compute in E; discriminate E].
  destruct (reload_keeps_selection (λ _ _, Some []) (λ _, FUndef) (λ _ _, Some []) (λ _ _, Some []) (λ _, None) own_id redraw_all
    [VStr "b"%js; VStr "z"%js] reload_sample il s1 (set_aiDisplay (aiDisplayMaster s1) s1)) as (st' & R & _ & H & _).
  - exact reload_sample_ok.
  - vm_compute. reflexivity.
  - intros [|[|k]] j; reflexivity.
  - intros [|[|k]] Hk; [discriminate Hk| |discriminate Hk]. exists (VStr "b"%js), "b"%js. split_and!; [reflexivity|reflexivity|].
    split; [apply (bool_decide_eq_true_1 _)|]; vm_compute; reflexivity.
  - apply (bool_decide_eq_true_1 _). vm_compute. reflexivity.
  - exact E.
  - reflexivity.
  - assert (s1 = s1) as _ by reflexivity. vm_compute in E. injection E as <- <-.
    split; [split; [reflexivity| |]|reflexivity|reflexivity|reflexivity];
      apply (bool_decide_eq_true_1 _) || apply (bool_decide_eq_true_1 (Forall _ _)); vm_compute; reflexivity.
  - intros; reflexivity.
  - exists st'. split; [exact R|]. apply H. exists "b"%js, (VStr "b"%js), 1, (VStr "b"%js). split_and!; reflexivity.
Defined.

(** ** What the extension gets wrong *)

(** Deselecting a cell of a row none of whose cells was ever selected is an exception. *)
Lemma cell_deselect_throws : cells_deselect [(row_found 0, row_found 0)] reload_before = None.
Proof. vm_compute. reflexivity. Qed.

(** A click for a range of cells is an exception when the page has selected cells and none was
    clicked before. *)
Lemma cell_range_throws :
  match cells_select (λ _ _, Some []) (λ _, FUndef) (λ _ _, Some []) (λ _ _, Some []) (λ _, None) None
          [(row_found 0, row_found 0)] (select_items_set Cells reload_before) with
  | Some st => DtSelectMouse.on_click (λ _ _, Some []) (λ _, FUndef) (λ _ _, Some []) (λ _ _, Some []) (λ _, None)
                 false true (Some (1, 0)) false shift_click st = None
  | None => False
  end.
Proof. vm_compute. reflexivity. Qed.

(** Reading the option [info] sets it to undefined. *)
Lemma info_read_erases : sc_info (_select reload_before) = VBool true ∧ sc_info (_select (select_info VUndef reload_before)) = VUndef.
Proof. split; reflexivity. Qed.

(** Every change of the style adds the callback for created rows, and the listeners, once more. *)
Lemma style_rebinds : row_callbacks (select_style_set "single"%js reload_before) = S (row_callbacks reload_before).
Proof. reflexivity. Qed.
