(* ===== verification/DtOptions.v ===== *)
(** * Options of a table (DataTables-1.10.12/js/jquery.dataTables.js)

    The two spellings of the options, with a prefix for the type and in camel case: the map from one to
    the other, the conversion of what the page gives, the names of older releases, and the options that
    a new table ends up with.  Options are data: functions and nodes, which are only passed on, have no
    place in the values.  [None] stands for an exception; an array or a text where an object of options is
    expected, and members with the names that every object has, are left out. *)

From S2P Require Import Prelude JsString JsObject JsNumber JsValue JqExtend.

Abbreviation get k o := (default VUndef (obj_get k o)).

(** ** The map of the names *)

Definition is_upper (u : N) : bool := ((65 <=? u) && (u <=? 90))%N.

(** What precedes the first capital letter, the letter, and what follows. *)
Fixpoint split_upper (key : jstring) : option (jstring * N * jstring) :=
  match key with
  | [] => None
  | u :: key =>
      if is_upper u then Some ([], u, key)
      else '(p, c, rest) ← split_upper key; Some (u :: p, c, rest)
  end.

Definition hungarian : jstring := "a aa ai ao as b fn i m o s "%js.

(** The prefix of a name, and the name in camel case. *)
Definition hungarian_key (key : jstring) : option (jstring * jstring) :=
  '(p, c, rest) ← split_upper key;
  if negb (p =s? []) && contains (p ++ " "%js) hungarian then Some (p, (c + 32)%N :: rest) else None.

(** An object with a [length] that [$.each] counts to: nothing, or its numbers. *)
Inductive counted := ByKeys | Nothing | Numbers.
Definition isArraylike (o : jsobj val) : counted :=
  match obj_get "length"%js o with
  | Some (VNum (S754_zero _)) => Nothing
  | Some (VNum x) =>
      if flt (S754_zero false) x && bool_decide (num_to_string (fsub x (num_of_Z 1)) ∈ obj_keys o) then Numbers else ByKeys
  | _ => ByKeys
  end.

(** The property [_hungarianMap] of an object, and those of the objects in it. *)
Inductive hung := Hung (h_map : jsobj jstring) (h_subs : jsobj hung).

Definition h_map (h : hung) : jsobj jstring := match h with Hung m _ => m end.
Definition h_subs (h : hung) : jsobj hung := match h with Hung _ s => s end.

Definition add_hungarian (subs : jsobj (option hung)) (acc : option hung) (key : jstring) : option hung :=
  acc ← acc;
  match hungarian_key key with
  | None => Some acc
  | Some (p, newKey) =>
      if p =s? "o"%js then
        sub ← obj_get key subs; sub ← sub;
        Some (Hung (obj_set newKey key (h_map acc)) (obj_set key sub (h_subs acc)))
      else Some (Hung (obj_set newKey key (h_map acc)) (h_subs acc))
  end.

(** [_fnHungarianMap]: it fails for null and for what has no members. *)
Fixpoint _fnHungarianMap (o : val) : option hung :=
  match o with
  | VObj m =>
      let subs := map (λ kv : jstring * val, (kv.1, _fnHungarianMap kv.2)) m in
      match isArraylike m with
      | ByKeys => foldl (add_hungarian subs) (Some (Hung [] [])) (for_in m)
      | Nothing => Some (Hung [] [])
      | Numbers => None
      end
  | VArr [] => Some (Hung [] [])
  | _ => None
  end.

(** ** The conversion *)

(** The members of an object are copied onto an object; a primitive has none. *)
Definition merge_onto (target options : val) : option val :=
  match target, options with
  | VObj t, VObj o => Some (VObj (extend true t o))
  | VObj t, (VUndef | VNull | VBool _ | VNum _) => Some target
  | _, _ => None
  end.

(** One member of the options of the page. *)
Definition convert_key (subs : jsobj (val → option val)) (hmap : jsobj jstring) (force : bool) (user : option (jsobj val)) (key : jstring)
    : option (jsobj val) :=
  user ← user;
  match obj_get key hmap with
  | None => Some user
  | Some hungarianKey =>
      if force || is_undef (get hungarianKey user) then
        if starts_with "o"%js hungarianKey then
          let user := if truthy (get hungarianKey user) then user else obj_set hungarianKey (VObj []) user in
          v ← merge_onto (get hungarianKey user) (get key user);
          f ← obj_get hungarianKey subs;
          v ← f v;
          Some (obj_set hungarianKey v user)
        else Some (obj_set hungarianKey (get key user) user)
      else Some user
  end.

(** [_fnCamelToHungarian] *)
Fixpoint _fnCamelToHungarian (src : hung) (force : bool) (user : val) : option val :=
  match src with
  | Hung m s =>
      let subs := map (λ kv : jstring * hung, (kv.1, _fnCamelToHungarian kv.2 force)) s in
      match user with
      | VObj u =>
          match isArraylike u with
          | ByKeys => VObj <$> foldl (convert_key subs m force) (Some u) (for_in u)
          | _ => Some user
          end
      | VUndef | VNull | VStr (_ :: _) => None
      | _ => Some user
      end
  end.

(** ** Names of older releases *)

Definition _fnCompatMap (knew old : jstring) (o : jsobj val) : jsobj val :=
  if is_undef (get knew o) then o else obj_set old (get knew o) o.

Definition compat_names : list (jstring * jstring) :=
  [("ordering"%js, "bSort"%js); ("orderMulti"%js, "bSortMulti"%js); ("orderClasses"%js, "bSortClasses"%js);
   ("orderCellsTop"%js, "bSortCellsTop"%js); ("order"%js, "aaSorting"%js); ("orderFixed"%js, "aaSortingFixed"%js);
   ("paging"%js, "bPaginate"%js); ("pagingType"%js, "sPaginationType"%js); ("pageLength"%js, "iDisplayLength"%js);
   ("searching"%js, "bFilter"%js)].

(** A boolean for the horizontal scrolling. *)
Definition scroll_text (k : jstring) (o : jsobj val) : jsobj val :=
  match get k o with
  | VBool b => obj_set k (VStr (if b then "100%"%js else [])) o
  | _ => o
  end.

Definition search_col (oSearch : hung) (v : val) : option val := if truthy v then _fnCamelToHungarian oSearch false v else Some v.

(** [_fnCompatOpts]; [oSearch]: the names of [DataTable.models.oSearch]. *)
Definition _fnCompatOpts (oSearch : hung) (init : jsobj val) : option (jsobj val) :=
  let init := foldl (λ o kk, _fnCompatMap kk.1 kk.2 o) init compat_names in
  let init := scroll_text "scrollX"%js (scroll_text "sScrollX"%js init) in
  match get "aoSearchCols"%js init with
  | VArr l => l ← mapM (search_col oSearch) l; Some (obj_set "aoSearchCols"%js (VArr l) init)
  | VStr (_ :: _) => None
  | VObj o => if is_undef (get "length"%js o) then Some init else None
  | _ => Some init
  end.

(** [_fnCompatCols] *)
Definition _fnCompatCols (init : jsobj val) : jsobj val :=
  let init := foldl (λ o kk, _fnCompatMap kk.1 kk.2 o) init
    [("orderable"%js, "bSortable"%js); ("orderData"%js, "aDataSort"%js); ("orderSequence"%js, "asSorting"%js); ("orderDataType"%js, "sortDataType"%js)] in
  let dataSort := get "aDataSort"%js init in
  match dataSort with
  | VArr _ => init
  | _ => if truthy dataSort then obj_set "aDataSort"%js (VArr [dataSort]) init else init
  end.

(** [_fnMap] with one name *)
Definition _fnMap (src : jsobj val) (name mappedName : jstring) (ret : jsobj val) : jsobj val :=
  if is_undef (get name src) then ret else obj_set mappedName (get name src) ret.

(** [_fnLanguageCompat]: the language, and the decimal point to register, if any. *)
Definition _fnLanguageCompat (defaults lang : jsobj val) : jsobj val * option val :=
  let zeroRecords := truthy (get "sZeroRecords"%js lang) in
  let lang :=
    if negb (truthy (get "sEmptyTable"%js lang)) && zeroRecords
       && val_eqb (get "sEmptyTable"%js defaults) (VStr "No data available in table"%js)
    then _fnMap lang "sZeroRecords"%js "sEmptyTable"%js lang else lang in
  let lang :=
    if negb (truthy (get "sLoadingRecords"%js lang)) && zeroRecords
       && val_eqb (get "sLoadingRecords"%js defaults) (VStr "Loading..."%js)
    then _fnMap lang "sZeroRecords"%js "sLoadingRecords"%js lang else lang in
  let lang := if truthy (get "sInfoThousands"%js lang) then obj_set "sThousands"%js (get "sInfoThousands"%js lang) lang else lang in
  let decimal := get "sDecimal"%js lang in
  (lang, if truthy decimal then Some decimal else None).

(** ** The options of a new table *)

(** [_fnExtend]; a copy of an array is the same tree, whether references are broken or not. *)
Definition extend_member (extender out : jsobj val) (prop : jstring) : jsobj val :=
  match get prop extender with
  | VObj o => obj_set prop (VObj (extend true (match get prop out with VObj t => t | _ => [] end) o)) out
  | v => obj_set prop v out
  end.
Definition _fnExtend (out extender : jsobj val) : jsobj val := foldl (extend_member extender) out (for_in extender).

(** The page length from the length menu. *)
Definition menu_length (oInit : jsobj val) : option (jsobj val) :=
  let menu := get "aLengthMenu"%js oInit in
  if truthy menu && negb (truthy (get "iDisplayLength"%js oInit)) then
    match menu with
    | VArr l =>
        let v := match head l with Some (VArr l') => default VUndef (head l') | Some v => v | None => VUndef end in
        Some (obj_set "iDisplayLength"%js v oInit)
    | _ => None
    end
  else Some oInit.

(** The language of the page, if it gives one. *)
Definition compat_language (defaults oInit : jsobj val) : jsobj val :=
  match get "oLanguage"%js oInit, get "oLanguage"%js defaults with
  | VObj lang, VObj dlang => obj_set "oLanguage"%js (VObj (_fnLanguageCompat dlang lang).1) oInit
  | _, _ => oInit
  end.

(** What the constructor does to the options of the page and the data attributes of the table, given the
    names [src] and [oSearch] and the defaults, after their own conversion. *)
Definition init_options (src oSearch : hung) (defaults oInit data : jsobj val) : option (jsobj val) :=
  match _fnCamelToHungarian src false (VObj (extend false oInit data)) with
  | Some (VObj oInit) =>
      match _fnCompatOpts oSearch oInit with
      | Some oInit =>
          match menu_length (compat_language defaults oInit) with
          | Some oInit => Some (_fnExtend (extend true [] defaults) oInit)
          | None => None
          end
      | None => None
      end
  | _ => None
  end.

(** The conversion of the defaults themselves, which every construction repeats. *)
Definition init_defaults (src oSearch : hung) (defaults : jsobj val) : option (jsobj val) :=
  defaults ← _fnCompatOpts oSearch defaults;
  v ← _fnCamelToHungarian src true (VObj defaults);
  match v with VObj o => Some o | _ => None end.

(** ** The defaults

    Without the three members that are functions, [fnFormatNumber] and the callbacks of the state. *)

Definition default_search : jsobj val :=
  [("bCaseInsensitive"%js, VBool true); ("sSearch"%js, VStr []); ("bRegex"%js, VBool false); ("bSmart"%js, VBool true)].

Definition default_language : jsobj val :=
  [("oAria"%js, VObj [("sSortAscending"%js, VStr ": activate to sort column ascending"%js); ("sSortDescending"%js, VStr ": activate to sort column descending"%js)]);
   ("oPaginate"%js, VObj [("sFirst"%js, VStr "First"%js); ("sLast"%js, VStr "Last"%js); ("sNext"%js, VStr "Next"%js); ("sPrevious"%js, VStr "Previous"%js)]);
   ("sEmptyTable"%js, VStr "No data available in table"%js); ("sInfo"%js, VStr "Showing _START_ to _END_ of _TOTAL_ entries"%js);
   ("sInfoEmpty"%js, VStr "Showing 0 to 0 of 0 entries"%js); ("sInfoFiltered"%js, VStr "(filtered from _MAX_ total entries)"%js);
   ("sInfoPostFix"%js, VStr []); ("sDecimal"%js, VStr []); ("sThousands"%js, VStr ","%js); ("sLengthMenu"%js, VStr "Show _MENU_ entries"%js);
   ("sLoadingRecords"%js, VStr "Loading..."%js); ("sProcessing"%js, VStr "Processing..."%js); ("sSearch"%js, VStr "Search:"%js);
   ("sSearchPlaceholder"%js, VStr []); ("sUrl"%js, VStr []); ("sZeroRecords"%js, VStr "No matching records found"%js)].

Definition defaults : jsobj val :=
  [("aaData"%js, VNull); ("aaSorting"%js, VArr [VArr [VNum (num_of_Z 0); VStr "asc"%js]]); ("aaSortingFixed"%js, VArr []);
   ("ajax"%js, VNull);
   ("aLengthMenu"%js, VArr [VNum (num_of_Z 10); VNum (num_of_Z 25); VNum (num_of_Z 50); VNum (num_of_Z 100)]);
   ("aoColumns"%js, VNull); ("aoColumnDefs"%js, VNull); ("aoSearchCols"%js, VArr []); ("asStripeClasses"%js, VNull);
   ("bAutoWidth"%js, VBool true); ("bDeferRender"%js, VBool false); ("bDestroy"%js, VBool false); ("bFilter"%js, VBool true);
   ("bInfo"%js, VBool true); ("bJQueryUI"%js, VBool false); ("bLengthChange"%js, VBool true); ("bPaginate"%js, VBool true);
   ("bProcessing"%js, VBool false); ("bRetrieve"%js, VBool false); ("bScrollCollapse"%js, VBool false);
   ("bServerSide"%js, VBool false); ("bSort"%js, VBool true); ("bSortMulti"%js, VBool true); ("bSortCellsTop"%js, VBool false);
   ("bSortClasses"%js, VBool true); ("bStateSave"%js, VBool false); ("fnCreatedRow"%js, VNull); ("fnDrawCallback"%js, VNull);
   ("fnFooterCallback"%js, VNull); ("fnHeaderCallback"%js, VNull); ("fnInfoCallback"%js, VNull); ("fnInitComplete"%js, VNull);
   ("fnPreDrawCallback"%js, VNull); ("fnRowCallback"%js, VNull); ("fnServerData"%js, VNull); ("fnServerParams"%js, VNull);
   ("fnStateLoadParams"%js, VNull); ("fnStateLoaded"%js, VNull); ("fnStateSaveParams"%js, VNull);
   ("iStateDuration"%js, VNum (num_of_Z 7200)); ("iDeferLoading"%js, VNull); ("iDisplayLength"%js, VNum (num_of_Z 10));
   ("iDisplayStart"%js, VNum (num_of_Z 0)); ("iTabIndex"%js, VNum (num_of_Z 0)); ("oClasses"%js, VObj []);
   ("oLanguage"%js, VObj default_language); ("oSearch"%js, VObj default_search); ("sAjaxDataProp"%js, VStr "data"%js);
   ("sAjaxSource"%js, VNull); ("sDom"%js, VStr "lfrtip"%js); ("searchDelay"%js, VNull);
   ("sPaginationType"%js, VStr "simple_numbers"%js); ("sScrollX"%js, VStr []); ("sScrollXInner"%js, VStr []);
   ("sScrollY"%js, VStr []); ("sServerMethod"%js, VStr "GET"%js); ("renderer"%js, VNull); ("rowId"%js, VStr "DT_RowId"%js)].

(** Every name of the defaults has its own name in camel case. *)
Example defaults_names :
  length ∘ h_map <$> _fnHungarianMap (VObj defaults) = Some (length defaults - 4)
  ∧ (λ h, obj_get "language"%js (h_map h)) <$> _fnHungarianMap (VObj defaults) = Some (Some "oLanguage"%js).
Proof. vm_compute. split; reflexivity. Qed.
