(* ===== verification/DtOptionsTheorems.v ===== *)
(** * Correctness of the options of a table (DataTables-1.10.12/js/jquery.dataTables.js)

    The conversion of the names gives every option that the page set under its name in camel case to its
    member with the prefix and changes no other; a new table gets what the page set, or the default. *)

From S2P Require Import Prelude JsString JsObject JsNumber JsValue JqExtend DtOptions.

(** ** Names *)

(** The names in camel case belong to names with the prefix that they are made from. *)
Definition names_ok (h : hung) : Prop := ∀ ck hk, obj_get ck (h_map h) = Some hk → ∃ p, hungarian_key hk = Some (p, ck).

Lemma add_hungarian_ok subs ks acc h :
  names_ok acc → foldl (add_hungarian subs) (Some acc) ks = Some h → names_ok h.
Proof.
  revert acc. induction ks as [|k ks IH]; intros acc Ha; cbn [foldl]; [by intros [= <-]|].
  assert (∀ o, o = add_hungarian subs (Some acc) k → match o with Some a => names_ok a | None => True end) as Hstep.
  { intros o ->. unfold add_hungarian. cbn [mbind option_bind]. destruct (hungarian_key k) as [[p ck]|] eqn:E; [|done].
    assert (∀ s, names_ok (Hung (obj_set ck k (h_map acc)) s)) as Hn.
    { intros s ck' hk. cbn [h_map]. rewrite obj_get_set. case_decide; [intros [= <-]; subst; by eexists|apply Ha]. }
    destruct (p =s? "o"%js); [|apply Hn]. destruct (obj_get k subs) as [[sub|]|]; cbn [mbind option_bind]; [apply Hn|done|done]. }
  specialize (Hstep _ eq_refl). destruct (add_hungarian subs (Some acc) k) as [a|].
  - by apply IH.
  - intros Hf. exfalso. clear -Hf. induction ks as [|k ks IH]; [done|]. by apply IH.
Qed.

Lemma names_made o h : _fnHungarianMap o = Some h → names_ok h.
Proof.
  assert (names_ok (Hung [] [])) as H0 by done.
  destruct o as [| | | | |l|m]; cbn [_fnHungarianMap]; try done; [destruct l; [by intros [= <-]|done]|].
  destruct (isArraylike m); [by apply add_hungarian_ok|by intros [= <-]|done].
Qed.

(** No name is both of one kind and of the other. *)
Definition names_apart (h : hung) : Prop := ∀ ck hk, obj_get ck (h_map h) = Some hk → obj_get hk (h_map h) = None.

Lemma names_differ h ck hk ck' hk' :
  names_ok h → names_apart h → obj_get ck (h_map h) = Some hk → obj_get ck' (h_map h) = Some hk' →
  hk ≠ ck' ∧ (ck ≠ ck' → hk ≠ hk').
Proof.
  intros Ho Ha H1 H2. split; [intros ->; by rewrite (Ha _ _ H1) in H2|]. intros Hne ->.
  destruct (Ho _ _ H1) as [p E1], (Ho _ _ H2) as [p' E2]. congruence.
Qed.

(** ** One conversion *)

Section convert.
Context (h : hung) (force : bool) (Hok : names_ok h) (Hapart : names_apart h).
Abbreviation subs := (map (λ kv : jstring * hung, (kv.1, _fnCamelToHungarian kv.2 force)) (h_subs h)).

(** The member is converted at all. *)
Definition applies (u : jsobj val) (hk : jstring) : bool := force || is_undef (get hk u).

(** The value that an option gets from the one in camel case. *)
Definition conversion (u : jsobj val) (ck hk : jstring) : option val :=
  if starts_with "o"%js hk then
    m ← merge_onto (if truthy (get hk u) then get hk u else VObj []) (get ck u);
    f ← obj_get hk (h_subs h);
    _fnCamelToHungarian f force m
  else Some (get ck u).

Lemma convert_one u ck hk :
  obj_get ck (h_map h) = Some hk → ck ≠ hk →
  convert_key subs (h_map h) force (Some u) ck
  = if applies u hk then
      v ← conversion u ck hk;
      Some (obj_set hk v (if starts_with "o"%js hk && negb (truthy (get hk u)) then obj_set hk (VObj []) u else u))
    else Some u.
Proof.
  intros E Hne. unfold convert_key, applies, conversion. cbn [mbind option_bind]. rewrite E. destruct (force || is_undef (get hk u)); [|done].
  destruct (starts_with "o"%js hk); cbn [andb mbind option_bind]; [|done].
  rewrite (obj_get_map (λ f, _fnCamelToHungarian f force)). destruct (truthy (get hk u)) eqn:Et; cbn [negb].
  - destruct (merge_onto (get hk u) (get ck u)) as [m|]; [|done]. cbn [mbind option_bind]. by destruct (obj_get hk (h_subs h)).
  - rewrite (obj_get_set hk), decide_True by done. rewrite (obj_get_set ck), decide_False by done. cbn [default from_option id].
    destruct (merge_onto (VObj []) (get ck u)) as [m|]; [|done]. cbn [mbind option_bind]. by destruct (obj_get hk (h_subs h)).
Qed.

(** Same members as far as the options [ck] of a list are concerned. *)
Lemma convert_all ks u :
  NoDup ks →
  (∀ ck hk, ck ∈ ks → obj_get ck (h_map h) = Some hk → applies u hk = true → is_Some (conversion u ck hk)) →
  ∃ u', foldl (convert_key subs (h_map h) force) (Some u) ks = Some u'
    ∧ (∀ k, (∀ ck, ck ∈ ks → obj_get ck (h_map h) ≠ Some k) → obj_get k u' = obj_get k u)
    ∧ ∀ ck hk, ck ∈ ks → obj_get ck (h_map h) = Some hk → obj_get hk u' = if applies u hk then conversion u ck hk else obj_get hk u.
Proof.
  intros Hn. revert u. induction Hn as [|k ks Hk Hn IH]; intros u Hc.
  - exists u. split_and!; [done|done|]. intros ck hk. by intros ?%elem_of_nil.
  - assert (∃ u1, convert_key subs (h_map h) force (Some u) k = Some u1
      ∧ (∀ x, obj_get k (h_map h) ≠ Some x → obj_get x u1 = obj_get x u)
      ∧ ∀ hk, obj_get k (h_map h) = Some hk → obj_get hk u1 = if applies u hk then conversion u k hk else obj_get hk u) as (u1 & E1 & Ho & H1).
    { destruct (obj_get k (h_map h)) as [hk|] eqn:Ek; [|exists u; unfold convert_key; cbn [mbind option_bind]; rewrite Ek; by split_and!].
      assert (k ≠ hk) as Hne by (apply not_eq_sym; by destruct (names_differ h k hk k hk Hok Hapart Ek Ek)).
      rewrite (convert_one u k hk Ek Hne). destruct (applies u hk) eqn:Ea.
      - destruct (Hc k hk ltac:(by left) Ek Ea) as [v Hv]. rewrite Hv. cbn [mbind option_bind]. eexists. split; [done|]. split.
        + intros x Hx. rewrite obj_get_set, decide_False by congruence. destruct (_ && _); [|done]. by rewrite obj_get_set, decide_False by congruence.
        + intros hk' [= <-]. by rewrite obj_get_set, decide_True, Ea.
      - exists u. split_and!; [done|done|]. by intros hk' [= <-]; rewrite Ea. }
    cbn [foldl]. rewrite E1.
    assert (∀ ck hk, ck ∈ ks → obj_get ck (h_map h) = Some hk → obj_get hk u1 = obj_get hk u ∧ obj_get ck u1 = obj_get ck u) as Hsame.
    { intros ck hk Hck E. split; apply Ho; intros E'; destruct (names_differ h k _ ck _ Hok Hapart E' E) as [H2 H3]; [|done].
      apply H3; [|done]. by intros ->. }
    assert (∀ ck hk, ck ∈ ks → obj_get ck (h_map h) = Some hk → applies u1 hk = applies u hk ∧ conversion u1 ck hk = conversion u ck hk) as Hsame2.
    { intros ck hk Hck E. destruct (Hsame ck hk Hck E) as [E2 E3]. unfold applies, conversion. by rewrite E2, E3. }
    destruct (IH u1) as (u' & E2 & Ho2 & H2).
    { intros ck hk Hck E. destruct (Hsame2 ck hk Hck E) as [-> ->]. apply Hc; [by right|done]. }
    exists u'. split; [exact E2|]. split.
    + intros x Hx. rewrite Ho2 by (intros ck Hck; apply Hx; by right). apply Ho. apply Hx. by left.
    + intros ck hk [->|Hck]%elem_of_cons E.
      * rewrite <- (H1 hk E). apply Ho2. intros ck Hck E'. destruct (names_differ h k hk ck hk Hok Hapart E E') as [_ H3]. apply H3; [|done]. by intros ->.
      * rewrite (H2 ck hk Hck E). destruct (Hsame2 ck hk Hck E) as [-> ->], (Hsame ck hk Hck E) as [-> _]. done.
Qed.
End convert.

(** ** The conversion of the options of the page *)

(** What the conversion of the member [hk] of [u] needs: nothing unless it is an object. *)
Definition convertible (h : hung) (force : bool) (u : jsobj val) : Prop :=
  ∀ ck hk c, obj_get ck u = Some c → obj_get ck (h_map h) = Some hk → applies force u hk = true → is_Some (conversion h force u ck hk).

Lemma convert_members h force u :
  names_ok h → names_apart h → NoDup (obj_keys u) → isArraylike u = ByKeys → convertible h force u →
  ∃ u', _fnCamelToHungarian h force (VObj u) = Some (VObj u')
    ∧ (∀ k, (∀ ck, obj_get ck (h_map h) = Some k → obj_get ck u = None) → obj_get k u' = obj_get k u)
    ∧ (∀ ck hk c, obj_get ck (h_map h) = Some hk → obj_get ck u = Some c →
        obj_get hk u' = if applies force u hk then conversion h force u ck hk else obj_get hk u).
Proof.
  intros Hok Ha Hn Hl Hc. destruct (convert_all h force Hok Ha (for_in u) u (for_in_NoDup _ Hn)) as (u' & E & Ho & H1).
  { intros ck hk Hin%elem_of_for_in%obj_get_keys. destruct Hin as [c Ec]. by eapply Hc. }
  exists u'. split; [|split].
  - destruct h as [m s]. cbn [_fnCamelToHungarian h_map h_subs] in *. rewrite Hl, E. done.
  - intros k Hk. apply Ho. intros ck Hin E'. apply elem_of_for_in, obj_get_keys in Hin as [c Ec]. by rewrite (Hk ck E') in Ec.
  - intros ck hk c Em Ec. apply H1; [|done]. apply elem_of_for_in, obj_get_keys. by eexists.
Qed.

(** The conversion of options returns, if that of the objects among them does, and gives each option that the page
    set in camel case to the member with the prefix, unless that one is set and not to be overwritten: objects
    merged into it and conversion in turn, other values as they are.  No other member changes. *)
Theorem convert_correct d h force u :
  _fnHungarianMap (VObj d) = Some h → names_apart h → NoDup (obj_keys u) → isArraylike u = ByKeys → convertible h force u →
  ∃ u', _fnCamelToHungarian h force (VObj u) = Some (VObj u')
    ∧ (∀ k, (∀ ck, obj_get ck (h_map h) = Some k → obj_get ck u = None) → obj_get k u' = obj_get k u)
    ∧ (∀ ck hk c, obj_get ck (h_map h) = Some hk → obj_get ck u = Some c →
        obj_get hk u' =
          if negb force && negb (is_undef (get hk u)) then obj_get hk u
          else if starts_with "o"%js hk then
            m ← merge_onto (if truthy (get hk u) then get hk u else VObj []) c;
            f ← obj_get hk (h_subs h);
            _fnCamelToHungarian f force m
          else Some c).
Proof.
  intros Hh Ha Hn Hl Hc. destruct (convert_members h force u (names_made _ _ Hh) Ha Hn Hl Hc) as (u' & E & Ho & H1).
  exists u'. split; [done|]. split; [done|]. intros ck hk c Em Ec. rewrite (H1 ck hk c Em Ec). unfold applies, conversion. rewrite Ec. cbn [default from_option id].
  by destruct force, (is_undef (get hk u)).
Qed.

(** ** The options of a new table *)

Lemma compat_other l o k : k ∉ l.*2 → obj_get k (foldl (λ o kk, _fnCompatMap kk.1 kk.2 o) o l) = obj_get k o.
Proof.
  revert o. induction l as [|[knew old] l IH]; intros o Hk; [done|]. cbn [foldl]. apply not_elem_of_cons in Hk as [Hk1 Hk2]. rewrite IH by done.
  unfold _fnCompatMap. cbn [fst snd]. destruct (is_undef _); [done|]. by rewrite obj_get_set, decide_False.
Qed.

Lemma compat_this l o knew k :
  NoDup l.*2 → (∀ x, x ∈ l.*1 → x ∉ l.*2) → (knew, k) ∈ l →
  obj_get k (foldl (λ o kk, _fnCompatMap kk.1 kk.2 o) o l) = if is_undef (get knew o) then obj_get k o else obj_get knew o.
Proof.
  revert o. induction l as [|[a b] l IH]; intros o Hn Hd Hin; [by apply elem_of_nil in Hin|]. cbn [foldl fmap list_fmap fst snd] in *.
  apply NoDup_cons in Hn as [Hb Hn]. apply elem_of_cons in Hin as [[= -> ->]|Hin].
  - rewrite compat_other by done. unfold _fnCompatMap. cbn [fst snd]. destruct (obj_get a o) as [v|] eqn:E; cbn [default from_option id]; [|done].
    destruct (is_undef v); [done|]. by rewrite obj_get_set, decide_True.
  - assert (knew ∈ l.*1 ∧ k ∈ l.*2) as [H1 H2] by (split; [by apply (list_elem_of_fmap_2 fst l (knew, k))|by apply (list_elem_of_fmap_2 snd l (knew, k))]).
    rewrite IH; [|done|intros x Hx; pose proof (Hd x ltac:(by right)); set_solver|done].
    assert (k ≠ b ∧ knew ≠ b) as [Hkb Hnb] by (split; [by intros ->|intros ->; apply (Hd b); [by right|by left]]).
    unfold _fnCompatMap. cbn [fst snd]. destruct (is_undef (get a o)); [done|]. by rewrite !obj_get_set, !decide_False.
Qed.

Lemma scroll_other k k' o : k ≠ k' → obj_get k (scroll_text k' o) = obj_get k o.
Proof. intros H. unfold scroll_text. destruct (get k' o); try done. by rewrite obj_get_set, decide_False. Qed.

Lemma extend_member_get out extender k :
  NoDup (obj_keys extender) →
  obj_get k (_fnExtend out extender)
  = match obj_get k extender with
    | Some (VObj o) => Some (VObj (extend true (match get k out with VObj t => t | _ => [] end) o))
    | Some v => Some v
    | None => obj_get k out
    end.
Proof.
  intros Hn. unfold _fnExtend.
  pose (f := λ name src, match get name extender with VObj o => Some (VObj (extend true (match src with VObj t => t | _ => [] end) o)) | v => Some v end).
  assert (∀ ks t, foldl (extend_member extender) t ks
    = foldl (λ t name, match f name (default VUndef (obj_get name t)) with Some v => obj_set name v t | None => t end) t ks) as ->.
  { intros ks. induction ks as [|x ks IH]; intros t; [done|]. cbn [foldl]. rewrite <- IH. f_equal. unfold extend_member, f. by destruct (get x extender). }
  pose proof (fold_members f (for_in extender) out k (for_in_NoDup _ Hn)) as H. cbv zeta in H. rewrite H. unfold f.
  destruct (obj_get k extender) as [v|] eqn:E.
  - rewrite decide_True by (apply elem_of_for_in, obj_get_keys; by eexists). cbn [default from_option id]. by destruct v.
  - rewrite decide_False; [done|]. intros Hin%elem_of_for_in%obj_get_keys. rewrite E in Hin. by destruct Hin.
Qed.

(** What the page gave for an option with the prefix or, unless it did, in camel case. *)
Definition given (u : jsobj val) (ck hk : jstring) : option val :=
  if is_undef (get hk u) then match obj_get ck u with Some v => Some v | None => obj_get hk u end else obj_get hk u.
(** The newer name of a member. *)
Definition newer (hk : jstring) : option jstring := fst <$> head (filter (λ p, p.2 = hk) compat_names).

Lemma newer_some k n : newer k = Some n → (n, k) ∈ compat_names.
Proof.
  unfold newer. destruct (head _) as [[n' k']|] eqn:E; [|done]. intros [= <-]. apply head_Some_elem_of, list_elem_of_filter in E as [E Hin]. cbn in E. by subst.
Qed.
Lemma newer_none k : newer k = None → k ∉ compat_names.*2.
Proof.
  unfold newer. destruct (head _) eqn:E; [done|]. intros _ ([n k'] & -> & Hin)%list_elem_of_fmap.
  apply head_None in E. assert ((n, k') ∈ filter (λ p, p.2 = k') compat_names) as H by (by apply list_elem_of_filter).
  cbn [snd] in E. rewrite E in H. by apply elem_of_nil in H.
Qed.

Lemma compat_names_apart : NoDup compat_names.*2 ∧ ∀ x, x ∈ compat_names.*1 → x ∉ compat_names.*2.
Proof.
  split; [by apply (bool_decide_eq_true_1 (NoDup _))|]. apply Forall_forall. by apply (bool_decide_eq_true_1 (Forall (λ x, x ∉ compat_names.*2) _)).
Qed.

Lemma compat_fold_get o k :
  obj_get k (foldl (λ o kk, _fnCompatMap kk.1 kk.2 o) o compat_names)
  = match newer k with Some n => if is_undef (get n o) then obj_get k o else obj_get n o | None => obj_get k o end.
Proof.
  destruct (newer k) as [n|] eqn:E.
  - apply compat_this; [apply compat_names_apart..|]. by apply newer_some.
  - by apply compat_other, newer_none.
Qed.

Lemma compat_keys l o : NoDup (obj_keys o) → NoDup (obj_keys (foldl (λ o kk, _fnCompatMap kk.1 kk.2 o) o l)).
Proof.
  revert o. induction l as [|kk l IH]; intros o Ho; [done|]. cbn [foldl]. apply IH. unfold _fnCompatMap. destruct (is_undef _); [done|]. by apply NoDup_obj_set.
Qed.
Lemma scroll_keys k o : NoDup (obj_keys o) → NoDup (obj_keys (scroll_text k o)).
Proof. intros Ho. unfold scroll_text. destruct (get k o); try done. by apply NoDup_obj_set. Qed.

(** The width that a boolean stands for. *)
Definition scroll_width (v : option val) : option val :=
  match v with Some (VBool b) => Some (VStr (if b then "100%"%js else [])) | _ => v end.

Lemma newer_scroll : newer "sScrollX"%js = None.
Proof. vm_compute. reflexivity. Qed.

Lemma compat_opts_get oSearch o :
  NoDup (obj_keys o) → get "aoSearchCols"%js o = VUndef →
  ∃ o', _fnCompatOpts oSearch o = Some o' ∧ NoDup (obj_keys o')
    ∧ (∀ k, k ∉ ["sScrollX"%js; "scrollX"%js] →
        obj_get k o' = match newer k with Some n => if is_undef (get n o) then obj_get k o else obj_get n o | None => obj_get k o end)
    ∧ obj_get "sScrollX"%js o' = scroll_width (obj_get "sScrollX"%js o).
Proof.
  intros Hn Hs. unfold _fnCompatOpts. set (o' := scroll_text _ _).
  assert (∀ k, k ∉ ["sScrollX"%js; "scrollX"%js] →
        obj_get k o' = match newer k with Some n => if is_undef (get n o) then obj_get k o else obj_get n o | None => obj_get k o end) as Hget.
  { intros k [Hk1 [Hk2 _]%not_elem_of_cons]%not_elem_of_cons. unfold o'. rewrite !scroll_other by done. apply compat_fold_get. }
  assert (get "aoSearchCols"%js o' = VUndef) as ->.
  { rewrite Hget; [exact Hs|]. by apply (bool_decide_eq_true_1 (_ ∉ _)). }
  exists o'. split_and!; [done| |done|].
  - by apply scroll_keys, scroll_keys, compat_keys.
  - unfold o'. rewrite scroll_other by done. unfold scroll_text at 1.
    set (o1 := foldl _ o compat_names). assert (obj_get "sScrollX"%js o1 = obj_get "sScrollX"%js o) as <-
      by (unfold o1; by rewrite compat_fold_get, newer_scroll).
    destruct (obj_get "sScrollX"%js o1) as [[| |b| | | |]|] eqn:E; cbn [default from_option id scroll_width]; try exact E.
    by rewrite obj_get_set, decide_True.
Qed.

(** The names of the defaults. *)
Definition names : hung := default (Hung [] []) (_fnHungarianMap (VObj defaults)).

Lemma names_of_defaults : _fnHungarianMap (VObj defaults) = Some names.
Proof. vm_compute. reflexivity. Qed.
Lemma names_made_ok : names_ok names.
Proof. eapply names_made, names_of_defaults. Qed.
Lemma names_made_apart : names_apart names.
Proof.
  assert (Forall (λ p, obj_get p.2 (h_map names) = None) (h_map names)) as H by (apply (bool_decide_eq_true_1 (Forall _ _)); vm_compute; reflexivity).
  intros ck hk E. rewrite Forall_forall in H. apply (H (ck, hk)). clear H. generalize dependent (h_map names). intros m.
  induction m as [|[k v] m IH]; [done|]. cbn. case_decide; [intros [= ->]; subst; by left|]. intros E. right. by apply IH.
Qed.

Lemma convert_keeps_keys subs m force ks u u' :
  NoDup (obj_keys u) → foldl (convert_key subs m force) (Some u) ks = Some u' → NoDup (obj_keys u').
Proof.
  revert u. induction ks as [|k ks IH]; intros u Hn; cbn [foldl]; [by intros [= <-]|].
  assert (∀ o, o = convert_key subs m force (Some u) k → match o with Some u1 => NoDup (obj_keys u1) | None => True end) as Hstep.
  { intros o ->. unfold convert_key. cbn [mbind option_bind]. destruct (obj_get k m) as [hk|]; [|done]. destruct (force || _); [|done].
    destruct (starts_with _ hk); [|by apply NoDup_obj_set]. destruct (truthy (get hk u)).
    - destruct (merge_onto _ _) as [w|]; [|done]. cbn [mbind option_bind]. destruct (obj_get hk subs) as [f|]; [|done]. cbn [mbind option_bind].
      destruct (f w); [|done]. by apply NoDup_obj_set.
    - destruct (merge_onto _ _) as [w|]; [|done]. cbn [mbind option_bind]. destruct (obj_get hk subs) as [f|]; [|done]. cbn [mbind option_bind].
      destruct (f w); [|done]. by apply NoDup_obj_set, NoDup_obj_set. }
  specialize (Hstep _ eq_refl). destruct (convert_key subs m force (Some u) k) as [u1|]; [by apply IH|].
  intros Hf. exfalso. clear -Hf. induction ks as [|k ks IH]; [done|]. by apply IH.
Qed.

Lemma converted_keys h force u u' : NoDup (obj_keys u) → _fnCamelToHungarian h force (VObj u) = Some (VObj u') → NoDup (obj_keys u').
Proof.
  intros Hn. destruct h as [m s]. cbn [_fnCamelToHungarian]. destruct (isArraylike u); [|by intros [= <-]..].
  destruct (foldl _ _ _) as [u1|] eqn:E; [|done]. cbn. intros [= <-]. by eapply convert_keeps_keys.
Qed.

Lemma search_cols_name : hungarian_key "aoSearchCols"%js = Some ("ao"%js, "searchCols"%js).
Proof. vm_compute. reflexivity. Qed.
Lemma newer_not_names n : n ∈ compat_names.*1 → hungarian_key n = None.
Proof. revert n. apply Forall_forall. apply (bool_decide_eq_true_1 (Forall (λ n, hungarian_key n = None) _)). vm_compute. reflexivity. Qed.

Lemma newer_menu : newer "aLengthMenu"%js = None.
Proof. vm_compute. reflexivity. Qed.
Lemma menu_not_scroll : "aLengthMenu"%js ∉ ["sScrollX"%js; "scrollX"%js].
Proof. apply (bool_decide_eq_true_1 (_ ∉ _)). vm_compute. reflexivity. Qed.

Lemma init_steps src oSearch defs oInit data u1 u2 u4 :
  _fnCamelToHungarian src false (VObj (extend false oInit data)) = Some (VObj u1) → _fnCompatOpts oSearch u1 = Some u2 →
  menu_length (compat_language defs u2) = Some u4 →
  init_options src oSearch defs oInit data = Some (_fnExtend (extend true [] defs) u4).
Proof. unfold init_options. by intros -> -> ->. Qed.

Section effective.
Context (h : hung) (Hok : names_ok h) (Hapart : names_apart h) (Hlength : obj_get "lengthMenu"%js (h_map h) = Some "aLengthMenu"%js).

Lemma converted_given (u u' : jsobj val) ck hk :
  (∀ k, (∀ ck, obj_get ck (h_map h) = Some k → obj_get ck u = None) → obj_get k u' = obj_get k u) →
  (∀ ck hk c, obj_get ck (h_map h) = Some hk → obj_get ck u = Some c →
     obj_get hk u' = if applies false u hk then conversion h false u ck hk else obj_get hk u) →
  obj_get ck (h_map h) = Some hk → starts_with "o"%js hk = false → obj_get hk u' = given u ck hk.
Proof.
  intros Ho H1 E Es. unfold given. destruct (obj_get ck u) as [c|] eqn:Ec.
  - rewrite (H1 ck hk c E Ec). unfold applies, conversion. cbn [orb]. rewrite Es, Ec. done.
  - rewrite Ho; [by destruct (is_undef _)|]. intros ck' E'. destruct (Hok _ _ E) as [p Hp], (Hok _ _ E') as [p' Hp']. congruence.
Qed.

Lemma not_a_name k (u u' : jsobj val) :
  (∀ k, (∀ ck, obj_get ck (h_map h) = Some k → obj_get ck u = None) → obj_get k u' = obj_get k u) →
  hungarian_key k = None → obj_get k u' = obj_get k u.
Proof. intros Ho Hk. apply Ho. intros ck E. destruct (Hok _ _ E) as [p Hp]. congruence. Qed.

(** The member [k] of the options of a new table, when [v] is what the page asks for. *)
Definition resolved (defs : jsobj val) (k : jstring) (v : option val) : option val :=
  match v with
  | Some (VObj o) => Some (VObj (extend true (match get k (extend true [] defs) with VObj t => t | _ => [] end) o))
  | Some v => Some v
  | None => obj_get k (extend true [] defs)
  end.

(** A page length that is not given, or zero, is the first of the length menu, if there is one. *)
Definition from_menu (menu len : option val) : option val :=
  match menu with
  | Some (VArr l) =>
      if truthy (default VUndef len) then len
      else Some (match l with VArr (v :: _) :: _ => v | VArr [] :: _ => VUndef | v :: _ => v | [] => VUndef end)
  | _ => len
  end.

Definition compat (u : jsobj val) (k : jstring) : option val :=
  match newer k with Some n => if is_undef (get n u) then obj_get k u else obj_get n u | None => obj_get k u end.

Lemma menu_length_get o :
  (∀ v, obj_get "aLengthMenu"%js o = Some v → truthy v = true → ∃ l, v = VArr l) → NoDup (obj_keys o) →
  ∃ o', menu_length o = Some o' ∧ NoDup (obj_keys o') ∧ (∀ k, k ≠ "iDisplayLength"%js → obj_get k o' = obj_get k o)
    ∧ obj_get "iDisplayLength"%js o' = from_menu (obj_get "aLengthMenu"%js o) (obj_get "iDisplayLength"%js o).
Proof.
  intros Hm Hn. unfold menu_length, from_menu. destruct (obj_get "aLengthMenu"%js o) as [v|]; cbn [default from_option id]; [|by exists o].
  specialize (Hm v eq_refl). destruct (truthy v) eqn:Et; cbn [andb]; [|exists o; split_and!; [done..|]; by destruct v].
  destruct (Hm eq_refl) as [l ->]. destruct (truthy (default VUndef (obj_get "iDisplayLength"%js o))) eqn:El.
  - by exists o.
  - eexists. split_and!; [reflexivity|by apply NoDup_obj_set| |].
    + intros k Hk. by rewrite obj_get_set, decide_False by by apply not_eq_sym.
    + rewrite obj_get_set, decide_True by done. destruct l as [|[| | | | |[|? ?]|] l]; reflexivity.
Qed.

Lemma language_get defs o :
  NoDup (obj_keys o) →
  NoDup (obj_keys (compat_language defs o)) ∧ ∀ k, k ≠ "oLanguage"%js → obj_get k (compat_language defs o) = obj_get k o.
Proof.
  intros Hn. assert (compat_language defs o = o ∨ ∃ w, compat_language defs o = obj_set "oLanguage"%js w o) as [->|[w ->]].
  - unfold compat_language. destruct (get "oLanguage"%js o) as [| | | | | |lang]; [left; reflexivity..|].
    destruct (get "oLanguage"%js defs) as [| | | | | |dlang]; [left; reflexivity..|]. right. eexists. reflexivity.
  - by split.
  - split; [by apply NoDup_obj_set|]. intros k Hk. rewrite obj_get_set, decide_False; [reflexivity|by apply not_eq_sym].
Qed.

Lemma newer_length : newer "iDisplayLength"%js = Some "pageLength"%js.
Proof. vm_compute. reflexivity. Qed.
Lemma length_not_scroll : "iDisplayLength"%js ∉ ["sScrollX"%js; "scrollX"%js].
Proof. apply (bool_decide_eq_true_1 (_ ∉ _)). vm_compute. reflexivity. Qed.

Lemma effective oSearch defs oInit data :
  let u := extend false oInit data in
  NoDup (obj_keys oInit) → isArraylike u = ByKeys → convertible h false u →
  obj_get "searchCols"%js u = None → obj_get "aoSearchCols"%js u = None →
  (∀ v, given u "lengthMenu"%js "aLengthMenu"%js = Some v → truthy v = true → ∃ l, v = VArr l) →
  ∃ final u1, init_options h oSearch defs oInit data = Some final
    ∧ (∀ k, (∀ ck, obj_get ck (h_map h) = Some k → obj_get ck u = None) → obj_get k u1 = obj_get k u)
    ∧ (∀ ck hk, obj_get ck (h_map h) = Some hk → starts_with "o"%js hk = false → obj_get hk u1 = given u ck hk)
    ∧ (∀ k, k ∉ ["iDisplayLength"; "oLanguage"; "sScrollX"; "scrollX"]%js → obj_get k final = resolved defs k (compat u1 k))
    ∧ obj_get "iDisplayLength"%js final
      = resolved defs "iDisplayLength"%js (from_menu (obj_get "aLengthMenu"%js u1) (compat u1 "iDisplayLength"%js))
    ∧ obj_get "sScrollX"%js final = resolved defs "sScrollX"%js (scroll_width (obj_get "sScrollX"%js u1)).
Proof.
  intros u Hn Hl Hc Hs1 Hs2 Hm. assert (NoDup (obj_keys u)) as Hu by (by apply extend_keys).
  destruct (convert_members h false u Hok Hapart Hu Hl Hc) as (u1 & E1 & Ho & H1).
  pose proof (converted_keys _ _ _ _ Hu E1) as Hn1.
  destruct (compat_opts_get oSearch u1 Hn1) as (u2 & E2 & Hn2 & H2 & H2s).
  { rewrite Ho, Hs2; [done|]. intros ck E. destruct (Hok _ _ E) as [p Hp]. by rewrite search_cols_name in Hp; injection Hp as _ <-. }
  destruct (language_get defs u2 Hn2) as [Hn3 H3].
  assert (obj_get "aLengthMenu"%js (compat_language defs u2) = obj_get "aLengthMenu"%js u1) as Hmenu.
  { rewrite H3 by discriminate. rewrite H2 by (exact menu_not_scroll). by rewrite newer_menu. }
  assert (obj_get "aLengthMenu"%js u1 = given u "lengthMenu"%js "aLengthMenu"%js) as Hmenu1
    by (apply (converted_given u u1 "lengthMenu"%js "aLengthMenu"%js Ho H1); [exact Hlength|vm_compute; reflexivity]).
  destruct (menu_length_get (compat_language defs u2)) as (u4 & E4 & Hn4 & H4 & H4l); [by rewrite Hmenu, Hmenu1|done|].
  exists (_fnExtend (extend true [] defs) u4), u1. split; [by eapply init_steps|]. split; [exact Ho|].
  split; [intros ck hk; by apply (converted_given u u1)|]. clear E1 E2 E4 Hc.
  split_and!.
  - intros k Hk. rewrite !not_elem_of_cons in Hk. destruct Hk as (Hk1 & Hk2 & Hk3 & Hk4 & _).
    rewrite extend_member_get, H4, H3, H2 by (try done; rewrite !not_elem_of_cons; split_and!; try done; apply not_elem_of_nil). done.
  - rewrite extend_member_get, H4l, Hmenu, H3, H2 by (done || exact length_not_scroll). done.
  - rewrite extend_member_get, H4, H3, H2s by done. done.
Qed.
End effective.

(** The options that are values, with the prefix and in camel case, and the newer name of some: a newer
    name counts before the others. *)
Definition option_spellings : list (jstring * jstring * option jstring) :=
  [("aaData", "data", None); ("aaSorting", "sorting", Some "order"); ("aaSortingFixed", "sortingFixed", Some "orderFixed");
   ("aLengthMenu", "lengthMenu", None); ("aoColumns", "columns", None); ("aoColumnDefs", "columnDefs", None);
   ("asStripeClasses", "stripeClasses", None); ("bAutoWidth", "autoWidth", None); ("bDeferRender", "deferRender", None);
   ("bDestroy", "destroy", None); ("bFilter", "filter", Some "searching"); ("bInfo", "info", None); ("bJQueryUI", "jQueryUI", None);
   ("bLengthChange", "lengthChange", None); ("bPaginate", "paginate", Some "paging"); ("bProcessing", "processing", None);
   ("bRetrieve", "retrieve", None); ("bScrollCollapse", "scrollCollapse", None); ("bServerSide", "serverSide", None);
   ("bSort", "sort", Some "ordering"); ("bSortMulti", "sortMulti", Some "orderMulti");
   ("bSortCellsTop", "sortCellsTop", Some "orderCellsTop"); ("bSortClasses", "sortClasses", Some "orderClasses");
   ("bStateSave", "stateSave", None); ("iStateDuration", "stateDuration", None); ("iDeferLoading", "deferLoading", None);
   ("iDisplayStart", "displayStart", None); ("iTabIndex", "tabIndex", None); ("sAjaxDataProp", "ajaxDataProp", None);
   ("sAjaxSource", "ajaxSource", None); ("sDom", "dom", None); ("sPaginationType", "paginationType", Some "pagingType");
   ("sScrollXInner", "scrollXInner", None); ("sScrollY", "scrollY", None); ("sServerMethod", "serverMethod", None)]%js.

(** What the page asks for an option with these names. *)
Definition asked (u : jsobj val) (hk ck : jstring) (newer : option jstring) : option val :=
  match n ← newer; obj_get n u with
  | Some v => if is_undef v then given u ck hk else Some v
  | None => given u ck hk
  end.

Lemma spellings_made :
  Forall (λ s : jstring * jstring * option jstring, let '(hk, ck, n) := s in
    obj_get ck (h_map names) = Some hk ∧ starts_with "o"%js hk = false ∧ newer hk = n
    ∧ hk ∉ ["iDisplayLength"; "oLanguage"; "sScrollX"; "scrollX"]%js)
    option_spellings.
Proof.
  repeat (apply Forall_cons; split; [split_and!; [vm_compute; reflexivity..|apply (bool_decide_eq_true_1 (_ ∉ _)); vm_compute; reflexivity]|]).
  constructor.
Qed.

(** C36: a new table gets every option that is a value as the page asks for it, under its newer name, with
    the prefix or in camel case, in this order, and the default if the page does not; the page length
    also from the length menu, when it is neither given nor 0 and the page gives a menu; a boolean for the
    width of a scrolling table stands for a text; values that are objects are merged into the default.
    The searches of the columns are not given. *)
Theorem option_effective oSearch defs oInit data :
  let u := extend false oInit data in
  NoDup (obj_keys oInit) → isArraylike u = ByKeys → convertible names false u →
  obj_get "searchCols"%js u = None → obj_get "aoSearchCols"%js u = None →
  (∀ v, given u "lengthMenu"%js "aLengthMenu"%js = Some v → truthy v = true → ∃ l, v = VArr l) →
  ∃ final, init_options names oSearch defs oInit data = Some final
    ∧ (∀ hk ck newer, (hk, ck, newer) ∈ option_spellings → obj_get hk final = resolved defs hk (asked u hk ck newer))
    ∧ obj_get "iDisplayLength"%js final = resolved defs "iDisplayLength"%js
        (from_menu (asked u "aLengthMenu"%js "lengthMenu"%js None) (asked u "iDisplayLength"%js "displayLength"%js (Some "pageLength"%js)))
    ∧ obj_get "sScrollX"%js final = resolved defs "sScrollX"%js (scroll_width (asked u "sScrollX"%js "scrollX"%js None))
    ∧ (∀ k, k ∈ ["ajax"; "searchDelay"; "renderer"; "rowId"]%js → obj_get k final = resolved defs k (obj_get k u)).
Proof.
  intros u Hn Hl Hc Hs1 Hs2 Hm.
  destruct (effective names names_made_ok names_made_apart ltac:(vm_compute; reflexivity) oSearch defs oInit data Hn Hl Hc Hs1 Hs2 Hm)
    as (final & u1 & E & Ho & H1 & Hk & Hlen & Hscr). exists final. split; [exact E|]. fold u in Ho, H1, Hm. clear E Hc.
  assert (∀ hk ck n, obj_get ck (h_map names) = Some hk → starts_with "o"%js hk = false → newer hk = n →
    compat u1 hk = asked u hk ck n) as Hask.
  { intros hk ck n Eh Es En. unfold compat, asked. rewrite (H1 ck hk Eh Es), En. destruct n as [n|]; [|done]. cbn [mbind option_bind].
    assert (obj_get n u1 = obj_get n u) as ->.
    { apply (not_a_name names names_made_ok n u u1 Ho). apply newer_some, (list_elem_of_fmap_2 fst) in En. by apply newer_not_names in En. }
    destruct (obj_get n u) as [v|]; cbn [default from_option id]; [|done]. by destruct (is_undef v). }
  pose proof spellings_made as Hs. rewrite Forall_forall in Hs. split_and!.
  - intros hk ck n Hin. destruct (Hs (hk, ck, n)) as (A1 & A2 & A3 & A4); [done|].
    rewrite (Hk hk A4). by rewrite (Hask hk ck n A1 A2 A3).
  - rewrite Hlen. rewrite (Hask "iDisplayLength"%js "displayLength"%js (Some "pageLength"%js)) by (vm_compute; reflexivity).
    rewrite (H1 "lengthMenu"%js "aLengthMenu"%js) by (vm_compute; reflexivity). done.
  - rewrite Hscr. rewrite (H1 "scrollX"%js "sScrollX"%js) by (vm_compute; reflexivity). done.
  - assert (Forall (λ k, hungarian_key k = None ∧ newer k = None ∧ k ∉ ["iDisplayLength"; "oLanguage"; "sScrollX"; "scrollX"]%js)
      ["ajax"; "searchDelay"; "renderer"; "rowId"]%js) as Hplain.
    { repeat (apply Forall_cons; split; [split_and!; [vm_compute; reflexivity..|apply (bool_decide_eq_true_1 (_ ∉ _)); vm_compute; reflexivity]|]). constructor. }
    intros k Hin. rewrite Forall_forall in Hplain. destruct (Hplain k Hin) as (A1 & A2 & A3).
    rewrite (Hk k A3). unfold compat. rewrite A2. by rewrite (not_a_name names names_made_ok k u u1 Ho A1).
Qed.

(** ** Examples *)

Definition page_options : jsobj val :=
  [("paging"%js, VBool false); ("pageLength"%js, VNum (num_of_Z 50)); ("dom"%js, VStr "tp"%js); ("language"%js, VObj [("search"%js, VStr "Find:"%js)])].

Lemma convertible_check h u :
  Forall (λ p : jstring * jstring, applies false u p.2 = true → is_Some (obj_get p.1 u) → is_Some (conversion h false u p.1 p.2)) (h_map h) →
  convertible h false u.
Proof.
  intros H ck hk c Ec E Ha. rewrite Forall_forall in H. apply (H (ck, hk)); [|done|by eexists]. clear H Ec. revert E. generalize (h_map h). intros m.
  induction m as [|[k v] m IH]; [done|]. cbn. case_decide; [intros [= ->]; subst; by left|]. intros E. right. by apply IH.
Qed.

Lemma page_options_convertible : convertible names false page_options.
Proof.
  assert (Forall (λ p : jstring * jstring, applies false page_options p.2 = true → is_Some (obj_get p.1 page_options) →
            is_Some (conversion names false page_options p.1 p.2)) (h_map names)) as H.
  { apply (bool_decide_eq_true_1 (Forall _ _)). vm_compute. reflexivity. }
  by apply convertible_check.
Qed.

Lemma convert_correct_witness :
  ∃ u', _fnCamelToHungarian names false (VObj page_options) = Some (VObj u')
    ∧ obj_get "sDom"%js u' = Some (VStr "tp"%js)
    ∧ (λ v, get_prop v "sSearch"%js) <$> obj_get "oLanguage"%js u' = Some (VStr "Find:"%js).
Proof.
  destruct (convert_correct defaults names false page_options names_of_defaults names_made_apart) as (u' & E & _ & H).
  - by apply (bool_decide_eq_true_1 (NoDup _)).
  - reflexivity.
  - apply page_options_convertible.
  - exists u'. split; [exact E|]. split.
    + rewrite (H "dom"%js "sDom"%js (VStr "tp"%js)); [reflexivity|vm_compute; reflexivity|reflexivity].
    + rewrite (H "language"%js "oLanguage"%js (VObj [("search"%js, VStr "Find:"%js)])); [vm_compute; reflexivity|vm_compute; reflexivity|reflexivity].
Defined.

(** The page gives a menu and a length, [ordering] and [orderMulti], and [sort] which does not count. *)
Definition table_options : jsobj val :=
  [("ordering"%js, VBool false); ("sort"%js, VBool true); ("orderMulti"%js, VBool true); ("pageLength"%js, VNum (num_of_Z 50));
   ("lengthMenu"%js, VArr [VNum (num_of_Z 25); VNum (num_of_Z 50)]); ("dom"%js, VStr "tp"%js)].

Lemma table_options_convertible : convertible names false table_options.
Proof.
  assert (Forall (λ p : jstring * jstring, applies false table_options p.2 = true → is_Some (obj_get p.1 table_options) →
            is_Some (conversion names false table_options p.1 p.2)) (h_map names)) as H.
  { apply (bool_decide_eq_true_1 (Forall _ _)). vm_compute. reflexivity. }
  by apply convertible_check.
Qed.

Lemma option_effective_witness :
  ∃ final, init_options names (Hung [] []) defaults table_options [] = Some final
    ∧ obj_get "bSort"%js final = Some (VBool false) ∧ obj_get "bSortMulti"%js final = Some (VBool true)
    ∧ obj_get "iDisplayLength"%js final = Some (VNum (num_of_Z 50)) ∧ obj_get "rowId"%js final = Some (VStr "DT_RowId"%js).
Proof.
  destruct (option_effective (Hung [] []) defaults table_options []) as (final & E & H & Hlen & _ & Hp).
  - by apply (bool_decide_eq_true_1 (NoDup _)).
  - reflexivity.
  - apply table_options_convertible.
  - reflexivity.
  - reflexivity.
  - intros v Hv _. vm_compute in Hv. injection Hv as <-. by eexists.
  - exists final. split; [exact E|]. split_and!.
    + rewrite (H "bSort"%js "sort"%js (Some "ordering"%js)); [vm_compute; reflexivity|].
      apply (bool_decide_eq_true_1 (_ ∈ _)). vm_compute. reflexivity.
    + rewrite (H "bSortMulti"%js "sortMulti"%js (Some "orderMulti"%js)); [vm_compute; reflexivity|].
      apply (bool_decide_eq_true_1 (_ ∈ _)). vm_compute. reflexivity.
    + rewrite Hlen. vm_compute. reflexivity.
    + rewrite (Hp "rowId"%js); [vm_compute; reflexivity|]. apply (bool_decide_eq_true_1 (_ ∈ _)). vm_compute. reflexivity.
Defined.
