(* ===== verification/PageSearch.v ===== *)
(** * The search page (templates/search.html)

    The script of the page that starts searches, shows how the server reads a query, and shows
    the flows once the task of the search has succeeded.  It stands on js/pcapdb.js: its
    callback is one of the callbacks of every answer of the task API.  [search_event] are the
    events of the page with its tasks; [apply_event] is what the scripts do with one. *)

From S2P Require Import Prelude JsString JsObject JsNumber JsValue QueryString JqClasses Dom PcapTasks PcapTasksFacts.

(** ** What the server says *)

(** A token of a query: its identity, kind, text, the places where it begins and ends in the query,
    and, for an error, the piece of the query it is about. *)
Record query_token := QueryToken {
  tok_id : Z;
  tok_type : jstring;
  tok_str : jstring;
  tok_pos : nat * nat;
  tok_context : jstring
}.

(** The answer to a query; [None]: the member is undefined or null. *)
Record parse_answer := ParseAnswer {
  ps_tokens : option (list query_token);
  ps_search : option jstring;
  ps_error_msg : option jstring;
  ps_error_token : option query_token
}.

(** The answer to a search: alerts, the task to wait for, the address of its results, and the
    reading of the query. *)
Record search_answer := SearchAnswer {
  sa_alerts : jsobj alert_value;
  sa_task_id : option jstring;
  sa_results_url : option jstring;
  sa_parse : parse_answer
}.

(** ** The reading of the query *)

(** An element that is put into [#search_parse_results]: its tag, classes and contents. *)
Record piece := Piece { pc_tag : jstring; pc_class : jstring; pc_text : jstring }.

Definition _TOKEN_CLASSES : jsobj jstring :=
  [("OPEN_PAREN"%js, "text-info"%js); ("CLOSE_PAREN"%js, "text-info"%js); ("NOT"%js, "text-warning"%js);
   ("AND"%js, "text-warning"%js); ("OR"%js, "text-warning"%js); ("SRCv4"%js, "text-success"%js);
   ("DSTv4"%js, "text-primary"%js); ("SRCv6"%js, "text-success"%js); ("DSTv6"%js, "text-primary"%js);
   ("SRCPORT"%js, "text-success"%js); ("DSTPORT"%js, "text-primary"%js)].

Definition is_error_token (error_token : option query_token) (tok : query_token) : bool :=
  match error_token with Some e => (tok_id e =? tok_id tok)%Z | None => false end.
Definition error_piece (error_token : query_token) : piece :=
  Piece "span"%js "bg-danger"%js (tok_context error_token ++ " "%js).
Definition token_piece (error_token : option query_token) (tok : query_token) : piece :=
  match error_token with
  | Some e => if (tok_id e =? tok_id tok)%Z then error_piece e
              else Piece "span"%js (default [] (obj_get (tok_type tok) _TOKEN_CLASSES)) (tok_str tok ++ " "%js)
  | None => Piece "span"%js (default [] (obj_get (tok_type tok) _TOKEN_CLASSES)) (tok_str tok ++ " "%js)
  end.

(** [s.substring(a)] *)
Definition substring_from (a : nat) (s : jstring) : jstring := drop a s.

(** [show_parse_search_results]: what the element holds afterwards, and whether the function came to
    its end; answers without tokens are an exception, after the element was emptied. *)
Definition show_parse_search_results (results : parse_answer) : list piece * bool :=
  match ps_tokens results with
  | None => ([], false)
  | Some tokens =>
      let last_drawn_tok_end := foldl (λ _ tok, (tok_pos tok).2) 0 tokens in
      let drawn := token_piece (ps_error_token results) <$> tokens in
      let message := match ps_error_msg results with Some m => [Piece "h5"%js "text-danger"%js m] | None => [] end in
      match ps_error_token results with
      | Some e =>
          if last_drawn_tok_end <? (tok_pos e).2 then
            match ps_search results with
            | Some search =>
                (drawn ++ [error_piece e; Piece "span"%js "text-muted"%js (substring_from (tok_pos e).2 search)] ++ message, true)
            | None => (drawn ++ [error_piece e], false)
            end
          else (drawn ++ message, true)
      | None => (drawn ++ message, true)
      end
  end.

(** [s.substring(a, b)]: the ends are taken in order. *)
Definition substring (a b : nat) (s : jstring) : jstring := slice (Nat.min a b) (Nat.max a b) s.

(** [show_search_parse_error], for an error at [pos] of the text. *)
Definition show_search_parse_error (pos : nat * nat) (search_text msg : jstring) : list piece :=
  [Piece "p"%js "text-danger"%js msg; Piece "span"%js [] (substring 0 pos.1 search_text);
   Piece "span"%js "bg-danger"%js (substring pos.1 pos.2 search_text);
   Piece "span"%js "unprocessed_search_text"%js (substring_from pos.2 search_text)].

(** ** The page *)

(** What the script asks of the results table. *)
Inductive table_call := TableNew (url : option jstring) | TableLoad (url : jstring).

(** [RESULTS_URL]: [None] is null, [Some None] undefined.  [sp_timeout], [sp_timers],
    [sp_next_timer]: [_PARSE_SEARCH_TIMEOUT_ID], the pending timers of the script and their next
    number; [sp_parse_sent]: the queries sent to be read. *)
Record search_page := SearchPage {
  sp_page : page;
  RESULTS_URL : option (option jstring);
  RESULTS_TASK_ID : option jstring;
  RESULTS_SHOWN : bool;
  sp_table : list table_call;
  sp_results : list piece;
  sp_timeout : option nat;
  sp_timers : list nat;
  sp_next_timer : nat;
  sp_parse_sent : list jstring
}.

Definition set_page (p : page) (st : search_page) : search_page :=
  SearchPage p (RESULTS_URL st) (RESULTS_TASK_ID st) (RESULTS_SHOWN st) (sp_table st) (sp_results st)
    (sp_timeout st) (sp_timers st) (sp_next_timer st) (sp_parse_sent st).
Definition set_wanted (url : option (option jstring)) (id : option jstring) (st : search_page) : search_page :=
  SearchPage (sp_page st) url id (RESULTS_SHOWN st) (sp_table st) (sp_results st)
    (sp_timeout st) (sp_timers st) (sp_next_timer st) (sp_parse_sent st).
Definition call_table (c : table_call) (st : search_page) : search_page :=
  SearchPage (sp_page st) (RESULTS_URL st) (RESULTS_TASK_ID st) true (sp_table st ++ [c]) (sp_results st)
    (sp_timeout st) (sp_timers st) (sp_next_timer st) (sp_parse_sent st).
Definition set_results (l : list piece) (st : search_page) : search_page :=
  SearchPage (sp_page st) (RESULTS_URL st) (RESULTS_TASK_ID st) (RESULTS_SHOWN st) (sp_table st) l
    (sp_timeout st) (sp_timers st) (sp_next_timer st) (sp_parse_sent st).
Definition set_parse_timer (id : option nat) (l : list nat) (n : nat) (st : search_page) : search_page :=
  SearchPage (sp_page st) (RESULTS_URL st) (RESULTS_TASK_ID st) (RESULTS_SHOWN st) (sp_table st) (sp_results st)
    id l n (sp_parse_sent st).
Definition send_parse (query : jstring) (st : search_page) : search_page :=
  SearchPage (sp_page st) (RESULTS_URL st) (RESULTS_TASK_ID st) (RESULTS_SHOWN st) (sp_table st) (sp_results st)
    (sp_timeout st) (sp_timers st) (sp_next_timer st) (sp_parse_sent st ++ [query]).

(** [show_results()]; without an address the getter of the table is called, whose result has no
    method [load]: an exception. *)
Definition show_results (st : search_page) : option search_page :=
  match RESULTS_URL st with
  | None => Some st
  | Some url =>
      if RESULTS_SHOWN st then match url with Some u => Some (call_table (TableLoad u) st) | None => None end
      else Some (call_table (TableNew url) st)
  end.

(** The task of [_TASKS_BY_ID] under a key. *)
Definition task_at (p : page) (id : jstring) : option task := obj_get id (p_tasks p) ≫= (p_heap p !!.).

(** [check_search_results]; an exception leaves everything as it is. *)
Definition check_search_results (st : search_page) : search_page :=
  match task_at (sp_page st) (default "null"%js (RESULTS_TASK_ID st)) with
  | Some task =>
      if bool_decide (t_status task = Some "SUCCESS"%js) then
        match show_results st with
        | Some st => set_wanted (RESULTS_URL st) None st
        | None => st
        end
      else st
  | None => st
  end.

(** The success callback of [do_search]. *)
Definition search_success (results : search_answer) (st : search_page) : search_page :=
  let st := set_page (result_alerts (sa_alerts results) (sp_page st)) st in
  let st := match sa_task_id results with
            | Some id => set_wanted (Some (sa_results_url results)) (Some id) st
            | None => st
            end in
  let st := set_page (task_check true (sp_page st)) st in
  set_results (show_parse_search_results (sa_parse results)).1 st.

(** ** The request of a search *)

(** The fields of the form, the dates in milliseconds; [sf_proto] is null for a menu without choice. *)
Record search_form := SearchForm {
  sf_query : option jstring;
  sf_proto : option jstring;
  sf_start : option Z;
  sf_end : option Z
}.

(** [do_search]: the data and the body of the request; [iso] is [toISOString] of a date. *)
Definition search_data (iso : Z → jstring) (csrf target : jstring) (f : search_form) : jsobj val :=
  let data := [("csrfmiddlewaretoken"%js, VStr csrf);
               ("proto"%js, match sf_proto f with Some t => VStr t | None => VNull end)] in
  let data := match sf_query f with Some q => obj_set "query"%js (VStr q) data | None => data end in
  let data := match sf_start f with Some t => obj_set "start"%js (VStr (iso t)) data | None => data end in
  let data := match sf_end f with Some t => obj_set "end"%js (VStr (iso t)) data | None => data end in
  obj_set "action"%js (VStr (if target =s? "search_form-pcap-btn"%js then "pcap"%js else "flows"%js)) data.
Definition do_search (iso : Z → jstring) (csrf target : jstring) (f : search_form) : option jstring :=
  param (VObj (search_data iso csrf target f)) false.

(** ** Keys *)

(** [do_parse_search] sends the value of the field at that time.  The handler of [keypress]: a space
    sends at once, any other key in a second, and both cancel the timer of the key before. *)
Definition do_parse_search (query : jstring) (st : search_page) : search_page := send_parse query st.
Definition _PARSE_SEARCH_TIMEOUT : Z := 1000.
Definition query_keypress (space : bool) (query : jstring) (st : search_page) : search_page :=
  let st := match sp_timeout st with
            | Some id => set_parse_timer (Some id) (filter (.≠ id) (sp_timers st)) (sp_next_timer st) st
            | None => st
            end in
  if space then do_parse_search query (set_parse_timer None (sp_timers st) (sp_next_timer st) st)
  else set_parse_timer (Some (sp_next_timer st)) (sp_timers st ++ [sp_next_timer st]) (S (sp_next_timer st)) st.
Definition parse_timer (id : nat) (query : jstring) (st : search_page) : option search_page :=
  if bool_decide (id ∈ sp_timers st)
  then Some (do_parse_search query (set_parse_timer (sp_timeout st) (filter (.≠ id) (sp_timers st)) (sp_next_timer st) st))
  else None.

(** ** Events *)

(** The events of the page of tasks, with their data. *)
Inductive page_event :=
  | Timer (id : nat) (delay : Z)
  | TasksAnswer (tasks : list task_data)
  | TasksFailure
  | Results (results : jsobj alert_value)
  | Recheck
  | Click (el : nat) (h : handler)
  | FxDone (i : nat).

#[export] Instance selection_eq_dec : EqDecision selection.
Proof. solve_decision. Defined.
#[export] Instance handler_eq_dec : EqDecision handler.
Proof. solve_decision. Defined.

Definition fire (e : page_event) (p : page) : option page :=
  match e with
  | Timer id delay => if bool_decide ((id, delay) ∈ p_timers p) then Some (task_check false (clearTimeout id p)) else None
  | TasksAnswer tasks =>
      match p_inflight p with S n => Some (set_tasks tasks (set_requests n (p_sent p) p)) | 0 => None end
  | TasksFailure => match p_inflight p with S n => Some (set_requests n (p_sent p) p) | 0 => None end
  | Results results => Some (result_alerts results p)
  | Recheck => Some (task_check true p)
  | Click el h => if bool_decide ((el, h) ∈ p_clicks p) then Some (run_handler h p) else None
  | FxDone i =>
      match p_fx p !! i with Some f => Some (fx_done f (set_fx (delete i (p_fx p)) p)) | None => None end
  end.

Inductive search_event :=
  | OnPage (e : page_event)
  | Searched (results : search_answer)
  | Parsed (results : parse_answer)
  | Key (space : bool) (query : jstring)
  | KeyTimer (id : nat) (query : jstring).

(** An answer of the task API runs [set_tasks], then [check_search_results]. *)
Definition apply_event (e : search_event) (st : search_page) : option search_page :=
  match e with
  | OnPage (TasksAnswer tasks) =>
      p ← fire (TasksAnswer tasks) (sp_page st); Some (check_search_results (set_page p st))
  | OnPage e => p ← fire e (sp_page st); Some (set_page p st)
  | Searched results => Some (search_success results st)
  | Parsed results => Some (set_results (show_parse_search_results results).1 st)
  | Key space query => Some (query_keypress space query st)
  | KeyTimer id query => parse_timer id query st
  end.
Fixpoint apply_events (es : list search_event) (st : search_page) : option search_page :=
  match es with [] => Some st | e :: es => st ← apply_event e st; apply_events es st end.

(** The page once its scripts have run; [url]: the address the server put into the page. *)
Definition initial_search (url : option jstring) (p : page) : search_page :=
  let st := SearchPage p (Some <$> url) None false [] [] None [] 0 [] in default st (show_results st).
