(* ===== verification/PageSearchTheorems.v ===== *)
(** * What the search page shows (templates/search.html)

    The events as a function and as the steps of the page of tasks; the status that the page knows of
    a task after any answers; when the results of a search are shown; the reading of a query; the
    request of a search; the timer of the keys. *)

From S2P Require Import Prelude JsString JsObject JsNumber JsValue Uri QueryString JqClasses Dom PcapTasks PcapTasksFacts PcapTheorems PageSearch.

(** ** Events and steps *)

(** The events are exactly the steps of the page of tasks. *)
Lemma fire_step p q : (∃ e, fire e p = Some q) ↔ step p q.
Proof.
  split.
  - intros [[id delay|tasks| |results| |el h|i] E]; cbn in E.
    + case_bool_decide; [|done]. injection E as <-. by eapply step_timer.
    + destruct (p_inflight p) as [|n] eqn:Hi; [done|]. injection E as <-. by apply step_response.
    + destruct (p_inflight p) as [|n] eqn:Hi; [done|]. injection E as <-. by apply step_failure.
    + injection E as <-. apply step_results.
    + injection E as <-. apply step_recheck.
    + case_bool_decide; [|done]. injection E as <-. by eapply step_click.
    + destruct (p_fx p !! i) as [f|] eqn:Hi; [|done]. injection E as <-. rewrite delete_take_drop.
      by apply step_fx, eq_sym, take_drop_middle.
  - intros [p' id delay H|p' n tasks H|p' n H|p' results|p'|p' el h H|p' l1 f l2 H].
    + exists (Timer id delay). cbn. by rewrite bool_decide_eq_true_2.
    + exists (TasksAnswer tasks). cbn. by rewrite H.
    + exists TasksFailure. cbn. by rewrite H.
    + by exists (Results results).
    + by exists Recheck.
    + exists (Click el h). cbn. by rewrite bool_decide_eq_true_2.
    + exists (FxDone (length l1)). cbn. rewrite H, list_lookup_middle by done.
      by rewrite delete_middle.
Qed.

(** ** The status of a task *)

(** The tasks of the page and their objects belong together. *)
Record tasks_known (p : page) : Prop := {
  tk_tasks : ∀ k r, obj_get k (p_tasks p) = Some r → ∃ t, p_heap p !! r = Some t ∧ t_id t = Some k;
  tk_heap : ∀ r t, p_heap p !! r = Some t → r < p_next_task p
}.

Lemma page_wf_known p : page_wf p → tasks_known p.
Proof. intros [_ _ H1 _ H2 _]. split; [exact H2|]. intros r t Hr. by apply (H1 r t). Qed.

(** What two pages have the same tasks means. *)
Definition same_tasks (p q : page) : Prop :=
  p_tasks q = p_tasks p ∧ p_heap q = p_heap p ∧ p_next_task q = p_next_task p.

#[export] Instance same_tasks_preorder : PreOrder same_tasks.
Proof. split; [done|]. intros p q r (A1 & A2 & A3) (B1 & B2 & B3). split_and!; congruence. Qed.

Lemma same_tasks_known p q : same_tasks p q → tasks_known p → tasks_known q.
Proof. intros (E1 & E2 & E3) [H1 H2]. split; by rewrite ?E1, ?E2, ?E3. Qed.
Lemma same_tasks_at p q id : same_tasks p q → task_at q id = task_at p id.
Proof. intros (E1 & E2 & _). unfold task_at. by rewrite E1, E2. Qed.

(** The status after an answer about the task. *)
Definition status_at (p : page) (id : jstring) : option (option jstring) := t_status <$> task_at p id.
Definition next_status (known : option (option jstring)) (data : task_data) : option jstring :=
  match known with
  | Some s => if finished s then s else td_status data !! 0
  | None => td_status data !! 0
  end.

Lemma update_frame data t p :
  same_tasks p (task_update data t p).2 ∧ t_status (task_update data t p).1 = td_status data !! 0
  ∧ t_id (task_update data t p).1 = match t_id t with None => Some (td_task_id data) | Some i => Some i end.
Proof. destruct (task_update_page data t p) as [d E]. rewrite E. split_and!; done. Qed.

Lemma new_frame data p ref p' :
  Task_new data p = (ref, p') →
  ref = p_next_task p ∧ ∃ t, p_heap p' = <[ref := t]> (p_heap p) ∧ p_tasks p' = p_tasks p ∧ p_next_task p' = S ref
  ∧ t_id t = Some (td_task_id data) ∧ t_status t = td_status data !! 0.
Proof.
  unfold Task_new, new_elem.
  repeat (match goal with |- context [createElement ?a ?b] => destruct (createElement a b) as [? ?] end; cbn [on_dom p_dom set_dom add_click]).
  match goal with |- context [task_update data ?t ?q] => pose proof (update_frame data t q) as (F & S & I);
    destruct (task_update data t q) as [t' q'] end.
  cbn [fst snd] in *. destruct F as (F1 & F2 & F3). intros [= <- <-]. split; [done|]. exists t'. cbn.
  rewrite F2, F1. split_and!; done.
Qed.

Lemma get_task_known data p ref p' :
  get_task data p = (ref, p') → tasks_known p →
  tasks_known p' ∧ p_tasks p' = p_tasks p
  ∧ (∃ t, p_heap p' !! ref = Some t ∧ t_id t = Some (td_task_id data) ∧ t_status t = next_status (status_at p (td_task_id data)) data)
  ∧ (∀ r t, p_heap p !! r = Some t → t_id t ≠ Some (td_task_id data) → p_heap p' !! r = Some t).
Proof.
  intros H Hw. pose proof Hw as [H1 H2]. unfold get_task in H. unfold status_at, task_at.
  destruct (obj_get (td_task_id data) (p_tasks p)) as [r|] eqn:Eg.
  - destruct (H1 _ _ Eg) as (t & Ht & Hid). rewrite Ht in H. cbn [mbind option_bind]. rewrite Ht. cbn [fmap option_fmap option_map]. unfold next_status.
    destruct (finished (t_status t)).
    { injection H as <- <-. split_and!; [done|done|by exists t|done]. }
    pose proof (update_frame data t p) as ((F1 & F2 & F3) & S & I). destruct (task_update data t p) as [t' q].
    injection H as <- <-. cbn [fst snd] in *. rewrite Hid in I. split_and!.
    + split; cbn; rewrite F2, ?F1, ?F3.
      * intros k r' Hk. destruct (H1 _ _ Hk) as (t0 & Ht0 & Hi). destruct (decide (r' = r)) as [->|Hne].
        -- exists t'. rewrite lookup_insert_eq. split; [done|]. congruence.
        -- exists t0. by rewrite lookup_insert_ne.
      * intros r' t0 [[<- <-]|[_ Hr]]%lookup_insert_Some; [by eapply H2|by eapply H2].
    + exact F1.
    + exists t'. cbn. rewrite F2, lookup_insert_eq. split_and!; done.
    + intros r' t0 Hr Hne. cbn. rewrite F2, lookup_insert_ne; [done|]. intros ->. congruence.
  - destruct (new_frame _ _ _ _ H) as (-> & t & E1 & E2 & E3 & I & S). split_and!; [|done| |].
    + split; rewrite E1, ?E2, ?E3.
      * intros k r' Hk. destruct (H1 _ _ Hk) as (t0 & Ht0 & Hi). exists t0. rewrite lookup_insert_ne; [done|].
        intros <-. pose proof (H2 _ _ Ht0). lia.
      * intros r' t0 [[<- <-]|[_ Hr]]%lookup_insert_Some; [lia|]. pose proof (H2 _ _ Hr). lia.
    + exists t. rewrite E1, lookup_insert_eq. by split_and!.
    + intros r' t0 Hr Hne. rewrite E1, lookup_insert_ne; [done|]. intros <-. pose proof (H2 _ _ Hr). lia.
Qed.

Lemma get_tasks_known tasks p refs p' :
  get_tasks tasks p = (refs, p') → tasks_known p → NoDup (map td_task_id tasks) →
  tasks_known p' ∧ p_tasks p' = p_tasks p
  ∧ Forall2 (λ data ref, ∃ t, p_heap p' !! ref = Some t ∧ t_id t = Some (td_task_id data)
       ∧ t_status t = next_status (status_at p (td_task_id data)) data) tasks refs
  ∧ (∀ r t, p_heap p !! r = Some t → t_id t ∉ Some <$> map td_task_id tasks → p_heap p' !! r = Some t).
Proof.
  revert p refs p'. induction tasks as [|data rest IH]; intros p refs p' H Hw Hnd; cbn [get_tasks] in H.
  { injection H as <- <-. split_and!; [done|done|constructor|done]. }
  destruct (get_task data p) as [ref q] eqn:E1. destruct (get_tasks rest q) as [refs' q'] eqn:E2.
  injection H as <- <-. cbn [map] in Hnd. apply NoDup_cons in Hnd as [Hn Hnd].
  destruct (get_task_known _ _ _ _ E1 Hw) as (W1 & T1 & (t & Ht & Hi & Hs) & O1).
  destruct (IH _ _ _ E2 W1 Hnd) as (W2 & T2 & F2 & O2). split_and!; [done|congruence| |].
  - constructor.
    + exists t. split_and!; [|done|done]. apply O2; [done|]. rewrite Hi. by intros (x & [= <-] & Hx)%list_elem_of_fmap.
    + assert (Forall (λ data', td_task_id data' ≠ td_task_id data) rest) as Hne.
      { apply Forall_forall. intros d Hd E. apply Hn, list_elem_of_fmap. by exists d. }
      clear -F2 T1 O1 Hne Hw. induction F2 as [|d r ? ? (t & Ht & Hi & Hs) F2 IH]; [constructor|].
      apply Forall_cons in Hne as [Hd Hne]. constructor; [|by apply IH]. exists t. split_and!; [done|done|]. rewrite Hs. f_equal.
      unfold status_at, task_at. rewrite T1. destruct (obj_get (td_task_id d) (p_tasks p)) as [r'|] eqn:Eg; [|done]. cbn.
      destruct (tk_tasks _ Hw _ _ Eg) as (t0 & Ht0 & Hi0). rewrite Ht0, (O1 r' t0); [done|done|]. rewrite Hi0. congruence.
  - intros r t0 Hr Hne. cbn [map fmap list_fmap] in Hne. apply not_elem_of_cons in Hne as [H1 H2]. apply O2; [by apply O1|done].
Qed.

(** What [set_tasks] does to the objects, apart from the document. *)
Lemma drop_tasks_same keep p : same_tasks p (drop_tasks keep p).
Proof. rewrite drop_tasks_spec. done. Qed.
Lemma insert_tasks_same refs p : same_tasks p (insert_tasks refs p).
Proof.
  unfold insert_tasks. revert p. induction refs as [|x refs IH]; intros p; [done|]. cbn [foldl].
  etransitivity; [|apply IH]. destruct (p_heap p !! x) as [t|]; [|done]. unfold task_insert. by case_bool_decide.
Qed.

(** What an answer says about a task. *)
Definition answer_for (id : jstring) (tasks : list task_data) : option task_data :=
  head (filter (λ data, td_task_id data = id) tasks).

Lemma answer_for_none id tasks : id ∉ map td_task_id tasks → answer_for id tasks = None.
Proof.
  unfold answer_for. induction tasks as [|d tasks IH]; [done|]. cbn [map]. intros [H1 H2]%not_elem_of_cons.
  rewrite filter_cons_False by congruence. by apply IH.
Qed.
Lemma answer_for_some data tasks :
  NoDup (map td_task_id tasks) → data ∈ tasks → answer_for (td_task_id data) tasks = Some data.
Proof.
  unfold answer_for. induction tasks as [|d tasks IH]; [by intros _ ?%elem_of_nil|]. cbn [map].
  intros [Hn Hnd]%NoDup_cons [<-|Hd]%elem_of_cons; [by rewrite filter_cons_True|].
  rewrite filter_cons_False; [by apply IH|]. intros E. apply Hn. rewrite E. apply list_elem_of_fmap. by exists data.
Qed.

Lemma set_tasks_known tasks p :
  tasks_known p → NoDup (map td_task_id tasks) →
  tasks_known (set_tasks tasks p)
  ∧ ∀ id, status_at (set_tasks tasks p) id = next_status (status_at p id) <$> answer_for id tasks.
Proof.
  intros Hw Hnd. unfold set_tasks. destruct (get_tasks tasks p) as [refs q] eqn:Eg.
  destruct (get_tasks_known _ _ _ _ Eg Hw Hnd) as (Wq & Tq & F & _).
  assert (Forall2 (λ data ref, ∃ t, p_heap q !! ref = Some t ∧ t_id t = Some (td_task_id data)) tasks refs) as F'.
  { eapply Forall2_impl; [exact F|]. intros d r (t & H1 & H2 & _). by exists t. }
  destruct (new_tasks_spec tasks refs q Hnd F') as (_ & N2 & N3 & _ & N5).
  set (new := obj_assign _ _) in *. set (q1 := set_tasks_by_id new (drop_tasks _ q)).
  destruct (drop_tasks_same (λ k, bool_decide (k ∈ obj_keys new)) q) as (_ & D2 & D3).
  assert (tasks_known q1) as W1.
  { split; cbn; rewrite ?D2, ?D3; [exact N5|exact (tk_heap _ Wq)]. }
  pose proof (insert_tasks_same refs q1) as S1. set (q2 := insert_tasks refs q1) in *. split.
  { apply (same_tasks_known q1); [exact S1|done]. }
  intros id. change (status_at q2 id = next_status (status_at p id) <$> answer_for id tasks).
  unfold status_at at 1. rewrite (same_tasks_at q1 q2 id S1). unfold task_at at 1. change (p_tasks q1) with new.
  change (p_heap q1) with (p_heap (drop_tasks (λ k, bool_decide (k ∈ obj_keys new)) q)). rewrite D2.
  destruct (decide (id ∈ map td_task_id tasks)) as [Hin|Hn].
  - apply list_elem_of_fmap in Hin as (d & -> & Hd). rewrite answer_for_some by done. cbn.
    apply list_elem_of_lookup in Hd as [i Hi]. destruct (Forall2_lookup_l _ _ _ _ _ N3 Hi) as (r & Hr & ->). cbn.
    destruct (Forall2_lookup_lr _ _ _ _ _ _ F Hi Hr) as (t & -> & _ & Hs). cbn. by rewrite Hs.
  - rewrite answer_for_none by done. cbn. destruct (obj_get id new) as [r|] eqn:E; [|done]. exfalso. apply Hn, N2, obj_get_keys. by rewrite E.
Qed.

(** No other event changes a task. *)
Lemma show_alert_same m a p : same_tasks p (show_alert m a p).
Proof.
  unfold show_alert, new_elem. destruct (createElement "li"%js _). destruct (createElement "div"%js _). case_bool_decide; [|done].
  by destruct (createElement "i"%js _).
Qed.
Lemma foldl_same {A} (f : page → A → page) l p : (∀ p x, same_tasks p (f p x)) → same_tasks p (foldl f p l).
Proof. intros H. revert p. induction l as [|x l IH]; intros p; [done|]. cbn. etransitivity; [apply H|apply IH]. Qed.
Lemma task_check_same b p : same_tasks p (task_check b p).
Proof. unfold task_check. destruct b; cbn; by destruct (p_timeout_id _). Qed.
Lemma result_alerts_same results p : same_tasks p (result_alerts results p).
Proof.
  unfold result_alerts. etransitivity; [|apply task_check_same]. apply foldl_same. intros q a.
  destruct (obj_get a results); [|done]. apply foldl_same. intros. apply show_alert_same.
Qed.

Lemma fire_known e p q :
  fire e p = Some q → tasks_known p →
  match e with
  | TasksAnswer tasks => NoDup (map td_task_id tasks) → tasks_known q
      ∧ ∀ id, status_at q id = next_status (status_at p id) <$> answer_for id tasks
  | _ => same_tasks p q
  end.
Proof.
  intros E Hw. destruct e as [id delay|tasks| |results| |el h|i]; cbn in E.
  - case_bool_decide; [|done]. injection E as <-. etransitivity; [|apply task_check_same]. done.
  - intros Hnd. destruct (p_inflight p); [done|]. injection E as <-. apply (set_tasks_known tasks (set_requests _ _ p)); [by apply (same_tasks_known p)|done].
  - destruct (p_inflight p); [done|]. by injection E as <-.
  - injection E as <-. apply result_alerts_same.
  - injection E as <-. apply task_check_same.
  - case_bool_decide; [|done]. injection E as <-. destruct h as [sel|t|]; [done| |].
    + cbn. by destruct (p_heap p !! t).
    + exact (drop_tasks_same (λ _, false) p).
  - destruct (p_fx p !! i) as [f|]; [|done]. injection E as <-. by destruct f.
Qed.

Lemma status_same p q id : same_tasks p q → status_at q id = status_at p id.
Proof. intros H. unfold status_at. by rewrite (same_tasks_at p q id H). Qed.

(** ** When results are shown *)

(** The answers of the task API among events, and whether one of them makes a task succeed.  A
    status that counts as finished is kept as long as the task stays in the answers. *)
Definition task_answers (es : list search_event) : list (list task_data) :=
  omap (λ e, match e with OnPage (TasksAnswer tasks) => Some tasks | _ => None end) es.
Definition succeeded (s : option (option jstring)) : bool := bool_decide (s = Some (Some "SUCCESS"%js)).
Fixpoint succeeds (id : jstring) (known : option (option jstring)) (answers : list (list task_data)) : bool :=
  match answers with
  | [] => false
  | tasks :: answers =>
      let known := next_status known <$> answer_for id tasks in
      succeeded known || succeeds id known answers
  end.

(** Events that do not start another search: answers name each task once, and none is called null. *)
Definition no_search (e : search_event) : Prop :=
  match e with
  | Searched results => sa_task_id results = None
  | OnPage (TasksAnswer tasks) => NoDup (map td_task_id tasks) ∧ "null"%js ∉ map td_task_id tasks
  | _ => True
  end.

(** The call that shows results. *)
Definition result_call (shown : bool) (url : jstring) : table_call :=
  if shown then TableLoad url else TableNew (Some url).

Lemma check_waiting st id url :
  RESULTS_TASK_ID st = Some id → RESULTS_URL st = Some (Some url) →
  check_search_results st =
    if succeeded (status_at (sp_page st) id) then set_wanted (Some (Some url)) None (call_table (result_call (RESULTS_SHOWN st) url) st)
    else st.
Proof.
  intros Hid Hurl. unfold check_search_results, status_at, succeeded. rewrite Hid.
  change (default "null"%js (Some id)) with id.
  destruct (task_at (sp_page st) id) as [t|]; cbn [fmap option_fmap option_map]; [|by case_bool_decide].
  rewrite (bool_decide_ext (t_status t = Some "SUCCESS"%js) (Some (t_status t) = Some (Some "SUCCESS"%js)))
    by (split; congruence).
  case_bool_decide; [|done]. unfold show_results, result_call. rewrite Hurl. destruct (RESULTS_SHOWN st); cbn; by rewrite Hurl.
Qed.

Lemma check_idle st : RESULTS_TASK_ID st = None → status_at (sp_page st) "null"%js = None → check_search_results st = st.
Proof.
  intros Hid Hn. unfold check_search_results, status_at in *. rewrite Hid.
  change (default "null"%js None) with "null"%js.
  by destruct (task_at (sp_page st) "null"%js).
Qed.

(** What the events do to the tasks, the wanted results and the table, other than by an answer of
    the task API. *)
Lemma other_event e st st' :
  no_search e → apply_event e st = Some st' → tasks_known (sp_page st) →
  match e with
  | OnPage (TasksAnswer tasks) => ∃ p, st' = check_search_results (set_page p st) ∧ tasks_known p
      ∧ ∀ id, status_at p id = next_status (status_at (sp_page st) id) <$> answer_for id tasks
  | _ => same_tasks (sp_page st) (sp_page st') ∧ RESULTS_TASK_ID st' = RESULTS_TASK_ID st
      ∧ RESULTS_URL st' = RESULTS_URL st ∧ RESULTS_SHOWN st' = RESULTS_SHOWN st ∧ sp_table st' = sp_table st
  end.
Proof.
  intros Hq E Hw. destruct e as [e|r|r|b q|i q]; cbn [apply_event] in E.
  - destruct e; cbn [apply_event] in E;
      match type of E with context [fire ?x ?p] => destruct (fire x p) as [p1|] eqn:Ef; [|done] end; injection E as <-;
      pose proof (fire_known _ _ _ Ef Hw) as K; cbn in K; [by split_and!|..|by split_and!|by split_and!|by split_and!|by split_and!|by split_and!].
    destruct Hq as [Hnd _]. destruct (K Hnd) as [K1 K2]. by exists p1.
  - injection E as <-. cbn in Hq. unfold search_success. rewrite Hq. split_and!; try done.
    cbn. etransitivity; [apply result_alerts_same|apply task_check_same].
  - by injection E as <-.
  - injection E as <-. unfold query_keypress. by destruct (sp_timeout st), b.
  - unfold parse_timer in E. case_bool_decide; [|done]. by injection E as <-.
Qed.

Lemma idle_run es st st' :
  tasks_known (sp_page st) → RESULTS_TASK_ID st = None → Forall no_search es → apply_events es st = Some st' →
  sp_table st' = sp_table st ∧ RESULTS_TASK_ID st' = None.
Proof.
  revert st. induction es as [|e es IH]; intros st Hw Hid Hf E; cbn [apply_events] in E; [by injection E as <-|].
  apply Forall_cons in Hf as [Hq Hf]. destruct (apply_event e st) as [st1|] eqn:E1; [|done]. cbn [mbind option_bind] in E.
  pose proof (other_event e st st1 Hq E1 Hw) as O.
  assert (tasks_known (sp_page st1) ∧ RESULTS_TASK_ID st1 = None ∧ sp_table st1 = sp_table st) as (H1 & H2 & <-); [|by apply IH].
  destruct e as [[| tasks | | | | | ]| | | |];
    try (destruct O as (O1 & O2 & _ & _ & O5); split_and!; [by eapply same_tasks_known|congruence|done]).
  destruct O as (p & -> & Hp & Hs). destruct Hq as [_ Hn].
  rewrite check_idle; [done|done|]. cbn. rewrite Hs. by rewrite answer_for_none.
Qed.

Lemma waiting_run es st st' id url :
  tasks_known (sp_page st) → RESULTS_TASK_ID st = Some id → RESULTS_URL st = Some (Some url) →
  Forall no_search es → apply_events es st = Some st' →
  let shown := succeeds id (status_at (sp_page st) id) (task_answers es) in
  sp_table st' = sp_table st ++ (if shown then [result_call (RESULTS_SHOWN st) url] else [])
  ∧ RESULTS_TASK_ID st' = (if shown then None else Some id).
Proof.
  cbv zeta. revert st. induction es as [|e es IH]; intros st Hw Hid Hurl Hf E; cbn [apply_events] in E.
  { injection E as <-. cbn. by rewrite app_nil_r. }
  apply Forall_cons in Hf as [Hq Hf]. destruct (apply_event e st) as [st1|] eqn:E1; [|done]. cbn [mbind option_bind] in E.
  pose proof (other_event e st st1 Hq E1 Hw) as O.
  destruct e as [[| tasks | | | | | ]| | | |];
    try (destruct O as (O1 & O2 & O3 & O4 & O5); unfold task_answers; cbn [omap list_omap];
         rewrite <- (status_same _ _ id O1), <- O4, <- O5; apply IH; [by eapply same_tasks_known|congruence|congruence|done|done]).
  destruct O as (p & -> & Hp & Hs). unfold task_answers. cbn [omap list_omap succeeds]. rewrite <- Hs.
  revert E. rewrite (check_waiting _ id url) by done. cbn [sp_page set_page].
  destruct (succeeded (status_at p id)); intros E; cbn [orb].
  - match type of E with apply_events _ ?s = _ => destruct (idle_run es s st' Hp eq_refl Hf E) as [H1 H2] end. by rewrite H1, H2.
  - by apply (IH (set_page p st)).
Qed.

(** C2: once the answer to a search has named a task and the address of its results, and until another search is
    started, the table is asked for exactly these results exactly once, with the first answer of the task API
    after which the page knows the task as succeeded, and not before. Each answer names each task once and none
    is called null; the page does not replace a status that counts as finished (success, failure or retry) while
    the task stays in the answers, so a task that it saw waiting for a retry is never shown. *)
Theorem results_shown_once results es st st' id url :
  tasks_known (sp_page st) → sa_task_id results = Some id → sa_results_url results = Some url →
  Forall no_search es → apply_events (Searched results :: es) st = Some st' →
  let shown := succeeds id (status_at (sp_page st) id) (task_answers es) in
  sp_table st' = sp_table st ++ (if shown then [result_call (RESULTS_SHOWN st) url] else [])
  ∧ RESULTS_TASK_ID st' = (if shown then None else Some id).
Proof.
  intros Hw Hid Hurl Hf E. cbn [apply_events apply_event mbind option_bind] in E.
  set (st1 := search_success results st) in *.
  assert (same_tasks (sp_page st) (sp_page st1)) as S.
  { unfold st1, search_success. rewrite Hid. cbn. etransitivity; [apply result_alerts_same|apply task_check_same]. }
  assert (RESULTS_TASK_ID st1 = Some id ∧ RESULTS_URL st1 = Some (Some url) ∧ RESULTS_SHOWN st1 = RESULTS_SHOWN st ∧ sp_table st1 = sp_table st)
    as (H1 & H2 & H3 & H4) by (unfold st1, search_success; rewrite Hid; cbn; by rewrite Hurl).
  cbv zeta. rewrite <- (status_same _ _ id S), <- H3, <- H4. apply waiting_run; try done. by eapply same_tasks_known.
Qed.

Definition sample_search : search_answer :=
  SearchAnswer [("success"%js, AlertOne "Search Started"%js)] (Some "t"%js) (Some "/flows/7"%js)
    (ParseAnswer (Some []) (Some []) None None).
Definition reported (status : jstring) : search_event :=
  OnPage (TasksAnswer [TaskData "t"%js "now"%js "Performing Flow Search"%js None [status]]).
Definition sample_run : list search_event := [reported "STARTED"%js; reported "SUCCESS"%js].

Example results_shown_once_witness :
  match apply_events (Searched sample_search :: sample_run) (initial_search None demo_page) with
  | Some st => sp_table st = [TableNew (Some "/flows/7"%js)] ∧ RESULTS_TASK_ID st = None
  | None => False
  end.
Proof.
  destruct (apply_events (Searched sample_search :: sample_run) (initial_search None demo_page)) as [st|] eqn:E; [|vm_compute in E; discriminate E].
  destruct (results_shown_once sample_search sample_run (initial_search None demo_page) st "t"%js "/flows/7"%js) as [H1 H2].
  - apply page_wf_known, demo_page_wf.
  - reflexivity.
  - reflexivity.
  - repeat constructor; first [apply (bool_decide_eq_true_1 _); vm_compute; reflexivity
      |apply (bool_decide_eq_true_1 ("null"%js ∉ ["t"%js])); vm_compute; reflexivity].
  - exact E.
  - rewrite H1, H2. vm_compute. split; reflexivity.
Defined.

(** A search whose task was once reported as RETRY is never shown while the task stays in the
    answers: the page keeps the status it knows. *)
Lemma retry_hides_results :
  match apply_events (Searched sample_search :: [reported "RETRY"%js; reported "SUCCESS"%js]) (initial_search None demo_page) with
  | Some st => sp_table st = []
  | None => False
  end.
Proof. vm_compute. reflexivity. Qed.

(** The answer to a search asks for the tasks twice, once from the alerts: two polling loops. *)
Lemma search_forks_polling results st :
  p_inflight (sp_page (search_success results st)) = S (S (p_inflight (sp_page st))).
Proof.
  transitivity (p_inflight (task_check true (result_alerts (sa_alerts results) (sp_page st)))).
  { unfold search_success. by destruct (sa_task_id results). }
  destruct (poll_fields _ _ _ _ _ _ (poll_task_check true (result_alerts (sa_alerts results) (sp_page st)))) as (_ & _ & _ & _ & ->).
  destruct (poll_fields _ _ _ _ _ _ (poll_result_alerts (sa_alerts results) (sp_page st))) as (_ & _ & _ & _ & ->).
  destruct (poll_fields _ _ _ _ _ _ (poll_task_check false (sp_page st))) as (_ & _ & _ & _ & ->). done.
Qed.

(** ** The reading of a query *)

Definition marked (p : piece) : bool := pc_class p =s? "bg-danger"%js.

Lemma token_class_unmarked k : (default [] (obj_get k _TOKEN_CLASSES) =s? "bg-danger"%js) = false.
Proof.
  unfold _TOKEN_CLASSES. cbn [obj_get]. repeat (destruct (decide _); [vm_compute; reflexivity|]). vm_compute. reflexivity.
Qed.

Lemma token_piece_marked e tok :
  marked (token_piece (Some e) tok) = (tok_id e =? tok_id tok)%Z
  ∧ (tok_id e = tok_id tok → token_piece (Some e) tok = error_piece e).
Proof.
  unfold token_piece. destruct (Z.eqb_spec (tok_id e) (tok_id tok)); split; try done. apply token_class_unmarked.
Qed.

Lemma filter_unmarked tokens : List.filter marked (token_piece None <$> tokens) = [].
Proof.
  induction tokens as [|tok tokens IH]; [done|]. cbn [fmap list_fmap List.filter].
  by rewrite (token_class_unmarked (tok_type tok) : marked (token_piece None tok) = false).
Qed.

(** The reading of a query puts one element per token into the page, in order, and marks exactly
    one place as wrong, with what the server says about it, when there is an error at one of the
    tokens or behind all of them; behind such a place the rest of the query follows as it was
    typed, and the message comes last.  Without an error nothing is marked. *)
Theorem parse_display_correct a tokens :
  ps_tokens a = Some tokens → NoDup (tok_id <$> tokens) →
  let last_end := foldl (λ _ tok, (tok_pos tok).2) 0 tokens in
  let pieces := (show_parse_search_results a).1 in
  let finished := (show_parse_search_results a).2 in
  match ps_error_token a with
  | None => finished = true ∧ List.filter marked pieces = [] ∧ take (length tokens) pieces = token_piece None <$> tokens
  | Some e =>
      (tok_id e ∈ tok_id <$> tokens → (tok_pos e).2 ≤ last_end →
        finished = true ∧ List.filter marked pieces = [error_piece e] ∧ take (length tokens) pieces = token_piece (Some e) <$> tokens)
      ∧ (∀ search, tok_id e ∉ tok_id <$> tokens → last_end < (tok_pos e).2 → ps_search a = Some search →
        finished = true ∧ List.filter marked pieces = [error_piece e]
        ∧ ∃ tail, pieces = (token_piece None <$> tokens) ++ error_piece e :: Piece "span"%js "text-muted"%js (drop (tok_pos e).2 search) :: tail
            ∧ tail = match ps_error_msg a with Some m => [Piece "h5"%js "text-danger"%js m] | None => [] end)
  end.
Proof.
  intros Ht Hnd. cbv zeta. unfold show_parse_search_results. rewrite Ht. cbv zeta.
  set (last := foldl _ 0 tokens). set (msg := match ps_error_msg a with Some _ => _ | None => _ end).
  assert (List.filter marked msg = []) as Hm by by unfold msg; destruct (ps_error_msg a).
  destruct (ps_error_token a) as [e|].
  - split.
    + intros Hin Hle. destruct (Nat.ltb_spec last (tok_pos e).2); [lia|]. cbn [fst snd].
      rewrite List.filter_app, Hm, app_nil_r, take_app_length' by by rewrite length_fmap. split_and!; [done| |done].
      clear -Hnd Hin. induction tokens as [|tok tokens IH]; [by apply elem_of_nil in Hin|].
      rewrite fmap_cons in *. apply NoDup_cons in Hnd as [Hn Hnd]. cbn [List.filter]. destruct (token_piece_marked e tok) as [-> Heq].
      destruct (Z.eqb_spec (tok_id e) (tok_id tok)) as [E|E].
      * rewrite (Heq E). f_equal. rewrite <- E in Hn. clear -Hn. induction tokens as [|tok' tokens IH]; [done|].
        rewrite fmap_cons in *. apply not_elem_of_cons in Hn as [H1 H2]. cbn [List.filter].
        destruct (token_piece_marked e tok') as [-> _]. destruct (Z.eqb_spec (tok_id e) (tok_id tok')); [done|by apply IH].
      * apply IH; [done|]. by apply elem_of_cons in Hin as [?|?].
    + intros search Hn Hlt ->. destruct (Nat.ltb_spec last (tok_pos e).2); [|lia]. cbn [fst snd].
      assert (token_piece (Some e) <$> tokens = token_piece None <$> tokens) as ->.
      { apply list_fmap_ext. intros i tok Hi. unfold token_piece. destruct (Z.eqb_spec (tok_id e) (tok_id tok)) as [E|]; [|done].
        exfalso. apply Hn. rewrite E. apply list_elem_of_fmap_2. by apply list_elem_of_lookup_2 in Hi. }
      split_and!; [done| |by eexists].
      rewrite !List.filter_app, Hm, (filter_unmarked tokens). reflexivity.
  - cbn [fst snd]. rewrite List.filter_app, Hm, (filter_unmarked tokens), take_app_length' by by rewrite length_fmap. by split_and!.
Qed.

Definition sample_tokens : list query_token :=
  [QueryToken 1 "SRCv4"%js "src 10.1.2.3"%js (0, 12) "src 10.1.2.3"%js; QueryToken 2 "AND"%js "and"%js (13, 16) "and"%js].
Definition sample_reading : parse_answer :=
  ParseAnswer (Some sample_tokens) (Some "src 10.1.2.3 and sick 1"%js) (Some "Bad token"%js)
    (Some (QueryToken 3 "ERROR"%js "sick"%js (17, 21) "sick"%js)).

Example parse_display_correct_witness :
  List.filter marked (show_parse_search_results sample_reading).1 = [Piece "span"%js "bg-danger"%js "sick "%js]
  ∧ pc_text <$> (show_parse_search_results sample_reading).1 = ["src 10.1.2.3 "%js; "and "%js; "sick "%js; " 1"%js; "Bad token"%js].
Proof.
  assert (NoDup (tok_id <$> sample_tokens)) as Hnd by (apply (bool_decide_eq_true_1 _); vm_compute; reflexivity).
  destruct (proj2 (parse_display_correct sample_reading sample_tokens eq_refl Hnd) "src 10.1.2.3 and sick 1"%js) as (_ & H & _).
  - apply (bool_decide_eq_true_1 (3%Z ∉ [1%Z; 2%Z])). vm_compute. reflexivity.
  - vm_compute. lia.
  - reflexivity.
  - split; [exact H|reflexivity].
Defined.

(** The parts around an error make up the text. *)
Lemma error_parts pos text msg :
  pos.1 ≤ pos.2 → concat (pc_text <$> drop 1 (show_search_parse_error pos text msg)) = text.
Proof.
  intros H. unfold show_search_parse_error, substring, substring_from, slice. cbn [drop fmap list_fmap pc_text concat].
  rewrite Nat.min_0_l, Nat.max_0_l, Nat.min_l, Nat.max_r, drop_0, Nat.sub_0_r, app_nil_r by done.
  replace (drop pos.2 text) with (drop (pos.2 - pos.1) (drop pos.1 text)) by (rewrite drop_drop; f_equal; lia).
  by rewrite take_drop, take_drop.
Qed.

(** ** The request of a search *)

(** The fields of a request, in order. *)
Definition search_fields (iso : Z → jstring) (csrf target : jstring) (f : search_form) : list (jstring * jstring) :=
  [("csrfmiddlewaretoken"%js, csrf); ("proto"%js, default [] (sf_proto f))]
  ++ option_list (pair "query"%js <$> sf_query f)
  ++ option_list ((λ t, ("start"%js, iso t)) <$> sf_start f)
  ++ option_list ((λ t, ("end"%js, iso t)) <$> sf_end f)
  ++ [("action"%js, if target =s? "search_form-pcap-btn"%js then "pcap"%js else "flows"%js)].

Lemma search_calls iso csrf target f :
  ∃ l, param_calls (VObj (search_data iso csrf target f)) false = l
    ∧ (λ kv, (kv.1, add_value kv.2)) <$> l = search_fields iso csrf target f.
Proof.
  eexists. split; [reflexivity|]. unfold search_fields, search_data. destruct f as [[q|] [pr|] [a|] [b|]]; reflexivity.
Qed.

(** C3: the request of a search is made whenever the fields are well-formed texts, and its body
    decodes to exactly the fields of the form: the token, the protocol, the query and the dates that
    are set, and the action of the button that was pressed. *)
Theorem search_request_roundtrip iso csrf target f :
  Forall (λ kv, Forall unit16 kv.2 ∧ well_formed kv.2 = true) (search_fields iso csrf target f) →
  ∃ body, do_search iso csrf target f = Some body ∧ deep_pairs body = Some (search_fields iso csrf target f).
Proof.
  intros Hf. destruct (search_calls iso csrf target f) as (l & El & Efields). unfold do_search, param. rewrite El.
  assert (Forall (λ kv : jstring * val, kv.1 ∈ ["csrfmiddlewaretoken"%js; "proto"%js; "query"%js; "start"%js; "end"%js; "action"%js]) l) as Hkeys.
  { apply Forall_forall. intros kv Hkv. assert ((kv.1, add_value kv.2) ∈ search_fields iso csrf target f) as Hin.
    { rewrite <- Efields. apply list_elem_of_fmap. by exists kv. }
    clear -Hin. revert Hin. unfold search_fields. generalize (add_value kv.2), kv.1. intros v k.
    destruct f as [[q|] [pr|] [a|] [b|]]; cbn [option_list sf_query sf_proto sf_start sf_end fmap option_fmap option_map app];
      intros H; repeat (apply elem_of_cons in H as [[= -> ->]|H]; [apply (bool_decide_eq_true_1 _); vm_compute; reflexivity|]);
      by apply elem_of_nil in H. }
  assert (∀ k, k ∈ ["csrfmiddlewaretoken"%js; "proto"%js; "query"%js; "start"%js; "end"%js; "action"%js] → Forall unit16 k ∧ well_formed k = true) as Hk.
  { intros k Hk. repeat (apply elem_of_cons in Hk as [->|Hk];
      [split; [apply (bool_decide_eq_true_1 (Forall _ _))|]; vm_compute; reflexivity|]). by apply elem_of_nil in Hk. }
  assert (Forall (λ kv : jstring * val, (Forall unit16 kv.1 ∧ Forall unit16 (add_value kv.2)) ∧ well_formed kv.1 = true ∧ well_formed (add_value kv.2) = true) l) as Hl.
  { rewrite <- Efields in Hf. apply Forall_fmap in Hf. rewrite Forall_forall in *. intros kv Hkv.
    destruct (Hf kv Hkv), (Hk kv.1 (Hkeys kv Hkv)). by split_and!. }
  destruct (proj2 (serialize_defined l)) as [body Eb]; [eapply Forall_impl; [exact Hl|]; by intros ? [_ ?]|].
  exists body. split; [done|]. rewrite (deep_pairs_serialize l body); [by rewrite <- Efields| | |done].
  - intros ->. by destruct f as [[?|] [?|] [?|] [?|]].
  - eapply Forall_impl; [exact Hl|]. by intros ? [? _].
Qed.

Example search_request_roundtrip_witness :
  ∃ body, do_search (λ _, "2016-05-01T00:00:00.000Z"%js) "tok"%js "search_form-pcap-btn"%js
            (SearchForm (Some "src 10.0.0.1 & port"%js) (Some "6"%js) (Some 0%Z) None) = Some body
    ∧ deep_pairs body = Some [("csrfmiddlewaretoken"%js, "tok"%js); ("proto"%js, "6"%js); ("query"%js, "src 10.0.0.1 & port"%js);
        ("start"%js, "2016-05-01T00:00:00.000Z"%js); ("action"%js, "pcap"%js)].
Proof.
  apply (search_request_roundtrip (λ _, "2016-05-01T00:00:00.000Z"%js) "tok"%js "search_form-pcap-btn"%js
           (SearchForm (Some "src 10.0.0.1 & port"%js) (Some "6"%js) (Some 0%Z) None)).
  repeat constructor; apply (bool_decide_eq_true_1 (Forall _ _)); vm_compute; reflexivity.
Defined.

(** ** The timer of the keys *)

(** At most one timer is pending, the one the page would cancel. *)
Definition keys_ok (st : search_page) : Prop :=
  sp_timers st = [] ∨ ∃ id, sp_timeout st = Some id ∧ sp_timers st = [id].

Lemma keys_frame st st' : sp_timers st' = sp_timers st → sp_timeout st' = sp_timeout st → keys_ok st → keys_ok st'.
Proof. unfold keys_ok. by intros -> ->. Qed.

Lemma check_keys st : sp_timers (check_search_results st) = sp_timers st ∧ sp_timeout (check_search_results st) = sp_timeout st.
Proof.
  unfold check_search_results. destruct (task_at _ _); [|done]. case_bool_decide; [|done].
  unfold show_results. destruct (RESULTS_URL st) as [[u|]|]; [..|done]; by destruct (RESULTS_SHOWN st).
Qed.

(** A key cancels what was to be sent for the key before it; a space sends at once and leaves
    nothing pending. *)
Theorem one_parse_timer e st st' : keys_ok st → apply_event e st = Some st' → keys_ok st'.
Proof.
  intros Hk E. destruct e as [e|r|r|b q|id q]; cbn [apply_event] in E.
  - destruct e; cbn [apply_event] in E;
      match type of E with context [fire ?x ?p] => destruct (fire x p) as [p1|]; [|done] end; injection E as <-; try exact Hk.
    destruct (check_keys (set_page p1 st)) as [E1 E2]. by apply (keys_frame st).
  - injection E as <-. apply (keys_frame st); [..|exact Hk]; unfold search_success; by destruct (sa_task_id r).
  - by injection E as <-.
  - injection E as <-. unfold query_keypress.
    destruct Hk as [Hk|(id & Ht & Hk)].
    + destruct (sp_timeout st) as [id|]; cbn; rewrite Hk; destruct b; (by left) || (right; by eexists).
    + rewrite Ht. cbn. rewrite Hk, filter_cons_False by naive_solver. destruct b; [by left|right; by eexists].
  - unfold parse_timer in E. case_bool_decide as Hin; [|done]. injection E as <-. destruct Hk as [Hk|(id' & Ht & Hk)].
    + rewrite Hk in Hin. by apply elem_of_nil in Hin.
    + left. rewrite Hk in Hin. apply list_elem_of_singleton in Hin as ->. cbn. rewrite Hk. by rewrite filter_cons_False by naive_solver.
Qed.
