(* ===== verification/PageConf.v ===== *)
(** * The pages of the configuration (templates/conf/)

    The locator lights of disks, whose row and slot travel through the id of an element; the tables of
    disks, filled anew after every action; the requests about users; the buttons that start
    and stop a capture. *)

From S2P Require Import Prelude JsString JsObject JsNumber JsValue JsInt DtUtil DtModel DtTypes DtSort DtPage DtData DtDraw DtHeader DtColumns DtSelect DtSelectTheorems DtCells DtSelection.

(** ** Locator lights (remote_disks_gui.html) *)

(** The members of a disk that matter here; [None]: undefined. *)
Record disk := Disk { d_slot : option jstring; d_enclosure : option jstring; d_locate : option bool }.

Definition under (sep : N) (r : jstring) (s : jstring) : jstring := replace_units (λ u, (u =? sep)%N) r s.

(** The id of the icon, and [locate_icon_html]. *)
Definition locate_id (enclosure slot : jstring) : jstring :=
  "locate__"%js ++ under 58 "_"%js enclosure ++ "__"%js ++ replace_first " "%js "_"%js slot.
Definition locate_icon_html (data : disk) : jstring :=
  match d_slot data, d_enclosure data, d_locate data with
  | Some slot, Some enclosure, Some locate =>
      let icon_class := if locate then "fa fa-lg fa-fw fa-circle locate-on"%js else "fa fa-lg fa-fw fa-circle locate-off"%js in
      let quoted s := [34%N] ++ s ++ [34%N] in
      "<i id="%js ++ quoted (locate_id enclosure slot) ++ " class="%js ++ quoted icon_class
        ++ " title="%js ++ quoted "Toggle the locator light for this enclosure slot."%js ++ "></i>"%js
  | _, _, _ => []
  end.

(** [locate_toggle] on an icon: the enclosure and the slot it sends, [None] for an exception. *)
Definition locate_toggle (icon_id : jstring) : option (jstring * jstring) :=
  let parts := split "__"%js icon_id in
  p1 ← parts !! 1; p2 ← parts !! 2;
  Some (under 95 ":"%js p1, replace_first "_"%js " "%js p2).

(** ** Requests about users (users.html) *)

(** The ids of the icons that reset a password or show a token, and what [reset_user] sends. *)
Definition reset_id (script : bool) (username : jstring) : jstring :=
  (if script then "tokenbtn_"%js else "resetbtn_"%js) ++ username.
Definition reset_user (icon_id : jstring) : option jstring := split "_"%js icon_id !! 0.

(** ** The tables of disks *)

Section tables.
Variable rowIdFn : val → option jstring.
Variable redraw : settings → option settings.          (* the sort, the search and the draw of a table *)

(** [rows().remove(); rows.add(data); draw()] on one table: what it holds afterwards, and whether it
    came to its end; without data it stops after the rows were removed. *)
Definition all_items (s : settings) : option (list nat) :=
  l ← _selector_row_indexes s no_opts; mapM DtSelection.index_of l.
Definition load_table (data : option (list val)) (s : settings) : option (settings * bool) :=
  items ← all_items s;
  s ← rows_remove rowIdFn 0 (length items) items s;
  match data with
  | None => Some (s, false)
  | Some rows => '(_, s) ← rows_add rowIdFn rows s; s ← redraw s; Some (s, true)
  end.

(** [_load_tables]: the tables in turn, up to the first whose data is missing. *)
Fixpoint load_tables (data : list (option (list val))) (tables : list settings) : option (list settings) :=
  match data, tables with
  | d :: data, s :: tables =>
      '(s, go) ← load_table d s;
      if go : bool then tables ← load_tables data tables; Some (s :: tables) else Some (s :: tables)
  | _, _ => Some tables
  end.
End tables.

(** ** Capture buttons (remote_capture.html) *)

Inductive capture_action := Start | Restart | Stop.
#[export] Instance capture_action_eq_dec : EqDecision capture_action.
Proof. solve_decision. Defined.

(** A button: whether it has the class [disabled], and the actions of its click handlers. *)
Record button := Button { b_disabled : bool; b_clicks : list capture_action }.
Record buttons := Buttons { start_button : button; restart_button : button; stop_button : button }.

(** [addClass('disabled').off('click')], and [removeClass('disabled').off('click').click(...)]. *)
Definition switch_off (b : button) : button := Button true [].
Definition switch_on (a : capture_action) (b : button) : button := Button false ([] ++ [a]).

Definition running (status : jstring) : bool := (status =s? "OK"%js) || (status =s? "RESTART"%js).
Definition show_status (status : jstring) (b : buttons) : buttons :=
  if running status
  then Buttons (switch_off (start_button b)) (switch_on Restart (restart_button b)) (switch_on Stop (stop_button b))
  else Buttons (switch_on Start (start_button b)) (switch_off (restart_button b)) (switch_off (stop_button b)).

(** ** Ids and back *)

(** The unit [u] neither twice in a row nor at the end. *)
Fixpoint separable (u : N) (s : jstring) : bool :=
  match s with
  | [] => true
  | c :: t => match t with [] => negb (c =? u)%N | d :: _ => negb ((c =? u)%N && (d =? u)%N) && separable u t end
  end.

Lemma split_separable x y cur :
  separable 95 x = true → split_go "__"%js (x ++ "__"%js ++ y) 0 cur = (rev cur ++ x) :: split "__"%js y.
Proof.
  revert cur. induction x as [|c x IH]; intros cur H.
  { rewrite app_nil_r. cbn [app]. exact (split_go_sep 95%N "_"%js y cur). }
  cbn [app split_go]. match goal with |- context [starts_with ?a ?b] => assert (starts_with a b = false) as -> end.
  { cbn [starts_with]. destruct (bool_decide_reflect (95%N = c)) as [<-|]; [|done]. cbn [andb]. destruct x as [|d x]; [done|].
    cbn [separable] in H. cbn [app starts_with]. rewrite bool_decide_eq_false_2; [done|]. intros <-. cbn in H. discriminate H. }
  assert (separable 95 x = true) as Hx.
  { destruct x as [|d x]; [done|]. cbn [separable] in H. by apply andb_true_iff in H as [_ H]. }
  rewrite IH by done. cbn [rev]. by rewrite <- app_assoc.
Qed.

(** A text with one underscore at most is not split. *)
Lemma split_one x y cur :
  95%N ∉ x → 95%N ∉ y → split_go "__"%js (x ++ y) 0 cur = [rev cur ++ x ++ y]
    ∧ split_go "__"%js (x ++ 95%N :: y) 0 cur = [rev cur ++ x ++ 95%N :: y].
Proof.
  assert (∀ z cur, 95%N ∉ z → split_go "__"%js z 0 cur = [rev cur ++ z]) as H.
  { intros z. induction z as [|c z IH]; intros cur' Hz; [by rewrite app_nil_r|]. apply not_elem_of_cons in Hz as [Hc Hz].
    cbn [split_go starts_with]. rewrite bool_decide_eq_false_2 by done. cbn [andb]. rewrite IH by done. cbn [rev]. by rewrite <- app_assoc. }
  intros Hx Hy. split; [by apply H; rewrite elem_of_app; intros [?|?]|].
  revert cur. induction x as [|c x IH]; intros cur.
  - cbn [app split_go]. match goal with |- context [starts_with ?a ?b] => assert (starts_with a b = false) as -> end.
    { destruct y as [|d y]; [done|]. apply not_elem_of_cons in Hy as [Hd _]. cbn [starts_with].
      by rewrite bool_decide_eq_true_2, bool_decide_eq_false_2 by done. }
    rewrite H by done. cbn [rev]. by rewrite <- app_assoc.
  - apply not_elem_of_cons in Hx as [Hc Hx]. cbn [app split_go starts_with]. rewrite bool_decide_eq_false_2 by done. cbn [andb].
    rewrite IH by done. cbn [rev]. by rewrite <- app_assoc.
Qed.

Lemma under_involutive a b s : b ∉ s → under b [a] (under a [b] s) = s.
Proof.
  unfold under, replace_units. induction s as [|c s IH]; [done|]. intros [Hc Hs]%not_elem_of_cons. cbn [flat_map].
  rewrite flat_map_app, IH by done. destruct (N.eqb_spec c a) as [->|Hne]; cbn [flat_map app].
  - by rewrite N.eqb_refl.
  - destruct (N.eqb_spec c b); [congruence|done].
Qed.

Lemma under_cons a b c s : under b [a] (c :: s) = (if (c =? b)%N then a else c) :: under b [a] s.
Proof. unfold under, replace_units. cbn [flat_map]. by destruct (c =? b)%N. Qed.

Lemma separable_under a b s : a ∉ s → separable a (under b [a] s) = separable b s.
Proof.
  intros Ha. induction s as [|c s IH]; [done|]. apply not_elem_of_cons in Ha as [Hc Ha]. specialize (IH Ha).
  assert (∀ d, d ≠ a → ((if (d =? b)%N then a else d) =? a)%N = (d =? b)%N) as E.
  { intros d Hd. destruct (N.eqb_spec d b); [apply N.eqb_refl|by apply N.eqb_neq]. }
  rewrite under_cons. destruct s as [|d s].
  - cbn [under replace_units flat_map separable]. by rewrite (E c).
  - apply not_elem_of_cons in Ha as [Hd _]. rewrite under_cons in *. cbn [separable] in *. by rewrite IH, !E.
Qed.

Lemma index_of_unit c s :
  match JsString.index_of [c] s with
  | Some i => s = take i s ++ c :: drop (S i) s ∧ c ∉ take i s
  | None => c ∉ s
  end.
Proof.
  induction s as [|d s IH]; [by apply not_elem_of_nil|]. cbn [JsString.index_of starts_with]. rewrite andb_true_r.
  destruct (bool_decide_reflect (c = d)) as [->|Hne]; [split; [done|apply not_elem_of_nil]|].
  destruct (JsString.index_of [c] s) as [i|]; cbn [fmap option_fmap option_map].
  - destruct IH as [E Hn]. split; [cbn [take drop app]; by rewrite <- E|]. cbn [take]. by apply not_elem_of_cons.
  - by apply not_elem_of_cons.
Qed.

Lemma replace_first_back a b s :
  b ∉ s → replace_first [b] [a] (replace_first [a] [b] s) = s.
Proof.
  intros Hb. unfold replace_first at 2. pose proof (index_of_unit a s) as H. destruct (JsString.index_of [a] s) as [i|].
  - destruct H as [E Hn]. cbn [length]. rewrite Nat.add_1_r. set (x := take i s) in *. set (y := drop (S i) s) in *.
    assert (b ∉ x) as Hx by (intros Hx; apply Hb; rewrite E; apply elem_of_app; by left).
    unfold replace_first. cbn [app]. pose proof (index_of_unit b (x ++ b :: y)) as H.
    destruct (JsString.index_of [b] (x ++ b :: y)) as [j|].
    + destruct H as [Ej Hj]. assert (j = length x) as ->.
      { destruct (Nat.lt_trichotomy j (length x)) as [Hlt|[?|Hlt]]; [|done|].
        - exfalso. apply Hx. apply (f_equal (.!! j)) in Ej. rewrite lookup_app_l in Ej by done.
          rewrite list_lookup_middle in Ej by (rewrite length_take, length_app; cbn; lia).
          by eapply list_elem_of_lookup_2.
        - exfalso. apply Hj. rewrite take_app. apply elem_of_app. right. destruct (j - length x) eqn:?; [lia|]. cbn. by left. }
      rewrite take_app_length. cbn [length]. rewrite Nat.add_1_r, drop_app_ge by lia.
      replace (S (length x) - length x) with 1 by lia. by rewrite E.
    + exfalso. apply H, elem_of_app. right. by left.
  - unfold replace_first. pose proof (index_of_unit b s) as H'. destruct (JsString.index_of [b] s); [|done].
    destruct H' as [E _]. exfalso. apply Hb. rewrite E. apply elem_of_app. right. by left.
Qed.

(** The icon of a disk asks for the light of exactly this disk: the id made of the enclosure and
    the slot is read back as these, when neither holds an underscore and the enclosure has no two
    colons in a row and none at its end. *)
Theorem locate_roundtrip enclosure slot :
  95%N ∉ enclosure → 95%N ∉ slot → separable 58 enclosure = true →
  locate_toggle (locate_id enclosure slot) = Some (enclosure, slot).
Proof.
  intros He Hs Hsep. unfold locate_toggle, locate_id.
  assert (split "__"%js ("locate__"%js ++ under 58 "_"%js enclosure ++ "__"%js ++ replace_first " "%js "_"%js slot)
    = ["locate"%js; under 58 "_"%js enclosure; replace_first " "%js "_"%js slot]) as ->.
  { etransitivity; [apply (split_separable "locate"%js (under 58 "_"%js enclosure ++ "__"%js ++ replace_first " "%js "_"%js slot) []); vm_compute; reflexivity|].
    cbn [rev app]. f_equal. etransitivity; [apply split_separable; by rewrite (separable_under 95 58)|]. cbn [rev app]. f_equal.
    unfold split, replace_first. pose proof (index_of_unit 32%N slot) as H. change " "%js with [32%N]. change "_"%js with [95%N].
    destruct (JsString.index_of [32%N] slot) as [i|].
    - destruct H as [E _]. cbn [length]. rewrite Nat.add_1_r. cbn [app].
      apply (split_one (take i slot) (drop (S i) slot) []); intros Hin; apply Hs; rewrite E; apply elem_of_app; [by left|right; by right].
    - destruct (split_one slot [] [] Hs (not_elem_of_nil _)) as [E _]. by rewrite app_nil_r in E. }
  cbn [lookup list_lookup mbind option_bind]. f_equal. f_equal.
  - exact (under_involutive 58 95 enclosure He).
  - exact (replace_first_back 32 95 slot Hs).
Qed.

Example locate_roundtrip_witness :
  locate_toggle (locate_id "0:2:7"%js "Slot 3 B"%js) = Some ("0:2:7"%js, "Slot 3 B"%js).
Proof.
  apply (locate_roundtrip "0:2:7"%js "Slot 3 B"%js).
  - apply (bool_decide_eq_true_1 _). vm_compute. reflexivity.
  - apply (bool_decide_eq_true_1 _). vm_compute. reflexivity.
  - vm_compute. reflexivity.
Defined.

(** A colon at the end of an enclosure moves to its slot. *)
Lemma locate_colon_moves : locate_toggle (locate_id "0:"%js "4"%js) = Some ("0"%js, " 4"%js).
Proof. vm_compute. reflexivity. Qed.

(** The request to reset a password never names the user: what is sent is the part of the id before
    the underscore, which is the same for all users. *)
Lemma reset_loses_user script username :
  reset_user (reset_id script username) = Some (if script then "tokenbtn"%js else "resetbtn"%js).
Proof.
  unfold reset_user, reset_id, split.
  destruct script; [change "tokenbtn_"%js with ("tokenbtn"%js ++ "_"%js)|change "resetbtn_"%js with ("resetbtn"%js ++ "_"%js)];
    rewrite <- app_assoc; (rewrite (split_go_piece 95%N []); [|apply (bool_decide_eq_true_1 _); vm_compute; reflexivity]);
    by rewrite (split_go_sep 95%N []).
Qed.

(** ** The tables hold the answer *)

Lemma all_items_master s : is_ssp s = false → all_items s = Some (aiDisplayMaster s).
Proof.
  intros Hssp. unfold all_items.
  assert (_selector_row_indexes s no_opts = Some (found_rows (aiDisplayMaster s))) as ->
    by (unfold _selector_row_indexes; rewrite Hssp; reflexivity).
  cbn [mbind option_bind].
  induction (aiDisplayMaster s) as [|i l IH]; [done|]. unfold found_rows in *. rewrite fmap_cons. cbn [mapM].
  rewrite IH. cbn [DtSelection.index_of]. destruct (Z.ltb_spec (Z.of_nat i) 0); [lia|]. by rewrite Nat2Z.id.
Qed.

Section load.
Variable rowIdFn : val → option jstring.
Variable redraw : settings → option settings.

(** Removing every row and adding those of an answer leaves a table with exactly these rows, in their
    order and not yet displayed, which is drawn; nothing fails before that. *)
Theorem load_table_correct rows s :
  table_wf s → is_ssp s = false →
  ∃ s1, load_table rowIdFn redraw (Some rows) s = (s2 ← redraw s1; Some (s2, true))
    ∧ table_wf s1 ∧ _aData <$> aoData s1 = rows ∧ aiDisplayMaster s1 = seq 0 (length rows) ∧ aiDisplay s1 = [].
Proof.
  intros Hw Hssp. unfold load_table. rewrite all_items_master by done. cbn [mbind option_bind].
  destruct (master_wf s Hw) as [Hn Hf].
  destruct (rows_remove_spec rowIdFn (length (aiDisplayMaster s)) 0 (aiDisplayMaster s) s Hw) as (s0 & -> & W & H); [done|done|done|].
  cbn [mbind option_bind]. destruct (H _ eq_refl) as (D & M & L).
  assert (∀ l, Forall (λ i, i < length (aoData s)) l → filter (.∉ aiDisplayMaster s) l = []) as Hnil.
  { intros l Hl. induction Hl as [|i l Hi Hl IH]; [done|]. rewrite filter_cons_False; [done|]. intros Hi'. apply Hi'.
    rewrite (wf_master _ Hw). apply elem_of_seq. lia. }
  rewrite Hnil in D by (apply Forall_forall; intros i Hi%elem_of_seq; lia). apply fmap_nil_inv in D.
  rewrite Hnil in L by by destruct Hw. apply fmap_nil_inv in L.
  pose proof (wf_master _ W) as Em. rewrite D in Em. cbn in Em. apply Permutation_nil_r in Em.
  destruct (rows_add_some rowIdFn rows s0) as (s1 & -> & G & M1 & D1). rewrite D, Em in *. cbn [length app fmap list_fmap] in *.
  exists s1. assert (aiDisplay s1 = []) as Ld by by rewrite (f_equal aiDisplay G : aiDisplay s1 = aiDisplay s0).
  assert (length (aoData s1) = length rows) as Hl by by rewrite <- D1, length_fmap.
  split_and!; try done. split; [by rewrite M1, Hl|rewrite Ld; constructor|rewrite Ld; constructor].
Qed.
End load.

(** ** Capture buttons *)

(** The actions that a click on a button causes. *)
Definition offered (b : buttons) : list capture_action :=
  (if b_disabled (start_button b) then [] else b_clicks (start_button b))
  ++ (if b_disabled (restart_button b) then [] else b_clicks (restart_button b))
  ++ (if b_disabled (stop_button b) then [] else b_clicks (stop_button b)).

(** Whatever statuses the page has seen, a capture that runs can be restarted and stopped, one that
    does not can be started, each with one handler, and no disabled button has one. *)
Theorem buttons_follow_status statuses status b :
  let b' := foldl (λ b s, show_status s b) b (statuses ++ [status]) in
  offered b' = (if running status then [Restart; Stop] else [Start])
  ∧ Forall (λ x, b_disabled x = true → b_clicks x = []) [start_button b'; restart_button b'; stop_button b'].
Proof.
  cbv zeta. rewrite foldl_snoc. unfold show_status at 1 3 5 7. destruct (running status); split; try done; repeat constructor; done.
Qed.
