(* ===== verification/PageDashboard.v ===== *)
(** * The dashboard (templates/dashboard.html)

    The charts of the statistics: an answer of the server brings rows, whose columns become the
    graphs of a chart.  The chart object belongs to the chart library; of it the model keeps what the
    script reads and writes. *)

From Stdlib Require Import Sorting.Sorted.
From stdpp Require Import sorting.
From S2P Require Import Prelude JsString JsObject JqEvent JqEventOff.

(** A graph: the column it shows, and whether its bullets were hidden. *)
Record graph := Graph { valueField : jstring; bullets_hidden : bool }.

(** A chart: its titles and graphs, and the rows it shows, the columns of each in their order. *)
Record chart := Chart {
  titles : list jstring;
  graphs : list graph;
  dataProvider : list (jsobj jstring)
}.

(** [response['data']]: the rows, and the title. *)
Record statistics := Statistics { chart_data : option (list (jsobj jstring)); stats_title : jstring }.

Definition IGNORE_CHART_DATA_FIELDS : list jstring :=
  ["minute"%js; "capture_node__site_id"%js; "capture_node_id"%js; "interface_id"%js; "capture_node__hostname"%js;
   "capture_node__site__name"%js].

(** The columns of the first row that become graphs. *)
Definition datasets_of (rows : list (jsobj jstring)) : list jstring :=
  filter (.∉ IGNORE_CHART_DATA_FIELDS) (for_in (default [] (head rows))).

Definition hide_unused (datasets : list jstring) (g : graph) : graph :=
  if bool_decide (valueField g ∈ datasets) then g else Graph (valueField g) true.

(** The loop that adds the graphs; [graphs_made] was read before. *)
Definition add_graphs (graphs_made datasets : list jstring) (l : list graph) : list graph :=
  l ++ ((λ d, Graph d false) <$> filter (.∉ graphs_made) datasets).

(** [populate_chart(chart)] on an answer: the chart, and whether the function came to its end; an
    answer without data is an exception, after the chart was emptied. *)
Definition populate_chart (response : option statistics) (c : chart) : chart * bool :=
  match response with
  | None => (Chart (titles c) (graphs c) [], false)
  | Some data =>
      match chart_data data with
      | None => (Chart (titles c) (graphs c) [], true)
      | Some rows =>
          let datasets := datasets_of rows in
          let graphs_made := valueField <$> graphs c in
          let shown := hide_unused datasets <$> graphs c in
          (Chart [stats_title data] (add_graphs graphs_made (sort_strs datasets) shown) rows, true)
      end
  end.
Definition populate_all (l : list (option statistics)) (c : chart) : chart :=
  foldl (λ c r, (populate_chart r c).1) c l.

(** ** Requests *)

(** The fields of a form of the dashboard: an empty text counts as none. *)
Definition given (name : jstring) (v : option jstring) : jsobj jstring :=
  match v with Some t => if t =s? [] then [] else [(name, t)] | None => [] end.

(** The data of [get_stats_bygroup] and [get_stats_bystat]; [iso] is [new Date(t).toISOString()], [None]
    for an exception. *)
Definition given_date (iso : jstring → option jstring) (name : jstring) (v : option jstring) : option (jsobj jstring) :=
  match v with Some t => if t =s? [] then Some [] else s ← iso t; Some [(name, s)] | None => Some [] end.
Definition stats_data (iso : jstring → option jstring) (fields : list (jstring * option jstring)) (start stop : option jstring)
    : option (jsobj jstring) :=
  a ← given_date iso "start"%js start; b ← given_date iso "end"%js stop;
  Some (concat ((λ f : jstring * option jstring, given f.1 f.2) <$> fields) ++ a ++ b).

(** ** The graphs of a chart *)

(** Rows have each column once. *)
Definition answer_ok (r : option statistics) : Prop :=
  match r with Some (Statistics (Some rows) _) => Forall (λ row, NoDup (obj_keys row)) rows | _ => True end.

Lemma datasets_NoDup rows : Forall (λ row : jsobj jstring, NoDup (obj_keys row)) rows → NoDup (datasets_of rows).
Proof.
  intros H. unfold datasets_of. apply NoDup_filter. rewrite for_in_perm. destruct rows as [|row rows]; [constructor|].
  by apply Forall_cons in H as [H _].
Qed.

Lemma hide_fields datasets (l : list graph) : valueField <$> (hide_unused datasets <$> l) = valueField <$> l.
Proof. rewrite <- list_fmap_compose. apply list_fmap_ext. intros _ g _. unfold hide_unused. cbn. by case_bool_decide. Qed.

Lemma new_fields (ds : list jstring) : valueField <$> ((λ d, Graph d false) <$> ds) = ds.
Proof. rewrite <- list_fmap_compose. apply list_fmap_id. Qed.

(** The graphs of a chart show distinct columns. *)
Definition distinct_graphs (c : chart) : Prop := NoDup (valueField <$> graphs c).

Lemma populate_distinct r c : answer_ok r → distinct_graphs c → distinct_graphs (populate_chart r c).1.
Proof.
  unfold distinct_graphs. intros Hr Hc. destruct r as [[[rows|] t]|]; [|done..]. cbn [populate_chart chart_data fst graphs].
  unfold add_graphs. rewrite fmap_app, hide_fields, new_fields. apply NoDup_app. split_and!; [done| |].
  - intros d Hd [Hn _]%list_elem_of_filter. done.
  - apply NoDup_filter. rewrite sort_strs_perm. by apply datasets_NoDup.
Qed.

(** Texts in the order of their units. *)
Definition ordered (s t : jstring) : Prop := str_leb s t = true.

Lemma str_leb_total s t : str_leb s t = false → str_leb t s = true.
Proof.
  revert t. induction s as [|a s IH]; intros [|b t] H; try done. cbn in *.
  destruct (N.ltb_spec a b); [done|]. destruct (N.ltb_spec b a); [done|]. by apply IH.
Qed.

Lemma insert_hd a s l : ordered a s → HdRel ordered a l → HdRel ordered a (insert_str s l).
Proof. intros H [|b l' Hb]; cbn [insert_str]; [by constructor|]. destruct (str_leb s b); by constructor. Qed.
Lemma insert_ordered s l : Sorted ordered l → Sorted ordered (insert_str s l).
Proof.
  induction 1 as [|t l Hl IH Hd]; cbn [insert_str]; [by repeat constructor|]. destruct (str_leb s t) eqn:E.
  - by repeat constructor.
  - constructor; [done|]. apply insert_hd; [by apply str_leb_total|done].
Qed.
Lemma sort_strs_ordered l : Sorted ordered (sort_strs l).
Proof. induction l; cbn [sort_strs]; [constructor|by apply insert_ordered]. Qed.

#[export] Instance ordered_trans : Transitive ordered.
Proof.
  unfold ordered. intros s. induction s as [|a s IH]; intros [|b t] [|c u]; try done. cbn.
  destruct (N.ltb_spec a b), (N.ltb_spec b c), (N.ltb_spec a c), (N.ltb_spec b a), (N.ltb_spec c b), (N.ltb_spec c a); try done; try lia.
  apply IH.
Qed.

Lemma filter_ordered (P : jstring → Prop) `{∀ x, Decision (P x)} l : Sorted ordered l → Sorted ordered (filter P l).
Proof.
  intros Hs. apply StronglySorted_Sorted. apply Sorted_StronglySorted in Hs; [|apply _].
  induction Hs as [|x l Hl IH Hx]; [constructor|]. rewrite filter_cons. destruct (decide (P x)); [|done].
  constructor; [done|]. rewrite Forall_forall in *. intros y [_ Hy]%list_elem_of_filter. by apply Hx.
Qed.

Lemma populate_all_distinct l c : Forall answer_ok l → distinct_graphs c → distinct_graphs (populate_all l c).
Proof.
  intros Hl. revert c. unfold populate_all. induction Hl as [|r l Hr Hl IH]; intros c Hc; [done|]. cbn [foldl].
  by apply IH, populate_distinct.
Qed.

(** A column that an answer has a graph for: one of its first row, but for the time and the columns
    that say where the data was captured. *)
Definition shows (rows : list (jsobj jstring)) (d : jstring) : Prop :=
  match rows with
  | row :: _ => d ∈ obj_keys row
      ∧ d ∉ ["minute"; "interface_id"; "capture_node_id"; "capture_node__hostname"; "capture_node__site_id"; "capture_node__site__name"]%js
  | [] => False
  end.

Lemma datasets_shows rows d : d ∈ datasets_of rows ↔ shows rows d.
Proof.
  unfold datasets_of, shows. rewrite list_elem_of_filter. destruct rows as [|row rows]; cbn [head default].
  - split; [by intros [_ H%elem_of_nil]|done].
  - rewrite elem_of_for_in. unfold IGNORE_CHART_DATA_FIELDS. rewrite !not_elem_of_cons. tauto.
Qed.

(** C27: whatever answers a chart has shown, after an answer with rows it shows these rows, with exactly
    one graph for each column of the first row that is not one of the ignored columns; graphs are never
    lost, new ones come at the end in alphabetical order, not hidden, those with such a column stay as
    they were, and those without are hidden. *)
Theorem chart_graphs_correct l rows title c :
  distinct_graphs c → Forall answer_ok l → Forall (λ row, NoDup (obj_keys row)) rows →
  let before := populate_all l c in
  let after := (populate_chart (Some (Statistics (Some rows) title)) before).1 in
  distinct_graphs after ∧ dataProvider after = rows ∧ titles after = [title]
  ∧ (∀ d, shows rows d → d ∈ valueField <$> graphs after)
  ∧ (∀ g, g ∈ graphs after → if decide (valueField g ∈ valueField <$> graphs before)
       then (shows rows (valueField g) → g ∈ graphs before) ∧ (¬ shows rows (valueField g) → bullets_hidden g = true)
       else shows rows (valueField g) ∧ bullets_hidden g = false)
  ∧ ∃ added, valueField <$> graphs after = (valueField <$> graphs before) ++ added
      ∧ StronglySorted ordered added ∧ ∀ d, d ∈ added ↔ shows rows d ∧ d ∉ valueField <$> graphs before.
Proof.
  intros Hc Hl Hrows before after.
  assert (valueField <$> graphs after = (valueField <$> graphs before) ++ filter (.∉ valueField <$> graphs before) (sort_strs (datasets_of rows))) as E.
  { unfold after. cbn [populate_chart chart_data fst graphs]. unfold add_graphs. by rewrite fmap_app, hide_fields, new_fields. }
  assert (∀ d, d ∈ filter (.∉ valueField <$> graphs before) (sort_strs (datasets_of rows)) ↔ shows rows d ∧ d ∉ valueField <$> graphs before) as Hin
    by (intros d; rewrite list_elem_of_filter, sort_strs_perm, datasets_shows; tauto).
  split_and!; [|done|done| | |].
  - by apply populate_distinct, populate_all_distinct.
  - intros d Hd. rewrite E. apply elem_of_app. destruct (decide (d ∈ valueField <$> graphs before)); [by left|right; by apply Hin].
  - intros g Hg. unfold after in Hg. cbn [populate_chart chart_data fst graphs] in Hg. unfold add_graphs in Hg.
    apply elem_of_app in Hg as [Hg|Hg].
    + apply list_elem_of_fmap in Hg as (g' & -> & Hg').
      assert (valueField (hide_unused (datasets_of rows) g') = valueField g') as -> by (unfold hide_unused; by case_bool_decide).
      rewrite decide_True by (apply list_elem_of_fmap; by exists g'). rewrite <- datasets_shows. unfold hide_unused. by case_bool_decide.
    + apply list_elem_of_fmap in Hg as (d & -> & [Hd Hn]%Hin). by rewrite decide_False.
  - eexists. split_and!; [exact E| |exact Hin]. apply Sorted_StronglySorted; [apply _|]. apply filter_ordered, sort_strs_ordered.
Qed.

Definition sample_rows : list (jsobj jstring) :=
  [[("minute"%js, "0"%js); ("node2"%js, "7"%js); ("node1"%js, "5"%js)]; [("minute"%js, "1"%js)]].

Example chart_graphs_correct_witness :
  let after := (populate_chart (Some (Statistics (Some sample_rows) "Size"%js))
                  (populate_all [Some (Statistics (Some [[("node2"%js, "1"%js); ("old"%js, "1"%js)]]) "Old"%js); None] (Chart [] [] []))).1 in
  distinct_graphs after ∧ graphs after = [Graph "node2"%js false; Graph "old"%js true; Graph "node1"%js false].
Proof.
  intros after. split; [|vm_compute; reflexivity].
  apply (chart_graphs_correct [Some (Statistics (Some [[("node2"%js, "1"%js); ("old"%js, "1"%js)]]) "Old"%js); None] sample_rows "Size"%js (Chart [] [] [])).
  - constructor.
  - repeat constructor; apply (bool_decide_eq_true_1 (_ ∉ _)); vm_compute; reflexivity.
  - apply Forall_cons; split; [|apply Forall_cons; split; [|constructor]]; apply (bool_decide_eq_true_1 _); vm_compute; reflexivity.
Defined.

(** A graph that was hidden once stays hidden, also when its column is in the data again. *)
Lemma hidden_stays l c d : Graph d true ∈ graphs c → Graph d true ∈ graphs (populate_all l c).
Proof.
  revert c. unfold populate_all. induction l as [|r l IH]; intros c Hc; [done|]. cbn [foldl]. apply IH.
  destruct r as [[[rows|] t]|]; [|done..]. cbn [populate_chart chart_data fst graphs]. unfold add_graphs. apply elem_of_app. left.
  apply list_elem_of_fmap. exists (Graph d true). split; [|done]. unfold hide_unused. by case_bool_decide.
Qed.

(** An answer without data empties the chart and throws. *)
Lemma no_data_throws c : populate_chart None c = (Chart (titles c) (graphs c) [], false).
Proof. reflexivity. Qed.
