(* ===== verification/DateFormat.v ===== *)
(** * Dates as text: the formats of the date picker

    [parseDate], [formatDate], [_possibleChars] and [iso8601Week] of plugins/jquery-ui/jquery-ui.js.
    Each of the first three walks over the format with a cursor and looks ahead for a doubled
    character; here the walk is on the list of the units that remain, [skip] telling that the unit at
    its head has been taken by the unit before.  The clock is read once per call ([now]); the lower case of
    a string is a parameter. *)

From S2P Require Import Prelude JsString JsNumber JsInt JsRegExp JsDate.
#[local] Open Scope Z_scope.

(** ** Settings *)

(** [shortYearCutoff]: absent, a number or a string. *)
Variant cutoff := CutNone | CutNum (n : jnum) | CutStr (s : jstring).
Record date_config := {
  shortYearCutoff : cutoff;
  dayNamesShort : option (list jstring); dayNames : option (list jstring);
  monthNamesShort : option (list jstring); monthNames : option (list jstring) }.

(** The defaults ([regional[""]] and [_defaults]). *)
Definition english : date_config := {|
  shortYearCutoff := CutStr "+10"%js;
  dayNamesShort := Some ["Sun"; "Mon"; "Tue"; "Wed"; "Thu"; "Fri"; "Sat"]%js;
  dayNames := Some ["Sunday"; "Monday"; "Tuesday"; "Wednesday"; "Thursday"; "Friday"; "Saturday"]%js;
  monthNamesShort := Some ["Jan"; "Feb"; "Mar"; "Apr"; "May"; "Jun"; "Jul"; "Aug"; "Sep"; "Oct"; "Nov"; "Dec"]%js;
  monthNames := Some ["January"; "February"; "March"; "April"; "May"; "June"; "July"; "August"; "September";
    "October"; "November"; "December"]%js |}.

(** [(settings ? settings.name : null) || this._defaults.name] *)
Definition names_of (get : date_config -> option (list jstring)) (settings : option date_config) (defaults : date_config) : list jstring :=
  match settings ≫= get with Some l => l | None => default [] (get defaults) end.

Definition cutoff_truthy (c : cutoff) : bool :=
  match c with CutNone | CutNum None => false | CutNum (Some n) => negb (n =? 0) | CutStr s => negb (bool_decide (s = [])) end.

(** [parseInt(s, 10)] as a number of whole units. *)
Definition parseInt10 (s : jstring) : jnum :=
  match jint_of_num (parse_int s) with Some (JInt z) => Some z | _ => None end.

(** The cutoff as a number: a string is added to the year within its century. *)
Definition cutoff_number (thisYear : jnum) (c : cutoff) : jnum :=
  match c with
  | CutNone => None
  | CutNum n => n
  | CutStr s => y ← thisYear; n ← parseInt10 s; Some (Z.rem y 100 + n)
  end.

(** ** The weeks of ISO 8601 *)

(** [Math.round(ms / 86400000)] *)
Definition round_days (ms : Z) : Z := (2 * ms + msPerDay) / (2 * msPerDay).

Definition iso8601Week `{TimeZone} (date : jnum) : jnum :=
  d ← getDate date; w ← getDay date;
  let time := setDate (Some (d + 4 - (if w =? 0 then 7 else w))) date in
  let checkDate := setDate (Some 1) (setMonth (Some 0) time) in
  time ← time; check ← checkDate; Some (round_days (time - check) / 7 + 1).

(** ** The calendar *)

(** [_daylightSavingAdjust] *)
Definition daylightSavingAdjust `{TimeZone} (date : jnum) : jnum :=
  setHours (h ← getHours date; Some (if 12 <? h then h + 2 else 0)) date.
Definition getDaysInMonth `{TimeZone} (year month : jnum) : jnum :=
  d ← getDate (daylightSavingAdjust (new_date year month (Some 32))); Some (32 - d).

(** ** The format *)

(** [lookAhead(c)] before the rest [r] of the format. *)
Definition lookAhead (c : N) (r : jstring) : bool := match r with c' :: _ => (c' =? c)%N | [] => false end.

(** [this._ticksTo1970] *)
Definition ticksTo1970 : Z :=
  ((1970 - 1) * 365 + 1970 / 4 - 1970 / 100 + 1970 / 400) * 24 * 60 * 60 * 10000000.

Variant parse_error :=
  | InvalidArguments | MissingNumber (pos : nat) | UnknownName (pos : nat) | UnexpectedLiteral (pos : nat)
  | ExtraCharacters (s : jstring) | InvalidDate.

(** The outcome of [parseDate]: null, a date, an exception, or a loop without end. *)
Variant parse_result := PNull | PDate (t : jnum) | PThrow (e : parse_error) | PForever.

(** The cursor in the value, what follows it, and what was read. *)
Record reading := { r_pos : nat; r_rest : jstring; r_year : jnum; r_month : jnum; r_day : jnum; r_doy : Z }.
Definition advance (n : nat) (rest : jstring) (r : reading) : reading :=
  {| r_pos := r_pos r + n; r_rest := rest; r_year := r_year r; r_month := r_month r; r_day := r_day r; r_doy := r_doy r |}.
Definition put_date (y m d : jnum) (r : reading) : reading :=
  {| r_pos := r_pos r; r_rest := r_rest r; r_year := y; r_month := m; r_day := d; r_doy := r_doy r |}.
Definition put_doy (n : Z) (r : reading) : reading :=
  {| r_pos := r_pos r; r_rest := r_rest r; r_year := r_year r; r_month := r_month r; r_day := r_day r; r_doy := n |}.

(** The value of the digits at the front, [k] at most, their number and what follows. *)
Fixpoint digits_upto (k : nat) (s : jstring) (acc : Z) (n : nat) : Z * nat * jstring :=
  match k, s with
  | S k, c :: t => match digit_of c with Some d => digits_upto k t (10 * acc + d) (S n) | None => (acc, n, s) end
  | _, _ => (acc, n, s)
  end.

Definition number_size (c : N) (doubled : bool) : nat :=
  (if (c =? 64)%N then 14 else if (c =? 33)%N then 20
   else if (c =? 121)%N && doubled then 4 else if (c =? 111)%N then 3 else 2)%nat.
Definition getNumber (c : N) (doubled : bool) (r : reading) : Z * reading + parse_error :=
  let size := number_size c doubled in
  let minSize := if (c =? 121)%N then size else 1%nat in
  let '(v, n, rest) := digits_upto size (r_rest r) 0 0 in
  if (n <? minSize)%nat then inr (MissingNumber (r_pos r)) else inl (v, advance n rest r).

(** [sort] by decreasing length, of names with their indices. *)
Fixpoint insert_name (p : nat * jstring) (l : list (nat * jstring)) : list (nat * jstring) :=
  match l with
  | [] => [p]
  | q :: t => if (length (p.2) <? length (q.2))%nat then q :: insert_name p t else p :: l
  end.
Definition by_length (names : list jstring) : list (nat * jstring) :=
  foldr insert_name [] (imap pair names).

(** [new Date(x)] for a number. *)
Definition num_trunc (x : num) : jnum :=
  match x with
  | S754_zero _ => Some 0
  | S754_finite s m e => Some (cond_Zopp s (if 0 <=? e then Zpos m * 2 ^ e else Zpos m / 2 ^ (- e)))
  | _ => None
  end.
Definition date_of_num (x : num) : jnum := t ← num_trunc x; TimeClip t.

Section formats.
Context `{TimeZone}.
Variable toLowerCase : jstring → jstring.
Variable defaults : date_config.
Variable now : Z.

Definition thisYear : jnum := getFullYear (Some now).

(** *** Parsing *)

Definition getName (names : list jstring) (r : reading) : Z * reading + parse_error :=
  match List.find (λ p, bool_decide (toLowerCase (take (length (p.2)) (r_rest r)) = toLowerCase (p.2))) (by_length names) with
  | Some (k, name) => inl (Z.of_nat k + 1, advance (length name) (drop (length name) (r_rest r)) r)
  | None => inr (UnknownName (r_pos r))
  end.

Definition checkLiteral (c : N) (r : reading) : reading + parse_error :=
  match r_rest r with
  | u :: rest => if (u =? c)%N then inl (advance 1 rest r) else inr (UnexpectedLiteral (r_pos r))
  | [] => inr (UnexpectedLiteral (r_pos r))
  end.

Definition date_fields (t : jnum) (r : reading) : reading :=
  put_date (getFullYear t) (m ← getMonth t; Some (m + 1)) (getDate t) r.

(** One character outside a quoted text, which is no quote. *)
Definition read_field (settings : option date_config) (c : N) (doubled : bool) (r : reading) : reading + parse_error :=
  let number k := match getNumber c doubled r with inl (v, r) => inl (k v r) | inr e => inr e end in
  if (c =? 100)%N then number (λ v r, put_date (r_year r) (r_month r) (Some v) r)
  else if (c =? 68)%N then
    match getName (names_of (if doubled then dayNames else dayNamesShort) settings defaults) r with
    | inl (_, r) => inl r | inr e => inr e end
  else if (c =? 111)%N then number put_doy
  else if (c =? 109)%N then number (λ v r, put_date (r_year r) (Some v) (r_day r) r)
  else if (c =? 77)%N then
    match getName (names_of (if doubled then monthNames else monthNamesShort) settings defaults) r with
    | inl (v, r) => inl (put_date (r_year r) (Some v) (r_day r) r) | inr e => inr e end
  else if (c =? 121)%N then number (λ v r, put_date (Some v) (r_month r) (r_day r) r)
  else if (c =? 64)%N then number (λ v, date_fields (TimeClip v))
  else if (c =? 33)%N then
    number (λ v, date_fields (date_of_num (fdiv (fsub (num_of_Z v) (num_of_Z ticksTo1970)) (num_of_Z 10000))))
  else checkLiteral c r.

(** The characters that look ahead. *)
Definition is_field (c : N) : bool :=
  ((c =? 100) || (c =? 68) || (c =? 111) || (c =? 109) || (c =? 77) || (c =? 121) || (c =? 64) || (c =? 33))%N.

Fixpoint parse_go (settings : option date_config) (f : jstring) (skip literal : bool) (r : reading) : reading + parse_error :=
  match f with
  | [] => inl r
  | c :: f =>
      if skip then parse_go settings f false literal r
      else if (c =? 39)%N then
        if lookAhead 39 f then
          match checkLiteral 39 r with inl r => parse_go settings f true literal r | inr e => inr e end
        else parse_go settings f false (negb literal) r
      else if literal then
        match checkLiteral c r with inl r => parse_go settings f false true r | inr e => inr e end
      else
        let doubled := is_field c && lookAhead c f in
        match read_field settings c doubled r with inl r => parse_go settings f doubled false r | inr e => inr e end
  end.

(** The month and the day of a day of the year, counting off months; [None]: without end. *)
Fixpoint doy_loop (fuel : nat) (year : jnum) (month day : Z) : option (Z * Z) :=
  match fuel with
  | O => None
  | S f =>
      dim ← getDaysInMonth year (Some (month - 1));
      if day <=? dim then Some (month, day) else doy_loop f year (month + 1) (day - dim)
  end.

Definition full_year (cut : jnum) (year : jnum) : jnum :=
  if jnum_eq year (Some (-1)) then thisYear
  else if jnum_lt year (Some 100) then
    y ← year; t ← thisYear;
    Some (y + (t - Z.rem t 100 + (match cut with Some c => if y <=? c then 0 else -100 | None => -100 end)))
  else year.

(** The date of the fields, refused when it has other fields. *)
Definition checked_date (year month day : jnum) : parse_result :=
  let date := daylightSavingAdjust (new_date year (m ← month; Some (m - 1)) day) in
  if jnum_eq (getFullYear date) year && jnum_eq (m ← getMonth date; Some (m + 1)) month && jnum_eq (getDate date) day
  then PDate date else PThrow InvalidDate.

Definition finish_date (cut : jnum) (r : reading) : parse_result :=
  let year := full_year cut (r_year r) in
  if -1 <? r_doy r then
    match doy_loop (Z.to_nat (r_doy r) + 1) year 1 (r_doy r) with
    | Some (month, day) => checked_date year (Some month) (Some day)
    | None => PForever
    end
  else checked_date year (r_month r) (r_day r).

Definition parse_cutoff (settings : option date_config) : jnum :=
  let c := match settings with Some s => shortYearCutoff s | None => CutNone end in
  cutoff_number thisYear (if cutoff_truthy c then c else shortYearCutoff defaults).

Definition parseDate (format : jstring) (value : option jstring) (settings : option date_config) : parse_result :=
  match value with
  | None => PThrow InvalidArguments
  | Some [] => PNull
  | Some value =>
      let start := {| r_pos := 0; r_rest := value; r_year := Some (-1); r_month := Some (-1); r_day := Some (-1); r_doy := -1 |} in
      match parse_go settings format false false start with
      | inr e => PThrow e
      | inl r =>
          match r_rest r with
          | u :: _ => if is_ws u then finish_date (parse_cutoff settings) r else PThrow (ExtraCharacters (r_rest r))
          | [] => finish_date (parse_cutoff settings) r
          end
      end
  end.

(** *** Formatting *)

Definition jnum_str (n : jnum) : jstring := match n with Some z => str_of_Z z | None => "NaN"%js end.
Definition pad (len : nat) (s : jstring) : jstring := repeat 48%N (len - length s) ++ s.
Definition formatNumber (doubled : bool) (value : jnum) (len : nat) : jstring :=
  if doubled then pad len (jnum_str value) else jnum_str value.
Definition name_at (l : list jstring) (value : jnum) : jstring :=
  match value with Some i => if i <? 0 then "undefined"%js else default "undefined"%js (l !! Z.to_nat i) | None => "undefined"%js end.

Definition doy_of (date : jnum) : jnum :=
  a ← new_date (getFullYear date) (getMonth date) (getDate date);
  b ← new_date (getFullYear date) (Some 0) (Some 0);
  Some (round_days (a - b)).

Definition year_text (doubled : bool) (date : jnum) : jstring :=
  if doubled then jnum_str (getFullYear date)
  else
    let yy := y ← getFullYear date; Some (Z.rem (y - 1900) 100) in
    (if jnum_lt yy (Some 10) then "0"%js else []) ++ jnum_str yy.

(** One character outside a quoted text, which is no quote; [@] and [!] do not look ahead here. *)
Definition write_field (settings : option date_config) (date : jnum) (c : N) (doubled : bool) : jstring :=
  if (c =? 100)%N then formatNumber doubled (getDate date) 2
  else if (c =? 68)%N then name_at (names_of (if doubled then dayNames else dayNamesShort) settings defaults) (getDay date)
  else if (c =? 111)%N then formatNumber doubled (doy_of date) 3
  else if (c =? 109)%N then formatNumber doubled (m ← getMonth date; Some (m + 1)) 2
  else if (c =? 77)%N then name_at (names_of (if doubled then monthNames else monthNamesShort) settings defaults) (getMonth date)
  else if (c =? 121)%N then year_text doubled date
  else if (c =? 64)%N then jnum_str date
  else if (c =? 33)%N then
    num_to_string (fadd (fmul (match date with Some t => num_of_Z t | None => nan end) (num_of_Z 10000)) (num_of_Z ticksTo1970))
  else [c].

Definition looks_ahead (c : N) : bool := is_field c && negb ((c =? 64) || (c =? 33))%N.

Fixpoint format_go (settings : option date_config) (date : jnum) (f : jstring) (skip literal : bool) : jstring :=
  match f with
  | [] => []
  | c :: f =>
      if skip then format_go settings date f false literal
      else if (c =? 39)%N then
        if lookAhead 39 f then "'"%js ++ format_go settings date f true literal
        else format_go settings date f false (negb literal)
      else if literal then c :: format_go settings date f false true
      else
        let doubled := looks_ahead c && lookAhead c f in
        write_field settings date c doubled ++ format_go settings date f doubled false
  end.

(** No date is the empty text. *)
Definition formatDate (format : jstring) (date : option jnum) (settings : option date_config) : jstring :=
  match date with Some date => format_go settings date format false false | None => [] end.

(** The characters a value of the format may have; [None]: any. *)
Fixpoint possible_go (f : jstring) (skip literal : bool) : option jstring :=
  match f with
  | [] => Some []
  | c :: f =>
      if skip then possible_go f false literal
      else if (c =? 39)%N then
        if lookAhead 39 f then app "'"%js <$> possible_go f true literal else possible_go f false (negb literal)
      else if literal then cons c <$> possible_go f false true
      else if ((c =? 100) || (c =? 109) || (c =? 121) || (c =? 64))%N then app "0123456789"%js <$> possible_go f false false
      else if ((c =? 68) || (c =? 77))%N then None
      else cons c <$> possible_go f false false
  end.
Definition possibleChars (format : jstring) : option jstring := possible_go format false false.

End formats.

(** In a zone one hour east of Greenwich, at the beginning of 2016. *)
#[local] Abbreviation parse_ex := (@parseDate (fixed_zone 3600000) (map lower_ascii) english 1451692800000).
#[local] Abbreviation format_ex := (@formatDate (fixed_zone 3600000) english).

Example parse_ex1 : (λ p, parse_ex p.1 (Some p.2) None) <$>
    [("mm/dd/yy", "02/29/2016"); ("mm/dd/yy", "02/30/2016"); ("d M y", "1 jan 27"); ("yy-oo", "2016-366"); ("D, d MM yy", "Mon, 4 July 2016");
     ("@", "1456700400000"); ("!", "635922972000000000"); ("yy-mm-dd", "2016-1-x"); ("yy-mm-dd", "2016-01-02 10:00")]%js
  = [PDate (Some 1456700400000); PThrow InvalidDate; PDate (Some (-1356998400000 - 3600000)); PDate (Some 1483138800000);
     PDate (Some 1467586800000); PDate (Some 1456700400000); PDate (Some 1456700400000); PThrow (MissingNumber 7); PDate (Some 1451689200000)].
Proof. vm_compute. reflexivity. Qed.

Example format_ex1 : (λ f, format_ex f (Some (Some 1456700400000)) None) <$>
    ["mm/dd/yy"; "d M y"; "DD, d MM"; "oo"; "'day' d 'of' MM '''in the year''' yy"; "@"; "!"]%js
  = ["02/29/2016"; "29 Feb 16"; "Monday, 29 February"; "060"; "day 29 of February 'in the year' 2016"; "1456700400000"; "635922972000000000"]%js.
Proof. vm_compute. reflexivity. Qed.

Example iso_ex : @iso8601Week (fixed_zone 0) <$> [Some 0; Some 1451692800000; Some 1483142400000; Some 1483228800000; None]
  = [Some 1; Some 53; Some 52; Some 52; None].
Proof. vm_compute. reflexivity. Qed.
