(* ===== verification/DateFormatTheorems.v ===== *)
(** * The dates of the picker and their texts are right

    What the functions of the picker that only count days return in a zone with the laws of [ZoneLaws]:
    adjusted dates are the beginnings of local days, the lengths of months are those of the calendar, a day of the
    year is found by counting off months, and the week is the one of ISO 8601.  Then the texts: a format is a list of tokens; both
    functions walk over the tokens, and a text that was written with a format whose numbers can be told
    apart is read back as the date it was written for.  Any text is answered by null, by an exception or by the beginning
    of a day. *)

From S2P Require Import Prelude JsString JsNumber JsRegExp JsDate DateFormat.
#[local] Open Scope Z_scope.

(** ** The calendar of the picker *)

(** Years the constructor of dates takes literally, far from the end of time. *)
Definition good_year (y : Z) : Prop := 100 <= y <= 270000.
#[export] Instance good_year_dec y : Decision (good_year y).
Proof. unfold good_year. apply _. Defined.

(** A day of the year, and the ISO week of a day by its Thursday. *)
Definition day_of_year (n : Z) : Z := n - DayFromYear (YearFromDay n) + 1.
Definition monday_of (n : Z) : Z := n - (WeekDay n + 6) mod 7.
Definition thursday_of (n : Z) : Z := monday_of n + 3.
Definition iso_week (n : Z) : Z := (day_of_year (thursday_of n) - 1) / 7 + 1.

Lemma good_day y m d : good_year y -> -1000 <= m <= 1000 -> -1000 <= d <= 1000 -> day_in_range (MakeDay y m d).
Proof.
  intros Hy Hm Hd. unfold good_year, day_in_range in *. rewrite MakeDay_carry.
  assert (0 <= m mod 12 < 12) as Hm' by (apply Z.mod_pos_bound; lia).
  assert (-84 <= m / 12 <= 84) as Hq by divlia. rewrite MakeDay_in_year by done.
  pose proof (year_days (leap (y + m / 12)) (m mod 12) Hm') as Hd'. pose proof (month_days_pos (leap (y + m / 12)) (m mod 12)).
  pose proof (year_bounds (y + m / 12 - 1970)) as Hb. replace (1970 + (y + m / 12 - 1970)) with (y + m / 12) in Hb by lia.
  destruct (leap (y + m / 12)); lia.
Qed.

Lemma MakeFullYear_good y : good_year y -> MakeFullYear y = y.
Proof. unfold good_year, MakeFullYear. intros ?. destruct (Z.leb_spec 0 y), (Z.leb_spec y 99); cbn; lia. Qed.

Lemma year_of_MakeDay y m d : 0 <= m < 12 -> 1 <= d <= 31 -> YearFromDay (MakeDay y m d) = y.
Proof.
  intros Hm Hd. apply year_unique. rewrite year_length, MakeDay_in_year by done. unfold DaysInYear.
  pose proof (year_days (leap y) m Hm). destruct (Z.eq_dec m 11) as [->|].
  - pose proof (last_month_end y) as E. unfold DaysInYear in E. assert (month_days (leap y) 11 = 31) by done. lia.
  - pose proof (month_start_le (leap y) m 11). assert (month_days (leap y) 11 = 31) by done.
    pose proof (last_month_end y) as E. unfold DaysInYear in E. pose proof (month_days_pos (leap y) m). lia.
Qed.

Section zone.
Context `{ZoneLaws}.

(** An adjusted date that is early in its day is the beginning of the day. *)
Lemma adjust_early n k : day_in_range n -> 0 <= k <= 9 ->
  daylightSavingAdjust (Some (UTC (n * msPerDay + k * msPerHour))) = Some (midnight n).
Proof.
  intros Hn Hk. assert (0 <= k * msPerHour <= 12 * msPerHour) as Hr by (unfold msPerHour; lia).
  destruct (early_local n _ Hr) as [Hl Hd]. pose proof (zone_hours (n * 24 + k)) as Hh. rewrite <- hours_of_day in Hh.
  unfold daylightSavingAdjust, setHours. cbn. unfold local_day in Hd. rewrite Hd, Hh.
  assert (HourFromTime (LocalTime (UTC (n * msPerDay + k * msPerHour))) <= 12) as H12.
  { revert Hl. unfold HourFromTime. generalize (LocalTime (UTC (n * msPerDay + k * msPerHour))). unfold msPerDay, msPerHour. intros l Hl. divlia. }
  destruct (Z.ltb_spec 12 (HourFromTime (LocalTime (UTC (n * msPerDay + k * msPerHour))))); [lia|].
  replace (n * msPerDay + 0 * msPerHour + 0) with (n * msPerDay) by lia. by apply TimeClip_midnight.
Qed.

Lemma adjust_midnight n : day_in_range n -> daylightSavingAdjust (Some (midnight n)) = Some (midnight n).
Proof.
  intros Hn. pose proof (adjust_early n 0 Hn ltac:(lia)) as E. by replace (n * msPerDay + 0 * msPerHour) with (n * msPerDay) in E by lia.
Qed.

Lemma new_date_good y m d : good_year y -> -1000 <= m <= 1000 -> -1000 <= d <= 1000 ->
  new_date (Some y) (Some m) (Some d) = Some (midnight (MakeDay y m d)).
Proof.
  intros Hy Hm Hd. unfold new_date. cbn. rewrite MakeFullYear_good by done. by apply TimeClip_midnight, good_day.
Qed.

Lemma adjust_new_date y m d : good_year y -> -1000 <= m <= 1000 -> -1000 <= d <= 1000 ->
  daylightSavingAdjust (new_date (Some y) (Some m) (Some d)) = Some (midnight (MakeDay y m d)).
Proof. intros. rewrite new_date_good by done. by apply adjust_midnight, good_day. Qed.

(** The next day: the picker moves a date by a day and adjusts it. *)
Lemma adjust_setDate n k : day_in_range (n + k) ->
  daylightSavingAdjust (setDate (Some (DateFromDay n + k)) (Some (midnight n))) = Some (midnight (n + k)).
Proof. intros Hr. destruct (setDate_midnight n k Hr) as (h & Hh & ->). apply adjust_early; [done|lia]. Qed.

(** [_getDaysInMonth] is the length of the month, of another year when the month is beyond its range. *)
Lemma getDaysInMonth_good y m : good_year y -> -1000 <= m <= 1000 ->
  getDaysInMonth (Some y) (Some m) = Some (days_in_month (y + m / 12) (m mod 12)).
Proof.
  intros Hy Hm. unfold getDaysInMonth. rewrite adjust_new_date by (done || lia). rewrite getDate_midnight. cbn. f_equal.
  set (y' := y + m / 12). set (m' := m mod 12). assert (0 <= m' < 12) as Hm' by (apply Z.mod_pos_bound; lia).
  pose proof (month_days_pos (leap y') m') as Hp. fold (days_in_month y' m') in Hp.
  assert (valid_date (y + (m + 1) / 12) ((m + 1) mod 12) (32 - days_in_month y' m')) as Hv.
  { split; [apply Z.mod_pos_bound; lia|].
    pose proof (month_days_pos (leap (y + (m + 1) / 12)) ((m + 1) mod 12)) as Hp'. fold (days_in_month (y + (m + 1) / 12) ((m + 1) mod 12)) in Hp'. lia. }
  replace (MakeDay y m 32) with (MakeDay (y + (m + 1) / 12) ((m + 1) mod 12) (32 - days_in_month y' m')).
  - destruct (day_of_fields _ _ _ Hv) as (_ & _ & ->). lia.
  - rewrite <- MakeDay_carry. pose proof (next_month y m) as E. fold y' m' in E.
    replace (32 - days_in_month y' m') with (1 + (31 - days_in_month y' m')) by lia.
    replace 32 with (1 + 31) by lia. rewrite !MakeDay_shift. lia.
Qed.

(** The date of fields is found exactly when there is such a day. *)
Lemma checked_date_good y m d : good_year y -> -900 <= m <= 1001 -> -900 <= d <= 1000 ->
  checked_date (Some y) (Some m) (Some d) =
    if decide (valid_date y (m - 1) d) then PDate (Some (midnight (MakeDay y (m - 1) d))) else PThrow InvalidDate.
Proof.
  intros Hy Hm Hd. unfold checked_date. cbn [mbind option_bind]. rewrite adjust_new_date by (done || lia).
  rewrite getFullYear_midnight, getMonth_midnight, getDate_midnight. cbn.
  destruct (decide (valid_date y (m - 1) d)) as [Hv|Hv].
  - destruct (day_of_fields y (m - 1) d Hv) as (-> & -> & ->).
    rewrite !(proj2 (Z.eqb_eq _ _)) by lia. done.
  - destruct (Z.eqb_spec (YearFromDay (MakeDay y (m - 1) d)) y) as [E|]; [|done].
    destruct (Z.eqb_spec (MonthFromDay (MakeDay y (m - 1) d) + 1) m) as [E'|]; [|done].
    destruct (Z.eqb_spec (DateFromDay (MakeDay y (m - 1) d)) d) as [E''|]; [|done].
    destruct Hv. pose proof (proj1 (fields_of_day (MakeDay y (m - 1) d))) as Hv.
    rewrite E, E'' in Hv. by replace (MonthFromDay (MakeDay y (m - 1) d)) with (m - 1) in Hv by lia.
Qed.

(** Counting off months ends, and keeps the day. *)
Lemma doy_loop_good fuel y m d : good_year y -> 0 <= m -> m + Z.of_nat fuel <= 1000 -> 0 <= d < 28 * Z.of_nat fuel ->
  exists m' d', doy_loop fuel (Some y) (m + 1) d = Some (m' + 1, d') /\ m <= m' <= m + Z.of_nat fuel
    /\ MakeDay y m' d' = MakeDay y m d /\ d' <= days_in_month (y + m' / 12) (m' mod 12) /\ (1 <= d -> 1 <= d') /\ (d = 0 -> d' = 0).
Proof.
  intros Hy. revert m d. induction fuel as [|fuel IH]; intros m d Hm Hf Hd.
  - lia.
  - cbn [doy_loop]. replace (m + 1 - 1) with m by lia. rewrite getDaysInMonth_good by (done || lia). cbn [mbind option_bind].
    set (dim := days_in_month (y + m / 12) (m mod 12)).
    assert (28 <= dim <= 31) as Hdim by apply month_days_pos.
    destruct (Z.leb_spec d dim) as [|Hgt]; [exists m, d; repeat split; try done; lia|].
    destruct (IH (m + 1) (d - dim)) as (m' & d' & E & Hm' & Hk & Hle & Hpos & _); [lia..|].
    exists m', d'. repeat split; try done; try lia. rewrite Hk.
    replace (d - dim) with (1 + (d - dim - 1)) by lia. replace d with (1 + (d - 1)) at 2 by lia.
    rewrite !MakeDay_shift. pose proof (next_month y m) as En. fold dim in En. lia.
Qed.

(** The date of a day of the year is found when the year has that day; the search for it ends in any case. *)
Lemma finish_doy now cut r y : good_year y -> full_year now cut (r_year r) = Some y -> 0 <= r_doy r <= 999 ->
  finish_date now cut r =
    if decide (1 <= r_doy r <= DaysInYear y) then PDate (Some (midnight (DayFromYear y + r_doy r - 1))) else PThrow InvalidDate.
Proof.
  intros Hy Ey Hdoy. unfold finish_date. rewrite Ey. destruct (Z.ltb_spec (-1) (r_doy r)); [|lia].
  destruct (doy_loop_good (Z.to_nat (r_doy r) + 1) y 0 (r_doy r)) as (m & d & E & Hm & Hk & Hle & Hpos & Hz); try (done || lia).
  change (0 + 1) with 1 in E. rewrite E.
  assert (1 <= d -> valid_date (y + m / 12) (m mod 12) d) as Hv by (intros; split; [apply Z.mod_pos_bound; lia|lia]).
  assert (1 <= d -> YearFromDay (MakeDay y 0 (r_doy r)) = y + m / 12) as Ey'
    by (intros Hd; rewrite <- Hk, MakeDay_carry; exact (proj1 (day_of_fields _ _ _ (Hv Hd)))).
  assert (0 <= d <= 31) as Hd31 by (pose proof (month_days_pos (leap (y + m / 12)) (m mod 12)); unfold days_in_month in *; lia).
  rewrite checked_date_good by (done || lia). replace (m + 1 - 1) with m by lia. rewrite Hk.
  rewrite MakeDay_in_year, january_start in * by lia.
  replace (DayFromYear y + 0 + r_doy r - 1) with (DayFromYear y + r_doy r - 1) in * by lia.
  destruct (decide (1 <= r_doy r <= DaysInYear y)) as [Hin|Hout].
  - rewrite (year_unique _ y) in Ey' by (rewrite year_length; lia).
    assert (m / 12 = 0 /\ m mod 12 = m) as [E0 E1] by divlia. rewrite E0, E1, Z.add_0_r in Hv.
    rewrite decide_True by (apply Hv; lia). done.
  - rewrite decide_False; [done|]. intros [Hm12 Hd1].
    rewrite (Z.div_small m) in Ey' by lia.
    pose proof (year_spec (DayFromYear y + r_doy r - 1)) as Hs. rewrite Ey', Z.add_0_r, year_length in Hs by lia. lia.
Qed.

Lemma finish_fields now cut r y m d : good_year y -> full_year now cut (r_year r) = Some y -> r_doy r = -1 ->
  r_month r = Some m -> r_day r = Some d -> -1 <= m <= 99 -> -1 <= d <= 99 ->
  finish_date now cut r =
    if decide (valid_date y (m - 1) d) then PDate (Some (midnight (MakeDay y (m - 1) d))) else PThrow InvalidDate.
Proof.
  intros Hy Ey Edoy Em Ed Hm Hd. unfold finish_date. rewrite Ey, Edoy, Em, Ed. cbn. by apply checked_date_good; lia || done.
Qed.

(** ** The ISO week *)

Lemma weekday_range n : 0 <= WeekDay n < 7.
Proof. apply Z.mod_pos_bound. lia. Qed.

(** The Thursday that [iso8601Week] moves to is the one of the week that begins on Monday. *)
Lemma thursday_spec n : thursday_of n = n + (4 - (if WeekDay n =? 0 then 7 else WeekDay n))
  /\ WeekDay (thursday_of n) = 4 /\ WeekDay (monday_of n) = 1 /\ monday_of n <= n <= monday_of n + 6.
Proof.
  unfold thursday_of, monday_of, WeekDay. destruct (Z.eqb_spec ((n + 4) mod 7) 0); repeat split; divlia.
Qed.

(** The local time of a time early in a day. *)
Lemma local_early n r : 0 <= r <= 12 * msPerHour ->
  exists g, 0 <= g <= 3 * msPerHour /\ LocalTime (UTC (n * msPerDay + r)) = n * msPerDay + (r + g)
    /\ Day (LocalTime (UTC (n * msPerDay + r))) = n /\ TimeWithinDay (LocalTime (UTC (n * msPerDay + r))) = r + g.
Proof.
  intros Hr. destruct (early_local n r Hr) as [Hl Hd]. exists (LocalTime (UTC (n * msPerDay + r)) - (n * msPerDay + r)).
  split; [lia|]. split; [lia|]. split; [done|]. unfold TimeWithinDay.
  replace (LocalTime (UTC (n * msPerDay + r))) with (r + (LocalTime (UTC (n * msPerDay + r)) - (n * msPerDay + r)) + n * msPerDay) at 1 by lia.
  rewrite Z_mod_plus_full, Z.mod_small; [done|]. unfold msPerDay, msPerHour in *. lia.
Qed.

(** Less than half a day off, the days between two times are rounded right. *)
Lemma round_days_near k x : Z.abs (x - k * msPerDay) <= 9 * msPerHour -> round_days x = k.
Proof. unfold round_days, msPerDay, msPerHour. intros Hx. divlia. Qed.

Lemma iso8601Week_good n : good_year (YearFromDay n) -> good_year (YearFromDay (thursday_of n)) ->
  iso8601Week (Some (midnight n)) = Some (iso_week n).
Proof.
  intros Hy Hy'. set (th := thursday_of n) in *.
  assert (forall n, good_year (YearFromDay n) -> day_in_range n) as Hin.
  { intros k Hk. destruct (fields_of_day k) as [[Hm Hd] <-]. apply good_day; [done|lia|].
    pose proof (month_days_pos (leap (YearFromDay k)) (MonthFromDay k)). unfold days_in_month in Hd. lia. }
  unfold iso8601Week. rewrite getDate_midnight, getDay_midnight. cbn [mbind option_bind].
  destruct (thursday_spec n) as (Et & _). fold th in Et. set (k := if WeekDay n =? 0 then 7 else WeekDay n) in *.
  replace (DateFromDay n + 4 - k) with (DateFromDay n + (4 - k)) by lia.
  destruct (setDate_midnight n (4 - k)) as (h & Hh & ->); [rewrite <- Et; by apply Hin|]. rewrite <- Et.
  destruct (local_early th (h * msPerHour)) as (g1 & Hg1 & L1 & D1 & W1); [unfold msPerHour; lia|].
  unfold setMonth. cbn [mbind option_bind]. rewrite D1, W1.
  destruct (fields_of_day th) as [[Hm Hd] Eth]. pose proof (month_days_pos (leap (YearFromDay th)) (MonthFromDay th)) as Hp.
  unfold days_in_month in Hd. set (y := YearFromDay th) in *. set (d := DateFromDay th) in *.
  set (n2 := MakeDay y 0 d). rewrite TimeClip_early by ((apply good_day; done || lia) || (unfold msPerHour in *; lia)).
  destruct (local_early n2 (h * msPerHour + g1)) as (g2 & Hg2 & L2 & D2 & W2); [unfold msPerHour in *; lia|].
  unfold setDate. cbn [mbind option_bind]. rewrite D2, W2.
  assert (YearFromDay n2 = y /\ MonthFromDay n2 = 0) as [-> ->].
  { destruct (day_of_fields y 0 d) as (? & ? & _); [|done]. split; [lia|]. change (days_in_month y 0) with 31. lia. }
  rewrite TimeClip_early by ((apply good_day; done || lia) || (unfold msPerHour in *; lia)). cbn [mbind option_bind].
  destruct (local_early (MakeDay y 0 1) (h * msPerHour + g1 + g2)) as (g3 & Hg3 & L3 & _); [unfold msPerHour in *; lia|].
  pose proof (zone_spread (UTC (th * msPerDay + h * msPerHour)) (UTC (MakeDay y 0 1 * msPerDay + (h * msPerHour + g1 + g2)))) as Hs.
  rewrite (round_days_near (th - MakeDay y 0 1)) by (unfold msPerHour in *; lia).
  unfold iso_week, day_of_year. fold th y. rewrite MakeDay_in_year, january_start by lia.
  do 3 f_equal. lia.
Qed.

End zone.

(** ** Tokens *)

Variant token := Field (c : N) (doubled : bool) | Lit (c : N).
#[export] Instance token_eq_dec : EqDecision token.
Proof. solve_decision. Defined.

Fixpoint lex_go (f : jstring) (skip literal : bool) : list token :=
  match f with
  | [] => []
  | c :: f =>
      if skip then lex_go f false literal
      else if (c =? 39)%N then
        if lookAhead 39 f then Lit 39 :: lex_go f true literal else lex_go f false (negb literal)
      else if literal then Lit c :: lex_go f false true
      else if is_field c then let doubled := lookAhead c f in Field c doubled :: lex_go f doubled false
      else Lit c :: lex_go f false false
  end.
Definition lex (f : jstring) : list token := lex_go f false false.

Example lex_ex : lex "d'd''d'dd''D"%js = [Field 100 false; Lit 100; Lit 39; Lit 100; Field 100 true; Lit 39; Field 68 false]%N.
Proof. vm_compute. reflexivity. Qed.

(** Times are written and read with different marks when they are doubled. *)
Definition plain (t : token) : bool := match t with Field c _ => negb ((c =? 64) || (c =? 33))%N | Lit _ => true end.

Section tokens.
Context `{TimeZone}.
Variable toLowerCase : jstring → jstring.
Variable defaults : date_config.
Variable settings : option date_config.

Definition read_token (t : token) (r : reading) : reading + parse_error :=
  match t with Field c doubled => read_field toLowerCase defaults settings c doubled r | Lit c => checkLiteral c r end.
Fixpoint read_tokens (ts : list token) (r : reading) : reading + parse_error :=
  match ts with
  | [] => inl r
  | t :: ts => match read_token t r with inl r => read_tokens ts r | inr e => inr e end
  end.
Definition write_token (date : jnum) (t : token) : jstring :=
  match t with Field c doubled => write_field defaults settings date c doubled | Lit c => [c] end.
Definition write_tokens (date : jnum) (ts : list token) : jstring := flat_map (write_token date) ts.

Lemma read_literal c b r : is_field c = false → read_field toLowerCase defaults settings c b r = checkLiteral c r.
Proof. unfold is_field, read_field. rewrite !orb_false_iff. intros (((((((-> & ->) & ->) & ->) & ->) & ->) & ->) & ->). done. Qed.
Lemma write_literal c b date : is_field c = false → write_field defaults settings date c b = [c].
Proof. unfold is_field, write_field. rewrite !orb_false_iff. intros (((((((-> & ->) & ->) & ->) & ->) & ->) & ->) & ->). done. Qed.

(** Parsing is reading the tokens one after the other. *)
Lemma parse_go_lex f skip literal r :
  parse_go toLowerCase defaults settings f skip literal r = read_tokens (lex_go f skip literal) r.
Proof.
  revert skip literal r. induction f as [|c f IH]; intros skip literal r; [done|]. cbn [parse_go lex_go].
  destruct skip; [apply IH|]. destruct (N.eqb_spec c 39) as [->|].
  - destruct (lookAhead 39 f); cbn; [destruct (checkLiteral 39 r)|]; try done; apply IH.
  - destruct literal; [cbn; destruct (checkLiteral c r); [apply IH|done]|].
    destruct (is_field c) eqn:Ef; cbn [andb read_tokens read_token].
    + cbv zeta. destruct (read_field _ _ _ _ _ _); [apply IH|done].
    + rewrite read_literal by done. destruct (checkLiteral c r); [apply IH|done].
Qed.

(** Formatting is writing them, but for doubled marks of times. *)
Lemma format_go_lex date f skip literal : forallb plain (lex_go f skip literal) = true →
  format_go defaults settings date f skip literal = write_tokens date (lex_go f skip literal).
Proof.
  revert skip literal. induction f as [|c f IH]; intros skip literal Hp; [done|]. cbn [format_go lex_go] in *.
  destruct skip; [by apply IH|]. destruct (N.eqb_spec c 39) as [->|].
  - destruct (lookAhead 39 f); cbn in *; [f_equal|]; by apply IH.
  - destruct literal; [cbn in *; f_equal; by apply IH|]. unfold looks_ahead.
    destruct (is_field c) eqn:Ef; cbn [andb forallb plain] in *.
    + apply andb_true_iff in Hp as [-> Hp]. cbn. f_equal. by apply IH.
    + rewrite write_literal by done. cbn. f_equal. by apply IH.
Qed.

End tokens.

(** ** Numbers *)

Definition no_digit (s : jstring) : Prop := ∀ c t, s = c :: t → digit_of c = None.

Lemma digits_upto_app k w rest acc m v n :
  digits_upto k w acc m = (v, n, []) → (n = m + k)%nat ∨ no_digit rest → digits_upto k (w ++ rest) acc m = (v, n, rest).
Proof.
  revert w acc m. induction k as [|k IH]; intros w acc m E Hr; [by destruct w; simplify_eq/=|].
  destruct w as [|c w]; cbn in E |- *.
  - injection E as -> ->. destruct Hr as [|Hr]; [lia|]. destruct rest as [|c rest]; [done|]. cbn. by rewrite (Hr c rest).
  - destruct (digit_of c) as [d|]; [|done]. apply IH; [done|]. destruct Hr as [->|]; [left; lia|by right].
Qed.

#[local] Set Warnings "-abstract-large-number".
Definition ascii (c : N) : bool := (c <? 128)%N.

(** Each number of a range is read back from its digits, padded or not; [fixed] ones have all the digits that are read. *)
Definition number_ok (size len : nat) (fixed : bool) (v : Z) : bool :=
  let s := pad len (str_of_Z v) in
  match digits_upto size s 0 0 with
  | (v', n, []) => (v' =? v) && (1 <=? n)%nat && (negb fixed || (n =? size)%nat) && forallb ascii s
  | _ => false
  end.
Definition numbers_ok (size len : nat) (fixed : bool) (lo count : nat) : bool :=
  forallb (λ k, number_ok size len fixed (Z.of_nat k)) (seq lo count).

Lemma number_written size len fixed lo count v : numbers_ok size len fixed lo count = true →
  Z.of_nat lo <= v < Z.of_nat (lo + count) →
  forallb ascii (pad len (str_of_Z v)) = true ∧
  ∀ rest, fixed = true ∨ no_digit rest →
  ∃ n, digits_upto size (pad len (str_of_Z v) ++ rest) 0 0 = (v, n, rest) ∧ (1 <= n)%nat ∧ (fixed = true → n = size).
Proof.
  intros Hok Hv. unfold numbers_ok in Hok. rewrite forallb_forall in Hok. specialize (Hok (Z.to_nat v)).
  rewrite Z2Nat.id in Hok by lia. unfold number_ok in Hok. rewrite in_seq in Hok. cbv zeta in Hok.
  destruct (digits_upto size (pad len (str_of_Z v)) 0 0) as [[v' n] [|? ?]] eqn:E; [|discriminate Hok; lia].
  apply andb_true_iff in Hok as [[[Ev En]%andb_true_iff Hl]%andb_true_iff Ha]; [|lia]. split; [done|]. intros rest Hr.
  apply Z.eqb_eq in Ev as ->. apply Nat.leb_le in En.
  assert (fixed = true → n = size) as Hn by (intros ->; by apply Nat.eqb_eq in Hl).
  exists n. split; [|done]. apply digits_upto_app; [done|]. destruct Hr as [Hne|]; [left; by rewrite Hn|by right].
Qed.

Lemma ok_day1 : numbers_ok 2 0 false 1 31 = true. Proof. vm_compute. reflexivity. Qed.
Lemma ok_day2 : numbers_ok 2 2 true 1 31 = true. Proof. vm_compute. reflexivity. Qed.
Lemma ok_doy1 : numbers_ok 3 0 false 1 366 = true. Proof. vm_compute. reflexivity. Qed.
Lemma ok_doy3 : numbers_ok 3 3 true 1 366 = true. Proof. vm_compute. reflexivity. Qed.
Lemma ok_year2 : numbers_ok 2 2 true 0 100 = true. Proof. vm_compute. reflexivity. Qed.
Lemma ok_year4 : numbers_ok 4 0 true 1000 9000 = true. Proof. vm_compute. reflexivity. Qed.

(** ** Names *)

Definition lower (s : jstring) : jstring := map lower_ascii s.

(** No name is the beginning of another, whatever the case. *)
Definition apart (names : list jstring) : bool :=
  forallb (λ p, forallb (λ q, (p.1 =? q.1)%nat || negb (starts_with (lower p.2) (lower q.2))) (imap pair names)) (imap pair names).
Definition names_ok (count : nat) (names : list jstring) : bool :=
  (length names =? count)%nat && apart names
  && forallb (λ s, forallb ascii s && match s with c :: _ => bool_decide (digit_of c = None) | [] => false end) names.

Lemma insert_name_elem p q l : p ∈ insert_name q l ↔ p = q ∨ p ∈ l.
Proof.
  induction l as [|x l IH]; cbn [insert_name]; [rewrite elem_of_cons; tauto|]. destruct (length q.2 <? length x.2)%nat; rewrite ?elem_of_cons, ?IH, ?elem_of_cons; tauto.
Qed.
Lemma by_length_elem k v names : (k, v) ∈ by_length names ↔ names !! k = Some v.
Proof.
  unfold by_length. assert (∀ l, (k, v) ∈ foldr insert_name [] l ↔ (k, v) ∈ l) as ->.
  { induction l as [|x l IH]; cbn; [done|]. rewrite insert_name_elem, IH, elem_of_cons. done. }
  split; [intros (i & y & E & ?)%elem_of_lookup_imap_1; by simplify_eq|apply (elem_of_lookup_imap_2 pair)].
Qed.

Lemma apart_spec names i j v w : apart names = true → names !! i = Some v → names !! j = Some w → i ≠ j →
  starts_with (lower v) (lower w) = false.
Proof.
  unfold apart. rewrite forallb_forall. intros Ha Hi Hj Hne.
  specialize (Ha (i, v) (proj1 (list_elem_of_In _ _) (elem_of_lookup_imap_2 pair _ _ _ Hi))). rewrite forallb_forall in Ha.
  specialize (Ha (j, w) (proj1 (list_elem_of_In _ _) (elem_of_lookup_imap_2 pair _ _ _ Hj))). cbn in Ha.
  rewrite (proj2 (Nat.eqb_neq i j) Hne) in Ha. by apply negb_true_iff in Ha.
Qed.

Lemma names_ok_at count names i : names_ok count names = true → (i < count)%nat →
  ∃ v, names !! i = Some v ∧ forallb ascii v = true ∧ (∃ c t, v = c :: t) ∧ (∀ t, no_digit (v ++ t)).
Proof.
  unfold names_ok. rewrite !andb_true_iff, Nat.eqb_eq, forallb_forall. intros [[Hl _] Hf] Hi.
  destruct (lookup_lt_is_Some_2 names i) as [v Hv]; [lia|]. exists v. split; [done|].
  specialize (Hf v (proj1 (list_elem_of_In _ _) (list_elem_of_lookup_2 _ _ _ Hv))).
  apply andb_true_iff in Hf as [Ha Hc]. split; [done|]. destruct v as [|c v]; [done|].
  split; [by eexists _, _|]. apply bool_decide_eq_true_1 in Hc. intros t c' t' E. cbn in E. by simplify_eq.
Qed.

Section names.
Variable toLowerCase : jstring → jstring.
Hypothesis lower_of_ascii : ∀ s, forallb ascii s = true → toLowerCase s = lower s.

(** A written name is found again, and no other. *)
Lemma getName_written count names i v tail r : names_ok count names = true → names !! i = Some v →
  forallb ascii (v ++ tail) = true → r_rest r = v ++ tail →
  getName toLowerCase names r = inl (Z.of_nat i + 1, advance (length v) tail r).
Proof.
  intros Hok Hi Ha Er. unfold getName. rewrite Er.
  assert (∀ k, forallb ascii (take k (v ++ tail)) = true) as Hat.
  { intros k. rewrite <- (take_drop k (v ++ tail)), forallb_app in Ha. by apply andb_true_iff in Ha as [? _]. }
  destruct (List.find _ _) as [[k w]|] eqn:Ef.
  - apply find_some in Ef as [Hin Hp]. apply list_elem_of_In, by_length_elem in Hin.
    destruct (decide (k = i)) as [->|Hne].
    { replace w with v by congruence. by rewrite drop_app_length. }
    exfalso. apply bool_decide_eq_true_1 in Hp. cbn [snd] in Hp.
    assert (forallb ascii w = true) as Hw.
    { unfold names_ok in Hok. rewrite !andb_true_iff, forallb_forall in Hok. destruct Hok as [_ Hok].
      specialize (Hok w (proj1 (list_elem_of_In _ _) (list_elem_of_lookup_2 _ _ _ Hin))). by apply andb_true_iff in Hok as [? _]. }
    rewrite !lower_of_ascii in Hp by done.
    assert (apart names = true) as Hap by (unfold names_ok in Hok; rewrite !andb_true_iff in Hok; tauto).
    pose proof (apart_spec names k i w v Hap Hin Hi Hne) as H1. pose proof (apart_spec names i k v w Hap Hi Hin (not_eq_sym Hne)) as H2.
    destruct (Nat.le_gt_cases (length w) (length v)).
    + rewrite take_app_le in Hp by done. rewrite <- (take_drop (length w) v) in H1. unfold lower in *. rewrite map_app, Hp in H1.
      by rewrite starts_with_app in H1.
    + rewrite take_app_ge in Hp by lia. unfold lower in *. rewrite <- Hp, map_app in H2. by rewrite starts_with_app in H2.
  - pose proof (find_none _ _ Ef (i, v) (proj1 (list_elem_of_In _ _) (proj2 (by_length_elem _ _ _) Hi))) as Hp. cbn [snd] in Hp.
    apply bool_decide_eq_false_1 in Hp. by rewrite take_app_length in Hp.
Qed.
End names.

(** ** The round trip *)

(** What a format needs so that its texts can be read: ASCII, no marks of times, and a number of variable length before something
    that is no digit. *)
Definition variable_length (t : token) : bool :=
  match t with Field c false => ((c =? 100) || (c =? 109) || (c =? 111))%N | _ => false end.
Definition digit_free (ts : list token) : bool :=
  match ts with
  | [] => true
  | Lit c :: _ => bool_decide (digit_of c = None)
  | Field c _ :: _ => ((c =? 68) || (c =? 77))%N
  end.
Definition token_ascii (t : token) : bool := match t with Field c _ => is_field c | Lit c => ascii c end.
Fixpoint separable (ts : list token) : bool :=
  match ts with
  | [] => true
  | t :: ts => (negb (variable_length t) || digit_free ts) && token_ascii t && plain t && separable ts
  end.

Definition has_field (c : N) (ts : list token) : bool := existsb (λ t, match t with Field c' _ => (c' =? c)%N | Lit _ => false end) ts.
(** The tokens determine a day of a year. *)
Definition determines (ts : list token) : bool := has_field 111 ts || has_field 109 ts && has_field 100 ts || has_field 77 ts && has_field 100 ts.

(** The names in use can be told apart. *)
Definition names_fit (settings : option date_config) (defaults : date_config) : bool :=
  names_ok 7 (names_of dayNamesShort settings defaults) && names_ok 7 (names_of dayNames settings defaults)
  && names_ok 12 (names_of monthNamesShort settings defaults) && names_ok 12 (names_of monthNames settings defaults).

(** The year with the last two digits [yy] in the hundred years that end at the cutoff of this century. *)
Definition short_year (thisYear cut : Z) (yy : Z) : Z := thisYear - thisYear mod 100 + (if yy <=? cut then yy else yy - 100).

(** The years a format can write: four digits, or two digits with the century that the cutoff gives. *)
Definition year_fits (thisYear cut : jnum) (ts : list token) (Y : Z) : Prop :=
  1000 <= Y <= 9999
  ∧ (Field 121 false ∈ ts → 1900 <= Y ∧ ∃ t c, thisYear = Some t ∧ 0 <= t ∧ cut = Some c ∧ short_year t c (Y mod 100) = Y)
  ∧ (has_field 121 ts = false → thisYear = Some Y).

(** A number token in front of text that ends it. *)
Lemma getNumber_written c b len fixed lo count v :
  numbers_ok (number_size c b) len fixed lo count = true → Z.of_nat lo <= v < Z.of_nat (lo + count) →
  ((c =? 121)%N = true → fixed = true) →
  forallb ascii (pad len (str_of_Z v)) = true ∧
  ∀ tail r, fixed = true ∨ no_digit tail → r_rest r = pad len (str_of_Z v) ++ tail →
  ∃ k, getNumber c b r = inl (v, advance k tail r).
Proof.
  intros Hok Hv Hc. destruct (number_written _ _ _ _ _ v Hok Hv) as [Ha Hw]. split; [done|]. intros tail r Hr Er.
  destruct (Hw tail Hr) as (n & E & Hn & Hsize).
  exists n. unfold getNumber. rewrite Er, E. cbv zeta.
  destruct (c =? 121)%N.
  - rewrite Hsize by auto. by rewrite Nat.ltb_irrefl.
  - destruct (Nat.ltb_spec n 1); [lia|done].
Qed.

Lemma two_digits yy : 0 <= yy < 100 -> (if yy <? 10 then "0"%js else []) ++ str_of_Z yy = pad 2 (str_of_Z yy).
Proof.
  intros H. assert (forallb (λ k, jeqb ((if Z.of_nat k <? 10 then "0"%js else []) ++ str_of_Z (Z.of_nat k)) (pad 2 (str_of_Z (Z.of_nat k)))) (seq 0 100) = true) as Hok
    by (vm_compute; reflexivity).
  rewrite forallb_forall in Hok. specialize (Hok (Z.to_nat yy)). cbv beta in Hok. rewrite Z2Nat.id, jeqb_true in Hok by lia.
  apply Hok, in_seq. lia.
Qed.

Section roundtrip.
Context `{ZoneLaws}.
Variable toLowerCase : jstring → jstring.
Hypothesis lower_of_ascii : ∀ s, forallb ascii s = true → toLowerCase s = lower s.
Variable defaults : date_config.
Variable settings : option date_config.
Variable now : Z.
Hypothesis Hnames : names_fit settings defaults = true.
Variable n : Z.
#[local] Abbreviation Y := (YearFromDay n).
#[local] Abbreviation M := (MonthFromDay n).
#[local] Abbreviation D := (DateFromDay n).
#[local] Abbreviation date := (Some (midnight n)).
#[local] Abbreviation cut := (parse_cutoff defaults now settings).
#[local] Abbreviation write := (write_token defaults settings date).
#[local] Abbreviation writes := (write_tokens defaults settings date).

(** What a reading has found out about the day. *)
Record knows (year month day doy : bool) (r : reading) : Prop := {
  k_year : if year then full_year now cut (r_year r) = Some Y else r_year r = Some (-1);
  k_month : month = true → r_month r = Some (M + 1);
  k_day : day = true → r_day r = Some D;
  k_doy : r_doy r = if doy then day_of_year n else -1 }.

Lemma field_ranges : 0 <= M < 12 ∧ 1 <= D <= 31 ∧ 1 <= day_of_year n <= 366.
Proof using.
  clear. destruct (fields_of_day n) as [[Hm Hd] _]. pose proof (month_days_pos (leap Y) M). unfold days_in_month in Hd.
  pose proof (year_spec n) as Hy. rewrite year_length in Hy. pose proof (year_length_pos Y). unfold day_of_year. lia.
Qed.

Lemma doy_written : good_year Y → doy_of date = Some (day_of_year n).
Proof.
  intros Hy. destruct (fields_of_day n) as [[Hm Hd] En]. pose proof field_ranges.
  unfold doy_of. rewrite getFullYear_midnight, getMonth_midnight, getDate_midnight, !new_date_good by (done || lia).
  cbn [mbind option_bind]. rewrite En. f_equal. pose proof (midnight_spread (MakeDay Y 0 0) n) as Hs.
  rewrite (round_days_near (n - MakeDay Y 0 0)) by (unfold msPerHour in *; lia).
  unfold day_of_year. rewrite MakeDay_in_year, january_start by lia. lia.
Qed.

Lemma short_year_read t c yy : thisYear now = Some t → 0 <= t → cut = Some c → 0 <= yy < 100 →
  full_year now cut (Some yy) = Some (short_year t c yy).
Proof.
  intros Et Ht Ec Hyy. unfold full_year, short_year. rewrite Et, Ec. cbn.
  destruct (Z.eqb_spec yy (-1)); [lia|]. destruct (Z.ltb_spec yy 100); [|lia].
  rewrite Z.rem_mod_nonneg by lia. destruct (yy <=? c); f_equal; lia.
Qed.

Lemma long_year_read : 1000 <= Y → full_year now cut (Some Y) = Some Y.
Proof. intros HY. unfold full_year. cbn. destruct (Z.eqb_spec Y (-1)); [lia|]. by destruct (Z.ltb_spec Y 100); [lia|]. Qed.

(** What the tokens of a number write, and how it is read. *)
Definition number_of (c : N) : Z :=
  if (c =? 100)%N then D else if (c =? 109)%N then M + 1 else if (c =? 111)%N then day_of_year n else 0.
Definition is_number (c : N) : bool := ((c =? 100) || (c =? 109) || (c =? 111))%N.

Lemma number_token c b : good_year Y → is_number c = true →
  forallb ascii (write (Field c b)) = true ∧
  ∀ tail r, b = true ∨ no_digit tail → r_rest r = write (Field c b) ++ tail →
  ∃ k, getNumber c b r = inl (number_of c, advance k tail r).
Proof.
  intros Hy Hc. destruct field_ranges as (HM & HD & HO). unfold is_number in Hc. rewrite !orb_true_iff, !N.eqb_eq in Hc.
  unfold write_token. destruct Hc as [[->| ->]| ->]; unfold write_field, number_of; cbn -[formatNumber getDate getMonth doy_of pad].
  - rewrite getDate_midnight. unfold formatNumber, jnum_str.
    destruct b; [apply (getNumber_written 100 true 2 true 1 31)|apply (getNumber_written 100 false 0 false 1 31)]; (apply ok_day1 || apply ok_day2 || lia || done).
  - rewrite getMonth_midnight. unfold formatNumber, jnum_str. cbn [mbind option_bind].
    destruct b; [apply (getNumber_written 109 true 2 true 1 31)|apply (getNumber_written 109 false 0 false 1 31)]; (apply ok_day1 || apply ok_day2 || lia || done).
  - rewrite doy_written by done. unfold formatNumber, jnum_str.
    destruct b; [apply (getNumber_written 111 true 3 true 1 366)|apply (getNumber_written 111 false 0 false 1 366)]; (apply ok_doy1 || apply ok_doy3 || lia || done).
Qed.

Lemma year_token (b : bool) : 1000 <= Y <= 9999 → (b = false → 1900 <= Y) →
  forallb ascii (write (Field 121 b)) = true ∧
  ∀ tail r, r_rest r = write (Field 121 b) ++ tail →
  ∃ k, getNumber 121 b r = inl (if b then Y else Y mod 100, advance k tail r).
Proof.
  intros Hy H19. cbn -[year_text]. unfold year_text. rewrite getFullYear_midnight.
  destruct b.
  - destruct (getNumber_written 121 true 0 true 1000 9000 Y ok_year4) as [Ha Hr]; [change (1000 <= Y < 10000); lia|done|]. split; [exact Ha|]. intros tail r. apply Hr. by left.
  - cbn [mbind option_bind jnum_lt jnum_str]. rewrite Z.rem_mod_nonneg by lia. replace ((Y - 1900) mod 100) with (Y mod 100) by divlia.
    assert (0 <= Y mod 100 < 100) as Hr by (apply Z.mod_pos_bound; lia). rewrite two_digits by done.
    destruct (getNumber_written 121 false 2 true 0 100 (Y mod 100) ok_year2) as [Ha Hg]; [lia|done|]. split; [exact Ha|]. intros tail r. apply Hg. by left.
Qed.

(** The name of the day or the month. *)
Definition names_at (c : N) (b : bool) : list jstring :=
  if (c =? 68)%N then names_of (if b then dayNames else dayNamesShort) settings defaults
  else names_of (if b then monthNames else monthNamesShort) settings defaults.
Definition name_index (c : N) : Z := if (c =? 68)%N then WeekDay n else M.

Lemma name_token c b : c = 68%N ∨ c = 77%N →
  forallb ascii (write (Field c b)) = true ∧ (∀ t, no_digit (write (Field c b) ++ t)) ∧
  ∀ tail r, forallb ascii tail = true → r_rest r = write (Field c b) ++ tail →
  ∃ k, getName toLowerCase (names_at c b) r = inl (name_index c + 1, advance k tail r).
Proof.
  intros Hc. destruct field_ranges as (HM & _). pose proof (weekday_range n) as HW.
  assert (∃ count, names_ok count (names_at c b) = true ∧ 0 <= name_index c < Z.of_nat count) as (count & Hok & Hi).
  { unfold names_fit in Hnames. rewrite !andb_true_iff in Hnames. destruct Hnames as [[[? ?] ?] ?].
    destruct Hc as [->| ->]; [exists 7%nat|exists 12%nat]; (split; [destruct b; done|]); cbn; lia. }
  destruct (names_ok_at _ _ (Z.to_nat (name_index c)) Hok) as (v & Hv & Ha & _ & Hd); [lia|].
  assert (write (Field c b) = v) as ->.
  { transitivity (name_at (names_at c b) (Some (name_index c))).
    - destruct Hc as [->| ->]; cbn -[getDay getMonth name_at]; by rewrite ?getDay_midnight, ?getMonth_midnight.
    - unfold name_at. destruct (Z.ltb_spec (name_index c) 0); [lia|]. by rewrite Hv. }
  split; [done|]. split; [done|]. intros tail r Ht Er. exists (length v).
  rewrite (getName_written toLowerCase lower_of_ascii count _ (Z.to_nat (name_index c)) v tail); try done.
  - by rewrite Z2Nat.id by lia.
  - by rewrite forallb_app, Ha, Ht.
Qed.

(** The conditions on the date for a list of tokens. *)
Definition date_fits (ts : list token) : Prop := year_fits (thisYear now) cut ts Y.

Lemma field_cases c : is_field c = true → plain (Field c false) = true →
  is_number c = true ∨ (c = 68%N ∨ c = 77%N) ∨ c = 121%N.
Proof. unfold is_field, plain, is_number. rewrite negb_true_iff, !orb_true_iff, orb_false_iff, !N.eqb_eq, !N.eqb_neq. tauto. Qed.

(** A token in front of the others is read as it was written, and tells what it should of the day. *)
Lemma token_read t tail ys ms ds os r :
  1000 <= Y <= 9999 → (t = Field 121 false → 1900 <= Y ∧ full_year now cut (Some (Y mod 100)) = Some Y) →
  token_ascii t = true → plain t = true → (variable_length t = true → no_digit tail) → forallb ascii tail = true →
  r_rest r = write t ++ tail → knows ys ms ds os r →
  ∃ r', read_token toLowerCase defaults settings t r = inl r' ∧ r_rest r' = tail
    ∧ knows (has_field 121 [t] || ys) (has_field 109 [t] || has_field 77 [t] || ms) (has_field 100 [t] || ds) (has_field 111 [t] || os) r'.
Proof.
  intros HY Hshort Ha Hp Hv Hta Er [K1 K2 K3 K4]. assert (good_year Y) as Hy by (unfold good_year; lia).
  destruct t as [c b|c]; cbn [read_token write_token token_ascii] in *.
  2:{ unfold checkLiteral. rewrite Er. cbn. rewrite N.eqb_refl. eexists. split; [done|]. split; [done|]. by constructor. }
  destruct (field_cases c Ha Hp) as [Hc|[Hc| ->]].
  - destruct (number_token c b Hy Hc) as [_ Hr]. destruct (Hr tail r) as [k E].
    { destruct b; [by left|right]. apply Hv. unfold is_number in Hc. cbn. by rewrite orb_true_iff, orb_true_iff in *; tauto. }
    { done. }
    unfold is_number in Hc. rewrite !orb_true_iff, !N.eqb_eq in Hc.
    destruct Hc as [[->| ->]| ->]; cbn [read_field N.eqb]; unfold read_field; cbn -[getNumber]; rewrite E;
      (eexists; split; [done|]; split; [done|]; by constructor).
  - destruct (name_token c b Hc) as (_ & _ & Hr). destruct (Hr tail r Hta Er) as [k E]. unfold names_at, name_index in E.
    destruct Hc as [->| ->]; cbn [N.eqb Pos.eqb] in E; unfold read_field; cbn -[getName]; rewrite E;
      (eexists; split; [done|]; split; [done|]; by constructor).
  - destruct (year_token b HY) as [_ Hr]; [intros ->; by apply Hshort|]. destruct (Hr tail r Er) as [k E].
    unfold read_field; cbn -[getNumber]. rewrite E. eexists. split; [done|]. split; [done|].
    constructor; try done. cbn. destruct b; [apply long_year_read; lia|by apply Hshort].
Qed.

Lemma token_ascii_written t : 1000 <= Y <= 9999 → (t = Field 121 false → 1900 <= Y) → token_ascii t = true → plain t = true →
  forallb ascii (write t) = true.
Proof.
  intros HY Hs Ha Hp. assert (good_year Y) as Hy by (unfold good_year; lia). destruct t as [c b|c]; [|cbn in *; by rewrite Ha].
  destruct (field_cases c Ha Hp) as [Hc|[Hc| ->]].
  - by apply number_token.
  - by apply name_token.
  - apply year_token; [done|]. intros ->. by apply Hs.
Qed.

Lemma tail_no_digit ts : digit_free ts = true → no_digit (writes ts).
Proof.
  destruct ts as [|[c b|c] ts]; cbn -[write_token]; intros Hd.
  - done.
  - apply name_token. by rewrite orb_true_iff, !N.eqb_eq in Hd.
  - apply bool_decide_eq_true_1 in Hd. intros c' t E. cbn in E. by simplify_eq.
Qed.

(** The years that the tokens can write, as they are read. *)
Definition shorts_read (ts : list token) : Prop := Field 121 false ∈ ts → 1900 <= Y ∧ full_year now cut (Some (Y mod 100)) = Some Y.

Lemma tokens_ascii ts : 1000 <= Y <= 9999 → shorts_read ts → separable ts = true → forallb ascii (writes ts) = true.
Proof.
  intros HY. induction ts as [|t ts IH]; intros Hs Hsep; [done|].
  change (writes (t :: ts)) with (write t ++ writes ts). cbn [separable] in Hsep.
  rewrite !andb_true_iff in Hsep. destruct Hsep as [[[_ Ha] Hp] Hsep]. rewrite forallb_app.
  rewrite token_ascii_written, IH; try done; intros E; apply Hs; set_solver.
Qed.

Lemma tokens_read ts ys ms ds os r : 1000 <= Y <= 9999 → shorts_read ts → separable ts = true →
  r_rest r = writes ts → knows ys ms ds os r →
  ∃ r', read_tokens toLowerCase defaults settings ts r = inl r' ∧ r_rest r' = []
    ∧ knows (has_field 121 ts || ys) (has_field 109 ts || has_field 77 ts || ms) (has_field 100 ts || ds) (has_field 111 ts || os) r'.
Proof.
  intros HY. revert ys ms ds os r. induction ts as [|t ts IH]; intros ys ms ds os r Hs Hsep Er K; [by exists r|].
  cbn [separable] in Hsep. rewrite !andb_true_iff in Hsep. destruct Hsep as [[[Hv Ha] Hp] Hsep].
  assert (shorts_read ts) as Hs' by (intros E; apply Hs; set_solver).
  destruct (token_read t (writes ts) ys ms ds os r HY) as (r' & E & Er' & K'); try done.
  { intros ->. apply Hs. set_solver. }
  { intros Hvar. rewrite Hvar in Hv. by apply tail_no_digit. }
  { by apply tokens_ascii. }
  destruct (IH _ _ _ _ r' Hs' Hsep Er' K') as (r'' & E' & Er'' & K'').
  exists r''. cbn [read_tokens]. rewrite E. split; [done|]. split; [done|].
  assert (∀ c, has_field c (t :: ts) = has_field c [t] || has_field c ts) as Hh by (intros c; unfold has_field; cbn; by rewrite orb_false_r).
  rewrite !Hh. clear -K''. destruct K'' as [K1 K2 K3 K4]. constructor.
  - rewrite orb_assoc, (orb_comm (has_field 121 ts)) in K1. by rewrite <- orb_assoc in K1 |- *.
  - intros E. apply K2. rewrite !orb_true_iff in *. tauto.
  - intros E. apply K3. rewrite !orb_true_iff in *. tauto.
  - rewrite orb_assoc, (orb_comm (has_field 111 ts)) in K4. by rewrite <- orb_assoc in K4 |- *.
Qed.

Lemma number_nonempty c b : good_year Y → is_number c = true → write (Field c b) ≠ [].
Proof.
  intros Hy Hc E. destruct (number_token c b Hy Hc) as [_ Hr].
  destruct (Hr [] {| r_pos := 0; r_rest := []; r_year := None; r_month := None; r_day := None; r_doy := 0 |}) as [k Ek].
  - right. by intros ? ? ?.
  - by rewrite E.
  - unfold is_number in Hc. rewrite !orb_true_iff, !N.eqb_eq in Hc. destruct Hc as [[->| ->]| ->]; by destruct b.
Qed.

Lemma written_nonempty c ts : good_year Y → is_number c = true → has_field c ts = true → writes ts ≠ [].
Proof.
  intros Hy Hc. unfold has_field. rewrite existsb_exists. intros (t & Hin & Ht) E.
  destruct t as [c' b|]; [|done]. apply N.eqb_eq in Ht as ->. apply (number_nonempty c b Hy Hc).
  apply in_split in Hin as (l1 & l2 & ->). unfold write_tokens in E. rewrite flat_map_app in E. cbn -[write_token] in E.
  apply app_eq_nil in E as [_ E]. by apply app_eq_nil in E as [E _].
Qed.

(** The years that fit are read as they are. *)
Lemma fits_read ts : date_fits ts → 1000 <= Y <= 9999 ∧ shorts_read ts ∧ (has_field 121 ts = false → thisYear now = Some Y).
Proof.
  intros (HY & Hs & Ht). split; [done|]. split; [|done]. intros E. destruct (Hs E) as (H19 & t & c & Et & Htp & Ec & Es).
  split; [done|]. rewrite (short_year_read t c) by (done || apply Z.mod_pos_bound; lia). by rewrite Es.
Qed.

(** A complete reading is finished as the day. *)
Lemma knows_finish ys ms ds os r : good_year Y → (ys = false → thisYear now = Some Y) → os || ms && ds = true → knows ys ms ds os r →
  finish_date now cut r = PDate date.
Proof.
  intros Hy Hys Hd [K1 K2 K3 K4]. destruct field_ranges as (HM & HD & HO). destruct (fields_of_day n) as [Hv En].
  assert (full_year now cut (r_year r) = Some Y) as Ey.
  { destruct ys; [done|]. rewrite K1. unfold full_year. cbn. by apply Hys. }
  destruct os.
  - rewrite (finish_doy now cut r Y Hy Ey) by lia. rewrite K4. rewrite decide_True.
    + do 3 f_equal. unfold day_of_year. lia.
    + pose proof (year_spec n) as Hs. rewrite year_length in Hs. unfold day_of_year. lia.
  - apply andb_true_iff in Hd as [-> ->].
    rewrite (finish_fields now cut r Y (M + 1) D) by (auto || lia). replace (M + 1 - 1) with M by lia.
    rewrite decide_True by done. by rewrite En.
Qed.

End roundtrip.

Lemma separable_plain ts : separable ts = true → forallb plain ts = true.
Proof. induction ts as [|t ts IH]; [done|]. cbn. rewrite !andb_true_iff. tauto. Qed.

(** C11: a date that is written with a format is read back from its text, whenever the numbers and names
    of the format can be told apart and determine the day. *)
Theorem date_text_roundtrip `{ZoneLaws} toLowerCase defaults settings now f n :
  (∀ s, forallb ascii s = true → toLowerCase s = lower s) →
  names_fit settings defaults = true → separable (lex f) = true → determines (lex f) = true →
  year_fits (thisYear now) (parse_cutoff defaults now settings) (lex f) (YearFromDay n) →
  parseDate toLowerCase defaults now f (Some (formatDate defaults f (Some (Some (midnight n))) settings)) settings
  = PDate (Some (midnight n)).
Proof.
  intros Hlow Hnames Hsep Hdet Hfit.
  destruct (fits_read defaults settings now n (lex f) Hfit) as (HY & Hs & Ht).
  assert (good_year (YearFromDay n)) as Hy by (unfold good_year; lia).
  unfold formatDate. rewrite format_go_lex by (by apply separable_plain).
  fold (lex f). set (out := write_tokens defaults settings (Some (midnight n)) (lex f)).
  assert (out ≠ []) as Hne.
  { unfold determines in Hdet. rewrite !orb_true_iff, !andb_true_iff in Hdet.
    destruct Hdet as [[E|[_ E]]|[_ E]]; eapply written_nonempty; try exact E; done. }
  unfold parseDate. destruct out as [|u out'] eqn:Eout; [done|]. rewrite parse_go_lex. fold (lex f).
  set (start := {| r_pos := 0; r_rest := u :: out'; r_year := Some (-1); r_month := Some (-1); r_day := Some (-1); r_doy := -1 |}).
  destruct (tokens_read toLowerCase Hlow defaults settings now Hnames n (lex f) false false false false start HY Hs Hsep) as (r & E & Er & K).
  { exact (eq_sym Eout). } { by constructor. }
  rewrite E, Er. eapply knows_finish; [done|..|exact K].
  - by rewrite orb_false_r.
  - rewrite !orb_false_r. revert Hdet. unfold determines.
    by destruct (has_field 111 (lex f)), (has_field 109 (lex f)), (has_field 77 (lex f)), (has_field 100 (lex f)).
Qed.

Definition summer := summer_zone 3600000 16860.
#[export] Instance summer_laws : @ZoneLaws summer.
Proof. by apply summer_zone_laws. Defined.

(** The last of February of 2016, a day whose first hour is skipped. *)
Example date_text_roundtrip_witness :
  let zone := summer in
  parseDate lower english 1451692800000 "DD, d M y"%js
    (Some (formatDate english "DD, d M y"%js (Some (Some (midnight 16860))) None)) None = PDate (Some (midnight 16860)).
Proof.
  intros zone. apply (date_text_roundtrip lower english None 1451692800000 "DD, d M y"%js 16860);
    [reflexivity|vm_compute; reflexivity..|].
  split; [vm_compute; split; discriminate|]. split; [|intros E; vm_compute in E; discriminate E].
  intros _. split; [vm_compute; discriminate|]. exists 2016, 26. vm_compute. repeat split; discriminate.
Defined.

(** ** The week of a day *)

(** A Monday is a whole number of weeks from any other. *)
Lemma mondays n n' : ∃ k, monday_of n = monday_of n' + 7 * k.
Proof.
  destruct (thursday_spec n) as (_ & _ & Hw & _), (thursday_spec n') as (_ & _ & Hw' & _). unfold WeekDay in *.
  exists ((monday_of n - monday_of n') / 7). divlia.
Qed.

(** The week of a day is the one of ISO 8601: weeks begin on Monday, week 1 is the one with the 4th of January of the year
    in which the Thursday of the week lies, and there are at most 53. *)
Theorem week_is_iso8601 `{ZoneLaws} n :
  good_year (YearFromDay n) → good_year (YearFromDay (thursday_of n)) →
  ∃ w, iso8601Week (Some (midnight n)) = Some w ∧ 1 <= w <= 53
    ∧ monday_of n = monday_of (MakeDay (YearFromDay (thursday_of n)) 0 4) + 7 * (w - 1).
Proof.
  intros Hy Hy'. exists (iso_week n). split; [by apply iso8601Week_good|].
  pose proof (year_spec (thursday_of n)) as Hs. rewrite year_length in Hs.
  pose proof (year_length_pos (YearFromDay (thursday_of n))). unfold iso_week, day_of_year.
  rewrite MakeDay_in_year, january_start by lia. set (y0 := DayFromYear _) in *. clearbody y0.
  destruct (mondays n (y0 + 0 + 4 - 1)) as [k Hk]. destruct (thursday_spec (y0 + 0 + 4 - 1)) as (_ & _ & _ & Hm).
  unfold thursday_of in *. split; [divlia|]. rewrite Hk. f_equal. divlia.
Qed.

Example week_is_iso8601_witness : let zone := summer in
  ∃ w, iso8601Week (Some (midnight 16803)) = Some w ∧ 1 <= w <= 53
    ∧ monday_of 16803 = monday_of (MakeDay (YearFromDay (thursday_of 16803)) 0 4) + 7 * (w - 1).
Proof. intros zone. apply (week_is_iso8601 16803); vm_compute; split; discriminate. Defined.

(** ** Any text is answered *)

Lemma digit_of_range c d : digit_of c = Some d → 0 <= d <= 9.
Proof. unfold digit_of. destruct (_ && _) eqn:E; [|done]. intros. simplify_eq. rewrite andb_true_iff, !N.leb_le in E. lia. Qed.

Lemma digits_upto_range k s acc m v n rest : digits_upto k s acc m = (v, n, rest) → 0 <= acc →
  0 <= v < (acc + 1) * 10 ^ Z.of_nat k.
Proof.
  revert s acc m. induction k as [|k IH]; intros s acc m E Ha.
  - destruct s; cbn in E; simplify_eq; lia.
  - assert (0 < 10 ^ Z.of_nat k) as Hp by (apply Z.pow_pos_nonneg; lia).
    rewrite Nat2Z.inj_succ, Z.pow_succ_r by lia.
    destruct s as [|c s]; cbn in E; [simplify_eq; nia|]. destruct (digit_of c) as [d|] eqn:Ed; [|simplify_eq; nia].
    pose proof (digit_of_range _ _ Ed). destruct (IH _ _ _ E) as [? ?]; [lia|]. nia.
Qed.

Lemma getNumber_range c b r v r' : getNumber c b r = inl (v, r') → 0 <= v < 10 ^ Z.of_nat (number_size c b)
  ∧ r_year r' = r_year r ∧ r_month r' = r_month r ∧ r_day r' = r_day r ∧ r_doy r' = r_doy r.
Proof.
  unfold getNumber. destruct (digits_upto (number_size c b) (r_rest r) 0 0) as [[v' n] rest] eqn:E.
  pose proof (digits_upto_range _ _ _ _ _ _ _ E). destruct (_ <? _)%nat; [done|]. intros Er. simplify_eq. split; [lia|done].
Qed.

Lemma getName_range lower names r v r' : getName lower names r = inl (v, r') → 1 <= v <= Z.of_nat (length names)
  ∧ r_year r' = r_year r ∧ r_month r' = r_month r ∧ r_day r' = r_day r ∧ r_doy r' = r_doy r.
Proof.
  unfold getName. destruct (List.find _ _) as [[k w]|] eqn:E; [|done]. intros Er. simplify_eq. split; [|done].
  apply find_some in E as [Hin _]. apply list_elem_of_In, by_length_elem, lookup_lt_Some in Hin. lia.
Qed.

(** The fields of a reading, before some are completed. *)
Record bounded (r : reading) : Prop := {
  b_year : ∃ y, r_year r = Some y ∧ -1 <= y <= 9999; b_month : ∃ m, r_month r = Some m ∧ -1 <= m <= 99;
  b_day : ∃ d, r_day r = Some d ∧ -1 <= d <= 99; b_doy : -1 <= r_doy r <= 999 }.

Section reading.
Context `{ZoneLaws}.
Variable toLowerCase : jstring → jstring.
Variable defaults : date_config.
Variable settings : option date_config.
Variable now : Z.
Hypothesis few_names : ∀ b : bool, (length (names_of (if b then monthNames else monthNamesShort) settings defaults) <= 99)%nat.

Lemma read_token_bounded t r r' : plain t = true → read_token toLowerCase defaults settings t r = inl r' → bounded r → bounded r'.
Proof.
  intros Hp E [B1 B2 B3 B4]. destruct t as [c b|c]; cbn [read_token] in E.
  2:{ unfold checkLiteral in E. destruct (r_rest r) as [|u rest]; [done|]. destruct (u =? c)%N; [|done]. simplify_eq. by constructor. }
  assert (∀ v r1, getNumber c b r = inl (v, r1) → (number_size c b <= 4)%nat → 0 <= v < 10000
    ∧ ((c = 100 ∨ c = 109)%N → v <= 99) ∧ (c = 111%N → v <= 999)
    ∧ r_year r1 = r_year r ∧ r_month r1 = r_month r ∧ r_day r1 = r_day r ∧ r_doy r1 = r_doy r) as Hnum.
  { intros v r1 En Hs. destruct (getNumber_range _ _ _ _ _ En) as (Hv & ?). split; [|split; [|split]]; [| | |done].
    - assert (10 ^ Z.of_nat (number_size c b) <= 10 ^ 4) by (apply Z.pow_le_mono_r; lia). lia.
    - intros [-> | ->]; destruct b; cbn in Hv; lia.
    - intros ->. destruct b; cbn in Hv; lia. }
  cbn in Hp. rewrite negb_true_iff, orb_false_iff in Hp. destruct Hp as [H64 H33].
  unfold read_field in E. rewrite H64, H33 in E.
  repeat match type of E with
  | (if (c =? ?k)%N then _ else _) = _ => destruct (N.eqb_spec c k) as [->|]
  end.
  all: try (destruct (getNumber _ b r) as [[v r1]|] eqn:En; [|done]; destruct (Hnum v r1) as (Hv & H1 & H2 & E1 & E2 & E3 & E4);
    [done|by destruct b; cbn; lia|]; simplify_eq; constructor; cbn; rewrite ?E1, ?E2, ?E3, ?E4; eauto with lia).
  - destruct (getName _ _ r) as [[v r1]|] eqn:En; [|done]. destruct (getName_range _ _ _ _ _ En) as (_ & E1 & E2 & E3 & E4).
    simplify_eq. constructor; by rewrite ?E1, ?E2, ?E3, ?E4.
  - destruct (getName _ _ r) as [[v r1]|] eqn:En; [|done]. destruct (getName_range _ _ _ _ _ En) as (Hv & E1 & E2 & E3 & E4).
    pose proof (few_names b). simplify_eq. constructor; cbn; rewrite ?E1, ?E2, ?E3, ?E4; try done. exists v. split; [done|]. destruct b; lia.
  - unfold checkLiteral in E. destruct (r_rest r) as [|u rest]; [done|]. destruct (u =? c)%N; [|done]. simplify_eq. by constructor.
Qed.

Lemma read_tokens_bounded ts r r' : forallb plain ts = true → read_tokens toLowerCase defaults settings ts r = inl r' →
  bounded r → bounded r'.
Proof.
  revert r. induction ts as [|t ts IH]; intros r Hp E B; cbn in *; [by simplify_eq|].
  apply andb_true_iff in Hp as [Ht Hp]. destruct (read_token _ _ _ t r) as [r1|] eqn:E1; [|done].
  eapply IH; [done|done|]. by eapply read_token_bounded.
Qed.

(** The completed year. *)
Lemma full_year_good cut y t : thisYear now = Some t → 200 <= t <= 260000 → -1 <= y <= 9999 →
  ∃ y', full_year now cut (Some y) = Some y' ∧ good_year y'.
Proof.
  intros Et Ht Hy. unfold full_year, good_year. rewrite Et. cbn. destruct (Z.eqb_spec y (-1)); [exists t; split; [done|lia]|].
  destruct (Z.ltb_spec y 100); [|exists y; split; [done|lia]].
  rewrite Z.rem_mod_nonneg by lia. assert (0 <= t mod 100 < 100 ∧ 200 <= t - t mod 100) as [? ?] by divlia.
  eexists. split; [done|]. destruct cut as [c|]; [destruct (y <=? c)|]; lia.
Qed.

(** The day of a reading: the year when it is completed, and the month and day or the day of the year. *)
Definition names_day (cut : jnum) (r : reading) (n : Z) : Prop :=
  full_year now cut (r_year r) = Some (YearFromDay n)
  ∧ if r_doy r =? -1 then r_month r = Some (MonthFromDay n + 1) ∧ r_day r = Some (DateFromDay n) else r_doy r = day_of_year n.

(** The outcomes of a finished reading. *)
Lemma finish_bounded cut t r : thisYear now = Some t → 200 <= t <= 260000 → bounded r →
  finish_date now cut r = PThrow InvalidDate
  ∨ ∃ n, good_year (YearFromDay n) ∧ names_day cut r n ∧ finish_date now cut r = PDate (Some (midnight n)).
Proof.
  intros Et Ht [(y & Ey & Hy) (m & Em & Hm) (d & Ed & Hd) Hdoy].
  destruct (full_year_good cut y t Et Ht Hy) as (y' & Ey' & Hg). rewrite <- Ey in Ey'. unfold names_day.
  destruct (Z.eqb_spec (r_doy r) (-1)) as [E|].
  - rewrite (finish_fields now cut r y' m d) by done. destruct (decide _) as [Hv|]; [right|by left].
    destruct (day_of_fields _ _ _ Hv) as (E1 & E2 & E3).
    exists (MakeDay y' (m - 1) d). rewrite E1, E2, E3, Ey', Em, Ed. repeat split; try done; try apply Hg. f_equal. lia.
  - rewrite (finish_doy now cut r y') by (done || lia). destruct (decide _) as [Hv|]; [right|by left].
    exists (DayFromYear y' + r_doy r - 1). unfold day_of_year. rewrite (year_unique _ y') by (rewrite year_length; lia).
    repeat split; try done; try apply Hg. lia.
Qed.

End reading.

Definition start_reading (v : jstring) : reading :=
  {| r_pos := 0; r_rest := v; r_year := Some (-1); r_month := Some (-1); r_day := Some (-1); r_doy := -1 |}.

(** C12: for formats without the marks of times (@ and !), every text is answered: by null when it is empty, by
    an exception, or by the beginning of the day that the fields read from it name; never by an invalid date or
    another day, nor by a search for the day of the year that does not end. *)
Theorem every_text_answered `{ZoneLaws} toLowerCase defaults settings now t f v :
  thisYear now = Some t → 200 <= t <= 260000 → forallb plain (lex f) = true →
  (∀ b : bool, (length (names_of (if b then monthNames else monthNamesShort) settings defaults) <= 99)%nat) →
  let result := parseDate toLowerCase defaults now f (Some v) settings in
  (v = [] ∧ result = PNull) ∨ (∃ e, result = PThrow e)
  ∨ ∃ n r, good_year (YearFromDay n) ∧ read_tokens toLowerCase defaults settings (lex f) (start_reading v) = inl r
      ∧ names_day now (parse_cutoff defaults now settings) r n ∧ result = PDate (Some (midnight n)).
Proof.
  intros Et Ht Hp Hfew result. subst result. destruct v as [|u v]; [by left|right]. cbn [parseDate]. rewrite parse_go_lex. fold (lex f).
  fold (start_reading (u :: v)).
  destruct (read_tokens toLowerCase defaults settings (lex f) (start_reading (u :: v))) as [r|e] eqn:E; [|left; by eexists].
  assert (bounded r) as B.
  { eapply read_tokens_bounded; [exact Hfew|exact Hp|exact E|]. constructor; cbn; eauto with lia. }
  destruct (finish_bounded now (parse_cutoff defaults now settings) t r Et Ht B) as [->|(n & Hn & Hd & ->)].
  - left. destruct (r_rest r) as [|c l]; [by eexists|]. destruct (is_ws c); by eexists.
  - destruct (r_rest r) as [|c l]; [right; by exists n, r|]. destruct (is_ws c); [right; by exists n, r|left; by eexists].
Qed.

Example every_text_answered_witness :
  let zone := summer in let result := parseDate lower english 1451692800000 "mm/dd/yy"%js (Some "13/32/2016"%js) None in
  ("13/32/2016"%js = [] ∧ result = PNull) ∨ (∃ e, result = PThrow e)
  ∨ ∃ n r, good_year (YearFromDay n) ∧ read_tokens lower english None (lex "mm/dd/yy"%js) (start_reading "13/32/2016"%js) = inl r
      ∧ names_day 1451692800000 (parse_cutoff english 1451692800000 None) r n ∧ result = PDate (Some (midnight n)).
Proof.
  intros zone. apply (every_text_answered lower english None 1451692800000 2016 "mm/dd/yy"%js "13/32/2016"%js).
  - vm_compute. reflexivity.
  - lia.
  - vm_compute. reflexivity.
  - intros []; vm_compute; repeat constructor.
Defined.

(** Where the two halves disagree, and where the search for the day of the year does not end: a cutoff of 0 is
    taken for no cutoff, years before 1900 are written with a sign, a doubled mark of times is written twice and read
    once, and a time beyond the last date makes every month endless. *)
Example cutoff_zero_ignored : let zone := summer in
  let zero := {| shortYearCutoff := CutNum (Some 0); dayNamesShort := None; dayNames := None; monthNamesShort := None; monthNames := None |} in
  parseDate lower english 1451692800000 "d.m.y"%js (Some "1.1.20"%js) (Some zero) = PDate (Some (midnight (MakeDay 2020 0 1))).
Proof. vm_compute. reflexivity. Qed.

Example old_year_sign : let zone := summer in
  formatDate english "d.m.y"%js (Some (Some (midnight (MakeDay 1895 0 1)))) None = "1.1.0-5"%js.
Proof. vm_compute. reflexivity. Qed.

Example doubled_time : let zone := summer in
  formatDate english "@@"%js (Some (Some 5)) None = "55"%js
  ∧ parseDate lower english 1451692800000 "@@"%js (Some "55"%js) None = parseDate lower english 1451692800000 "@"%js (Some "55"%js) None.
Proof. vm_compute. split; reflexivity. Qed.

Example endless_ticks : let zone := summer in
  parseDate lower english 1451692800000 "!o"%js (Some "999999999999999999991"%js) None = PForever.
Proof. vm_compute. reflexivity. Qed.

(** A format of the day of the year or of ticks alone admits no digits to be typed. *)
Example digits_refused : (possibleChars "o"%js, possibleChars "!"%js, possibleChars "d"%js) = (Some "o"%js, Some "!"%js, Some "0123456789"%js).
Proof. vm_compute. reflexivity. Qed.
