(* ===== verification/DatePicker.v ===== *)
(** * The date picker: its instances

    The operations of plugins/jquery-ui/jquery-ui.js that keep the state of an instance of the date picker: the selected day, the month
    that is drawn, the current day and the text of the field; and the calendar of a field, with its months in the page and
    whether it shows, which clicks and keys change.  An operation is a function on instances or calendars; [None] is
    a call that does not return, because it throws or because [parseDate] does not end. *)

From S2P Require Import Prelude JsString JsNumber JsInt JsRegExp JsDate DateFormat.
#[local] Open Scope Z_scope.

(** ** State *)

(** A date among the settings: null, a text, a number of days from today, a date object. *)
Variant date_value := DvNull | DvStr (s : jstring) | DvNum (n : jnum) | DvDate (t : jnum).
Variant months_setting := MonthsNone | MonthsNum (n : Z) | MonthsGrid (rows cols : Z).

(** The settings, as [_get] finds them in the instance or the defaults. *)
Record picker_settings := {
  dateFormat : jstring; s_dates : date_config;
  minDate : date_value; maxDate : date_value; defaultDate : date_value;
  numberOfMonths : months_setting; showCurrentAtPos : Z; stepMonths : Z; stepBigMonths : Z;
  yearRange : jstring; gotoCurrent : bool; firstDay : jnum; constrainInput : bool;
  showOtherMonths : bool; selectOtherMonths : bool; isRTL : bool;
  onSelect : bool  (** whether the page has a handler, which is taken not to call the picker *) }.

(** An instance; [input] is the text of its field (of an instance that is drawn [inline], the property of its element),
    [currentDay] and the like are NaN while undefined.  [notified] are the arguments of the calls
    of [onChangeMonthYear]. *)
Record inst := {
  settings : picker_settings; input : option jstring; lastVal : option jstring;
  selectedDay : jnum; selectedMonth : jnum; selectedYear : jnum;
  drawMonth : jnum; drawYear : jnum;
  currentDay : jnum; currentMonth : jnum; currentYear : jnum;
  inline : bool; keyEvent : bool; notified : list (jnum * jnum) }.

Definition upd_selected (d m y : jnum) (i : inst) : inst :=
  {| settings := settings i; input := input i; lastVal := lastVal i; selectedDay := d; selectedMonth := m; selectedYear := y;
     drawMonth := drawMonth i; drawYear := drawYear i; currentDay := currentDay i; currentMonth := currentMonth i;
     currentYear := currentYear i; inline := inline i; keyEvent := keyEvent i; notified := notified i |}.
Definition upd_draw (m y : jnum) (i : inst) : inst :=
  {| settings := settings i; input := input i; lastVal := lastVal i; selectedDay := selectedDay i; selectedMonth := selectedMonth i;
     selectedYear := selectedYear i; drawMonth := m; drawYear := y; currentDay := currentDay i; currentMonth := currentMonth i;
     currentYear := currentYear i; inline := inline i; keyEvent := keyEvent i; notified := notified i |}.
Definition upd_current (d m y : jnum) (i : inst) : inst :=
  {| settings := settings i; input := input i; lastVal := lastVal i; selectedDay := selectedDay i; selectedMonth := selectedMonth i;
     selectedYear := selectedYear i; drawMonth := drawMonth i; drawYear := drawYear i; currentDay := d; currentMonth := m;
     currentYear := y; inline := inline i; keyEvent := keyEvent i; notified := notified i |}.
Definition upd_text (text last : option jstring) (i : inst) : inst :=
  {| settings := settings i; input := text; lastVal := last; selectedDay := selectedDay i; selectedMonth := selectedMonth i;
     selectedYear := selectedYear i; drawMonth := drawMonth i; drawYear := drawYear i; currentDay := currentDay i;
     currentMonth := currentMonth i; currentYear := currentYear i; inline := inline i; keyEvent := keyEvent i; notified := notified i |}.
Definition upd_events (key : bool) (l : list (jnum * jnum)) (i : inst) : inst :=
  {| settings := settings i; input := input i; lastVal := lastVal i; selectedDay := selectedDay i; selectedMonth := selectedMonth i;
     selectedYear := selectedYear i; drawMonth := drawMonth i; drawYear := drawYear i; currentDay := currentDay i;
     currentMonth := currentMonth i; currentYear := currentYear i; inline := inline i; keyEvent := key; notified := l |}.
Definition upd_settings (s : picker_settings) (i : inst) : inst :=
  {| settings := s; input := input i; lastVal := lastVal i; selectedDay := selectedDay i; selectedMonth := selectedMonth i;
     selectedYear := selectedYear i; drawMonth := drawMonth i; drawYear := drawYear i; currentDay := currentDay i;
     currentMonth := currentMonth i; currentYear := currentYear i; inline := inline i; keyEvent := keyEvent i; notified := notified i |}.

(** [_newInst]: all zero, the current day undefined. *)
Definition newInst (s : picker_settings) (text : option jstring) (in_page : bool) : inst :=
  {| settings := s; input := text; lastVal := None; selectedDay := Some 0; selectedMonth := Some 0; selectedYear := Some 0;
     drawMonth := Some 0; drawYear := Some 0; currentDay := None; currentMonth := None; currentYear := None;
     inline := in_page; keyEvent := false; notified := [] |}.

Definition jadd (a b : jnum) : jnum := jnum_map2 Z.add a b.
Definition jmin (a b : jnum) : jnum := jnum_map2 Z.min a b.
(** A number that is not 0 and not NaN. *)
Definition truthy (n : jnum) : bool := match n with Some z => negb (z =? 0) | None => false end.

Definition _getNumberOfMonths (i : inst) : Z * Z :=
  match numberOfMonths (settings i) with MonthsNone => (1, 1) | MonthsNum n => (1, n) | MonthsGrid r c => (r, c) end.

(** ** Relative dates *)

Definition is_unit (c : N) : bool := ((c =? 100) || (c =? 68) || (c =? 119) || (c =? 87) || (c =? 109) || (c =? 77) || (c =? 121) || (c =? 89))%N.

(** A match of [/([+\-]?[0-9]+)\s*(d|D|w|W|m|M|y|Y)?/] at the front: the number, the unit and what follows. *)
Definition offset_at (s : jstring) : option (jnum * option N * jstring) :=
  let t := snd (sign_of s) in
  let '(_, n, rest) := take_digits t 0 0 in
  if (n =? 0)%nat then None
  else
    let num := parseInt10 (take (length s - length rest) s) in
    let rest := trim_left rest in
    match rest with
    | c :: rest' => if is_unit c then Some (num, Some c, rest') else Some (num, None, rest)
    | [] => Some (num, None, [])
    end.

(** All matches, from left to right. *)
Fixpoint offsets (fuel : nat) (s : jstring) : list (jnum * option N) :=
  match fuel with
  | O => []
  | S fuel =>
      match offset_at s with
      | Some (num, unit, rest) => (num, unit) :: offsets fuel rest
      | None => match s with _ :: t => offsets fuel t | [] => [] end
      end
  end.

Section picker.
Context `{TimeZone}.
Variable toLowerCase : jstring → jstring.
Variable defaults : date_config.
Variable now : Z.

(** One offset, on the year, the month and the day. *)
Definition add_offset (p : jnum * jnum * jnum) (o : jnum * option N) : jnum * jnum * jnum :=
  let '(year, month, day) := p in
  let '(num, unit) := o in
  let u := default 100%N unit in
  if ((u =? 100) || (u =? 68))%N then (year, month, jadd day num)
  else if ((u =? 119) || (u =? 87))%N then (year, month, jadd day (n ← num; Some (n * 7)))
  else if ((u =? 109) || (u =? 77))%N then
    let month := jadd month num in (year, month, jmin day (getDaysInMonth year month))
  else let year := jadd year num in (year, month, jmin day (getDaysInMonth year month)).

Definition _getFormatConfig (i : inst) : date_config :=
  let c := s_dates (settings i) in
  {| shortYearCutoff := match shortYearCutoff c with
       | CutStr s => CutNum (cutoff_number (thisYear now) (CutStr s)) | n => n end;
     dayNamesShort := dayNamesShort c; dayNames := dayNames c; monthNamesShort := monthNamesShort c; monthNames := monthNames c |}.

(** [_getDate]: null while there is no current year, and for an empty field. *)
Definition _getDate (i : inst) : option jnum :=
  if negb (truthy (currentYear i)) || bool_decide (input i = Some []) then None
  else Some (daylightSavingAdjust (new_date (currentYear i) (currentMonth i) (currentDay i))).

(** [parseDate] of a text in the format of the instance. *)
Definition parse_in (i : inst) (text : option jstring) : parse_result :=
  parseDate toLowerCase defaults now (dateFormat (settings i)) text (Some (_getFormatConfig i)).

Definition relative_date (i : inst) (offset : jstring) : jnum :=
  let date := match toLowerCase offset with
              | c :: _ => if (c =? 99)%N then default (Some now) (_getDate i) else Some now
              | [] => Some now end in
  let '(year, month, day) := fold_left add_offset (offsets (length offset) offset) (getFullYear date, getMonth date, getDate date) in
  new_date year month day.

Definition offsetString (i : inst) (offset : jstring) : option (option jnum) :=
  match parse_in i (Some offset) with
  | PDate t => Some (Some t)
  | PNull => Some None
  | PThrow _ => Some (Some (relative_date i offset))
  | PForever => None
  end.
Definition offsetNumeric (n : Z) : jnum := setDate (jadd (getDate (Some now)) (Some n)) (Some now).

(** [_determineDate]: the dates are null or a date object. *)
Definition _determineDate (i : inst) (date : date_value) (defaultDate : option jnum) : option (option jnum) :=
  newDate ← match date with
            | DvNull => Some defaultDate
            | DvStr s => if bool_decide (s = []) then Some defaultDate else offsetString i s
            | DvNum None => Some defaultDate
            | DvNum (Some n) => Some (Some (offsetNumeric n))
            | DvDate t => Some (Some t)
            end;
  let newDate := match newDate with Some None => defaultDate | d => d end in
  Some ((λ t, daylightSavingAdjust (clear_time t)) <$> newDate).

(** [_getMinMaxDate] *)
Definition min_date (i : inst) : option (option jnum) := _determineDate i (minDate (settings i)) None.
Definition max_date (i : inst) : option (option jnum) := _determineDate i (maxDate (settings i)) None.

Definition below (lo : option jnum) (date : jnum) : bool := match lo with Some lo => jnum_lt date lo | None => false end.
Definition above (hi : option jnum) (date : jnum) : bool := match hi with Some hi => jnum_lt hi date | None => false end.
Definition limit_to (lo hi : option jnum) (date : jnum) : jnum :=
  let newDate := if below lo date then default date lo else date in
  if above hi newDate then default newDate hi else newDate.
Definition _restrictMinMax (i : inst) (date : jnum) : option jnum :=
  lo ← min_date i; hi ← max_date i; Some (limit_to lo hi date).

Definition _getDefaultDate (i : inst) : option jnum :=
  d ← _determineDate i (defaultDate (settings i)) (Some (Some now)); d ← d; _restrictMinMax i d.

(** ** Changes *)

Definition select_date_of (date : jnum) (i : inst) : inst :=
  upd_draw (getMonth date) (getFullYear date) (upd_selected (getDate date) (getMonth date) (getFullYear date) i).

Definition _notifyChange (i : inst) : inst :=
  upd_events (keyEvent i) (notified i ++ [(selectedYear i, jadd (selectedMonth i) (Some 1))]) i.

Variant period := PeriodDay | PeriodMonth | PeriodYear.
#[export] Instance period_eq_dec : EqDecision period.
Proof. solve_decision. Defined.
Definition step_of (p : period) (move : option (jnum * period)) : jnum :=
  match move with Some (n, q) => if decide (p = q) then n else Some 0 | None => Some 0 end.

(** [_adjustInstDate(inst, offset, period)], or without them. *)
Definition _adjustInstDate (move : option (jnum * period)) (i : inst) : option inst :=
  let year := jadd (drawYear i) (step_of PeriodYear move) in
  let month := jadd (drawMonth i) (step_of PeriodMonth move) in
  let day := jadd (jmin (selectedDay i) (getDaysInMonth year month)) (step_of PeriodDay move) in
  date ← _restrictMinMax i (daylightSavingAdjust (new_date year month day));
  let i := select_date_of date i in
  Some (match move with Some (_, PeriodMonth) | Some (_, PeriodYear) => _notifyChange i | _ => i end).

(** [_setDateFromField]: the text of the field is read again when it changed. *)
Definition _setDateFromField (noDefault : bool) (i : inst) : option inst :=
  text ← input i;
  if bool_decide (lastVal i = Some text) then Some i
  else
    let i := upd_text (input i) (Some text) i in
    default_date ← _getDefaultDate i;
    p ← match parse_in i (Some text) with
        | PDate t => Some (t, text)
        | PNull => Some (default_date, text)
        | PThrow _ => Some (default_date, if noDefault then [] else text)
        | PForever => None
        end;
    let '(date, dates) := p : jnum * jstring in
    let some_text := negb (bool_decide (dates = [])) in
    let keep (n : jnum) := if some_text then n else Some 0 in
    _adjustInstDate None (upd_current (keep (getDate date)) (keep (getMonth date)) (keep (getFullYear date)) (select_date_of date i)).

(** [_formatDate(inst)]: the selected day becomes the current one. *)
Definition _formatDate_selected (i : inst) : inst * jstring :=
  let i := upd_current (selectedDay i) (selectedMonth i) (selectedYear i) i in
  (i, formatDate defaults (dateFormat (settings i))
        (Some (daylightSavingAdjust (new_date (currentYear i) (currentMonth i) (currentDay i)))) (Some (_getFormatConfig i))).
(** [_formatDate(inst, day, month, year)] with a day: 0 and NaN count as none. *)
Definition _formatDate (i : inst) (day month year : jnum) : inst * jstring :=
  if truthy day then
    (i, formatDate defaults (dateFormat (settings i)) (Some (daylightSavingAdjust (new_date year month day))) (Some (_getFormatConfig i)))
  else _formatDate_selected i.

Definition clears (date : date_value) : bool :=
  match date with DvNull => true | DvStr s => bool_decide (s = []) | DvNum n => negb (truthy n) | DvDate _ => false end.

(** [_setDate] *)
Definition _setDate (date : date_value) (noChange : bool) (i : inst) : option inst :=
  let origMonth := selectedMonth i in
  let origYear := selectedYear i in
  d ← _determineDate i date (Some (Some now)); d ← d;
  newDate ← _restrictMinMax i d;
  let i := upd_current (getDate newDate) (getMonth newDate) (getFullYear newDate) (select_date_of newDate i) in
  let i := if (negb (jnum_eq origMonth (selectedMonth i)) || negb (jnum_eq origYear (selectedYear i))) && negb noChange
           then _notifyChange i else i in
  i ← _adjustInstDate None i;
  match input i with
  | Some _ =>
      if clears date then Some (upd_text (Some []) (lastVal i) i)
      else let '(i, text) := _formatDate_selected i in Some (upd_text (Some text) (lastVal i) i)
  | None => Some i
  end.

(** [_getDateDatepicker]: the field is read first. *)
Definition _getDateDatepicker (noDefault : bool) (i : inst) : option (inst * option jnum) :=
  i ← if inline i then Some i else _setDateFromField noDefault i;
  Some (i, _getDate i).

(** ** Paging *)

Definition month_distance (y m y' m' : Z) : nat := Z.to_nat (Z.abs (12 * y + m) + Z.abs (12 * y' + m') + 2).
(** Back to the last month that is shown; [None]: without end. *)
Fixpoint limit_draw (fuel : nat) (maxDraw : jnum) (year month : Z) : option (Z * Z) :=
  match fuel with
  | O => None
  | S fuel =>
      if jnum_lt maxDraw (daylightSavingAdjust (new_date (Some year) (Some month) (Some 1))) then
        if month - 1 <? 0 then limit_draw fuel maxDraw (year - 1) 11 else limit_draw fuel maxDraw year (month - 1)
      else Some (year, month)
  end.

(** The month that is drawn first. *)
Definition draw_start (i : inst) : option (jnum * jnum) :=
  lo ← min_date i; hi ← max_date i;
  let numMonths := _getNumberOfMonths i in
  let month := jadd (drawMonth i) (Some (- showCurrentAtPos (settings i))) in
  let '(year, month) := if jnum_lt month (Some 0) then (jadd (drawYear i) (Some (-1)), jadd month (Some 12)) else (drawYear i, month) in
  match hi, year, month with
  | Some hi, Some y, Some m =>
      let maxDraw := daylightSavingAdjust (new_date (getFullYear hi)
        (k ← getMonth hi; Some (k - numMonths.1 * numMonths.2 + 1)) (getDate hi)) in
      let maxDraw := if below lo maxDraw then default maxDraw lo else maxDraw in
      p ← limit_draw (match getFullYear maxDraw, getMonth maxDraw with
                      | Some y', Some m' => month_distance y m y' m' | _, _ => 1%nat end) maxDraw y m;
      Some (Some p.1, Some p.2)
  | _, _, _ => Some (year, month)
  end.

(** [_isInRange] with the numbers of the year range; a range without a colon is an exception. *)
Definition has_sign (s : jstring) : bool := existsb (λ c, (c =? 43) || (c =? 45))%N s.
Definition range_year (s : jstring) : jnum :=
  if has_sign s then jadd (parseInt10 s) (thisYear now) else parseInt10 s.
Definition _isInRange (i : inst) (date : jnum) : option bool :=
  lo ← min_date i; hi ← max_date i;
  years ← (if bool_decide (yearRange (settings i) = []) then Some (None, None)
           else match split ":"%js (yearRange (settings i)) with
                | a :: b :: _ => Some (range_year a, range_year b) | _ => None end);
  Some (match lo with Some lo => match date, lo with Some d, Some lo => lo <=? d | _, _ => false end | None => true end
        && match hi with Some hi => match date, hi with Some d, Some hi => d <=? hi | _, _ => false end | None => true end
        && (negb (truthy years.1) || match getFullYear date, years.1 with Some y, Some l => l <=? y | _, _ => false end)
        && (negb (truthy years.2) || match getFullYear date, years.2 with Some y, Some l => y <=? l | _, _ => false end)).

Definition _canAdjustMonth (i : inst) (offset : Z) (curYear curMonth : jnum) : option bool :=
  let numMonths := _getNumberOfMonths i in
  let date := daylightSavingAdjust (new_date curYear
    (jadd curMonth (Some (if offset <? 0 then offset else numMonths.1 * numMonths.2))) (Some 1)) in
  _isInRange i (if offset <? 0 then setDate (getDaysInMonth (getFullYear date) (getMonth date)) date else date).

(** ** Drawing *)

(** What a cell of the calendar shows and does. *)
Record cell := {
  c_date : jnum;             (** the date that is printed *)
  c_other : bool;            (** of another month than the one drawn *)
  c_unselectable : bool;
  c_shown : bool;            (** with the number of the day *)
  c_weekend : bool; c_today : bool; c_current : bool; c_over : bool }.

(** The next date that is printed. *)
Definition next_date (date : jnum) : jnum := daylightSavingAdjust (setDate (jadd (getDate date) (Some 1)) date).

(** [beforeShowDay]: whether a date can be selected. *)
Variable beforeShowDay : jnum → bool.

Definition draw_cell (i : inst) (lo hi defaultDate : option jnum) (selectedDate : jnum) (drawMonth : Z) (dow : Z) (printDate : jnum) : cell :=
  let s := settings i in
  let today := daylightSavingAdjust (new_date (getFullYear (Some now)) (getMonth (Some now)) (getDate (Some now))) in
  let currentDate := daylightSavingAdjust (if truthy (currentDay i) then new_date (currentYear i) (currentMonth i) (currentDay i)
                                           else new_date (Some 9999) (Some 9) (Some 9)) in
  let otherMonth := negb (jnum_eq (getMonth printDate) (Some drawMonth)) in
  let first := default 0 (firstDay s) in
  {| c_date := printDate; c_other := otherMonth;
     c_unselectable := otherMonth && negb (selectOtherMonths s) || negb (beforeShowDay printDate)
       || below lo printDate || above hi printDate;
     c_shown := negb otherMonth || showOtherMonths s;
     c_weekend := 5 <=? Z.rem (dow + first + 6) 7;
     c_today := jnum_eq printDate today;
     c_current := jnum_eq printDate currentDate;
     c_over := jnum_eq printDate selectedDate && jnum_eq (Some drawMonth) (selectedMonth i) && keyEvent i
       || match defaultDate with Some d => jnum_eq d printDate && jnum_eq d selectedDate | None => false end |}.

(** A row of cells, and the date after it; [n] days are left of the week. *)
Fixpoint draw_row (mk : Z → jnum → cell) (n : nat) (printDate : jnum) : list cell * jnum :=
  match n with
  | O => ([], printDate)
  | S n => let '(cs, date) := draw_row mk n (next_date printDate) in (mk (6 - Z.of_nat n) printDate :: cs, date)
  end.
Fixpoint draw_rows (mk : Z → jnum → cell) (rows : nat) (printDate : jnum) : list (list cell) :=
  match rows with
  | O => []
  | S rows => let '(cs, date) := draw_row mk 7 printDate in cs :: draw_rows mk rows date
  end.

(** [_getFirstDayOfMonth] *)
Definition _getFirstDayOfMonth (year month : jnum) : jnum := getDay (new_date year month (Some 1)).

(** The days before the first of the month that are drawn, and the rows. *)
Definition lead_days (i : inst) (year month : Z) : jnum :=
  d ← _getFirstDayOfMonth (Some year) (Some month); Some (Z.rem (d - default 0 (firstDay (settings i)) + 7) 7).
Definition row_count (lead days : Z) : Z := - ((- (lead + days)) / 7).

Definition isMultiMonth (i : inst) : bool := let n := _getNumberOfMonths i in negb (n.1 =? 1) || negb (n.2 =? 1).

(** One month: the selected day is not beyond its end; [None]: beyond the range of dates.  [maxRows] is the number of
    rows of the months to its left. *)
Definition draw_month (i : inst) (lo hi defaultDate : option jnum) (maxRows : Z) (year month : Z) : option (inst * Z * list (list cell)) :=
  let selectedDate := daylightSavingAdjust (new_date (Some year) (Some month) (selectedDay i)) in
  days ← getDaysInMonth (Some year) (Some month);
  lead ← lead_days i year month;
  let i' := if jnum_eq (Some year) (selectedYear i) && jnum_eq (Some month) (selectedMonth i)
            then upd_selected (jmin (selectedDay i) (Some days)) (selectedMonth i) (selectedYear i) i else i in
  let curRows := row_count lead days in
  let numRows := if isMultiMonth i then Z.max maxRows curRows else curRows in
  let printDate := daylightSavingAdjust (new_date (Some year) (Some month) (Some (1 - lead))) in
  Some (i', numRows, draw_rows (draw_cell i' lo hi defaultDate selectedDate month) (Z.to_nat numRows) printDate).

(** The months after the first, [cols] in a row. *)
Fixpoint draw_months (n : nat) (cols col : nat) (i : inst) (lo hi defaultDate : option jnum) (maxRows : Z) (year month : Z)
    : option (inst * list (Z * Z * list (list cell))) :=
  match n with
  | O => Some (i, [])
  | S n =>
      let maxRows := if (col =? 0)%nat then 4 else maxRows in
      m ← draw_month i lo hi defaultDate maxRows year month;
      let '(i, maxRows, rows) := m : inst * Z * list (list cell) in
      let col := if (S col =? cols)%nat then O else S col in
      let '(year', month') := if 11 <? month + 1 then (year + 1, 0) else (year, month + 1) in
      r ← draw_months n cols col i lo hi defaultDate maxRows year' month';
      let '(i, l) := r : inst * list (Z * Z * list (list cell)) in
      Some (i, (year, month, rows) :: l)
  end.

(** [_updateDatepicker]: the months, and the instance with the month that is drawn first. *)
Definition _updateDatepicker (i : inst) : option (inst * list (Z * Z * list (list cell))) :=
  start ← draw_start i;
  let '(year, month) := start : jnum * jnum in
  let i := upd_draw month year i in
  defaultDate ← _getDefaultDate i;
  lo ← min_date i; hi ← max_date i; y ← year; m ← month;
  let n := _getNumberOfMonths i in
  r ← draw_months (Z.to_nat (n.1 * n.2)) (Z.to_nat n.2) 0 i lo hi (Some defaultDate) 4 y m;
  let '(i, l) := r : inst * list (Z * Z * list (list cell)) in
  Some (upd_events false (notified i) i, l).

(** ** What the user does *)

(** An instance with its calendar: the months in the page as they were drawn last, and whether they show
    ([_datepickerShowing]; [_lastInput] is the field exactly while they do). *)
Record calendar := { cal_inst : inst; cal_months : list (Z * Z * list (list cell)); cal_showing : bool }.
Definition with_inst (i : inst) (c : calendar) : calendar :=
  {| cal_inst := i; cal_months := cal_months c; cal_showing := cal_showing c |}.
Definition set_showing (b : bool) (c : calendar) : calendar :=
  {| cal_inst := cal_inst c; cal_months := cal_months c; cal_showing := b |}.
(** The cells in the page, in their order. *)
Definition cells (c : calendar) : list cell := concat (concat (snd <$> cal_months c)).

Definition redraw (c : calendar) : option calendar :=
  '(i, months) ← _updateDatepicker (cal_inst c);
  Some {| cal_inst := i; cal_months := months; cal_showing := cal_showing c |}.
Definition _hideDatepicker (c : calendar) : calendar := set_showing false c.

(** [_selectDate]: the text goes to the field; an inline calendar is drawn again, any other is hidden. *)
Definition _selectDate (text : jstring) (c : calendar) : option calendar :=
  let i := cal_inst c in
  let c := with_inst (match input i with Some _ => upd_text (Some text) (lastVal i) i | None => i end) c in
  if inline i then redraw c else Some (_hideDatepicker c).
Definition _clearDate (c : calendar) : option calendar := _selectDate [] c.

(** [_selectDay] on a cell: the day is the text of its link, which counts as a number; the cell of a day that is not shown
    has none, and the day is undefined. *)
Definition _selectDay (disabled : bool) (month year : jnum) (td : cell) (c : calendar) : option calendar :=
  if c_unselectable td || disabled then Some c
  else
    let day := if c_shown td then getDate (c_date td) else None in
    let i := upd_current day month year (upd_selected day month year (cal_inst c)) in
    let '(i, text) := _formatDate i (currentDay i) (currentMonth i) (currentYear i) in
    _selectDate text (with_inst i c).

(** [_adjustDate]: a step from the month that is drawn; the position of the drawn month is undone. *)
Definition _adjustDate (disabled : bool) (move : option (Z * period)) (c : calendar) : option calendar :=
  if disabled then Some c
  else
    i ← _adjustInstDate (match move with
           | Some (n, PeriodMonth) => Some (Some (n + showCurrentAtPos (settings (cal_inst c))), PeriodMonth)
           | Some (n, p) => Some (Some n, p)
           | None => None end) (cal_inst c);
    redraw (with_inst i c).

Definition _gotoToday (disabled : bool) (c : calendar) : option calendar :=
  let i := cal_inst c in
  let i := if gotoCurrent (settings i) && truthy (currentDay i)
           then upd_draw (currentMonth i) (currentYear i) (upd_selected (currentDay i) (currentMonth i) (currentYear i) i)
           else select_date_of (Some now) i in
  _adjustDate disabled None (with_inst (_notifyChange i) c).

(** The value [n] was chosen in the list of months or of years. *)
Definition _selectMonthYear (disabled : bool) (p : period) (n : jnum) (c : calendar) : option calendar :=
  let i := cal_inst c in
  let i := if decide (p = PeriodMonth)
           then upd_draw n (drawYear i) (upd_selected (selectedDay i) n (selectedYear i) i)
           else upd_draw (drawMonth i) n (upd_selected (selectedDay i) (selectedMonth i) n i) in
  _adjustDate disabled None (with_inst (_notifyChange i) c).

(** A click on a cell: the handler passes the month and the year of its date. *)
Definition click_cell (disabled : bool) (td : cell) (c : calendar) : option calendar :=
  _selectDay disabled (getMonth (c_date td)) (getFullYear (c_date td)) td c.

(** [beforeShow] of the page: [None] when it returns false, else what it changes of the settings. *)
Variable beforeShow : inst → option (picker_settings → picker_settings).

(** [_showDatepicker]: nothing while it shows already; the field is read again. *)
Definition _showDatepicker (disabled : bool) (c : calendar) : option calendar :=
  if disabled || cal_showing c then Some c
  else match beforeShow (cal_inst c) with
       | None => Some c
       | Some extend =>
           let i := upd_settings (extend (settings (cal_inst c))) (cal_inst c) in
           i ← _setDateFromField false (upd_text (input i) None i);
           c ← redraw (with_inst i c);
           Some (if inline i then c else set_showing true c)
       end.

(** ** Keys *)

Record key := { k_code : Z; k_ctrl : bool; k_meta : bool; k_alt : bool }.
Definition k_cmd (k : key) : bool := k_ctrl k || k_meta k.

(** The steps of the keys: page up and down, and the arrows with their modifiers. *)
Definition key_moves (s : picker_settings) (k : key) : list (Z * period) :=
  let big := if k_ctrl k then stepBigMonths s else stepMonths s in
  let cmd (n : Z) := if k_cmd k then [(n, PeriodDay)] else [] in
  if k_code k =? 33 then [(- big, PeriodMonth)]
  else if k_code k =? 34 then [(big, PeriodMonth)]
  else if k_code k =? 37 then cmd (if isRTL s then 1 else -1) ++ if k_alt k then [(- big, PeriodMonth)] else []
  else if k_code k =? 38 then cmd (-7)
  else if k_code k =? 39 then cmd (if isRTL s then -1 else 1) ++ if k_alt k then [(big, PeriodMonth)] else []
  else if k_code k =? 40 then cmd 7
  else [].
Definition make_moves (disabled : bool) (moves : list (Z * period)) (c : calendar) : option calendar :=
  foldr (λ mv r, λ c, c ← _adjustDate disabled (Some mv) c; r c) Some moves c.

(** The return key: the first marked day that is not the current one is selected; then the calendar is hidden, or
    the handler of the page is called with the text of the selected day. *)
Definition press_return (disabled : bool) (c : calendar) : option calendar :=
  let i := cal_inst c in
  c ← match find (λ td, c_over td && negb (c_current td && c_shown td)) (cells c) with
      | Some td => _selectDay disabled (selectedMonth i) (selectedYear i) td c
      | None => Some c end;
  Some (if onSelect (settings (cal_inst c)) then with_inst (fst (_formatDate_selected (cal_inst c))) c else _hideDatepicker c).

(** [_doKeyDown]: the calendar, and whether the event is stopped and its default action prevented. *)
Definition press_key (disabled : bool) (k : key) (c : calendar) : option (calendar * bool) :=
  let c := with_inst (upd_events true (notified (cal_inst c)) (cal_inst c)) c in
  let code := k_code k in
  if cal_showing c then
    if code =? 9 then Some (_hideDatepicker c, false)
    else if code =? 13 then c ← press_return disabled c; Some (c, true)
    else if code =? 27 then Some (_hideDatepicker c, true)
    else if code =? 35 then c ← (if k_cmd k then _clearDate c else Some c); Some (c, k_cmd k)
    else if code =? 36 then c ← (if k_cmd k then _gotoToday disabled c else Some c); Some (c, k_cmd k)
    else
      c ← make_moves disabled (key_moves (settings (cal_inst c)) k) c;
      Some (c, (code =? 33) || (code =? 34) || (37 <=? code) && (code <=? 40) && k_cmd k)
  else if (code =? 36) && k_ctrl k then c ← _showDatepicker disabled c; Some (c, true)
  else Some (c, false).

(** [_doKeyPress]: whether a character may be typed. *)
Definition may_type (i : inst) (ctrl_or_meta : bool) (c : N) : bool :=
  negb (constrainInput (settings i)) || ctrl_or_meta || (c <? 32)%N
  || match possibleChars (dateFormat (settings i)) with
     | None | Some [] => true | Some chars => existsb (N.eqb c) chars end.

(** [_doKeyUp]: a text that can be read is taken over. *)
Definition _doKeyUp (c : calendar) : option calendar :=
  let i := cal_inst c in
  text ← input i;
  if bool_decide (lastVal i = Some text) then Some c
  else match parse_in i (Some text) with
       | PDate _ => i ← _setDateFromField false i; redraw (with_inst i c)
       | PForever => None
       | _ => Some c
       end.

End picker.
