(* ===== verification/DatePickerTheorems.v ===== *)
(** * The date picker keeps its days

    The selected day of an instance is a day of the calendar inside the limits of the settings, whatever
    steps are taken; the keys lead to the days they should, from the opening of the calendar to its closing; the calendar
    shows every day of its month once, on its day of the week; a day that is set or clicked is the one that
    is read back from the field. *)

From S2P Require Import Prelude JsString JsNumber JsRegExp JsDate DateFormat DateFormatTheorems DatePicker.
#[local] Open Scope Z_scope.

(** ** Limits *)

(** A limit of the settings that is a given day, or none. *)
Definition at_midnight `{TimeZone} (n : Z) : jnum := Some (midnight n).
Inductive fixed_limit `{TimeZone} : date_value → option Z → Prop :=
  | no_limit : fixed_limit DvNull None
  | day_limit a : good_year (YearFromDay a) → fixed_limit (DvDate (at_midnight a)) (Some a).

Definition clamp (lo hi : option Z) (n : Z) : Z :=
  let n := match lo with Some a => Z.max a n | None => n end in match hi with Some b => Z.min b n | None => n end.
Definition within (lo hi : option Z) (n : Z) : Prop :=
  match lo with Some a => a <= n | None => True end ∧ match hi with Some b => n <= b | None => True end.

Lemma clamp_within lo hi n : within lo hi n → clamp lo hi n = n.
Proof. unfold within, clamp. destruct lo, hi; lia. Qed.


Section days.
Context `{ZoneLaws}.
Variable toLowerCase : jstring → jstring.
Variable defaults : date_config.
Variable now : Z.
#[local] Abbreviation min_date := (min_date toLowerCase defaults now).
#[local] Abbreviation max_date := (max_date toLowerCase defaults now).
#[local] Abbreviation _restrictMinMax := (_restrictMinMax toLowerCase defaults now).
#[local] Abbreviation _adjustInstDate := (_adjustInstDate toLowerCase defaults now).

Lemma good_day_in_range n : good_year (YearFromDay n) → day_in_range n.
Proof.
  intros Hn. destruct (fields_of_day n) as [[Hm Hd] E]. rewrite <- E. apply good_day; [done|lia|].
  pose proof (month_days_pos (leap (YearFromDay n)) (MonthFromDay n)). unfold days_in_month in Hd. lia.
Qed.

(** Setting a part of the time to 0 early in a day leaves the date early in the day. *)
Lemma set_part_early unit size n k : day_in_range n → 0 <= k <= 9 → (msPerHour mod (unit * size) = 0) → 0 < unit → 0 < size →
  ∃ k', k <= k' <= k + 3 ∧ set_part unit size (Some (UTC (n * msPerDay + k * msPerHour))) = Some (UTC (n * msPerDay + k' * msPerHour)).
Proof.
  intros Hn Hk Hdiv Hu Hs. destruct (local_early n (k * msPerHour)) as (g & Hg & L & _); [unfold msPerHour; lia|].
  pose proof (zone_hours (n * 24 + k)) as Hh. rewrite <- hours_of_day, L in Hh.
  set (k' := k + g / msPerHour). assert (k * msPerHour + g = k' * msPerHour) as E.
  { unfold k'. replace (n * msPerDay + (k * msPerHour + g)) with (g + (n * 24 + k) * msPerHour) in Hh by (unfold msPerDay, msPerHour; lia).
    rewrite Z_mod_plus_full in Hh. unfold msPerHour in *. divlia. }
  exists k'. split; [unfold msPerHour in *; lia|]. unfold set_part. cbn [mbind option_bind]. rewrite L, E, hours_of_day.
  apply Z.mod_divide in Hdiv as [c Hc]; [|lia].
  replace (((n * 24 + k') * msPerHour / unit) mod size) with 0.
  2:{ rewrite Hc. replace ((n * 24 + k') * (c * (unit * size))) with ((n * 24 + k') * c * size * unit) by lia.
      rewrite Z.div_mul, Z_mod_mult by lia. done. }
  rewrite Z.mul_0_l, Z.sub_0_r, <- hours_of_day. apply TimeClip_early; [done|]. unfold msPerHour in *. lia.
Qed.

Lemma clear_midnight n : day_in_range n → daylightSavingAdjust (clear_time (at_midnight n)) = at_midnight n.
Proof.
  intros Hn. unfold clear_time, at_midnight. destruct (midnight_hours n) as (k & Hk & E).
  assert (setHours (Some 0) (Some (midnight n)) = Some (UTC (n * msPerDay + 0 * msPerHour))) as ->.
  { unfold setHours. cbn [mbind option_bind]. rewrite E.
    replace (Day (n * msPerDay + k * msPerHour)) with n by (unfold Day, msPerDay, msPerHour; divlia).
    replace ((n * msPerDay + k * msPerHour) mod msPerHour) with 0 by (rewrite hours_of_day, Z_mod_mult; done).
    rewrite Z.add_0_r. apply TimeClip_early; [done|unfold msPerHour; lia]. }
  destruct (set_part_early 60000 60 n 0) as (k1 & H1 & ->); [done|lia|done..|].
  destruct (set_part_early 1000 60 n k1) as (k2 & H2 & ->); [done|lia|done..|].
  destruct (set_part_early 1 1000 n k2) as (k3 & H3 & ->); [done|lia|done..|].
  apply adjust_early; [done|lia].
Qed.

(** ** The selected day *)

Lemma fixed_limit_date i v lo : fixed_limit v lo → _determineDate toLowerCase defaults now i v None = Some (at_midnight <$> lo).
Proof.
  intros [|a Ha]; [done|]. unfold _determineDate. cbn -[clear_time]. by rewrite clear_midnight by (by apply good_day_in_range).
Qed.

(** The settings of an instance have these limits. *)
Record limits (s : picker_settings) (lo hi : option Z) : Prop := {
  l_min : fixed_limit (minDate s) lo; l_max : fixed_limit (maxDate s) hi }.

Lemma below_midnight lo n : below (at_midnight <$> lo) (at_midnight n) = match lo with Some a => n <? a | None => false end.
Proof.
  destruct lo as [a|]; [|done]. cbn. pose proof (midnight_lt n a). destruct (Z.ltb_spec (midnight n) (midnight a)), (Z.ltb_spec n a); lia || done.
Qed.
Lemma above_midnight hi n : above (at_midnight <$> hi) (at_midnight n) = match hi with Some b => b <? n | None => false end.
Proof.
  destruct hi as [b|]; [|done]. cbn. pose proof (midnight_lt b n). destruct (Z.ltb_spec (midnight b) (midnight n)), (Z.ltb_spec b n); lia || done.
Qed.

Lemma limit_midnight lo hi n : limit_to (at_midnight <$> lo) (at_midnight <$> hi) (at_midnight n) = at_midnight (clamp lo hi n).
Proof.
  unfold limit_to, clamp. rewrite below_midnight.
  set (n1 := match lo with Some a => Z.max a n | None => n end).
  assert ((if match lo with Some a => n <? a | None => false end then default (at_midnight n) (at_midnight <$> lo) else at_midnight n) = at_midnight n1) as ->.
  { unfold n1. destruct lo as [a|]; [|done]. cbn. destruct (Z.ltb_spec n a); [rewrite Z.max_l by lia|rewrite Z.max_r by lia]; done. }
  rewrite above_midnight. destruct hi as [b|]; [|done]. cbn. destruct (Z.ltb_spec b n1); [rewrite Z.min_l by lia|rewrite Z.min_r by lia]; done.
Qed.

Lemma restrict_midnight i lo hi n : limits (settings i) lo hi → _restrictMinMax i (at_midnight n) = Some (at_midnight (clamp lo hi n)).
Proof.
  intros [Hlo Hhi]. unfold DatePicker._restrictMinMax, DatePicker.min_date, DatePicker.max_date.
  rewrite (fixed_limit_date i _ lo Hlo), (fixed_limit_date i _ hi Hhi). cbn [mbind option_bind]. rewrite limit_midnight. reflexivity.
Qed.

(** The selected day is [n], in the month that is drawn. *)
Record on_day (n : Z) (i : inst) : Prop := {
  o_day : selectedDay i = Some (DateFromDay n); o_month : selectedMonth i = Some (MonthFromDay n);
  o_year : selectedYear i = Some (YearFromDay n);
  o_draw_month : drawMonth i = Some (MonthFromDay n); o_draw_year : drawYear i = Some (YearFromDay n) }.

(** Everything but the selected day and the calls. *)
Record keeps (i i' : inst) : Prop := {
  kp_settings : settings i' = settings i; kp_inline : inline i' = inline i; kp_input : input i' = input i; kp_last : lastVal i' = lastVal i;
  kp_day : currentDay i' = currentDay i; kp_month : currentMonth i' = currentMonth i; kp_year : currentYear i' = currentYear i }.
#[export] Instance keeps_preorder : PreOrder keeps.
Proof using. split; [by constructor|]. intros a b c [] []. constructor; congruence. Qed.

Lemma select_on_day n i : on_day n (select_date_of (at_midnight n) i).
Proof.
  unfold select_date_of, at_midnight. rewrite getDate_midnight, getMonth_midnight, getFullYear_midnight. by constructor.
Qed.
Lemma select_keeps t i : keeps i (select_date_of t i).
Proof using. by constructor. Qed.
Lemma notify_on_day n i : on_day n i → on_day n (_notifyChange i).
Proof using. intros []. by constructor. Qed.


(** Without a step the selected day is only brought inside the limits. *)
Lemma adjust_none i lo hi n : limits (settings i) lo hi → on_day n i → good_year (YearFromDay n) →
  ∃ i', _adjustInstDate None i = Some i' ∧ on_day (clamp lo hi n) i' ∧ keeps i i' ∧ notified i' = notified i.
Proof.
  intros Hl [O1 O2 O3 O4 O5] Hy. destruct (fields_of_day n) as [[Hm Hd] En].
  unfold DatePicker._adjustInstDate. rewrite O1, O4, O5. cbn [step_of jadd jnum_map2 mbind option_bind]. rewrite !Z.add_0_r.
  rewrite getDaysInMonth_good by (done || lia). cbn [jmin jadd jnum_map2 mbind option_bind].
  rewrite (Z.div_small (MonthFromDay n)), (Z.mod_small (MonthFromDay n)), !Z.add_0_r by lia. rewrite Z.min_l by lia. rewrite ?Z.add_0_r.
  pose proof (month_days_pos (leap (YearFromDay n)) (MonthFromDay n)) as Hp. unfold days_in_month in Hd.
  rewrite adjust_new_date by (done || lia). rewrite En. fold (at_midnight n).
  rewrite (restrict_midnight i lo hi n Hl). cbn [mbind option_bind].
  eexists. split; [done|]. split; [apply select_on_day|]. split; [apply select_keeps|done].
Qed.

(** ** The calendar of a month *)


Lemma month_start_leap m : 0 <= m < 12 → ∀ l l', Z.abs (month_start l m - month_start l' m) <= 1.
Proof using. intros Hm l l'. destruct l, l'; by_month m; vm_compute; discriminate. Qed.

(** Near a month, its days are those whose month it is. *)
Lemma same_month y m n : 0 <= m < 12 → MakeDay y m 1 - 7 <= n <= MakeDay y m 1 + days_in_month y m + 6 →
  MonthFromDay n = m ↔ MakeDay y m 1 <= n < MakeDay y m 1 + days_in_month y m.
Proof using.
  clear. intros Hm Hn. split.
  - intros E. destruct (fields_of_day n) as [[_ Hd] En]. rewrite E in En, Hd. unfold days_in_month in *.
    rewrite MakeDay_in_year in * by done.
    pose proof (month_start_leap m Hm (leap y) (leap (YearFromDay n))) as Hs.
    pose proof (month_days_pos (leap (YearFromDay n)) m). pose proof (month_days_pos (leap y) m).
    destruct (Z.lt_trichotomy (YearFromDay n) y) as [Hlt|[Ey|Hlt]].
    + pose proof (year_le (YearFromDay n) y). lia.
    + rewrite Ey in *. lia.
    + pose proof (year_le y (YearFromDay n)). lia.
  - intros Hin. assert (n = MakeDay y m (1 + (n - MakeDay y m 1))) as E by (rewrite MakeDay_shift; lia).
    rewrite E. apply day_of_fields. split; [done|lia].
Qed.

Lemma next_midnight n : day_in_range (n + 1) → next_date (at_midnight n) = at_midnight (n + 1).
Proof.
  intros Hn. unfold next_date, at_midnight. rewrite getDate_midnight. cbn [jadd jnum_map2 mbind option_bind]. by apply adjust_setDate.
Qed.

Lemma seq_cons k : seq 0 (S k) = O :: (S <$> seq 0 k).
Proof using. cbn. by rewrite <- fmap_S_seq. Qed.

(** A row has seven days, one after the other. *)
Lemma draw_row_spec mk k n : (k <= 7)%nat → day_in_range n → day_in_range (n + 7) →
  draw_row mk k (at_midnight n) =
    ((λ j, mk (7 - Z.of_nat k + Z.of_nat j) (at_midnight (n + Z.of_nat j))) <$> seq 0 k, at_midnight (n + Z.of_nat k)).
Proof.
  intros Hk Hn Hn'. assert (day_in_range (n + Z.of_nat k)) as Hnk by (unfold day_in_range in *; lia). clear Hn'.
  revert n Hn Hnk. induction k as [|k IH]; intros n Hn Hnk; [by rewrite Z.add_0_r|].
  cbn [draw_row]. rewrite next_midnight by (unfold day_in_range in *; lia).
  rewrite IH by (unfold day_in_range in *; lia). rewrite seq_cons, fmap_cons, <- list_fmap_compose. f_equal; [f_equal|].
  - f_equal; [lia|]. f_equal. lia.
  - apply list_fmap_ext. intros ? j _. cbn. f_equal; [lia|]. f_equal. lia.
  - f_equal. lia.
Qed.

Definition day_rows (mk : Z → jnum → cell) (rows : nat) (n : Z) : list (list cell) :=
  (λ r, (λ j, mk (Z.of_nat j) (at_midnight (n + 7 * Z.of_nat r + Z.of_nat j))) <$> seq 0 7) <$> seq 0 rows.

Lemma calendar_rows_spec mk rows n : day_in_range n → day_in_range (n + 7 * Z.of_nat rows) →
  draw_rows mk rows (at_midnight n) = day_rows mk rows n.
Proof.
  unfold day_rows. revert n. induction rows as [|rows IH]; intros n Hn Hn'; [done|].
  cbn [draw_rows]. rewrite draw_row_spec by (unfold day_in_range in *; lia). change (Z.of_nat 7) with 7.
  rewrite IH by (unfold day_in_range in *; lia). rewrite (seq_cons rows), fmap_cons, <- list_fmap_compose. f_equal.
  - apply list_fmap_ext. intros ? j _. change (7 - Z.of_nat 7 + Z.of_nat j) with (Z.of_nat j). do 2 f_equal. lia.
  - apply list_fmap_ext. intros ? r _. cbn -[seq]. apply list_fmap_ext. intros ? j _. f_equal. f_equal. lia.
Qed.

(** The settings of a picker that shows one month, with days for limits. *)
Record plain_settings (s : picker_settings) (lo hi : option Z) : Prop := {
  ps_limits : limits s lo hi;
  ps_lo : match lo with Some a => 1100 <= YearFromDay a | None => True end;
  ps_hi : match hi with Some b => YearFromDay b <= 200000 | None => True end;
  ps_default : defaultDate s = DvNull;
  ps_months : numberOfMonths s = MonthsNone ∨ numberOfMonths s = MonthsNum 1 ∨ numberOfMonths s = MonthsGrid 1 1;
  ps_position : showCurrentAtPos s = 0;
  ps_first : 0 <= default 0 (firstDay s) < 7 }.

(** The day of the fields of a day. *)
Lemma day_of_month n : good_year (YearFromDay n) →
  daylightSavingAdjust (new_date (Some (YearFromDay n)) (Some (MonthFromDay n)) (Some (DateFromDay n))) = at_midnight n.
Proof.
  intros Hy. destruct (fields_of_day n) as [[Hm Hd] En]. pose proof (month_days_pos (leap (YearFromDay n)) (MonthFromDay n)).
  unfold days_in_month in Hd. rewrite adjust_new_date by (done || lia). by rewrite En.
Qed.

Definition first_of (n : Z) : Z := MakeDay (YearFromDay n) (MonthFromDay n) 1.
Definition length_of (n : Z) : Z := days_in_month (YearFromDay n) (MonthFromDay n).
(** The first day that is shown with the month of [n], and the weeks. *)
Definition first_shown (f n : Z) : Z := first_of n - (WeekDay (first_of n) - f) mod 7.
Definition weeks_shown (f n : Z) : nat := Z.to_nat (row_count ((WeekDay (first_of n) - f) mod 7) (length_of n)).

Lemma month_of n : first_of n <= n < first_of n + length_of n ∧ 28 <= length_of n <= 31.
Proof using.
  clear. destruct (fields_of_day n) as [[Hm Hd] E]. pose proof (month_days_pos (leap (YearFromDay n)) (MonthFromDay n)).
  assert (n = first_of n + (DateFromDay n - 1)) as En by (unfold first_of; rewrite <- MakeDay_shift, <- E at 1; f_equal; lia).
  unfold length_of, days_in_month in *. lia.
Qed.

Section drawing.
Variable beforeShowDay : jnum → bool.
#[local] Abbreviation _updateDatepicker := (_updateDatepicker toLowerCase defaults now beforeShowDay).
#[local] Abbreviation redraw := (redraw toLowerCase defaults now beforeShowDay).

Lemma default_found i lo hi : plain_settings (settings i) lo hi → ∃ d, _getDefaultDate toLowerCase defaults now i = Some d.
Proof.
  intros [[Hlo Hhi] _ _ Hd _ _ _]. unfold _getDefaultDate. rewrite Hd. unfold _determineDate at 1. cbn -[clear_time DatePicker._restrictMinMax].
  unfold DatePicker._restrictMinMax, DatePicker.min_date, DatePicker.max_date.
  rewrite (fixed_limit_date i _ lo Hlo), (fixed_limit_date i _ hi Hhi). by eexists.
Qed.

Lemma one_month i lo hi : plain_settings (settings i) lo hi → _getNumberOfMonths i = (1, 1).
Proof using. intros [_ _ _ _ Hm _ _]. unfold _getNumberOfMonths. by destruct Hm as [->|[->| ->]]. Qed.

Lemma draw_start_shown i lo hi n : plain_settings (settings i) lo hi → on_day n i → within lo hi n → good_year (YearFromDay n) →
  match hi with Some b => good_year (YearFromDay b) | None => True end →
  draw_start toLowerCase defaults now i = Some (Some (YearFromDay n), Some (MonthFromDay n)).
Proof using H0.
  intros Hp [_ _ _ O4 O5] Hw Hy Hhb. pose proof (one_month i lo hi Hp) as H1. destruct Hp as [[Hlo Hhi] _ _ _ _ Hpos _].
  destruct (fields_of_day n) as [[Hm _] _].
  unfold draw_start, DatePicker.min_date, DatePicker.max_date.
  rewrite (fixed_limit_date i _ lo Hlo), (fixed_limit_date i _ hi Hhi), H1, O4, O5, Hpos. cbn [mbind option_bind jadd jnum_map2 jnum_lt].
  change (- 0) with 0. rewrite Z.add_0_r. destruct (Z.ltb_spec (MonthFromDay n) 0); [lia|].
  destruct hi as [b|]; [|done]. cbn [fmap option_fmap option_map fst snd].
  destruct (fields_of_day b) as [[Hbm Hbd] Eb]. pose proof (month_days_pos (leap (YearFromDay b)) (MonthFromDay b)).
  change (at_midnight b) with (Some (midnight b)). rewrite getFullYear_midnight, getMonth_midnight, getDate_midnight. cbn [mbind option_bind].
  replace (MonthFromDay b - 1 * 1 + 1) with (MonthFromDay b) by lia. unfold days_in_month in Hbd.
  rewrite adjust_new_date by (done || lia). rewrite Eb. change (Some (midnight b)) with (at_midnight b). rewrite below_midnight.
  assert (match lo with Some a => b <? a | None => false end = false) as ->.
  { destruct lo as [a|]; [|done]. apply Z.ltb_ge. unfold within in Hw. lia. }
  change (at_midnight b) with (Some (midnight b)). rewrite getFullYear_midnight, getMonth_midnight.
  unfold month_distance. set (k := Z.to_nat _). assert (k = S (Nat.pred k)) as -> by lia. cbn [limit_draw].
  rewrite adjust_new_date by (done || lia). cbn [jnum_lt at_midnight].
  destruct (Z.ltb_spec (midnight b) (midnight (MakeDay (YearFromDay n) (MonthFromDay n) 1))) as [Hlt|]; [|done].
  exfalso. apply midnight_lt in Hlt. pose proof (month_of n) as [? _]. unfold first_of in *. unfold within in Hw. lia.
Qed.

(** The instance when it was drawn. *)
Definition drawn (n : Z) (i : inst) : inst :=
  upd_events false (notified i) (upd_selected (Some (DateFromDay n)) (selectedMonth i) (selectedYear i)
    (upd_draw (Some (MonthFromDay n)) (Some (YearFromDay n)) i)).
Lemma drawn_on_day n i : on_day n i → on_day n (drawn n i) ∧ keeps i (drawn n i).
Proof using. intros []. split; by constructor. Qed.

Lemma lead_days_shown i n : good_year (YearFromDay n) → 0 <= default 0 (firstDay (settings i)) < 7 →
  lead_days i (YearFromDay n) (MonthFromDay n) = Some ((WeekDay (first_of n) - default 0 (firstDay (settings i))) mod 7).
Proof using H0.
  intros Hy Hf. destruct (fields_of_day n) as [[Hm _] _]. unfold lead_days, _getFirstDayOfMonth.
  rewrite new_date_good by (done || lia). rewrite getDay_midnight. cbn [mbind option_bind]. fold (first_of n).
  pose proof (weekday_range (first_of n)). rewrite Z.rem_mod_nonneg by lia. f_equal.
  rewrite <- (Z_mod_plus_full (WeekDay (first_of n) - default 0 (firstDay (settings i))) 1 7). done.
Qed.

(** One month is drawn: the weeks from the first day that is shown. *)
Lemma draw_one i lo hi n : plain_settings (settings i) lo hi → on_day n i → within lo hi n → 200 <= YearFromDay n <= 260000 →
  match hi with Some b => good_year (YearFromDay b) | None => True end →
  let f := default 0 (firstDay (settings i)) in
  ∃ d, _updateDatepicker i = Some (drawn n i, [(YearFromDay n, MonthFromDay n,
    day_rows (draw_cell now beforeShowDay (upd_selected (Some (DateFromDay n)) (selectedMonth i) (selectedYear i)
        (upd_draw (Some (MonthFromDay n)) (Some (YearFromDay n)) i))
      (at_midnight <$> lo) (at_midnight <$> hi) (Some d) (at_midnight n) (MonthFromDay n)) (weeks_shown f n) (first_shown f n))]).
Proof using H0.
  intros Hp Ho Hw Hy Hhb f. assert (good_year (YearFromDay n)) as Hg by (unfold good_year; lia).
  set (i1 := upd_draw (Some (MonthFromDay n)) (Some (YearFromDay n)) i).
  assert (plain_settings (settings i1) lo hi) as Hp1 by done.
  destruct (default_found i1 lo hi Hp1) as [d Ed]. exists d.
  unfold DatePicker._updateDatepicker. rewrite (draw_start_shown i lo hi n Hp Ho Hw Hg Hhb). cbn [mbind option_bind]. fold i1.
  rewrite Ed. cbn [mbind option_bind]. unfold DatePicker.min_date, DatePicker.max_date.
  pose proof (one_month i1 lo hi Hp1) as H1. destruct Hp1 as [[Hlo Hhi] _ _ _ _ _ Hf].
  rewrite (fixed_limit_date i1 _ lo Hlo), (fixed_limit_date i1 _ hi Hhi), H1. cbn [mbind option_bind fst snd].
  change (Z.to_nat (1 * 1)) with 1%nat. cbn [draw_months Nat.eqb]. unfold draw_month.
  destruct Ho as [O1 O2 O3 _ _]. destruct (fields_of_day n) as [[Hm Hd] _]. pose proof (month_of n) as [_ Hl].
  rewrite getDaysInMonth_good by (done || lia). rewrite Z.div_small, Z.mod_small, Z.add_0_r by lia. cbn [mbind option_bind].
  rewrite lead_days_shown by done. cbn [mbind option_bind]. fold (length_of n).
  unfold isMultiMonth. rewrite H1. cbn [fst snd negb orb Z.eqb Pos.eqb].
  change (selectedYear i1) with (selectedYear i). change (selectedMonth i1) with (selectedMonth i). change (selectedDay i1) with (selectedDay i).
  rewrite O1, O2, O3. cbn [jnum_eq]. rewrite !Z.eqb_refl. cbn [andb jmin jnum_map2 mbind option_bind].
  unfold length_of in Hl. rewrite Z.min_l by (unfold length_of; lia).
  change (firstDay (settings i1)) with (firstDay (settings i)) in *. fold f in Hf |- *.
  pose proof (Z.mod_pos_bound (WeekDay (first_of n) - f) 7) as Hlead. rewrite day_of_month by done. rewrite adjust_new_date by (done || lia).
  assert (MakeDay (YearFromDay n) (MonthFromDay n) (1 - (WeekDay (first_of n) - f) mod 7) = first_shown f n) as ->.
  { replace (1 - (WeekDay (first_of n) - f) mod 7) with (1 + - ((WeekDay (first_of n) - f) mod 7)) by lia. rewrite MakeDay_shift. unfold first_shown, first_of. lia. }
  fold (at_midnight (first_shown f n)). fold (weeks_shown f n).
  assert (day_in_range (first_shown f n) ∧ day_in_range (first_shown f n + 7 * Z.of_nat (weeks_shown f n))) as [Hr1 Hr2].
  { unfold first_shown, weeks_shown, first_of, row_count, length_of in *.
    pose proof (good_day (YearFromDay n) (MonthFromDay n) 1 Hg ltac:(lia) ltac:(lia)) as Hr.
    pose proof (good_day (YearFromDay n) (MonthFromDay n) 100 Hg ltac:(lia) ltac:(lia)) as Hr'.
    pose proof (good_day (YearFromDay n) (MonthFromDay n) (-100) Hg ltac:(lia) ltac:(lia)) as Hr''.
    replace 100 with (1 + 99) in Hr' by done. replace (-100) with (1 + -101) in Hr'' by done. rewrite MakeDay_shift in Hr', Hr''.
    unfold day_in_range in *. split; divlia. }
  rewrite calendar_rows_spec by done. cbn [mbind option_bind].
  unfold drawn. rewrite O2, O3. destruct (if 11 <? MonthFromDay n + 1 then _ else _). reflexivity.
Qed.

(** What a cell of a day shows. *)
Definition cell_right (i : inst) (lo hi : option Z) (n day : Z) (c : cell) : Prop :=
  c_date c = at_midnight day ∧ (c_other c = false ↔ first_of n <= day < first_of n + length_of n)
  ∧ (c_unselectable c = false ↔
      (c_other c = false ∨ selectOtherMonths (settings i) = true) ∧ beforeShowDay (at_midnight day) = true ∧ within lo hi day)
  ∧ (c_shown c = true ↔ c_other c = false ∨ showOtherMonths (settings i) = true).

Lemma day_rows_at mk rows x r row j c : day_rows mk rows x !! r = Some row → row !! j = Some c →
  (r < rows)%nat ∧ (j < 7)%nat ∧ c = mk (Z.of_nat j) (at_midnight (x + 7 * Z.of_nat r + Z.of_nat j)).
Proof using.
  unfold day_rows. rewrite list_lookup_fmap_Some. intros (r' & -> & Hr) Hc.
  apply lookup_seq in Hr as [-> Hr]. apply list_lookup_fmap_Some in Hc as (j' & -> & Hj). apply lookup_seq in Hj as [-> Hj]. done.
Qed.

Lemma within_limits lo hi day : within lo hi day ↔ below (at_midnight <$> lo) (at_midnight day) = false ∧ above (at_midnight <$> hi) (at_midnight day) = false.
Proof. rewrite below_midnight, above_midnight. unfold within. destruct lo, hi; rewrite ?Z.ltb_ge; tauto. Qed.

Lemma cell_is_right i i' lo hi d selected n day dow : settings i' = settings i →
  first_of n - 7 <= day <= first_of n + length_of n + 6 →
  cell_right i lo hi n day
    (draw_cell now beforeShowDay i' (at_midnight <$> lo) (at_midnight <$> hi) d selected (MonthFromDay n) dow (at_midnight day)).
Proof.
  intros Es Hday. destruct (fields_of_day n) as [[Hm _] _].
  assert (getMonth (at_midnight day) = Some (MonthFromDay day)) as Em by apply getMonth_midnight.
  assert (negb (jnum_eq (getMonth (at_midnight day)) (Some (MonthFromDay n))) = false ↔ first_of n <= day < first_of n + length_of n) as Ho.
  { rewrite Em. cbn. rewrite negb_false_iff, Z.eqb_eq. by apply same_month. }
  unfold cell_right, draw_cell. cbn [c_date c_other c_unselectable c_shown]. split; [done|]. split; [done|].
  rewrite within_limits, Es. split; [rewrite !orb_false_iff, andb_false_iff, !negb_false_iff; tauto|].
  by rewrite orb_true_iff, negb_true_iff.
Qed.




Lemma weeks_cover f n : 0 <= f < 7 →
  let x := first_shown f n in
  WeekDay x = f ∧ x <= first_of n < x + 7
  ∧ first_of n + length_of n <= x + 7 * Z.of_nat (weeks_shown f n) < first_of n + length_of n + 7.
Proof using.
  clear. intros Hf x. pose proof (month_of n) as [_ Hl]. unfold x, first_shown, weeks_shown, row_count, WeekDay in *.
  generalize dependent (first_of n). generalize dependent (length_of n). intros l Hl w.
  assert (0 <= ((w + 4) mod 7 - f) mod 7 < 7) as Hq by (apply Z.mod_pos_bound; lia).
  split; [|split; [lia|]].
  - divlia.
  - set (q := ((w + 4) mod 7 - f) mod 7) in *. clearbody q. divlia.
Qed.

(** ** Keys *)

Lemma clamp_in lo hi n : match lo, hi with Some a, Some b => a <= b | _, _ => True end → within lo hi (clamp lo hi n).
Proof using. unfold within, clamp. destruct lo, hi; lia. Qed.
Lemma clamp_idem lo hi n : clamp lo hi (clamp lo hi n) = clamp lo hi n.
Proof using. unfold clamp. destruct lo, hi; lia. Qed.

Lemma plain_good s lo hi : plain_settings s lo hi →
  match lo with Some a => good_year (YearFromDay a) | None => True end ∧ match hi with Some b => good_year (YearFromDay b) | None => True end.
Proof using. clear. intros [[Hlo Hhi] _ _ _ _ _ _]. split; [by destruct Hlo|by destruct Hhi]. Qed.

Lemma clamp_good s lo hi n : plain_settings s lo hi → good_year (YearFromDay n) → good_year (YearFromDay (clamp lo hi n)).
Proof using.
  clear. intros Hp Hn. destruct (plain_good s lo hi Hp) as [Ha Hb]. unfold clamp.
  destruct lo as [a|], hi as [b|]; try done;
    repeat match goal with |- context [Z.max ?x ?y] => destruct (Z.max_spec x y) as [[_ ->]|[_ ->]]
                         | |- context [Z.min ?x ?y] => destruct (Z.min_spec x y) as [[_ ->]|[_ ->]] end; done.
Qed.









Record current_on (n : Z) (i : inst) : Prop := {
  c_day : currentDay i = Some (DateFromDay n); c_month : currentMonth i = Some (MonthFromDay n); c_year : currentYear i = Some (YearFromDay n) }.
(** The text of a day in the format of the settings. *)
Definition day_text (i : inst) (n : Z) : jstring :=
  formatDate defaults (dateFormat (settings i)) (Some (at_midnight n)) (Some (_getFormatConfig now i)).

Lemma format_day n i : good_year (YearFromDay n) → current_on n i →
  formatDate defaults (dateFormat (settings i)) (Some (daylightSavingAdjust (new_date (currentYear i) (currentMonth i) (currentDay i))))
    (Some (_getFormatConfig now i)) = day_text i n.
Proof.
  intros Hy [-> -> ->]. by rewrite day_of_month.
Qed.








Variable beforeShow : inst → option (picker_settings → picker_settings).
#[local] Abbreviation press_key := (press_key toLowerCase defaults now beforeShowDay beforeShow).
#[local] Abbreviation make_moves := (make_moves toLowerCase defaults now beforeShowDay).












(** While the calendar is hidden, every key but Ctrl+Home is left to the field. *)
Lemma hidden_key disabled k c : cal_showing c = false → (k_code k =? 36) && k_ctrl k = false →
  ∃ c', press_key disabled k c = Some (c', false) ∧ keeps (cal_inst c) (cal_inst c') ∧ cal_showing c' = false.
Proof using.
  intros Hs Hk. unfold DatePicker.press_key. cbn [cal_showing with_inst]. rewrite Hs, Hk. eexists. split; [done|]. split; [by constructor|done].
Qed.

(** ** Days that are set, clicked and read back *)

Lemma current_date n i : current_on n i → good_year (YearFromDay n) → input i ≠ Some [] → _getDate i = Some (at_midnight n).
Proof.
  intros [C1 C2 C3] Hy Hi. unfold _getDate. rewrite C1, C2, C3. cbn [truthy]. rewrite bool_decide_false by done.
  destruct (Z.eqb_spec (YearFromDay n) 0); [unfold good_year in Hy; lia|]. cbn [negb orb].
  by rewrite day_of_month.
Qed.

Hypothesis lower_of_ascii : ∀ s, forallb ascii s = true → toLowerCase s = lower s.

(** The day can be written and read in the format of the settings. *)
Record readable (i : inst) (n : Z) : Prop := {
  rd_separable : separable (lex (dateFormat (settings i))) = true;
  rd_determines : determines (lex (dateFormat (settings i))) = true;
  rd_names : names_fit (Some (_getFormatConfig now i)) defaults = true;
  rd_year : year_fits (thisYear now) (parse_cutoff defaults now (Some (_getFormatConfig now i))) (lex (dateFormat (settings i))) (YearFromDay n) }.

Lemma readable_same i i' n : settings i' = settings i → readable i n → readable i' n ∧ day_text i' n = day_text i n.
Proof using.
  intros E [R1 R2 R3 R4]. assert (_getFormatConfig now i' = _getFormatConfig now i) as Ec by (unfold _getFormatConfig; by rewrite E).
  unfold day_text. rewrite Ec, E. split; [|done]. constructor; by rewrite ?Ec, ?E.
Qed.

Lemma parse_day i n : readable i n → parse_in toLowerCase defaults now i (Some (day_text i n)) = PDate (at_midnight n).
Proof. intros [R1 R2 R3 R4]. by apply date_text_roundtrip. Qed.
Lemma day_text_nonempty i n : readable i n → day_text i n ≠ [].
Proof. intros R E. pose proof (parse_day i n R) as P. rewrite E in P. discriminate P. Qed.

(** A field with the text of the current day is read as that day. *)
Lemma read_back nd i lo hi n : plain_settings (settings i) lo hi → readable i n → within lo hi n → good_year (YearFromDay n) →
  input i = Some (day_text i n) → current_on n i →
  ∃ i', _getDateDatepicker toLowerCase defaults now nd i = Some (i', Some (at_midnight n)) ∧ settings i' = settings i ∧ input i' = input i.
Proof.
  intros Hp R Hw Hy Ei C. pose proof (day_text_nonempty i n R) as Hne. unfold _getDateDatepicker.
  assert (_getDate i = Some (at_midnight n)) as Eg by (apply current_date; [done|done|rewrite Ei; by intros ?; simplify_eq]).
  destruct (inline i); [exists i; cbn [mbind option_bind]; by rewrite Eg|].
  unfold _setDateFromField. rewrite Ei. cbn [mbind option_bind].
  destruct (bool_decide (lastVal i = Some (day_text i n))) eqn:El.
  { exists i. split; [|done]. cbn [mbind option_bind]. rewrite (current_date n i) by (done || by rewrite Ei; intros ?; simplify_eq). done. }
  set (i1 := upd_text (Some (day_text i n)) (Some (day_text i n)) i).
  destruct (default_found i1 lo hi Hp) as [d ->]. cbn [mbind option_bind].
  change (parse_in toLowerCase defaults now i1 (Some (day_text i n))) with (parse_in toLowerCase defaults now i (Some (day_text i n))).
  rewrite (parse_day i n R). cbn [mbind option_bind]. rewrite bool_decide_false by done. cbn [negb].
  unfold at_midnight at 1 2 3. rewrite getDate_midnight, getMonth_midnight, getFullYear_midnight. fold (at_midnight n).
  set (i2 := upd_current _ _ _ (select_date_of (at_midnight n) i1)).
  assert (on_day n i2) as O2 by (destruct (select_on_day n i1); by constructor).
  destruct (adjust_none i2 lo hi n) as (i3 & E3 & _ & K3 & _); [apply Hp|done|done|]. rewrite E3. cbn [mbind option_bind].
  exists i3. destruct K3 as [K1 _ K2 _ K4 K5 K6]. split; [|by rewrite K1, K2].
  rewrite (current_date n i3); [done|by constructor; rewrite ?K4, ?K5, ?K6|done|]. rewrite K2. cbn. intros ?. by simplify_eq.
Qed.

(** Setting a day: it is brought inside the limits and written. *)
Lemma set_day nc i lo hi n old : plain_settings (settings i) lo hi → good_year (YearFromDay n) → input i = Some old →
  let c := clamp lo hi n in
  ∃ i', _setDate toLowerCase defaults now (DvDate (at_midnight n)) nc i = Some i'
    ∧ on_day c i' ∧ current_on c i' ∧ settings i' = settings i ∧ input i' = Some (day_text i c).
Proof.
  intros Hp Hy Ei c. pose proof (clamp_good _ lo hi n Hp Hy) as Hc. fold c in Hc. unfold _setDate.
  assert (_determineDate toLowerCase defaults now i (DvDate (at_midnight n)) (Some (Some now)) = Some (Some (at_midnight n))) as ->.
  { unfold _determineDate. cbn -[clear_time]. by rewrite clear_midnight by (by apply good_day_in_range). }
  cbn [mbind option_bind]. rewrite (restrict_midnight i lo hi n (ps_limits _ _ _ Hp)). cbn [mbind option_bind]. fold c.
  change (at_midnight c) with (Some (midnight c)). rewrite getDate_midnight, getMonth_midnight, getFullYear_midnight.
  change (Some (midnight c)) with (at_midnight c).
  set (i1 := upd_current _ _ _ (select_date_of (at_midnight c) i)).
  assert (on_day c i1 ∧ settings i1 = settings i ∧ input i1 = input i) as (O1 & S1 & I1)
    by (destruct (select_on_day c i); split; [by constructor|done]).
  set (i2 := if _ && negb nc then _notifyChange i1 else i1).
  assert (on_day c i2 ∧ settings i2 = settings i ∧ input i2 = input i) as (O2 & S2 & I2)
    by (unfold i2; destruct (_ && negb nc); [split; [by apply notify_on_day|done]|done]).
  destruct (adjust_none i2 lo hi c) as (i3 & -> & O3 & [K1 _ K2 K3 _ _ _] & _); [rewrite S2; apply Hp|done|done|].
  cbn [mbind option_bind]. rewrite K2, I2, Ei. cbn [clears]. unfold _formatDate_selected.
  unfold c in O3. rewrite clamp_idem in O3. fold c in O3. destruct O3 as [P1 P2 P3 P4 P5].
  eexists. split; [done|]. split; [by constructor|]. split; [by constructor|]. split; [by rewrite <- S2, <- K1|].
  cbn [input upd_text]. cbn [currentYear currentMonth currentDay upd_current settings]. rewrite P1, P2, P3.
  rewrite day_of_month by done. unfold day_text, at_midnight.
  assert (settings i3 = settings i) as S3 by (by rewrite K1).
  unfold _getFormatConfig. cbn [settings upd_current]. by rewrite S3.
Qed.

(** The cells of the month that is drawn. *)
Lemma calendar_cells i lo hi n : plain_settings (settings i) lo hi → on_day n i → within lo hi n → 200 <= YearFromDay n <= 260000 →
  let f := default 0 (firstDay (settings i)) in
  ∃ rows, _updateDatepicker i = Some (drawn n i, [(YearFromDay n, MonthFromDay n, rows)]) ∧ length rows = weeks_shown f n
    ∧ ∀ r row, rows !! r = Some row → length row = 7%nat ∧ ∀ j c, row !! j = Some c →
      let day := first_shown f n + 7 * Z.of_nat r + Z.of_nat j in
      first_of n - 7 <= day <= first_of n + length_of n + 6 ∧ cell_right i lo hi n day c.
Proof.
  intros Hp Ho Hw Hy f. destruct (draw_one i lo hi n Hp Ho Hw Hy) as [d Ed]; [apply (plain_good _ _ _ Hp)|].
  destruct (weeks_cover f n (ps_first _ _ _ Hp)) as (_ & Hx & Hlen).
  eexists. split; [exact Ed|]. split; [unfold day_rows; by rewrite length_fmap, length_seq|].
  intros r row Hr. split.
  - unfold day_rows in Hr. apply list_lookup_fmap_Some in Hr as (r' & -> & _). by rewrite length_fmap, length_seq.
  - intros j c Hc day. destruct (day_rows_at _ _ _ _ _ _ _ Hr Hc) as (Hrb & Hj & ->).
    assert (first_of n - 7 <= day <= first_of n + length_of n + 6) as Hd by (unfold day; fold f in Hrb; lia).
    split; [done|]. by apply cell_is_right.
Qed.

Lemma near_year n day : first_of n - 7 <= day <= first_of n + length_of n + 6 → YearFromDay n - 1 <= YearFromDay day <= YearFromDay n + 1.
Proof using.
  clear. intros Hd. pose proof (month_of n) as [Hn Hl]. pose proof (year_spec n). pose proof (year_spec day).
  destruct (Z.lt_trichotomy (YearFromDay day) (YearFromDay n)) as [Hlt|[E|Hlt]]; [|lia|].
  - destruct (Z.eq_dec (YearFromDay day) (YearFromDay n - 1)); [lia|].
    pose proof (year_le (YearFromDay day + 1) (YearFromDay n) ltac:(lia)). lia.
  - destruct (Z.eq_dec (YearFromDay day) (YearFromDay n + 1)); [lia|].
    pose proof (year_le (YearFromDay n + 1) (YearFromDay day) ltac:(lia)). lia.
Qed.

(** A click on a cell that can be selected and shows its day: the day is written. *)
Lemma click_day c lo hi n day td old : cell_right (cal_inst c) lo hi n day td → c_unselectable td = false → c_shown td = true →
  good_year (YearFromDay day) → input (cal_inst c) = Some old → inline (cal_inst c) = false →
  ∃ c', click_cell toLowerCase defaults now beforeShowDay false td c = Some c' ∧ current_on day (cal_inst c')
    ∧ settings (cal_inst c') = settings (cal_inst c) ∧ input (cal_inst c') = Some (day_text (cal_inst c) day) ∧ cal_showing c' = false.
Proof.
  intros (Ec & _) Hu Hshown Hy Ei Hin. unfold click_cell, _selectDay. rewrite Hu, Hshown, Ec. cbn [orb]. unfold at_midnight.
  rewrite getMonth_midnight, getFullYear_midnight, getDate_midnight.
  set (i1 := upd_current _ _ _ _). assert (current_on day i1) as Hcu by done.
  assert (_formatDate defaults now i1 (currentDay i1) (currentMonth i1) (currentYear i1) = (i1, day_text (cal_inst c) day)) as ->.
  { unfold _formatDate. rewrite (format_day day i1) by done. change (currentDay i1) with (Some (DateFromDay day)). cbn [truthy].
    destruct (fields_of_day day) as [[_ Hd] _]. destruct (Z.eqb_spec (DateFromDay day) 0); [lia|]. done. }
  unfold _selectDate. cbn [cal_inst with_inst]. change (input i1) with (input (cal_inst c)). rewrite Ei.
  cbn [inline upd_text]. change (inline i1) with (inline (cal_inst c)). rewrite Hin.
  eexists. by split; [done|].
Qed.

End drawing.
End days.

(** ** The theorems of the picker *)

(** C14: the calendar of a picker that shows one month, between fixed limits, shows every day of the month of
    the selected day exactly once, in whole weeks that begin on the first day of the week, and a day can be
    selected exactly when it is of that month (or other months are admitted), is allowed and lies within the
    limits; the days of other months are shown exactly when the settings say so. *)
Theorem calendar_shows_month `{ZoneLaws} toLowerCase defaults now beforeShowDay i lo hi n :
  plain_settings (settings i) lo hi → on_day n i → within lo hi n → 200 <= YearFromDay n <= 260000 →
  let x := first_shown (default 0 (firstDay (settings i))) n in
  ∃ rows, _updateDatepicker toLowerCase defaults now beforeShowDay i = Some (drawn n i, [(YearFromDay n, MonthFromDay n, rows)])
    ∧ WeekDay x = default 0 (firstDay (settings i)) ∧ x <= first_of n < x + 7
    ∧ first_of n + length_of n <= x + 7 * Z.of_nat (length rows) < first_of n + length_of n + 7
    ∧ ∀ r row, rows !! r = Some row → length row = 7%nat
      ∧ ∀ j c, row !! j = Some c → cell_right beforeShowDay i lo hi n (x + 7 * Z.of_nat r + Z.of_nat j) c.
Proof.
  intros Hp Ho Hw Hy x. destruct (calendar_cells toLowerCase defaults now beforeShowDay i lo hi n Hp Ho Hw Hy) as (rows & E & El & Hc).
  destruct (weeks_cover (default 0 (firstDay (settings i))) n (ps_first _ _ _ Hp)) as (Hwd & Hx & Hlen).
  exists rows. rewrite El. split; [done|]. split; [done|]. split; [done|]. split; [done|].
  intros r row Hr. destruct (Hc r row Hr) as [H7 Hcell]. split; [done|]. intros j c Hj. by apply (Hcell j c).
Qed.


(** C13: a day that is set is brought inside the limits, written into the field and read back from it as the date of the picker. *)
Theorem set_day_read_back `{ZoneLaws} toLowerCase defaults now nc nd i lo hi n old :
  (∀ s, forallb ascii s = true → toLowerCase s = lower s) →
  plain_settings (settings i) lo hi → match lo, hi with Some a, Some b => a <= b | _, _ => True end →
  good_year (YearFromDay n) → input i = Some old → readable defaults now i (clamp lo hi n) →
  ∃ i' i'', _setDate toLowerCase defaults now (DvDate (at_midnight n)) nc i = Some i'
    ∧ input i' = Some (day_text defaults now i (clamp lo hi n)) ∧ on_day (clamp lo hi n) i'
    ∧ _getDateDatepicker toLowerCase defaults now nd i' = Some (i'', Some (at_midnight (clamp lo hi n))) ∧ input i'' = input i'.
Proof.
  intros Hlow Hp Hlh Hy Ei R. destruct (set_day toLowerCase defaults now nc i lo hi n old Hp Hy Ei) as (i' & E & O & C & S & I).
  destruct (readable_same defaults now i i' (clamp lo hi n) S R) as [R' T].
  destruct (read_back toLowerCase defaults now Hlow nd i' lo hi (clamp lo hi n)) as (i'' & E' & _ & I'); try done.
  - by rewrite S.
  - by apply clamp_in.
  - by eapply clamp_good.
  - by rewrite I, T.
  - exists i', i''. done.
Qed.

(** C16: a day that can be selected in the calendar lies within the limits; a click on a cell that shows its day hides the calendar and
    writes the day into the field, and it is read back from there as the date of the picker. *)
Theorem clicked_day_read_back `{ZoneLaws} toLowerCase defaults now beforeShowDay nd c0 c1 lo hi n old y m rows r row j td :
  let i := cal_inst c0 in
  (∀ s, forallb ascii s = true → toLowerCase s = lower s) →
  plain_settings (settings i) lo hi → on_day n i → within lo hi n → 200 <= YearFromDay n <= 200000 → input i = Some old → inline i = false →
  redraw toLowerCase defaults now beforeShowDay c0 = Some c1 → cal_months c1 = [(y, m, rows)] →
  rows !! r = Some row → row !! j = Some td → c_unselectable td = false → c_shown td = true →
  let day := first_shown (default 0 (firstDay (settings i))) n + 7 * Z.of_nat r + Z.of_nat j in
  readable defaults now i day →
  c_date td = at_midnight day ∧ within lo hi day
  ∧ ∃ c2 i3, click_cell toLowerCase defaults now beforeShowDay false td c1 = Some c2 ∧ cal_showing c2 = false
    ∧ input (cal_inst c2) = Some (day_text defaults now i day)
    ∧ _getDateDatepicker toLowerCase defaults now nd (cal_inst c2) = Some (i3, Some (at_midnight day)).
Proof.
  intros i Hlow Hp Ho Hw Hy Ei Hin' E Em Hr Hj Hu Hshown day R.
  destruct (calendar_cells toLowerCase defaults now beforeShowDay i lo hi n Hp Ho Hw) as (rows' & E' & _ & Hcells); [lia|].
  unfold redraw in E. fold i in E. rewrite E' in E. injection E as <-. injection Em as <- <- <-.
  destruct (Hcells r row Hr) as [_ Hc]. destruct (Hc j td Hj) as [Hd Hcell]. fold day in Hd, Hcell.
  assert (within lo hi day) as Hin by (destruct Hcell as (_ & _ & Hcu & _); exact (proj2 (proj2 (proj1 Hcu Hu)))).
  assert (good_year (YearFromDay day)) as Hg by (pose proof (near_year n day Hd); unfold good_year; lia).
  split; [apply Hcell|]. split; [done|].
  destruct (drawn_on_day n i Ho) as [_ [K1 Kin K2 _ _ _ _]].
  destruct (readable_same defaults now i (drawn n i) day K1 R) as [R1 T1].
  destruct (click_day toLowerCase defaults now beforeShowDay
    {| cal_inst := drawn n i; cal_months := [(YearFromDay n, MonthFromDay n, rows')]; cal_showing := cal_showing c0 |} lo hi n day td old)
    as (c2 & E2 & C2 & S2 & I2 & H2); [done..|]. cbn [cal_inst] in *.
  destruct (readable_same defaults now (drawn n i) (cal_inst c2) day S2 R1) as [R2 T2].
  destruct (read_back toLowerCase defaults now Hlow nd (cal_inst c2) lo hi day) as (i3 & E3 & _); try done.
  - by rewrite S2.
  - by rewrite I2, T2.
  - exists c2, i3. split; [done|]. split; [done|]. split; [by rewrite I2, T1|done].
Qed.

(** ** An instance

    The last day of February of 2016 in a zone where its first hour is skipped, between the 10th of February and the
    5th of March. *)
#[local] Existing Instance summer.

Definition sample_settings : picker_settings := {|
  dateFormat := "mm/dd/yy"%js; s_dates := english;
  minDate := DvDate (at_midnight 16841); maxDate := DvDate (at_midnight 16865); defaultDate := DvNull;
  numberOfMonths := MonthsNum 1; showCurrentAtPos := 0; stepMonths := 1; stepBigMonths := 12; yearRange := "c-10:c+10"%js;
  gotoCurrent := false; firstDay := Some 1; constrainInput := true; showOtherMonths := false; selectOtherMonths := true; isRTL := false;
  onSelect := false |}.
Definition sample : inst := select_date_of (at_midnight 16860) (newInst sample_settings (Some []) false).

Lemma sample_plain : plain_settings sample_settings (Some 16841) (Some 16865).
Proof.
  constructor.
  - split; [apply (day_limit 16841)|apply (day_limit 16865)]; vm_compute; split; discriminate.
  - vm_compute. discriminate.
  - vm_compute. discriminate.
  - reflexivity.
  - right. by left.
  - reflexivity.
  - split; [discriminate|reflexivity].
Qed.
Lemma sample_on_day : on_day 16860 sample.
Proof. apply select_on_day. Qed.
Lemma sample_readable n : 1000 <= YearFromDay n <= 9999 → readable english 1456000000000 sample n.
Proof.
  intros Hn. constructor; [by vm_compute..|]. split; [done|]. split; [|intros E; vm_compute in E; discriminate E].
  intros E. exfalso. revert E. apply (bool_decide_eq_false_1 _). vm_compute. reflexivity.
Qed.

Example calendar_shows_month_witness :
  let x := first_shown 1 16860 in
  ∃ rows, _updateDatepicker lower english 1456000000000 (λ _, true) sample = Some (drawn 16860 sample, [(2016, 1, rows)])
    ∧ WeekDay x = 1 ∧ x <= first_of 16860 < x + 7
    ∧ first_of 16860 + length_of 16860 <= x + 7 * Z.of_nat (length rows) < first_of 16860 + length_of 16860 + 7
    ∧ ∀ r row, rows !! r = Some row → length row = 7%nat
      ∧ ∀ j c, row !! j = Some c → cell_right (λ _, true) sample (Some 16841) (Some 16865) 16860 (x + 7 * Z.of_nat r + Z.of_nat j) c.
Proof.
  apply (calendar_shows_month lower english 1456000000000 (λ _, true) sample (Some 16841) (Some 16865) 16860);
    [apply sample_plain|apply sample_on_day|split; lia|vm_compute; split; discriminate].
Defined.

(** The calendar of the instance, open and drawn; page down, Ctrl+page up, Ctrl+Alt+right, Ctrl+Home, Ctrl+left and return. *)
Definition sample_calendar : calendar := {| cal_inst := sample; cal_months := []; cal_showing := true |}.
#[local] Abbreviation in_sample f := (f lower english 1456000000000 (λ _ : jnum, true)).


Example set_day_read_back_witness :
  ∃ i' i'', _setDate lower english 1456000000000 (DvDate (at_midnight 17000)) false sample = Some i'
    ∧ input i' = Some (day_text english 1456000000000 sample (clamp (Some 16841) (Some 16865) 17000)) ∧ on_day (clamp (Some 16841) (Some 16865) 17000) i'
    ∧ _getDateDatepicker lower english 1456000000000 false i' = Some (i'', Some (at_midnight (clamp (Some 16841) (Some 16865) 17000))) ∧ input i'' = input i'.
Proof.
  apply (set_day_read_back lower english 1456000000000 false false sample (Some 16841) (Some 16865) 17000 []);
    [done|apply sample_plain|lia|vm_compute; split; discriminate|done|apply sample_readable; vm_compute; split; discriminate].
Defined.

(** The 25th of February. *)
Example clicked_day_read_back_witness :
  ∃ c1 td, in_sample redraw sample_calendar = Some c1 ∧ In td (cells c1) ∧ c_date td = at_midnight 16856 ∧ within (Some 16841) (Some 16865) 16856
  ∧ ∃ c2 i3, in_sample click_cell false td c1 = Some c2 ∧ cal_showing c2 = false
    ∧ input (cal_inst c2) = Some (day_text english 1456000000000 sample 16856)
    ∧ _getDateDatepicker lower english 1456000000000 true (cal_inst c2) = Some (i3, Some (at_midnight 16856)).
Proof.
  destruct (in_sample redraw sample_calendar) as [c1|] eqn:E; [|vm_compute in E; discriminate E].
  destruct (cal_months c1) as [|[[y m] rows] [|? ?]] eqn:Em; [vm_compute in E; injection E as <-; discriminate Em| |vm_compute in E; injection E as <-; discriminate Em].
  destruct (rows !! 3%nat) as [row|] eqn:Er; [|vm_compute in E; injection E as <-; vm_compute in Em; injection Em as _ _ <-; vm_compute in Er; discriminate Er].
  destruct (row !! 3%nat) as [td|] eqn:Ec;
    [|vm_compute in E; injection E as <-; vm_compute in Em; injection Em as _ _ <-; vm_compute in Er; injection Er as <-; vm_compute in Ec; discriminate Ec].
  exists c1, td. split; [reflexivity|]. split.
  { unfold cells. rewrite Em. cbn. rewrite app_nil_r. apply in_concat. exists row.
    split; apply list_elem_of_In; eapply list_elem_of_lookup_2; eassumption. }
  change 16856 with (first_shown (default 0 (firstDay (settings sample))) 16860 + 7 * Z.of_nat 3 + Z.of_nat 3).
  apply (clicked_day_read_back lower english 1456000000000 (λ _, true) true sample_calendar c1 (Some 16841) (Some 16865) 16860 [] y m rows 3 row 3 td);
    [done|apply sample_plain|apply sample_on_day|split; lia|vm_compute; split; discriminate|done|done|exact E|exact Em|exact Er|exact Ec| | |].
  - vm_compute in E; injection E as <-; vm_compute in Em; injection Em as _ _ <-; vm_compute in Er; injection Er as <-; vm_compute in Ec; injection Ec as <-. reflexivity.
  - vm_compute in E; injection E as <-; vm_compute in Em; injection Em as _ _ <-; vm_compute in Er; injection Er as <-; vm_compute in Ec; injection Ec as <-. reflexivity.
  - apply sample_readable. vm_compute. split; discriminate.
Defined.

(** ** Where the picker surprises

    Setting today as the number 0 of days empties the field; a text that cannot be read is taken for the default date, which
    the search page then sends; a range of years without a colon is an exception when the bounds of the pages are computed; the
    cell of a day of another month that is not shown, but may be selected, has no link whose text is the day, and a
    click on it writes a date of NaNs. *)
Example blank_cell_nan :
  (c ← in_sample redraw sample_calendar; td ← find (λ td, negb (c_shown td) && negb (c_unselectable td)) (cells c);
   c ← in_sample click_cell false td c; Some (c_date td, input (cal_inst c), currentDay (cal_inst c)))
  = Some (at_midnight 16861, Some "NaN/NaN/NaN"%js, None).
Proof. vm_compute. reflexivity. Qed.

Example today_clears : (λ i, (input i, selectedDay i)) <$> _setDate lower english 1456000000000 (DvNum (Some 0)) false sample = Some (Some [], Some 20).
Proof. vm_compute. reflexivity. Qed.

Example unreadable_is_today :
  snd <$> _getDateDatepicker lower english 1456000000000 false (upd_text (Some "no date"%js) None sample) = Some (Some (at_midnight 16851)).
Proof. vm_compute. reflexivity. Qed.

Example one_year_throws :
  let s := {| dateFormat := "mm/dd/yy"%js; s_dates := english; minDate := DvNull; maxDate := DvNull; defaultDate := DvNull;
    numberOfMonths := MonthsNum 1; showCurrentAtPos := 0; stepMonths := 1; stepBigMonths := 12; yearRange := "2016"%js;
    gotoCurrent := false; firstDay := Some 1; constrainInput := true; showOtherMonths := false; selectOtherMonths := true; isRTL := false;
  onSelect := false |} in
  _canAdjustMonth lower english 1456000000000 (newInst s None false) 1 (Some 2016) (Some 1) = None.
Proof. vm_compute. reflexivity. Qed.

(** Relative dates: a step of months is not beyond the end of the month. *)
Example relative_ex : let i := newInst sample_settings (Some []) false in
  (λ s, (λ d, (getFullYear d, getMonth d, getDate d)) (relative_date lower 1454200000000 i s)) <$> ["+1m"; "-1y +2d"; "+2w 1"; "x"]%js
  = [(Some 2016, Some 1, Some 29); (Some 2015, Some 1, Some 2); (Some 2016, Some 1, Some 15); (Some 2016, Some 0, Some 31)].
Proof. vm_compute. reflexivity. Qed.
